(* ===== verification/_CoqProject ===== *)
-Q . S2P
Prelude.v
MessageBlock.v
Chain.v
Chars.v
ByteOrder.v
Wire.v
Decimal.v
Lex.v
Fragments.v
Replies.v
Regex.v
InetAddr.v
AddressTools.v
SmtpClient.v
SmtpReply.v
PopClient.v
PopReply.v
FtpTools.v
FtpControl.v
FtpReply.v
FtpData.v
PcpTools.v
PcpWire.v
PcpSession.v
DhcpTools.v
DhcpWire.v
DhcpDiscover.v
Platform.v
BitTorrentPieces.v
BitTorrentChunks.v
BitTorrentFiles.v
BencodingScanner.v
BencodingParser.v
MetaInfoFile.v
BitTorrentStore.v
BitTorrentText.v
BitTorrentWire.v
BitTorrentParser.v
BitTorrentSession.v
BitTorrentExchange.v
BitTorrentProtocol.v
WebSocket.v
WebSocketScanner.v
WebSocketParser.v
HttpTools.v
HttpUrls.v
HttpStreamer.v
BitTorrentTracker.v
BitTorrentThreads.v
BitTorrentAnnounce.v
BitTorrentControl.v
HttpScanner.v
HttpLines.v
HttpGrammar.v
HttpParser.v
StateMachine.v
IrcRegistration.v
WlanMonitor.v
IrcCodes.v
IrcNumerics.v
IrcTools.v
IrcWire.v
IrcClient.v
ConnectionManager.v
ConnectionBase.v
