(* ===== verification/Prelude.v ===== *)
(** * ACENetwork: a verification library

    ACENetwork is a C++ library of network clients and servers on the ACE framework:
    sockets and connections, a manager of open connections, WLAN monitoring, and the
    protocols BitTorrent, HTTP, IRC, WebSocket, PCP, DHCP, POP, SMTP, FTP, SSDP and PPSPP.
    A connection feeds the bytes it receives, in chains of message blocks, to a
    generated scanner and parser; the records these yield are handled by the session
    of the protocol, with the tools of the protocol (the [*_Tools] classes).  This
    library models the parts with logic of their own, under src/src, as executable
    definitions, and proves what makes them correct.

    ** Conventions

    - An [unsigned int], [size_t] or [ACE_UINT64] is a [Z]; where the C++ computes at that
      width, the wrap is written ([u32], [u64], [+u], [-u]; this file).
    - A call that can fail is an [outcome]: [Ok a] is a return, [Abort] a failed
      [ACE_ASSERT], [Undef] undefined behaviour (null, out of range, moved past the end).
      Errors that the code returns ([false], [-1], [NULL], an empty string) are values.
    - A [char] is an [ascii] with the byte [code], a [std::string] a [string]; bytes of
      messages are [Z]s in 0..255, a [std::vector], [std::deque] or [ACE_DLList] is a [list],
      a [std::map] a list of pairs in the order of its keys.
    - Log messages, traces and locks are left out; a lock scope is one step.
    - What is not in the repository is an interface or a parameter, with the documented
      behaviour that the code relies on as laws or hypotheses, and an instance that shows
      they can hold: [MessageBlock] (and [WritableBlock]), [ByteOrder], [FileSystem],
      [FileStream], [Bencoding], [SyncBase], [AsyncBase], [ReferenceCounts], [InetAddr];
      [std::sort], SHA1, Base64 and the like are variables of sections.

    ** The files

    - [Prelude]: this file; integers, outcomes, switches, generic lemmas, automation
      ([bool_lia], the hint databases).  [Chars]: <cctype> and number formatting;
      [Decimal]: printing and reading of decimal numbers.
    - [Regex]: std::regex_match, with a meaning of expressions and the proof that the
      matcher finds a match exactly when there is one.  [Lex]: the regular languages of flex
      with their derivatives, the longest match and the first rule that has it.
      [Fragments]: a scanner of flex that goes from one received fragment to the next; [uncut]
      is what its rules need of the fragments.  [Replies]: lines, and codes of three digits.
    - [MessageBlock], [Platform], [StateMachine]: the interfaces above.  [Chain]: the two
      loops with which the parser modules go through a chain of fragments.  [ByteOrder]: the
      byte order of the machine, and numbers in network byte order.
    - [Wire]: the streamers that copy field after field to a block, the rules of the
      scanners that read octets, and the logic in which both are reasoned about: what
      copies write, what a rule reads, and what it can yield.

    Addresses (net_common_tools.cpp)
    - [InetAddr]: the interface of ACE_INET_Addr.
    - [AddressTools]: which strings are IPv4 addresses, conversions of addresses to text
      and back, the parts of URLs.

    Port control (protocol/pcp: pcp_tools, pcp_common.h, pcp_codes.h,
    pcp_module_streamer.inl, scripts/scanner.l, scripts/parser.y, pcp_session.inl)
    - [PcpTools]: the records of PCP, their printed form, and the memory they refer to: it
      is released once, and never through a copy that has been cleared.
    - [PcpWire]: requests have the layout of RFC 6887 (but for three bytes), and a response
      that repeats the data and the options of a request is read as it was written; options
      with arrays overflow their array, and truncated datagrams end the program.
    - [PcpSession]: the requests that a session makes, down to the octets of a datagram.

    Dynamic host configuration (protocol/dhcp: dhcp_tools, dhcp_common.h, dhcp_codes.h,
    dhcp_module_streamer.inl, scripts/scanner.l, scripts/parser.y, dhcp_module_discover.inl)
    - [DhcpTools]: the records of DHCP with their map of options, and which of them can be
      printed.
    - [DhcpWire]: a message has the layout of RFC 2131 when its options fit (they overflow
      their buffer otherwise), what is written is read back, what is read is well formed
      whatever the datagram holds; the cookie is not checked.
    - [DhcpDiscover]: the module that requests what a server offers, from the octets of the
      offer to those of the request; the options that it asserts; the reference to its
      connection.

    Mail and files (protocol/smtp, protocol/pop, protocol/ftp: *_module_send.inl,
    *_module_streamer.inl, *_tools, *_codes.h, *_common.h, ftp_control, scripts/scanner.l,
    scripts/parser.y, *_parser_driver.inl)
    - [SmtpClient]: the dialogue that delivers a mail (the commands are those of RFC 5321,
      in order, and the mail is sent last), what a refusal does to it, and the text of the
      commands, which a mail can smuggle others into.  [SmtpReply]: the scanner and the grammar
      of the replies, and a delivery from their octets, in fragments that do not cut a line.
    - [PopClient]: the dialogue that retrieves and deletes the messages of a maildrop.
      [PopReply]: its replies from octets: the messages are passed on as they were sent, without
      the dots that were put before some lines, but for the lines that are empty.
    - [FtpTools]: addresses in PORT and in replies to PASV, the text of the commands.
    - [FtpControl]: the queue of transfers in passive and active mode: none is requested
      twice or out of order in passive mode, whatever the server does; the replies that
      end the program.
    - [FtpReply]: the replies from octets, and a session in passive mode: login, and transfers
      from the addresses that the server announces, in whatever fragments that do not cut a code
      or a text; the replies that are not read, or end the program.
    - [FtpData] (ftp_module_parser_data.inl, scripts/scanner_data.l, scripts/parser_data.y):
      the data connections.  The lines of a listing are passed on once and in order, whatever
      fragments they come in that do not cut a line break, and the octets of a file in any.

    BitTorrent (protocol/p2p/bittorrent/bittorrent_{tools,common,defines})
    - [BitTorrentPieces]: pieces, chunks and bitfields.  A bitfield is read bit by bit
      ([havePiece], off by one at its end), and the lists of missing and held pieces
      partition the pieces.
    - [BitTorrentChunks]: [sanitizeChunks] sorts the chunks of a piece, drops duplicates
      and crops overlaps; [getMissingChunks] yields the block requests that tile the gaps.
      A piece is complete exactly when there is no request left; two theorems state
      where the code loses bytes (the crop removes the front of a block) or requests
      bytes that are held.  The loop that splits a gap into requests has the fuel
      [request_fuel], the number of blocks of the gap, so it never runs out
      ([request_blocks_tiles]).
    - [BitTorrentFiles]: metainfo lookups, and [assembleFiles], which lays the bytes of
      the pieces out over the files of the torrent in order.
    - [BencodingScanner] (scripts/bencoding_scanner.ll): the rules of bencoding and their
      stack of conditions; elements as BEP 3 has them.  [BencodingParser]
      (scripts/bencoding_parser.yy, bittorrent_bencoding_parser_driver.{h,cpp}): the grammar,
      and the driver that makes the elements in a store.  An element in its bencoding is read,
      nested as it may be, and what follows it is left ([parse_bencoded]); what is not bencoding
      and is taken, or ends the program.
    - [MetaInfoFile]: [parseMetaInfoFile], from the octets of a file to the elements in the
      store, the length of the torrent and its info hash, as [BitTorrentFiles] computes them.
    - [BitTorrentStore]: piece files: names, [savePiece] and [loadPiece] (a round trip,
      and the loss of a piece on a short write), [loadPieces], [validatePieceHash].
    - [BitTorrentText]: printed messages; announce and scrape URLs.
    - [BitTorrentWire] (bittorrent_module_streamer.inl, scripts/scanner.l): what a peer
      sends, and the rules that read it.  A handshake and every message but a bitfield
      is read back as it was sent; the length sent with a bitfield is wrong, and the
      theorem on it says what the receiver makes of it.
    - [BitTorrentParser] (bittorrent_module_parser.inl): [record] cuts a message off the
      received fragments, wherever these begin and end.
    - [BitTorrentSession] (bittorrent_session.inl, bittorrent_network.h): the session of
      a torrent, its peers and the handlers of what they send; what the handlers do to
      the outside is a list of outputs, what they learn from it an [environment].
    - [BitTorrentExchange]: which blocks are requested, what a received block may change,
      what is uploaded and advertised, and the messages that the code does not check.
    - [BitTorrentProtocol]: an abstract specification of what may be sent to a peer, and
      the refinement of it by every sequence of events that the session handles.
    - [BitTorrentTracker] (bittorrent_streamhandler.inl, bittorrent_session.inl): the responses
      of trackers.  From the octets of a response to the addresses of the peers; what is read
      from a store is read from its elements, on every branch; the responses that abort.
    - [BitTorrentThreads] (bittorrent_session.cpp): the threads that connect to these addresses,
      as a step relation.  In every interleaving each address is connected to, once, before the
      session is said to have done, and all threads end.
    - [BitTorrentAnnounce] (bittorrent_control.inl, bittorrent_session.inl): the requests to
      trackers.  What a tracker reads of an announce is what it was made of.
    - [BitTorrentControl] (bittorrent_control.{h,inl}): the sessions by the base names of their
      files, and the queue of their events.  A request is carried out, or leaves nothing but the
      connection to the tracker that it has opened; the events that end the program, and the
      completion that is not announced.

    WebSocket (protocol/ws: ws_module_streamer.inl, scripts/scanner.l, ws_module_parser.{h,inl},
    ws_parser_driver.inl)
    - [WebSocket]: the streamer writes the frames of RFC 6455, masked.
    - [WebSocketScanner]: the rules that read the frames of a server; the payloads of one
      byte and of 64 bit sizes, which they do not read.
    - [WebSocketParser]: the module with its queue and its thread, as events: whatever the
      fragments, the payloads of the frames that have arrived are passed on, each once and in
      order, and the thread waits only for octets that have not arrived, when the driver waits
      for data and scans copies of the fragments; the end of a session stops it wherever it
      waits; without blocking, a frame in two fragments aborts, and of fragments that are
      scanned themselves the frames behind the first are misread.

    HTTP (protocol/http: http_{tools,codes,common,defines}, http_module_streamer.inl,
    http_module_parser.{h,inl}, http_parser_driver.{h,inl}, scripts/scanner.l, scripts/parser.y)
    - [HttpTools]: names of methods, versions and status codes, header classes (a
      partition), the dump of a record (every header once), percent encoding (round
      trip, safe alphabet, the exact inputs on which decoding is undefined).
    - [HttpUrls]: the functions on regular expressions.  Which strings are URIs, the parts of
      a URL and the address that is set from them (with the port of HTTP or HTTPS, whatever
      the protocol), the path without its parameters.
    - [HttpStreamer]: a request or a response is read, by a reader of RFC 9112, as its line,
      its header fields and its body; the length of the form of a POST; forms, which are
      not encoded.
    - [HttpScanner]: the expressions and rules of the scanner, every one, and how it goes from
      fragment to fragment; [uncut] is what it needs of the fragments.
    - [HttpLines]: for each line of a message, the rule that applies, whatever is behind it.
    - [HttpGrammar]: the grammar, from the first line to the last chunk, and what it makes of
      heads and bodies as they are sent.
    - [HttpParser]: one turn of the module: a message in chunks, and a POST that [HttpStreamer]
      has written, come out of it with their head and exactly their data, in whatever fragments
      that do not cut a line (nor the end of the last chunk), and what follows is left; the
      messages that are not read: with an address that the expressions do not match, with a
      body of one octet, or with the end of the last chunk in two fragments.

    IRC (protocol/irc/irc_{tools,codes,common,record}, irc_statemachine_registration,
    irc_module_streamer.inl, scripts/scanner.l, scripts/parser.y; the client of
    test_i/IRC_client)
    - [IrcCodes], [IrcNumerics]: the numeric replies, and that their names identify them.
    - [IrcTools]: commands, user and channel modes as bitsets, the mode strings that
      change them ([merge] against a specification by the last mention of a mode), and the
      printed forms of messages.
    - [IrcRegistration]: the registration machine implements its protocol, rounds of PASS,
      NICK, USER and FINISHED.
    - [IrcWire]: the streamer, the rules of the scanner and the grammar.  What is read of a
      record of RFC 1459 without lists: the record, but for a last parameter that is empty or
      begins with a colon and has no blank; the separator behind a list is that of its items.
    - [IrcClient]: the handler of the client.  Its requests against their parameters in
      RFC 1459: which of them a server gets as they are meant (and the lists that are not sent
      as such), the answer to a PING, from octets
      to octets, the order of the registration and when it is finished.

    WLAN (wlan/net_wlan_monitor_statemachine, net_wlan_common)
    - [WlanMonitor]: the transitions on each platform.  Invariants of the synchronous
      machine; the asynchronous one has, whatever the interleaving, the history of its accepted
      requests in their order, each judged from the state that the requests before it lead to;
      the reachable states, and that no state is a dead end.

    Connections (net_connection_manager, net_connection_base)
    - [ConnectionManager]: registration, lookup, abort; reference counts.  Aborting all
      connections ends after two rounds ([abort_all] with fuel two) when a connection
      deregisters as it is aborted; otherwise the code spins, as its header warns.
    - [ConnectionBase]: the system of manager, connections and clients as a step relation;
      every load and store of [isRegistered_] is a step.  Counts are exact and registration is
      consistent in all interleavings in which the registrations and deregistrations of one
      connection do not overlap; what is lost when they do.

    How they interact: [BitTorrentChunks] works on the pieces of [BitTorrentPieces],
    [BitTorrentStore] saves and loads them, [BitTorrentFiles] assembles the loaded files;
    [MetaInfoFile] loads files with [Platform], reads them with [BencodingParser], whose tokens
    [BencodingScanner] yields with the expressions of [Lex], and hands the store to [BitTorrentFiles];
    [BitTorrentWire] sends the records of [BitTorrentText], and [BitTorrentParser] frames
    what its rules have read; [BitTorrentSession] handles the records of [BitTorrentText]
    with the pieces, chunks and piece files of the others; [BitTorrentTracker] reads the messages that
    [HttpParser] passes on with [BencodingParser] and [AddressTools], notifies [BitTorrentSession], and
    yields what [BitTorrentThreads] runs on; [BitTorrentControl] parses URLs with [HttpUrls], computes what is left
    with [BitTorrentPieces] and [BitTorrentFiles], and sends the records of [BitTorrentAnnounce], which
    [HttpStreamer] writes; its events are those that [BitTorrentSession] puts out; [SmtpClient], [PopClient] and
    [FtpTools] write to blocks of [MessageBlock], print and read addresses with
    [AddressTools], on [InetAddr], and match with [Regex]; [FtpControl] sends the requests
    that [FtpTools] writes; [SmtpReply], [PopReply] and [FtpReply] read the replies that
    [SmtpClient], [PopClient] and [FtpControl] handle, with [Lex], [Fragments] and [Replies], as
    [FtpData] reads data of the kind that [FtpControl] sets; [PcpSession] sends the records of [PcpTools] that [PcpWire]
    writes to blocks of [MessageBlock] and reads back, both with [Wire]; [DhcpDiscover]
    handles and sends the records of [DhcpTools], which [DhcpWire] reads and writes with
    [Wire]; [WebSocketScanner] fills the records of [WebSocket], and [WebSocketParser] frames
    their payloads; [WebSocketParser] and [HttpParser] cut their fragments with [Chain];
    [HttpScanner] reads lines with the expressions of [Lex] from [Fragments], [HttpGrammar] fills the records of
    [HttpTools] from its tokens and matches with [Regex], and [HttpParser] frames their bodies;
    [HttpStreamer] writes the records of [HttpTools] to blocks of [MessageBlock], and
    [HttpUrls] matches with [Regex];
    [IrcClient] moves the machine of [IrcRegistration], and handles and sends the records of
    [IrcTools], which [IrcWire] reads and writes;
    [IrcRegistration] and [WlanMonitor] are clients of [StateMachine], and
    [ConnectionBase] of [ConnectionManager].

    ** Bounds and fuel

    [request_fuel] (above); [hex_loop] prints a number of 8, 16 or 32 bits and has fuel for its two, four
    or eight digits; [abort_all] counts rounds and returns [None] when they run out.  The loops of
    the scanners, [yylex_loop] and [ws_loop], have one more than the length of the buffer
    ([yylex_loop] one more still, for the rule of the handshake that takes no octet), and
    every other rule takes an octet; this is enough ([yylex_returns], [ws_loop_enough]).
    [dispatch_loop] of [WebSocketParser] has one more than the octets of the chain, of which a
    frame takes two at least.  [scan] of [Fragments] has two more than there are buffers
    and octets ([scan_fuel]): the rules that look at what is next (at a first line and at the line
    of a chunk in HTTP, at a code in replies) take no octet, each other turn takes an octet or a
    buffer; [text_lines] of the replies has one more than the octets that are left
    ([lines_fuel]), and every token takes one, as does [items] of [FtpData]; [parse_headers] and [parse_chunks] of [HttpGrammar] have
    one more than the octets that are left, of which a field or a chunk takes one at least
    ([fields_fuel], [chunks_parsed]).
    [lex] of [BencodingScanner] has two more than there are octets: the turn that begins a string,
    or goes on to a key, takes none, and no two of these follow each other ([lex_enough]);
    [list_items] and [dictionary_items] of [BencodingParser] have one more than the octets that
    are left ([items_fuel_enough]: more make no difference, whatever is read); an address of a
    store is followed as often as there are elements ([layout_resolved]).
    [split_hashes] takes 20 bytes at a time and has fuel for one each.  A repetition
    ([loop] of [Regex]) without a bound may take as many iterations as its least number and
    the length of the string together, which is enough ([match_complete]).
    [read_options] of [PcpWire] has fuel for one option per octet, and an option takes at
    least four ([options_layout_length]); that of [DhcpWire] has fuel for the octets that are
    left, each turn takes one, and what is written is read to its end ([parse_message]);
    [next_list] of [DhcpTools] reads one octet at least in every turn, none behind the
    value, and has fuel for all of them.  [scan_loop] of [IrcWire] has fuel for the length of
    the text, and every rule takes a character ([scan_loop_enough]).  [read_headers] of
    [HttpStreamer] has the length of the text, of which a line takes two characters at least,
    and [read_form] as many turns as its argument says, at least the pairs there are; a tracker of [BitTorrentAnnounce] takes the length of the query
    ([form_length]).  All other recursions are structural.

    ** Not modelled

    Generated scanners and parsers and their drivers, except for the rules that read the
    messages of peers, the frames of WebSocket, the messages of HTTP, the responses of PCP, the
    messages of DHCP, those of IRC, bencoding and the replies of SMTP, POP and FTP, which are modelled from the sources of the scanners on
    one contiguous buffer (the switch to the next fragment is modelled for WebSocket, HTTP, SMTP, POP and FTP),
    and the grammars of HTTP, PCP, DHCP, IRC, bencoding, SMTP, POP and FTP, whose actions run
    as their tokens are read; what these parsers have put into a record when they fail is not
    modelled; of DHCP, the control of dhclient and the connecting of the module, and the
    second discovery module; the stream framework, sockets and event loops (ACE and the common library, not in the repository); calls of the
    operating system, D-Bus, nl80211; [parse] of IRC, the addresses that
    [parseURL] sets (parameters, since names are resolved); programs and user interfaces.  Of
    the replies to the clients, what has been received behind a reply (the module passes it on
    with its fragment, and the scanner begins with the next one), and what a stream does when a
    reply is not read; of FTP, the meaning of the line of a listing (a function of the common
    library, a parameter), and the end of a data connection.  Of the mail clients, the date of a
    mail ([std::strftime] of the local time) is a parameter, and the allocation of a message
    and its way down the stream are one flag, whether it was sent; of the control of FTP,
    an allocation does not fail, nor in the handler of IRC, whose waits on a condition are
    arguments that return the state the other threads have left.
    Of bencoding, the switch to the next buffer (the responses of trackers are in one block), and
    what the common library does with elements (it prints, writes and releases them; the writing
    is a parameter with the law that BEP 3 states).
    Of the trackers of BitTorrent, the decompression of a response, the release of a response that another
    one replaces (and of that which the parser has made, when it is deleted), the headers that the streamer
    adds, a thread that cannot be spawned when others have been, and in the controller the locks (each operation is one step),
    [wait ()], and what the session does when it is closed (an effect).  Of the session of a torrent,
    its closing and its timers; its handlers run one after the other (the code takes a
    lock for parts of them only), the message of a bitfield is allocated if that of the
    handshake could be, and the count of requested blocks does not overflow.  In the system of
    [ConnectionBase], the flag [isRegistered_], which no lock protects, is tested and
    stored to in steps of their own; its theorem is about runs in which the
    registrations and deregistrations of one connection do not overlap, and the races of
    runs in which they do are examples beside it.  A failure to gather connections, after
    which the code leaves references behind, is not a step.  Of WebSocket, the handshake is a
    parameter, and so is the way to the next module, which [Stream_Tools::get ()] (a parameter, too)
    splits the chain for.  Of HTTP, the queue and the thread of
    the module (what has been read when it waits, is read again with the next fragment in this
    model), and messages with several bodies.  [useYYScanBuffer], with which flex scans
    received fragments in place, is modelled for WebSocket only; the other drivers are those that
    scan copies.

    ** Plan

    Next: sequences of HTTP messages and the thread of
    their parser, the closing of the sessions of BitTorrent, the regular expressions of IRC. *)
From stdpp Require Export base tactics numbers list gmap strings pretty sorting.
From Stdlib Require Export ZArith Lia.
From Stdlib Require Import Ascii.

#[global] Open Scope Z_scope.

(** ** Machine integers

    An [unsigned int] is a [Z] in [0, 2^32), a [size_t] or [ACE_UINT64] one in
    [0, 2^64); every place where the C++ expression is computed at that width
    carries the wrap explicitly. *)
Definition u8 (z : Z) : Z := z `mod` 2 ^ 8.
Definition u16 (z : Z) : Z := z `mod` 2 ^ 16.
Definition u32 (z : Z) : Z := z `mod` 2 ^ 32.
Definition u64 (z : Z) : Z := z `mod` 2 ^ 64.

Declare Scope ace_scope.
Delimit Scope ace_scope with ace.
Notation "a +u b" := (u32 (a + b)) (at level 50, left associativity) : ace_scope.
Notation "a -u b" := (u32 (a - b)) (at level 50, left associativity) : ace_scope.
#[global] Open Scope ace_scope.

(** The length of a list, as the [Z] the sizes are computed in. *)
Definition zlen {A} (l : list A) : Z := Z.of_nat (length l).

(** ** Outcomes

    [Ok a]: the code returns [a]; [Abort]: an [ACE_ASSERT] fails (the checked build
    aborts there); [Undef]: the C++ has undefined behaviour (an out-of-range element,
    an iterator moved past the end, a null pointer). *)
Inductive outcome (A : Type) : Type :=
  | Ok (a : A)
  | Abort
  | Undef.
Arguments Ok {A} a.
Arguments Abort {A}.
Arguments Undef {A}.

#[export] Instance outcome_ret : MRet outcome := @Ok.
#[export] Instance outcome_bind : MBind outcome := λ A B f m,
  match m with Ok a => f a | Abort => Abort | Undef => Undef end.
#[export] Instance outcome_fmap : FMap outcome := λ A B f m,
  match m with Ok a => Ok (f a) | Abort => Abort | Undef => Undef end.

Definition ace_assert (b : bool) : outcome unit := if b then Ok tt else Abort.

(** Reading through a pointer or an index that may not be there. *)
Definition deref {A} (o : option A) : outcome A := from_option Ok Undef o.

(** A [switch] whose cases return a value: the first case of that label, or the
    default. *)
Fixpoint switch {A B} `{EqDecision A} (x : A) (cases : list (A * B)) (default : B) : B :=
  match cases with
  | [] => default
  | (label, result) :: cases' =>
      if decide (x = label) then result else switch x cases' default
  end.

Create HintDb ace.
Create Rewrite HintDb zlen.

Lemma u32_small z : 0 <= z < 2 ^ 32 → u32 z = z.
Proof. apply Z.mod_small. Qed.
Lemma u32_range z : 0 <= u32 z < 2 ^ 32.
Proof. apply Z.mod_pos_bound. lia. Qed.
Lemma u64_small z : 0 <= z < 2 ^ 64 → u64 z = z.
Proof. apply Z.mod_small. Qed.
Lemma u64_range z : 0 <= u64 z < 2 ^ 64.
Proof. apply Z.mod_pos_bound. lia. Qed.
Lemma u32_add_mod_l a b : u32 (u32 a + b) = u32 (a + b).
Proof. apply Zplus_mod_idemp_l. Qed.
Lemma u32_add_mod_r a b : u32 (a + u32 b) = u32 (a + b).
Proof. apply Zplus_mod_idemp_r. Qed.
Lemma u32_idemp a : u32 (u32 a) = u32 a.
Proof. apply Z.mod_mod. lia. Qed.

Lemma zlen_nil {A} : zlen (@nil A) = 0.
Proof. done. Qed.
Lemma zlen_cons {A} (x : A) l : zlen (x :: l) = 1 + zlen l.
Proof. unfold zlen; cbn [length]; lia. Qed.
Lemma zlen_app {A} (l k : list A) : zlen (l ++ k) = zlen l + zlen k.
Proof. unfold zlen; rewrite length_app; lia. Qed.
Lemma zlen_nonneg {A} (l : list A) : 0 <= zlen l.
Proof. unfold zlen; lia. Qed.
Lemma zlen_take {A} (n : Z) (l : list A) :
  0 <= n <= zlen l → zlen (take (Z.to_nat n) l) = n.
Proof. unfold zlen; rewrite length_take; lia. Qed.
Lemma zlen_drop {A} (n : Z) (l : list A) :
  0 <= n → zlen (drop (Z.to_nat n) l) = Z.max 0 (zlen l - n).
Proof. unfold zlen; rewrite length_drop; lia. Qed.
Lemma take_zlen {A} (l : list A) : take (Z.to_nat (zlen l)) l = l.
Proof. unfold zlen. by rewrite Nat2Z.id, firstn_all. Qed.
Lemma drop_zlen {A} (l : list A) : drop (Z.to_nat (zlen l)) l = [].
Proof. unfold zlen. by rewrite Nat2Z.id, drop_all. Qed.
Lemma zlen_0_inv {A} (l : list A) : zlen l = 0 → l = [].
Proof. destruct l; [done|]. rewrite zlen_cons. pose proof (zlen_nonneg l). lia. Qed.

#[export] Hint Resolve zlen_nonneg u32_range u64_range : ace.
#[export] Hint Rewrite @zlen_nil @zlen_cons @zlen_app : zlen.

(** ** Control of the outcome monad *)
Lemma bind_Ok {A B} (m : outcome A) (k : A → outcome B) r :
  (m ≫= k) = Ok r ↔ ∃ a, m = Ok a ∧ k a = Ok r.
Proof. destruct m; cbn; naive_solver. Qed.

Lemma fmap_Ok {A B} (f : A → B) (m : outcome A) r :
  (f <$> m) = Ok r ↔ ∃ a, m = Ok a ∧ r = f a.
Proof. destruct m; cbn; naive_solver. Qed.

Lemma ace_assert_bind {A} b (k : unit → outcome A) r :
  (ace_assert b ≫= k) = Ok r ↔ b = true ∧ k tt = Ok r.
Proof. destruct b; cbn; naive_solver. Qed.

Lemma deref_Ok {A} (o : option A) a : deref o = Ok a ↔ o = Some a.
Proof. destruct o; cbn; naive_solver. Qed.

(** [zsum l]: the mathematical (unwrapped) sum of a list. *)
Definition zsum (l : list Z) : Z := foldr Z.add 0 l.

Lemma zsum_app l k : zsum (l ++ k) = zsum l + zsum k.
Proof. unfold zsum; induction l; cbn; lia. Qed.
Lemma zsum_nonneg l : Forall (λ z, 0 <= z) l → 0 <= zsum l.
Proof. unfold zsum; induction 1; cbn; lia. Qed.

Lemma zsum_Permutation l k : l ≡ₚ k → zsum l = zsum k.
Proof. unfold zsum. induction 1; cbn; lia. Qed.

Lemma zsum_fmap_ext {A} (f g : A → Z) l :
  (∀ x, x ∈ l → f x = g x) → zsum (f <$> l) = zsum (g <$> l).
Proof.
  unfold zsum. induction l as [|x l IH]; cbn; [done|]. intros Hfg.
  rewrite Hfg by left. f_equal. apply IH. intros y Hy. apply Hfg. by right.
Qed.

(** Sums that differ in one term. *)
Lemma zsum_fmap_update {A} `{EqDecision A} (f g : A → Z) (v : A) l :
  NoDup l → v ∈ l → (∀ x, x ≠ v → f x = g x) →
  zsum (f <$> l) = zsum (g <$> l) + (f v - g v).
Proof.
  induction l as [|x l IH]; [set_solver|]. rewrite NoDup_cons, elem_of_cons.
  intros [Hx Hnd] Hv Hfg. cbn. destruct (decide (v = x)) as [->|Hne].
  - fold (zsum (f <$> l)) (zsum (g <$> l)).
    rewrite (zsum_fmap_ext f g l); [lia|]. intros y Hy. apply Hfg. by intros ->.
  - fold (zsum (f <$> l)) (zsum (g <$> l)).
    destruct Hv as [->|Hv]; [done|]. rewrite IH, (Hfg x) by auto. lia.
Qed.

Lemma zsum_bound {A} (f : A → Z) l b :
  (∀ x, 0 <= f x <= b) → 0 <= zsum (f <$> l) <= b * zlen l.
Proof.
  unfold zsum, zlen. intros Hf. induction l as [|x l IH]; cbn; [lia|].
  specialize (Hf x). cbn in IH. lia.
Qed.

(** A 32-bit accumulation loop computes the sum modulo 2^32. *)
Lemma foldl_u32 {A} (f : A → Z) l acc :
  foldl (λ a x, a +u f x) (u32 acc) l = u32 (acc + zsum (f <$> l)).
Proof.
  revert acc; induction l as [|x l IH]; intros acc; cbn.
  - by rewrite Z.add_0_r.
  - rewrite u32_add_mod_l, IH. f_equal. unfold zsum. lia.
Qed.

(** A property of the numbers below a bound, decided by trying them all. *)
Lemma seqZ_forall (f : Z → bool) n :
  forallb f (seqZ 0 n) = true → ∀ x, 0 <= x < n → f x = true.
Proof.
  intros Hf x Hx. rewrite forallb_forall in Hf. apply Hf.
  apply list_elem_of_In, elem_of_seqZ. lia.
Qed.

(** ** Tactics *)

(** Split the boolean conditions of the code into arithmetic facts. *)
Ltac destruct_if :=
  match goal with
  | |- context [if ?b then _ else _] => destruct b eqn:?
  | H : context [if ?b then _ else _] |- _ => destruct b eqn:?
  end.

Ltac bool_lia :=
  repeat match goal with
  | H : (_ <? _) = true |- _ => apply Z.ltb_lt in H
  | H : (_ <? _) = false |- _ => apply Z.ltb_ge in H
  | H : (_ <=? _) = true |- _ => apply Z.leb_le in H
  | H : (_ <=? _) = false |- _ => apply Z.leb_gt in H
  | H : (_ =? _) = true |- _ => apply Z.eqb_eq in H
  | H : (_ =? _) = false |- _ => apply Z.eqb_neq in H
  end; try lia.
