(* ===== verification/MessageBlock.v ===== *)
(** * The interface of ACE_Message_Block

    The data of a message travels in chains of [ACE_Message_Block]s.  ACE is not
    part of the repository, so the blocks are an abstract type; this class states
    what the code relies on: the bytes between the read and the write pointer of a
    block, [rd_ptr (n)], which advances the read pointer, and the length, which moves the
    write pointer back.  [duplicate ()] yields a block on the same data with pointers of
    its own: as the data is not overwritten, that is the block again.  A chain linked by
    [cont ()] is the list of its blocks, first block first. *)
From S2P Require Import Prelude.

Class MessageBlock (B : Type) : Type := {
  mb_bytes : B → list Z;
  mb_rd_ptr : Z → B → B;
  mb_set_length : Z → B → B;
  (** a block on a buffer, its write pointer at the end of it *)
  mb_of_bytes : list Z → B;
  mb_of_bytes_bytes d : mb_bytes (mb_of_bytes d) = d;
  (** advancing the read pointer drops bytes at the front of the block *)
  mb_rd_ptr_bytes n b :
    0 <= n <= zlen (mb_bytes b) →
    mb_bytes (mb_rd_ptr n b) = drop (Z.to_nat n) (mb_bytes b);
  (** [length (n)], or moving the write pointer back *)
  mb_set_length_bytes n b :
    0 <= n <= zlen (mb_bytes b) →
    mb_bytes (mb_set_length n b) = take (Z.to_nat n) (mb_bytes b)
}.

(** The concrete instance the witnesses run on: a block is its bytes. *)
#[export] Program Instance bytes_block : MessageBlock (list Z) := {|
  mb_bytes b := b;
  mb_rd_ptr n b := drop (Z.to_nat n) b;
  mb_set_length n b := take (Z.to_nat n) b;
  mb_of_bytes d := d
|}.
Next Obligation. done. Qed.
Next Obligation. done. Qed.
Next Obligation. done. Qed.

Section Chain.
Context {B : Type} `{MessageBlock B}.

(** [length ()] of one block. *)
Definition block_length (b : B) : Z := zlen (mb_bytes b).

(** [total_length ()] of a chain, a [size_t]. *)
Definition total_length (c : list B) : Z := u64 (zsum (block_length <$> c)).

(** All the data of a chain, in order. *)
Definition chain_bytes (c : list B) : list Z := c ≫= mb_bytes.

Lemma block_length_nonneg b : 0 <= block_length b.
Proof. apply zlen_nonneg. Qed.

Lemma chain_bytes_cons b c : chain_bytes (b :: c) = mb_bytes b ++ chain_bytes c.
Proof. done. Qed.
Lemma chain_bytes_single b : chain_bytes [b] = mb_bytes b.
Proof. apply app_nil_r. Qed.
Lemma chain_bytes_app c d : chain_bytes (c ++ d) = chain_bytes c ++ chain_bytes d.
Proof. unfold chain_bytes. by rewrite bind_app. Qed.

Lemma zlen_chain_bytes c : zlen (chain_bytes c) = zsum (block_length <$> c).
Proof.
  unfold chain_bytes, zsum. induction c as [|b c IH]; [done|].
  cbn. rewrite zlen_app, IH. done.
Qed.

Lemma block_length_rd_ptr n b :
  0 <= n <= block_length b → block_length (mb_rd_ptr n b) = block_length b - n.
Proof.
  unfold block_length. intros Hn. rewrite mb_rd_ptr_bytes by done.
  rewrite zlen_drop; lia.
Qed.

Lemma total_length_small c :
  zlen (chain_bytes c) < 2 ^ 64 → total_length c = zlen (chain_bytes c).
Proof.
  intros Hc. unfold total_length. rewrite <- zlen_chain_bytes.
  apply u64_small. pose proof (zlen_nonneg (chain_bytes c)). lia.
Qed.
End Chain.

#[export] Hint Resolve block_length_nonneg : ace.

(** ** Writing

    [space ()] is the room behind the write pointer; [copy ()] writes there and fails
    ([None], -1 in the code) when there is not enough of it. *)
Class WritableBlock (B : Type) `{MessageBlock B} : Type := {
  mb_space : B → Z;
  mb_space_nonneg b : 0 <= mb_space b;
  mb_copy : list Z → B → option B;
  mb_copy_bytes d b b' :
    mb_copy d b = Some b' →
    mb_bytes b' = mb_bytes b ++ d ∧ mb_space b' = mb_space b - zlen d;
  mb_copy_room d b : is_Some (mb_copy d b) ↔ zlen d <= mb_space b
}.

(** An instance: the bytes, and the room left. *)
#[export] Program Instance room_block : MessageBlock (list Z * N) := {|
  mb_bytes b := b.1;
  mb_rd_ptr n b := (drop (Z.to_nat n) b.1, b.2);
  mb_set_length n b := (take (Z.to_nat n) b.1, b.2);
  mb_of_bytes d := (d, 0%N)
|}.
Next Obligation. done. Qed.
Next Obligation. done. Qed.
Next Obligation. done. Qed.
#[export] Program Instance room_writable : WritableBlock (list Z * N) := {|
  mb_space b := Z.of_N b.2;
  mb_copy d b :=
    if zlen d <=? Z.of_N b.2 then Some (b.1 ++ d, Z.to_N (Z.of_N b.2 - zlen d)) else None
|}.
Next Obligation. intros [c n]. cbn. lia. Qed.
Next Obligation.
  intros d [c n] b'. cbn. destruct (zlen d <=? Z.of_N n) eqn:E; [|done]. intros [= <-].
  bool_lia. cbn. split; [done|lia].
Qed.
Next Obligation.
  intros d [c n]. cbn. destruct (zlen d <=? Z.of_N n) eqn:E; bool_lia.
  - split; [done|eauto].
  - split; [by intros [? ?]|lia].
Qed.

Section Copies.
Context {B : Type} `{WritableBlock B}.

(** a sequence of writes, up to the first that fails *)
Definition copies (ds : list (list Z)) (b : B) : option B :=
  foldl (λ o d, b ← o; mb_copy d b) (Some b) ds.

Lemma copies_None ds : foldl (λ o d, b ← o; mb_copy d b) (None : option B) ds = None.
Proof. by induction ds. Qed.

Lemma copies_cons d ds b : copies (d :: ds) b = (b' ← mb_copy d b; copies ds b').
Proof. unfold copies. cbn. destruct (mb_copy d b); [done|apply copies_None]. Qed.

(** All the writes together succeed exactly when there is room for all the data. *)
Lemma copies_spec ds b :
  if zlen (mjoin ds) <=? mb_space b
  then ∃ b', copies ds b = Some b' ∧ mb_bytes b' = mb_bytes b ++ mjoin ds ∧
             mb_space b' = mb_space b - zlen (mjoin ds)
  else copies ds b = None.
Proof.
  revert b. induction ds as [|d ds IH]; intros b.
  - pose proof (mb_space_nonneg b). cbn [mjoin list_join]. rewrite zlen_nil.
    destruct (_ <=? _) eqn:E; bool_lia. exists b. rewrite app_nil_r, Z.sub_0_r. done.
  - rewrite copies_cons. change (mjoin (d :: ds)) with (d ++ mjoin ds). rewrite zlen_app.
    pose proof (zlen_nonneg d). pose proof (zlen_nonneg (mjoin ds)).
    destruct (mb_copy d b) as [b1|] eqn:E; cbn [mbind option_bind].
    + destruct (mb_copy_bytes _ _ _ E) as [Hb Hs]. specialize (IH b1). rewrite Hs in IH.
      destruct (_ <=? mb_space b - _) eqn:E1; destruct (_ + _ <=? _) eqn:E2; bool_lia; [|done].
      destruct IH as (b2 & Hc & Hb2 & Hs2). exists b2. rewrite Hc, Hb2, Hs2, Hb.
      split_and!; [done|by rewrite <- app_assoc|lia].
    + destruct (_ + _ <=? _) eqn:E2; bool_lia; [|done].
      assert (Hr : is_Some (mb_copy d b)) by (apply mb_copy_room; lia).
      rewrite E in Hr. by destruct Hr.
Qed.

(** writes up to the first that fails, which keeps what has been written: the block, and
    whether all of them worked *)
Fixpoint copy_all (ds : list (list Z)) (b : B) : B * bool :=
  match ds with
  | [] => (b, true)
  | d :: ds' =>
      match mb_copy d b with
      | None => (b, false)
      | Some b' => copy_all ds' b'
      end
  end.

Lemma copy_all_room ds : ∀ b, zlen (mjoin ds) <= mb_space b →
  ∃ b', copy_all ds b = (b', true) ∧ mb_bytes b' = mb_bytes b ++ mjoin ds.
Proof.
  induction ds as [|d ds IH]; intros b Hb; cbn [copy_all].
  - exists b. by rewrite app_nil_r.
  - change (mjoin (d :: ds)) with (d ++ mjoin ds) in *. rewrite zlen_app in Hb.
    pose proof (zlen_nonneg d). pose proof (zlen_nonneg (mjoin ds)).
    destruct (proj2 (mb_copy_room d b)) as [b1 E]; [lia|]. rewrite E.
    destruct (mb_copy_bytes _ _ _ E) as [Hb1 Hs1].
    destruct (IH b1) as (b' & Hc & Hb'); [lia|]. exists b'. split; [done|].
    by rewrite Hb', Hb1, app_assoc.
Qed.
End Copies.
