(* ===== verification/Chain.v ===== *)
(** * Walks over chains of message blocks

    The loops with which the parser modules of WebSocket and HTTP frame the data that they
    have received (ws_module_parser.inl, http_module_parser.inl: [record ()]): over the first
    bytes of a chain, with the read pointers moved or not, and the cut behind them. *)
From S2P Require Import Prelude MessageBlock.

Section Walks.
Context {B : Type} `{MessageBlock B}.
Implicit Types (c : list B).

(** the loop that moves the read pointers: the blocks that are used up, and the others *)
Fixpoint advance (bytes_to_skip : Z) (c : list B) : outcome (list B * list B) :=
  match c with
  | [] => Abort
  | b :: c' =>
      let available_data := block_length b in
      if bytes_to_skip <=? available_data then Ok ([], mb_rd_ptr bytes_to_skip b :: c')
      else
        r ← advance (bytes_to_skip - available_data) c';
        Ok (mb_rd_ptr available_data b :: r.1, r.2)
  end.

(** the loop that looks for the end of the data, and the cut: the blocks up to there, and
    those behind it, with the duplicate of the block that is cut *)
Fixpoint cut_behind (bytes_to_skip : Z) (c : list B) : outcome (list B * list B) :=
  match c with
  | [] => Abort
  | b :: c' =>
      let available_data := block_length b in
      if bytes_to_skip <=? available_data then
        Ok (if bytes_to_skip <? available_data
            then ([mb_set_length bytes_to_skip b], mb_rd_ptr bytes_to_skip b :: c')
            else ([b], c'))
      else r ← cut_behind (bytes_to_skip - available_data) c'; Ok (b :: r.1, r.2)
  end.

(** ** What they do to the data *)
Lemma chain_bytes_total c :
  total_length c = u64 (zlen (chain_bytes c)).
Proof. unfold total_length. by rewrite zlen_chain_bytes. Qed.

Lemma take_drop_split (d e : list Z) (n : Z) :
  0 <= n →
  take (Z.to_nat n) (d ++ e) =
    (if n <=? zlen d then take (Z.to_nat n) d else d ++ take (Z.to_nat (n - zlen d)) e) ∧
  drop (Z.to_nat n) (d ++ e) =
    (if n <=? zlen d then drop (Z.to_nat n) d ++ e else drop (Z.to_nat (n - zlen d)) e).
Proof.
  intros Hn. destruct (n <=? zlen d) eqn:E; bool_lia; unfold zlen in *.
  - by rewrite take_app_le, drop_app_le by lia.
  - rewrite take_app_ge, drop_app_ge by lia.
    replace (Z.to_nat n - length d)%nat with (Z.to_nat (n - Z.of_nat (length d))) by lia. done.
Qed.

Lemma advance_spec n c :
  0 <= n <= zlen (chain_bytes c) → c ≠ [] →
  ∃ pre b rest, advance n c = Ok (pre, b :: rest) ∧ chain_bytes pre = [] ∧
    chain_bytes (b :: rest) = drop (Z.to_nat n) (chain_bytes c).
Proof.
  revert n. induction c as [|b c IH]; intros n Hn Hne; [done|]. cbn [advance].
  rewrite chain_bytes_cons, zlen_app in *.
  destruct (take_drop_split (mb_bytes b) (chain_bytes c) n) as [_ ->]; [lia|].
  pose proof (zlen_nonneg (mb_bytes b)). unfold block_length. destruct (n <=? _) eqn:E; bool_lia.
  - exists [], (mb_rd_ptr n b), c. by rewrite chain_bytes_cons, mb_rd_ptr_bytes by lia.
  - destruct (decide (c = [])) as [->|Hc]; [unfold zlen in *; cbn in Hn; lia|].
    destruct (IH (n - zlen (mb_bytes b))) as (pre & b' & rest & -> & Hp & Hr); [lia|done|].
    eexists _, b', rest. split_and!; [reflexivity| |done].
    cbn [fst]. rewrite chain_bytes_cons, Hp, mb_rd_ptr_bytes, drop_zlen by lia. done.
Qed.

Lemma cut_behind_spec n c :
  0 <= n <= zlen (chain_bytes c) → c ≠ [] →
  ∃ front rest, cut_behind n c = Ok (front, rest) ∧
    chain_bytes front = take (Z.to_nat n) (chain_bytes c) ∧
    chain_bytes rest = drop (Z.to_nat n) (chain_bytes c).
Proof.
  revert n. induction c as [|b c IH]; intros n Hn Hne; [done|]. cbn [cut_behind].
  rewrite chain_bytes_cons, zlen_app in *.
  destruct (take_drop_split (mb_bytes b) (chain_bytes c) n) as [-> ->]; [lia|].
  pose proof (zlen_nonneg (mb_bytes b)). unfold block_length. destruct (n <=? _) eqn:E; bool_lia.
  - destruct (n <? _) eqn:E1; bool_lia; eexists _, _; (split; [reflexivity|]).
    + by rewrite chain_bytes_single, chain_bytes_cons, mb_set_length_bytes, mb_rd_ptr_bytes by lia.
    + rewrite chain_bytes_single. replace n with (zlen (mb_bytes b)) by lia.
      by rewrite take_zlen, drop_zlen.
  - destruct (decide (c = [])) as [->|Hc]; [unfold zlen in *; cbn in Hn; lia|].
    destruct (IH (n - zlen (mb_bytes b))) as (front & rest & -> & Hf & Hr); [lia|done|].
    eexists _, rest. split; [reflexivity|]. cbn [fst snd]. by rewrite chain_bytes_cons, Hf, Hr.
Qed.
End Walks.

(** ** A concrete [Stream_Tools::get ()], for chains of [bytes_block]s *)
Definition sample_get (n : Z) (c : list (list Z)) : list (list Z) * list (list Z) :=
  ([take (Z.to_nat n) (chain_bytes c)], [drop (Z.to_nat n) (chain_bytes c)]).
Lemma sample_get_bytes n (c : list (list Z)) :
  0 < n < zlen (chain_bytes c) →
  chain_bytes (sample_get n c).1 = take (Z.to_nat n) (chain_bytes c) ∧
  chain_bytes (sample_get n c).2 = drop (Z.to_nat n) (chain_bytes c).
Proof. intros _. unfold sample_get. cbn. by rewrite !app_nil_r. Qed.
