(* ===== verification/Chars.v ===== *)
(** * Characters, character classes and number formatting

    What the components use of <cctype>, <locale> and <iomanip>: the classic-locale
    character classes on a [char], the [int]-argument classes of <cctype> (undefined
    on a negative [char] other than EOF), and the formatting of integers by an
    [std::ostringstream]. *)
From S2P Require Import Prelude.
From Stdlib Require Export Ascii.

Create Rewrite HintDb str.

(** The value of a [char] as an [unsigned char], and as the (signed) [char]. *)
Definition code (c : ascii) : Z := Z.of_N (N_of_ascii c).
Definition schar (c : ascii) : Z := if code c <? 128 then code c else code c - 256.
Definition chr (z : Z) : ascii := ascii_of_N (Z.to_N (z `mod` 256)).

Definition dquote : ascii := "034".
Definition newline : ascii := "010".
(** one-character strings *)
Definition quote : string := String dquote "".
Definition eol : string := String newline "".

(** carriage return and line feed *)
Definition crlf : string := String "013" eol.

Definition in_range (lo hi : ascii) (c : ascii) : bool :=
  (code lo <=? code c) && (code c <=? code hi).

Definition isdigit (c : ascii) : bool := in_range "0" "9" c.
Definition isupper (c : ascii) : bool := in_range "A" "Z" c.
Definition islower (c : ascii) : bool := in_range "a" "z" c.
Definition isalpha (c : ascii) : bool := isupper c || islower c.
Definition isxdigit (c : ascii) : bool :=
  isdigit c || in_range "A" "F" c || in_range "a" "f" c.
Definition toupper (c : ascii) : ascii :=
  if islower c then chr (code c - 32) else c.
Definition tolower (c : ascii) : ascii :=
  if isupper c then chr (code c + 32) else c.

(** [std::isxdigit (int)]: the argument has to be an [unsigned char] or EOF (-1). *)
Definition isxdigit_int (c : ascii) : outcome bool :=
  if (schar c <? 0) && negb (schar c =? -1) then Undef else Ok (isxdigit c).

Fixpoint string_map (f : ascii → ascii) (s : string) : string :=
  match s with "" => "" | String c s' => String (f c) (string_map f s') end.

Fixpoint string_all (f : ascii → bool) (s : string) : bool :=
  match s with "" => true | String c s' => f c && string_all f s' end.

(** [std::hex << n] for an [unsigned short], and [std::setw] with [setfill ('0')] *)
Definition hex_digit (n : Z) : ascii :=
  if n <? 10 then chr (code "0" + n) else chr (code "a" + (n - 10)).
Fixpoint hex_loop (fuel : nat) (n : Z) (acc : string) : string :=
  match fuel with
  | O => acc
  | S fuel' =>
      let acc' := String (hex_digit (n `mod` 16)) acc in
      if n `div` 16 =? 0 then acc' else hex_loop fuel' (n `div` 16) acc'
  end.
(** 4 digits are enough for 16 bits *)
Definition hex16 (n : Z) : string := hex_loop 4 (u16 n) "".
Fixpoint pad (n : nat) (fill : ascii) (s : string) : string :=
  match n with O => s | S n' => String fill (pad n' fill s) end.
Definition setw (w : nat) (fill : ascii) (s : string) : string :=
  pad (w - String.length s) fill s.

(** the characters of a string as bytes, and back *)
Definition string_bytes (s : string) : list Z := code <$> String.list_ascii_of_string s.
Definition bytes_string (bs : list Z) : string := String.string_of_list_ascii (chr <$> bs).

(** ** All characters

    A property of characters decided by trying all 256 of them. *)
Definition all_chars : list ascii := (λ n, chr (Z.of_nat n)) <$> seq 0 256.

Lemma code_range c : 0 <= code c < 256.
Proof. unfold code. pose proof (N_ascii_bounded c). lia. Qed.

Lemma chr_code c : chr (code c) = c.
Proof.
  unfold chr. rewrite Z.mod_small by apply code_range.
  unfold code. rewrite N2Z.id. apply ascii_N_embedding.
Qed.

Lemma code_chr z : 0 <= z < 256 → code (chr z) = z.
Proof.
  intros Hz. unfold chr, code. rewrite Z.mod_small by done.
  rewrite N_ascii_embedding by lia. lia.
Qed.

Lemma all_chars_complete c : c ∈ all_chars.
Proof.
  unfold all_chars. apply list_elem_of_fmap. pose proof (code_range c).
  exists (Z.to_nat (code c)). split; [by rewrite Z2Nat.id, chr_code by lia|].
  apply elem_of_seq. lia.
Qed.

(** Reflection: a boolean test that holds of the 256 characters holds of all. *)
Lemma all_chars_forall (f : ascii → bool) :
  forallb f all_chars = true → ∀ c, f c = true.
Proof.
  intros Hf c. rewrite forallb_forall in Hf. apply Hf.
  apply list_elem_of_In, all_chars_complete.
Qed.

Lemma append_cons c (s t : string) : String c s +:+ t = String c (s +:+ t).
Proof. done. Qed.
Lemma append_nil (t : string) : "" +:+ t = t.
Proof. done. Qed.
#[export] Hint Rewrite append_cons append_nil : str.

Lemma string_all_app f s t : string_all f (s +:+ t) = string_all f s && string_all f t.
Proof. induction s as [|c s IH]; [done|]. autorewrite with str; cbn. by rewrite IH, andb_assoc. Qed.

Lemma string_app_assoc (s t u : string) : (s +:+ t) +:+ u = s +:+ (t +:+ u).
Proof. induction s as [|c s IH]; [done|]. autorewrite with str; cbn. by rewrite IH. Qed.

Lemma string_app_nil_r (s : string) : s +:+ "" = s.
Proof. induction s as [|c s IH]; [done|]. autorewrite with str; cbn. by rewrite IH. Qed.

Lemma string_length_app (s t : string) :
  (String.length (s +:+ t) = String.length s + String.length t)%nat.
Proof. induction s as [|c s IH]; [done|]. autorewrite with str; cbn. by rewrite IH. Qed.

Lemma bytes_string_bytes s : bytes_string (string_bytes s) = s.
Proof.
  unfold bytes_string, string_bytes. rewrite <- list_fmap_compose.
  rewrite (list_fmap_ext _ Datatypes.id), list_fmap_id.
  - apply String.string_of_list_ascii_of_string.
  - intros ? c _. apply chr_code.
Qed.
Lemma zlen_string_bytes s : zlen (string_bytes s) = Z.of_nat (String.length s).
Proof.
  unfold zlen, string_bytes. rewrite length_fmap. f_equal.
  induction s as [|c s IH]; [done|]. cbn. by rewrite IH.
Qed.

Lemma string_bytes_app s t : string_bytes (s +:+ t) = string_bytes s ++ string_bytes t.
Proof.
  unfold string_bytes. rewrite <- fmap_app. f_equal.
  induction s as [|c s IH]; [done|]. autorewrite with str. cbn. by rewrite IH.
Qed.

#[export] Hint Resolve code_range : ace.

(** ** Substrings and prefixes *)
Lemma substring_all s : String.substring 0 (String.length s) s = s.
Proof. induction s as [|c s IH]; [done|]. cbn. by rewrite IH. Qed.

Lemma prefix_app s t : String.prefix s (s +:+ t) = true.
Proof.
  induction s as [|c s IH]; [by destruct t|]. autorewrite with str. cbn.
  by destruct (ascii_dec c c).
Qed.

Lemma prefix_split p s : String.prefix p s = true → ∃ t, s = p +:+ t.
Proof.
  revert s. induction p as [|x p IH]; intros s; [by exists s|].
  destruct s as [|y s]; cbn [String.prefix]; [done|].
  destruct (ascii_dec x y) as [->|]; [|done]. intros [t ->]%IH. by exists t.
Qed.

(** ** Tests of all characters *)
Lemma string_all_impl (f g : ascii → bool) s :
  (∀ c, implb (f c) (g c) = true) → string_all f s = true → string_all g s = true.
Proof.
  intros Hfg. induction s as [|c s IH]; [done|]. cbn [string_all].
  intros [Hc Hs]%andb_true_iff. specialize (Hfg c). rewrite Hc in Hfg. cbn in Hfg.
  rewrite Hfg. by apply IH.
Qed.
Lemma char_mono (f g : ascii → bool) :
  forallb (λ c, implb (f c) (g c)) all_chars = true → ∀ c, f c = true → g c = true.
Proof. intros Ha c Hc. pose proof (all_chars_forall _ Ha c) as H. cbn in H. by rewrite Hc in H. Qed.
Lemma string_all_mono (f g : ascii → bool) s :
  forallb (λ c, implb (f c) (g c)) all_chars = true → string_all f s = true → string_all g s = true.
Proof. intros Ha. apply string_all_impl, all_chars_forall, Ha. Qed.
Lemma string_all_bytes (f : ascii → bool) (P : Z → Prop) s :
  (∀ c, f c = true → P (code c)) → string_all f s = true → Forall P (string_bytes s).
Proof.
  intros Hf. induction s as [|c s IH]; [constructor|].
  cbn [string_all]. intros [Hc Hs]%andb_true_iff. constructor; [by apply Hf|by apply IH].
Qed.

(** ** Strings up to their terminator *)
Fixpoint c_string (bs : list Z) : list Z :=
  match bs with
  | [] => []
  | b :: bs' => if b =? 0 then [] else b :: c_string bs'
  end.

Lemma c_string_text bs : Forall (λ z, z ≠ 0) bs → c_string bs = bs.
Proof.
  induction 1 as [|b bs Hb _ IH]; [done|]. cbn [c_string].
  by rewrite (proj2 (Z.eqb_neq b 0)), IH by done.
Qed.
