(* ===== verification/ByteOrder.v ===== *)
(** * Numbers in network byte order

    The code swaps a number on a little endian machine ([ACE_SWAP_LONG] and its kin,
    [ACE_BYTE_ORDER]) and copies its memory.  The byte order and the swap are an
    interface; what is written and read is the big endian form in either case. *)
From S2P Require Import Prelude.

(** the [n] bytes of a number, least significant first, and the number of the bytes *)
Fixpoint le_bytes (n : nat) (z : Z) : list Z :=
  match n with O => [] | S n' => z `mod` 256 :: le_bytes n' (z `div` 256) end.
Fixpoint le_value (bs : list Z) : Z :=
  match bs with [] => 0 | b :: bs' => b + 256 * le_value bs' end.
Definition be_bytes (n : nat) (z : Z) : list Z := rev (le_bytes n z).
Definition be_value (bs : list Z) : Z := le_value (rev bs).

Definition byte (b : Z) : Prop := 0 <= b < 256.

Lemma length_le_bytes n z : length (le_bytes n z) = n.
Proof. revert z; induction n; intros; cbn; auto. Qed.
Lemma length_be_bytes n z : length (be_bytes n z) = n.
Proof. unfold be_bytes. by rewrite length_rev, length_le_bytes. Qed.
Lemma zlen_be_bytes n z : zlen (be_bytes n z) = Z.of_nat n.
Proof. unfold zlen. by rewrite length_be_bytes. Qed.

Lemma le_bytes_byte n z : Forall byte (le_bytes n z).
Proof.
  revert z; induction n; intros; constructor; [|auto]. apply Z.mod_pos_bound. lia.
Qed.
Lemma be_bytes_byte n z : Forall byte (be_bytes n z).
Proof. apply Forall_rev, le_bytes_byte. Qed.

Lemma le_value_bytes n z : 0 <= z < 256 ^ Z.of_nat n → le_value (le_bytes n z) = z.
Proof.
  revert z; induction n as [|n IH]; intros z Hz; cbn [le_bytes le_value].
  - cbn in Hz. lia.
  - rewrite Nat2Z.inj_succ, Z.pow_succ_r in Hz by lia. rewrite IH.
    + pose proof (Z.div_mod z 256). lia.
    + split; [apply Z.div_pos; lia|apply Z.div_lt_upper_bound; lia].
Qed.
Lemma be_value_bytes n z : 0 <= z < 256 ^ Z.of_nat n → be_value (be_bytes n z) = z.
Proof. unfold be_value, be_bytes. rewrite rev_involutive. apply le_value_bytes. Qed.

Lemma le_value_range bs : Forall byte bs → 0 <= le_value bs < 256 ^ zlen bs.
Proof.
  induction 1 as [|b bs Hb _ IH]; [done|]. cbn [le_value]. unfold byte in Hb.
  rewrite zlen_cons, Z.pow_add_r by (pose proof (zlen_nonneg bs); lia). lia.
Qed.
Lemma le_bytes_value bs : Forall byte bs → le_bytes (length bs) (le_value bs) = bs.
Proof.
  induction 1 as [|b bs Hb Hbs IH]; [done|]. cbn [length le_bytes le_value].
  rewrite (Z.mul_comm 256), Z_mod_plus_full, Z.div_add by lia.
  unfold byte in Hb. rewrite Z.mod_small, Z.div_small, Z.add_0_l, IH by lia. done.
Qed.

Lemma rev_replicate {A} n (x : A) : rev (replicate n x) = replicate n x.
Proof.
  induction n as [|n IH]; [done|]. cbn. rewrite IH. symmetry. apply replicate_cons_app.
Qed.
Lemma le_bytes_zeros n : le_bytes n 0 = replicate n 0.
Proof. induction n; [done|]. cbn [le_bytes]. rewrite Z.mod_0_l, Z.div_0_l by lia. cbn. congruence. Qed.
Lemma le_value_zeros n : le_value (replicate n 0) = 0.
Proof. induction n; [done|]. cbn [replicate le_value]. lia. Qed.

(** a number that needs fewer bytes *)
Lemma le_bytes_pad n k z :
  0 <= z < 256 ^ Z.of_nat n → le_bytes (n + k) z = le_bytes n z ++ replicate k 0.
Proof.
  revert z; induction n as [|n IH]; intros z Hz.
  - cbn in Hz. replace z with 0 by lia. cbn [Nat.add le_bytes app].
    apply le_bytes_zeros.
  - cbn [le_bytes Nat.add app]. rewrite IH; [done|].
    rewrite Nat2Z.inj_succ, Z.pow_succ_r in Hz by lia.
    split; [apply Z.div_pos; lia|apply Z.div_lt_upper_bound; lia].
Qed.
Lemma be_bytes_pad n k z :
  0 <= z < 256 ^ Z.of_nat n → be_bytes (n + k) z = replicate k 0 ++ be_bytes n z.
Proof.
  intros Hz. unfold be_bytes. rewrite le_bytes_pad, rev_app_distr by done. f_equal.
  apply rev_replicate.
Qed.

Class ByteOrder : Type := {
  little_endian : bool;
  (** reverses the bytes of a number of [n] bytes *)
  swap_bytes : nat → Z → Z;
  swap_bytes_spec n z :
    0 <= z < 256 ^ Z.of_nat n → swap_bytes n z = le_value (rev (le_bytes n z))
}.
#[export] Program Instance little_endian_machine : ByteOrder := {|
  little_endian := true;
  swap_bytes n z := le_value (rev (le_bytes n z))
|}.
Next Obligation. done. Qed.

Section ByteOrder.
Context `{ByteOrder}.

(** the memory of a number, and the number that is there *)
Definition memory (n : nat) (z : Z) : list Z :=
  if little_endian then le_bytes n z else be_bytes n z.
Definition load (bs : list Z) : Z :=
  if little_endian then le_value bs else be_value bs.

(** [(ACE_BYTE_ORDER == ACE_LITTLE_ENDIAN ? ACE_SWAP_LONG (value_i) : value_i)] *)
Definition network (n : nat) (value_i : Z) : Z :=
  if little_endian then swap_bytes n value_i else value_i.

Lemma memory_network n z :
  0 <= z < 256 ^ Z.of_nat n → memory n (network n z) = be_bytes n z.
Proof.
  intros Hz. unfold memory, network. destruct little_endian; [|done].
  rewrite swap_bytes_spec by done. unfold be_bytes.
  rewrite <- (length_le_bytes n z) at 1. rewrite <- length_rev.
  apply le_bytes_value, Forall_rev, le_bytes_byte.
Qed.

Lemma memory_load bs : Forall byte bs → memory (length bs) (load bs) = bs.
Proof.
  intros Hbs. unfold memory, load. destruct little_endian; [by apply le_bytes_value|].
  unfold be_bytes, be_value. rewrite <- length_rev, le_bytes_value by by apply Forall_rev.
  apply rev_involutive.
Qed.

Lemma network_load n bs :
  Forall byte bs → length bs = n → network n (load bs) = be_value bs.
Proof.
  intros Hbs <-. unfold network, load. destruct little_endian; [|done].
  rewrite swap_bytes_spec by (apply le_value_range; done).
  by rewrite le_bytes_value.
Qed.
End ByteOrder.
