(* ===== verification/Wire.v ===== *)
(** * Messages of fields

    What the protocols of datagrams (PCP, DHCP) share: a streamer writes the fields of a
    record one after the other to the block of a message, and a scanner generated by flex
    reads them, with a rule of [{OCTET}{n}] for each.  The scanner is modelled on one
    contiguous buffer. *)
From S2P Require Import Prelude MessageBlock ByteOrder.

(** ** The streamer *)

(** One step of the serialisation: [None] goes to the label [error]; a copy has a size,
    which is compared to the room first, and the bytes, which are then read. *)
Definition step : Type := outcome (option (Z * outcome (list Z))).

Section Streamer.
Context {B : Type} `{ByteOrder} `{WritableBlock B}.

(** The message is passed on in any case, as far as it has been written; it is empty at
    first, so that its capacity is the room in it. *)
Fixpoint serialize (steps : list step) (b : B) : outcome B :=
  match steps with
  | [] => Ok b
  | s :: steps' =>
      c ← s;
      match c with
      | None => Ok b
      | Some (n, d) =>
          if mb_space b <? n then Ok b
          else
            d ← d;
            match mb_copy d b with None => Ok b | Some b' => serialize steps' b' end
      end
  end.

Definition copy (d : list Z) : step := Ok (Some (zlen d, Ok d)).
Definition error : step := Ok None.
(** a number of [n] bytes in network byte order *)
Definition copy_number (n : nat) (z : Z) : step := copy (memory n (network n z)).
(** the first byte of an enumerator *)
Definition copy_enum (z : Z) : step := copy (take 1 (memory 4 z)).
End Streamer.

(** ** The scanner

    Reading yields [None] when the scanner ends where the parser does not expect it: the
    parser returns an error. *)
Definition scan (X : Type) : Type := list Z → outcome (option (X * list Z)).
#[export] Instance scan_ret : MRet scan := λ X x s, Ok (Some (x, s)).
#[export] Instance scan_bind : MBind scan := λ X Y f m s,
  r ← m s; match r with None => Ok None | Some (x, s') => f x s' end.

(** [yyterminate ()] *)
Definition yyterminate {X} : scan X := λ _, Ok None.
(** an [ACE_ASSERT] in an action *)
Definition scan_assert (b : bool) : scan unit := λ s, ace_assert b;; Ok (Some (tt, s)).

(** [{OCTET}{n}]: the end of the buffer is the token [END]; when fewer octets are left, the
    rule for any octet matches instead, which asserts that it is not reached *)
Definition octets_rule (n : nat) : scan (list Z) := λ s,
  if bool_decide (s = []) then Ok None
  else if (length s <? n)%nat then Abort
  else Ok (Some (take n s, drop n s)).

(** the values of tokens *)
Section Tokens.
Context `{ByteOrder}.
Definition octet : scan Z := bs ← octets_rule 1; mret (default 0 (head bs)).
Definition number (n : nat) : scan Z := bs ← octets_rule n; mret (network n (load bs)).
End Tokens.

(** ** What is written *)
Definition range (n : nat) (z : Z) : Prop := 0 <= z < 256 ^ Z.of_nat n.

Section StreamerLemmas.
Context {B : Type} `{ByteOrder} `{WritableBlock B}.

(** the steps are copies, that write these bytes *)
Definition writes (steps : list step) (bs : list Z) : Prop :=
  ∃ ds, steps = copy <$> ds ∧ concat ds = bs.

Lemma writes_nil : writes [] [].
Proof. by exists []. Qed.
Lemma writes_app s1 s2 b1 b2 : writes s1 b1 → writes s2 b2 → writes (s1 ++ s2) (b1 ++ b2).
Proof.
  intros (d1 & -> & <-) (d2 & -> & <-). exists (d1 ++ d2). by rewrite fmap_app, concat_app.
Qed.
Lemma writes_copy d : writes [copy d] d.
Proof. exists [d]. cbn. by rewrite app_nil_r. Qed.
Lemma writes_cons s steps b bs : writes [s] b → writes steps bs → writes (s :: steps) (b ++ bs).
Proof. apply (writes_app [s]). Qed.

Lemma writes_number n z : range n z → writes [copy_number n z] (be_bytes n z).
Proof. intros Hz. unfold copy_number. rewrite memory_network by done. apply writes_copy. Qed.
Lemma writes_enum z : little_endian = true → byte z → writes [copy_enum z] [z].
Proof.
  intros Hle Hz. unfold copy_enum, memory. rewrite Hle. cbn.
  rewrite Z.mod_small by done. apply writes_copy.
Qed.
Lemma serialize_copies ds b :
  ∃ b' rest, serialize (copy <$> ds) b = Ok b' ∧ mb_bytes b' ++ rest = mb_bytes b ++ concat ds ∧
    mb_space b' = mb_space b - (zlen (concat ds) - zlen rest) ∧
    (zlen (concat ds) <= mb_space b → rest = []).
Proof.
  revert b. induction ds as [|d ds IH]; intros b.
  - exists b, []. cbn. split_and!; [done..|lia|done].
  - cbn. destruct (mb_space b <? zlen d) eqn:E; bool_lia.
    + exists b, (d ++ concat ds). split_and!; [done..|lia|].
      rewrite zlen_app. intros. pose proof (zlen_nonneg (concat ds)). exfalso. lia.
    + assert (is_Some (mb_copy d b)) as [b1 E1] by (apply mb_copy_room; lia). rewrite E1.
      apply mb_copy_bytes in E1 as (Hb & Hs).
      destruct (IH b1) as (b' & rest & -> & Hb' & Hs' & Hr). exists b', rest.
      rewrite zlen_app. split_and!; [done| |lia|].
      * by rewrite Hb', Hb, <- (assoc_L (++)).
      * intros. apply Hr. lia.
Qed.
(** copies that fit, in front of other steps *)
Lemma serialize_app ds steps b :
  zlen (concat ds) <= mb_space b →
  ∃ b', mb_bytes b' = mb_bytes b ++ concat ds ∧ mb_space b' = mb_space b - zlen (concat ds) ∧
        serialize ((copy <$> ds) ++ steps) b = serialize steps b'.
Proof.
  revert b. induction ds as [|d ds IH]; intros b Hs; cbn in *.
  - exists b. rewrite app_nil_r. split_and!; [done| |done]. change (zlen []) with 0. lia.
  - rewrite zlen_app in Hs. pose proof (zlen_nonneg (concat ds)).
    rewrite (proj2 (Z.ltb_ge _ _)) by lia.
    assert (is_Some (mb_copy d b)) as [b1 E1] by (apply mb_copy_room; lia). rewrite E1.
    apply mb_copy_bytes in E1 as (Hb & Hs1).
    destruct (IH b1) as (b' & Hb' & Hs' & E); [lia|]. exists b'.
    rewrite zlen_app. split_and!; [|lia|done]. by rewrite Hb', Hb, <- (assoc_L (++)).
Qed.
End StreamerLemmas.

(** ** What is read *)
Section ScannerLemmas.
Context `{ByteOrder}.

(** the scanner reads these bytes, whatever follows them, and this is their value *)
Definition parses {X} (m : scan X) (bs : list Z) (x : X) : Prop :=
  ∀ s, m (bs ++ s) = Ok (Some (x, s)).

Lemma parses_ret {X} (x : X) : parses (mret x) [] x.
Proof. by intros s. Qed.
Lemma parses_bind {X Y} (m : scan X) (f : X → scan Y) bs cs x y :
  parses m bs x → parses (f x) cs y → parses (m ≫= f) (bs ++ cs) y.
Proof.
  intros Hm Hf s. unfold mbind, scan_bind. rewrite <- (assoc_L (++)), Hm. cbn. apply Hf.
Qed.
Lemma parses_last {X Y} (m : scan X) (f : X → scan Y) bs x y :
  parses m bs x → parses (f x) [] y → parses (m ≫= f) bs y.
Proof. intros Hm Hf. rewrite <- (app_nil_r bs). by eapply parses_bind. Qed.

Lemma parses_first {X Y} (m : scan X) (f : X → scan Y) cs x y :
  parses m [] x → parses (f x) cs y → parses (m ≫= f) cs y.
Proof. intros Hm Hf. by apply (parses_bind m f [] cs x y). Qed.

Lemma parses_octets n bs : length bs = S n → parses (octets_rule (S n)) bs bs.
Proof.
  intros Hn s. unfold octets_rule. rewrite bool_decide_false by (by destruct bs).
  rewrite length_app, (proj2 (Nat.ltb_ge _ _)) by lia.
  by rewrite take_app_length', drop_app_length'.
Qed.
Lemma parses_octet z : parses octet [z] z.
Proof. eapply parses_last; [by apply parses_octets|]. apply parses_ret. Qed.
Lemma network_load_be n z : range n z → network n (load (be_bytes n z)) = z.
Proof.
  intros Hz. rewrite network_load; [by apply be_value_bytes|apply be_bytes_byte|].
  apply length_be_bytes.
Qed.
Lemma parses_number n z : range (S n) z → parses (number (S n)) (be_bytes (S n) z) z.
Proof.
  intros Hz. eapply parses_last; [apply parses_octets, length_be_bytes|].
  rewrite network_load_be by done. apply parses_ret.
Qed.
Lemma parses_assert b : b = true → parses (scan_assert b) [] tt.
Proof. by intros -> s. Qed.

(** what a rule can yield, from bytes, and that it leaves bytes *)
Definition yields {X} (m : scan X) (P : X → Prop) : Prop :=
  ∀ s x s', Forall byte s → m s = Ok (Some (x, s')) → P x ∧ Forall byte s'.

Lemma yields_ret {X} (x : X) (P : X → Prop) : P x → yields (mret x) P.
Proof. intros HP s y s' Hs [= <- <-]. done. Qed.
Lemma yields_bind {X Y} (m : scan X) (f : X → scan Y) P Q :
  yields m P → (∀ x, P x → yields (f x) Q) → yields (m ≫= f) Q.
Proof.
  intros Hm Hf s y s' Hs E. unfold mbind, scan_bind in E.
  destruct (m s) as [[[x s1]|]| |] eqn:Em; try done.
  destruct (Hm _ _ _ Hs Em) as [HP Hs1]. by eapply Hf.
Qed.
Lemma yields_assert b : yields (scan_assert b) (λ _, b = true).
Proof. intros s [] s' Hs E. destruct b; [|done]. by inv E. Qed.
Lemma yields_octets n :
  yields (octets_rule n) (λ bs, Forall byte bs ∧ length bs = n).
Proof.
  intros s bs s' Hs E. unfold octets_rule in E.
  case_bool_decide; [done|]. destruct (length s <? n)%nat eqn:El; [done|]. inv E.
  apply Nat.ltb_ge in El. rewrite length_take.
  split_and!; [by apply Forall_take|lia|by apply Forall_drop].
Qed.
Lemma load_range bs : Forall byte bs → range (length bs) (load bs).
Proof.
  intros Hbs. unfold load, range. destruct little_endian; [by apply le_value_range|].
  unfold be_value. rewrite <- length_rev. by apply le_value_range, Forall_rev.
Qed.
Lemma yields_octet : yields octet byte.
Proof.
  eapply yields_bind; [apply yields_octets|]. intros [|b [|]] [Hb Hl]; try done.
  apply yields_ret. by inv Hb.
Qed.
End ScannerLemmas.
