(* ===== verification/Decimal.v ===== *)
(** * Decimal numbers

    What the code uses of the standard streams to print unsigned numbers ([pretty], of
    stdpp, is the decimal representation) and to read them back, and the digits in
    between. *)
From S2P Require Import Prelude Chars.

Definition isalnum (c : ascii) : bool := isalpha c || isdigit c.

Definition all_digits (s : string) : bool := string_all isdigit s.

Fixpoint span_digits (s : string) : string * string :=
  match s with
  | String c s' =>
      if isdigit c then let '(ds, rest) := span_digits s' in (String c ds, rest)
      else ("", s)
  | "" => ("", "")
  end.

(** the value of digits *)
Fixpoint digits_value (acc : Z) (s : string) : Z :=
  match s with
  | "" => acc
  | String c s' => digits_value (10 * acc + (code c - code "0")) s'
  end.

(** [stream >> n] for an unsigned number of [bits] bits and a stream that holds digits:
    their value, or the largest value on overflow; a stream at its end leaves [n] *)
Definition read_unsigned (bits n : Z) (s : string) : Z :=
  let '(digits, _) := span_digits s in
  if bool_decide (digits = "") then n else Z.min (digits_value 0 digits) (2 ^ bits - 1).

Lemma span_digits_app s c t :
  all_digits s = true → isdigit c = false →
  span_digits (s +:+ String c t) = (s, String c t).
Proof.
  intros Hs Hc. induction s as [|d s IH]; unfold all_digits in *.
  - autorewrite with str. cbn [span_digits]. by rewrite Hc.
  - cbn [string_all] in Hs. apply andb_true_iff in Hs as [Hd Hs].
    autorewrite with str. cbn [span_digits]. by rewrite Hd, IH.
Qed.

Lemma span_digits_all s : all_digits s = true → span_digits s = (s, "").
Proof.
  induction s as [|c s IH]; [done|]. unfold all_digits in *. cbn [string_all].
  intros [Hc Hs]%andb_true_iff. cbn [span_digits]. by rewrite Hc, IH.
Qed.

Lemma digit_char n : (n < 10)%N →
  isdigit (pretty_N_char n) = true ∧ code (pretty_N_char n) - code "0" = Z.of_N n.
Proof.
  intros Hn. assert (∃ k : nat, n = N.of_nat k ∧ (k < 10)%nat) as (k & -> & Hk)
    by (exists (N.to_nat n); lia).
  do 10 (destruct k as [|k]; [done|]). lia.
Qed.

(** Printing and reading back, with the digits [s] after the number's. *)
Lemma pretty_N_go_digits x s :
  all_digits s = true →
  all_digits (pretty_N_go x s) = true ∧
  digits_value 0 (pretty_N_go x s) = digits_value (Z.of_N x) s ∧
  (s ≠ "" ∨ (0 < x)%N → pretty_N_go x s ≠ "").
Proof.
  revert s. induction (N.lt_wf_0 x) as [x _ IH]. intros s Hs.
  destruct (decide (x = 0%N)) as [->|Hx].
  - rewrite pretty_N_go_0. split_and!; [done|done|]. intros [?|?]; [done|lia].
  - rewrite pretty_N_go_step by lia.
    destruct (digit_char (x mod 10)) as [Hd Hv]; [apply N.mod_lt; lia|].
    destruct (IH (x / 10)%N ltac:(apply N.div_lt; lia)
      (String (pretty_N_char (x mod 10)) s)) as (Hall & Hval & Hne).
    { unfold all_digits in *. cbn [string_all]. by rewrite Hd. }
    split_and!; [done| |by intros _; apply Hne; left].
    rewrite Hval. cbn [digits_value]. rewrite Hv. f_equal.
    pose proof (N.div_mod x 10). lia.
Qed.

Lemma pretty_digits n :
  0 <= n → all_digits (pretty n) = true ∧ digits_value 0 (pretty n) = n ∧ pretty n ≠ "".
Proof.
  intros Hn. destruct n as [|p|p]; [done| |lia].
  change (pretty (Z.pos p)) with (pretty (N.pos p)).
  unfold pretty, pretty_N. rewrite decide_False by done.
  destruct (pretty_N_go_digits (N.pos p) "") as (Ha & Hv & Hne); [done|].
  split_and!; [done|by rewrite Hv|]. apply Hne. by right.
Qed.

Lemma pad_digits n s :
  all_digits s = true →
  all_digits (pad n "0" s) = true ∧ digits_value 0 (pad n "0" s) = digits_value 0 s.
Proof. intros Hs. induction n as [|n [IHa IHv]]; [done|]. by split. Qed.

(** As many digits as the number has. *)
Lemma pretty_N_go_length k x s :
  (x < 10 ^ N.of_nat k)%N →
  (String.length (pretty_N_go x s) <= k + String.length s)%nat.
Proof.
  revert x s. induction k as [|k IH]; intros x s Hx.
  - assert (x = 0)%N as -> by (cbn in Hx; lia). by rewrite pretty_N_go_0.
  - destruct (decide (x = 0%N)) as [->|Hne]; [rewrite pretty_N_go_0; lia|].
    rewrite pretty_N_go_step by lia.
    assert (Hk : (x / 10 < 10 ^ N.of_nat k)%N).
    { apply N.Div0.div_lt_upper_bound.
      by rewrite Nat2N.inj_succ, N.pow_succ_r' in Hx. }
    pose proof (IH (x / 10)%N (String (pretty_N_char (x mod 10)) s) Hk) as Hl.
    cbn [String.length] in Hl. lia.
Qed.

Lemma pretty_length k n :
  (1 <= k)%nat → 0 <= n < 10 ^ Z.of_nat k → (String.length (pretty n) <= k)%nat.
Proof.
  intros Hk [Hn Hb]. destruct n as [|p|p]; [done| |lia].
  change (pretty (Z.pos p)) with (pretty (N.pos p)).
  unfold pretty, pretty_N. rewrite decide_False by done.
  pose proof (pretty_N_go_length k (N.pos p) "") as Hl. cbn [String.length] in Hl.
  rewrite Nat.add_0_r in Hl. apply Hl.
  apply N2Z.inj_lt. rewrite N2Z.inj_pow, nat_N_Z. exact Hb.
Qed.

(** A number that is printed is read back. *)
Lemma read_unsigned_pretty bits m n :
  0 <= n < 2 ^ bits → read_unsigned bits m (pretty n) = n.
Proof.
  intros Hn. destruct (pretty_digits n) as (Ha & Hv & Hne); [lia|].
  unfold read_unsigned. rewrite span_digits_all by done.
  rewrite bool_decide_false by done. rewrite Hv. lia.
Qed.

Lemma digits_value_nonneg s : all_digits s = true → ∀ acc, 0 <= acc → acc <= digits_value acc s.
Proof.
  induction s as [|c s IH]; [done|]. unfold all_digits in *. cbn [string_all].
  intros [Hc Hs]%andb_true_iff acc Hacc. cbn [digits_value].
  unfold isdigit, in_range in Hc. apply andb_true_iff in Hc as [H1 H2]. bool_lia.
  specialize (IH Hs (10 * acc + (code c - code "0"))). lia.
Qed.

(** A number has at least as many digits as a smaller one. *)
Lemma digits_value_bound s : all_digits s = true → ∀ acc, 0 <= acc →
  digits_value acc s < (acc + 1) * 10 ^ Z.of_nat (String.length s).
Proof.
  induction s as [|c s IH]; unfold all_digits in *; cbn [string_all String.length digits_value].
  - intros _ acc _. lia.
  - intros [Hc Hs]%andb_true_iff acc Hacc.
    unfold isdigit, in_range in Hc. apply andb_true_iff in Hc as [H1 H2]. bool_lia.
    change (code "9") with 57 in H2. change (code "0") with 48 in *.
    specialize (IH Hs (10 * acc + (code c - 48)) ltac:(lia)).
    rewrite Nat2Z.inj_succ, Z.pow_succ_r by lia.
    pose proof (Z.pow_pos_nonneg 10 (Z.of_nat (String.length s)) ltac:(lia) ltac:(lia)). nia.
Qed.

Lemma pretty_length_le n m :
  0 <= n <= m → (String.length (pretty n) <= String.length (pretty m))%nat.
Proof.
  intros Hnm. destruct (pretty_digits m) as (Ha & Hv & Hne); [lia|].
  pose proof (digits_value_bound _ Ha 0 ltac:(lia)) as Hb. rewrite Hv in Hb.
  apply pretty_length; [|lia]. destruct (pretty m); [done|cbn; lia].
Qed.
