(* ===== verification/Lex.v ===== *)
(** * Rules of flex

    The expressions of the scanners, on octets; which of their rules applies: the one that
    matches the longest text, and of several the first; and where a match can end, when the
    expression says which character it cannot go past. *)
From S2P Require Import Prelude Chars.

Inductive re :=
  | Never
  | Eps
  | Chr (x : Z)
  | Cls (f : Z → bool)
  | Cat (a b : re)
  | Or (a b : re)
  | Many (a : re).

Inductive lang : re → list Z → Prop :=
  | lang_eps : lang Eps []
  | lang_chr x : lang (Chr x) [x]
  | lang_cls f x : f x = true → lang (Cls f) [x]
  | lang_cat a b u v : lang a u → lang b v → lang (Cat a b) (u ++ v)
  | lang_or_l a b u : lang a u → lang (Or a b) u
  | lang_or_r a b u : lang b u → lang (Or a b) u
  | lang_many_nil a : lang (Many a) []
  | lang_many_app a u v : lang a u → lang (Many a) v → lang (Many a) (u ++ v).
#[export] Hint Constructors lang : lex.

(** the shorthands [r+], [r{0,1}], a sequence, alternatives and a text *)
Definition Many1 (a : re) : re := Cat a (Many a).
Definition Opt (a : re) : re := Or a Eps.
Definition seq_of (rs : list re) : re := foldr Cat Eps rs.
Definition one_of_re (rs : list re) : re := foldr Or Never rs.
Definition lits (bs : list Z) : re := seq_of (Chr <$> bs).
Definition text (s : string) : re := lits (string_bytes s).
Fixpoint times (n : nat) (a : re) : re :=
  match n with O => Eps | S n' => Cat a (times n' a) end.

(** ** Derivatives *)
Fixpoint nullable (r : re) : bool :=
  match r with
  | Never | Chr _ | Cls _ => false
  | Eps | Many _ => true
  | Cat a b => nullable a && nullable b
  | Or a b => nullable a || nullable b
  end.
Definition cat (a b : re) : re :=
  match a with Never => Never | Eps => b | _ => Cat a b end.
Definition or (a b : re) : re :=
  match a, b with Never, _ => b | _, Never => a | _, _ => Or a b end.
Fixpoint deriv (x : Z) (r : re) : re :=
  match r with
  | Never | Eps => Never
  | Chr y => if x =? y then Eps else Never
  | Cls f => if f x then Eps else Never
  | Cat a b =>
      if nullable a then or (cat (deriv x a) b) (deriv x b) else cat (deriv x a) b
  | Or a b => or (deriv x a) (deriv x b)
  | Many a => cat (deriv x a) (Many a)
  end.

Definition matches (r : re) (bs : list Z) : bool := nullable (foldl (flip deriv) r bs).

(** the length of the longest prefix that matches; the scanner stops where nothing can *)
Fixpoint longest (r : re) (bs : list Z) : option nat :=
  match bs with
  | [] => if nullable r then Some O else None
  | x :: bs' =>
      match match deriv x r with Never => None | d => longest d bs' end with
      | Some n => Some (S n)
      | None => if nullable r then Some O else None
      end
  end.

(** the rule that applies, and the length of its text *)
Fixpoint pick {A} (rules : list (re * A)) (bs : list Z) : option (nat * A) :=
  match rules with
  | [] => None
  | (r, a) :: rules' =>
      match longest r bs, pick rules' bs with
      | Some n, Some (m, b) => if (m <=? n)%nat then Some (n, a) else Some (m, b)
      | Some n, None => Some (n, a)
      | None, p => p
      end
  end.

(** No word of the expression has an [s] before a [g]; every word has a [g]. *)
Fixpoint has_all (g : Z) (r : re) : bool :=
  match r with
  | Never => true
  | Eps | Cls _ | Many _ => false
  | Chr x => x =? g
  | Cat a b => has_all g a || has_all g b
  | Or a b => has_all g a && has_all g b
  end.
Fixpoint guarded (s g : Z) (r : re) : bool :=
  match r with
  | Never | Eps => true
  | Chr x => negb (x =? s)
  | Cls f => negb (f s)
  | Cat a b => guarded s g a && (guarded s g b || has_all g a)
  | Or a b => guarded s g a && guarded s g b
  | Many a => guarded s g a
  end.

(** ** The meaning of derivatives *)
Lemma lang_never u : ¬ lang Never u.
Proof. by inversion 1. Qed.
Lemma lang_eps_inv u : lang Eps u → u = [].
Proof. by inversion 1. Qed.
Lemma lang_cat_inv a b u : lang (Cat a b) u → ∃ v w, u = v ++ w ∧ lang a v ∧ lang b w.
Proof. inversion 1; eauto. Qed.
Lemma lang_or_iff a b u : lang (Or a b) u ↔ lang a u ∨ lang b u.
Proof. split; [by inversion 1; auto|intros [?|?]; auto with lex]. Qed.
Lemma lang_many_cons x u a : lang (Many a) (x :: u) →
  ∃ v w, u = v ++ w ∧ lang a (x :: v) ∧ lang (Many a) w.
Proof.
  intros Hl. remember (Many a) as r eqn:Er. remember (x :: u) as l eqn:El.
  revert Er u El. induction Hl; intros; simplify_eq.
  destruct u as [|y u]; cbn in *; [by apply IHHl2|]. simplify_eq. eauto.
Qed.

Lemma nullable_spec r : nullable r = true ↔ lang r [].
Proof.
  induction r as [| | | |a IHa b IHb|a IHa b IHb|a IHa]; cbn.
  - split; [done|intros []%lang_never].
  - split; [intros _; constructor|done].
  - split; [done|by inversion 1].
  - split; [done|by inversion 1].
  - rewrite andb_true_iff, IHa, IHb. split.
    + intros [Ha Hb]. apply (lang_cat a b [] []); done.
    + intros (v & w & E & Ha & Hb)%lang_cat_inv. by apply eq_sym, app_eq_nil in E as [-> ->].
  - by rewrite orb_true_iff, IHa, IHb, lang_or_iff.
  - split; [intros _; constructor|done].
Qed.

Lemma lang_cat_smart a b u : lang (cat a b) u ↔ lang (Cat a b) u.
Proof.
  destruct a; cbn; try done; split.
  - intros []%lang_never.
  - intros (v & w & _ & []%lang_never & _)%lang_cat_inv.
  - intros Hb. apply (lang_cat Eps b []); auto with lex.
  - by intros (v & w & -> & ->%lang_eps_inv & Hb)%lang_cat_inv.
Qed.
Lemma lang_or_smart a b u : lang (or a b) u ↔ lang (Or a b) u.
Proof.
  rewrite lang_or_iff. pose proof (lang_never u).
  destruct a, b; cbn; rewrite ?lang_or_iff; tauto.
Qed.

Lemma deriv_spec x r : ∀ u, lang (deriv x r) u ↔ lang r (x :: u).
Proof.
  induction r as [| |y|f|a IHa b IHb|a IHa b IHb|a IHa]; intros u; cbn [deriv].
  - split; intros []%lang_never.
  - split; [intros []%lang_never|by inversion 1].
  - destruct (x =? y) eqn:E; bool_lia.
    + subst. split; [intros ->%lang_eps_inv; constructor|inversion 1; constructor].
    + split; [intros []%lang_never|by inversion 1].
  - destruct (f x) eqn:E.
    + split; [intros ->%lang_eps_inv; by constructor|inversion 1; constructor].
    + split; [intros []%lang_never|inversion 1; congruence].
  - assert (lang (Cat a b) (x :: u) ↔ lang (Cat (deriv x a) b) u ∨ lang a [] ∧ lang b (x :: u)) as ->.
    { split.
      - intros ([|y v] & w & E & Ha & Hb)%lang_cat_inv; cbn in E; simplify_eq; [by right|].
        left. constructor; [by apply IHa|done].
      - intros [(v & w & -> & Ha & Hb)%lang_cat_inv|[Ha Hb]].
        + apply (lang_cat a b (x :: v)); [by apply IHa|done].
        + by apply (lang_cat a b []). }
    rewrite <- nullable_spec. destruct (nullable a).
    + rewrite lang_or_smart, lang_or_iff, lang_cat_smart, IHb. tauto.
    + rewrite lang_cat_smart. split; [by left|by intros [?|[? _]]].
  - by rewrite lang_or_smart, !lang_or_iff, IHa, IHb.
  - rewrite lang_cat_smart. split.
    + intros (v & w & -> & Ha & Hs)%lang_cat_inv.
      apply (lang_many_app a (x :: v)); [by apply IHa|done].
    + intros (v & w & -> & Ha & Hs)%lang_many_cons. constructor; [by apply IHa|done].
Qed.

Lemma matches_spec u : ∀ r, matches r u = true ↔ lang r u.
Proof.
  induction u as [|x u IH]; intros r; [apply nullable_spec|].
  unfold matches in *. cbn. by rewrite IH, deriv_spec.
Qed.

(** ** The longest match *)
Lemma longest_never u : longest Never u = None.
Proof. by destruct u. Qed.
Lemma longest_cons r x u :
  longest r (x :: u) =
    match longest (deriv x r) u with
    | Some n => Some (S n)
    | None => if nullable r then Some O else None
    end.
Proof. cbn [longest]. destruct (deriv x r); [by rewrite longest_never|done..]. Qed.
Lemma longest_None u : ∀ r, longest r u = None ↔ ∀ n, ¬ lang r (take n u).
Proof.
  induction u as [|x u IH]; intros r; rewrite ?longest_cons; cbn [longest].
  - destruct (nullable r) eqn:E; split; try done.
    + intros Hn. by apply nullable_spec, (Hn O) in E.
    + intros _ n. rewrite take_nil, <- nullable_spec. congruence.
  - destruct (longest (deriv x r) u) as [n|] eqn:E; split; try done.
    + intros Hn. assert (longest (deriv x r) u = None) as E'; [|congruence].
      apply IH. intros m Hm. apply (Hn (S m)). by apply deriv_spec.
    + intros Hr [|n] Hn; cbn in Hn.
      * apply nullable_spec in Hn. by rewrite Hn in Hr.
      * apply (proj1 (IH _) E n). by apply deriv_spec.
    + intros Hn. destruct (nullable r) eqn:Er; [|done]. by apply nullable_spec, (Hn O) in Er.
Qed.
Lemma longest_Some u : ∀ r n,
  longest r u = Some n ↔
  (n <= length u)%nat ∧ lang r (take n u) ∧ ∀ m, (n < m <= length u)%nat → ¬ lang r (take m u).
Proof.
  induction u as [|x u IH]; intros r n; rewrite ?longest_cons; cbn [longest length].
  - rewrite take_nil, <- nullable_spec. destruct (nullable r); split; try done.
    + intros [= <-]. split_and!; [done..|lia].
    + intros (Hn & _). by replace n with O by lia.
    + by intros (_ & ? & _).
  - destruct (longest (deriv x r) u) as [k|] eqn:E.
    + apply IH in E as (Hk & Hl & Hm). split.
      * intros [= <-]. split_and!; [lia|by apply deriv_spec|].
        intros [|m] Hlt; [lia|]. cbn. rewrite <- deriv_spec. apply Hm. lia.
      * intros (Hn & Hln & Hmn). destruct (decide (n = S k)) as [->|Hne]; [done|].
        destruct n as [|n]; [|cbn in Hln; apply deriv_spec in Hln].
        -- exfalso. apply (Hmn (S k)); [lia|]. by apply deriv_spec.
        -- exfalso. destruct (decide (n < k)%nat).
           ++ apply (Hmn (S k)); [lia|]. by apply deriv_spec.
           ++ apply (Hm n); [lia|done].
    + pose proof (proj1 (longest_None _ _) E) as HN. destruct (nullable r) eqn:Er; split; try done.
      * intros [= <-]. split_and!; [lia|by apply nullable_spec|].
        intros [|m] Hlt; [lia|]. cbn. rewrite <- deriv_spec. apply HN.
      * intros (Hn & Hl & _). destruct n as [|n]; [done|]. exfalso. apply (HN n). by apply deriv_spec.
      * intros (Hn & Hl & _). destruct n as [|n]; [by apply nullable_spec in Hl; rewrite Hl in Er|].
        exfalso. apply (HN n). by apply deriv_spec.
Qed.

(** ** Which rule applies *)
Definition below (n : nat) (o : option nat) : Prop := ∀ m, o = Some m → (m < n)%nat.
Definition at_most (n : nat) (o : option nat) : Prop := ∀ m, o = Some m → (m <= n)%nat.
Lemma pick_at_most {A} n (rules : list (re * A)) u :
  Forall (λ r, at_most n (longest r.1 u)) rules → ∀ m a, pick rules u = Some (m, a) → (m <= n)%nat.
Proof.
  induction 1 as [|[r b] rules Hr _ IH]; [done|]. intros m a. cbn [pick fst] in *.
  destruct (longest r u) as [k|]; [|by apply IH]. specialize (Hr k eq_refl).
  destruct (pick rules u) as [[k' b']|]; [|by intros [= -> ->]].
  specialize (IH k' b' eq_refl). destruct (k' <=? k)%nat; intros [= <- <-]; done.
Qed.
Lemma pick_first {A} n (a : A) r pre post u :
  longest r u = Some n → Forall (λ x, below n (longest x.1 u)) pre →
  Forall (λ x, at_most n (longest x.1 u)) post → pick (pre ++ (r, a) :: post) u = Some (n, a).
Proof.
  intros Hr Hpre Hpost. induction Hpre as [|[r' b] pre Hb _ IH]; cbn [app pick].
  - rewrite Hr. destruct (pick post u) as [[m c]|] eqn:E; [|done].
    apply (pick_at_most n) in E; [|done]. by rewrite (proj2 (Nat.leb_le m n)).
  - rewrite IH. cbn [fst] in Hb. destruct (longest r' u) as [k|]; [|done].
    specialize (Hb k eq_refl). by rewrite (proj2 (Nat.leb_gt n k)).
Qed.
(** rules with the same action *)
Lemma pick_same {A} n (a : A) rules u :
  Forall (λ x, at_most n (longest x.1 u) ∧ (longest x.1 u = Some n → x.2 = a)) rules →
  Exists (λ x, longest x.1 u = Some n) rules → pick rules u = Some (n, a).
Proof.
  induction 1 as [|[r b] rules [Hr Ha] Hrules IH]; [by inversion 1|]. intros He.
  assert (∀ m c, pick rules u = Some (m, c) → (m <= n)%nat) as Hle
    by (apply pick_at_most; eapply Forall_impl; [exact Hrules|by intros ? []]).
  cbn [pick fst snd] in *. destruct (longest r u) as [k|] eqn:El.
  - specialize (Hr k eq_refl). destruct (decide (k = n)) as [->|Hne].
    + rewrite (Ha eq_refl). destruct (pick rules u) as [[m c]|]; [|done].
      by rewrite (proj2 (Nat.leb_le m n)) by (by eapply Hle).
    + apply Exists_cons in He as [He|He]; [cbn in He; congruence|].
      rewrite IH by done. by rewrite (proj2 (Nat.leb_gt n k)) by lia.
  - apply Exists_cons in He as [He|He]; [cbn in He; congruence|by apply IH].
Qed.

(** ** Where a match ends *)
Lemma has_all_spec g r u : lang r u → has_all g r = true → g ∈ u.
Proof.
  induction 1; cbn; rewrite ?andb_true_iff, ?orb_true_iff; try done; intros; bool_lia; subst;
    try set_solver; naive_solver set_solver.
Qed.
Lemma guarded_spec s g r u :
  lang r u → guarded s g r = true → ∀ p q, u = p ++ s :: q → g ∈ p.
Proof.
  induction 1 as [|x|f x Hf|a b u v Hu IHu Hv IHv|a b u Hu IH|a b u Hu IH|a|a u v Hu IHu Hv IHv];
    cbn; intros Hg p q E.
  - by destruct p.
  - apply negb_true_iff, Z.eqb_neq in Hg. destruct p as [|y [|? ?]]; by simplify_eq/=.
  - apply negb_true_iff in Hg. destruct p as [|y [|? ?]]; simplify_eq/=; congruence.
  - apply andb_true_iff in Hg as [Ha Hb]. apply app_eq_inv in E as [(k & Eu & Ek)|(k & -> & Ev)].
    + destruct k as [|y k]; cbn in Ek; simplify_eq; [|by eapply IHu].
      rewrite app_nil_r in *. apply orb_true_iff in Hb as [Hb|Hb]; [|by apply (has_all_spec g) in Hu].
      exfalso. pose proof (IHv Hb [] q eq_refl). set_solver.
    + apply orb_true_iff in Hb as [Hb|Hb]; [|apply (has_all_spec g) in Hu; set_solver].
      pose proof (IHv Hb k q Ev). set_solver.
  - apply andb_true_iff in Hg as [Ha _]. by eapply IH.
  - apply andb_true_iff in Hg as [_ Hb]. by eapply IH.
  - by destruct p.
  - apply app_eq_inv in E as [(k & Eu & Ek)|(k & -> & Ev)].
    + destruct k as [|y k]; cbn in Ek; simplify_eq; [|by eapply IHu].
      exfalso. pose proof (IHv Hg [] q eq_refl). set_solver.
    + pose proof (IHv Hg k q Ev). set_solver.
Qed.

Lemma lang_lits bs u : lang (lits bs) u ↔ u = bs.
Proof.
  revert u. induction bs as [|b bs IH]; intros u; cbn.
  - split; [apply lang_eps_inv|intros ->; constructor].
  - split.
    + intros (v & w & -> & Hv & Hw%IH)%lang_cat_inv. inversion Hv. by subst.
    + intros ->. apply (lang_cat _ _ [b]); [constructor|by apply IH].
Qed.

(** An expression behind which there is a text that begins with [s]: it matches up to the
    first [s], or not at all. *)
Section Ends.
Context (s g : Z) (t : list Z) (r : re) (l rest : list Z).
Context (r_guarded : guarded s g r = true) (l_s : s ∉ l) (l_g : g ∉ l).

Lemma match_ends n :
  lang (Cat r (lits (s :: t))) (take n (l ++ (s :: t) ++ rest)) →
  (n <= length (l ++ (s :: t) ++ rest))%nat → n = length (l ++ s :: t) ∧ lang r l.
Proof using r_guarded l_s l_g.
  intros (v & w & E & Hv & ->%lang_lits)%lang_cat_inv Hn.
  assert (l ++ (s :: t) ++ rest = v ++ s :: t ++ drop n (l ++ (s :: t) ++ rest)) as E'
    by (rewrite <- (take_drop n (l ++ _)) at 1; rewrite E, <- app_assoc; done).
  assert (v = l) as ->.
  { cbn [app] in E'. apply app_eq_inv in E' as [(k & El & Ek)|(k & Ev & Ek)].
    - destruct k as [|y k]; [by rewrite app_nil_r in El|]. cbn in Ek. simplify_eq. set_solver.
    - destruct k as [|y k]; [by rewrite app_nil_r in Ev|]. cbn in Ek. simplify_eq.
      pose proof (guarded_spec _ _ _ _ Hv r_guarded _ _ eq_refl). set_solver. }
  split; [|done]. rewrite <- E. by rewrite length_take_le.
Qed.
Lemma longest_ends :
  longest (Cat r (lits (s :: t))) (l ++ (s :: t) ++ rest) =
    if matches r l then Some (length (l ++ s :: t)) else None.
Proof using r_guarded l_s l_g.
  destruct (matches r l) eqn:Hm.
  - apply matches_spec in Hm. apply longest_Some. split_and!.
    + rewrite !length_app. lia.
    + rewrite app_assoc, take_app_length. constructor; [done|by apply lang_lits].
    + intros m Hlt Hl. apply match_ends in Hl as [-> _]; lia.
  - apply longest_None. intros n Hl.
    destruct (decide (n <= length (l ++ (s :: t) ++ rest))%nat).
    + apply match_ends in Hl as [_ Hl]; [|done]. apply matches_spec in Hl. congruence.
    + rewrite take_ge in Hl by lia. rewrite <- (firstn_all (l ++ _)) in Hl.
      apply match_ends in Hl as [_ Hl]; [|done]. apply matches_spec in Hl. congruence.
Qed.
End Ends.

(** words of one class *)
Lemma lang_many_cls f u : lang (Many (Cls f)) u ↔ Forall (λ x, f x = true) u.
Proof.
  split.
  - remember (Many (Cls f)) as r eqn:Er. induction 1; simplify_eq; [constructor|].
    match goal with H : lang (Cls _) _ |- _ => inversion H; subst end. cbn. auto.
  - induction 1 as [|x u Hx _ IH]; [constructor|].
    apply (lang_many_app _ [x]); [by constructor|done].
Qed.
Lemma lang_many1_cls f u : lang (Many1 (Cls f)) u ↔ u ≠ [] ∧ Forall (λ x, f x = true) u.
Proof.
  split.
  - intros (v & w & -> & Hv & Hw%lang_many_cls)%lang_cat_inv. inversion Hv; subst. cbn. auto.
  - intros [Hne Hf]. destruct Hf as [|x u Hx Hu]; [done|].
    apply (lang_cat _ _ [x]); [by constructor|by apply lang_many_cls].
Qed.

(** ** Matches that are computed, whatever follows *)
Definition residual (r : re) (p : list Z) : re := foldl (flip deriv) r p.

Lemma longest_prefix r p rest : residual r p = Never → longest r (p ++ rest) = longest r p.
Proof.
  revert r. induction p as [|x p IH]; intros r Hr; cbn [app].
  - cbn in Hr. subst. apply longest_never.
  - by rewrite !longest_cons, (IH (deriv x r)).
Qed.
Lemma longest_residual r p rest : residual r p = Eps → longest r (p ++ rest) = Some (length p).
Proof.
  revert r. induction p as [|x p IH]; intros r Hr; cbn [app].
  - cbn in Hr. subst. destruct rest as [|y rest]; [done|]. by rewrite longest_cons, longest_never.
  - by rewrite longest_cons, (IH (deriv x r)).
Qed.
Lemma longest_dead r x u : deriv x r = Never → nullable r = false → longest r (x :: u) = None.
Proof. intros Hd Hn. by rewrite longest_cons, Hd, longest_never, Hn. Qed.

Lemma guarded_not_in s r u : guarded s s r = true → lang r u → s ∉ u.
Proof.
  intros Hg Hu Hs. apply list_elem_of_split_l in Hs as (p & q & -> & Hp).
  by eapply Hp, guarded_spec.
Qed.

(** a run of characters, up to one that is not of it *)
Lemma longest_run f p rest :
  p ≠ [] → Forall (λ x, f x = true) p → match rest with [] => True | y :: _ => f y = false end →
  longest (Many1 (Cls f)) (p ++ rest) = Some (length p).
Proof.
  intros Hne Hp Hr. apply longest_Some. rewrite take_app_length. split_and!.
  - rewrite length_app. lia.
  - by apply lang_many1_cls.
  - intros m Hm [_ Hf]%lang_many1_cls. rewrite length_app in Hm. destruct rest as [|y rest]; [cbn in Hm; lia|].
    rewrite take_app_ge in Hf by lia. apply Forall_app in Hf as [_ Hf].
    destruct (m - length p)%nat as [|k] eqn:E; [lia|]. cbn [take] in Hf.
    apply Forall_cons_1 in Hf as [Hy _]. congruence.
Qed.
Lemma lits_none x y t u : x ≠ y → longest (lits (y :: t)) (x :: u) = None.
Proof. intros Hx. apply longest_dead; [|done]. cbn. by rewrite (proj2 (Z.eqb_neq x y)). Qed.
Lemma class_picked f x u : f x = true → longest (Cls f) (x :: u) = Some 1%nat.
Proof. intros Hx. change (x :: u) with ([x] ++ u). apply longest_residual. cbn. by rewrite Hx. Qed.
Lemma run_none f x u : f x = false → longest (Many1 (Cls f)) (x :: u) = None.
Proof. intros Hx. apply longest_dead; [|done]. cbn. by rewrite Hx. Qed.
