(* ===== verification/Fragments.v ===== *)
(** * Scanners that go from fragment to fragment

    A fragment of what has been received is a buffer of the scanner (a copy of it: the option
    [useYYScanBuffer] is not set).  The text of a rule is in one buffer; at the end of a buffer,
    [yywrap ()] goes on with the next one, or waits for it.  A reader of texts only needs that no
    text is in two buffers ([uncut]). *)
From S2P Require Import Prelude.

(** What is left to read: what is left of the buffer, and the fragments behind it. *)
Notation input := (list (list Z)) (only parsing).
(** what a rule does: it goes on, or yields a token; [End_]: the token at the end of a file; or
    the scanner waits for the next fragment *)
Inductive scanned (St T : Type) :=
  | Matched (s : St) (i : input)
  | Token (t : T) (s : St) (i : input)
  | End_ (s : St) (i : input)
  | Waits.
Arguments Matched {St T} s i.
Arguments Token {St T} t s i.
Arguments End_ {St T} s i.
Arguments Waits {St T}.

Section Scan.
(** the rule that applies, if any; whether [yywrap ()] ends the input; what a new buffer does to
    the state; what is done where no rule applies *)
Context {St T : Type} (rule : St → list Z → input → option (outcome (scanned St T)))
  (ends : St → bool) (begins : St → St) (stuck : St → list Z → input → outcome (scanned St T)).

Fixpoint scan (fuel : nat) (s : St) (i : input) : outcome (scanned St T) :=
  match fuel with
  | O => Ok Waits
  | S fuel' =>
      match i with
      | [] => Ok (if ends s then End_ s i else Waits)
      | [] :: i' =>
          if ends s then Ok (End_ s i)
          else match i' with [] => Ok Waits | _ => scan fuel' (begins s) i' end
      | bs :: i' =>
          match rule s bs i' with
          | Some m =>
              m ← m;
              match m with Matched s' i'' => scan fuel' s' i'' | other => Ok other end
          | None => stuck s bs i'
          end
      end
  end.
End Scan.
(** every turn takes an octet, or a buffer that is empty, but for two that look ahead *)
Definition scan_fuel (i : input) : nat := S (S (length i + length (mjoin i))).

(** ** Fragments that do not cut a text

    [uncut ps rest i]: the buffers hold the texts [ps] and then [rest], and no text is in two
    buffers. *)
Inductive uncut : list (list Z) → list Z → input → Prop :=
  | uncut_rest i : uncut [] (mjoin i) i
  | uncut_next ps rest i : uncut ps rest i → uncut ps rest ([] :: i)
  | uncut_text p ps rest bs i : uncut ps rest (bs :: i) → uncut (p :: ps) rest ((p ++ bs) :: i).
#[export] Hint Constructors uncut : fragments.

Lemma uncut_join ps rest i : uncut ps rest i → mjoin i = mjoin ps ++ rest.
Proof.
  induction 1 as [i|ps rest i _ IH|p ps rest bs i _ IH]; [done|done|].
  cbn in *. by rewrite <- (assoc_L (++)), IH, (assoc_L (++)).
Qed.
Lemma uncut_app ps qs rest i : uncut (ps ++ qs) rest i → uncut ps (mjoin qs ++ rest) i.
Proof.
  remember (ps ++ qs) as l eqn:El. intros Hu. revert ps El.
  induction Hu as [i|l rest i Hu IH|p l rest bs i Hu IH]; intros ps El.
  - apply eq_sym, app_eq_nil in El as [-> ->]. constructor.
  - constructor. by apply IH.
  - destruct ps as [|q ps]; cbn in El; simplify_eq; [|constructor; by apply IH].
    pose proof (uncut_join _ _ _ (uncut_text p _ _ _ _ Hu)) as E. rewrite <- E. constructor.
Qed.
(** texts that are a fragment, or the beginning of the last one *)
Lemma uncut_fragment ps qs rest i : uncut qs rest i → uncut (ps ++ qs) rest (mjoin ps :: i).
Proof. induction ps as [|p ps IH]; [by constructor|]. intros Hu. by apply (uncut_text p), IH. Qed.
Lemma uncut_whole ps rest : uncut ps rest [mjoin ps ++ rest].
Proof.
  induction ps as [|p ps IH].
  - rewrite <- (app_nil_r rest) at 1. apply (uncut_rest [rest]).
  - change (mjoin (p :: ps)) with (p ++ mjoin ps). rewrite <- (assoc_L (++)). by constructor.
Qed.

(** what is left to read, for the fuel *)
Definition size (i : input) : nat := length i + length (mjoin i).
Lemma scan_fuel_enough i : (S (S (size i)) <= scan_fuel i)%nat.
Proof. done. Qed.
Lemma scan_fuel_size i : (size i <= scan_fuel i)%nat.
Proof. pose proof (scan_fuel_enough i). lia. Qed.
Lemma size_next i : size ([] :: i) = S (size i).
Proof. done. Qed.
Lemma size_text p bs i : size ((p ++ bs) :: i) = (length p + size (bs :: i))%nat.
Proof. unfold size. cbn. rewrite !length_app. lia. Qed.

Section Texts.
Context {St T : Type} (rule : St → list Z → input → option (outcome (scanned St T)))
  (ends : St → bool) (begins : St → St) (stuck : St → list Z → input → outcome (scanned St T)).
Notation scan := (scan rule ends begins stuck).
Implicit Types (s : St).
(** a state that can go on with the next buffer as it is *)
Definition goes_on s : Prop := ends s = false ∧ begins s = s.

(** buffers that are empty are skipped *)
Lemma scan_next s p ps rest i :
  uncut (p :: ps) rest i → p ≠ [] → goes_on s →
  ∃ f j k, uncut ps rest (f :: j) ∧ size i = (k + size ((p ++ f) :: j))%nat ∧
    ∀ fuel, scan (k + fuel) s i = scan fuel s ((p ++ f) :: j).
Proof.
  remember (p :: ps) as l eqn:El. intros Hu. revert p ps El.
  induction Hu as [i|l rest i Hu IH|q l rest bs i Hu IH]; intros p ps El Hp Hs; simplify_eq.
  - destruct (IH p ps eq_refl Hp Hs) as (f & j & k & Hf & Hk & Hl).
    exists f, j, (S k). split_and!; [done|rewrite size_next; lia|].
    intros fuel. cbn [Nat.add Fragments.scan]. destruct Hs as [-> ->].
    destruct i as [|b i]; [|apply Hl]. inversion Hu.
  - exists bs, i, O. by split_and!.
Qed.
Lemma scan_step s bs i fuel m :
  bs ≠ [] → rule s bs i = Some (Ok m) →
  scan (S fuel) s (bs :: i) =
    match m with Matched s' i' => scan fuel s' i' | other => Ok other end.
Proof. destruct bs as [|x bs]; [done|]. intros _ Hm. cbn [Fragments.scan]. by rewrite Hm. Qed.

(** inside a buffer: a text that is taken, and one that yields a token *)
Lemma scan_take s p q i s' fuel :
  p ≠ [] → (size ((p ++ q) :: i) <= fuel)%nat → rule s (p ++ q) i = Some (Ok (Matched s' (q :: i))) →
  ∃ fuel', scan fuel s ((p ++ q) :: i) = scan fuel' s' (q :: i) ∧ (size (q :: i) <= fuel')%nat.
Proof.
  intros Hp Hf Hr. rewrite size_text in Hf. destruct p as [|x p]; [done|]. cbn [length] in Hf.
  exists (fuel - 1)%nat. split; [|lia]. replace fuel with (S (fuel - 1)) at 1 by lia.
  by erewrite scan_step; [|done|exact Hr].
Qed.
Lemma scan_give s p q i t s' i' fuel :
  p ≠ [] → (size ((p ++ q) :: i) <= fuel)%nat → rule s (p ++ q) i = Some (Ok (Token t s' i')) →
  scan fuel s ((p ++ q) :: i) = Ok (Token t s' i').
Proof.
  intros Hp Hf Hr. rewrite size_text in Hf. destruct p as [|x p]; [done|]. cbn [length] in Hf.
  replace fuel with (S (fuel - 1)) at 1 by lia. by erewrite scan_step; [|done|exact Hr].
Qed.
(** the buffer in which the next text is *)
Lemma scan_buffer s p ps rest i fuel :
  uncut (p :: ps) rest i → p ≠ [] → goes_on s → (size i <= fuel)%nat →
  ∃ f j fuel', scan fuel s i = scan fuel' s ((p ++ f) :: j) ∧ uncut ps rest (f :: j) ∧
    (size ((p ++ f) :: j) <= fuel')%nat.
Proof.
  intros Hu Hp Hs Hf. destruct (scan_next s p ps rest i Hu Hp Hs) as (f & j & k & Hj & Hk & Hl).
  exists f, j, (fuel - k)%nat. split_and!; [|done|lia]. rewrite <- Hl. f_equal. lia.
Qed.

(** when nothing is left, it waits *)
Lemma scan_nothing s i fuel :
  mjoin i = [] → (∀ s, ends s = false) → scan fuel s i = Ok Waits.
Proof.
  intros Hi He. revert s i Hi. induction fuel as [|fuel IH]; intros s i Hi; [done|].
  destruct i as [|[|x bs] i]; cbn [Fragments.scan]; rewrite ?He; [done| |done].
  destruct i as [|b i]; [done|]. by apply IH.
Qed.
(** the same, for a scanner that begins anew with every buffer *)
Lemma scan_buffer_begins k s p ps rest i fuel :
  uncut (p :: ps) rest i → p ≠ [] → (∀ s, ends s = false) → (∀ s, begins (begins s) = begins s) →
  (size i + k <= fuel)%nat →
  ∃ f j fuel' s', (s' = s ∨ s' = begins s) ∧ scan fuel s i = scan fuel' s' ((p ++ f) :: j) ∧
    uncut ps rest (f :: j) ∧ (size ((p ++ f) :: j) + k <= fuel')%nat.
Proof.
  intros Hu Hp He Hb. remember (p :: ps) as l eqn:El. revert s fuel El.
  induction Hu as [i|l rest i Hu IH|q l rest bs i Hu _]; intros s fuel El Hf; simplify_eq.
  - rewrite size_next in Hf. destruct fuel as [|fuel]; [lia|]. cbn [Fragments.scan]. rewrite He.
    destruct i as [|b i]; [by inversion Hu|].
    destruct (IH (begins s) fuel eq_refl ltac:(lia)) as (f & j & fuel' & s' & Hs' & E & Hj & Hf').
    exists f, j, fuel', s'. split_and!; [|done..]. right. destruct Hs' as [-> | ->]; [done|apply Hb].
  - exists bs, i, fuel, s. split_and!; [by left|done..].
Qed.

(** a text that yields a token, in front of what is left of its line *)
Lemma scan_token s p q ps rest i t s' fuel :
  uncut ((p ++ q) :: ps) rest i → p ≠ [] → goes_on s → (size i <= fuel)%nat →
  (∀ f j, rule s (p ++ q ++ f) j = Some (Ok (Token t s' ((q ++ f) :: j)))) →
  ∃ f j, scan fuel s i = Ok (Token t s' ((q ++ f) :: j)) ∧ uncut ps rest (f :: j).
Proof.
  intros Hu Hp Hs Hf Hr.
  destruct (scan_next s _ _ _ _ Hu) as (f & j & k & Hj & Hk & Hl); [by destruct p|done|].
  exists f, j. split; [|done]. rewrite size_text in Hk.
  destruct fuel as [|fuel]; [destruct p; [done|cbn [length app] in Hk; lia]|].
  replace (S fuel) with (k + S (fuel - k))%nat
    by (rewrite length_app in Hk; destruct p; [done|cbn [length app] in Hk; lia]).
  rewrite Hl, <- (assoc_L (++)). by erewrite scan_step; [|by destruct p|apply Hr].
Qed.
(** a text that is looked at first *)
Lemma scan_look s p q ps rest i t s1 s' fuel :
  uncut ((p ++ q) :: ps) rest i → p ≠ [] → goes_on s → (S (size i) <= fuel)%nat →
  (∀ f j, rule s (p ++ q ++ f) j = Some (Ok (Matched s1 ((p ++ q ++ f) :: j)))) →
  (∀ f j, rule s1 (p ++ q ++ f) j = Some (Ok (Token t s' ((q ++ f) :: j)))) →
  ∃ f j, scan fuel s i = Ok (Token t s' ((q ++ f) :: j)) ∧ uncut ps rest (f :: j).
Proof.
  intros Hu Hp Hs Hf Hr1 Hr2.
  destruct (scan_next s _ _ _ _ Hu) as (f & j & k & Hj & Hk & Hl); [by destruct p|done|].
  exists f, j. split; [|done]. rewrite size_text in Hk.
  replace fuel with (k + S (S (fuel - k - 2)))%nat
    by (rewrite length_app in Hk; destruct p; [done|cbn [length app] in Hk; lia]).
  rewrite Hl, <- (assoc_L (++)). erewrite scan_step; [|by destruct p|apply Hr1].
  cbv iota beta. by erewrite scan_step; [|by destruct p|apply Hr2].
Qed.
(** a text that is looked at, and taken *)
Lemma scan_look_taken s p ps rest i s1 s2 fuel :
  uncut (p :: ps) rest i → p ≠ [] → goes_on s → (S (size i) <= fuel)%nat →
  (∀ f j, rule s (p ++ f) j = Some (Ok (Matched s1 ((p ++ f) :: j)))) →
  (∀ f j, rule s1 (p ++ f) j = Some (Ok (Matched s2 (f :: j)))) →
  ∃ i' fuel', scan fuel s i = scan fuel' s2 i' ∧ uncut ps rest i' ∧ (size i' <= fuel')%nat.
Proof.
  intros Hu Hp Hs Hf Hr1 Hr2.
  destruct (scan_next s _ _ _ _ Hu Hp Hs) as (f & j & k & Hj & Hk & Hl).
  rewrite size_text in Hk. exists (f :: j), (fuel - k - 2)%nat.
  split_and!; [|done|destruct p; [done|cbn [length app] in Hk; lia]].
  replace fuel with (k + S (S (fuel - k - 2)))%nat at 1 by (destruct p; [done|cbn [length app] in Hk; lia]).
  rewrite Hl. erewrite scan_step; [|by destruct p|apply Hr1]. cbv iota beta.
  by erewrite scan_step; [|by destruct p|apply Hr2].
Qed.
(** a text that is taken, in front of what is left of its line *)
Lemma scan_taken s p q ps rest i s1 fuel :
  uncut ((p ++ q) :: ps) rest i → p ≠ [] → goes_on s → (size i <= fuel)%nat →
  (∀ f j, rule s (p ++ q ++ f) j = Some (Ok (Matched s1 ((q ++ f) :: j)))) →
  ∃ f j fuel', scan fuel s i = scan fuel' s1 ((q ++ f) :: j) ∧ uncut ps rest (f :: j) ∧
    (size ((q ++ f) :: j) <= fuel')%nat.
Proof.
  intros Hu Hp Hs Hf Hr.
  destruct (scan_next s _ _ _ _ Hu) as (f & j & k & Hj & Hk & Hl); [by destruct p|done|].
  rewrite <- (assoc_L (++)), size_text in Hk. exists f, j, (fuel - k - 1)%nat.
  split_and!; [|done|destruct p; [done|cbn [length app] in Hk; lia]].
  replace fuel with (k + S (fuel - k - 1))%nat at 1 by (destruct p; [done|cbn [length app] in Hk; lia]).
  rewrite Hl, <- (assoc_L (++)). by erewrite scan_step; [|by destruct p|apply Hr].
Qed.
(** a text that is a buffer, or in front of the next one *)
Lemma scan_piece s p ps rest i s1 fuel :
  uncut (p :: ps) rest i → p ≠ [] → goes_on s → (size i <= fuel)%nat →
  (∀ f j, uncut ps rest (f :: j) → rule s (p ++ f) j = Some (Ok (Matched s1 (f :: j)))) →
  ∃ i' fuel', scan fuel s i = scan fuel' s1 i' ∧ uncut ps rest i' ∧ (size i' <= fuel')%nat.
Proof.
  intros Hu Hp Hs Hf Hr. destruct (scan_buffer s p ps rest i fuel Hu Hp Hs Hf) as (f & j & n & -> & Hj & Hn).
  destruct (scan_take s p f j s1 n Hp Hn (Hr f j Hj)) as (n' & -> & Hn'). by exists (f :: j), n'.
Qed.
Lemma scan_piece_token s p ps rest i t s1 fuel :
  uncut (p :: ps) rest i → p ≠ [] → goes_on s → (size i <= fuel)%nat →
  (∀ f j, uncut ps rest (f :: j) → rule s (p ++ f) j = Some (Ok (Token t s1 (f :: j)))) →
  ∃ i', scan fuel s i = Ok (Token t s1 i') ∧ uncut ps rest i'.
Proof.
  intros Hu Hp Hs Hf Hr. destruct (scan_buffer s p ps rest i fuel Hu Hp Hs Hf) as (f & j & n & -> & Hj & Hn).
  exists (f :: j). split; [|done]. by apply scan_give, Hr.
Qed.
End Texts.
(** what is behind a text in its buffer *)
Lemma uncut_head p ps rest f j : uncut (p :: ps) rest (f :: j) → f = [] ∨ ∃ f', f = p ++ f'.
Proof. inversion 1; subst; [by left|right; by eexists]. Qed.
