(* ===== verification/Replies.v ===== *)
(** * Lines of replies

    What the scanners of the replies to the POP, SMTP and FTP clients have in common: line breaks,
    the characters of a line, and codes of three digits. *)
From S2P Require Import Prelude Chars Decimal Lex.

Definition CRLF : re := lits [13; 10].
Definition DIGIT : re := Cls (λ z, (48 <=? z) && (z <=? 57)).
Definition OCTET : re := Cls (λ _, true).
Definition no_cr (z : Z) : bool := negb (z =? 13).
Definition OCTET_NO_CR : re := Cls no_cr.

(** the characters of a line *)
Definition line_char (c : ascii) : bool := negb (Ascii.eqb c "013" || Ascii.eqb c "000").
Definition line_ok : string → bool := string_all line_char.
Lemma line_octets l :
  line_ok l = true → Forall (λ z, no_cr z = true) (string_bytes l) ∧ c_string (string_bytes l) = string_bytes l.
Proof.
  intros Hl. assert (Forall (λ z, no_cr z = true ∧ z ≠ 0) (string_bytes l)) as Hf.
  { apply (string_all_bytes line_char); [|done]. intros c Hc.
    pose proof (char_mono line_char (λ c, no_cr (code c) && negb (code c =? 0)) ltac:(by vm_compute) c Hc) as H.
    rewrite !andb_true_iff, negb_true_iff, Z.eqb_neq in H. done. }
  split; [|apply c_string_text]; eapply Forall_impl; [exact Hf| |exact Hf|]; naive_solver.
Qed.
Lemma octet_longest x u : longest OCTET (x :: u) = Some 1%nat.
Proof. by apply class_picked. Qed.

(** a line behind its beginning, and its end *)
Lemma line_end_picked {A} (a b : A) f : pick [(CRLF, a); (Cat (Many OCTET_NO_CR) CRLF, b)] ([13; 10] ++ f) = Some (2%nat, a).
Proof.
  unfold CRLF. cbn [pick]. rewrite (longest_residual (lits [13; 10])) by done.
  change ([13; 10] ++ f) with ([] ++ [13; 10] ++ f).
  by rewrite (longest_ends 13 13) by (done || apply not_elem_of_nil).
Qed.
Lemma line_picked {A} (a b : A) p f :
  p ≠ [] → Forall (λ z, no_cr z = true) p →
  pick [(CRLF, a); (Cat (Many OCTET_NO_CR) CRLF, b)] (p ++ [13; 10] ++ f) = Some ((length p + 2)%nat, b).
Proof.
  intros Hne Hp. unfold CRLF. cbn [pick].
  assert (13 ∉ p) as H13 by (intros Hin; by apply (proj1 (Forall_forall _ _) Hp) in Hin).
  rewrite (longest_ends 13 13) by done.
  rewrite (proj2 (matches_spec _ _) (proj2 (lang_many_cls no_cr p) Hp) : matches (Many OCTET_NO_CR) p = true), length_app.
  destruct p as [|x p]; [done|]. cbn [app]. apply Forall_cons_1 in Hp as [Hx _].
  rewrite lits_none; [done|]. intros ->. done.
Qed.

(** ** Texts without line breaks *)
Definition no_crlf (z : Z) : bool := negb ((z =? 13) || (z =? 10)).
Definition OCTET_NO_CRLF : re := Cls no_crlf.
(** the characters of a text: no line breaks, and no NUL *)
Definition text_char (c : ascii) : bool := line_char c && negb (Ascii.eqb c "010").
Definition plain_text : string → bool := string_all text_char.

Lemma text_octets l :
  plain_text l = true → Forall (λ z, no_crlf z = true) (string_bytes l) ∧ c_string (string_bytes l) = string_bytes l.
Proof.
  intros Hl. split.
  - apply (string_all_bytes text_char); [|done]. intros c.
    apply (char_mono text_char (λ c, no_crlf (code c))). by vm_compute.
  - apply line_octets. eapply (string_all_mono text_char); [by vm_compute|done].
Qed.

Lemma crlf_picked {A} (a b : A) f :
  pick [(CRLF, a); (Many1 OCTET_NO_CRLF, b)] (string_bytes crlf ++ f) = Some (2%nat, a).
Proof.
  cbn [pick]. rewrite (longest_residual CRLF) by done. change (string_bytes crlf ++ f) with (13 :: 10 :: f).
  unfold OCTET_NO_CRLF. by rewrite run_none.
Qed.

Lemma run_picked {A} (a b : A) u f :
  u ≠ [] → Forall (λ z, no_crlf z = true) u → match f with [] => True | y :: _ => no_crlf y = false end →
  pick [(CRLF, a); (Many1 OCTET_NO_CRLF, b)] (u ++ f) = Some (length u, b).
Proof.
  intros Hne Hu Hf. cbn [pick]. rewrite (longest_run no_crlf) by done.
  destruct u as [|x u]; [done|]. apply Forall_cons_1 in Hu as [Hx _]. cbn [app].
  unfold CRLF. rewrite lits_none; [done|]. intros ->. done.
Qed.

(** ** Codes *)
Definition read_code (t : string) : Z := read_unsigned 16 0 t.
Definition code_ok (n : Z) : bool :=
  implb (100 <=? n)
    (match residual (times 3 DIGIT) (string_bytes (pretty n)) with Eps => true | _ => false end &&
     bool_decide (c_string (string_bytes (pretty n)) = string_bytes (pretty n)) &&
     (read_code (pretty n) =? n) && match string_bytes (pretty n) with d :: _ => (48 <=? d) && (d <=? 57) | [] => false end).
Lemma code_ok_all : forallb code_ok (seqZ 0 1000) = true.
Proof. by vm_compute. Qed.
Lemma code_digits n :
  100 <= n < 1000 →
  residual (times 3 DIGIT) (string_bytes (pretty n)) = Eps ∧
  c_string (string_bytes (pretty n)) = string_bytes (pretty n) ∧ read_code (pretty n) = n ∧
  ∃ d l, string_bytes (pretty n) = d :: l ∧ ((48 <=? d) && (d <=? 57)) = true.
Proof.
  intros Hn. pose proof (seqZ_forall _ _ code_ok_all n ltac:(lia)) as H. unfold code_ok in H.
  rewrite (proj2 (Z.leb_le _ _)) in H by lia. cbn [implb] in H.
  apply andb_true_iff in H as [[[H1 H2%bool_decide_eq_true]%andb_true_iff H3%Z.eqb_eq]%andb_true_iff H4].
  split_and!; [by destruct (residual _ _)|done|done|].
  destruct (string_bytes (pretty n)) as [|d l]; [done|]. by exists d, l.
Qed.
