(* ===== verification/Regex.v ===== *)
(** * std::regex_match

    The part of the regular expressions of the standard library (ECMAScript) that the
    code uses: classes of characters, sequences, alternatives, greedy repetitions and
    groups.  The matcher backtracks as ECMAScript specifies it; a match yields the text
    of the groups.  [std::regex_match] matches all of the string, so that the anchors at
    both ends of the expressions of the code are implied. *)
From S2P Require Import Prelude Chars Decimal.

Inductive regex :=
  | Empty
  | Class (f : ascii → bool)
  | Seq (r1 r2 : regex)
  | Alt (r1 r2 : regex)
  | Repeat (r : regex) (lo : nat) (hi : option nat)
  | Group (i : nat) (r : regex).

(** the classes, a character, and the shorthands [r?], [r+] and [r*] *)
Definition digit : regex := Class isdigit.
Definition Lit (c : ascii) : regex := Class (Ascii.eqb c).
Definition Optional (r : regex) : regex := Repeat r 0 (Some 1%nat).
Definition Plus (r : regex) : regex := Repeat r 1 None.
Definition Star (r : regex) : regex := Repeat r 0 None.
(** the dot: any character but the line terminators *)
Definition any : regex := Class (λ c, negb (Ascii.eqb c newline || Ascii.eqb c "013")).
Fixpoint Seqs (rs : list regex) : regex :=
  match rs with
  | [] => Empty
  | [r] => r
  | r :: rs' => Seq r (Seqs rs')
  end.
Fixpoint Lits (s : string) : regex :=
  match s with "" => Empty | String c s' => Seq (Lit c) (Lits s') end.

(** The groups that have matched, the last first. *)
Definition captures : Type := list (nat * string).

(** the text of a group, if it has [matched] *)
Fixpoint group (i : nat) (c : captures) : option string :=
  match c with
  | [] => None
  | (j, t) :: c' => if Nat.eqb i j then Some t else group i c'
  end.

(** the text in front of the rest [s'] of [s] *)
Definition consumed (s s' : string) : string :=
  String.substring 0 (String.length s - String.length s') s.

Definition continuation : Type := string → captures → option captures.
Definition matcher : Type := string → captures → continuation → option captures.

(** A greedy repetition of at least [lo] and at most [n] times; an iteration beyond the
    least number that takes nothing fails. *)
Fixpoint loop (m : matcher) (k : continuation) (lo n : nat) (s : string) (c : captures) :
    option captures :=
  match lo, n with
  | S lo', S n' => m s c (loop m k lo' n')
  | S _, O => None
  | O, O => k s c
  | O, S n' =>
      match m s c (λ s' c', if (String.length s' <? String.length s)%nat
                            then loop m k 0 n' s' c' else None) with
      | Some x => Some x
      | None => k s c
      end
  end.

(** without an upper bound, [lo] times and once for every character *)
Definition repetitions (lo : nat) (hi : option nat) (s : string) : nat :=
  match hi with Some n => n | None => (lo + String.length s)%nat end.

Fixpoint match_regex (r : regex) : matcher := λ s c k,
  match r with
  | Empty => k s c
  | Class f =>
      match s with
      | String x s' => if f x then k s' c else None
      | "" => None
      end
  | Seq r1 r2 => match_regex r1 s c (λ s' c', match_regex r2 s' c' k)
  | Alt r1 r2 =>
      match match_regex r1 s c k with Some x => Some x | None => match_regex r2 s c k end
  | Repeat r lo hi => loop (match_regex r) k lo (repetitions lo hi s) s c
  | Group i r => match_regex r s c (λ s' c', k s' ((i, consumed s s') :: c'))
  end.

Definition regex_match (s : string) (r : regex) : option captures :=
  match_regex r s [] (λ s' c', match s' with "" => Some c' | _ => None end).

(** ** What an expression means

    [derives r s c s' c']: [r] can match a prefix of [s] and leave [s'], with the groups
    [c'] after [c]. *)
Fixpoint iterate (P : string → captures → string → captures → Prop) (n : nat)
    (s : string) (c : captures) (s' : string) (c' : captures) : Prop :=
  match n with
  | O => s' = s ∧ c' = c
  | S n' => ∃ s1 c1, P s c s1 c1 ∧ iterate P n' s1 c1 s' c'
  end.

Fixpoint derives (r : regex) (s : string) (c : captures) (s' : string) (c' : captures) :
    Prop :=
  match r with
  | Empty => s' = s ∧ c' = c
  | Class f => ∃ x, s = String x s' ∧ f x = true ∧ c' = c
  | Seq r1 r2 => ∃ s1 c1, derives r1 s c s1 c1 ∧ derives r2 s1 c1 s' c'
  | Alt r1 r2 => derives r1 s c s' c' ∨ derives r2 s c s' c'
  | Repeat r lo hi =>
      ∃ n, (lo <= n)%nat ∧ (∀ m, hi = Some m → (n <= m)%nat) ∧ iterate (derives r) n s c s' c'
  | Group i r => ∃ t c1, derives r s c s' c1 ∧ s = t +:+ s' ∧ c' = (i, t) :: c1
  end.

(** ** The matcher finds what the expression means *)

Lemma substring_app t s : String.substring 0 (String.length t) (t +:+ s) = t.
Proof.
  induction t as [|x t IH]; [by destruct s|].
  autorewrite with str. cbn [String.length String.substring]. by rewrite IH.
Qed.

Lemma consumed_app t s : consumed (t +:+ s) s = t.
Proof.
  unfold consumed. rewrite string_length_app, Nat.add_sub. apply substring_app.
Qed.

(** What is left is a suffix. *)
Definition suffix (s' s : string) : Prop := ∃ t, s = t +:+ s'.

Lemma suffix_refl s : suffix s s.
Proof. by exists "". Qed.
Lemma suffix_trans s1 s2 s3 : suffix s1 s2 → suffix s2 s3 → suffix s1 s3.
Proof. intros [t ->] [u ->]. exists (u +:+ t). by rewrite string_app_assoc. Qed.
Lemma suffix_length s' s : suffix s' s → (String.length s' <= String.length s)%nat.
Proof. intros [t ->]. rewrite string_length_app. lia. Qed.

Lemma derives_suffix r : ∀ s c s' c', derives r s c s' c' → suffix s' s.
Proof.
  induction r as [|f|r1 IH1 r2 IH2|r1 IH1 r2 IH2|r IH lo hi|i r IH]; cbn; intros s c s' c'.
  - intros [-> _]. apply suffix_refl.
  - intros (x & -> & _). by exists (String x "").
  - intros (s1 & c1 & H1 & H2). eapply suffix_trans; eauto.
  - intros [?|?]; eauto.
  - intros (n & _ & _ & Hn). revert s c Hn. induction n as [|n IHn]; cbn; intros s c.
    + intros [-> _]. apply suffix_refl.
    + intros (s1 & c1 & H1 & H2). eapply suffix_trans; eauto.
  - intros (t & c1 & Hr & -> & _). by exists t.
Qed.

Section Loop.
Context (m : matcher) (P : string → captures → string → captures → Prop).
Context (P_suffix : ∀ s c s' c', P s c s' c' → suffix s' s).

Lemma loop_sound k x (m_sound : ∀ s c k x, m s c k = Some x →
    ∃ s' c', P s c s' c' ∧ k s' c' = Some x) n : ∀ lo s c,
  loop m k lo n s c = Some x →
  ∃ j s' c', (lo <= j <= n)%nat ∧ iterate P j s c s' c' ∧ k s' c' = Some x.
Proof.
  induction n as [|n IH]; intros [|lo] s c; cbn [loop]; intros Hl.
  - by exists 0%nat, s, c.
  - done.
  - destruct (m s c _) as [y|] eqn:E.
    + injection Hl as ->. destruct (m_sound _ _ _ _ E) as (s1 & c1 & H1 & Hk).
      destruct (Nat.ltb _ _); [|done].
      destruct (IH _ _ _ Hk) as (j & s' & c' & Hj & Hi & Hx).
      exists (S j), s', c'. split_and!; [lia|lia| |done]. by exists s1, c1.
    + exists 0%nat, s, c. split_and!; [lia|lia|done..].
  - destruct (m_sound _ _ _ _ Hl) as (s1 & c1 & H1 & Hk).
    destruct (IH _ _ _ Hk) as (j & s' & c' & Hj & Hi & Hx).
    exists (S j), s', c'. split_and!; [lia|lia| |done]. by exists s1, c1.
Qed.

(** The iterations beyond the least number that take nothing can be left out. *)
Lemma loop_complete k s' (m_complete : ∀ s c s1 c1 k, P s c s1 c1 →
    (∀ c, is_Some (k s1 c)) → ∀ c, is_Some (m s c k))
    (Hk : ∀ c, is_Some (k s' c)) j : ∀ lo n s c0 c',
  (lo <= j)%nat → (j <= n ∨ lo + String.length s <= n)%nat →
  iterate P j s c0 s' c' → ∀ c, is_Some (loop m k lo n s c).
Proof.
  induction j as [|j IH]; intros lo n s c0 c' Hlo Hn Hi c.
  - destruct Hi as [-> _]. assert (lo = 0%nat) as -> by lia. destruct n as [|n]; cbn [loop]; [apply Hk|].
    destruct (m s c _); [done|apply Hk].
  - destruct Hi as (s1 & c1 & H1 & Hi).
    pose proof (suffix_length _ _ (P_suffix _ _ _ _ H1)) as Hlen.
    destruct lo as [|lo].
    + destruct (decide (String.length s1 < String.length s)%nat) as [Hlt|Hge].
      * destruct n as [|n]; [lia|]. cbn [loop].
        assert (Hm : is_Some (m s c (λ s' c', if (String.length s' <? String.length s)%nat
                            then loop m k 0 n s' c' else None))).
        { eapply m_complete; [exact H1|]. intros c2.
          rewrite (proj2 (Nat.ltb_lt _ _)) by done. apply (IH 0%nat n s1 c1 c'); [lia|lia|done]. }
        destruct (m s c _); [done|]. by destruct Hm.
      * destruct (P_suffix _ _ _ _ H1) as [t ->]. rewrite string_length_app in Hge.
        destruct t; [|cbn in Hge; lia]. change ("" +:+ s1) with s1 in *.
        apply (IH 0%nat n s1 c1 c'); [lia| |done].
        destruct Hn; [left; lia|right; lia].
    + destruct n as [|n]; [lia|]. cbn [loop]. eapply m_complete; [exact H1|].
      intros c2. apply (IH lo n s1 c1 c'); [lia| |done]. lia.
Qed.
End Loop.

Lemma match_sound r : ∀ s c k x,
  match_regex r s c k = Some x → ∃ s' c', derives r s c s' c' ∧ k s' c' = Some x.
Proof.
  induction r as [|f|r1 IH1 r2 IH2|r1 IH1 r2 IH2|r IH lo hi|i r IH]; cbn; intros s c k x Hm.
  - by exists s, c.
  - destruct s as [|y s]; [done|]. destruct (f y) eqn:Hf; [|done].
    exists s, c. split; [|done]. by exists y.
  - destruct (IH1 _ _ _ _ Hm) as (s1 & c1 & H1 & Hk).
    destruct (IH2 _ _ _ _ Hk) as (s' & c' & H2 & Hx). exists s', c'. split; [|done].
    by exists s1, c1.
  - destruct (match_regex r1 s c k) as [y|] eqn:E1.
    + injection Hm as ->. destruct (IH1 _ _ _ _ E1) as (s' & c' & H1 & Hk).
      exists s', c'. split; [by left|done].
    + destruct (IH2 _ _ _ _ Hm) as (s' & c' & H1 & Hk). exists s', c'. split; [by right|done].
  - destruct (loop_sound _ (derives r) _ _ IH _ _ _ _ Hm) as (j & s' & c' & Hj & Hi & Hk).
    exists s', c'. split; [|done]. exists j. split_and!; [lia| |done].
    intros n ->. cbn in Hj. lia.
  - destruct (IH _ _ _ _ Hm) as (s' & c1 & H1 & Hk). exists s', ((i, consumed s s') :: c1).
    split; [|done]. destruct (derives_suffix _ _ _ _ _ H1) as [t ->].
    exists t, c1. by rewrite consumed_app.
Qed.

Lemma match_complete r : ∀ s c0 s' c' k,
  derives r s c0 s' c' → (∀ c, is_Some (k s' c)) → ∀ c, is_Some (match_regex r s c k).
Proof.
  induction r as [|f|r1 IH1 r2 IH2|r1 IH1 r2 IH2|r IH lo hi|i r IH]; cbn;
    intros s c0 s' c' k Hd Hk c.
  - destruct Hd as [-> _]. apply Hk.
  - destruct Hd as (x & -> & -> & _). apply Hk.
  - destruct Hd as (s1 & c1 & H1 & H2). eapply IH1; [exact H1|]. intros c2. eauto.
  - destruct (match_regex r1 s c k) as [y|] eqn:E1; [done|].
    destruct Hd as [H1|H2]; [|eauto].
    destruct (IH1 _ _ _ _ k H1 Hk c) as [z Hz]. congruence.
  - destruct Hd as (n & Hlo & Hhi & Hi).
    eapply (loop_complete _ (derives r)); [apply derives_suffix|exact IH|exact Hk|exact Hlo| |exact Hi].
    destruct hi as [h|]; cbn; [left; by apply Hhi|right; lia].
  - destruct Hd as (t & c1 & Hd & -> & _). eapply IH; [exact Hd|]. intros c2. apply Hk.
Qed.

(** A string is matched exactly when the expression means it. *)
Lemma regex_match_iff r s :
  is_Some (regex_match s r) ↔ ∃ c, derives r s [] "" c.
Proof.
  unfold regex_match. split.
  - intros [x Hx]. destruct (match_sound _ _ _ _ _ Hx) as (s' & c' & Hd & Hk).
    destruct s'; [|done]. eauto.
  - intros [c Hd]. eapply match_complete; [exact Hd|]. done.
Qed.

Lemma regex_match_derives r s c : regex_match s r = Some c → derives r s [] "" c.
Proof.
  intros Hm. destruct (match_sound _ _ _ _ _ Hm) as (s' & c' & Hd & Hk).
  destruct s'; [|done]. by injection Hk as ->.
Qed.

(** ** Greedy runs *)

(** The next character is not of the class. *)
Definition stops (f : ascii → bool) (s : string) : bool :=
  match s with "" => true | String x _ => negb (f x) end.

(** A repetition of a class takes the longest run, if what follows can be matched. *)
Lemma loop_class f k t : ∀ lo n u c x,
  string_all f t = true → (lo <= String.length t <= n)%nat →
  stops f u = true ∨ String.length t = n →
  k u c = Some x → loop (match_regex (Class f)) k lo n (t +:+ u) c = Some x.
Proof.
  induction t as [|y t IH]; intros lo n u c x Ht Hl Hu Hk.
  - autorewrite with str. cbn in Hl. assert (lo = 0%nat) as -> by lia.
    destruct n as [|n]; cbn [loop match_regex]; [done|].
    destruct Hu as [Hu|Hu]; [|done]. destruct u as [|z u]; [done|]. cbn in Hu.
    by rewrite (proj1 (negb_true_iff _) Hu).
  - cbn [string_all] in Ht. apply andb_true_iff in Ht as [Hy Ht]. cbn [String.length] in Hl.
    destruct n as [|n]; [lia|]. autorewrite with str.
    assert (Hr : ∀ lo', (lo' <= String.length t)%nat →
      loop (match_regex (Class f)) k lo' n (t +:+ u) c = Some x).
    { intros lo' Hlo'. apply IH; [done|lia| |done]. destruct Hu as [Hu|Hu]; [by left|right].
      cbn in Hu. lia. }
    destruct lo as [|lo]; cbn [loop match_regex]; rewrite Hy.
    + rewrite (proj2 (Nat.ltb_lt _ _)) by (cbn; lia). by rewrite Hr by lia.
    + apply Hr. lia.
Qed.

Lemma match_run f lo hi t u c k x :
  string_all f t = true → (lo <= String.length t)%nat →
  (∀ n, hi = Some n → (String.length t <= n)%nat) → stops f u = true →
  k u c = Some x → match_regex (Repeat (Class f) lo hi) (t +:+ u) c k = Some x.
Proof.
  intros Ht Hlo Hhi Hu Hk. cbn [match_regex]. apply loop_class; [done| |by left|done].
  split; [done|]. destruct hi as [n|]; cbn; [by apply Hhi|]. rewrite string_length_app. lia.
Qed.

Lemma match_group_run i f lo hi t u c k x :
  string_all f t = true → (lo <= String.length t)%nat →
  (∀ n, hi = Some n → (String.length t <= n)%nat) → stops f u = true →
  k u ((i, t) :: c) = Some x →
  match_regex (Group i (Repeat (Class f) lo hi)) (t +:+ u) c k = Some x.
Proof.
  intros Ht Hlo Hhi Hu Hk. change (match_regex (Group i ?r) ?s c k) with
    (match_regex r s c (λ s' c', k s' ((i, consumed s s') :: c'))).
  apply match_run; [done..|]. by rewrite consumed_app.
Qed.

Lemma match_seq r1 r2 s c k :
  match_regex (Seq r1 r2) s c k = match_regex r1 s c (λ s' c', match_regex r2 s' c' k).
Proof. done. Qed.

Lemma match_lit y u c k : match_regex (Lit y) (String y u) c k = k u c.
Proof. cbn. by rewrite Ascii.eqb_refl. Qed.

(** A repetition that is optional is tried first. *)
Lemma match_optional r t u c k x :
  match_regex r (t +:+ u) c
    (λ s' c', if (String.length s' <? String.length (t +:+ u))%nat then k s' c' else None)
    = Some x →
  match_regex (Optional r) (t +:+ u) c k = Some x.
Proof. intros Hm. cbn [Optional match_regex repetitions loop]. by rewrite Hm. Qed.

Lemma shorter t (u : string) : t ≠ "" → (String.length u <? String.length (t +:+ u))%nat = true.
Proof.
  intros Ht. apply Nat.ltb_lt. rewrite string_length_app. destruct t; [done|cbn; lia].
Qed.

(** An optional expression that cannot match is left out. *)
Lemma match_optional_none r s c k :
  (∀ k, match_regex r s c k = None) → match_regex (Optional r) s c k = k s c.
Proof. intros Hm. cbn [Optional match_regex repetitions loop]. by rewrite Hm. Qed.

(** What a repetition of a class has taken. *)
Lemma iterate_class f n : ∀ s c s' c',
  iterate (derives (Class f)) n s c s' c' →
  ∃ t, s = t +:+ s' ∧ string_all f t = true ∧ String.length t = n ∧ c' = c.
Proof.
  induction n as [|n IH]; cbn [iterate]; intros s c s' c'.
  - intros [-> ->]. by exists "".
  - intros (s1 & c1 & (x & -> & Hx & ->) & Hi).
    destruct (IH _ _ _ _ Hi) as (t & -> & Ht & Hl & ->).
    exists (String x t). cbn [string_all String.length]. by rewrite Hx, Ht, Hl.
Qed.

Lemma derives_run f lo hi s c s' c' :
  derives (Repeat (Class f) lo hi) s c s' c' →
  ∃ t, s = t +:+ s' ∧ string_all f t = true ∧ (lo <= String.length t)%nat ∧
       (∀ n, hi = Some n → (String.length t <= n)%nat) ∧ c' = c.
Proof.
  intros (n & Hlo & Hhi & Hi). destruct (iterate_class _ _ _ _ _ _ Hi) as (t & -> & Ht & <- & ->).
  by exists t.
Qed.

Lemma derives_optional r s c s' c' :
  derives (Optional r) s c s' c' → (s' = s ∧ c' = c) ∨ derives r s c s' c'.
Proof.
  intros (n & _ & Hn & Hi). specialize (Hn 1%nat eq_refl).
  destruct n as [|[|n]]; [left; done| |lia].
  destruct Hi as (s1 & c1 & Hr & -> & ->). by right.
Qed.
