(* ===== verification/InetAddr.v ===== *)
(** * The interface of ACE_INET_Addr

    Addresses and ports.  ACE is not part of the repository: this class states what the
    code relies on, for IPv4 addresses; their text is the four bytes in decimal, with
    dots between them, and the port after a colon. *)
From S2P Require Import Prelude Chars Decimal Regex.

Definition dotted (a b c d : Z) : string :=
  pretty a +:+ "." +:+ pretty b +:+ "." +:+ pretty c +:+ "." +:+ pretty d.

Definition octets (a b c d : Z) : Prop :=
  0 <= a < 256 ∧ 0 <= b < 256 ∧ 0 <= c < 256 ∧ 0 <= d < 256.

Class InetAddr (A : Type) : Type := {
  (** an IPv4 address, byte by byte, and a port *)
  inet4 : Z → Z → Z → Z → Z → A;
  (** [ACE_INET_Addr (port, address)], the address in the byte order of the host *)
  inet_of_ip : Z → Z → A;
  (** the default constructor *)
  inet_any : A;
  (** [get_type () == AF_INET6] *)
  is_inet6 : A → bool;
  get_port_number : A → Z;
  (** [get_ip_address ()], in the byte order of the host *)
  get_ip_address : A → Z;
  get_host_addr : A → option string;
  (** [addr_to_string (buffer, size, numeric)] and [string_to_addr (s, family)] *)
  addr_to_string : A → bool → option string;
  string_to_addr : string → bool → option A;
  is_inet6_inet4 a b c d p : is_inet6 (inet4 a b c d p) = false;
  get_port_number_inet4 a b c d p :
    octets a b c d → 0 <= p < 2 ^ 16 → get_port_number (inet4 a b c d p) = p;
  get_host_addr_inet4 a b c d p :
    octets a b c d → get_host_addr (inet4 a b c d p) = Some (dotted a b c d);
  addr_to_string_inet4 a b c d p :
    octets a b c d → 0 <= p < 2 ^ 16 →
    addr_to_string (inet4 a b c d p) true = Some (dotted a b c d +:+ ":" +:+ pretty p);
  is_inet6_of_ip p ip : is_inet6 (inet_of_ip p ip) = false;
  get_port_number_of_ip p ip :
    0 <= p < 2 ^ 16 → 0 <= ip < 2 ^ 32 → get_port_number (inet_of_ip p ip) = p;
  get_ip_address_of_ip p ip :
    0 <= p < 2 ^ 16 → 0 <= ip < 2 ^ 32 → get_ip_address (inet_of_ip p ip) = ip;
  get_ip_address_range x : 0 <= get_ip_address x < 2 ^ 32;
  string_to_addr_inet4 a b c d p :
    octets a b c d → 0 <= p < 2 ^ 16 →
    string_to_addr (dotted a b c d +:+ ":" +:+ pretty p) false = Some (inet4 a b c d p)
}.

(** ** Digits in expressions *)
Lemma octet_digits n : 0 <= n < 256 →
  all_digits (pretty n) = true ∧ (1 <= String.length (pretty n) <= 3)%nat ∧
  digits_value 0 (pretty n) = n.
Proof.
  intros Hn. destruct (pretty_digits n) as (Ha & Hv & Hne); [lia|].
  split_and!; [done| | |done].
  - destruct (pretty n); [done|cbn; lia].
  - apply pretty_length; [lia|]. change (10 ^ Z.of_nat 3) with 1000. lia.
Qed.

Lemma port_digits n : 0 <= n < 2 ^ 16 →
  all_digits (pretty n) = true ∧ (1 <= String.length (pretty n) <= 5)%nat ∧
  digits_value 0 (pretty n) = n.
Proof.
  intros Hn. destruct (pretty_digits n) as (Ha & Hv & Hne); [lia|].
  split_and!; [done| | |done].
  - destruct (pretty n); [done|cbn; lia].
  - apply pretty_length; [lia|]. change (10 ^ Z.of_nat 5) with 100000. lia.
Qed.

(** A group of one to three digits takes an octet. *)
Lemma match_octet i n u c k x :
  0 <= n < 256 → stops isdigit u = true → k u ((i, pretty n) :: c) = Some x →
  match_regex (Group i (Repeat digit 1 (Some 3%nat))) (pretty n +:+ u) c k = Some x.
Proof.
  intros Hn Hu Hk. destruct (octet_digits n Hn) as (Ha & Hl & _).
  apply match_group_run; [done|lia|by intros ? [= <-]; lia|done..].
Qed.

Lemma match_port i n u c k x :
  0 <= n < 2 ^ 16 → stops isdigit u = true → k u ((i, pretty n) :: c) = Some x →
  match_regex (Group i (Repeat digit 1 (Some 5%nat))) (pretty n +:+ u) c k = Some x.
Proof.
  intros Hn Hu Hk. destruct (port_digits n Hn) as (Ha & Hl & _).
  apply match_group_run; [done|lia|by intros ? [= <-]; lia|done..].
Qed.

(** ** The concrete addresses the witnesses run on *)
Inductive inet_addr :=
  | Addr4 (a b c d port : Z)
  | Addr6 (text : string) (port : Z).

Definition octet_group (i : nat) : regex := Group i (Repeat digit 1 (Some 3%nat)).
Definition addr4_regex : regex :=
  Seqs [octet_group 1; Lit "."; octet_group 2; Lit "."; octet_group 3; Lit ".";
        octet_group 4; Lit ":"; Group 5 (Repeat digit 1 (Some 5%nat))].
Definition group_value (i : nat) (c : captures) : Z :=
  digits_value 0 (default "" (group i c)).
Definition addr4_text (a b c d p : Z) : string :=
  dotted a b c d +:+ ":" +:+ pretty p.
Definition parse_addr4 (s : string) : option inet_addr :=
  c ← regex_match s addr4_regex;
  Some (Addr4 (group_value 1 c) (group_value 2 c) (group_value 3 c) (group_value 4 c)
          (group_value 5 c)).

Lemma match_addr4 a b c d p :
  octets a b c d → 0 <= p < 2 ^ 16 →
  regex_match (addr4_text a b c d p) addr4_regex =
    Some [(5%nat, pretty p); (4%nat, pretty d); (3%nat, pretty c); (2%nat, pretty b);
          (1%nat, pretty a)].
Proof.
  intros (Ha & Hb & Hc & Hd) Hp.
  unfold regex_match, addr4_text, dotted, addr4_regex, octet_group. cbn [Seqs].
  rewrite !string_app_assoc. rewrite match_seq. apply match_octet; [done|done|].
  rewrite match_seq, append_cons, append_nil, match_lit, match_seq.
  apply match_octet; [done|done|].
  rewrite match_seq, append_cons, append_nil, match_lit, match_seq.
  apply match_octet; [done|done|].
  rewrite match_seq, append_cons, append_nil, match_lit, match_seq.
  apply match_octet; [done|done|].
  rewrite match_seq, append_cons, append_nil, match_lit.
  rewrite <- (string_app_nil_r (pretty p)) at 1. by apply match_port.
Qed.

Lemma parse_addr4_text a b c d p :
  octets a b c d → 0 <= p < 2 ^ 16 → parse_addr4 (addr4_text a b c d p) = Some (Addr4 a b c d p).
Proof.
  intros Ho Hp. unfold parse_addr4. rewrite match_addr4 by done.
  destruct Ho as (Ha & Hb & Hc & Hd). cbn [mbind option_bind]. f_equal.
  pose proof (octet_digits a Ha) as (_ & _ & Ea). pose proof (octet_digits b Hb) as (_ & _ & Eb).
  pose proof (octet_digits c Hc) as (_ & _ & Ec). pose proof (octet_digits d Hd) as (_ & _ & Ed).
  pose proof (port_digits p Hp) as (_ & _ & Ep). by f_equal.
Qed.

#[export] Program Instance plain_inet_addr : InetAddr inet_addr := {|
  inet4 := Addr4;
  inet_of_ip p ip :=
    Addr4 (ip `div` 2 ^ 24) (ip `div` 2 ^ 16 `mod` 256) (ip `div` 2 ^ 8 `mod` 256)
      (ip `mod` 256) p;
  inet_any := Addr4 0 0 0 0 0;
  is_inet6 x := match x with Addr6 _ _ => true | Addr4 _ _ _ _ _ => false end;
  get_port_number x := match x with Addr4 _ _ _ _ p => p | Addr6 _ p => p end;
  get_ip_address x :=
    match x with
    | Addr4 a b c d _ => u32 (((a * 256 + b) * 256 + c) * 256 + d)
    | Addr6 _ _ => 0
    end;
  get_host_addr x :=
    match x with Addr4 a b c d _ => Some (dotted a b c d) | Addr6 t _ => Some t end;
  addr_to_string x _ :=
    match x with
    | Addr4 a b c d p => Some (addr4_text a b c d p)
    | Addr6 t p => Some ("[" +:+ t +:+ "]:" +:+ pretty p)
    end;
  string_to_addr s inet6 := if inet6 then None else parse_addr4 s
|}.
Next Obligation. done. Qed.
Next Obligation. done. Qed.
Next Obligation. done. Qed.
Next Obligation. done. Qed.
Next Obligation. done. Qed.
Next Obligation. done. Qed.
Next Obligation.
  intros p ip _ Hip. cbn.
  assert (Hv : ((ip `div` 2 ^ 24 * 256 + ip `div` 2 ^ 16 `mod` 256) * 256 +
                ip `div` 2 ^ 8 `mod` 256) * 256 + ip `mod` 256 = ip).
  { pose proof (Z.div_mod ip 256). pose proof (Z.div_mod (ip `div` 256) 256).
    pose proof (Z.div_mod (ip `div` 256 `div` 256) 256).
    rewrite !Z.div_div in * by lia. change (256 * 256) with (2 ^ 16) in *.
    change (256 * 2 ^ 16) with (2 ^ 24) in *. change (2 ^ 16 * 256) with (2 ^ 24) in *.
    change (2 ^ 8) with 256. lia. }
  change (Z.pow_pos 2 24) with (2 ^ 24). rewrite u32_small; [exact Hv|]. by rewrite Hv.
Qed.
Next Obligation. intros []; cbn; [apply u32_range|lia]. Qed.
Next Obligation. exact parse_addr4_text. Qed.
