(* ===== verification/AddressTools.v ===== *)
(** * Addresses and URLs in text (net_common_tools.cpp)

    The functions of [Net_Common_Tools] that read addresses and URLs with regular
    expressions, and print addresses. *)
From S2P Require Import Prelude Chars ByteOrder Decimal Regex InetAddr.

(** ** Matching addresses *)

(** [^([[:digit:]]{0,3})(\.[[:digit:]]{0,3})?(\.[[:digit:]]{0,3})?(\.[[:digit:]]{0,3})?$] *)
Definition ipv4_digits : regex := Repeat digit 0 (Some 3%nat).
Definition ipv4_regex : regex :=
  Seqs [Group 1 ipv4_digits;
        Optional (Group 2 (Seq (Lit ".") ipv4_digits));
        Optional (Group 3 (Seq (Lit ".") ipv4_digits));
        Optional (Group 4 (Seq (Lit ".") ipv4_digits))].

(** [find ('0', 0) == 0] *)
Definition starts_with_0 (s : string) : bool :=
  match s with String c _ => Ascii.eqb c "0" | "" => false end.
(** [erase (0, 1)] *)
Definition erase_first (s : string) : string :=
  match s with String _ s' => s' | "" => "" end.

(** the loop over the groups; [value] is the [unsigned int] that all of them are read
    into *)
Fixpoint validate_groups (value : Z) (groups : list nat) (c : captures) : bool :=
  match groups with
  | [] => true
  | i :: groups' =>
      match group i c with
      | None => false
      | Some t =>
          let group_string := if (1 <? i)%nat then erase_first t else t in
          let value := read_unsigned 32 value group_string in
          if 255 <? value then false
          else if starts_with_0 group_string && (1 <? String.length group_string)%nat
          then false
          else validate_groups value groups' c
      end
  end.

Definition matchIPv4Address (address_in : string) : bool :=
  match regex_match address_in ipv4_regex with
  | None => false
  | Some c => validate_groups 0 [1%nat; 2%nat; 3%nat; 4%nat] c
  end.

(** The alternatives of the expression for IPv6; the text of its groups is not used. *)
Definition xdigit : regex := Class isxdigit.
Definition H16 : regex := Repeat xdigit 1 (Some 4%nat).
Definition H16_colon : regex := Seq H16 (Lit ":").
Definition colon_H16 : regex := Seq (Lit ":") H16.
Definition range (lo hi : ascii) : regex := Class (in_range lo hi).
Definition dec_octet : regex :=
  Alt (Seqs [Lit "2"; Lit "5"; range "0" "5"])
      (Seq (Optional (Alt (Seq (Lit "2") (range "0" "4")) (Seq (Optional (Lit "1")) digit)))
           digit).
Definition dotted_quad : regex :=
  Seq (Repeat (Seq dec_octet (Lit ".")) 3 (Some 3%nat)) dec_octet.
Definition ipv6_alternatives : list regex :=
  [Seq (Repeat H16_colon 7 (Some 7%nat)) H16;
   Seq (Repeat H16_colon 1 (Some 7%nat)) (Lit ":");
   Seq (Repeat H16_colon 1 (Some 6%nat)) colon_H16;
   Seq (Repeat H16_colon 1 (Some 5%nat)) (Repeat colon_H16 1 (Some 2%nat));
   Seq (Repeat H16_colon 1 (Some 4%nat)) (Repeat colon_H16 1 (Some 3%nat));
   Seq (Repeat H16_colon 1 (Some 3%nat)) (Repeat colon_H16 1 (Some 4%nat));
   Seq (Repeat H16_colon 1 (Some 2%nat)) (Repeat colon_H16 1 (Some 5%nat));
   Seq H16_colon (Repeat colon_H16 1 (Some 6%nat));
   Seq (Lit ":") (Alt (Repeat colon_H16 1 (Some 7%nat)) (Lit ":"));
   Seqs [Lits "fe80:"; Repeat (Seq (Lit ":") (Repeat xdigit 0 (Some 4%nat))) 0 (Some 4%nat);
         Lit "%"; Plus (Class isalnum)];
   Seqs [Lits "::";
         Optional (Seqs [Lits "ffff"; Optional (Seq (Lit ":") (Repeat (Lit "0") 1 (Some 4%nat)));
                         Lit ":"]);
         dotted_quad];
   Seqs [Repeat H16_colon 1 (Some 4%nat); Lit ":"; dotted_quad]].
Definition ipv6_regex : regex :=
  foldr Alt (Class (λ _, false)) ipv6_alternatives.

Definition matchIPv6Address (address_in : string) : bool :=
  bool_decide (is_Some (regex_match address_in ipv6_regex)).

(** ** Reading and printing addresses *)

(** [find_last_of (c)] or [rfind (c)]: what is in front of the last one, and behind it *)
Fixpoint split_last (c : ascii) (s : string) : option (string * string) :=
  match s with
  | "" => None
  | String x s' =>
      match split_last c s' with
      | Some (a, b) => Some (String x a, b)
      | None => if Ascii.eqb x c then Some ("", s') else None
      end
  end.

Section Addresses.
Context {A : Type} `{InetAddr A}.

(** the text that is handed to [string_to_addr ()], and whether it is of IPv6 *)
Definition address_text (address_in : string) (portNumber_in : Z) : string * bool :=
  let is_ipv6 := matchIPv6Address address_in in
  let ip_address_string := if is_ipv6 then "[" +:+ address_in +:+ "]" else address_in in
  match split_last ":" ip_address_string with
  | Some _ => (ip_address_string, is_ipv6)
  | None => (ip_address_string +:+ ":" +:+ pretty portNumber_in, is_ipv6)
  end.

Definition stringToIPAddress (address_in : string) (portNumber_in : Z) : A :=
  let '(ip_address_string, is_ipv6) := address_text address_in portNumber_in in
  default inet_any (string_to_addr ip_address_string is_ipv6).

Definition isBroadcast (address_in : A) : bool := get_ip_address address_in =? 0xFFFFFFFF.

(** the brackets around an IPv6 address *)
Definition remove_brackets (s : string) : string :=
  let s := match s with String "["%char s' => s' | _ => s end in
  match split_last "]" s with Some (a, b) => a +:+ b | None => s end.

Definition IPAddressToString (address_in : A) (addressOnly_in resolve_in : bool) :
    outcome string :=
  match addr_to_string address_in (negb resolve_in) with
  | None => Ok ""
  | Some result =>
      let result := if is_inet6 address_in then remove_brackets result else result in
      if addressOnly_in then
        match split_last ":" result with
        | None => Abort
        | Some (a, _) => Ok a
        end
      else Ok result
  end.

(** [ACE_INET_Addr::set (port, address, 0)]: both numbers are in memory as they are in
    network byte order *)
Definition of_network `{ByteOrder} (port_in IPAddress_in : Z) : A :=
  match memory 4 IPAddress_in with
  | [a; b; c; d] => inet4 a b c d (be_value (memory 2 port_in))
  | _ => inet_any
  end.
Definition IPv4AddressToString `{ByteOrder} (port_in IPAddress_in : Z) : outcome string :=
  match addr_to_string (of_network port_in IPAddress_in) true with
  | None => Ok ""
  | Some return_value =>
      if port_in =? 0 then
        match split_last ":" return_value with
        | None => Abort
        | Some (a, _) => Ok a
        end
      else Ok return_value
  end.
End Addresses.

Inductive Net_LinkLayerType :=
  | NET_LINKLAYER_802_3 | NET_LINKLAYER_802_11 | NET_LINKLAYER_PPP | NET_LINKLAYER_FDDI
  | NET_LINKLAYER_ATM | NET_LINKLAYER_INVALID.

(** [%02x] *)
Definition hex_octet (b : Z) : string := setw 2 "0" (hex_loop 2 b "").
Definition LinkLayerAddressToString (addressDataPtr_in : list Z) (type_in : Net_LinkLayerType) :
    outcome string :=
  match type_in with
  | NET_LINKLAYER_802_3 | NET_LINKLAYER_802_11 =>
      match addressDataPtr_in with
      | a :: b :: c :: d :: e :: f :: _ =>
          Ok (hex_octet a +:+ ":" +:+ hex_octet b +:+ ":" +:+ hex_octet c +:+ ":" +:+
              hex_octet d +:+ ":" +:+ hex_octet e +:+ ":" +:+ hex_octet f)
      | _ => Undef
      end
  | NET_LINKLAYER_ATM | NET_LINKLAYER_FDDI => Abort
  | NET_LINKLAYER_PPP | NET_LINKLAYER_INVALID => Ok ""
  end.

(** ** URLs

    [^(?:([[:alpha:]]+)://)?([^\/\:]+)(?:\:([[:digit:]]{1,5}))?(?:.+)?$] *)
Definition host_char (c : ascii) : bool := negb (Ascii.eqb c "/" || Ascii.eqb c ":").
Definition url_protocol : regex := Seq (Group 1 (Plus (Class isalpha))) (Lits "://").
Definition url_host : regex := Group 2 (Plus (Class host_char)).
Definition url_port : regex := Seq (Lit ":") (Group 3 (Repeat digit 1 (Some 5%nat))).
Definition url_regex : regex :=
  Seqs [Optional url_protocol; url_host; Optional url_port; Optional (Plus any)].

Definition URLToHostName (URL_in : string) (returnProtocol_in returnPort_in : bool) :
    outcome string :=
  match regex_match URL_in url_regex with
  | None => Ok ""
  | Some c =>
      match group 2 c with
      | None => Ok ""
      | Some host =>
          protocol ← (if returnProtocol_in then
                        match group 1 c with
                        | None => Abort
                        | Some p => Ok (p +:+ "://")
                        end
                      else Ok "");
          Ok (protocol +:+ host +:+
              (if returnPort_in then default "" (group 3 c) else ""))
      end
  end.

Definition URLToProtocol (URL_in : string) : string :=
  match regex_match URL_in url_regex with
  | None => ""
  | Some c => default "" (group 1 c)
  end.

(** ** The text around the last occurrence of a character *)
Lemma split_last_None c s : string_all (λ x, negb (Ascii.eqb x c)) s = true → split_last c s = None.
Proof.
  induction s as [|x s IH]; [done|]. cbn [string_all split_last].
  intros [Hx Hs]%andb_true_iff. rewrite IH by done. by apply negb_true_iff in Hx as ->.
Qed.

Lemma split_last_app c s t :
  string_all (λ x, negb (Ascii.eqb x c)) t = true →
  split_last c (s +:+ String c t) = Some (s, t).
Proof.
  intros Ht. induction s as [|x s IH]; autorewrite with str; cbn [split_last].
  - by rewrite split_last_None, Ascii.eqb_refl.
  - by rewrite IH.
Qed.

(** A string with a character has a last one. *)
Lemma split_last_Some c s t : is_Some (split_last c (s +:+ String c t)).
Proof.
  induction s as [|x s IH]; autorewrite with str; cbn [split_last].
  - destruct (split_last c t) as [[]|]; [done|]. by rewrite Ascii.eqb_refl.
  - destruct IH as [[a b] ->]. done.
Qed.


Lemma digit_not c (Hc : isdigit c = false) x : implb (isdigit x) (negb (Ascii.eqb x c)) = true.
Proof.
  destruct (Ascii.eqb x c) eqn:E; [|by destruct (isdigit x)].
  apply Ascii.eqb_eq in E as ->. by rewrite Hc.
Qed.

(** ** IPv4

    A group of digits that is accepted: empty, or a number to 255 without leading zeros. *)
Definition octet_text (s : string) : bool :=
  all_digits s && (String.length s <=? 3)%nat && (digits_value 0 s <=? 255) &&
  negb (starts_with_0 s && (1 <? String.length s)%nat).

Lemma octet_text_read s value :
  octet_text s = true → 0 <= value <= 255 → 0 <= read_unsigned 32 value s <= 255.
Proof.
  unfold octet_text. intros [[[Hd _]%andb_true_iff Hv]%andb_true_iff _]%andb_true_iff Hval.
  unfold read_unsigned. rewrite span_digits_all by done.
  destruct (bool_decide (s = "")); [done|]. pose proof (digits_value_nonneg s Hd 0).
  bool_lia.
Qed.

(** what the loop requires of a group, whatever was read before *)
Definition checked (s : string) : bool :=
  bool_decide (s = "") ||
  ((digits_value 0 s <=? 255) && negb (starts_with_0 s && (1 <? String.length s)%nat)).

Lemma octet_text_checked s :
  octet_text s = all_digits s && (String.length s <=? 3)%nat && checked s.
Proof.
  unfold octet_text, checked. destruct s as [|c s]; [done|].
  destruct (all_digits _), (_ <=? 3)%nat, (_ <=? 255); cbn; try done; by rewrite andb_true_r.
Qed.

Lemma checked_read s value :
  all_digits s = true → 0 <= value <= 255 →
  negb (255 <? read_unsigned 32 value s) &&
  negb (starts_with_0 s && (1 <? String.length s)%nat) = checked s.
Proof.
  intros Hd Hv. unfold read_unsigned, checked. rewrite span_digits_all by done.
  destruct s as [|c s]; cbn [bool_decide].
  - rewrite bool_decide_true by done. cbn. rewrite (proj2 (Z.ltb_ge 255 value)) by lia. done.
  - rewrite !bool_decide_false by done. cbn [orb]. f_equal.
    destruct (255 <? _) eqn:E1, (_ <=? 255) eqn:E2; bool_lia; done.
Qed.

(** The loop, group by group. *)
Lemma validate_groups_cons value i is_ c t :
  group i c = Some t → 
  let g := if (1 <? i)%nat then erase_first t else t in
  all_digits g = true → 0 <= value <= 255 →
  validate_groups value (i :: is_) c =
    checked g && validate_groups (read_unsigned 32 value g) is_ c.
Proof.
  cbn zeta. intros Ht Hd Hv. cbn [validate_groups]. rewrite Ht.
  rewrite <- (checked_read _ value Hd Hv).
  destruct (255 <? _); cbn [negb andb]; [done|].
  destruct (_ && _); cbn [negb]; [done|]. done.
Qed.

Lemma checked_value s value :
  all_digits s = true → checked s = true → 0 <= value <= 255 →
  0 <= read_unsigned 32 value s <= 255.
Proof.
  intros Hd Hc Hv. rewrite <- (checked_read s value Hd Hv) in Hc.
  apply andb_true_iff in Hc as [Hc _]. apply negb_true_iff in Hc. bool_lia.
  split; [|done]. unfold read_unsigned. rewrite span_digits_all by done.
  destruct (bool_decide _); [lia|]. pose proof (digits_value_nonneg s Hd 0). lia.
Qed.

Definition quad (a b c d : string) : string :=
  a +:+ String "." (b +:+ String "." (c +:+ String "." d)).
Definition quad_captures (a b c d : string) : captures :=
  [(4%nat, String "." d); (3%nat, String "." c); (2%nat, String "." b); (1%nat, a)].

Lemma validate_quad a b c d :
  all_digits a = true → all_digits b = true → all_digits c = true → all_digits d = true →
  validate_groups 0 [1; 2; 3; 4]%nat (quad_captures a b c d) =
    checked a && (checked b && (checked c && checked d)).
Proof.
  intros Ha Hb Hc Hd.
  rewrite (validate_groups_cons 0 1 _ _ a) by (done || lia). cbn [Nat.ltb Nat.leb].
  destruct (checked a) eqn:Ea; cbn [andb]; [|done].
  rewrite (validate_groups_cons _ 2 _ _ (String "." b)) by (done || by apply checked_value).
  cbn [Nat.ltb Nat.leb erase_first].
  destruct (checked b) eqn:Eb; cbn [andb]; [|done].
  rewrite (validate_groups_cons _ 3 _ _ (String "." c))
    by (done || (apply checked_value; [done|done|by apply checked_value])).
  cbn [Nat.ltb Nat.leb erase_first].
  destruct (checked c) eqn:Ec; cbn [andb]; [|done].
  rewrite (validate_groups_cons _ 4 _ _ (String "." d)).
  - cbn [Nat.ltb Nat.leb erase_first validate_groups]. apply andb_true_r.
  - done.
  - done.
  - apply checked_value; [done|done|]. apply checked_value; [done|done|]. by apply checked_value.
Qed.

Lemma match_dot_group i t u c k x :
  all_digits t = true → (String.length t <= 3)%nat → stops isdigit u = true →
  k u ((i, String "." t) :: c) = Some x →
  match_regex (Optional (Group i (Seq (Lit ".") ipv4_digits))) (String "." t +:+ u) c k = Some x.
Proof.
  intros Ht Hl Hu Hk. apply match_optional.
  change (match_regex (Group i ?r) ?s c ?k) with
    (match_regex r s c (λ s' c', k s' ((i, consumed s s') :: c'))).
  rewrite match_seq, append_cons, match_lit. apply match_run; [done|lia| |done|].
  - by intros n [= <-].
  - cbn beta. rewrite <- append_cons, shorter, consumed_app by done. done.
Qed.

Lemma match_quad a b c d :
  all_digits a = true → all_digits b = true → all_digits c = true → all_digits d = true →
  (String.length a <= 3)%nat → (String.length b <= 3)%nat → (String.length c <= 3)%nat →
  (String.length d <= 3)%nat →
  regex_match (quad a b c d) ipv4_regex = Some (quad_captures a b c d).
Proof.
  intros Ha Hb Hc Hd La Lb Lc Ld. unfold regex_match, ipv4_regex, quad. cbn [Seqs].
  rewrite match_seq. apply match_group_run; [done|lia|by intros n [= <-]|done|].
  rewrite match_seq, <- append_cons. apply match_dot_group; [done..|].
  rewrite match_seq, <- append_cons. apply match_dot_group; [done..|].
  rewrite <- (string_app_nil_r (String "." d)). by apply match_dot_group.
Qed.

(** A group that has matched is a dot and digits. *)
Lemma derives_dot_group i s c s' c' :
  derives (Optional (Group i (Seq (Lit ".") ipv4_digits))) s c s' c' →
  (s' = s ∧ c' = c) ∨
  ∃ t, s = String "." t +:+ s' ∧ all_digits t = true ∧ (String.length t <= 3)%nat ∧
       c' = (i, String "." t) :: c.
Proof.
  intros [?|(t & c1 & (s1 & c2 & (x & -> & Hx & ->) & Hr) & Hs & ->)]%derives_optional; [by left|].
  right. destruct (derives_run _ _ _ _ _ _ _ Hr) as (u & -> & Hu & _ & Hl & ->).
  apply Ascii.eqb_eq in Hx as <-. exists u. specialize (Hl 3%nat eq_refl).
  assert (String "." u = t) as ->; [|done].
  rewrite <- (consumed_app (String "." u) s'), <- (consumed_app t s'), <- Hs. done.
Qed.

Lemma derives_quad s c t2 t3 t4 :
  derives ipv4_regex s [] "" c → group 2 c = Some t2 → group 3 c = Some t3 →
  group 4 c = Some t4 →
  ∃ p q r t, s = quad p q r t ∧ all_digits p = true ∧ all_digits q = true ∧
    all_digits r = true ∧ all_digits t = true ∧ (String.length p <= 3)%nat ∧
    (String.length q <= 3)%nat ∧ (String.length r <= 3)%nat ∧ (String.length t <= 3)%nat.
Proof.
  unfold ipv4_regex. cbn [Seqs]. intros (s1 & c1 & H1 & s2 & c2 & H2 & s3 & c3 & H3 & H4).
  destruct H1 as (p & c0 & Hp & -> & ->).
  destruct (derives_run _ _ _ _ _ _ _ Hp) as (p' & Ep & Dp & _ & Lp & ->).
  assert (p = p') as <-.
  { rewrite <- (consumed_app p s1), <- (consumed_app p' s1). by rewrite Ep. }
  specialize (Lp 3%nat eq_refl).
  destruct (derives_dot_group _ _ _ _ _ H2) as [[-> ->]|(q & -> & Dq & Lq & ->)];
    destruct (derives_dot_group _ _ _ _ _ H3) as [[-> ->]|(r & -> & Dr & Lr & ->)];
    destruct (derives_dot_group _ _ _ _ _ H4) as [[<- ->]|(t & -> & Dt & Lt & ->)];
    cbn; try done; intros _ _ _.
  exists p, q, r, t. split_and!; try done. unfold quad.
  by rewrite string_app_nil_r, !append_cons.
Qed.

(** C18: [matchIPv4Address] accepts exactly the strings of four groups with dots between
    them, each a number to 255 without leading zeros, or empty: an address that lacks
    numbers ("1..2.3", or "...") is accepted as well. *)
Theorem matchIPv4Address_iff s :
  matchIPv4Address s = true ↔
  ∃ a b c d, s = quad a b c d ∧ octet_text a = true ∧ octet_text b = true ∧
    octet_text c = true ∧ octet_text d = true.
Proof.
  unfold matchIPv4Address. split.
  - destruct (regex_match s ipv4_regex) as [c|] eqn:Hm; [|done]. intros Hv.
    assert (Hg : is_Some (group 2 c) ∧ is_Some (group 3 c) ∧ is_Some (group 4 c)).
    { revert Hv. cbn [validate_groups].
      destruct (group 1 c), (group 2 c), (group 3 c), (group 4 c); try done;
        repeat (destruct (_ <? _); [done|]; destruct (_ && _); [done|]); try done. }
    destruct Hg as ([t2 H2] & [t3 H3] & [t4 H4]).
    destruct (derives_quad s c t2 t3 t4) as (p & q & r & t & -> & ?); [by apply regex_match_derives|done..|].
    destruct_and!. exists p, q, r, t. split; [done|].
    rewrite match_quad in Hm by done. injection Hm as <-. rewrite validate_quad in Hv by done.
    rewrite !octet_text_checked. apply andb_true_iff in Hv as [? Hv].
    apply andb_true_iff in Hv as [? Hv]. apply andb_true_iff in Hv as [? ?].
    split_and!; by rewrite !andb_true_iff, Nat.leb_le.
  - intros (a & b & c & d & -> & Ha & Hb & Hc & Hd).
    rewrite octet_text_checked in Ha, Hb, Hc, Hd.
    repeat match goal with H : _ && _ = true |- _ => apply andb_true_iff in H as [? ?] end.
    repeat match goal with H : (_ <=? _)%nat = true |- _ => apply Nat.leb_le in H end.
    rewrite match_quad, validate_quad by done.
    by repeat (apply andb_true_iff; split).
Qed.

Lemma matchIPv4Address_iff_witness :
  matchIPv4Address "10.0.0.255" = true ∧ matchIPv4Address "1..2.3" = true ∧
  matchIPv4Address "10.0.0.256" = false.
Proof.
  split_and!.
  - apply matchIPv4Address_iff. by exists "10", "0", "0", "255".
  - apply matchIPv4Address_iff. by exists "1", "", "2", "3".
  - vm_compute. reflexivity.
Defined.

(** ** IPv6

    What the alternatives have in common: hexadecimal digits, if any, and a colon. *)
Definition hex_colon (s : string) : Prop :=
  ∃ h t, string_all isxdigit h = true ∧ s = h +:+ String ":" t.

Lemma hex_colon_app s t : hex_colon s → hex_colon (s +:+ t).
Proof. intros (h & u & Hh & ->). exists h, (u +:+ t). by rewrite string_app_assoc. Qed.

Lemma derives_H16_colon s c s' c' : derives H16_colon s c s' c' → hex_colon s.
Proof.
  intros (s1 & c1 & Hr & (x & -> & Hx & ->)). apply Ascii.eqb_eq in Hx as <-.
  destruct (derives_run _ _ _ _ _ _ _ Hr) as (h & -> & Hh & _). by exists h, s'.
Qed.

Lemma derives_H16_colons lo hi s c s' c' :
  derives (Repeat H16_colon (S lo) hi) s c s' c' → hex_colon s.
Proof.
  intros ([|n] & Hlo & _ & Hi); [lia|]. destruct Hi as (s1 & c1 & Hr & _).
  by apply derives_H16_colon in Hr.
Qed.

Lemma derives_colon s c s' c' : derives (Lit ":") s c s' c' → hex_colon s.
Proof. intros (x & -> & Hx & ->). apply Ascii.eqb_eq in Hx as <-. by exists "", s'. Qed.

Lemma derives_fe80 s c s' c' : derives (Lits "fe80:") s c s' c' → hex_colon s.
Proof.
  intros (s1 & c1 & (x1 & -> & H1 & ->) & s2 & c2 & (x2 & -> & H2 & ->) & s3 & c3 &
    (x3 & -> & H3 & ->) & s4 & c4 & (x4 & -> & H4 & ->) & s5 & c5 & (x5 & -> & H5 & ->) & _).
  apply Ascii.eqb_eq in H1 as <-, H2 as <-, H3 as <-, H4 as <-, H5 as <-. by exists "fe80", s5.
Qed.

Lemma derives_alternatives rs r0 s c s' c' :
  derives (foldr Alt r0 rs) s c s' c' → derives r0 s c s' c' ∨ ∃ r, r ∈ rs ∧ derives r s c s' c'.
Proof.
  induction rs as [|r rs IH]; cbn [foldr]; [by left|].
  intros [Hr|Hr]; [right; exists r; split; [left|done]|].
  destruct (IH Hr) as [?|(r' & ? & ?)]; [by left|right; exists r'; split; [by right|done]].
Qed.

(** an expression that begins with hexadecimal digits and a colon *)
Definition begins_with (r : regex) : Prop :=
  ∀ s c s' c', derives r s c s' c' → hex_colon s.

Lemma begins_with_seq r1 r2 : begins_with r1 → begins_with (Seq r1 r2).
Proof. intros Hr s c s' c' (s1 & c1 & H1 & _). by apply Hr in H1. Qed.

Lemma ipv6_alternatives_begin : Forall begins_with ipv6_alternatives.
Proof.
  assert (H1 : ∀ lo hi, begins_with (Repeat H16_colon (S lo) hi))
    by (intros lo hi s c s' c'; apply derives_H16_colons).
  assert (H2 : begins_with H16_colon) by (intros s c s' c'; apply derives_H16_colon).
  assert (H3 : begins_with (Lit ":")) by (intros s c s' c'; apply derives_colon).
  assert (H4 : begins_with (Lits "fe80:")) by (intros s c s' c'; apply derives_fe80).
  assert (H5 : begins_with (Lits "::")) by (by apply begins_with_seq).
  unfold ipv6_alternatives. repeat constructor; cbn [Seqs]; by apply begins_with_seq.
Qed.

Lemma derives_ipv6 s c s' c' : derives ipv6_regex s c s' c' → hex_colon s.
Proof.
  intros [(x & _ & ? & _)|(r & Hr & Hd)]%derives_alternatives; [done|].
  apply (proj1 (Forall_forall _ _) ipv6_alternatives_begin r Hr _ _ _ _ Hd).
Qed.

Lemma matchIPv6Address_hex_colon s : matchIPv6Address s = true → hex_colon s.
Proof.
  intros [c Hd]%bool_decide_eq_true%regex_match_iff. by apply derives_ipv6 in Hd.
Qed.

Lemma not_hex_colon p w : all_digits p = true → ¬ hex_colon (p +:+ String "." w).
Proof.
  intros Hp (h & t & Hh & He). revert h Hh He.
  induction p as [|x p IH]; intros [|y h] Hh He; autorewrite with str in He; try discriminate He.
  - injection He as <- _. done.
  - injection He as -> _. done.
  - injection He as -> He. unfold all_digits in *. cbn [string_all] in Hp, Hh.
    apply andb_true_iff in Hp as [_ Hp], Hh as [_ Hh]. by apply (IH Hp h Hh).
Qed.

Lemma dotted_not_ipv6 a b c d u : 0 <= a < 256 → matchIPv6Address (dotted a b c d +:+ u) = false.
Proof.
  intros Ha. apply not_true_iff_false. intros Hm%matchIPv6Address_hex_colon. revert Hm.
  unfold dotted. rewrite string_app_assoc, append_cons, append_nil.
  apply not_hex_colon. by apply octet_digits.
Qed.

Lemma digits_no_colon s :
  all_digits s = true → string_all (λ x, negb (Ascii.eqb x ":")) s = true.
Proof. apply string_all_impl. intros c. by apply digit_not. Qed.

Lemma dotted_no_colon a b c d :
  octets a b c d → string_all (λ x, negb (Ascii.eqb x ":")) (dotted a b c d) = true.
Proof.
  intros (Ha & Hb & Hc & Hd). unfold dotted. rewrite !string_all_app.
  pose proof (octet_digits a Ha) as [Da _]. pose proof (octet_digits b Hb) as [Db _].
  pose proof (octet_digits c Hc) as [Dc _]. pose proof (octet_digits d Hd) as [Dd _].
  apply digits_no_colon in Da, Db, Dc, Dd. by rewrite Da, Db, Dc, Dd.
Qed.

Section Conversions.
Context {A : Type} `{InetAddr A}.

Lemma stringToIPAddress_port a b c d p q :
  octets a b c d → 0 <= p < 2 ^ 16 →
  stringToIPAddress (dotted a b c d +:+ ":" +:+ pretty p) q = inet4 a b c d p.
Proof.
  intros Ho Hp. unfold stringToIPAddress, address_text.
  rewrite dotted_not_ipv6 by apply Ho. rewrite append_cons, append_nil.
  rewrite split_last_app by (apply digits_no_colon; by apply port_digits).
  pose proof (string_to_addr_inet4 a b c d p Ho Hp) as Hs.
  rewrite append_cons, append_nil in Hs. by rewrite Hs.
Qed.

(** an address in the memory of the machine, in network byte order *)
Lemma IPv4AddressToString_load `{ByteOrder} a b c d :
  octets a b c d → IPv4AddressToString 0 (load [a; b; c; d]) = Ok (dotted a b c d).
Proof.
  intros Ho. unfold IPv4AddressToString, of_network.
  assert (memory 4 (load [a; b; c; d]) = [a; b; c; d]) as ->.
  { apply (memory_load [a; b; c; d]). destruct Ho as (? & ? & ? & ?). by repeat (apply Forall_cons; split; [done|]). }
  replace (be_value (memory 2 0)) with 0 by (unfold memory; by destruct little_endian).
  rewrite addr_to_string_inet4 by (done || lia).
  cbn [Z.eqb]. rewrite append_cons, append_nil.
  by rewrite split_last_app by (apply digits_no_colon; by apply port_digits).
Qed.

Lemma stringToIPAddress_plain a b c d p :
  octets a b c d → 0 <= p < 2 ^ 16 → stringToIPAddress (dotted a b c d) p = inet4 a b c d p.
Proof.
  intros Ho Hp. unfold stringToIPAddress, address_text.
  pose proof (dotted_not_ipv6 a b c d "" (proj1 Ho)) as Hm. rewrite string_app_nil_r in Hm.
  rewrite Hm.
  rewrite split_last_None by (by apply dotted_no_colon).
  pose proof (string_to_addr_inet4 a b c d p Ho Hp) as Hs.
  rewrite append_cons, append_nil in Hs |- *. by rewrite Hs.
Qed.

(** The text of an IPv4 address, with or without its port, is read back as the
    address; a port in the text has precedence over the one that is given. *)
Theorem IPv4_text_roundtrip a b c d p q (only : bool)
    (Ho : octets a b c d) (Hp : 0 <= p < 2 ^ 16) :
  ∃ s, IPAddressToString (inet4 a b c d p) only false = Ok s ∧
       stringToIPAddress s (if only then p else q) = inet4 a b c d p.
Proof.
  unfold IPAddressToString. rewrite addr_to_string_inet4, is_inet6_inet4 by done.
  destruct only.
  - rewrite append_cons, append_nil.
    rewrite split_last_app by (apply digits_no_colon; by apply port_digits).
    exists (dotted a b c d). split; [done|]. by apply stringToIPAddress_plain.
  - exists (dotted a b c d +:+ ":" +:+ pretty p). split; [done|].
    by apply stringToIPAddress_port.
Qed.

(** The port that is given with an IPv6 address is dropped: the colons of the address
    are taken for that of a port, and what is handed to ACE is the address in brackets
    alone, whatever the port. *)
Theorem IPv6_port_dropped s p q (Hs : matchIPv6Address s = true) :
  address_text s p = ("[" +:+ s +:+ "]", true) ∧
  stringToIPAddress s p = stringToIPAddress s q.
Proof.
  assert (Ht : ∀ p, address_text s p = ("[" +:+ s +:+ "]", true)).
  { intros r. unfold address_text. rewrite Hs.
    destruct (matchIPv6Address_hex_colon s Hs) as (h & t & _ & ->).
    rewrite string_app_assoc, !append_cons, append_nil, <- append_cons.
    by destruct (split_last_Some ":" (String "[" h) (t +:+ "]")) as [[] ->]. }
  split; [done|]. unfold stringToIPAddress. by rewrite !Ht.
Qed.
End Conversions.

Lemma IPv4_text_roundtrip_witness :
  octets 192 168 0 1 ∧ 0 <= 8080 < 2 ^ 16 ∧
  ∃ s, IPAddressToString (A:=inet_addr) (inet4 192 168 0 1 8080) true false = Ok s ∧
       stringToIPAddress s 8080 = inet4 192 168 0 1 8080.
Proof.
  assert (Ho : octets 192 168 0 1) by (unfold octets; lia).
  split_and!; [done|lia..|].
  apply (IPv4_text_roundtrip 192 168 0 1 8080 0 true Ho). lia.
Defined.

Lemma IPv6_port_dropped_witness :
  matchIPv6Address "fe80::1" = true ∧
  address_text "fe80::1" 80 = ("[fe80::1]", true) ∧
  stringToIPAddress (A:=inet_addr) "fe80::1" 80 = stringToIPAddress "fe80::1" 443.
Proof.
  assert (Hm : matchIPv6Address "fe80::1" = true) by (vm_compute; reflexivity).
  split; [done|]. exact (IPv6_port_dropped "fe80::1" 80 443 Hm).
Defined.

(** ** The parts of a URL *)
Definition any_char (c : ascii) : bool := negb (Ascii.eqb c newline || Ascii.eqb c "013").
(** what follows the host: a port, and a path *)
Definition port_text (port : string) : string :=
  match port with "" => "" | _ => String ":" port end.
Definition url_text (protocol host port path : string) : string :=
  protocol +:+ "://" +:+ host +:+ port_text port +:+ path.
Definition port_ok (port : string) : bool :=
  all_digits port && (String.length port <=? 5)%nat.
Definition path_ok (path : string) : bool :=
  match path with "" => true | String c _ => Ascii.eqb c "/" && string_all any_char path end.

Lemma match_path path c :
  path_ok path = true →
  match_regex (Optional (Plus any)) path c (λ s' c', match s' with "" => Some c' | _ => None end)
  = Some c.
Proof.
  destruct path as [|x path]; [done|]. unfold path_ok. intros [_ Hp]%andb_true_iff.
  rewrite <- (string_app_nil_r (String x path)). apply match_optional.
  apply match_run; [done|cbn; lia|done|done|]. by rewrite shorter.
Qed.

Lemma match_port_path port path c :
  port_ok port = true → path_ok path = true →
  match_regex (Seq (Optional url_port) (Optional (Plus any))) (port_text port +:+ path) c
    (λ s' c', match s' with "" => Some c' | _ => None end) =
  Some (match port with "" => c | _ => (3%nat, port) :: c end).
Proof.
  intros [Hd Hl]%andb_true_iff Hpath. apply Nat.leb_le in Hl. rewrite match_seq.
  assert (Hs : stops isdigit path = true).
  { destruct path as [|x path]; [done|]. cbn in Hpath. apply andb_true_iff in Hpath as [Hx _].
    by apply Ascii.eqb_eq in Hx as ->. }
  destruct port as [|x port]; cbn [port_text].
  - rewrite append_nil, match_optional_none; [by apply match_path|]. intros k.
    destruct path as [|y path]; [done|]. cbn in Hpath. apply andb_true_iff in Hpath as [Hy _].
    by apply Ascii.eqb_eq in Hy as ->.
  - apply match_optional. unfold url_port.
    rewrite match_seq, append_cons, match_lit.
    apply match_group_run; [done|cbn; lia|by intros n [= <-]|done|].
    rewrite <- append_cons, shorter by done. by apply match_path.
Qed.

Lemma match_url protocol host port path :
  protocol ≠ "" → string_all isalpha protocol = true →
  host ≠ "" → string_all host_char host = true →
  port_ok port = true → path_ok path = true →
  regex_match (url_text protocol host port path) url_regex =
    Some (match port with
          | "" => [(2%nat, host); (1%nat, protocol)]
          | _ => [(3%nat, port); (2%nat, host); (1%nat, protocol)]
          end).
Proof.
  intros Hp0 Hp Hh0 Hh Hport Hpath. unfold regex_match, url_regex, url_text. cbn [Seqs].
  rewrite match_seq, <- (string_app_assoc protocol). apply match_optional.
  unfold url_protocol. rewrite match_seq, string_app_assoc.
  apply match_group_run; [done|destruct protocol; [done|cbn; lia]|done|done|].
  cbn [Lits]. rewrite !match_seq, !append_cons.
  rewrite match_lit, match_seq, match_lit, match_seq, match_lit.
  cbn [match_regex]. rewrite append_nil.
  rewrite (proj2 (Nat.ltb_lt (String.length (host +:+ _)) _))
    by (rewrite !string_length_app; cbn [String.length]; rewrite ?string_length_app;
        destruct protocol; [done|cbn [String.length]; lia]).
  apply match_group_run; [done|destruct host; [done|cbn; lia]|done| |].
  - destruct port; cbn [port_text]; [|done]. rewrite append_nil.
    destruct path as [|y path]; [done|]. cbn in Hpath. apply andb_true_iff in Hpath as [Hy _].
    by apply Ascii.eqb_eq in Hy as ->.
  - pose proof (match_port_path port path [(2%nat, host); (1%nat, protocol)] Hport Hpath) as Hm.
    rewrite match_seq in Hm. cbn beta. rewrite Hm. by destruct port.
Qed.

(** The protocol and the host of a URL are found, whether or not it has a port and a
    path.  When the port is asked for, it follows the host without the colon. *)
Theorem URLToHostName_parts protocol host port path
    (Hp0 : protocol ≠ "") (Hp : string_all isalpha protocol = true)
    (Hh0 : host ≠ "") (Hh : string_all host_char host = true)
    (Hport : port_ok port = true) (Hpath : path_ok path = true) :
  let url := url_text protocol host port path in
  URLToProtocol url = protocol ∧
  URLToHostName url false false = Ok host ∧
  URLToHostName url true false = Ok (protocol +:+ "://" +:+ host) ∧
  URLToHostName url false true = Ok (host +:+ port).
Proof.
  cbn zeta. unfold URLToProtocol, URLToHostName. rewrite match_url by done.
  destruct port; cbn [group Nat.eqb default from_option id mbind outcome_bind];
    rewrite ?string_app_nil_r, ?append_nil; split_and!; try done;
    by rewrite ?string_app_nil_r, string_app_assoc.
Qed.

Lemma URLToHostName_parts_witness :
  URLToProtocol "http://localhost:8080/index.html" = "http" ∧
  URLToHostName "http://localhost:8080/index.html" false true = Ok "localhost8080".
Proof.
  destruct (URLToHostName_parts "http" "localhost" "8080" "/index.html") as (H1 & _ & _ & H2);
    [done..|]. by split.
Defined.
