(* ===== verification/SmtpClient.v ===== *)
(** * The SMTP client (protocol/smtp: smtp_module_send.inl, smtp_module_streamer.inl,
      smtp_tools.cpp, smtp_codes.h, smtp_common.h)

    The module that answers the replies of a server with the next command of the
    dialogue, and the streamer that writes the commands. *)
From S2P Require Import Prelude Chars Decimal MessageBlock Regex InetAddr AddressTools.

(** ** Commands, codes and states *)
Inductive SMTP_Command :=
  | SMTP_COMMAND_EHLO
  | SMTP_COMMAND_MAIL
  | SMTP_COMMAND_RCPT
  | SMTP_COMMAND_DATA
  | SMTP_COMMAND_QUIT
  | SMTP_COMMAND_AUTH
  | SMTP_COMMAND_STARTTLS
  | SMTP_COMMAND_DATA_2
  | SMTP_COMMAND_MAX
  | SMTP_COMMAND_INVALID.
#[export] Instance SMTP_Command_eq_dec : EqDecision SMTP_Command.
Proof. solve_decision. Defined.

(** [enum CodeType] is the number of the reply. *)
Definition SMTP_CODE_SERVER_CHALLENGE : Z := 334.
Definition SMTP_CODE_START_MAIL_INPUT : Z := 354.
Definition SMTP_CODE_MAX : Z := 555.
Definition SMTP_CODE_INVALID : Z := 556.

Inductive SMTP_ProtocolState :=
  | SMTP_STATE_GREETING_RECEIVED
  | SMTP_STATE_EHLO_SENT
  | SMTP_STATE_STARTTLS_SENT
  | SMTP_STATE_AUTH_SENT
  | SMTP_STATE_AUTH_LOGIN_USER_SENT
  | SMTP_STATE_AUTH_LOGIN_PASSWORD_SENT
  | SMTP_STATE_AUTH_COMPLETE
  | SMTP_STATE_MAIL_SENT
  | SMTP_STATE_RCPT_SENT
  | SMTP_STATE_RCPTS_SENT
  | SMTP_STATE_DATA_SENT
  | SMTP_STATE_DATA_2_SENT
  | SMTP_STATE_QUIT_SENT
  | SMTP_STATE_MAX
  | SMTP_STATE_INVALID.
#[export] Instance SMTP_ProtocolState_eq_dec : EqDecision SMTP_ProtocolState.
Proof. solve_decision. Defined.

(** [operator++] and [operator--] *)
Definition state_next (x : SMTP_ProtocolState) : outcome SMTP_ProtocolState :=
  match x with
  | SMTP_STATE_MAX => Abort
  | SMTP_STATE_INVALID => Ok SMTP_STATE_GREETING_RECEIVED
  | SMTP_STATE_GREETING_RECEIVED => Ok SMTP_STATE_EHLO_SENT
  | SMTP_STATE_EHLO_SENT => Ok SMTP_STATE_STARTTLS_SENT
  | SMTP_STATE_STARTTLS_SENT => Ok SMTP_STATE_AUTH_SENT
  | SMTP_STATE_AUTH_SENT => Ok SMTP_STATE_AUTH_LOGIN_USER_SENT
  | SMTP_STATE_AUTH_LOGIN_USER_SENT => Ok SMTP_STATE_AUTH_LOGIN_PASSWORD_SENT
  | SMTP_STATE_AUTH_LOGIN_PASSWORD_SENT => Ok SMTP_STATE_AUTH_COMPLETE
  | SMTP_STATE_AUTH_COMPLETE => Ok SMTP_STATE_MAIL_SENT
  | SMTP_STATE_MAIL_SENT => Ok SMTP_STATE_RCPT_SENT
  | SMTP_STATE_RCPT_SENT => Ok SMTP_STATE_RCPTS_SENT
  | SMTP_STATE_RCPTS_SENT => Ok SMTP_STATE_DATA_SENT
  | SMTP_STATE_DATA_SENT => Ok SMTP_STATE_DATA_2_SENT
  | SMTP_STATE_DATA_2_SENT => Ok SMTP_STATE_QUIT_SENT
  | SMTP_STATE_QUIT_SENT => Ok SMTP_STATE_GREETING_RECEIVED
  end.
Definition state_previous (x : SMTP_ProtocolState) : outcome SMTP_ProtocolState :=
  match x with
  | SMTP_STATE_GREETING_RECEIVED | SMTP_STATE_MAX | SMTP_STATE_INVALID => Abort
  | SMTP_STATE_EHLO_SENT => Ok SMTP_STATE_GREETING_RECEIVED
  | SMTP_STATE_STARTTLS_SENT => Ok SMTP_STATE_EHLO_SENT
  | SMTP_STATE_AUTH_SENT => Ok SMTP_STATE_STARTTLS_SENT
  | SMTP_STATE_AUTH_LOGIN_USER_SENT => Ok SMTP_STATE_AUTH_SENT
  | SMTP_STATE_AUTH_LOGIN_PASSWORD_SENT => Ok SMTP_STATE_AUTH_LOGIN_USER_SENT
  | SMTP_STATE_AUTH_COMPLETE => Ok SMTP_STATE_AUTH_LOGIN_PASSWORD_SENT
  | SMTP_STATE_MAIL_SENT => Ok SMTP_STATE_AUTH_COMPLETE
  | SMTP_STATE_RCPT_SENT => Ok SMTP_STATE_MAIL_SENT
  | SMTP_STATE_RCPTS_SENT => Ok SMTP_STATE_RCPT_SENT
  | SMTP_STATE_DATA_SENT => Ok SMTP_STATE_RCPTS_SENT
  | SMTP_STATE_DATA_2_SENT => Ok SMTP_STATE_DATA_SENT
  | SMTP_STATE_QUIT_SENT => Ok SMTP_STATE_DATA_2_SENT
  end.

Definition isSuccess (code_in : Z) : bool := (200 <=? code_in) && (code_in <? 300).

Definition CodeToString (code_in : Z) : string :=
  switch code_in
    [(211, "SYSTEM_STATUS_HELP_REPLY"); (214, "HELP_MESSAGE"); (220, "SERVICE_READY");
     (221, "SERVICE_CLOSING_CHANNEL"); (235, "AUTHENTICATION_SUCCEEDED");
     (250, "MAIL_COMPLETE"); (251, "USER_NOT_LOCAL_WILL_FORWARD");
     (252, "CANNOT_VRFY_USER_WILL_CONTINUE"); (334, "SERVER_CHALLENGE");
     (354, "START_MAIL_INPUT"); (421, "SERVICE_NOT_AVAILABLE_CLOSING_CHANNEL");
     (432, "PASSWORD_TRANSITION_NEEDED"); (450, "MAILBOX_NOT_AVAILABLE");
     (451, "PROCESSING_ERROR_ABORTED"); (452, "PROCESSING_ERROR_SYSTEM_STORAGE");
     (454, "TEMPORARY_AUTHENTICATION_FAILURE"); (500, "SYNTAX_COMMAND");
     (501, "SYNTAX_ARGUMENT"); (502, "COMMAND_NOT_IMPLEMENTED");
     (503, "COMMAND_BAD_SEQUENCE"); (504, "COMMAND_ARGUMENT_NOT_IMPLEMENTED");
     (521, "HOST_DOES_NOT_ACCEPT_MAIL"); (530, "AUTHENTICATION_REQUIRED");
     (534, "AUTHENTICATION_MECHANISM_TOO_WEAK");
     (535, "AUTHENTICATION_CREDENTIALS_INVALID");
     (538, "ENCRYPTION_REQUIRED_FOR_AUTHENTICATION_MECHANISM");
     (550, "MAILBOX_UNAVAILABLE"); (551, "USER_NOT_LOCAL_TRY_FORWARD");
     (552, "EXCEEDED_SYSTEM_STORAGE"); (553, "MAILBOX_NAME_NOT_ALLOWED");
     (554, "TRANSACTION_FAILED")]
    "INVALID/UNKNOWN".

Definition CommandToString (command_in : SMTP_Command) : string :=
  switch command_in
    [(SMTP_COMMAND_EHLO, "EHLO"); (SMTP_COMMAND_MAIL, "MAIL"); (SMTP_COMMAND_RCPT, "RCPT");
     (SMTP_COMMAND_DATA, "DATA"); (SMTP_COMMAND_QUIT, "QUIT"); (SMTP_COMMAND_AUTH, "AUTH");
     (SMTP_COMMAND_STARTTLS, "STARTTLS"); (SMTP_COMMAND_DATA_2, "DATA_2")]
    "INVALID/UNKNOWN".

(** STARTTLS_SENT has no case *)
Definition StateToString (state_in : SMTP_ProtocolState) : string :=
  switch state_in
    [(SMTP_STATE_GREETING_RECEIVED, "GREETING_RECEIVED");
     (SMTP_STATE_EHLO_SENT, "EHLO_SENT"); (SMTP_STATE_AUTH_SENT, "AUTH_SENT");
     (SMTP_STATE_AUTH_LOGIN_USER_SENT, "AUTH_LOGIN_USER_SENT");
     (SMTP_STATE_AUTH_LOGIN_PASSWORD_SENT, "AUTH_LOGIN_PASSWORD_SENT");
     (SMTP_STATE_AUTH_COMPLETE, "AUTH_COMPLETE"); (SMTP_STATE_MAIL_SENT, "MAIL_SENT");
     (SMTP_STATE_RCPT_SENT, "RCPT_SENT"); (SMTP_STATE_RCPTS_SENT, "RCPTS_SENT");
     (SMTP_STATE_DATA_SENT, "DATA_SENT"); (SMTP_STATE_DATA_2_SENT, "DATA_2_SENT");
     (SMTP_STATE_QUIT_SENT, "QUIT_SENT")]
    "INVALID/UNKNOWN".

(** ** Records *)
Record SMTP_Request (A : Type) := MkSmtpRequest {
  command : SMTP_Command;
  domain : A;
  useSTARTTLS : bool;
  from : string;
  parameters : list string;
  to : list string;
  subject : string;
  mail : string
}.
Arguments MkSmtpRequest {A}.
Arguments command {A} s.
Arguments domain {A} s.
Arguments useSTARTTLS {A} s.
Arguments from {A} s.
Arguments parameters {A} s.
Arguments to {A} s.
Arguments subject {A} s.
Arguments mail {A} s.

(** what is used of a record that has been received *)
Record SMTP_Reply := Reply { reply_code : Z; reply_text : list string }.

Definition SMTP_dump (record_in : SMTP_Reply) : string :=
  "code: " +:+ String "009" "" +:+ CodeToString (reply_code record_in) +:+ " (" +:+
  pretty (reply_code record_in) +:+ ")" +:+ eol +:+ "text: (" +:+
  pretty (zlen (reply_text record_in)) +:+ "):" +:+ eol +:+
  foldr (λ t s, t +:+ eol +:+ s) "text /END" (reply_text record_in).

(** [std::getline (stream, word, ' ')] until the end of the stream *)
Fixpoint split_words (s : string) : list string :=
  match s with
  | "" => [""]
  | String c s' =>
      if Ascii.eqb c " " then "" :: split_words s'
      else match split_words s' with
           | [] => [String c ""]
           | w :: ws => String c w :: ws
           end
  end.

(** the loop over the lines of the reply: the mechanisms of the first that begins with
    "AUTH " *)
Fixpoint authentication_mechanisms (text : list string) : list string :=
  match text with
  | [] => []
  | t :: text' =>
      if String.prefix "AUTH " t
      then split_words (String.substring 5 (String.length t - 5) t)
      else authentication_mechanisms text'
  end.

(** ** The module *)
Section Send.
Context {A : Type} `{InetAddr A}.
(** [ACE_INET_Addr (0, ACE_LOCALHOST, AF_INET)] *)
Variable localhost : A.
Variable encodeBase64 : string → string.

Definition new_request : SMTP_Request A :=
  MkSmtpRequest SMTP_COMMAND_INVALID localhost false "" [] [] "" "".

(** the configuration: [protocolConfiguration] and [request] *)
Record smtp_configuration := SmtpConfiguration {
  cfg_domain : A;
  username : string;
  password : string;
  request : SMTP_Request A
}.
Variable configuration_ : smtp_configuration.

(** the state of the module, and [protocolState] of the connection *)
Record sender := Sender {
  protocolState : SMTP_ProtocolState;
  recipients_ : list string;
  STARTTLSSent_ : bool
}.
Definition sender_init : sender := Sender SMTP_STATE_INVALID [] false.

Implicit Types (s : sender) (r : SMTP_Reply).

Definition set_state (x : SMTP_ProtocolState) s : sender :=
  Sender x (recipients_ s) (STARTTLSSent_ s).

Definition mail_request : SMTP_Request A :=
  MkSmtpRequest SMTP_COMMAND_MAIL localhost false (from (request configuration_))
    (parameters (request configuration_)) [] "" "".
Definition rcpt_request (recipient : string) : SMTP_Request A :=
  MkSmtpRequest SMTP_COMMAND_RCPT localhost false ""
    (parameters (request configuration_)) [recipient] "" "".
Definition auth_request (parameters : list string) : SMTP_Request A :=
  MkSmtpRequest SMTP_COMMAND_AUTH localhost false "" parameters [] "" "".
Definition plain_request (c : SMTP_Command) : SMTP_Request A :=
  MkSmtpRequest c localhost false "" [] [] "" "".
Definition ehlo_request : SMTP_Request A :=
  MkSmtpRequest SMTP_COMMAND_EHLO (cfg_domain configuration_) false "" [] [] "" "".
Definition message_request : SMTP_Request A :=
  MkSmtpRequest SMTP_COMMAND_DATA_2 localhost false (from (request configuration_)) []
    (to (request configuration_)) "" (mail (request configuration_)).

(** The label [send]: [sent] tells whether the message could be allocated and replied;
    if not, the state is decremented. *)
Definition send (sent : bool) s (q : SMTP_Request A) :
    outcome (sender * option (SMTP_Request A)) :=
  if sent then Ok (s, Some q)
  else x ← state_previous (protocolState s); Ok (set_state x s, None).

(** the label [protocol_error] *)
Definition protocol_error (sent : bool) s : outcome (sender * option (SMTP_Request A)) :=
  send sent s (plain_request SMTP_COMMAND_QUIT).

(** the label [send_ehlo] *)
Definition send_ehlo (sent : bool) s : outcome (sender * option (SMTP_Request A)) :=
  send sent s ehlo_request.

(** a case of the switch that goes to [protocol_error] unless [accepted], and to the next
    state otherwise *)
Definition advance (accepted sent : bool) s (q : SMTP_Request A) :
    outcome (sender * option (SMTP_Request A)) :=
  if negb accepted then protocol_error sent s
  else x ← state_next (protocolState s); send sent (set_state x s) q.

Definition on_greeting r (sent : bool) s : outcome (sender * option (SMTP_Request A)) :=
  if negb (isSuccess (reply_code r)) then protocol_error sent s
  else
    x ← state_next SMTP_STATE_GREETING_RECEIVED;
    send_ehlo sent (set_state x s).

Definition on_ehlo r (sent : bool) s : outcome (sender * option (SMTP_Request A)) :=
  if negb (isSuccess (reply_code r)) then protocol_error sent s
  else
    x ← state_next (protocolState s);
    if useSTARTTLS (request configuration_) && negb (STARTTLSSent_ s) then
      send sent (Sender x (recipients_ s) true) (plain_request SMTP_COMMAND_STARTTLS)
    else
      x ← state_next x;
      if bool_decide ("LOGIN" ∈ authentication_mechanisms (reply_text r))
      then send sent (set_state x s) (auth_request [])
      else send sent (set_state SMTP_STATE_MAIL_SENT s) mail_request.

Definition on_starttls r (sent : bool) s : outcome (sender * option (SMTP_Request A)) :=
  if negb (isSuccess (reply_code r)) then protocol_error sent s
  else send_ehlo sent (set_state SMTP_STATE_EHLO_SENT s).

Definition on_password r (sent : bool) s : outcome (sender * option (SMTP_Request A)) :=
  if negb (isSuccess (reply_code r)) then protocol_error sent s
  else
    x ← state_next (protocolState s);
    x ← state_next x;
    send sent (set_state x s) mail_request.

Definition on_mail r (sent : bool) s : outcome (sender * option (SMTP_Request A)) :=
  if negb (isSuccess (reply_code r)) then protocol_error sent s
  else
    x ← state_next (protocolState s);
    match to (request configuration_) with
    | [] => Abort
    | recipient :: recipients =>
        send sent (Sender x recipients (STARTTLSSent_ s)) (rcpt_request recipient)
    end.

(** the case of RCPTS_SENT, to which [continue_] leads *)
Definition on_recipients (sent : bool) s : outcome (sender * option (SMTP_Request A)) :=
  x ← state_next (protocolState s);
  send sent (set_state x s) (plain_request SMTP_COMMAND_DATA).

Definition on_recipient r (sent : bool) s : outcome (sender * option (SMTP_Request A)) :=
  if negb (isSuccess (reply_code r)) then protocol_error sent s
  else
    match recipients_ s with
    | [] => x ← state_next (protocolState s); on_recipients sent (set_state x s)
    | recipient :: recipients =>
        send sent (Sender (protocolState s) recipients (STARTTLSSent_ s))
          (rcpt_request recipient)
    end.

Definition on_quit r (sent : bool) s : outcome (sender * option (SMTP_Request A)) :=
  if negb (isSuccess (reply_code r)) then protocol_error sent s
  else Ok (set_state SMTP_STATE_INVALID s, None).

Definition handleDataMessage r (sent : bool) s :
    outcome (sender * option (SMTP_Request A)) :=
  match protocolState s with
  | SMTP_STATE_INVALID | SMTP_STATE_GREETING_RECEIVED => on_greeting r sent s
  | SMTP_STATE_EHLO_SENT => on_ehlo r sent s
  | SMTP_STATE_STARTTLS_SENT => on_starttls r sent s
  | SMTP_STATE_AUTH_SENT =>
      advance (reply_code r =? SMTP_CODE_SERVER_CHALLENGE) sent s
        (auth_request [encodeBase64 (username configuration_)])
  | SMTP_STATE_AUTH_LOGIN_USER_SENT =>
      advance (reply_code r =? SMTP_CODE_SERVER_CHALLENGE) sent s
        (auth_request [encodeBase64 (password configuration_)])
  | SMTP_STATE_AUTH_LOGIN_PASSWORD_SENT => on_password r sent s
  | SMTP_STATE_MAIL_SENT => on_mail r sent s
  | SMTP_STATE_RCPT_SENT => on_recipient r sent s
  | SMTP_STATE_RCPTS_SENT => on_recipients sent s
  | SMTP_STATE_DATA_SENT =>
      advance (reply_code r =? SMTP_CODE_START_MAIL_INPUT) sent s message_request
  | SMTP_STATE_DATA_2_SENT =>
      advance (isSuccess (reply_code r)) sent s (plain_request SMTP_COMMAND_QUIT)
  | SMTP_STATE_QUIT_SENT => on_quit r sent s
  | _ => Ok (s, None)
  end.

(** the replies of a server, and whether each could be answered: the commands sent *)
Fixpoint run (rs : list (SMTP_Reply * bool)) s : outcome (sender * list (SMTP_Request A)) :=
  match rs with
  | [] => Ok (s, [])
  | (r, sent) :: rs' =>
      '(s, q) ← handleDataMessage r sent s;
      '(s, qs) ← run rs' s;
      Ok (s, option_list q ++ qs)
  end.
End Send.

Arguments smtp_configuration A : clear implicits.
Arguments SmtpConfiguration {A}.
Arguments cfg_domain {A} s.
Arguments username {A} s.
Arguments password {A} s.
Arguments request {A} s.

(** ** The streamer *)

Definition end_sequence : string := crlf +:+ "." +:+ crlf.

(** [std::string::find (s, pos)] *)
Definition npos : Z := 2 ^ 64 - 1.
Definition find_from (pos : Z) (pattern s : string) : option nat :=
  if Z.of_nat (String.length s) <? pos then None
  else String.index (Z.to_nat pos) pattern s.

Section Streamer.
Context {A B : Type} `{InetAddr A} `{WritableBlock B}.
(** [std::strftime ()] of the local time *)
Variable getHeaderDateString : string.

Definition message_header (q : SMTP_Request A) : outcome string :=
  recipient ← deref (head (to q));
  Ok ("From: " +:+ quote +:+ quote +:+ " <" +:+ from q +:+ ">" +:+ crlf +:+
      "To: " +:+ quote +:+ quote +:+ " <" +:+ recipient +:+ ">" +:+ crlf +:+
      "Date: " +:+ getHeaderDateString +:+ crlf +:+
      (match subject q with "" => "" | _ => "Subject: " +:+ subject q +:+ crlf end) +:+
      crlf).

(** the data, cropped at the end sequence that is found from [npos] on *)
Definition crop (d : string) : string :=
  match find_from npos end_sequence d with
  | Some position => String.substring 0 position d
  | None => d
  end.

(** the strings that are copied for a command, [None] for one that is not known *)
Definition request_text (q : SMTP_Request A) : outcome (option (list string)) :=
  match command q with
  | SMTP_COMMAND_EHLO =>
      a ← IPAddressToString (domain q) true false;
      Ok (Some ["EHLO [" +:+ a +:+ "]" +:+ crlf])
  | SMTP_COMMAND_STARTTLS => Ok (Some ["STARTTLS" +:+ crlf])
  | SMTP_COMMAND_MAIL => Ok (Some ["MAIL FROM:<" +:+ from q +:+ ">" +:+ crlf])
  | SMTP_COMMAND_RCPT =>
      match to q with
      | [] => Abort
      | recipient :: _ => Ok (Some ["RCPT TO:<" +:+ recipient +:+ ">" +:+ crlf])
      end
  | SMTP_COMMAND_DATA => Ok (Some ["DATA" +:+ crlf])
  | SMTP_COMMAND_QUIT => Ok (Some ["QUIT" +:+ crlf])
  | SMTP_COMMAND_AUTH =>
      match parameters q with
      | [] => Ok (Some ["AUTH LOGIN" +:+ crlf])
      | p :: _ => Ok (Some [p; crlf])
      end
  | SMTP_COMMAND_DATA_2 =>
      h ← message_header q;
      Ok (Some [h +:+ crop (mail q) +:+ end_sequence])
  | _ => Ok None
  end.

(** The message is passed on in any case; a copy that fails ends the writing. *)
Definition stream_request (q : SMTP_Request A) (message_inout : B) : outcome B :=
  t ← request_text q;
  match t with
  | None => Ok message_inout
  | Some ts => Ok (copy_all (string_bytes <$> ts) message_inout).1
  end.
End Streamer.

(** ** The dialogue of RFC 5321

    The commands that deliver a mail, with TLS and authentication or without, and the
    replies with which a server accepts them. *)
Section Dialogue.
Context {A : Type}.
Context (localhost : A) (encodeBase64 : string → string) (c : smtp_configuration A).

Definition exchange : Type := SMTP_Request A * (SMTP_Reply → bool).
Definition succeeds (r : SMTP_Reply) : bool := isSuccess (reply_code r).
Definition challenges (r : SMTP_Reply) : bool := reply_code r =? SMTP_CODE_SERVER_CHALLENGE.
Definition starts_input (r : SMTP_Reply) : bool := reply_code r =? SMTP_CODE_START_MAIL_INPUT.
(** the reply to EHLO tells whether the server has AUTH LOGIN *)
Definition offers (login : bool) (r : SMTP_Reply) : bool :=
  succeeds r && Bool.eqb login (bool_decide ("LOGIN" ∈ authentication_mechanisms (reply_text r))).

Definition tls_dialogue : list exchange :=
  [(ehlo_request c, succeeds);
   (plain_request localhost SMTP_COMMAND_STARTTLS, succeeds)].
Definition login_dialogue : list exchange :=
  [(auth_request localhost [], challenges);
   (auth_request localhost [encodeBase64 (username c)], challenges);
   (auth_request localhost [encodeBase64 (password c)], succeeds)].
Definition mail_dialogue : list exchange :=
  (mail_request localhost c, succeeds) ::
  ((λ t, (rcpt_request localhost c t, succeeds)) <$> to (request c)) ++
  [(plain_request localhost SMTP_COMMAND_DATA, starts_input);
   (message_request localhost c, succeeds);
   (plain_request localhost SMTP_COMMAND_QUIT, succeeds)].
Definition dialogue (login : bool) : list exchange :=
  (if useSTARTTLS (request c) then tls_dialogue else []) ++
  [(ehlo_request c, offers login)] ++
  (if login then login_dialogue else []) ++ mail_dialogue.
End Dialogue.

(** ** Runs *)
Section Runs.
Context {A : Type} `{InetAddr A}.
Context (localhost : A) (encodeBase64 : string → string) (c : smtp_configuration A).
Implicit Types (s : sender) (r : SMTP_Reply) (q : SMTP_Request A).

Notation handle := (handleDataMessage localhost encodeBase64 c).
Notation run := (run localhost encodeBase64 c).
(** every reply can be answered *)
Definition answered (rs : list SMTP_Reply) : list (SMTP_Reply * bool) :=
  (λ r, (r, true)) <$> rs.

Lemma smtp_run_cons r sent rs s :
  run ((r, sent) :: rs) s =
  ('(s', q) ← handle r sent s; '(s'', qs) ← run rs s'; Ok (s'', option_list q ++ qs)).
Proof. done. Qed.

(** one reply that is answered *)
Lemma smtp_run_step r s s' q rs s'' qs :
  handle r true s = Ok (s', Some q) → run (answered rs) s' = Ok (s'', qs) →
  run (answered (r :: rs)) s = Ok (s'', q :: qs).
Proof.
  intros Hh Hr. change (answered (r :: rs)) with ((r, true) :: answered rs).
  rewrite smtp_run_cons, Hh. cbn [mbind outcome_bind]. by rewrite Hr.
Qed.

Lemma run_quiet r s s' rs s'' qs :
  handle r true s = Ok (s', None) → run (answered rs) s' = Ok (s'', qs) →
  run (answered (r :: rs)) s = Ok (s'', qs).
Proof.
  intros Hh Hr. change (answered (r :: rs)) with ((r, true) :: answered rs).
  rewrite smtp_run_cons, Hh. cbn [mbind outcome_bind]. by rewrite Hr.
Qed.

(** *** A server that accepts everything *)
Notation accepted := (Forall2 (λ (e : exchange (A:=A)) r, e.2 r = true)).

(** The commands that are left, after the first of a dialogue has been sent. *)
Definition sends_rest s (es : list (exchange (A:=A))) (s' : sender) : Prop :=
  ∀ rs, accepted es rs → run (answered rs) s = Ok (s', tail es.*1).

Lemma sends_step s s1 s' e1 e2 es :
  (∀ r, e1.2 r = true → handle r true s = Ok (s1, Some e2.1)) →
  sends_rest s1 (e2 :: es) s' → sends_rest s (e1 :: e2 :: es) s'.
Proof.
  intros Hh Hr rs Hrs. inversion Hrs as [|? r ? rs' H1 Hrest]; subst.
  cbn [fmap list_fmap tail]. apply (smtp_run_step _ _ s1); [by apply Hh|].
  rewrite (Hr _ Hrest). done.
Qed.

Lemma sends_quit l tls :
  sends_rest (Sender SMTP_STATE_QUIT_SENT l tls)
    [(plain_request localhost SMTP_COMMAND_QUIT, succeeds)] (Sender SMTP_STATE_INVALID l tls).
Proof.
  intros rs Hrs. inversion Hrs as [|? r ? rs' H1 Hrest]; subst. inversion Hrest; subst.
  apply (run_quiet _ _ (Sender SMTP_STATE_INVALID l tls)); [|done].
  cbn in *. unfold on_quit. unfold succeeds in H1. by rewrite H1.
Qed.

Lemma sends_data tls :
  sends_rest (Sender SMTP_STATE_DATA_SENT [] tls)
    [(plain_request localhost SMTP_COMMAND_DATA, starts_input);
     (message_request localhost c, succeeds);
     (plain_request localhost SMTP_COMMAND_QUIT, succeeds)] (Sender SMTP_STATE_INVALID [] tls).
Proof.
  eapply (sends_step _ (Sender SMTP_STATE_DATA_2_SENT [] tls)).
  { intros r Hr. cbn in *. unfold starts_input in Hr. unfold advance. by rewrite Hr. }
  eapply (sends_step _ (Sender SMTP_STATE_QUIT_SENT [] tls)); [|apply sends_quit].
  intros r Hr. cbn in *. unfold succeeds in Hr. unfold advance. by rewrite Hr.
Qed.

Lemma sends_recipients tls ts : ∀ t,
  sends_rest (Sender SMTP_STATE_RCPT_SENT ts tls)
    (((λ t, (rcpt_request localhost c t, succeeds)) <$> t :: ts) ++
     [(plain_request localhost SMTP_COMMAND_DATA, starts_input);
      (message_request localhost c, succeeds);
      (plain_request localhost SMTP_COMMAND_QUIT, succeeds)])
    (Sender SMTP_STATE_INVALID [] tls).
Proof.
  induction ts as [|t' ts IH]; intros t.
  - eapply (sends_step _ (Sender SMTP_STATE_DATA_SENT [] tls)); [|apply sends_data].
    intros r Hr. cbn in *. unfold on_recipient. unfold succeeds in Hr. by rewrite Hr.
  - eapply (sends_step _ (Sender SMTP_STATE_RCPT_SENT ts tls)); [|apply IH].
    intros r Hr. cbn in *. unfold on_recipient. unfold succeeds in Hr. by rewrite Hr.
Qed.

Lemma sends_mail l tls : to (request c) ≠ [] →
  sends_rest (Sender SMTP_STATE_MAIL_SENT l tls) (mail_dialogue localhost c)
    (Sender SMTP_STATE_INVALID [] tls).
Proof.
  intros Hto. unfold mail_dialogue. destruct (to (request c)) as [|t ts] eqn:E; [done|].
  eapply (sends_step _ (Sender SMTP_STATE_RCPT_SENT ts tls)); [|apply sends_recipients].
  intros r Hr. cbn in *. unfold on_mail. unfold succeeds in Hr. by rewrite Hr, E.
Qed.

Lemma sends_login l tls : to (request c) ≠ [] →
  sends_rest (Sender SMTP_STATE_AUTH_SENT l tls)
    (login_dialogue localhost encodeBase64 c ++ mail_dialogue localhost c)
    (Sender SMTP_STATE_INVALID [] tls).
Proof.
  intros Hto. unfold login_dialogue. cbn [app].
  eapply (sends_step _ (Sender SMTP_STATE_AUTH_LOGIN_USER_SENT l tls)).
  { intros r Hr. cbn in *. unfold challenges in Hr. unfold advance. by rewrite Hr. }
  eapply (sends_step _ (Sender SMTP_STATE_AUTH_LOGIN_PASSWORD_SENT l tls)).
  { intros r Hr. cbn in *. unfold challenges in Hr. unfold advance. by rewrite Hr. }
  eapply (sends_step _ (Sender SMTP_STATE_MAIL_SENT l tls)); [|by apply sends_mail].
  intros r Hr. cbn in *. unfold succeeds in Hr. unfold on_password. by rewrite Hr.
Qed.

Lemma sends_ehlo login l tls : to (request c) ≠ [] →
  (useSTARTTLS (request c) = true → tls = true) →
  sends_rest (Sender SMTP_STATE_EHLO_SENT l tls)
    ([(ehlo_request c, offers login)] ++
     (if login then login_dialogue localhost encodeBase64 c else []) ++
     mail_dialogue localhost c)
    (Sender SMTP_STATE_INVALID [] tls).
Proof.
  intros Hto Htls.
  assert (Hu : useSTARTTLS (request c) && negb tls = false).
  { destruct (useSTARTTLS (request c)); [|done]. by rewrite Htls. }
  assert (Hh : ∀ r, offers login r = true → isSuccess (reply_code r) = true ∧
    bool_decide ("LOGIN" ∈ authentication_mechanisms (reply_text r)) = login).
  { intros r [Hs Hl]%andb_true_iff. apply Bool.eqb_prop in Hl. done. }
  destruct login; cbn [app].
  - eapply (sends_step _ (Sender SMTP_STATE_AUTH_SENT l tls)); [|by apply sends_login].
    intros r [Hs Hl]%Hh. cbn. unfold on_ehlo. rewrite Hs. cbn. by rewrite Hu, Hl.
  - eapply (sends_step _ (Sender SMTP_STATE_MAIL_SENT l tls)); [|by apply sends_mail].
    intros r [Hs Hl]%Hh. cbn. unfold on_ehlo. rewrite Hs. cbn. by rewrite Hu, Hl.
Qed.

Lemma dialogue_first login : ∃ es,
  (dialogue localhost encodeBase64 c login).*1 = ehlo_request c :: es.
Proof. unfold dialogue, tls_dialogue. destruct (useSTARTTLS _); cbn; eauto. Qed.

Lemma sends_dialogue login : to (request c) ≠ [] →
  sends_rest (Sender SMTP_STATE_EHLO_SENT [] false) (dialogue localhost encodeBase64 c login)
    (Sender SMTP_STATE_INVALID [] (useSTARTTLS (request c))).
Proof.
  intros Hto. unfold dialogue. destruct (useSTARTTLS (request c)) eqn:Htls.
  - eapply (sends_step _ (Sender SMTP_STATE_STARTTLS_SENT [] true)).
    { intros r Hr. cbn in *. unfold on_ehlo. unfold succeeds in Hr. rewrite Hr. cbn. by rewrite Htls. }
    eapply (sends_step _ (Sender SMTP_STATE_EHLO_SENT [] true)); [|by apply sends_ehlo].
    intros r Hr. cbn in *. unfold on_starttls. unfold succeeds in Hr. by rewrite Hr.
  - apply sends_ehlo; [done|by rewrite Htls].
Qed.

(** A mail is delivered.  When the server accepts each command, the client sends
    exactly the commands of the dialogue, in order: EHLO, with TLS STARTTLS and EHLO again,
    the login if the server offers it, MAIL, one RCPT for each recipient, DATA, the
    message and QUIT; and it is back in its initial state. *)
Lemma smtp_delivers login g rs
    (Hto : to (request c) ≠ []) (Hg : isSuccess (reply_code g) = true)
    (Hrs : accepted (dialogue localhost encodeBase64 c login) rs) :
  run (answered (g :: rs)) sender_init =
    Ok (Sender SMTP_STATE_INVALID [] (useSTARTTLS (request c)),
        (dialogue localhost encodeBase64 c login).*1).
Proof.
  destruct (dialogue_first login) as [es He].
  pose proof (sends_dialogue login Hto rs Hrs) as Hs. rewrite He in *.
  apply (smtp_run_step g _ (Sender SMTP_STATE_EHLO_SENT [] false)); [|done].
  cbn. unfold on_greeting. by rewrite Hg.
Qed.

(** *** Any server

    The commands but QUIT. *)
Definition progress (qs : list (SMTP_Request A)) : list (SMTP_Request A) :=
  filter (λ q, command q ≠ SMTP_COMMAND_QUIT) qs.
Definition announced (ts : list string) : list (SMTP_Request A) :=
  mail_request localhost c :: (rcpt_request localhost c <$> ts).

(** what has been sent, in the states of a mail *)
Definition sent_before s (os : list (SMTP_Request A)) : Prop :=
  match protocolState s with
  | SMTP_STATE_MAIL_SENT => ∃ pre, os = pre ++ announced []
  | SMTP_STATE_RCPT_SENT => ∃ pre done,
      os = pre ++ announced done ∧ done ++ recipients_ s = to (request c)
  | SMTP_STATE_RCPTS_SENT => False
  | SMTP_STATE_DATA_SENT => ∃ pre,
      os = pre ++ announced (to (request c)) ++ [plain_request localhost SMTP_COMMAND_DATA]
  | _ => True
  end.

Lemma protocol_error_Ok s s' o :
  protocol_error localhost true s = Ok (s', o) →
  s' = s ∧ o = Some (plain_request localhost SMTP_COMMAND_QUIT).
Proof. by intros [= <- <-]. Qed.

(** a command that is refused *)
Definition rejects s r : bool :=
  match protocolState s with
  | SMTP_STATE_AUTH_SENT | SMTP_STATE_AUTH_LOGIN_USER_SENT =>
      negb (reply_code r =? SMTP_CODE_SERVER_CHALLENGE)
  | SMTP_STATE_DATA_SENT => negb (reply_code r =? SMTP_CODE_START_MAIL_INPUT)
  | SMTP_STATE_AUTH_COMPLETE | SMTP_STATE_RCPTS_SENT | SMTP_STATE_MAX => false
  | _ => negb (isSuccess (reply_code r))
  end.

Lemma handle_rejected s r sent : rejects s r = true → handle r sent s = protocol_error localhost sent s.
Proof.
  unfold rejects, handleDataMessage. intros Hr.
  destruct (protocolState s) eqn:E; try done;
    unfold on_greeting, on_ehlo, on_starttls, advance, on_password, on_mail, on_recipient, on_quit;
    by rewrite Hr.
Qed.

Lemma sent_before_step s os r s' o :
  sent_before s os → handle r true s = Ok (s', o) →
  sent_before s' (os ++ progress (option_list o)).
Proof.
  intros Hs Hh. destruct (rejects s r) eqn:Hr.
  { rewrite (handle_rejected _ _ _ Hr) in Hh. apply protocol_error_Ok in Hh as [-> ->].
    by rewrite app_nil_r. }
  unfold handleDataMessage in Hh. unfold rejects in Hr. unfold sent_before in Hs.
  destruct s as [x l tls]; cbn in Hs, Hh, Hr. destruct x; cbn in Hr, Hh.
  all: unfold on_greeting, on_ehlo, on_starttls, advance, on_password, on_mail, on_recipient,
    on_recipients, on_quit in Hh; cbn in Hh; rewrite ?Hr in Hh; cbn in Hh.
  all: try (simplify_eq; done).
  - destruct (_ && _); [by simplify_eq|]. destruct (bool_decide _); simplify_eq; [done|].
    exists os. done.
  - simplify_eq. by exists os.
  - destruct (to (request c)) as [|t ts] eqn:E; [done|]. simplify_eq. destruct Hs as [pre ->].
    exists pre, [t]. split; [|done]. unfold announced. by rewrite <- app_assoc.
  - destruct Hs as (pre & done_ & -> & Hl). destruct l as [|t ts]; simplify_eq.
    + exists pre. rewrite app_nil_r in Hl. subst. by rewrite <- app_assoc.
    + exists pre, (done_ ++ [t]). split; [|by rewrite <- app_assoc].
      unfold announced. by rewrite fmap_app, <- app_assoc.
Qed.

Lemma run_sent_before rs : ∀ s os s' qs,
  sent_before s os → run (answered rs) s = Ok (s', qs) → sent_before s' (os ++ progress qs).
Proof.
  induction rs as [|r rs IH]; intros s os s' qs Hs.
  - intros [= <- <-]. by rewrite app_nil_r.
  - change (answered (r :: rs)) with ((r, true) :: answered rs). rewrite smtp_run_cons.
    intros ([s1 q] & Hh & ([s2 qs2] & Hr & [= <- <-])%bind_Ok)%bind_Ok.
    unfold progress. rewrite filter_app, app_assoc. eapply IH; [|exact Hr].
    by apply (sent_before_step s os r).
Qed.

Lemma answered_all rs : Forall (λ p, p.2 = true) rs → rs = answered rs.*1.
Proof.
  induction 1 as [|[r b] rs Hb _ IH]; [done|]. cbn in Hb. subst b. cbn. f_equal. exact IH.
Qed.

(** C14: whatever the server replies, and whichever commands cannot be sent, the message is
    sent only in answer to a reply 354, and it is the configured one.  As long as every
    command before it could be sent (Forall: sent flag set), the commands before it,
    leaving out QUIT, end with MAIL, one RCPT for each recipient in order, and DATA; when
    a command could not be sent, they need not (failed_send_repeats: the state is
    decremented, and recipients are announced again). *)
Theorem message_sent_last rs s qs r s' q
    (Hrun : run rs sender_init = Ok (s, qs))
    (Hh : handle r true s = Ok (s', Some q))
    (Hq : command q = SMTP_COMMAND_DATA_2) :
  reply_code r = SMTP_CODE_START_MAIL_INPUT ∧ q = message_request localhost c ∧
  (Forall (λ p, p.2 = true) rs →
   ∃ pre, progress qs =
     pre ++ announced (to (request c)) ++ [plain_request localhost SMTP_COMMAND_DATA]).
Proof.
  assert (Hs : Forall (λ p, p.2 = true) rs → sent_before s (progress qs)).
  { intros Hrs%answered_all. rewrite Hrs in Hrun.
    exact (run_sent_before rs.*1 sender_init [] s qs I Hrun). }
  destruct (rejects s r) eqn:Hr.
  { rewrite (handle_rejected _ _ _ Hr) in Hh. by apply protocol_error_Ok in Hh as [_ [= ->]]. }
  unfold handleDataMessage in Hh. unfold rejects in Hr. unfold sent_before in Hs.
  destruct s as [x l tls]; cbn in Hs, Hh, Hr. destruct x; cbn in Hr, Hh.
  all: unfold on_greeting, on_ehlo, on_starttls, advance, on_password, on_mail, on_recipient,
    on_recipients, on_quit in Hh; cbn in Hh; rewrite ?Hr in Hh; cbn in Hh.
  all: repeat match type of Hh with
    | context [if ?b then _ else _] => destruct b
    | context [match ?ts with [] => _ | _ => _ end] => destruct ts
    end; simplify_eq; try done.
  apply negb_false_iff, Z.eqb_eq in Hr. by split_and!.
Qed.

(** A refused command is forgotten.  The client sends QUIT but stays in its state, so
    that the replies that follow, the first of which is that to QUIT, are taken for
    replies to the command that has been refused. *)
Theorem refusal_forgotten s r rs (Hr : rejects s r = true) :
  run (answered (r :: rs)) s =
    ('(s', qs) ← run (answered rs) s; Ok (s', plain_request localhost SMTP_COMMAND_QUIT :: qs)).
Proof.
  change (answered (r :: rs)) with ((r, true) :: answered rs).
  by rewrite smtp_run_cons, (handle_rejected _ _ _ Hr).
Qed.

(** TLS can be downgraded.  With TLS configured, a server (or somebody in between) that
    refuses STARTTLS, accepts the QUIT and goes on as if nothing had happened gets the
    user name and the password on the connection that is not encrypted. *)
Theorem starttls_downgrade greeting ehlo refusal quit ehlo2 challenge1 challenge2
    (Htls : useSTARTTLS (request c) = true)
    (Hg : isSuccess (reply_code greeting) = true) (He : isSuccess (reply_code ehlo) = true)
    (Hrefusal : isSuccess (reply_code refusal) = false)
    (Hq : isSuccess (reply_code quit) = true) (He2 : offers true ehlo2 = true)
    (Hc1 : challenges challenge1 = true) (Hc2 : challenges challenge2 = true) :
  run (answered [greeting; ehlo; refusal; quit; ehlo2; challenge1; challenge2]) sender_init =
    Ok (Sender SMTP_STATE_AUTH_LOGIN_PASSWORD_SENT [] true,
        [ehlo_request c; plain_request localhost SMTP_COMMAND_STARTTLS;
         plain_request localhost SMTP_COMMAND_QUIT; ehlo_request c;
         auth_request localhost []; auth_request localhost [encodeBase64 (username c)];
         auth_request localhost [encodeBase64 (password c)]]).
Proof.
  apply andb_true_iff in He2 as [He2 Hl]. apply Bool.eqb_prop in Hl.
  unfold succeeds, challenges in *.
  eapply smtp_run_step; [cbn; unfold on_greeting; by rewrite Hg|].
  eapply smtp_run_step; [cbn; unfold on_ehlo; rewrite He; cbn; by rewrite Htls|].
  eapply smtp_run_step; [cbn; unfold on_starttls; by rewrite Hrefusal|].
  eapply smtp_run_step; [cbn; unfold on_starttls; by rewrite Hq|].
  eapply smtp_run_step; [cbn; unfold on_ehlo; rewrite He2; cbn; by rewrite Htls, <- Hl|].
  eapply smtp_run_step; [cbn; unfold advance; by rewrite Hc1|].
  eapply smtp_run_step; [cbn; unfold advance; by rewrite Hc2|]. done.
Qed.

Lemma run_stuck rs l tls :
  run rs (Sender SMTP_STATE_AUTH_COMPLETE l tls) = Ok (Sender SMTP_STATE_AUTH_COMPLETE l tls, []).
Proof. induction rs as [|[r sent] rs IH]; [done|]. rewrite smtp_run_cons. cbn. by rewrite IH. Qed.

(** A command that cannot be sent is not taken back: the state is decremented, which is
    not the state it was sent in.  If the MAIL after EHLO cannot be sent, the client is in
    a state without a case and never sends anything again; if the QUIT after a refused
    greeting cannot be sent, an assertion fails. *)
Theorem failed_send_not_undone l tls r rs refusal
    (Hr : isSuccess (reply_code r) = true)
    (Hl : "LOGIN" ∉ authentication_mechanisms (reply_text r))
    (Htls : useSTARTTLS (request c) = true → tls = true)
    (Hrefusal : isSuccess (reply_code refusal) = false) :
  run ((r, false) :: rs) (Sender SMTP_STATE_EHLO_SENT l tls) =
    Ok (Sender SMTP_STATE_AUTH_COMPLETE l tls, []) ∧
  run ((refusal, false) :: rs) sender_init = Abort.
Proof.
  split; rewrite smtp_run_cons.
  - assert (Hh : handle r false (Sender SMTP_STATE_EHLO_SENT l tls) =
      Ok (Sender SMTP_STATE_AUTH_COMPLETE l tls, None)).
    { cbn. unfold on_ehlo. rewrite Hr. cbn. rewrite bool_decide_false by done.
      destruct (useSTARTTLS (request c)); [by rewrite Htls|done]. }
    rewrite Hh. cbn [mbind outcome_bind]. by rewrite run_stuck.
  - cbn. unfold on_greeting. by rewrite Hrefusal.
Qed.
End Runs.

(** ** The message on the wire

    The text in front of the first occurrence of a pattern, and the text behind it. *)
Fixpoint split_first (pattern s : string) : option (string * string) :=
  if String.prefix pattern s
  then Some ("", String.substring (String.length pattern)
                   (String.length s - String.length pattern) s)
  else
    match s with
    | "" => None
    | String x s' =>
        match split_first pattern s' with
        | Some (a, b) => Some (String x a, b)
        | None => None
        end
    end.

(** What a server takes for the mail: the text up to the first end sequence (the end of a
    line, and a line with a dot), and what it reads after it. *)
Definition server_mail (text : string) : option (string * string) :=
  split_first end_sequence text.

Lemma substring_rest p s :
  String.substring (String.length p) (String.length (p +:+ s) - String.length p) (p +:+ s) = s.
Proof.
  rewrite string_length_app. replace (_ + _ - _)%nat with (String.length s) by lia.
  induction p as [|x p IH]; [apply substring_all|].
  autorewrite with str. cbn [String.length String.substring]. apply IH.
Qed.

(** The first occurrence is not behind any other, and its parts make up the text. *)
Lemma split_first_app pattern a b :
  ∃ m rest, split_first pattern (a +:+ pattern +:+ b) = Some (m, rest) ∧
    a +:+ pattern +:+ b = m +:+ pattern +:+ rest ∧
    (String.length m <= String.length a)%nat.
Proof.
  induction a as [|x a IH].
  - exists "", b. rewrite append_nil. split_and!; [|done|done].
    destruct (pattern +:+ b) eqn:E; cbn [split_first]; rewrite <- E, prefix_app;
      by rewrite substring_rest.
  - rewrite append_cons. cbn [split_first].
    destruct (String.prefix pattern (String x (a +:+ pattern +:+ b))) eqn:Hp.
    + apply prefix_split in Hp as [t Ht]. exists "", t.
      rewrite Ht, substring_rest. split_and!; [done|done|cbn; lia].
    + destruct IH as (m & rest & -> & Hm & Hl). exists (String x m), rest.
      split_and!; [done|by rewrite Hm, append_cons|cbn; lia].
Qed.

(** the part behind is a suffix of what is behind another occurrence, or the reverse *)
Lemma app_suffix (a b m r : string) :
  a +:+ b = m +:+ r → (String.length m <= String.length a)%nat → ∃ t, r = t +:+ b.
Proof.
  revert m. induction a as [|x a IH]; intros [|y m] He Hl; autorewrite with str in He.
  - exists "". done.
  - cbn in Hl. lia.
  - exists (String x a). by rewrite <- He.
  - injection He as _ He. cbn in Hl. apply (IH m He). lia.
Qed.

(** The data is never cropped. *)
Lemma crop_id d : Z.of_nat (String.length d) < npos → crop d = d.
Proof.
  intros Hd. unfold crop, find_from. by rewrite (proj2 (Z.ltb_lt _ _) Hd).
Qed.

Section Message.
Context {A B : Type} `{InetAddr A} `{WritableBlock B}.

(** A message that contains the end sequence is not cropped, although the code means
    to (it searches from the end of the string).  The server takes the first end sequence
    for the end of the mail, and reads what follows it in the data as commands. *)
Theorem message_smuggles_commands date (q : SMTP_Request A) recipient a b (block : B)
    (Hq : command q = SMTP_COMMAND_DATA_2) (Hto : head (to q) = Some recipient)
    (Hm : mail q = a +:+ end_sequence +:+ b)
    (Hlen : Z.of_nat (String.length (mail q)) < npos)
    (Hroom : ∀ h, message_header date q = Ok h →
       zlen (string_bytes (h +:+ mail q +:+ end_sequence)) <= mb_space block) :
  ∃ block' text received commands,
    stream_request date q block = Ok block' ∧
    mb_bytes block' = mb_bytes block ++ string_bytes text ∧
    server_mail text = Some (received, commands) ∧
    ∃ before, commands = before +:+ b +:+ end_sequence.
Proof.
  destruct (message_header date q) as [h| |] eqn:Hh.
  2, 3: unfold message_header in Hh; by rewrite Hto in Hh.
  specialize (Hroom h eq_refl). set (text := h +:+ mail q +:+ end_sequence) in *.
  destruct (copy_all_room [string_bytes text] block) as (block' & Hc & Hb).
  { cbn. by rewrite app_nil_r. }
  destruct (split_first_app end_sequence (h +:+ a) (b +:+ end_sequence))
    as (m & rest & Hs & He & Hl).
  assert (Ht : text = (h +:+ a) +:+ end_sequence +:+ b +:+ end_sequence).
  { unfold text. by rewrite Hm, !string_app_assoc. }
  exists block', text, m, rest. split_and!.
  - unfold stream_request, request_text. rewrite Hq, Hh. cbn [mbind outcome_bind].
    rewrite crop_id by done. fold text. cbn [fmap list_fmap]. by rewrite Hc.
  - rewrite Hb. cbn. by rewrite app_nil_r.
  - unfold server_mail. by rewrite Ht.
  - rewrite <- (string_app_assoc (h +:+ a)) in He. rewrite <- (string_app_assoc m) in He.
    apply (app_suffix _ _ _ _ He). rewrite (string_length_app m), (string_length_app (h +:+ a)). lia.
Qed.
End Message.

(** ** Witnesses *)
Definition sample_smtp_request (tls : bool) (mail : string) : SMTP_Request inet_addr :=
  MkSmtpRequest SMTP_COMMAND_INVALID inet_any tls "me@here" [] ["you@there"; "they@there"]
    "Hello" mail.
Definition sample_smtp_configuration (tls : bool) : smtp_configuration inet_addr :=
  SmtpConfiguration (Addr4 10 0 0 1 0) "me" "secret" (sample_smtp_request tls "Hi").
Definition reply (code : Z) : SMTP_Reply := Reply code [].
Definition ehlo_reply : SMTP_Reply := Reply 250 ["there"; "AUTH PLAIN LOGIN"].

Lemma smtp_delivers_witness :
  run inet_any id (sample_smtp_configuration true)
    (answered (reply 220 :: [reply 250; reply 220; ehlo_reply; reply 334; reply 334; reply 235;
       reply 250; reply 250; reply 250; reply 354; reply 250; reply 221])) sender_init =
  Ok (Sender SMTP_STATE_INVALID [] true,
      (dialogue inet_any id (sample_smtp_configuration true) true).*1).
Proof.
  apply (smtp_delivers inet_any id (sample_smtp_configuration true) true); [done|done|].
  repeat constructor.
Defined.

Lemma message_sent_last_witness :
  reply_code (reply 354) = SMTP_CODE_START_MAIL_INPUT ∧
  message_request inet_any (sample_smtp_configuration false) =
    message_request inet_any (sample_smtp_configuration false) ∧
  (Forall (λ p, p.2 = true) (answered [reply 220; reply 250; reply 250; reply 250; reply 250]) →
   ∃ pre, progress
    [ehlo_request (sample_smtp_configuration false);
     mail_request inet_any (sample_smtp_configuration false);
     rcpt_request inet_any (sample_smtp_configuration false) "you@there";
     rcpt_request inet_any (sample_smtp_configuration false) "they@there";
     plain_request inet_any SMTP_COMMAND_DATA] =
    pre ++ announced inet_any (sample_smtp_configuration false) ["you@there"; "they@there"] ++
    [plain_request inet_any SMTP_COMMAND_DATA]).
Proof.
  apply (message_sent_last inet_any id (sample_smtp_configuration false)
    (answered [reply 220; reply 250; reply 250; reply 250; reply 250])
    (Sender SMTP_STATE_DATA_SENT [] false) _ (reply 354)
    (Sender SMTP_STATE_DATA_2_SENT [] false)); reflexivity.
Defined.

(** The RCPT of the second recipient cannot be sent: with the next positive replies the
    recipients are announced from the start again, and the message follows. *)
Example failed_send_repeats :
  (p ← run inet_any id (sample_smtp_configuration false)
    [(reply 220, true); (reply 250, true); (reply 250, true); (reply 250, false);
     (reply 250, true); (reply 250, true); (reply 250, true); (reply 354, true)] sender_init;
   Ok (map (λ q, (command q, to q)) p.2)) =
  Ok [(SMTP_COMMAND_EHLO, []); (SMTP_COMMAND_MAIL, []); (SMTP_COMMAND_RCPT, ["you@there"]);
      (SMTP_COMMAND_RCPT, ["you@there"]); (SMTP_COMMAND_RCPT, ["they@there"]);
      (SMTP_COMMAND_DATA, []); (SMTP_COMMAND_DATA_2, ["you@there"; "they@there"])].
Proof. by vm_compute. Qed.

Lemma refusal_forgotten_witness :
  rejects (Sender SMTP_STATE_MAIL_SENT [] false) (reply 550) = true ∧
  run inet_any id (sample_smtp_configuration false) (answered [reply 550; reply 221])
    (Sender SMTP_STATE_MAIL_SENT [] false) =
  Ok (Sender SMTP_STATE_RCPT_SENT ["they@there"] false,
      [plain_request inet_any SMTP_COMMAND_QUIT;
       rcpt_request inet_any (sample_smtp_configuration false) "you@there"]).
Proof.
  split; [reflexivity|].
  rewrite (refusal_forgotten inet_any id (sample_smtp_configuration false)
    (Sender SMTP_STATE_MAIL_SENT [] false) (reply 550) [reply 221] eq_refl).
  reflexivity.
Defined.

Lemma starttls_downgrade_witness :
  run inet_any id (sample_smtp_configuration true)
    (answered [reply 220; reply 250; reply 454; reply 221; ehlo_reply; reply 334; reply 334])
    sender_init =
  Ok (Sender SMTP_STATE_AUTH_LOGIN_PASSWORD_SENT [] true,
      [ehlo_request (sample_smtp_configuration true);
       plain_request inet_any SMTP_COMMAND_STARTTLS;
       plain_request inet_any SMTP_COMMAND_QUIT;
       ehlo_request (sample_smtp_configuration true);
       auth_request inet_any []; auth_request inet_any ["me"];
       auth_request inet_any ["secret"]]).
Proof.
  apply (starttls_downgrade inet_any id (sample_smtp_configuration true)); reflexivity.
Defined.

Lemma failed_send_not_undone_witness :
  run inet_any id (sample_smtp_configuration false)
    ((reply 250, false) :: [(reply 250, true); (reply 250, true)])
    (Sender SMTP_STATE_EHLO_SENT [] false) =
  Ok (Sender SMTP_STATE_AUTH_COMPLETE [] false, []) ∧
  run inet_any id (sample_smtp_configuration false)
    ((reply 554, false) :: [(reply 250, true); (reply 250, true)]) sender_init = Abort.
Proof.
  apply (failed_send_not_undone inet_any id (sample_smtp_configuration false));
    [reflexivity|apply not_elem_of_nil|done|reflexivity].
Defined.

Definition smuggling_request : SMTP_Request inet_addr :=
  MkSmtpRequest SMTP_COMMAND_DATA_2 inet_any false "me@here" [] ["you@there"] ""
    ("Hi" +:+ end_sequence +:+ "MAIL FROM:<other@here>").

Lemma message_smuggles_commands_witness :
  ∃ block' text received commands,
    stream_request "today" smuggling_request ([], 1000%N) = Ok block' ∧
    mb_bytes block' = mb_bytes ([] : list Z, 1000%N) ++ string_bytes text ∧
    server_mail text = Some (received, commands) ∧
    ∃ before, commands = before +:+ "MAIL FROM:<other@here>" +:+ end_sequence.
Proof.
  apply (message_smuggles_commands "today" smuggling_request "you@there" "Hi"
    "MAIL FROM:<other@here>" (([], 1000%N) : list Z * N)); try reflexivity.
  intros h [= <-]. vm_compute. discriminate.
Defined.
