(* ===== verification/SmtpReply.v ===== *)
(** * The replies to the SMTP client (protocol/smtp: scripts/scanner.l, scripts/parser.y,
    smtp_parser_driver.inl)

    The scanner and the parser that read the reply of a server, and the delivery of a mail by
    the client of [SmtpClient] from the octets that it receives.  The option [block] is set; the
    offset that the rules count is not used. *)
From S2P Require Import Prelude MessageBlock Chars Decimal InetAddr Lex Fragments Replies SmtpClient.

Inductive condition :=
  | INITIAL | reply_code_ | text_begin | text_ | multiline_text | multiline_text_cr.
(** the condition, and [yylval->sval] *)
Record scanner := MkScanner { cond : condition; sval : option string }.
Inductive token := REPLY_CODE (ival : Z) | REPLY_TEXT (sval : string) | REPLY.
Notation scanned := (scanned scanner token).

(** ** The rules *)
Definition MINUS : re := lits [45].
Definition SPACE : re := lits [32].
Definition cr : Z → bool := Z.eqb 13.
Inductive action :=
  | Look | ReplyCode | EndOfCode | Multi | Single | Returns | EndOfLine | RestOfLine | Return_
  | EndOfText | Line.
(** the expressions, the length of their trailing context, and what is done *)
Definition rules (c : condition) : list (re * (nat * action)) :=
  match c with
  | INITIAL => [(DIGIT, (0, Look))]
  | reply_code_ => [(times 3 DIGIT, (0, ReplyCode))]
  | text_begin => [(CRLF, (0, EndOfCode)); (MINUS, (0, Multi)); (SPACE, (0, Single))]
  | multiline_text => [(Many1 (Cls cr), (0, Returns)); (CRLF, (0, EndOfLine)); (Many1 OCTET_NO_CR, (0, RestOfLine))]
  | multiline_text_cr => [(lits [13]%Z, (0, Return_)); (CRLF, (0, EndOfLine))]
  | text_ => [(CRLF, (0, EndOfText)); (Cat (Many OCTET) CRLF, (2, Line))]
  end%nat.

Definition begin_ (c : condition) (s : scanner) : scanner := MkScanner c (sval s).
Definition set_sval (v : string) (s : scanner) : scanner := MkScanner (cond s) (Some v).
(** [yylval->sval], a string that has been allocated *)
Definition value (s : scanner) : outcome string := match sval s with Some v => Ok v | None => Undef end.

Definition perform (a : action) (s : scanner) (yytext bs : list Z) (i : input) : outcome scanned :=
  let t := bytes_string (c_string yytext) in
  match a with
  | Look => Ok (Matched (begin_ reply_code_ s) ((yytext ++ bs) :: i))
  | ReplyCode => Ok (Token (REPLY_CODE (read_code t)) (MkScanner text_begin None) (bs :: i))
  | EndOfCode => Ok (Token REPLY s (bs :: i))
  | Multi => Ok (Matched (begin_ multiline_text (set_sval "" s)) (bs :: i))
  | Single => Ok (Matched (begin_ text_ (set_sval "" s)) (bs :: i))
  | Returns =>
      v ← value s;
      Ok (Matched (begin_ multiline_text_cr (set_sval (v +:+ bytes_string (take (length yytext - 1) yytext)) s))
            ((drop 1 yytext ++ bs) :: i))
  | EndOfLine => v ← value s; Ok (Token (REPLY_TEXT v) (begin_ reply_code_ s) (bs :: i))
  | RestOfLine => v ← value s; Ok (Matched (begin_ multiline_text_cr (set_sval (v +:+ t) s)) (bs :: i))
  | Return_ => v ← value s; Ok (Matched (begin_ multiline_text (set_sval (v +:+ t) s)) (bs :: i))
  | EndOfText => Ok (Token REPLY (begin_ reply_code_ s) (bs :: i))
  | Line => _ ← value s; Ok (Token (REPLY_TEXT t) (set_sval t s) (bs :: i))
  end.
Definition rule (s : scanner) (bs : list Z) (i : input) : option (outcome scanned) :=
  '(n, (k, a)) ← pick (rules (cond s)) bs; Some (perform a s (take (n - k) bs) (drop (n - k) bs) i).

(** an octet that no rule takes is asserted not to be; a new buffer resets the condition
    ([scan_begin ()]) *)
Definition any_octet (s : scanner) (bs : list Z) (i : input) : outcome scanned := Abort.
Definition lex (fuel : nat) (s : scanner) (i : input) : outcome scanned :=
  scan rule (λ _, false) (begin_ INITIAL) any_octet fuel s i.
Definition yylex (s : scanner) (i : input) : outcome scanned := lex (scan_fuel i) s i.

(** ** The grammar *)
Inductive parsed :=
  | Parsed (r : SMTP_Reply) (s : scanner) (i : input)
  | Failed (s : scanner)
  | Waiting.
Definition unexpected (m : scanned) : outcome parsed :=
  Ok match m with Token _ s _ | End_ s _ | Matched s _ => Failed s | Waits => Waiting end.
Definition push (t : string) (r : SMTP_Reply) : SMTP_Reply := Reply (reply_code r) (reply_text r ++ [t]).
(** a code is followed by a text *)
Fixpoint text_lines (fuel : nat) (r : SMTP_Reply) (s : scanner) (i : input) : outcome parsed :=
  match fuel with
  | O => Ok Waiting
  | S fuel' =>
      m ← yylex s i;
      match m with
      | Token (REPLY_TEXT t) s i => text_lines fuel' (push t r) s i
      | Token (REPLY_CODE _) s i =>
          m ← yylex s i;
          match m with
          | Token (REPLY_TEXT t) s i => text_lines fuel' (push t r) s i
          | other => unexpected other
          end
      | Token REPLY s i => Ok (Parsed r s i)
      | other => unexpected other
      end
  end.
(** every line but the last takes an octet of those that are left *)
Definition lines_fuel (i : input) : nat := S (length (mjoin i)).
Definition message (s : scanner) (i : input) : outcome parsed :=
  m ← yylex s i;
  match m with
  | Token (REPLY_CODE c) s i => text_lines (lines_fuel i) (Reply c []) s i
  | other => unexpected other
  end.
(** [parse ()], of the fragments that have been received; what is behind the reply is not read *)
Definition parse (s : scanner) (i : input) : outcome parsed := message (MkScanner INITIAL None) i.

(** ** What the rules take *)
Lemma smtp_ruled s p q i n k a :
  pick (rules (cond s)) (p ++ q) = Some (n, (k, a)) → n = (length p + k)%nat →
  rule s (p ++ q) i = Some (perform a s p q i).
Proof.
  intros Hp ->. unfold rule. rewrite Hp. cbn [mbind option_bind]. rewrite Nat.add_sub.
  by rewrite take_app_length, drop_app_length.
Qed.
Notation give := (scan_give rule (λ _, false) (begin_ INITIAL) any_octet).
Notation take_ := (scan_take rule (λ _, false) (begin_ INITIAL) any_octet).

(** the state when a line is to begin *)
Definition at_line (s : scanner) : Prop := cond s = INITIAL ∨ cond s = reply_code_.
(** codes as they are sent *)
Definition code_bytes (c : Z) : list Z := string_bytes (pretty c).

Lemma code_lexed s c u j n :
  at_line s → 100 <= c < 1000 → (size ((code_bytes c ++ u) :: j) + 1 <= n)%nat →
  lex n s ((code_bytes c ++ u) :: j) = Ok (Token (REPLY_CODE c) (MkScanner text_begin None) (u :: j)).
Proof.
  intros Hs Hc Hn. destruct (code_digits c Hc) as (Hr & Hcs & Hv & d & l & El & Hd).
  fold (code_bytes c) in *.
  assert (∀ s n, cond s = reply_code_ → (size ((code_bytes c ++ u) :: j) <= n)%nat →
    lex n s ((code_bytes c ++ u) :: j) = Ok (Token (REPLY_CODE c) (MkScanner text_begin None) (u :: j))) as He.
  { clear n s Hs Hn. intros s n Hs Hn. apply give; [by rewrite El|done|].
    rewrite (smtp_ruled _ _ _ _ (length (code_bytes c)) 0 ReplyCode); [| |by rewrite Nat.add_0_r].
    - unfold perform. rewrite Hcs. unfold code_bytes at 1. by rewrite bytes_string_bytes, Hv.
    - rewrite Hs. cbn [rules pick]. by rewrite longest_residual. }
  destruct Hs as [Hs|Hs]; [|apply He; [done|lia]].
  destruct n as [|n]; [lia|]. unfold lex.
  erewrite (scan_step rule _ _ _ s _ _ n (Matched (begin_ reply_code_ s) ((code_bytes c ++ u) :: j)));
    [apply He; [done|lia]|by rewrite El|].
  rewrite El. change ((d :: l) ++ u) with ([d] ++ (l ++ u)).
  rewrite (smtp_ruled _ _ _ _ 1 0 Look); [done| |done]. rewrite Hs. cbn [rules pick app].
  unfold DIGIT. by rewrite class_picked.
Qed.

Lemma crlf_lexed s f j n v :
  cond s = multiline_text ∨ cond s = multiline_text_cr → sval s = Some v →
  (size (([13; 10]%Z ++ f) :: j) <= n)%nat →
  lex n s (([13; 10] ++ f) :: j) = Ok (Token (REPLY_TEXT v) (MkScanner reply_code_ (Some v)) (f :: j)).
Proof.
  intros Hs Hv Hn. apply give; [done|done|]. rewrite (smtp_ruled _ _ _ _ 2 0 EndOfLine); [| |done].
  - unfold perform, value. rewrite Hv. cbn. unfold begin_. by rewrite Hv.
  - destruct Hs as [-> | ->]; cbn [rules pick]; rewrite (longest_residual CRLF) by done.
    + change ([13; 10] ++ f) with ([13] ++ 10 :: f). rewrite longest_run by (done || by repeat constructor).
      cbn [app]. unfold OCTET_NO_CR. by rewrite run_none.
    + change ([13; 10] ++ f) with ([13] ++ 10 :: f). by rewrite longest_residual.
Qed.
(** a line that is not the last, behind its code *)
Lemma more_lexed s l f j n :
  cond s = text_begin → line_ok l = true →
  (size (([45]%Z ++ string_bytes (l +:+ crlf) ++ f) :: j) <= n)%nat →
  lex n s (([45] ++ string_bytes (l +:+ crlf) ++ f) :: j) =
    Ok (Token (REPLY_TEXT l) (MkScanner reply_code_ (Some l)) (f :: j)).
Proof.
  intros Hs Hl Hn. destruct (line_octets l Hl) as [Hcr Hc].
  rewrite string_bytes_app, <- (assoc_L (++)) in *. change (string_bytes crlf) with [13; 10] in *.
  destruct (take_ s [45] (string_bytes l ++ [13; 10] ++ f) j (MkScanner multiline_text (Some "")) n)
    as (n1 & E1 & Hn1); [done|done| |].
  { rewrite (smtp_ruled _ _ _ _ 1 0 Multi); [done| |done]. rewrite Hs. cbn [rules pick].
    rewrite (longest_residual MINUS) by done. cbn [app]. unfold CRLF, SPACE. by rewrite !lits_none. }
  unfold lex. rewrite E1. change (scan rule (λ _, false) (begin_ INITIAL) any_octet) with lex.
  destruct (decide (l = "")) as [->|Hne]; [apply crlf_lexed; [by left|done..]|].
  destruct (take_ (MkScanner multiline_text (Some "")) (string_bytes l) ([13; 10] ++ f) j
    (MkScanner multiline_text_cr (Some l)) n1) as (n2 & E2 & Hn2); [by destruct l|done| |].
  { rewrite (smtp_ruled _ _ _ _ (length (string_bytes l)) 0 RestOfLine); [| |by rewrite Nat.add_0_r].
    - unfold perform. cbn. by rewrite Hc, bytes_string_bytes.
    - cbn [cond rules pick]. rewrite (longest_run no_cr) by (done || by destruct l).
      destruct l as [|c l]; [done|]. apply Forall_cons_1 in Hcr as [Hx _].
      assert (code c ≠ 13) by (by intros E; rewrite E in Hx).
      change (string_bytes (String c l)) with (code c :: string_bytes l). cbn [app].
      rewrite run_none by (unfold cr; by apply Z.eqb_neq).
      unfold CRLF. by rewrite lits_none. }
  unfold lex. rewrite E2. apply crlf_lexed; [by right|done..].
Qed.
(** the last line, which ends its buffer *)
Lemma text_longest p : longest (Cat (Many OCTET) CRLF) (p ++ [13; 10]) = Some (length p + 2)%nat.
Proof.
  apply longest_Some. rewrite length_app. change (length [13; 10]) with 2%nat. split_and!; [done| |lia].
  rewrite take_ge by (rewrite length_app; cbn [length]; lia). constructor; [|by apply lang_lits].
  apply lang_many_cls, Forall_true. done.
Qed.
Lemma smtp_last_lexed s l j n :
  cond s = text_begin → line_ok l = true → l ≠ "" →
  (size (([32]%Z ++ string_bytes (l +:+ crlf)) :: j) <= n)%nat →
  lex n s (([32] ++ string_bytes (l +:+ crlf)) :: j) =
    Ok (Token (REPLY_TEXT l) (MkScanner text_ (Some l)) ([13; 10] :: j)).
Proof.
  intros Hs Hl Hne Hn. destruct (line_octets l Hl) as [Hcr Hc].
  rewrite string_bytes_app in *. change (string_bytes crlf) with [13; 10] in *.
  destruct (take_ s [32] (string_bytes l ++ [13; 10]) j (MkScanner text_ (Some "")) n)
    as (n1 & E1 & Hn1); [done|done| |].
  { rewrite (smtp_ruled _ _ _ _ 1 0 Single); [done| |done]. rewrite Hs. cbn [rules pick].
    rewrite (longest_residual SPACE) by done. cbn [app]. unfold CRLF, MINUS. by rewrite !lits_none. }
  unfold lex. rewrite E1. apply give; [by destruct l|done|].
  rewrite (smtp_ruled _ _ _ _ (length (string_bytes l) + 2) 2 Line); [| |done].
  - unfold perform. cbn. by rewrite Hc, bytes_string_bytes.
  - cbn [cond rules pick]. rewrite text_longest.
    destruct l as [|c l]; [done|]. apply Forall_cons_1 in Hcr as [Hx _].
    change (string_bytes (String c l)) with (code c :: string_bytes l). cbn [app].
    unfold CRLF. rewrite lits_none; [done|]. intros E. by rewrite E in Hx.
Qed.
Lemma reply_lexed s j n :
  cond s = text_ → (size ([13; 10]%Z :: j) <= n)%nat →
  lex n s ([13; 10] :: j) = Ok (Token REPLY (begin_ reply_code_ s) ([] :: j)).
Proof.
  intros Hs Hn. apply (give s [13; 10] []); [done|done|].
  by rewrite (smtp_ruled _ _ _ _ 2 0 EndOfText) by (rewrite ?Hs; done).
Qed.

(** ** Replies as RFC 5321 has them *)
Definition more_line (c : Z) (l : string) : list Z := code_bytes c ++ [45] ++ string_bytes (l +:+ crlf).
Definition end_line (c : Z) (l : string) : list Z := code_bytes c ++ [32] ++ string_bytes (l +:+ crlf).
Definition reply_lines (c : Z) (ls : list string) (l : string) : list (list Z) :=
  (more_line c <$> ls) ++ [end_line c l].

Lemma uncut_nothing f j : uncut [] [] (f :: j) → f = [].
Proof. intros E%uncut_join. by apply app_eq_nil in E as [-> _]. Qed.
Lemma code_bytes_nonempty c u : 100 <= c < 1000 → code_bytes c ++ u ≠ [].
Proof. intros Hc. destruct (code_digits c Hc) as (_ & _ & _ & d & l & E & _). unfold code_bytes. by rewrite E. Qed.

(** the code of the next line *)
Lemma next_code s c u ps i :
  at_line s → 100 <= c < 1000 → uncut ((code_bytes c ++ u) :: ps) [] i →
  ∃ f j, yylex s i = Ok (Token (REPLY_CODE c) (MkScanner text_begin None) ((u ++ f) :: j)) ∧
    uncut ps [] (f :: j).
Proof.
  intros Hs Hc Hu. destruct (scan_buffer_begins rule (λ _, false) (begin_ INITIAL) any_octet 1 s
    (code_bytes c ++ u) ps [] i (scan_fuel i) Hu) as (f & j & n & s' & Hs' & E & Hj & Hn).
  - by apply code_bytes_nonempty.
  - done.
  - done.
  - pose proof (scan_fuel_enough i). lia.
  - exists f, j. split; [|done]. unfold yylex, lex. rewrite E, <- (assoc_L (++)).
    apply code_lexed; [|done|by rewrite (assoc_L (++))].
    destruct Hs' as [-> | ->]; [done|by left].
Qed.
Lemma last_parsed fuel r s l f j :
  cond s = text_begin → line_ok l = true → l ≠ "" → uncut [] [] (f :: j) → (2 <= fuel)%nat →
  ∃ s', text_lines fuel r s (([32] ++ string_bytes (l +:+ crlf) ++ f) :: j) = Ok (Parsed (push l r) s' ([] :: j)).
Proof.
  intros Hs Hl Hne ->%uncut_nothing Hf. destruct fuel as [|[|fuel]]; [lia|lia|]. rewrite app_nil_r.
  cbn [text_lines]. rewrite (smtp_last_lexed s l j _ Hs Hl Hne (scan_fuel_size _) : yylex s _ = _).
  cbn [mbind outcome_bind].
  rewrite (reply_lexed (MkScanner text_ (Some l)) j _ eq_refl (scan_fuel_size _) : yylex (MkScanner text_ (Some l)) _ = _).
  cbn [mbind outcome_bind]. by eexists.
Qed.
Lemma smtp_lines_parsed c ls l : ∀ r s i fuel,
  at_line s → 100 <= c < 1000 → Forall (λ l, line_ok l = true) ls → line_ok l = true → l ≠ "" →
  uncut (reply_lines c ls l) [] i → (length ls + 2 <= fuel)%nat →
  ∃ s' i', text_lines fuel r s i = Ok (Parsed (Reply (reply_code r) (reply_text r ++ ls ++ [l])) s' i').
Proof.
  induction ls as [|l1 ls IH]; intros r s i fuel Hs Hc Hls Hl Hne Hu Hf.
  - cbn [reply_lines fmap list_fmap app] in Hu.
    destruct (next_code s c _ _ i Hs Hc Hu) as (f & j & E & Hj).
    destruct fuel as [|fuel]; [cbn in Hf; lia|]. cbn [text_lines]. rewrite E. cbn [mbind outcome_bind].
    pose proof (last_parsed (S fuel) r (MkScanner text_begin None) l f j eq_refl Hl Hne Hj ltac:(lia)) as [s' Hp].
    rewrite <- (assoc_L (++)). cbn [text_lines] in Hp.
    rewrite (uncut_nothing _ _ Hj), app_nil_r in *.
    rewrite (smtp_last_lexed (MkScanner text_begin None) l j _ eq_refl Hl Hne (scan_fuel_size _) : yylex _ _ = _) in *.
    cbn [mbind outcome_bind] in *. by exists s', ([] :: j).
  - apply Forall_cons_1 in Hls as [Hl1 Hls]. cbn [reply_lines fmap list_fmap app] in Hu.
    destruct (next_code s c _ _ i Hs Hc Hu) as (f & j & E & Hj).
    destruct fuel as [|fuel]; [cbn in Hf; lia|]. cbn [text_lines]. rewrite E. cbn [mbind outcome_bind].
    rewrite <- (assoc_L (++)).
    rewrite (more_lexed (MkScanner text_begin None) l1 f j _ eq_refl Hl1 (scan_fuel_size _) : yylex _ _ = _).
    cbn [mbind outcome_bind].
    destruct (IH (push l1 r) (MkScanner reply_code_ (Some l1)) (f :: j) fuel) as (s' & i' & ->);
      [by right|done..|cbn in Hf; lia|].
    exists s', i'. unfold push. cbn [reply_code reply_text]. by rewrite <- (assoc_L (++)).
Qed.
Lemma reply_lines_length c ls l : (length ls + 3 <= length (mjoin (reply_lines c ls l)))%nat.
Proof.
  induction ls as [|l1 ls IH]; unfold reply_lines in *.
  - cbn [fmap list_fmap app mjoin list_join]. unfold end_line. rewrite string_bytes_app, !length_app.
    change (length (string_bytes crlf)) with 2%nat. cbn [length]. lia.
  - change (mjoin ((more_line c <$> l1 :: ls) ++ [end_line c l]))
      with (more_line c l1 ++ mjoin ((more_line c <$> ls) ++ [end_line c l])).
    rewrite length_app. unfold more_line at 1. rewrite length_app. cbn [length app]. lia.
Qed.
Lemma reply_parsed s c ls l i :
  100 <= c < 1000 → Forall (λ l, line_ok l = true) ls → line_ok l = true → l ≠ "" →
  uncut (reply_lines c ls l) [] i →
  ∃ s' i', parse s i = Ok (Parsed (Reply c (ls ++ [l])) s' i').
Proof.
  intros Hc Hls Hl Hne Hu. unfold parse, message.
  destruct ls as [|l1 ls]; cbn [reply_lines fmap list_fmap app] in Hu;
    destruct (next_code (MkScanner INITIAL None) c _ _ i (or_introl eq_refl) Hc Hu) as (f & j & E & Hj);
    rewrite E; cbn [mbind outcome_bind]; rewrite <- (assoc_L (++)).
  - destruct (last_parsed (lines_fuel (([32] ++ string_bytes (l +:+ crlf) ++ f) :: j)) (Reply c [])
      (MkScanner text_begin None) l f j) as [s' ->]; [done..| |by eexists _, _].
    unfold lines_fuel. cbn. lia.
  - apply Forall_cons_1 in Hls as [Hl1 Hls]. unfold lines_fuel. cbn [text_lines].
    rewrite (more_lexed (MkScanner text_begin None) l1 f j _ eq_refl Hl1 (scan_fuel_size _) : yylex _ _ = _).
    cbn [mbind outcome_bind].
    destruct (smtp_lines_parsed c ls l (push l1 (Reply c [])) (MkScanner reply_code_ (Some l1)) (f :: j)
      (length (mjoin (([45] ++ string_bytes (l1 +:+ crlf) ++ f) :: j)))) as (s' & i' & ->);
      [by right|done..| |by eexists _, _].
    pose proof (f_equal length (uncut_join _ _ _ Hj)) as El. rewrite app_nil_r in El.
    pose proof (reply_lines_length c ls l). unfold reply_lines in *.
    change (mjoin (([45] ++ string_bytes (l1 +:+ crlf) ++ f) :: j))
      with (([45] ++ string_bytes (l1 +:+ crlf) ++ f) ++ mjoin j).
    change (mjoin (f :: j)) with (f ++ mjoin j) in El. rewrite !length_app in *. lia.
Qed.

(** ** Deliveries *)
Section Deliveries.
Context {A : Type} `{InetAddr A}.
Context (localhost : A) (encodeBase64 : string → string) (c : smtp_configuration A).

(** The fragments of every reply are read, and its record is handled.  [None]: a reply has not
    been read (what the stream does then, is up to the library); the flags tell whether the
    client can send. *)
Fixpoint receive (rs : list (input * bool)) (x : sender) (s : scanner) :
    outcome (option (sender * list (SMTP_Request A))) :=
  match rs with
  | [] => Ok (Some (x, []))
  | (i, sent) :: rs' =>
      p ← parse s i;
      match p with
      | Parsed r s _ =>
          '(x, q) ← handleDataMessage localhost encodeBase64 c r sent x;
          y ← receive rs' x s;
          Ok ('(x, qs) ← y; Some (x, option_list q ++ qs))
      | _ => Ok None
      end
  end.

(** fragments that hold a reply, and nothing else *)
Definition holds (i : input) (r : SMTP_Reply) : Prop :=
  ∃ ls l, reply_text r = ls ++ [l] ∧ 100 <= reply_code r < 1000 ∧
    Forall (λ l, line_ok l = true) ls ∧ line_ok l = true ∧ l ≠ "" ∧
    uncut (reply_lines (reply_code r) ls l) [] i.
Lemma smtp_receive_run rs : ∀ ios x s,
  Forall2 holds ios rs →
  receive ((λ i, (i, true)) <$> ios) x s =
    (y ← run localhost encodeBase64 c (answered rs) x; Ok (Some y)).
Proof.
  induction rs as [|r rs IH]; intros ios x s Hi; inversion Hi as [|i ? ios' ? Hr Hrs]; subst; [done|].
  destruct Hr as (ls & l & Et & Hc & Hls & Hl & Hne & Hu).
  change (answered (r :: rs)) with ((r, true) :: answered rs). rewrite smtp_run_cons.
  cbn [fmap list_fmap receive].
  destruct (reply_parsed s (reply_code r) ls l i) as (s' & i' & ->); [done..|].
  cbn [mbind outcome_bind]. rewrite <- Et.
  replace (Reply (reply_code r) (reply_text r)) with r by (by destruct r).
  destruct (handleDataMessage localhost encodeBase64 c r true x) as [[x' q]| |]; [|done..].
  cbn [mbind outcome_bind]. rewrite IH by done.
  by destruct (run localhost encodeBase64 c (answered rs) x') as [[x'' qs]| |].
Qed.

(** C13: SMTP_ParserDriver_T::parse and SMTP_Module_Send_T::handleDataMessage, a delivery from the
    octets of the replies: when the server accepts each command, in replies of one line or of
    several, in fragments that do not cut a line, the client sends exactly the commands of the
    dialogue, in order: EHLO, with TLS STARTTLS and EHLO again, the login if the server offers
    it, MAIL, one RCPT for each recipient, DATA, the message and QUIT; and it is back in its
    initial state *)
Theorem mail_delivered login ios g rs s :
  to (request c) ≠ [] → isSuccess (reply_code g) = true →
  Forall2 (λ (e : exchange (A:=A)) r, e.2 r = true) (dialogue localhost encodeBase64 c login) rs →
  Forall2 holds ios (g :: rs) →
  receive ((λ i, (i, true)) <$> ios) sender_init s =
    Ok (Some (Sender SMTP_STATE_INVALID [] (useSTARTTLS (request c)),
              (dialogue localhost encodeBase64 c login).*1)).
Proof.
  intros Hto Hg Hrs Hi. rewrite (smtp_receive_run (g :: rs)) by done. by rewrite (smtp_delivers _ _ _ login).
Qed.
End Deliveries.

(** ** A concrete delivery, with a reply of several lines in two fragments *)
Definition sample_reply (n : Z) : SMTP_Reply := Reply n ["ok"].
Definition sample_ehlo : SMTP_Reply := Reply 250 ["there"; "AUTH PLAIN LOGIN"].
Definition sample_replies : list SMTP_Reply :=
  [sample_reply 250; sample_reply 220; sample_ehlo; sample_reply 334; sample_reply 334; sample_reply 235;
   sample_reply 250; sample_reply 250; sample_reply 250; sample_reply 354; sample_reply 250; sample_reply 221].
Definition sample_octets (r : SMTP_Reply) : input :=
  match reply_text r with
  | [l] => [end_line (reply_code r) l]
  | [l1; l2] => [more_line (reply_code r) l1; end_line (reply_code r) l2]
  | _ => []
  end.
Lemma sample_holds n : 100 <= n < 1000 → holds (sample_octets (sample_reply n)) (sample_reply n).
Proof.
  intros Hn. exists [], "ok". split_and!; [done|cbn; lia|cbn; lia|by constructor|done|done|].
  pose proof (uncut_whole [end_line n "ok"] []) as Hu. cbn [mjoin list_join] in Hu. by rewrite !app_nil_r in Hu.
Qed.
Lemma sample_ehlo_holds : holds (sample_octets sample_ehlo) sample_ehlo.
Proof.
  exists ["there"], "AUTH PLAIN LOGIN". split_and!; [done|cbn; lia|cbn; lia|by repeat constructor|done|done|].
  apply (uncut_fragment [more_line 250 "there"] [end_line 250 "AUTH PLAIN LOGIN"]).
  apply (uncut_whole [end_line 250 "AUTH PLAIN LOGIN"] []).
Qed.
Lemma mail_delivered_witness :
  receive inet_any id (sample_smtp_configuration true)
    ((λ i, (i, true)) <$> (sample_octets <$> sample_reply 220 :: sample_replies)) sender_init (MkScanner INITIAL None) =
  Ok (Some (Sender SMTP_STATE_INVALID [] true,
            (dialogue inet_any id (sample_smtp_configuration true) true).*1)).
Proof.
  apply (mail_delivered inet_any id (sample_smtp_configuration true) true
    (sample_octets <$> sample_reply 220 :: sample_replies) (sample_reply 220) sample_replies);
    [done|done|by repeat constructor|].
  repeat (apply Forall2_cons; split; [first [apply sample_ehlo_holds|apply sample_holds; lia]|]). by constructor.
Defined.

(** ** Replies that are not read *)
Definition parsed_text (ts : list string) : outcome (option (Z * list string)) :=
  p ← parse (MkScanner INITIAL None) (string_bytes <$> ts);
  Ok match p with Parsed r _ _ => Some (reply_code r, reply_text r) | _ => None end.
(** a line in two fragments fails an assertion *)
Example cut_line_aborts : parsed_text ["250 o"; "k" +:+ crlf] = Abort.
Proof. by vm_compute. Qed.
(** several lines, the last of which is empty *)
Example empty_last_line_refused : parsed_text ["250-a" +:+ crlf +:+ "250 " +:+ crlf] = Ok None.
Proof. by vm_compute. Qed.
(** two replies in one fragment: the second is taken for a part of the first *)
Example replies_run_together :
  parsed_text ["250 ok" +:+ crlf +:+ "354 go" +:+ crlf] = Ok (Some (250, ["ok" +:+ crlf +:+ "354 go"])).
Proof. by vm_compute. Qed.
(** two carriage returns in front of a line break are read as three *)
Example returns_repeated :
  parsed_text ["250-" +:+ String "013" (String "013" crlf) +:+ "250 ok" +:+ crlf] =
    Ok (Some (250, [String "013" (String "013" (String "013" "")); "ok"])).
Proof. by vm_compute. Qed.
