(* ===== verification/PopClient.v ===== *)
(** * The POP client (protocol/pop: pop_module_send.inl, pop_module_streamer.inl,
      pop_tools.cpp, pop_codes.h, pop_common.h)

    The module that logs in, retrieves the messages of a maildrop and deletes them, and
    the streamer that writes its commands. *)
From S2P Require Import Prelude Chars Decimal MessageBlock Regex.

(** ** Commands and states *)
Inductive POP_Command :=
  | POP_COMMAND_AUTH_USER
  | POP_COMMAND_AUTH_PASS
  | POP_COMMAND_AUTH_APOP
  | POP_COMMAND_AUTH_QUIT
  | POP_COMMAND_TRANS_STAT
  | POP_COMMAND_TRANS_LIST
  | POP_COMMAND_TRANS_RETR
  | POP_COMMAND_TRANS_DELE
  | POP_COMMAND_TRANS_NOOP
  | POP_COMMAND_TRANS_RSET
  | POP_COMMAND_TRANS_QUIT
  | POP_COMMAND_TRANS_TOP
  | POP_COMMAND_TRANS_UIDL
  | POP_COMMAND_UPDAT_QUIT
  | POP_COMMAND_MAX
  | POP_COMMAND_INVALID.
#[export] Instance POP_Command_eq_dec : EqDecision POP_Command.
Proof. solve_decision. Defined.

Inductive POP_ProtocolState :=
  | POP_STATE_GREETING_RECEIVED
  | POP_STATE_AUTH_LOGIN_USER_SENT
  | POP_STATE_AUTH_LOGIN_PASSWORD_SENT
  | POP_STATE_AUTH_APOP_SENT
  | POP_STATE_AUTH_QUIT_SENT
  | POP_STATE_TRANS_STAT_SENT
  | POP_STATE_TRANS_LIST_SENT
  | POP_STATE_TRANS_RETR_SENT
  | POP_STATE_TRANS_DELE_SENT
  | POP_STATE_TRANS_NOOP_SENT
  | POP_STATE_TRANS_RSET_SENT
  | POP_STATE_TRANS_QUIT_SENT
  | POP_STATE_TRANS_TOP_SENT
  | POP_STATE_TRANS_UIDL_SENT
  | POP_STATE_UPDAT_QUIT_SENT
  | POP_STATE_MAX
  | POP_STATE_INVALID.
#[export] Instance POP_ProtocolState_eq_dec : EqDecision POP_ProtocolState.
Proof. solve_decision. Defined.

(** [operator++] and [operator--] *)
Definition state_next (x : POP_ProtocolState) : outcome POP_ProtocolState :=
  match x with
  | POP_STATE_MAX => Abort
  | POP_STATE_INVALID => Ok POP_STATE_GREETING_RECEIVED
  | POP_STATE_GREETING_RECEIVED => Ok POP_STATE_AUTH_LOGIN_USER_SENT
  | POP_STATE_AUTH_LOGIN_USER_SENT => Ok POP_STATE_AUTH_LOGIN_PASSWORD_SENT
  | POP_STATE_AUTH_LOGIN_PASSWORD_SENT => Ok POP_STATE_AUTH_APOP_SENT
  | POP_STATE_AUTH_APOP_SENT => Ok POP_STATE_AUTH_QUIT_SENT
  | POP_STATE_AUTH_QUIT_SENT => Ok POP_STATE_TRANS_STAT_SENT
  | POP_STATE_TRANS_STAT_SENT => Ok POP_STATE_TRANS_LIST_SENT
  | POP_STATE_TRANS_LIST_SENT => Ok POP_STATE_TRANS_RETR_SENT
  | POP_STATE_TRANS_RETR_SENT => Ok POP_STATE_TRANS_DELE_SENT
  | POP_STATE_TRANS_DELE_SENT => Ok POP_STATE_TRANS_NOOP_SENT
  | POP_STATE_TRANS_NOOP_SENT => Ok POP_STATE_TRANS_RSET_SENT
  | POP_STATE_TRANS_RSET_SENT => Ok POP_STATE_TRANS_QUIT_SENT
  | POP_STATE_TRANS_QUIT_SENT => Ok POP_STATE_TRANS_TOP_SENT
  | POP_STATE_TRANS_TOP_SENT => Ok POP_STATE_TRANS_UIDL_SENT
  | POP_STATE_TRANS_UIDL_SENT => Ok POP_STATE_UPDAT_QUIT_SENT
  | POP_STATE_UPDAT_QUIT_SENT => Ok POP_STATE_GREETING_RECEIVED
  end.
Definition state_previous (x : POP_ProtocolState) : outcome POP_ProtocolState :=
  match x with
  | POP_STATE_GREETING_RECEIVED | POP_STATE_MAX | POP_STATE_INVALID => Abort
  | POP_STATE_AUTH_LOGIN_USER_SENT => Ok POP_STATE_GREETING_RECEIVED
  | POP_STATE_AUTH_LOGIN_PASSWORD_SENT => Ok POP_STATE_AUTH_LOGIN_USER_SENT
  | POP_STATE_AUTH_APOP_SENT => Ok POP_STATE_AUTH_LOGIN_PASSWORD_SENT
  | POP_STATE_AUTH_QUIT_SENT => Ok POP_STATE_AUTH_APOP_SENT
  | POP_STATE_TRANS_STAT_SENT => Ok POP_STATE_AUTH_QUIT_SENT
  | POP_STATE_TRANS_LIST_SENT => Ok POP_STATE_TRANS_STAT_SENT
  | POP_STATE_TRANS_RETR_SENT => Ok POP_STATE_TRANS_LIST_SENT
  | POP_STATE_TRANS_DELE_SENT => Ok POP_STATE_TRANS_RETR_SENT
  | POP_STATE_TRANS_NOOP_SENT => Ok POP_STATE_TRANS_DELE_SENT
  | POP_STATE_TRANS_RSET_SENT => Ok POP_STATE_TRANS_NOOP_SENT
  | POP_STATE_TRANS_QUIT_SENT => Ok POP_STATE_TRANS_RSET_SENT
  | POP_STATE_TRANS_TOP_SENT => Ok POP_STATE_TRANS_QUIT_SENT
  | POP_STATE_TRANS_UIDL_SENT => Ok POP_STATE_TRANS_TOP_SENT
  | POP_STATE_UPDAT_QUIT_SENT => Ok POP_STATE_TRANS_UIDL_SENT
  end.

Definition CommandToString (command_in : POP_Command) : string :=
  switch command_in
    [(POP_COMMAND_AUTH_USER, "USER");
     (POP_COMMAND_AUTH_PASS, "PASS");
     (POP_COMMAND_AUTH_APOP, "APOP");
     (POP_COMMAND_AUTH_QUIT, "QUIT");
     (POP_COMMAND_TRANS_STAT, "STAT");
     (POP_COMMAND_TRANS_LIST, "LIST");
     (POP_COMMAND_TRANS_RETR, "RETR");
     (POP_COMMAND_TRANS_DELE, "DELE");
     (POP_COMMAND_TRANS_NOOP, "NOOP");
     (POP_COMMAND_TRANS_RSET, "RSET");
     (POP_COMMAND_TRANS_QUIT, "QUIT");
     (POP_COMMAND_TRANS_TOP, "TOP");
     (POP_COMMAND_TRANS_UIDL, "UIDL");
     (POP_COMMAND_UPDAT_QUIT, "QUIT")] "INVALID/UNKNOWN".

(** TRANS_STAT_SENT has no case *)
Definition StateToString (state_in : POP_ProtocolState) : string :=
  switch state_in
    [(POP_STATE_GREETING_RECEIVED, "GREETING_RECEIVED");
     (POP_STATE_AUTH_LOGIN_USER_SENT, "AUTH_LOGIN_USER_SENT");
     (POP_STATE_AUTH_LOGIN_PASSWORD_SENT, "AUTH_LOGIN_PASSWORD_SENT");
     (POP_STATE_AUTH_APOP_SENT, "AUTH_APOP_SENT");
     (POP_STATE_AUTH_QUIT_SENT, "AUTH_QUIT_SENT");
     (POP_STATE_TRANS_LIST_SENT, "TRANS_LIST_SENT");
     (POP_STATE_TRANS_RETR_SENT, "TRANS_RETR_SENT");
     (POP_STATE_TRANS_DELE_SENT, "TRANS_DELE_SENT");
     (POP_STATE_TRANS_NOOP_SENT, "TRANS_NOOP_SENT");
     (POP_STATE_TRANS_RSET_SENT, "TRANS_RSET_SENT");
     (POP_STATE_TRANS_QUIT_SENT, "TRANS_QUIT_SENT");
     (POP_STATE_TRANS_TOP_SENT, "TRANS_TOP_SENT");
     (POP_STATE_TRANS_UIDL_SENT, "TRANS_UIDL_SENT");
     (POP_STATE_UPDAT_QUIT_SENT, "UPDAT_QUIT_SENT")] "INVALID/UNKNOWN".

(** [data_r.status[0]], which is the terminator if the status is empty *)
Definition isSuccess (code_in : Z) : bool := code_in =? 0x2B.
Definition first_char (s : string) : Z := match s with "" => 0 | String c _ => code c end.

Record POP_Request := MkPopRequest { command : POP_Command; parameters : list string }.
(** what is used of a record that has been received *)
Record POP_Reply := Reply { status : string; text : list string }.

Definition POP_dump (record_in : POP_Reply) : string :=
  "status: " +:+ String "009" "" +:+ status record_in +:+ eol +:+ "text: (" +:+
  pretty (zlen (text record_in)) +:+ "):" +:+ eol +:+
  foldr (λ t s, t +:+ eol +:+ s) "text /END" (text record_in).

(** ** The module *)
Section Send.
(** the configuration *)
Variables username password : string.

(** the state of the module ([index_]), of the connection ([protocolState],
    [mailDropMessages]) and of the parser ([expectMultiline ()]) *)
Record receiver := Receiver {
  protocolState : POP_ProtocolState;
  mailDropMessages : Z;
  index_ : Z;
  multiline : bool
}.
Implicit Types (s : receiver) (r : POP_Reply).

Definition set_state (x : POP_ProtocolState) s : receiver :=
  Receiver x (mailDropMessages s) (index_ s) (multiline s).

(** what a reply leads to: the new state, the command that is sent, and whether the message
    is passed on *)
Definition result : Type := receiver * option POP_Request * bool.

(** from the end of the switch on: [sent] tells whether the message could be allocated and
    replied; if not, the state is decremented *)
Definition send (sent pass : bool) s (q : POP_Request) : outcome result :=
  if sent then Ok (s, Some q, pass)
  else x ← state_previous (protocolState s); Ok (set_state x s, None, pass).

(** the label [protocol_error], and the returns without a command *)
Definition quiet s : outcome result := Ok (s, None, false).

(** [^([[:digit:]]+) ([[:digit:]]+)$] *)
Definition stat_regex : regex :=
  Seqs [Group 1 (Plus digit); Lit " "; Group 2 (Plus digit)].

Definition on_stat r (sent : bool) s : outcome result :=
  match text r with
  | [] => Abort
  | line :: _ =>
      match regex_match line stat_regex with
      | None => quiet s
      | Some c =>
          match group 1 c, group 2 c with
          | Some n, Some _ =>
              let s := Receiver (protocolState s) (read_unsigned 32 (mailDropMessages s) n)
                         (index_ s) (multiline s) in
              if mailDropMessages s =? 0 then
                send sent false (set_state POP_STATE_TRANS_QUIT_SENT s)
                  (MkPopRequest POP_COMMAND_TRANS_QUIT [])
              else
                send sent false
                  (Receiver POP_STATE_TRANS_RETR_SENT (mailDropMessages s) 1 true)
                  (MkPopRequest POP_COMMAND_TRANS_RETR [pretty 1])
          | _, _ => Abort
          end
      end
  end.

Definition on_retrieved (sent : bool) s : outcome result :=
  let index := index_ s +u 1 in
  if mailDropMessages s <? index then
    send sent true (Receiver POP_STATE_TRANS_DELE_SENT (mailDropMessages s) 1 false)
      (MkPopRequest POP_COMMAND_TRANS_DELE [pretty 1])
  else
    send sent true
      (Receiver POP_STATE_TRANS_RETR_SENT (mailDropMessages s) index (multiline s))
      (MkPopRequest POP_COMMAND_TRANS_RETR [pretty index]).

(** the command is not set for the next message *)
Definition on_deleted (sent : bool) s : outcome result :=
  let index := index_ s +u 1 in
  if mailDropMessages s <? index then
    send sent false
      (Receiver POP_STATE_TRANS_QUIT_SENT (mailDropMessages s) index (multiline s))
      (MkPopRequest POP_COMMAND_TRANS_QUIT [])
  else
    send sent false
      (Receiver POP_STATE_TRANS_DELE_SENT (mailDropMessages s) index (multiline s))
      (MkPopRequest POP_COMMAND_INVALID [pretty index]).

(** the cases of the switch, for a reply that is a success *)
Definition on_success r (sent : bool) s : outcome result :=
  match protocolState s with
  | POP_STATE_INVALID =>
      x ← state_next POP_STATE_GREETING_RECEIVED;
      send sent false (set_state x s) (MkPopRequest POP_COMMAND_AUTH_USER [username])
  | POP_STATE_AUTH_LOGIN_USER_SENT =>
      x ← state_next (protocolState s);
      send sent false (set_state x s) (MkPopRequest POP_COMMAND_AUTH_PASS [password])
  | POP_STATE_AUTH_LOGIN_PASSWORD_SENT =>
      send sent false (set_state POP_STATE_TRANS_STAT_SENT s)
        (MkPopRequest POP_COMMAND_TRANS_STAT [])
  | POP_STATE_TRANS_STAT_SENT => on_stat r sent s
  | POP_STATE_TRANS_RETR_SENT => on_retrieved sent s
  | POP_STATE_TRANS_DELE_SENT => on_deleted sent s
  | _ => quiet s
  end.

(** the states without a case, and QUIT_SENT, send nothing either way *)
Definition handleDataMessage r (sent : bool) s : outcome result :=
  if isSuccess (first_char (status r)) then on_success r sent s else quiet s.

(** the commands that are sent for the replies of a server, and the replies that are
    passed on *)
Fixpoint run (rs : list (POP_Reply * bool)) s :
    outcome (receiver * list POP_Request * list POP_Reply) :=
  match rs with
  | [] => Ok (s, [], [])
  | (r, sent) :: rs' =>
      '(s, q, pass) ← handleDataMessage r sent s;
      '(s, qs, ms) ← run rs' s;
      Ok (s, option_list q ++ qs, (if pass : bool then [r] else []) ++ ms)
  end.
End Send.

(** the connection and the module at first *)
Definition receiver_init : receiver := Receiver POP_STATE_INVALID 0 0 false.

(** ** The streamer *)

(** a command with its first parameter, and one that may have it *)
Definition with_parameter (name : string) (q : POP_Request) : outcome (option (list string)) :=
  p ← deref (head (parameters q)); Ok (Some [name +:+ " "; p; crlf]).
Definition with_optional (name : string) (q : POP_Request) : outcome (option (list string)) :=
  Ok (Some (name :: match parameters q with [] => [] | p :: _ => [" "; p] end ++ [crlf])).

(** the strings that are copied for a command, [None] for one that is not known *)
Definition request_text (q : POP_Request) : outcome (option (list string)) :=
  match command q with
  | POP_COMMAND_AUTH_USER => with_parameter "USER" q
  | POP_COMMAND_AUTH_PASS => with_parameter "PASS" q
  | POP_COMMAND_AUTH_APOP => Abort
  | POP_COMMAND_AUTH_QUIT | POP_COMMAND_TRANS_QUIT | POP_COMMAND_UPDAT_QUIT =>
      Ok (Some ["QUIT" +:+ crlf])
  | POP_COMMAND_TRANS_STAT => Ok (Some ["STAT" +:+ crlf])
  | POP_COMMAND_TRANS_LIST => with_optional "LIST" q
  | POP_COMMAND_TRANS_RETR => with_parameter "RETR" q
  | POP_COMMAND_TRANS_DELE => with_parameter "DELE" q
  | POP_COMMAND_TRANS_NOOP => Ok (Some ["NOOP" +:+ crlf])
  | POP_COMMAND_TRANS_RSET => Ok (Some ["RSET" +:+ crlf])
  | POP_COMMAND_TRANS_TOP =>
      p ← deref (parameters q !! 0%nat); n ← deref (parameters q !! 1%nat);
      Ok (Some ["TOP "; p; " "; n; crlf])
  | POP_COMMAND_TRANS_UIDL => with_optional "UIDL" q
  | POP_COMMAND_MAX | POP_COMMAND_INVALID => Ok None
  end.

(** The message is passed on in any case; a copy that fails ends the writing. *)
Definition stream_request {B} `{WritableBlock B} (q : POP_Request) (message_inout : B) :
    outcome B :=
  t ← request_text q;
  match t with
  | None => Ok message_inout
  | Some ts => Ok (copy_all (string_bytes <$> ts) message_inout).1
  end.

(** ** Runs *)
Section Runs.
Context (username password : string).
Notation handle := (handleDataMessage username password).
Notation run := (run username password).
Implicit Types (s : receiver) (r : POP_Reply).

(** every reply can be answered *)
Definition answered (rs : list POP_Reply) : list (POP_Reply * bool) := (λ r, (r, true)) <$> rs.
Definition succeeds (r : POP_Reply) : Prop := isSuccess (first_char (status r)) = true.
(** the reply to STAT: the number of messages, and of bytes *)
Definition stat_text (n m : Z) : string := pretty n +:+ " " +:+ pretty m.

(** every reply is answered, and read as one of several lines when these are expected *)
Inductive talk : receiver → list (bool * POP_Reply) → receiver → list POP_Request → list POP_Reply → Prop :=
  | talk_end s : talk s [] s [] []
  | talk_step s r s' q pass rs s'' qs ms :
      handle r true s = Ok (s', Some q, pass) → talk s' rs s'' qs ms →
      talk s ((multiline s, r) :: rs) s'' (q :: qs) ((if pass : bool then [r] else []) ++ ms).

Lemma talk_run s rs s' qs ms : talk s rs s' qs ms → run (answered rs.*2) s = Ok (s', qs, ms).
Proof.
  induction 1 as [s|s r s' q pass rs s'' qs ms Hh _ IH]; [done|].
  change (answered ((multiline s, r) :: rs).*2) with ((r, true) :: answered rs.*2).
  cbn [PopClient.run]. rewrite Hh. cbn [mbind outcome_bind]. by rewrite IH.
Qed.

Lemma match_stat n m :
  0 <= n → 0 <= m →
  regex_match (stat_text n m) stat_regex = Some [(2%nat, pretty m); (1%nat, pretty n)].
Proof.
  intros Hn Hm. destruct (pretty_digits n Hn) as (Hna & _ & Hne).
  destruct (pretty_digits m Hm) as (Hma & _ & Hme).
  unfold regex_match, stat_regex, stat_text. cbn [Seqs].
  rewrite match_seq. apply match_group_run; [done|destruct (pretty n); [done|cbn; lia]|done|done|].
  rewrite match_seq, append_cons, append_nil, match_lit. rewrite <- (string_app_nil_r (pretty m)).
  apply match_group_run; [done|destruct (pretty m); [done|cbn; lia]|done|done|].
  by rewrite string_app_nil_r.
Qed.

Definition retr (i : Z) : POP_Request := MkPopRequest POP_COMMAND_TRANS_RETR [pretty i].
Definition dele (i : Z) : POP_Request := MkPopRequest POP_COMMAND_TRANS_DELE [pretty i].

(** replies of one line, and of several *)
Definition single (r : POP_Reply) : bool * POP_Reply := (false, r).
Definition several (r : POP_Reply) : bool * POP_Reply := (true, r).

(** The messages from the one behind [i] on are retrieved; the reply to each is passed
    on. *)
Lemma talk_retrieve n rs : ∀ i rest s' qs ms,
  Forall succeeds rs → 1 <= i → i + zlen rs = n + 1 → n < 2 ^ 32 - 1 → rs ≠ [] →
  talk (Receiver POP_STATE_TRANS_DELE_SENT n 1 false) rest s' qs ms →
  talk (Receiver POP_STATE_TRANS_RETR_SENT n i true) ((several <$> rs) ++ rest) s'
    ((retr <$> seqZ (i + 1) (n - i)) ++ dele 1 :: qs) (rs ++ ms).
Proof.
  induction rs as [|r rs IH]; [done|]. intros i rest s' qs ms Hrs Hi Hlen Hn _ Hrest.
  inversion Hrs as [|? ? Hr Hrs']; subst. rewrite zlen_cons in Hlen.
  pose proof (zlen_nonneg rs). assert (Hu : i +u 1 = i + 1) by (apply u32_small; lia).
  destruct rs as [|r' rs].
  - rewrite zlen_nil in Hlen. replace (n - i) with 0 by lia. cbn [seqZ Z.to_nat seq fmap list_fmap app].
    apply (talk_step (Receiver POP_STATE_TRANS_RETR_SENT n i true) r
      (Receiver POP_STATE_TRANS_DELE_SENT n 1 false) _ true rest _ _ ms); [|done].
    unfold handleDataMessage. rewrite Hr. cbn. unfold on_retrieved. cbn [index_ mailDropMessages].
    rewrite Hu. by rewrite (proj2 (Z.ltb_lt n (i + 1))) by lia.
  - rewrite zlen_cons in Hlen. pose proof (zlen_nonneg rs). rewrite seqZ_cons by lia.
    replace (Z.succ (i + 1)) with (i + 1 + 1) by lia.
    replace (Z.pred (n - i)) with (n - (i + 1)) by lia.
    apply (talk_step (Receiver POP_STATE_TRANS_RETR_SENT n i true) r
      (Receiver POP_STATE_TRANS_RETR_SENT n (i + 1) true) _ true _ _ _ ((r' :: rs) ++ ms)).
    + unfold handleDataMessage. rewrite Hr. cbn. unfold on_retrieved.
      cbn [index_ mailDropMessages]. rewrite Hu.
      by rewrite (proj2 (Z.ltb_ge n (i + 1))) by lia.
    + apply IH; [done|lia|rewrite zlen_cons; lia|lia|done|done].
Qed.

(** the session: what is sent, and the state it ends in *)
Definition session_requests (n : Z) : list POP_Request :=
  [MkPopRequest POP_COMMAND_AUTH_USER [username];
   MkPopRequest POP_COMMAND_AUTH_PASS [password];
   MkPopRequest POP_COMMAND_TRANS_STAT []] ++
  (retr <$> seqZ 1 n) ++
  [dele 1;
   if n =? 1 then MkPopRequest POP_COMMAND_TRANS_QUIT []
   else MkPopRequest POP_COMMAND_INVALID [pretty 2]].
Definition session_end (n : Z) : receiver :=
  Receiver (if n =? 1 then POP_STATE_TRANS_QUIT_SENT else POP_STATE_TRANS_DELE_SENT) n 2 false.
Lemma session_talk greeting user pass stat rs deleted n m lines
    (Hok : Forall succeeds ([greeting; user; pass; stat] ++ rs ++ [deleted]))
    (Hstat : text stat = stat_text n m :: lines) (Hn : 1 <= n < 2 ^ 32 - 1) (Hm : 0 <= m)
    (Hrs : zlen rs = n) :
  talk receiver_init
    ((single <$> [greeting; user; pass; stat]) ++ (several <$> rs) ++ [single deleted])
    (session_end n) (session_requests n) rs.
Proof.
  cbn [app] in Hok. repeat (apply Forall_cons in Hok as [? Hok]).
  apply Forall_app in Hok as [Hrok [Hd _]%Forall_cons]. unfold succeeds in *. cbn [app fmap list_fmap].
  eapply (talk_step receiver_init _ (Receiver POP_STATE_AUTH_LOGIN_USER_SENT 0 0 false) _ false _ _ _ rs).
  { unfold handleDataMessage. by rewrite H. }
  eapply (talk_step (Receiver POP_STATE_AUTH_LOGIN_USER_SENT 0 0 false) _
    (Receiver POP_STATE_AUTH_LOGIN_PASSWORD_SENT 0 0 false) _ false _ _ _ rs).
  { unfold handleDataMessage. by rewrite H0. }
  eapply (talk_step (Receiver POP_STATE_AUTH_LOGIN_PASSWORD_SENT 0 0 false) _
    (Receiver POP_STATE_TRANS_STAT_SENT 0 0 false) _ false _ _ _ rs).
  { unfold handleDataMessage. by rewrite H1. }
  rewrite seqZ_cons by lia. replace (Z.succ 1) with (1 + 1) by lia.
  replace (Z.pred n) with (n - 1) by lia. cbn [fmap list_fmap app].
  eapply (talk_step (Receiver POP_STATE_TRANS_STAT_SENT 0 0 false) _
    (Receiver POP_STATE_TRANS_RETR_SENT n 1 true) _ false _ _ _ rs).
  { unfold handleDataMessage. rewrite H2. cbn. unfold on_stat. rewrite Hstat.
    rewrite match_stat by lia. cbn [group Nat.eqb]. cbn [mailDropMessages].
    rewrite read_unsigned_pretty by lia. by rewrite (proj2 (Z.eqb_neq n 0)) by lia. }
  rewrite <- (app_nil_r rs) at 2. apply talk_retrieve; [done|lia|lia|lia| |].
  { intros ->. rewrite zlen_nil in Hrs. lia. }
  apply (talk_step (Receiver POP_STATE_TRANS_DELE_SENT n 1 false) _ (session_end n) _ false [] _ [] []);
    [|constructor].
  unfold handleDataMessage. rewrite Hd. cbn. unfold on_deleted. cbn [index_ mailDropMessages].
  change (1 +u 1) with 2. unfold session_end.
  destruct (n <? 2) eqn:E, (n =? 1) eqn:E1; bool_lia; done.
Qed.

(** When the server accepts each command, the client logs in, asks for the number of
    messages, retrieves each of them once, in order, and passes all of them on.  Then it
    deletes the first.  If that was the only one, it quits; if not, the request for the
    second has no command. *)
Lemma pop_session greeting user pass stat rs deleted n m lines
    (Hok : Forall succeeds ([greeting; user; pass; stat] ++ rs ++ [deleted]))
    (Hstat : text stat = stat_text n m :: lines) (Hn : 1 <= n < 2 ^ 32 - 1) (Hm : 0 <= m)
    (Hrs : zlen rs = n) :
  run (answered ([greeting; user; pass; stat] ++ rs ++ [deleted])) receiver_init =
    Ok (session_end n, session_requests n, rs).
Proof.
  erewrite <- talk_run by by eapply session_talk. do 2 f_equal.
  rewrite !fmap_app, <- !list_fmap_compose, !list_fmap_id. done.
Qed.

(** A maildrop with more than one message is not emptied.  When the first has been
    deleted, the message that is sent for the second has no bytes, so that no reply comes
    to which QUIT would be the answer (without QUIT, the server deletes nothing). *)
Theorem second_delete_lost n i b r
    (Hr : succeeds r) (Hi : 0 <= i) (Hn : i + 1 <= n < 2 ^ 32) :
  ∃ s' q, handle r true (Receiver POP_STATE_TRANS_DELE_SENT n i b) = Ok (s', Some q, false) ∧
    protocolState s' = POP_STATE_TRANS_DELE_SENT ∧
    ∀ B `{WritableBlock B} (block : B), stream_request q block = Ok block.
Proof.
  exists (Receiver POP_STATE_TRANS_DELE_SENT n (i + 1) b),
    (MkPopRequest POP_COMMAND_INVALID [pretty (i + 1)]).
  split_and!; [|done|done].
  unfold handleDataMessage. rewrite Hr. cbn. unfold on_deleted. cbn [index_ mailDropMessages].
  assert (i +u 1 = i + 1) as -> by (apply u32_small; lia).
  by rewrite (proj2 (Z.ltb_ge n (i + 1))) by lia.
Qed.
End Runs.

Definition pop_ok (text : list string) : POP_Reply := Reply "+OK" text.
Lemma pop_session_witness :
  run "me" "secret" (answered ([pop_ok []; pop_ok []; pop_ok []; pop_ok ["2 320"]] ++
    [pop_ok ["one"]; pop_ok ["two"]] ++ [pop_ok []])) receiver_init =
  Ok (Receiver POP_STATE_TRANS_DELE_SENT 2 2 false,
      [MkPopRequest POP_COMMAND_AUTH_USER ["me"]; MkPopRequest POP_COMMAND_AUTH_PASS ["secret"];
       MkPopRequest POP_COMMAND_TRANS_STAT []] ++ [retr 1; retr 2] ++
      [dele 1; MkPopRequest POP_COMMAND_INVALID ["2"]],
      [pop_ok ["one"]; pop_ok ["two"]]).
Proof.
  apply (pop_session "me" "secret" (pop_ok []) (pop_ok []) (pop_ok []) (pop_ok ["2 320"])
    [pop_ok ["one"]; pop_ok ["two"]] (pop_ok []) 2 320 []); [|reflexivity|lia|lia|reflexivity].
  repeat constructor.
Defined.

Lemma second_delete_lost_witness :
  ∃ s' q, handleDataMessage "me" "secret" (pop_ok []) true
      (Receiver POP_STATE_TRANS_DELE_SENT 2 1 false) = Ok (s', Some q, false) ∧
    protocolState s' = POP_STATE_TRANS_DELE_SENT ∧
    ∀ B `{WritableBlock B} (block : B), stream_request q block = Ok block.
Proof. apply (second_delete_lost "me" "secret" 2 1); [reflexivity|lia|lia]. Defined.
