(* ===== verification/PopReply.v ===== *)
(** * The replies to the POP client (protocol/pop: scripts/scanner.l, scripts/parser.y,
    pop_parser_driver.inl)

    The scanner and the parser that read the reply of a server, and a session of the client
    of [PopClient] from the octets that it receives.  The option [block] is set; the offset that
    the rules count is not used. *)
From S2P Require Import Prelude MessageBlock Chars Decimal Regex Lex Fragments Replies PopClient.

Inductive condition :=
  | INITIAL | reply_code | text_begin | text_ | multiline_text | multiline_text_begin
  | multiline_text_end.
(** the condition, [yylval->sval] and the flag of the driver *)
Record scanner := MkScanner { cond : condition; sval : option string; expectMultiline : bool }.
Inductive token := REPLY_CODE (sval : string) | REPLY_TEXT (sval : string) | REPLY_TEXT_END.
Notation scanned := (scanned scanner token).

(** ** The rules *)
Definition OK : re := Lex.text "+OK".
Definition ERR : re := Lex.text "-ERR".
Definition DOT : re := lits [46].
Definition MINUS : re := lits [45].
Definition PLUS : re := lits [43].
Definition SPACE : Z → bool := Z.eqb 32.

Inductive action :=
  | Look | ReplyCode | Spaces | EndOfStatus | LastDot | Stuffed | EmptyLine | FirstOctet
  | EndOfText | Line | EndOfLine | RestOfLine.
(** the expressions, the length of their trailing context, and what is done *)
Definition rules (c : condition) : list (re * (nat * action)) :=
  match c with
  | INITIAL => [(PLUS, (0, Look)); (MINUS, (0, Look))]
  | reply_code => [(OK, (0, ReplyCode)); (ERR, (0, ReplyCode))]
  | text_begin => [(Many1 (Cls SPACE), (0, Spaces)); (CRLF, (0, EndOfStatus))]
  | multiline_text_begin =>
      [(Cat DOT CRLF, (2, LastDot)); (DOT, (0, Stuffed)); (CRLF, (0, EmptyLine)); (OCTET, (0, FirstOctet))]
  | multiline_text_end => [(CRLF, (0, EndOfText))]
  | text_ => [(CRLF, (0, EndOfText)); (Cat (Many OCTET_NO_CR) CRLF, (2, Line))]
  | multiline_text => [(CRLF, (0, EndOfLine)); (Cat (Many OCTET_NO_CR) CRLF, (2, RestOfLine))]
  end%nat.

Definition begin_ (c : condition) (s : scanner) : scanner := MkScanner c (sval s) (expectMultiline s).
Definition set_sval (v : string) (s : scanner) : scanner := MkScanner (cond s) (Some v) (expectMultiline s).
(** where the status line ends *)
Definition behind_status (c : condition) (s : scanner) : scanner :=
  begin_ (if expectMultiline s then multiline_text_begin else c) s.
(** [yylval->sval->append (t)], of a string that has been allocated *)
Definition append (t : string) (s : scanner) : outcome (string * scanner) :=
  match sval s with Some v => Ok (v +:+ t, set_sval (v +:+ t) s) | None => Undef end.

Definition perform (a : action) (s : scanner) (yytext bs : list Z) (i : input) : outcome scanned :=
  let t := bytes_string (c_string yytext) in
  match a with
  | Look => Ok (Matched (begin_ reply_code s) ((yytext ++ bs) :: i))
  | ReplyCode => Ok (Token (REPLY_CODE t) (begin_ text_begin (set_sval t s)) (bs :: i))
  | Spaces => Ok (Matched (behind_status text_ (set_sval "" s)) (bs :: i))
  | EndOfStatus =>
      let s := behind_status reply_code s in
      Ok (if expectMultiline s then Matched s (bs :: i) else Token REPLY_TEXT_END s (bs :: i))
  | LastDot => Ok (Matched (begin_ multiline_text_end s) (bs :: i))
  | Stuffed => Ok (Matched (begin_ multiline_text (set_sval "" s)) (bs :: i))
  | EmptyLine => Ok (Matched (set_sval t s) (bs :: i))
  | FirstOctet => Ok (Matched (begin_ multiline_text (set_sval t s)) (bs :: i))
  | EndOfText => Ok (Token REPLY_TEXT_END (begin_ reply_code s) (bs :: i))
  | Line => '(_, s) ← append "" s; Ok (Token (REPLY_TEXT t) (set_sval t s) (bs :: i))
  | EndOfLine => '(v, s) ← append t s; Ok (Token (REPLY_TEXT v) (begin_ multiline_text_begin s) (bs :: i))
  | RestOfLine => '(_, s) ← append t s; Ok (Matched s (bs :: i))
  end.
Definition rule (s : scanner) (bs : list Z) (i : input) : option (outcome scanned) :=
  '(n, (k, a)) ← pick (rules (cond s)) bs; Some (perform a s (take (n - k) bs) (drop (n - k) bs) i).

(** an octet that no rule takes: the end *)
Definition any_octet (s : scanner) (bs : list Z) (i : input) : outcome scanned := Ok (End_ s (drop 1 bs :: i)).
Definition lex (fuel : nat) (s : scanner) (i : input) : outcome scanned :=
  scan rule (λ _, false) id any_octet fuel s i.
Definition yylex (s : scanner) (i : input) : outcome scanned := lex (scan_fuel i) s i.

(** ** The grammar *)
Inductive parsed :=
  | Parsed (r : POP_Reply) (s : scanner) (i : input)
  | Failed (s : scanner)
  | Waiting.
Definition unexpected (m : scanned) : outcome parsed :=
  Ok match m with Token _ s _ | End_ s _ | Matched s _ => Failed s | Waits => Waiting end.
Fixpoint text_lines (fuel : nat) (r : POP_Reply) (s : scanner) (i : input) : outcome parsed :=
  match fuel with
  | O => Ok Waiting
  | S fuel' =>
      m ← yylex s i;
      match m with
      | Token (REPLY_TEXT t) s i => text_lines fuel' (Reply (status r) (text r ++ [t])) s i
      | Token REPLY_TEXT_END s i => Ok (Parsed r s i)
      | other => unexpected other
      end
  end.
(** every line but the last takes an octet of those that are left *)
Definition lines_fuel (i : input) : nat := S (length (mjoin i)).
Definition message (s : scanner) (i : input) : outcome parsed :=
  m ← yylex s i;
  match m with
  | Token (REPLY_CODE c) s i => text_lines (lines_fuel i) (Reply c []) s i
  | other => unexpected other
  end.
(** [parse ()], of the fragments that have been received: the condition is that in which the
    last reply has left the scanner, [yylval] is new.  What is behind the reply is not read: the
    module passes the fragments on ([record ()]). *)
Definition parse (s : scanner) (i : input) : outcome parsed :=
  message (MkScanner (cond s) None (expectMultiline s)) i.

(** ** What the rules take *)
Lemma pop_ruled s p q i n k a :
  pick (rules (cond s)) (p ++ q) = Some (n, (k, a)) → n = (length p + k)%nat →
  rule s (p ++ q) i = Some (perform a s p q i).
Proof.
  intros Hp ->. unfold rule. rewrite Hp. cbn [mbind option_bind]. rewrite Nat.add_sub.
  by rewrite take_app_length, drop_app_length.
Qed.

(** ** Replies as RFC 1939 has them *)
Definition status_ok (c : string) : Prop := c = "+OK" ∨ c = "-ERR".
(** a text behind a status: it does not begin with a space *)
Definition text_ok (t : string) : bool :=
  line_ok t && match t with "" => false | String c _ => negb (Ascii.eqb c " ") end.
Definition status_line (c t : string) : list Z := 
  string_bytes c ++ [32] ++ string_bytes (t +:+ crlf).
(** the scanner when a reply is to begin *)
Definition at_reply (s : scanner) : Prop := cond s = INITIAL ∨ cond s = reply_code.

Lemma goes_on_any (s : scanner) : goes_on (λ _, false) id s.
Proof. by split. Qed.

Lemma look_ruled s c u i :
  cond s = INITIAL → status_ok c →
  rule s (string_bytes c ++ u) i = Some (Ok (Matched (begin_ reply_code s) ((string_bytes c ++ u) :: i))).
Proof.
  intros Hs Hc.
  assert (∃ x l, string_bytes c = [x] ++ l ∧ ∀ v, pick (rules INITIAL) ([x] ++ v) = Some (1%nat, (0%nat, Look)))
    as (x & l & -> & Hp).
  { destruct Hc as [-> | ->]; eexists _, _; (split; [reflexivity|]); intros v; cbn [rules pick].
    - rewrite (longest_residual PLUS) by done. cbn [app]. unfold MINUS. by rewrite lits_none.
    - rewrite (longest_residual MINUS) by done. cbn [app]. unfold PLUS. by rewrite lits_none. }
  rewrite <- (assoc_L (++)), (pop_ruled _ _ _ _ 1 0 Look) by (rewrite ?Hs; done). done.
Qed.
Lemma code_ruled s c u i :
  cond s = reply_code → status_ok c →
  rule s (string_bytes c ++ u) i =
    Some (Ok (Token (REPLY_CODE c) (MkScanner text_begin (Some c) (expectMultiline s)) (u :: i))).
Proof.
  intros Hs Hc.
  assert (pick (rules reply_code) (string_bytes c ++ u) = Some (length (string_bytes c), (0%nat, ReplyCode))) as Hp.
  { cbn [rules pick]. destruct Hc as [-> | ->].
    - by rewrite (longest_residual OK), (longest_prefix ERR).
    - by rewrite (longest_prefix OK), (longest_residual ERR). }
  rewrite (pop_ruled _ _ _ _ _ 0 ReplyCode) by (rewrite ?Hs, ?Nat.add_0_r; done).
  unfold perform. by destruct Hc as [-> | ->].
Qed.

(** the status *)
Lemma status_lexed s c t ps rest i :
  at_reply s → status_ok c → uncut (status_line c t :: ps) rest i →
  ∃ f j, yylex s i = Ok (Token (REPLY_CODE c) (MkScanner text_begin (Some c) (expectMultiline s))
      ((([32] ++ string_bytes (t +:+ crlf)) ++ f) :: j)) ∧ uncut ps rest (f :: j).
Proof.
  intros Hs Hc Hu. unfold status_line in Hu.
  assert (string_bytes c ≠ []) as Hne by (by destruct Hc as [-> | ->]).
  destruct Hs as [Hs|Hs].
  - eapply (scan_look rule); [exact Hu|done|apply goes_on_any|unfold scan_fuel; fold (size i); lia| |].
    + intros f j. by apply look_ruled.
    + intros f j. by rewrite code_ruled.
  - eapply (scan_token rule); [exact Hu|done|apply goes_on_any|unfold scan_fuel; fold (size i); lia|].
    intros f j. by rewrite code_ruled.
Qed.

(** what is behind it *)
Lemma spaces_ruled s t f i :
  cond s = text_begin → text_ok t = true →
  rule s ([32] ++ string_bytes (t +:+ crlf) ++ f) i =
    Some (Ok (Matched (behind_status text_ (set_sval "" s)) ((string_bytes (t +:+ crlf) ++ f) :: i))).
Proof.
  intros Hs Ht. rewrite (pop_ruled _ _ _ _ 1 0 Spaces); [done| |done]. rewrite Hs. cbn [rules pick].
  rewrite (longest_run SPACE [32]); [|done|by repeat constructor|].
  - cbn [app length]. unfold CRLF. by rewrite lits_none.
  - destruct t as [|c t]; [done|]. unfold text_ok in Ht. apply andb_true_iff in Ht as [_ Hc%negb_true_iff].
    rewrite append_cons. change (SPACE (code c) = false). unfold SPACE. apply Z.eqb_neq. intros E. apply Ascii.eqb_neq in Hc. apply Hc.
    by rewrite <- (chr_code c), <- E.
Qed.

(** the text of a reply of one line, and its end *)
Lemma pop_text_lexed s v t f j n :
  cond s = text_ → sval s = Some v → line_ok t = true → t ≠ "" →
  (size ((string_bytes (t +:+ crlf) ++ f) :: j) <= n)%nat →
  lex n s ((string_bytes (t +:+ crlf) ++ f) :: j) =
    Ok (Token (REPLY_TEXT t) (set_sval t s) (([13; 10] ++ f) :: j)).
Proof.
  intros Hs Hv Ht Hne Hn. destruct (line_octets t Ht) as [Hcr Hc].
  rewrite string_bytes_app, <- (assoc_L (++)) in *. change (string_bytes crlf) with [13; 10] in *.
  apply (scan_give rule); [by destruct t|done|].
  rewrite (pop_ruled _ _ _ _ (length (string_bytes t) + 2) 2 Line); [| |done].
  - unfold perform, append. rewrite Hv. cbn [mbind outcome_bind]. by rewrite Hc, bytes_string_bytes.
  - rewrite Hs. apply line_picked; [by destruct t|done].
Qed.
Lemma end_lexed s f j n :
  cond s = text_ → (size (([13; 10]%Z ++ f) :: j) <= n)%nat →
  lex n s (([13; 10] ++ f) :: j) = Ok (Token REPLY_TEXT_END (begin_ reply_code s) (f :: j)).
Proof.
  intros Hs Hn. apply (scan_give rule); [done|done|].
  rewrite (pop_ruled _ _ _ _ 2 0 EndOfText); [done| |done]. rewrite Hs. apply line_end_picked.
Qed.

(** a reply of one line *)
Lemma single_parsed s c t ps rest i :
  at_reply s → expectMultiline s = false → status_ok c → text_ok t = true →
  uncut (status_line c t :: ps) rest i →
  ∃ s' i', parse s i = Ok (Parsed (Reply c [t]) s' i') ∧ at_reply s' ∧ uncut ps rest i'.
Proof.
  intros Hs Hm Hc Ht Hu. pose proof Ht as [Hl Ht']%andb_true_iff.
  assert (t ≠ "") as Hne by (by destruct t).
  unfold parse, message. destruct (status_lexed (MkScanner (cond s) None (expectMultiline s)) c t ps rest i)
    as (f & j & -> & Hj); [done..|]. rewrite <- (assoc_L (++)). cbn [mbind outcome_bind expectMultiline].
  set (i1 := ([32] ++ string_bytes (t +:+ crlf) ++ f) :: j).
  assert (2 <= lines_fuel i1)%nat as Hf by (unfold lines_fuel; cbn; lia). rewrite Hm.
  destruct (scan_take rule (λ _, false) id any_octet (MkScanner text_begin (Some c) false) [32]
    (string_bytes (t +:+ crlf) ++ f) j _ (scan_fuel i1) ltac:(done) (scan_fuel_size i1)
    (spaces_ruled (MkScanner text_begin (Some c) false) t f j eq_refl Ht)) as (n1 & E1 & Hn1).
  destruct (lines_fuel i1) as [|n]; [lia|]. cbn [text_lines].
  rewrite (E1 : yylex _ i1 = lex n1 _ _). rewrite (pop_text_lexed _ "") by done. cbn [mbind outcome_bind].
  destruct n as [|n]; [lia|]. cbn [text_lines]. unfold yylex.
  rewrite end_lexed by (done || apply scan_fuel_size). cbn [mbind outcome_bind].
  eexists _, _. split; [reflexivity|]. by split; [right|].
Qed.

(** ** Several lines *)

(** a line, with its first dot doubled *)
Definition sent_line (l : string) : list Z :=
  string_bytes ((match l with String c _ => if Ascii.eqb c "." then "." else "" | "" => "" end) +:+ l +:+ crlf).
Definition last_line : list Z := string_bytes ("." +:+ crlf).
(** what is made of the lines: those that are empty are lost *)
Definition read_lines (ls : list string) : list string :=
  ls ≫= λ l, if decide (l = "") then [] else [l +:+ crlf].

Lemma rest_lexed s v l f j n :
  cond s = multiline_text → sval s = Some v → line_ok l = true →
  (size ((string_bytes (l +:+ crlf) ++ f) :: j) <= n)%nat →
  lex n s ((string_bytes (l +:+ crlf) ++ f) :: j) =
    Ok (Token (REPLY_TEXT (v +:+ l +:+ crlf))
          (MkScanner multiline_text_begin (Some (v +:+ l +:+ crlf)) (expectMultiline s)) (f :: j)).
Proof.
  intros Hs Hv Hl Hn. destruct (line_octets l Hl) as [Hcr Hc].
  rewrite string_bytes_app, <- (assoc_L (++)) in *. change (string_bytes crlf) with [13; 10] in *.
  assert (∀ s v n, cond s = multiline_text → sval s = Some v → (size (([13; 10]%Z ++ f) :: j) <= n)%nat →
    lex n s (([13; 10] ++ f) :: j) = Ok (Token (REPLY_TEXT (v +:+ crlf))
      (MkScanner multiline_text_begin (Some (v +:+ crlf)) (expectMultiline s)) (f :: j))) as He.
  { clear. intros s v n Hs Hv Hn. apply (scan_give rule); [done|done|].
    rewrite (pop_ruled _ _ _ _ 2 0 EndOfLine); [|by rewrite Hs; apply line_end_picked|done].
    unfold perform, append. by rewrite Hv. }
  destruct (decide (l = "")) as [->|Hne]; [by apply He|].
  destruct (scan_take rule (λ _, false) id any_octet s (string_bytes l) ([13; 10] ++ f) j
    (set_sval (v +:+ l) s) n) as (n' & E & Hn'); [by destruct l|done| |].
  { rewrite (pop_ruled _ _ _ _ (length (string_bytes l) + 2) 2 RestOfLine); [| |done].
    - unfold perform, append. rewrite Hv. cbn [mbind outcome_bind]. by rewrite Hc, bytes_string_bytes.
    - rewrite Hs. apply line_picked; [by destruct l|done]. }
  unfold lex. rewrite E. fold lex. change (scan rule (λ _, false) id any_octet) with lex.
  rewrite (He _ (v +:+ l)) by done. by rewrite !string_app_assoc.
Qed.

(** the beginning of a line *)
Lemma stuffed_picked u : pick (rules multiline_text_begin) ([46] ++ [46] ++ u) = Some (1%nat, (0%nat, Stuffed)).
Proof.
  cbn [rules pick]. rewrite (longest_residual DOT) by done.
  change ([46] ++ [46] ++ u) with ([46; 46] ++ u). rewrite (longest_prefix (Cat DOT CRLF)) by done.
  change ([46; 46] ++ u) with (46 :: 46 :: u). unfold CRLF. by rewrite lits_none, octet_longest.
Qed.
Lemma first_octet_picked x u :
  x ≠ 46 → x ≠ 13 → pick (rules multiline_text_begin) ([x] ++ u) = Some (1%nat, (0%nat, FirstOctet)).
Proof.
  intros H46 H13. cbn [rules pick app]. rewrite octet_longest. unfold DOT, CRLF.
  rewrite !lits_none by done. rewrite longest_dead; [done| |done].
  cbn. by rewrite (proj2 (Z.eqb_neq x 46)).
Qed.
Lemma empty_picked u : pick (rules multiline_text_begin) ([13; 10] ++ u) = Some (2%nat, (0%nat, EmptyLine)).
Proof.
  cbn [rules pick]. rewrite (longest_residual CRLF) by done. cbn [app]. rewrite octet_longest.
  unfold DOT. rewrite lits_none by done. by rewrite longest_dead.
Qed.
Lemma last_picked u : pick (rules multiline_text_begin) ([46] ++ [13; 10] ++ u) = Some (3%nat, (2%nat, LastDot)).
Proof.
  cbn [rules pick]. change ([46] ++ [13; 10] ++ u) with ([46; 13; 10] ++ u).
  rewrite (longest_residual (Cat DOT CRLF)) by done.
  change ([46; 13; 10] ++ u) with ([46] ++ 13 :: 10 :: u). rewrite (longest_residual DOT) by done.
  cbn [app]. unfold CRLF. by rewrite lits_none, octet_longest.
Qed.

Lemma line_lexed s l f j n :
  cond s = multiline_text_begin → line_ok l = true → l ≠ "" →
  (size ((sent_line l ++ f) :: j) <= n)%nat →
  lex n s ((sent_line l ++ f) :: j) =
    Ok (Token (REPLY_TEXT (l +:+ crlf))
          (MkScanner multiline_text_begin (Some (l +:+ crlf)) (expectMultiline s)) (f :: j)).
Proof.
  intros Hs Hl Hne Hn. destruct l as [|c l]; [done|]. unfold sent_line in *.
  destruct (Ascii.eqb c ".") eqn:Ec.
  - apply Ascii.eqb_eq in Ec as ->. rewrite string_bytes_app, <- (assoc_L (++)) in *.
    change (string_bytes ".") with [46] in *.
    destruct (scan_take rule (λ _, false) id any_octet s [46] (string_bytes (String "." l +:+ crlf) ++ f) j
      (begin_ multiline_text (set_sval "" s)) n) as (n' & E & Hn'); [done|done| |].
    { rewrite (pop_ruled _ _ _ _ 1 0 Stuffed); [done| |done]. rewrite Hs.
      rewrite append_cons. change (string_bytes (String "." (l +:+ crlf)))
        with ([46] ++ string_bytes (l +:+ crlf)). rewrite <- (assoc_L (++)). apply stuffed_picked. }
    unfold lex. rewrite E. change (scan rule (λ _, false) id any_octet) with lex.
    by rewrite (rest_lexed _ "").
  - rewrite append_nil, append_cons in *.
    change (string_bytes (String c (l +:+ crlf))) with ([code c] ++ string_bytes (l +:+ crlf)) in *.
    rewrite <- (assoc_L (++)) in *. cbn [line_ok string_all] in Hl.
    apply andb_true_iff in Hl as [Hc Hl].
    destruct (line_octets (String c "")) as [Hcr Hcs]; [cbn; by rewrite Hc|].
    destruct (scan_take rule (λ _, false) id any_octet s [code c] (string_bytes (l +:+ crlf) ++ f) j
      (begin_ multiline_text (set_sval (String c "") s)) n) as (n' & E & Hn'); [done|done| |].
    { rewrite (pop_ruled _ _ _ _ 1 0 FirstOctet); [| |done].
      - unfold perform. change [code c] with (string_bytes (String c "")).
        by rewrite Hcs, bytes_string_bytes.
      - rewrite Hs. apply first_octet_picked.
        + intros E. apply Ascii.eqb_neq in Ec. apply Ec. by rewrite <- (chr_code c), E.
        + apply Forall_cons_1 in Hcr as [H13 _]. intros E. by rewrite E in H13. }
    unfold lex. rewrite E. change (scan rule (λ _, false) id any_octet) with lex.
    by rewrite (rest_lexed _ (String c "")).
Qed.
Lemma pop_last_lexed s f j n :
  cond s = multiline_text_begin → (size ((last_line ++ f) :: j) <= n)%nat →
  lex n s ((last_line ++ f) :: j) = Ok (Token REPLY_TEXT_END (begin_ reply_code s) (f :: j)).
Proof.
  intros Hs Hn. change (last_line ++ f) with ([46] ++ [13; 10] ++ f) in *.
  destruct (scan_take rule (λ _, false) id any_octet s [46] ([13; 10] ++ f) j
    (begin_ multiline_text_end s) n) as (n' & E & Hn'); [done|done| |].
  { rewrite (pop_ruled _ _ _ _ 3 2 LastDot); [done|rewrite Hs; apply last_picked|done]. }
  unfold lex. rewrite E. apply (scan_give rule); [done|done|].
  rewrite (pop_ruled _ _ _ _ 2 0 EndOfText); [done| |done]. cbn [begin_ cond rules pick].
  by rewrite (longest_residual CRLF).
Qed.

(** The lines from the next on: [lex] may have passed empty ones. *)
Definition behind_token (fuel : nat) (r : POP_Reply) (m : scanned) : outcome parsed :=
  match m with
  | Token (REPLY_TEXT t) s i => text_lines fuel (Reply (status r) (text r ++ [t])) s i
  | Token REPLY_TEXT_END s i => Ok (Parsed r s i)
  | other => unexpected other
  end.
Lemma text_lines_step fuel r s i :
  text_lines (S fuel) r s i = (m ← yylex s i; behind_token fuel r m).
Proof. done. Qed.
Lemma pop_lines_parsed ls : ∀ r s ps rest i n fuel,
  cond s = multiline_text_begin → Forall (λ l, line_ok l = true) ls →
  uncut ((sent_line <$> ls) ++ last_line :: ps) rest i → (size i <= n)%nat → (length ls <= fuel)%nat →
  ∃ s' i', (m ← lex n s i; behind_token fuel r m) =
      Ok (Parsed (Reply (status r) (text r ++ read_lines ls)) s' i') ∧ at_reply s' ∧ uncut ps rest i'.
Proof.
  induction ls as [|l ls IH]; intros r s ps rest i n fuel Hs Hls Hu Hn Hf.
  - destruct (scan_buffer rule (λ _, false) id any_octet s last_line ps rest i n Hu) as
      (f & j & n' & E & Hj & Hn'); [done|apply goes_on_any|done|].
    unfold lex. rewrite E. change (scan rule (λ _, false) id any_octet) with lex.
    rewrite pop_last_lexed by done. cbn [mbind outcome_bind behind_token].
    eexists _, _. split; [by rewrite app_nil_r; destruct r|]. by split; [right|].
  - apply Forall_cons_1 in Hls as [Hl Hls]. cbn [fmap list_fmap app] in Hu.
    destruct (scan_buffer rule (λ _, false) id any_octet s (sent_line l) _ rest i n Hu) as
      (f & j & n' & E & Hj & Hn'); [by destruct l as [|c l]; [|unfold sent_line; destruct (Ascii.eqb c ".")]|apply goes_on_any|done|].
    unfold lex. rewrite E. change (scan rule (λ _, false) id any_octet) with lex.
    cbn [read_lines mbind list_bind]. destruct (decide (l = "")) as [->|Hne].
    + change (sent_line "") with [13; 10] in *.
      destruct (scan_take rule (λ _, false) id any_octet s [13; 10] f j (set_sval crlf s) n')
        as (n2 & E2 & Hn2); [done|done| |].
      { rewrite (pop_ruled _ _ _ _ 2 0 EmptyLine); [done|rewrite Hs; apply empty_picked|done]. }
      unfold lex. rewrite E2. by apply IH; [..|cbn in Hf; lia].
    + rewrite line_lexed by done. cbn [mbind outcome_bind behind_token].
      destruct fuel as [|fuel]; [cbn in Hf; lia|]. rewrite text_lines_step.
      destruct (IH (Reply (status r) (text r ++ [l +:+ crlf]))
        (MkScanner multiline_text_begin (Some (l +:+ crlf)) (expectMultiline s)) ps rest (f :: j)
        (scan_fuel (f :: j)) fuel) as (s' & i' & E' & Hs' & Hi');
        [done|done|done|apply scan_fuel_size|cbn in Hf; lia|].
      exists s', i'. split; [|done]. etrans; [exact E'|]. cbn [status text]. by rewrite <- (assoc_L (++)).
Qed.

(** a text that is also read as a line *)
Definition plain (t : string) : bool :=
  text_ok t && match t with String c _ => negb (Ascii.eqb c ".") | "" => true end.
Lemma plain_sent t : plain t = true → sent_line t = string_bytes (t +:+ crlf).
Proof.
  unfold plain, sent_line. rewrite andb_true_iff. destruct t as [|c t]; [done|].
  intros [_ Hc%negb_true_iff]. by rewrite Hc, append_nil.
Qed.
Lemma status_read s c t ps rest i :
  at_reply s → expectMultiline s = true → status_ok c → plain t = true →
  uncut (status_line c t :: ps) rest i →
  ∃ f j n fuel, parse s i = (m ← lex n (MkScanner multiline_text_begin (Some "") true) ((sent_line t ++ f) :: j);
      behind_token fuel (Reply c []) m) ∧
    uncut ps rest (f :: j) ∧ (size ((sent_line t ++ f) :: j) <= n)%nat ∧
    (length (mjoin ((sent_line t ++ f) :: j)) <= fuel)%nat.
Proof.
  intros Hs Hm Hc Hp Hu. rewrite plain_sent by done. pose proof Hp as [Ht _]%andb_true_iff.
  unfold parse, message. destruct (status_lexed (MkScanner (cond s) None (expectMultiline s)) c t ps rest i)
    as (f & j & -> & Hj); [done..|]. rewrite <- (assoc_L (++)). cbn [mbind outcome_bind expectMultiline].
  set (i1 := ([32] ++ string_bytes (t +:+ crlf) ++ f) :: j). rewrite Hm.
  destruct (scan_take rule (λ _, false) id any_octet (MkScanner text_begin (Some c) true) [32]
    (string_bytes (t +:+ crlf) ++ f) j _ (scan_fuel i1) ltac:(done) (scan_fuel_size i1)
    (spaces_ruled (MkScanner text_begin (Some c) true) t f j eq_refl Ht)) as (n1 & E1 & Hn1).
  unfold lines_fuel. rewrite text_lines_step, (E1 : yylex _ i1 = lex n1 _ _).
  exists f, j, n1, (length (mjoin i1)). split_and!; [done|done|done|]. unfold i1. cbn. lia.
Qed.
Lemma sent_lines_length ls : (length ls <= length (mjoin (sent_line <$> ls)))%nat.
Proof.
  induction ls as [|l ls IH]; [done|]. change (mjoin (sent_line <$> l :: ls)) with (sent_line l ++ mjoin (sent_line <$> ls)).
  unfold sent_line at 1. rewrite length_app, !string_bytes_app, !length_app.
  change (length (string_bytes crlf)) with 2%nat. cbn [length]. lia.
Qed.

(** a reply of several lines, the first of which is the text behind the status *)
Lemma several_parsed s c t ls ps rest i :
  at_reply s → expectMultiline s = true → status_ok c → plain t = true →
  Forall (λ l, line_ok l = true) ls →
  uncut (status_line c t :: (sent_line <$> ls) ++ last_line :: ps) rest i →
  ∃ s' i', parse s i = Ok (Parsed (Reply c (read_lines (t :: ls))) s' i') ∧ at_reply s' ∧ uncut ps rest i'.
Proof.
  intros Hs Hm Hc Hp Hls Hu. pose proof Hp as [[Ht _]%andb_true_iff _]%andb_true_iff.
  destruct (status_read s c t _ rest i Hs Hm Hc Hp Hu) as (f & j & n & fuel & -> & Hj & Hn & Hf).
  apply (pop_lines_parsed (t :: ls)); [done|by constructor|by constructor|done|].
  pose proof (f_equal length (uncut_join _ _ _ Hj)) as E. pose proof (sent_lines_length ls).
  rewrite join_app, !length_app in E.
  change (mjoin ((sent_line t ++ f) :: j)) with ((sent_line t ++ f) ++ mjoin j) in Hf.
  rewrite <- (assoc_L (++)), length_app in Hf. change (mjoin (f :: j)) with (f ++ mjoin j) in E.
  rewrite E in Hf.
  assert (1 <= length (sent_line t))%nat; [|cbn [length]; lia].
  rewrite plain_sent by done. rewrite string_bytes_app, length_app. cbn. lia.
Qed.

(** POP_ParserDriver_T::parse, an error in reply to a command whose success has several lines:
    the scanner looks for the last line of it, and waits for more of the reply *)
Theorem error_reply_waits s t i :
  at_reply s → expectMultiline s = true → plain t = true → uncut [status_line "-ERR" t] [] i →
  parse s i = Ok Waiting.
Proof.
  intros Hs Hm Hp Hu. pose proof Hp as [[Ht _]%andb_true_iff _]%andb_true_iff.
  destruct (status_read s "-ERR" t [] [] i) as (f & j & n & fuel & -> & Hj & Hn & Hf); [done..|by right|done|done|].
  rewrite line_lexed by (done || by destruct t). cbn [mbind outcome_bind behind_token expectMultiline].
  destruct fuel as [|fuel]; [done|]. rewrite text_lines_step. unfold yylex, lex.
  rewrite scan_nothing; [done| |done]. by rewrite (uncut_join _ _ _ Hj).
Qed.

(** ** Sessions *)
Section Sessions.
Context (username password : string).

(** The fragments of every reply are read, with the flag as the client has set it, and its
    record is handled.  [None]: a reply has not been read (what the stream does then, is up to
    the library); the flags tell whether the client can send. *)
Fixpoint exchange (rs : list (input * bool)) (rc : receiver) (s : scanner) :
    outcome (option (receiver * scanner * list POP_Request * list POP_Reply)) :=
  match rs with
  | [] => Ok (Some (rc, s, [], []))
  | (i, sent) :: rs' =>
      p ← parse (MkScanner (cond s) (sval s) (multiline rc)) i;
      match p with
      | Parsed r s _ =>
          '(rc, q, pass) ← handleDataMessage username password r sent rc;
          x ← exchange rs' rc s;
          Ok ('(rc, s, qs, ms) ← x;
              Some (rc, s, option_list q ++ qs, (if pass : bool then [r] else []) ++ ms))
      | _ => Ok None
      end
  end.
Definition scanner_init : scanner := MkScanner INITIAL None false.

(** fragments that hold a reply *)
Definition reads_as (i : input) (x : bool * POP_Reply) : Prop :=
  ∀ s, at_reply s → expectMultiline s = x.1 → ∃ s' i', parse s i = Ok (Parsed x.2 s' i') ∧ at_reply s'.
Lemma talk_exchange rc rs rc' qs ms :
  talk username password rc rs rc' qs ms →
  ∀ ios s, Forall2 reads_as ios rs → at_reply s →
  ∃ s', exchange ((λ i, (i, true)) <$> ios) rc s = Ok (Some (rc', s', qs, ms)) ∧ at_reply s'.
Proof.
  induction 1 as [rc|rc r rc1 q pass rs rc' qs ms Hh _ IH]; intros ios s Hi Hs.
  - inversion Hi; subst. by exists s.
  - inversion Hi as [|i ? ios' ? Hr Hrs]; subst. cbn [fmap list_fmap exchange].
    destruct (Hr (MkScanner (cond s) (sval s) (multiline rc)) Hs eq_refl) as (s1 & i' & -> & Hs1).
    cbn [mbind outcome_bind snd]. rewrite Hh. cbn [mbind outcome_bind].
    destruct (IH ios' s1 Hrs Hs1) as (s' & E & Hs'). change (list (list Z)) with input in E. rewrite E. by exists s'.
Qed.

(** the fragments of the replies *)
Definition single_reply (i : input) (t : string) : Prop :=
  text_ok t = true ∧ ∃ rest, uncut [status_line "+OK" t] rest i.
Definition several_reply (i : input) (x : string * list string) : Prop :=
  plain x.1 = true ∧ Forall (λ l, line_ok l = true) x.2 ∧
  ∃ rest, uncut (status_line "+OK" x.1 :: (sent_line <$> x.2) ++ [last_line]) rest i.
Definition retrieved (x : string * list string) : POP_Reply := Reply "+OK" (read_lines (x.1 :: x.2)).
Lemma single_reads i t : single_reply i t → reads_as i (single (Reply "+OK" [t])).
Proof.
  intros (Ht & rest & Hu) s Hs Hm.
  destruct (single_parsed s "+OK" t [] rest i) as (s' & i' & E & Hs' & _); [done..|by left|done|done|].
  by exists s', i'.
Qed.
Lemma several_reads i x : several_reply i x → reads_as i (several (retrieved x)).
Proof.
  intros (Ht & Hls & rest & Hu) s Hs Hm.
  destruct (several_parsed s "+OK" x.1 x.2 [] rest i) as (s' & i' & E & Hs' & _); [done|done|by left|done|done|exact Hu|].
  by exists s', i'.
Qed.

(** C15: POP_ParserDriver_T::parse and POP_Module_Send_T::handleDataMessage, a session from the
    octets of the replies: when the server accepts every command, and no line of its replies is
    cut by the end of a fragment, the client logs in, asks for the number of messages, retrieves
    each of them once and in order, and passes them on with the lines that were sent, without
    the dots that were put before some, but for the lines that are empty; then it deletes the
    first, and quits if it was the only one (if not, its next request has no command) *)
Theorem session_received c0 c1 c2 c3 cs c4 greeting user pass n m mails deleted :
  single_reply c0 greeting → single_reply c1 user → single_reply c2 pass →
  single_reply c3 (stat_text n m) → Forall2 several_reply cs mails → single_reply c4 deleted →
  1 <= n < 2 ^ 32 - 1 → 0 <= m → zlen mails = n →
  ∃ s', exchange ((λ i, (i, true)) <$> [c0; c1; c2; c3] ++ cs ++ [c4]) receiver_init scanner_init =
    Ok (Some (session_end n, s', session_requests username password n, retrieved <$> mails)).
Proof.
  intros H0 H1 H2 H3 Hcs H4 Hn Hm Hlen.
  destruct (talk_exchange receiver_init
    ((single <$> [Reply "+OK" [greeting]; Reply "+OK" [user]; Reply "+OK" [pass]; Reply "+OK" [stat_text n m]]) ++
     (several <$> (retrieved <$> mails)) ++ [single (Reply "+OK" [deleted])])
    (session_end n) (session_requests username password n) (retrieved <$> mails)) with
    (ios := [c0; c1; c2; c3] ++ cs ++ [c4]) (s := scanner_init) as (s' & E & _).
  - apply (session_talk username password _ _ _ _ _ _ n m []); [|done|done|done|unfold zlen; by rewrite length_fmap].
    repeat (apply Forall_cons; split; [done|]). apply Forall_app. split; [|by repeat constructor].
    apply Forall_fmap, Forall_true. done.
  - apply Forall2_app; [repeat constructor; by apply single_reads|].
    apply Forall2_app; [|repeat constructor; by apply single_reads].
    rewrite <- list_fmap_compose. apply Forall2_fmap_r. eapply Forall2_impl; [exact Hcs|].
    intros i x. apply several_reads.
  - by left.
  - by exists s'.
Qed.
End Sessions.

(** ** A concrete session: a mail with an empty line, in two fragments *)
Definition sample_mail : string * list string := ("3 lines", ["a"; ""; ".b"]).
Definition sample_fragments : list (list Z) :=
  [status_line "+OK" "3 lines" ++ sent_line "a"; sent_line "" ++ sent_line ".b" ++ last_line].
Definition one_line (t : string) : list (list Z) := [status_line "+OK" t].
Lemma one_line_reply t : text_ok t = true → single_reply (one_line t) t.
Proof.
  intros Ht. split; [done|]. exists []. unfold one_line.
  pose proof (uncut_whole [status_line "+OK" t] []) as Hu. cbn [mjoin list_join] in Hu.
  by rewrite !app_nil_r in Hu.
Qed.
Lemma sample_reply : several_reply sample_fragments sample_mail.
Proof.
  split; [done|]. split; [by repeat constructor|]. exists [].
  apply (uncut_fragment [status_line "+OK" "3 lines"; sent_line "a"] [sent_line ""; sent_line ".b"; last_line]).
  apply (uncut_whole [sent_line ""; sent_line ".b"; last_line] []).
Qed.

Lemma session_received_witness :
  ∃ s', exchange "me" "secret" ((λ i, (i, true)) <$>
      [one_line "ready"; one_line "who?"; one_line "hello"; one_line "1 9"; sample_fragments; one_line "gone"])
      receiver_init scanner_init =
    Ok (Some (session_end 1, s', session_requests "me" "secret" 1,
      [Reply "+OK" ["3 lines" +:+ crlf; "a" +:+ crlf; ".b" +:+ crlf]])).
Proof.
  apply (session_received "me" "secret" (one_line "ready") (one_line "who?") (one_line "hello") (one_line "1 9")
    [sample_fragments] (one_line "gone") "ready" "who?" "hello" 1 9 [sample_mail] "gone");
    [by apply one_line_reply..|by constructor; [apply sample_reply|constructor]|by apply one_line_reply|lia|lia|done].
Defined.
Lemma error_reply_waits_witness :
  parse (MkScanner reply_code None true) [status_line "-ERR" "no such message"] = Ok Waiting.
Proof.
  apply (error_reply_waits (MkScanner reply_code None true) "no such message"); [by right|done|done|].
  apply (uncut_whole [status_line "-ERR" "no such message"] []).
Defined.
(** a status line in two fragments is not read, and leaves the scanner inside it *)
Example cut_reply_refused :
  parse scanner_init [string_bytes "+OK hel"; string_bytes ("lo" +:+ crlf)] = Ok (Failed (MkScanner text_ (Some "") false)).
Proof. by vm_compute. Qed.
