(* ===== verification/FtpTools.v ===== *)
(** * The FTP tools (protocol/ftp: ftp_tools.cpp, ftp_module_streamer.inl, ftp_codes.h,
      ftp_common.h)

    The names of commands, codes and states, the addresses of the data connection in the
    replies to PASV and the arguments of PORT, and the streamer that writes commands. *)
From S2P Require Import Prelude Chars Decimal MessageBlock Regex InetAddr AddressTools.

(** ** Commands, codes and states *)
Inductive FTP_Command :=
  | FTP_COMMAND_USER
  | FTP_COMMAND_PASS
  | FTP_COMMAND_ACCT
  | FTP_COMMAND_CWD
  | FTP_COMMAND_CDUP
  | FTP_COMMAND_SMNT
  | FTP_COMMAND_REIN
  | FTP_COMMAND_QUIT
  | FTP_COMMAND_PORT
  | FTP_COMMAND_PASV
  | FTP_COMMAND_TYPE
  | FTP_COMMAND_STRU
  | FTP_COMMAND_MODE
  | FTP_COMMAND_RETR
  | FTP_COMMAND_STOR
  | FTP_COMMAND_STOU
  | FTP_COMMAND_APPE
  | FTP_COMMAND_ALLO
  | FTP_COMMAND_REST
  | FTP_COMMAND_RNFR
  | FTP_COMMAND_RNTO
  | FTP_COMMAND_ABOR
  | FTP_COMMAND_DELE
  | FTP_COMMAND_RMD
  | FTP_COMMAND_MKD
  | FTP_COMMAND_PWD
  | FTP_COMMAND_LIST
  | FTP_COMMAND_NLST
  | FTP_COMMAND_SITE
  | FTP_COMMAND_SYST
  | FTP_COMMAND_STAT
  | FTP_COMMAND_HELP
  | FTP_COMMAND_NOOP
  | FTP_COMMAND_MAX
  | FTP_COMMAND_INVALID.
#[export] Instance FTP_Command_eq_dec : EqDecision FTP_Command.
Proof. solve_decision. Defined.

(** [enum CodeType] is the number of the reply. *)
Definition FTP_CODE_OK : Z := 200.
Definition FTP_CODE_CLOSING_DATA : Z := 226.
Definition FTP_CODE_ENTERING_PASSIVE_MODE : Z := 227.
Definition FTP_CODE_USER_OK_NEED_PASSWORD : Z := 331.

Inductive FTP_ProtocolState :=
  | FTP_STATE_INITIAL
  | FTP_STATE_USER_SENT
  | FTP_STATE_PASS_SENT
  | FTP_STATE_READY
  | FTP_STATE_REQUEST_SENT
  | FTP_STATE_QUIT_SENT
  | FTP_STATE_MAX
  | FTP_STATE_INVALID.
#[export] Instance FTP_ProtocolState_eq_dec : EqDecision FTP_ProtocolState.
Proof. solve_decision. Defined.

Inductive FTP_ProtocolDataState :=
  | FTP_STATE_DATA_INITIAL
  | FTP_STATE_DATA_LIST_DIRECTORY
  | FTP_STATE_DATA_LIST_FILE
  | FTP_STATE_DATA_DATA
  | FTP_STATE_DATA_MAX
  | FTP_STATE_DATA_INVALID.
#[export] Instance FTP_ProtocolDataState_eq_dec : EqDecision FTP_ProtocolDataState.
Proof. solve_decision. Defined.

Definition isSuccess (code_in : Z) : bool := (200 <=? code_in) && (code_in <? 300).

Definition CodeToString (code_in : Z) : string :=
  switch code_in
    [(110, "RESTART_MARKER");
     (120, "SERVICE_READY_N_MINUTES");
     (125, "DATA_OPEN_TRANSFER_STARTING");
     (150, "FILE_STATUS_OK_OPENING_DATA");
     (200, "OK");
     (202, "COMMAND_SUPERFLUOUS");
     (211, "SYSTEM_STATUS_OR_HELP");
     (212, "DIRECTORY_STATUS");
     (213, "FILE_STATUS");
     (214, "HELP_MESSAGE");
     (215, "NAME_SYSTEM_TYPE");
     (220, "SERVICE_READY_NEW_USER");
     (221, "SERVICE_CLOSING_CTL");
     (225, "DATA_OPEN_NO_TRANSFER");
     (226, "CLOSING_DATA");
     (227, "ENTERING_PASSIVE_MODE");
     (230, "USER_LOGGED_IN");
     (250, "FILE_ACTION_OK");
     (257, "PATH_CREATED_OK");
     (331, "USER_OK_NEED_PASSWORD");
     (332, "NEED_ACCOUNT_FOR_LOGIN");
     (350, "FILE_ACTION_PENDING_FURTHER_INFORMATION");
     (421, "SERVICE_NOT_AVAILABLE_CLOSING_CTL");
     (425, "CANNOT_OPEN_DATA");
     (426, "DATA_CLOSED_TRANSFER_ABORTED");
     (450, "FILE_ACTION_ABORTED_FILE_UNAVAILABLE");
     (451, "ACTION_ABORTED");
     (452, "FILE_ACTION_ABORTED_NO_SPACE");
     (500, "ERROR_SYNTAX_COMMAND");
     (501, "ERROR_SYNTAX_ARGUMENT");
     (502, "ERROR_COMMAND_NOT_IMPLEMENTED");
     (503, "ERROR_COMMAND_BAD_SEQUENCE");
     (504, "ERROR_COMMAND_ARGUMENT_NOT_IMPLEMENTED");
     (530, "ERROR_USER_NOT_LOGGED_IN");
     (532, "ERROR_NEED_ACCOUNT_FOR_STORING_FILES");
     (550, "ERROR_FILE_ACTION_ABORTED_FILE_UNAVAILABLE");
     (551, "ERROR_ACTION_ABORTED_PAGE_TYPE_UNKNOWN");
     (552, "ERROR_FILE_ACTION_ABORTED_NO_SPACE");
     (553, "FILE_ACTION_ABORTED_FILENAME_NOT_ALLOWED")]
    "INVALID/UNKNOWN".

Definition CommandToString (command_in : FTP_Command) : string :=
  switch command_in
    [(FTP_COMMAND_USER, "USER");
     (FTP_COMMAND_PASS, "PASS");
     (FTP_COMMAND_ACCT, "ACCT");
     (FTP_COMMAND_CWD, "CWD");
     (FTP_COMMAND_CDUP, "CDUP");
     (FTP_COMMAND_SMNT, "SMNT");
     (FTP_COMMAND_REIN, "REIN");
     (FTP_COMMAND_QUIT, "QUIT");
     (FTP_COMMAND_PORT, "PORT");
     (FTP_COMMAND_PASV, "PASV");
     (FTP_COMMAND_TYPE, "TYPE");
     (FTP_COMMAND_STRU, "STRU");
     (FTP_COMMAND_MODE, "MODE");
     (FTP_COMMAND_RETR, "RETR");
     (FTP_COMMAND_STOR, "STOR");
     (FTP_COMMAND_STOU, "STOU");
     (FTP_COMMAND_APPE, "APPE");
     (FTP_COMMAND_ALLO, "ALLO");
     (FTP_COMMAND_REST, "REST");
     (FTP_COMMAND_RNFR, "RNFR");
     (FTP_COMMAND_RNTO, "RNTO");
     (FTP_COMMAND_ABOR, "ABOR");
     (FTP_COMMAND_DELE, "DELE");
     (FTP_COMMAND_RMD, "RMD");
     (FTP_COMMAND_MKD, "MKD");
     (FTP_COMMAND_PWD, "PWD");
     (FTP_COMMAND_LIST, "LIST");
     (FTP_COMMAND_NLST, "NLST");
     (FTP_COMMAND_SITE, "SITE");
     (FTP_COMMAND_SYST, "SYST");
     (FTP_COMMAND_STAT, "STAT");
     (FTP_COMMAND_HELP, "HELP");
     (FTP_COMMAND_NOOP, "NOOP")]
    "INVALID/UNKNOWN".

Definition StateToString (state_in : FTP_ProtocolState) : string :=
  switch state_in
    [(FTP_STATE_INITIAL, "INITIAL");
     (FTP_STATE_USER_SENT, "USER_SENT");
     (FTP_STATE_PASS_SENT, "PASS_SENT");
     (FTP_STATE_READY, "READY");
     (FTP_STATE_REQUEST_SENT, "REQUEST_SENT");
     (FTP_STATE_QUIT_SENT, "QUIT_SENT")]
    "INVALID/UNKNOWN".

Definition DataStateToString (state_in : FTP_ProtocolDataState) : string :=
  switch state_in
    [(FTP_STATE_DATA_INITIAL, "INITIAL");
     (FTP_STATE_DATA_LIST_DIRECTORY, "LIST_DIRECTORY");
     (FTP_STATE_DATA_LIST_FILE, "LIST_FILE");
     (FTP_STATE_DATA_DATA, "DATA")]
    "INVALID/UNKNOWN".

(** ** Records *)
Record FTP_Request (A : Type) := MkFtpRequest {
  address : A;
  command : FTP_Command;
  is_directory_list : bool;
  parameters : list string
}.
Arguments MkFtpRequest {A}.
Arguments address {A} f.
Arguments command {A} f.
Arguments is_directory_list {A} f.
Arguments parameters {A} f.

(** what is used of a record that has been received *)
Record FTP_Reply := Reply { reply_code : Z; reply_text : list string }.

Definition FTP_dump (record_in : FTP_Reply) : string :=
  "code: " +:+ String "009" "" +:+ CodeToString (reply_code record_in) +:+ " (" +:+
  pretty (reply_code record_in) +:+ ")" +:+ eol +:+ "text: (" +:+
  pretty (zlen (reply_text record_in)) +:+ "):" +:+ eol +:+
  foldr (λ t s, t +:+ eol +:+ s) "text /END" (reply_text record_in).

(** ** Addresses *)
Section Addresses.
Context {A : Type} `{InetAddr A}.

(** four numbers of one to three digits with a dot between two, a colon and a port of one to
    five digits *)
Definition port_regex : regex := addr4_regex.

Definition generatePORTArgument (address_in : A) : outcome string :=
  match get_host_addr address_in with
  | None => Abort
  | Some address_a =>
      let port_i := get_port_number address_in in
      match regex_match (address_a +:+ ":" +:+ pretty port_i) port_regex with
      | None => Ok ""
      | Some c =>
          a ← from_option Ok Abort (group 1 c); b ← from_option Ok Abort (group 2 c);
          d ← from_option Ok Abort (group 3 c); e ← from_option Ok Abort (group 4 c);
          ace_assert (bool_decide (is_Some (group 5 c)));;
          Ok (a +:+ "," +:+ b +:+ "," +:+ d +:+ "," +:+ e +:+ "," +:+
              pretty (Z.shiftr port_i 8) +:+ "," +:+ pretty (Z.land port_i 0xFF))
      end
  end.

(** anything but an opening parenthesis, one, six numbers of one to three digits with a comma
    between two, a closing parenthesis and anything on the line *)
Definition not_paren (c : ascii) : bool := negb (Ascii.eqb c "(").
Definition pasv_regex : regex :=
  Seqs [Star (Class not_paren); Lit "("; octet_group 1; Lit ","; octet_group 2; Lit ",";
        octet_group 3; Lit ","; octet_group 4; Lit ","; octet_group 5; Lit ",";
        octet_group 6; Lit ")"; Star any].

(** what a [std::stringstream] on [s] holds when [t] is written: it is written over the
    front of [s] *)
Fixpoint overwrite (t s : string) : string :=
  match t, s with
  | "", _ => s
  | String c t', "" => t
  | String c t', String _ s' => String c (overwrite t' s')
  end.

Definition parsePASVResponse (PASVLine1_in : string) : outcome A :=
  match regex_match PASVLine1_in pasv_regex with
  | None => Ok inet_any
  | Some c =>
      a ← from_option Ok Abort (group 1 c); b ← from_option Ok Abort (group 2 c);
      d ← from_option Ok Abort (group 3 c); e ← from_option Ok Abort (group 4 c);
      p ← from_option Ok Abort (group 5 c); q ← from_option Ok Abort (group 6 c);
      let port_number_i := u16 (Z.shiftl (read_unsigned 16 0 p) 8) in
      let port_number_i := Z.lor port_number_i (read_unsigned 16 0 q) in
      Ok (stringToIPAddress
            (a +:+ "." +:+ b +:+ "." +:+ d +:+ "." +:+ e +:+ ":" +:+
             overwrite (pretty port_number_i) q) 0)
  end.
End Addresses.

(** ** The streamer *)
Section Streamer.
Context {A : Type}.
Implicit Types q : FTP_Request A.

(** a command with its parameter *)
Definition with_parameter (name : string) q : outcome (option string) :=
  match parameters q with
  | [] => Abort
  | p :: _ => Ok (Some (name +:+ " " +:+ p +:+ crlf))
  end.
(** the parameter replaces the command *)
Definition list_text (name : string) q : outcome (option string) :=
  Ok (Some (match parameters q with [] => name | p :: _ => " " +:+ p end +:+ crlf)).

(** the string that is copied for a command, [None] for one that is not known *)
Definition request_text q : outcome (option string) :=
  match command q with
  | FTP_COMMAND_USER => with_parameter "USER" q
  | FTP_COMMAND_PASS => with_parameter "PASS" q
  | FTP_COMMAND_CWD => with_parameter "CWD" q
  | FTP_COMMAND_CDUP => Ok (Some ("CDUP" +:+ crlf))
  | FTP_COMMAND_PORT => with_parameter "PORT" q
  | FTP_COMMAND_PASV => Ok (Some ("PASV" +:+ crlf))
  | FTP_COMMAND_TYPE => with_parameter "TYPE" q
  | FTP_COMMAND_RETR => with_parameter "RETR" q
  | FTP_COMMAND_PWD => Ok (Some ("PWD" +:+ crlf))
  | FTP_COMMAND_LIST => list_text "LIST" q
  | FTP_COMMAND_NLST => list_text "NLST" q
  | FTP_COMMAND_QUIT => Ok (Some ("QUIT" +:+ crlf))
  | _ => Ok None
  end.

(** The message is passed on in any case, empty if there is no room. *)
Definition stream_request {B} `{WritableBlock B} q (message_inout : B) : outcome B :=
  t ← request_text q;
  match t with
  | None => Ok message_inout
  | Some t => Ok (default message_inout (mb_copy (string_bytes t) message_inout))
  end.
End Streamer.

(** ** The addresses *)

Lemma generatePORTArgument_inet4 {A} `{InetAddr A} a b c d p :
  octets a b c d → 0 <= p < 2 ^ 16 →
  generatePORTArgument (inet4 a b c d p) =
    Ok (pretty a +:+ "," +:+ pretty b +:+ "," +:+ pretty c +:+ "," +:+ pretty d +:+ "," +:+
        pretty (Z.shiftr p 8) +:+ "," +:+ pretty (Z.land p 0xFF)).
Proof.
  intros Ho Hp. unfold generatePORTArgument.
  rewrite get_host_addr_inet4, get_port_number_inet4 by done.
  assert (Hm : regex_match (dotted a b c d +:+ ":" +:+ pretty p) port_regex =
    Some [(5%nat, pretty p); (4%nat, pretty d); (3%nat, pretty c); (2%nat, pretty b);
          (1%nat, pretty a)]) by exact (match_addr4 a b c d p Ho Hp).
  by rewrite Hm.
Qed.

(** one to three digits *)
Definition digits3 (s : string) : bool :=
  all_digits s && (1 <=? String.length s)%nat && (String.length s <=? 3)%nat.

Lemma digits3_pretty n : 0 <= n < 1000 → digits3 (pretty n) = true.
Proof.
  intros Hn. destruct (pretty_digits n) as (Ha & _ & Hne); [lia|]. unfold digits3.
  rewrite Ha. pose proof (pretty_length 3 n ltac:(lia) Hn) as Hl.
  rewrite (proj2 (Nat.leb_le _ 3)) by done. by destruct (pretty n).
Qed.

Lemma match_digits3 i s u c k x :
  digits3 s = true → stops isdigit u = true → k u ((i, s) :: c) = Some x →
  match_regex (octet_group i) (s +:+ u) c k = Some x.
Proof.
  unfold digits3. intros [[Hs H1]%andb_true_iff H3]%andb_true_iff Hu Hk.
  apply Nat.leb_le in H1, H3. apply match_group_run; [done|lia|by intros ? [= <-]|done..].
Qed.

(** The text of a reply: anything up to a parenthesis, the numbers, and anything. *)
Definition pasv_text (pre a b c d s t rest : string) : string :=
  pre +:+ String "(" (a +:+ String "," (b +:+ String "," (c +:+ String "," (d +:+
    String "," (s +:+ String "," (t +:+ String ")" rest)))))).

Lemma match_pasv pre a b c d s t rest :
  string_all not_paren pre = true → string_all any_char rest = true →
  digits3 a = true → digits3 b = true → digits3 c = true → digits3 d = true →
  digits3 s = true → digits3 t = true →
  regex_match (pasv_text pre a b c d s t rest) pasv_regex =
    Some [(6%nat, t); (5%nat, s); (4%nat, d); (3%nat, c); (2%nat, b); (1%nat, a)].
Proof.
  intros Hpre Hrest Ha Hb Hc Hd Hs Ht. unfold regex_match, pasv_regex, pasv_text. cbn [Seqs].
  rewrite match_seq. apply match_run; [done|lia|done|done|].
  repeat (rewrite match_seq, match_lit, match_seq; apply match_digits3; [done|done|]).
  rewrite match_seq, match_lit. rewrite <- (string_app_nil_r rest).
  by apply match_run; [|lia| | |].
Qed.

(** All the groups of a reply that matches have matched, so that nothing is asserted in
    vain. *)
Lemma octet_group_captures i s c s' c' :
  derives (octet_group i) s c s' c' → ∃ t, c' = (i, t) :: c.
Proof.
  intros (t & c1 & Hr & _ & ->).
  destruct (derives_run _ _ _ _ _ _ _ Hr) as (u & _ & _ & _ & _ & ->). by exists t.
Qed.

Lemma class_captures f s c s' c' : derives (Class f) s c s' c' → c' = c.
Proof. by intros (x & _ & _ & ->). Qed.

Lemma pasv_groups line c :
  regex_match line pasv_regex = Some c →
  ∃ a b d e s t, c = [(6%nat, t); (5%nat, s); (4%nat, e); (3%nat, d); (2%nat, b); (1%nat, a)].
Proof.
  intros Hm%regex_match_derives.
  destruct Hm as (s0 & c0 & H0 & s1 & c1 & H1 & s2 & c2 & H2 & s3 & c3 & H3 & s4 & c4 & H4 &
    s5 & c5 & H5 & s6 & c6 & H6 & s7 & c7 & H7 & s8 & c8 & H8 & s9 & c9 & H9 & s10 & c10 & H10 &
    s11 & c11 & H11 & s12 & c12 & H12 & s13 & c13 & H13 & H14).
  destruct (derives_run _ _ _ _ _ _ _ H0) as (? & _ & _ & _ & _ & ->).
  destruct (derives_run _ _ _ _ _ _ _ H14) as (? & _ & _ & _ & _ & ->).
  apply class_captures in H1 as ->, H3 as ->, H5 as ->, H7 as ->, H9 as ->, H11 as ->, H13 as ->.
  apply octet_group_captures in H2 as [a ->], H4 as [b ->], H6 as [d ->], H8 as [e ->],
    H10 as [s ->], H12 as [t ->].
  by exists a, b, d, e, s, t.
Qed.

(** the port that two numbers stand for *)
Definition pasv_port (p1 p2 : Z) : Z := Z.lor (u16 (Z.shiftl p1 8)) p2.

Lemma digits3_value s : digits3 s = true → 0 <= digits_value 0 s < 1000.
Proof.
  unfold digits3. intros [[Hs _]%andb_true_iff Hl]%andb_true_iff. apply Nat.leb_le in Hl.
  pose proof (digits_value_nonneg s Hs 0 ltac:(lia)).
  pose proof (digits_value_bound s Hs 0 ltac:(lia)) as Hb.
  assert (10 ^ Z.of_nat (String.length s) <= 10 ^ 3) by (apply Z.pow_le_mono_r; lia). lia.
Qed.

Lemma digits3_read s : digits3 s = true → read_unsigned 16 0 s = digits_value 0 s.
Proof.
  intros Hs. pose proof (digits3_value s Hs) as Hv.
  unfold digits3 in Hs. apply andb_true_iff in Hs as [[Hd H1]%andb_true_iff _].
  unfold read_unsigned. rewrite span_digits_all by done.
  destruct s as [|x s]; [done|]. rewrite bool_decide_false by done. lia.
Qed.

Lemma pasv_port_range p1 p2 : 0 <= p2 < 2 ^ 16 → 0 <= pasv_port p1 p2 < 2 ^ 16.
Proof.
  intros Hp2. unfold pasv_port.
  assert (Hr : 0 <= u16 (Z.shiftl p1 8) < 2 ^ 16) by (apply Z.mod_pos_bound; lia).
  split; [apply Z.lor_nonneg; lia|].
  destruct (decide (Z.lor (u16 (Z.shiftl p1 8)) p2 = 0)) as [->|Hne]; [lia|].
  apply Z.log2_lt_pow2; [pose proof (proj2 (Z.lor_nonneg (u16 (Z.shiftl p1 8)) p2)); lia|].
  rewrite Z.log2_lor by lia.
  assert (Hlog : ∀ z, 0 <= z < 2 ^ 16 → Z.log2 z < 16).
  { intros z Hz. destruct (decide (z = 0)) as [->|?]; [done|]. apply Z.log2_lt_pow2; lia. }
  apply Z.max_lub_lt; by apply Hlog.
Qed.

Lemma lor_ge a b : 0 <= a → 0 <= b → b <= Z.lor a b.
Proof.
  intros Ha Hb. apply Z.ldiff_le; [by apply Z.lor_nonneg|].
  apply Z.bits_inj'. intros n Hn. rewrite Z.ldiff_spec, Z.lor_spec, Z.bits_0.
  by destruct (Z.testbit a n), (Z.testbit b n).
Qed.

Lemma pasv_port_halves p :
  0 <= p < 2 ^ 16 → pasv_port (Z.shiftr p 8) (Z.land p 0xFF) = p.
Proof.
  intros Hp. unfold pasv_port. change 0xFF with (Z.ones 8).
  rewrite <- Z.ldiff_ones_r by lia. unfold u16. rewrite Z.mod_small; [apply Z.lor_ldiff_and|].
  split; [apply Z.ldiff_nonneg; lia|]. rewrite Z.ldiff_ones_r, Z.shiftl_mul_pow2,
    Z.shiftr_div_pow2 by lia.
  pose proof (Z.mul_div_le p (2 ^ 8) ltac:(lia)). lia.
Qed.

(** What is written is at least as long as what was there. *)
Lemma overwrite_long t s : (String.length s <= String.length t)%nat → overwrite t s = t.
Proof.
  revert s. induction t as [|x t IH]; intros [|y s]; cbn; intros Hl; [done|lia|done|].
  by rewrite IH by lia.
Qed.

Lemma parsePASVResponse_text {A} `{InetAddr A} pre a b c d s t rest :
  string_all not_paren pre = true → string_all any_char rest = true → octets a b c d →
  digits3 s = true → digits3 t = true →
  parsePASVResponse (pasv_text pre (pretty a) (pretty b) (pretty c) (pretty d) s t rest) =
    Ok (stringToIPAddress (dotted a b c d +:+ ":" +:+
          overwrite (pretty (pasv_port (digits_value 0 s) (digits_value 0 t))) t) 0).
Proof.
  intros Hpre Hrest (Ha & Hb & Hc & Hd) Hs Ht. unfold parsePASVResponse.
  rewrite match_pasv by (done || (apply digits3_pretty; lia)).
  cbn [group Nat.eqb from_option mbind outcome_bind].
  rewrite !digits3_read by done. unfold dotted, pasv_port. by rewrite !string_app_assoc.
Qed.

(** An address is always returned. *)
Lemma parsePASVResponse_total {A} `{InetAddr A} line :
  ∃ a, parsePASVResponse (A:=A) line = Ok a.
Proof.
  unfold parsePASVResponse. destruct (regex_match line pasv_regex) as [c|] eqn:E; [|by eexists].
  destruct (pasv_groups line c E) as (a & b & d & e & s & t & ->). by eexists.
Qed.

(** The numbers as they are printed: the port is what they stand for. *)
Lemma parsePASVResponse_numbers {A} `{InetAddr A} pre a b c d p1 p2 rest :
  string_all not_paren pre = true → string_all any_char rest = true → octets a b c d →
  0 <= p1 < 1000 → 0 <= p2 < 1000 →
  parsePASVResponse
    (pasv_text pre (pretty a) (pretty b) (pretty c) (pretty d) (pretty p1) (pretty p2) rest) =
    Ok (inet4 a b c d (pasv_port p1 p2)).
Proof.
  intros Hpre Hrest Ho H1 H2. pose proof (pasv_port_range p1 p2 ltac:(lia)) as Hr.
  rewrite parsePASVResponse_text by (done || by apply digits3_pretty).
  destruct (pretty_digits p1) as (_ & -> & _); [lia|].
  destruct (pretty_digits p2) as (_ & -> & _); [lia|].
  rewrite overwrite_long; [by rewrite stringToIPAddress_port|].
  apply pretty_length_le. split; [lia|]. apply lor_ge; [|lia]. apply Z.mod_pos_bound. lia.
Qed.

(** The bits of the two halves do not meet. *)
Lemma pasv_port_sum p1 p2 :
  0 <= p2 < 256 → pasv_port p1 p2 = 256 * (p1 `mod` 256) + p2.
Proof.
  intros Hp2. unfold pasv_port, u16. rewrite Z.shiftl_mul_pow2 by lia.
  change (2 ^ 16) with (2 ^ 8 * 2 ^ 8). rewrite Z.mul_mod_distr_r by lia.
  change (2 ^ 8) with 256. rewrite (Z.mul_comm _ 256).
  replace p2 with (Z.land p2 (Z.ones 8)) at 1
    by (rewrite Z.land_ones by lia; apply Z.mod_small; lia).
  assert (He : 256 * (p1 `mod` 256) + p2 =
    Z.lor (Z.shiftl (p1 `mod` 256) 8) (Z.land p2 (Z.ones 8))).
  { rewrite <- Z.lxor_lor, <- Z.add_nocarry_lxor.
    - rewrite Z.shiftl_mul_pow2, Z.land_ones, (Z.mod_small p2) by lia. lia.
    - apply Z.bits_inj'. intros n Hn. rewrite !Z.land_spec, Z.bits_0.
      destruct (decide (n < 8)).
      + by rewrite Z.shiftl_spec_low by lia.
      + rewrite Z.ones_spec_high by lia. by rewrite !andb_false_r.
    - apply Z.bits_inj'. intros n Hn. rewrite !Z.land_spec, Z.bits_0.
      destruct (decide (n < 8)).
      + by rewrite Z.shiftl_spec_low by lia.
      + rewrite Z.ones_spec_high by lia. by rewrite !andb_false_r. }
  rewrite He. f_equal. rewrite Z.shiftl_mul_pow2 by lia. lia.
Qed.

Section Properties.
Context {A : Type} `{InetAddr A}.

(** The argument of PORT for an IPv4 address, in a reply to PASV, is read back as the
    address and its port, whatever text is in front of the parenthesis and behind it on
    the line. *)
Theorem PORT_PASV_roundtrip pre rest a b c d p
    (Hpre : string_all not_paren pre = true) (Hrest : string_all any_char rest = true)
    (Ho : octets a b c d) (Hp : 0 <= p < 2 ^ 16) :
  ∃ arg, generatePORTArgument (inet4 a b c d p) = Ok arg ∧
         parsePASVResponse (pre +:+ "(" +:+ arg +:+ ")" +:+ rest) = Ok (inet4 a b c d p).
Proof.
  rewrite generatePORTArgument_inet4 by done. eexists. split; [done|].
  assert (H1 : 0 <= Z.shiftr p 8 < 1000).
  { rewrite Z.shiftr_div_pow2 by lia. split; [by apply Z.div_pos; lia|].
    apply Z.div_lt_upper_bound; lia. }
  assert (H2 : 0 <= Z.land p 0xFF < 1000).
  { change 0xFF with (Z.ones 8). rewrite Z.land_ones by lia.
    pose proof (Z.mod_pos_bound p (2 ^ 8)). lia. }
  pose proof (parsePASVResponse_numbers pre a b c d _ _ rest Hpre Hrest Ho H1 H2) as Hn.
  rewrite pasv_port_halves in Hn by done. unfold pasv_text in Hn.
  rewrite !string_app_assoc, !append_cons, !append_nil. exact Hn.
Qed.

(** The two numbers of the port in a reply to PASV may be anything of up to three
    digits: the port is always within 16 bits, the first number is taken modulo 256, and
    the port is what RFC 959 says when the second is a byte. *)
Theorem PASV_port_wraps pre rest a b c d p1 p2
    (Hpre : string_all not_paren pre = true) (Hrest : string_all any_char rest = true)
    (Ho : octets a b c d) (H1 : 0 <= p1 < 1000) (H2 : 0 <= p2 < 1000) :
  ∃ port,
    parsePASVResponse
      (pasv_text pre (pretty a) (pretty b) (pretty c) (pretty d) (pretty p1) (pretty p2) rest)
      = Ok (inet4 a b c d port) ∧
    0 <= port < 2 ^ 16 ∧ (p2 < 256 → port = 256 * (p1 `mod` 256) + p2).
Proof.
  exists (pasv_port p1 p2). split_and!.
  - by apply parsePASVResponse_numbers.
  - apply pasv_port_range. lia.
  - apply pasv_port_range. lia.
  - intros. apply pasv_port_sum. lia.
Qed.

(** the number, and a zero in front of it *)
Lemma overwrite_padded n :
  1 <= n < 100 → overwrite (pretty n) (String "0" (pretty n)) = pretty (10 * n + n `mod` 10).
Proof.
  intros Hn. apply (bool_decide_eq_true_1 _).
  pose (f := λ n, (n =? 0) || bool_decide
    (overwrite (pretty n) (String "0" (pretty n)) = pretty (10 * n + n `mod` 10))).
  assert (Hf : f n = true) by (apply (seqZ_forall f 100); [by vm_compute|lia]).
  unfold f in Hf. apply orb_true_iff in Hf as [Hf|Hf]; [bool_lia|done].
Qed.

(** A zero in front of the second number gives another port: the text of the port is
    written over that of the number, which stays behind it. *)
Theorem PASV_leading_zero pre rest a b c d n
    (Hpre : string_all not_paren pre = true) (Hrest : string_all any_char rest = true)
    (Ho : octets a b c d) (Hn : 1 <= n < 100) :
  parsePASVResponse
    (pasv_text pre (pretty a) (pretty b) (pretty c) (pretty d) "0" (String "0" (pretty n)) rest)
    = Ok (inet4 a b c d (10 * n + n `mod` 10)).
Proof.
  destruct (pretty_digits n) as (Ha & Hv & Hne); [lia|].
  assert (Hd : digits3 (String "0" (pretty n)) = true).
  { pose proof (pretty_length 2 n ltac:(lia) ltac:(lia)).
    unfold digits3, all_digits in *. cbn [string_all String.length]. rewrite Ha.
    by rewrite (proj2 (Nat.leb_le (S (String.length (pretty n))) 3)) by lia. }
  rewrite parsePASVResponse_text by done.
  change (digits_value 0 (String "0" (pretty n))) with (digits_value 0 (pretty n)).
  rewrite Hv. change (digits_value 0 "0") with 0.
  assert (Hp : pasv_port 0 n = n) by (rewrite pasv_port_sum, Z.mod_0_l by lia; lia).
  rewrite Hp, overwrite_padded by done.
  rewrite stringToIPAddress_port; [done|done|]. pose proof (Z.mod_pos_bound n 10). lia.
Qed.

(** The commands that need a parameter. *)
Definition takes_parameter (k : FTP_Command) : bool :=
  bool_decide (k ∈ [FTP_COMMAND_USER; FTP_COMMAND_PASS; FTP_COMMAND_CWD; FTP_COMMAND_PORT;
                    FTP_COMMAND_TYPE; FTP_COMMAND_RETR]).
Definition takes_none (k : FTP_Command) : bool :=
  bool_decide (k ∈ [FTP_COMMAND_CDUP; FTP_COMMAND_PASV; FTP_COMMAND_PWD; FTP_COMMAND_QUIT]).
Definition lists (k : FTP_Command) : bool :=
  bool_decide (k ∈ [FTP_COMMAND_LIST; FTP_COMMAND_NLST]).

Context {B : Type} `{WritableBlock B}.

(** the line of a request, as the protocol has it and as it is written *)
Definition request_line (q : FTP_Request A) : string :=
  match parameters q with
  | p :: _ => if lists (command q) then " " +:+ p
              else if takes_parameter (command q) then CommandToString (command q) +:+ " " +:+ p
              else CommandToString (command q)
  | [] => CommandToString (command q)
  end.

Lemma request_text_line (q : FTP_Request A) :
  takes_parameter (command q) = true ∧ parameters q ≠ [] ∨ takes_none (command q) = true ∨
  lists (command q) = true →
  request_text q = Ok (Some (request_line q +:+ crlf)).
Proof.
  destruct q as [ad k dir ps]. unfold request_text, request_line, with_parameter, list_text.
  cbn [command parameters].
  by destruct k; cbn; intros [[? Hp]|[?|?]]; try done; destruct ps as [|p ps].
Qed.

(** A request is written as one line, its command, a blank and its first parameter,
    behind what the message holds; the commands that list a directory are written without
    their name when they have a parameter.  A line that does not fit is dropped and the
    message is passed on as it was. *)
Theorem request_is_one_line (q : FTP_Request A) (m : B)
    (Hq : takes_parameter (command q) = true ∧ parameters q ≠ [] ∨
          takes_none (command q) = true ∨ lists (command q) = true) :
  ∃ m', stream_request q m = Ok m' ∧
    if zlen (string_bytes (request_line q +:+ crlf)) <=? mb_space m
    then mb_bytes m' = mb_bytes m ++ string_bytes (request_line q +:+ crlf)
    else m' = m.
Proof.
  unfold stream_request. rewrite request_text_line by done. cbn [mbind outcome_bind].
  eexists. split; [done|]. set (d := string_bytes _).
  destruct (mb_copy d m) as [m'|] eqn:E; cbn [default].
  - pose proof (proj1 (mb_copy_room d m) (mk_is_Some _ _ E)).
    rewrite (proj2 (Z.leb_le _ _)) by done. by apply mb_copy_bytes.
  - destruct (_ <=? _) eqn:Hl; [|done]. bool_lia.
    apply mb_copy_room in Hl. rewrite E in Hl. by destruct Hl.
Qed.
End Properties.

(** ** Witnesses *)
Lemma octets_localhost : octets 127 0 0 1.
Proof. unfold octets. lia. Defined.

Lemma PORT_PASV_roundtrip_witness :
  ∃ arg, generatePORTArgument (A:=inet_addr) (inet4 127 0 0 1 5001) = Ok arg ∧
    parsePASVResponse ("227 Entering Passive Mode " +:+ "(" +:+ arg +:+ ")" +:+ ".") =
      Ok (inet4 127 0 0 1 5001).
Proof.
  apply (PORT_PASV_roundtrip "227 Entering Passive Mode " "." 127 0 0 1 5001);
    [done|done|exact octets_localhost|lia].
Defined.

Lemma PASV_port_wraps_witness :
  ∃ port,
    parsePASVResponse (A:=inet_addr)
      (pasv_text "227 " (pretty 127) (pretty 0) (pretty 0) (pretty 1) (pretty 257) (pretty 1) "")
      = Ok (inet4 127 0 0 1 port) ∧
    0 <= port < 2 ^ 16 ∧ (1 < 256 → port = 256 * (257 `mod` 256) + 1).
Proof.
  apply (PASV_port_wraps "227 " "" 127 0 0 1 257 1); [done|done|exact octets_localhost|lia|lia].
Defined.

Lemma PASV_leading_zero_witness :
  parsePASVResponse (A:=inet_addr)
    (pasv_text "227 " (pretty 127) (pretty 0) (pretty 0) (pretty 1) "0" "021" "") =
    Ok (inet4 127 0 0 1 211).
Proof.
  apply (PASV_leading_zero (A:=inet_addr) "227 " "" 127 0 0 1 21); [done|done|exact octets_localhost|lia].
Defined.

Lemma request_is_one_line_witness :
  ∃ m', stream_request (MkFtpRequest (A:=unit) tt FTP_COMMAND_RETR false ["a"])
          (([], 16%N) : list Z * N) = Ok m' ∧
    mb_bytes m' = string_bytes ("RETR a" +:+ crlf).
Proof.
  exact (request_is_one_line (A:=unit) (MkFtpRequest tt FTP_COMMAND_RETR false ["a"])
    (([], 16%N) : list Z * N) ltac:(by left)).
Defined.
