(* ===== verification/FtpControl.v ===== *)
(** * The control connection of FTP (protocol/ftp: ftp_control.h, ftp_control.inl)

    [FTP_Control_T] sends requests on the control connection, keeps the requests that wait
    for a data connection in a queue, and acts on replies: it answers the request for a
    password, connects to the server in passive mode and then sends the request in front of
    the queue.  In active mode the request in front is sent when PORT has been
    acknowledged, and removed when the server has connected. *)
From S2P Require Import Prelude Chars Decimal Regex InetAddr AddressTools FtpTools.

Definition ACE_INVALID_HANDLE : Z := -1.

Section Control.
Context {A : Type} `{InetAddr A}.

(** The connection manager, the connectors and the streams, as the handlers find them. *)
Record environment := Environment {
  (** the manager has the control connection, and it is one with a stream *)
  found : Z → bool;
  is_stream : Z → bool;
  (** [send ()] throws an exception *)
  send_throws : bool;
  (** what [Net_Client_Common_Tools::connect ()] returns *)
  connect_handle : A → Z;
  (** the manager has the data connection, and its stream has a parser for data *)
  has_data_parser : Z → bool
}.

Inductive output :=
  | ConnectTo (a : A)
  | AbortConnection (h : Z)
  | SendRequest (h : Z) (q : FTP_Request A)
  | SetDataState (h : Z) (st : FTP_ProtocolDataState)
  | Throw.

Record control := Control {
  (** [connectionConfiguration_->socketConfiguration.address], of the control connection *)
  control_address : A;
  (** [connectionConfiguration_2->socketConfiguration.address], of the data connection *)
  data_address : A;
  controlConnection : Z;
  expectingPORTResponse : bool;
  password : string;
  queue_ : list (FTP_Request A)
}.
Implicit Types (env : environment) (c : control) (q : FTP_Request A).

(** the constructor *)
Definition FTP_Control (control_address data_address : A) (password : string) : control :=
  Control control_address data_address ACE_INVALID_HANDLE false password [].

Definition set_controlConnection (h : Z) c : control :=
  Control (control_address c) (data_address c) h (expectingPORTResponse c) (password c)
    (queue_ c).
Definition set_data_address (a : A) c : control :=
  Control (control_address c) a (controlConnection c) (expectingPORTResponse c) (password c)
    (queue_ c).
Definition set_expecting (b : bool) c : control :=
  Control (control_address c) (data_address c) (controlConnection c) b (password c) (queue_ c).
Definition set_queue (l : list (FTP_Request A)) c : control :=
  Control (control_address c) (data_address c) (controlConnection c)
    (expectingPORTResponse c) (password c) l.

(** [struct FTP_Request], as constructed *)
Definition no_request : FTP_Request A := MkFtpRequest inet_any FTP_COMMAND_INVALID true [].

Definition expectPORTResponse c : control := set_expecting true c.
Definition queue q c : control := set_queue (queue_ c ++ [q]) c.
Definition clear c : control := set_queue [] c.

(** An earlier control connection is aborted.  The handle is returned, 0 on failure. *)
Definition connectControl env c : control * list output * Z :=
  let handle_h := connect_handle env (control_address c) in
  if (handle_h =? 0) || (handle_h =? ACE_INVALID_HANDLE)
  then (c, [ConnectTo (control_address c)], 0)
  else
    let aborted :=
      if negb (controlConnection c =? ACE_INVALID_HANDLE) && found env (controlConnection c)
      then [AbortConnection (controlConnection c)] else [] in
    (set_controlConnection handle_h c, ConnectTo (control_address c) :: aborted, handle_h).

Definition connectData env c : list output * Z :=
  let handle_h := connect_handle env (data_address c) in
  ([ConnectTo (data_address c)], if handle_h =? ACE_INVALID_HANDLE then 0 else handle_h).

(** the control connection, if it can take a request *)
Definition getControlConnectionAndMessage env c : option Z :=
  if found env (controlConnection c) && is_stream env (controlConnection c)
  then Some (controlConnection c) else None.

Definition request env q c : list output :=
  match getControlConnectionAndMessage env c with
  | None => []
  | Some h => if send_throws env then [] else [SendRequest h q]
  end.

(** the state of the parser for the data that a request returns *)
Definition data_state q : FTP_ProtocolDataState :=
  if bool_decide (command q = FTP_COMMAND_LIST)
  then if is_directory_list q then FTP_STATE_DATA_LIST_DIRECTORY else FTP_STATE_DATA_LIST_FILE
  else FTP_STATE_DATA_DATA.

Definition PASS_request c : FTP_Request A :=
  MkFtpRequest inet_any FTP_COMMAND_PASS true [password c].

(** what follows the [switch] of [responseCB] *)
Definition request_next env q c (os : list output) : outcome (control * list output) :=
  Ok (c, os ++ if bool_decide (command q = FTP_COMMAND_INVALID) then [] else request env q c).

(** [FTP_CODE_ENTERING_PASSIVE_MODE] *)
Definition on_passive env (text : list string) c : outcome (control * list output) :=
  match text with
  | [] => Abort
  | line :: _ =>
      a ← parsePASVResponse line;
      let c := set_data_address a c in
      let '(os, handle_h) := connectData env c in
      if handle_h =? 0 then Ok (c, os)
      else
        match queue_ c with
        | [] => Abort
        | q :: rest =>
            let c := set_queue rest c in
            ace_assert (has_data_parser env handle_h);;
            request_next env q c (os ++ [SetDataState handle_h (data_state q)])
        end
  end.

Definition responseCB env (record_in : FTP_Reply) c : outcome (control * list output) :=
  let code := reply_code record_in in
  if code =? FTP_CODE_OK then
    if expectingPORTResponse c then
      let c := set_expecting false c in
      match queue_ c with
      | [] => Abort
      | q :: _ => request_next env q c []
      end
    else request_next env no_request c []
  else if code =? FTP_CODE_ENTERING_PASSIVE_MODE then on_passive env (reply_text record_in) c
  else if code =? FTP_CODE_USER_OK_NEED_PASSWORD then
    match getControlConnectionAndMessage env c with
    | None => Ok (c, [])
    | Some h =>
        if send_throws env then Ok (c, [Throw])
        else request_next env no_request c [SendRequest h (PASS_request c)]
    end
  else request_next env no_request c [].

(** [Net_IConnectionState::connect ()]: the server has connected *)
Definition connect env (handle_in : Z) c : outcome (control * list output) :=
  if handle_in =? ACE_INVALID_HANDLE then Ok (c, [])
  else
    let state_e :=
      match queue_ c with [] => FTP_STATE_DATA_LIST_DIRECTORY | q :: _ => data_state q end in
    ace_assert (has_data_parser env handle_in);;
    Ok (set_queue (tail (queue_ c)) c, [SetDataState handle_in state_e]).

Definition disconnect (handle_in : Z) c : control := c.

(** ** Sequences of calls *)
Inductive event :=
  | ConnectControl
  | ExpectPORT
  | Request (q : FTP_Request A)
  | Queue (q : FTP_Request A)
  | Clear
  | Response (r : FTP_Reply)
  | Connected (h : Z)
  | Disconnected (h : Z).

Definition handle env (ev : event) c : outcome (control * list output) :=
  match ev with
  | ConnectControl => let '(c', os, _) := connectControl env c in Ok (c', os)
  | ExpectPORT => Ok (expectPORTResponse c, [])
  | Request q => Ok (c, request env q c)
  | Queue q => Ok (queue q c, [])
  | Clear => Ok (clear c, [])
  | Response r => responseCB env r c
  | Connected h => connect env h c
  | Disconnected h => Ok (disconnect h c, [])
  end.

(** a sequence of calls, each with what it finds, and all that they do *)
Fixpoint run (evs : list (environment * event)) c : outcome (control * list output) :=
  match evs with
  | [] => Ok (c, [])
  | (env, ev) :: evs' =>
      '(c1, os) ← handle env ev c; '(c2, os') ← run evs' c1; Ok (c2, os ++ os')
  end.
End Control.
Arguments environment A : clear implicits.
Arguments output A : clear implicits.
Arguments control A : clear implicits.
Arguments event A : clear implicits.

Section Lemmas.
Context {A : Type} `{InetAddr A}.
Implicit Types (env : environment A) (c : control A) (q : FTP_Request A) (ev : event A).

Lemma ftp_run_app evs1 evs2 c c1 os1 :
  run evs1 c = Ok (c1, os1) →
  run (evs1 ++ evs2) c = ('(c2, os2) ← run evs2 c1; Ok (c2, os1 ++ os2)).
Proof.
  revert c os1. induction evs1 as [|[env ev] evs1 IH]; intros c os1; cbn [run app].
  - intros [= <- <-]. by destruct (run evs2 c) as [[]| |].
  - intros ([c2 os] & Hh & ([c3 os'] & Hr & [= <- <-])%bind_Ok)%bind_Ok.
    rewrite Hh. cbn [mbind outcome_bind]. rewrite (IH _ _ Hr). cbn [mbind outcome_bind].
    destruct (run evs2 c3) as [[c4 os4]| |]; cbn [mbind outcome_bind]; [|done..].
    by rewrite app_assoc.
Qed.

(** ** Requests that wait for a data connection *)
Definition transfers_data (k : FTP_Command) : bool :=
  bool_decide (k ∈ [FTP_COMMAND_LIST; FTP_COMMAND_NLST; FTP_COMMAND_RETR]).
Definition sent_request (o : output A) : option (FTP_Request A) :=
  match o with
  | SendRequest _ q => if transfers_data (command q) then Some q else None
  | _ => None
  end.
(** the transfers that have been requested of the server *)
Definition transfers (os : list (output A)) : list (FTP_Request A) := omap sent_request os.

(** the requests that are queued *)
Definition queued_request (x : environment A * event A) : option (FTP_Request A) :=
  match x.2 with Queue q => Some q | _ => None end.
Definition queued (evs : list (environment A * event A)) : list (FTP_Request A) :=
  omap queued_request evs.

(** transfers are queued, other requests are sent at once, and PORT is not used *)
Definition passive ev : bool :=
  match ev with
  | Queue q => transfers_data (command q)
  | Request q => negb (transfers_data (command q))
  | ExpectPORT => false
  | _ => true
  end.

Lemma transfers_app os os' : transfers (os ++ os') = transfers os ++ transfers os'.
Proof. apply omap_app. Qed.

Lemma transfers_request env q c :
  transfers (request env q c) = [] ∨
  transfers_data (command q) = true ∧ transfers (request env q c) = [q].
Proof.
  unfold request. destruct (getControlConnectionAndMessage env c); [|by left].
  destruct (send_throws env); [by left|]. cbn. destruct (transfers_data _) eqn:E; [by right|by left].
Qed.

Lemma transfers_request_none env q c :
  transfers_data (command q) = false → transfers (request env q c) = [].
Proof. intros Hq. destruct (transfers_request env q c) as [?|[? _]]; [done|congruence]. Qed.

(** One call in passive mode takes at most the request in front. *)
Lemma handle_passive env ev c c' os :
  passive ev = true → expectingPORTResponse c = false → handle env ev c = Ok (c', os) →
  expectingPORTResponse c' = false ∧
  transfers os ++ queue_ c' `sublist_of` queue_ c ++ queued [(env, ev)].
Proof.
  intros Hp He. destruct ev as [| |q|q| |r|h|h]; cbn [handle passive queued omap list_omap
    queued_request snd] in *; try done.
  - unfold connectControl. destruct (_ || _); intros [= <- <-]; cbn; rewrite app_nil_r.
    + done.
    + split; [done|]. by destruct (_ && _).
  - intros [= <- <-]. rewrite transfers_request_none by (by apply negb_true_iff).
    by rewrite app_nil_r.
  - intros [= <- <-]. done.
  - intros [= <- <-]. split; [done|]. apply sublist_nil_l.
  - rewrite app_nil_r. unfold responseCB. rewrite He.
    destruct (_ =? FTP_CODE_OK); [by intros [= <- <-]|].
    destruct (_ =? FTP_CODE_ENTERING_PASSIVE_MODE).
    + unfold on_passive. destruct (reply_text r) as [|line rest]; [done|].
      destruct (parsePASVResponse line) as [a| |]; [|done..]. cbn [mbind outcome_bind].
      unfold connectData. destruct (_ =? 0); [by intros [= <- <-]|].
      cbn [queue_ set_data_address]. destruct (queue_ c) as [|q l]; [done|].
      destruct (has_data_parser _ _); [|done]. cbn [ace_assert mbind outcome_bind].
      intros [= <- <-]. split; [done|]. cbn [queue_ set_queue app].
      cbn [transfers omap list_omap sent_request app].
      change (q :: l) with ([q] ++ l).
      destruct (bool_decide _); [by apply sublist_inserts_l|].
      match goal with |- context [request ?e q ?c0] =>
        destruct (transfers_request e q c0) as [Ht|[_ Ht]] end; unfold transfers in Ht;
        rewrite Ht; [by apply sublist_inserts_l|done].
    + destruct (_ =? FTP_CODE_USER_OK_NEED_PASSWORD); [|by intros [= <- <-]].
      destruct (getControlConnectionAndMessage env c); [|by intros [= <- <-]].
      by destruct (send_throws env); intros [= <- <-].
  - unfold connect. destruct (_ =? ACE_INVALID_HANDLE); [intros [= <- <-]; by rewrite app_nil_r|].
    destruct (has_data_parser _ _); [|done]. intros [= <- <-]. split; [done|].
    rewrite app_nil_r. cbn [queue_ set_queue transfers omap list_omap sent_request app].
    destruct (queue_ c); [done|]. by apply sublist_cons.
  - intros [= <- <-]. by rewrite app_nil_r.
Qed.

Lemma queued_cons x evs : queued (x :: evs) = queued [x] ++ queued evs.
Proof. exact (omap_app _ [x] evs). Qed.

(** C16: In passive mode, whatever the server replies, whichever connections are found or
    fail and whoever connects, the transfers that are requested of the server together with
    those that still wait are a subsequence of those that have been queued: none is
    requested twice, out of order, or without having been queued. *)
Theorem transfers_in_order (evs : list (environment A * event A)) c c' os
    (Hp : Forall (λ x, passive x.2 = true) evs) (He : expectingPORTResponse c = false)
    (Hr : run evs c = Ok (c', os)) :
  transfers os ++ queue_ c' `sublist_of` queue_ c ++ queued evs.
Proof.
  revert c os He Hr. induction Hp as [|[env ev] evs Hev Hp IH]; intros c os He; cbn [run].
  - intros [= <- <-]. by rewrite app_nil_r.
  - intros ([c1 os1] & Hh & ([c2 os2] & Hr & [= <- <-])%bind_Ok)%bind_Ok.
    destruct (handle_passive env ev c c1 os1 Hev He Hh) as [He1 H1].
    specialize (IH c1 os2 He1 Hr). rewrite transfers_app, queued_cons, <- app_assoc.
    transitivity (transfers os1 ++ (queue_ c1 ++ queued evs)).
    + by apply sublist_app.
    + rewrite !app_assoc. by apply sublist_app.
Qed.

(** ** One transfer in each mode

    The control connection can be used; the data connection has a parser. *)
Definition ready env c : Prop :=
  found env (controlConnection c) = true ∧ is_stream env (controlConnection c) = true ∧
  send_throws env = false.

Lemma ready_request env q c : ready env c → request env q c = [SendRequest (controlConnection c) q].
Proof.
  intros (Hf & Hs & Ht). unfold request, getControlConnectionAndMessage. by rewrite Hf, Hs, Ht.
Qed.

Definition valid (h : Z) : Prop := h ≠ 0 ∧ h ≠ ACE_INVALID_HANDLE.

Lemma connectData_valid env c :
  valid (connect_handle env (data_address c)) →
  connectData env c = ([ConnectTo (data_address c)], connect_handle env (data_address c)).
Proof. intros [_ Hn]. unfold connectData. by rewrite (proj2 (Z.eqb_neq _ _) Hn). Qed.

Lemma on_passive_front env line rest a q l c :
  parsePASVResponse line = Ok a → valid (connect_handle env a) → queue_ c = q :: l →
  has_data_parser env (connect_handle env a) = true → command q ≠ FTP_COMMAND_INVALID →
  ready env c →
  on_passive env (line :: rest) c =
    Ok (set_queue l (set_data_address a c),
        [ConnectTo a; SetDataState (connect_handle env a) (data_state q);
         SendRequest (controlConnection c) q]).
Proof.
  intros Ha Hv Hq Hd Hi Hc. unfold on_passive. rewrite Ha. cbn [mbind outcome_bind].
  rewrite connectData_valid by done. cbn [data_address set_data_address].
  rewrite (proj2 (Z.eqb_neq _ _) (proj1 Hv)). cbn [queue_ set_data_address]. rewrite Hq, Hd.
  cbn [ace_assert mbind outcome_bind]. unfold request_next.
  rewrite bool_decide_false by done. by rewrite ready_request.
Qed.

(** Transfers in passive mode: the request is queued, and the server replies with the
    address it listens at. *)
Record transfer := Transfer {
  t_env : environment A;
  t_request : FTP_Request A;
  t_line : string;
  t_address : A
}.
Definition transfer_ok c (t : transfer) : Prop :=
  parsePASVResponse (t_line t) = Ok (t_address t) ∧ ready (t_env t) c ∧
  valid (connect_handle (t_env t) (t_address t)) ∧
  has_data_parser (t_env t) (connect_handle (t_env t) (t_address t)) = true ∧
  command (t_request t) ≠ FTP_COMMAND_INVALID.
Definition passive_events (t : transfer) : list (environment A * event A) :=
  [(t_env t, Queue (t_request t));
   (t_env t, Response (Reply FTP_CODE_ENTERING_PASSIVE_MODE [t_line t]))].
Definition passive_outputs c (t : transfer) : list (output A) :=
  let h := connect_handle (t_env t) (t_address t) in
  [ConnectTo (t_address t); SetDataState h (data_state (t_request t));
   SendRequest (controlConnection c) (t_request t)].

Lemma transfer_ok_ext c c' t :
  controlConnection c' = controlConnection c → transfer_ok c t → transfer_ok c' t.
Proof. intros Hc. unfold transfer_ok, ready. by rewrite Hc. Qed.

Lemma passive_run t c :
  transfer_ok c t → queue_ c = [] →
  run (passive_events t) c = Ok (set_queue [] (set_data_address (t_address t) c), passive_outputs c t).
Proof.
  intros (Ha & Hc & Hv & Hd & Hi) Hq. cbn [passive_events run handle mbind outcome_bind].
  change (responseCB ?e (Reply FTP_CODE_ENTERING_PASSIVE_MODE ?l) ?c) with (on_passive e l c).
  rewrite (on_passive_front _ _ _ (t_address t) (t_request t) []); try done.
  cbn [queue queue_ set_queue]. by rewrite Hq.
Qed.

(** Any number of transfers in passive mode: for each one the client connects to the
    address of the server's reply, prepares the parser for the kind of data, and then sends
    the request on the control connection, in the order in which they were queued, and
    nothing else; in the end nothing waits. *)
Theorem passive_mode_transfers (ts : list transfer) c
    (Ht : Forall (transfer_ok c) ts) (Hq : queue_ c = []) :
  ∃ c', run (ts ≫= passive_events) c = Ok (c', ts ≫= passive_outputs c) ∧
        queue_ c' = [] ∧ controlConnection c' = controlConnection c.
Proof.
  revert c Ht Hq. induction ts as [|t ts IH]; intros c Ht Hq; [by exists c|].
  apply Forall_cons in Ht as [Ht Hts]. cbn [mbind list_bind].
  rewrite (ftp_run_app _ _ _ _ _ (passive_run t c Ht Hq)).
  destruct (IH (set_queue [] (set_data_address (t_address t) c))) as (c' & Hr & Hq' & Hc').
  - eapply Forall_impl; [exact Hts|]. intros u. by apply transfer_ok_ext.
  - done.
  - rewrite Hr. by exists c'.
Qed.

(** Transfers in active mode: the request is queued, PORT is acknowledged, and the server
    connects. *)
Definition active_ok c (t : transfer) (h : Z) : Prop :=
  ready (t_env t) c ∧ h ≠ ACE_INVALID_HANDLE ∧ has_data_parser (t_env t) h = true ∧
  command (t_request t) ≠ FTP_COMMAND_INVALID.
Definition active_events (x : transfer * Z) : list (environment A * event A) :=
  let '(t, h) := x in
  [(t_env t, Queue (t_request t)); (t_env t, ExpectPORT);
   (t_env t, Response (Reply FTP_CODE_OK [t_line t])); (t_env t, Connected h)].
Definition active_outputs c (x : transfer * Z) : list (output A) :=
  let '(t, h) := x in
  [SendRequest (controlConnection c) (t_request t); SetDataState h (data_state (t_request t))].

Lemma active_run t h c :
  active_ok c t h → queue_ c = [] →
  run (active_events (t, h)) c =
    Ok (set_queue [] (set_expecting false c), active_outputs c (t, h)).
Proof.
  intros (Hc & Hh & Hd & Hi) Hq. destruct c as [ca da cc ex pw l]. cbn in Hq. subst l.
  cbn [active_events run handle mbind outcome_bind].
  change (responseCB ?e (Reply FTP_CODE_OK ?l) (expectPORTResponse (queue ?q ?c))) with
    (request_next e q (set_expecting false (queue q c)) []).
  unfold request_next. rewrite bool_decide_false, ready_request by done.
  cbn [mbind outcome_bind]. unfold connect.
  rewrite (proj2 (Z.eqb_neq _ _) Hh), Hd. done.
Qed.

(** Any number of transfers in active mode: for each one the request is sent when PORT
    has been acknowledged, and the parser of the connection that the server opens is
    prepared for the data of that request. *)
Theorem active_mode_transfers (xs : list (transfer * Z)) c
    (Hx : Forall (λ x, active_ok c x.1 x.2) xs) (Hq : queue_ c = [])
    (He : expectingPORTResponse c = false) :
  ∃ c', run (xs ≫= active_events) c = Ok (c', xs ≫= active_outputs c) ∧
        queue_ c' = [] ∧ expectingPORTResponse c' = false.
Proof.
  revert c Hx Hq He. induction xs as [|[t h] xs IH]; intros c Hx Hq He; [by exists c|].
  apply Forall_cons in Hx as [Hx Hxs]. cbn [mbind list_bind].
  rewrite (ftp_run_app _ _ _ _ _ (active_run t h c Hx Hq)).
  destruct (IH (set_queue [] (set_expecting false c))) as (c' & Hr & Hq' & He'); [done..|].
  rewrite Hr. by exists c'.
Qed.

(** A request stays in front until the server has connected, so that a second PORT
    that is acknowledged before that sends the same request again, and not the next. *)
Theorem second_PORT_repeats_request env q next l c r
    (Hc : ready env c) (Hq : queue_ c = q :: l) (Hi : command q ≠ FTP_COMMAND_INVALID)
    (Hr : reply_code r = FTP_CODE_OK) :
  run [(env, ExpectPORT); (env, Response r); (env, Queue next); (env, ExpectPORT);
       (env, Response r)] c =
    Ok (set_expecting false (queue next c),
        [SendRequest (controlConnection c) q; SendRequest (controlConnection c) q]).
Proof.
  assert (Hs : ∀ c', queue_ c' = q :: tail (queue_ c') → ready env c' →
    responseCB env r (expectPORTResponse c') =
      Ok (set_expecting false c', [SendRequest (controlConnection c') q])).
  { intros c' Hq' Hc'. unfold responseCB. rewrite Hr, Z.eqb_refl.
    cbn [expectPORTResponse expectingPORTResponse set_expecting queue_]. rewrite Hq'.
    unfold request_next. rewrite bool_decide_false by done. by rewrite ready_request. }
  cbn [run handle mbind outcome_bind]. rewrite Hs by (done || by rewrite Hq).
  cbn [mbind outcome_bind].
  rewrite Hs by (done || (cbn [queue queue_ set_queue set_expecting]; by rewrite Hq)).
  done.
Qed.

(** when a reply ends the program *)
Definition aborts env (r : FTP_Reply) c : Prop :=
  reply_code r = FTP_CODE_OK ∧ expectingPORTResponse c = true ∧ queue_ c = [] ∨
  reply_code r = FTP_CODE_ENTERING_PASSIVE_MODE ∧
    match reply_text r with
    | [] => True
    | line :: _ =>
        ∃ a, parsePASVResponse line = Ok a ∧ valid (connect_handle env a) ∧
             (queue_ c = [] ∨ has_data_parser env (connect_handle env a) = false)
    end.

Lemma on_passive_abort env text c :
  on_passive env text c = Abort ↔
  match text with
  | [] => True
  | line :: _ =>
      ∃ a, parsePASVResponse line = Ok a ∧ valid (connect_handle env a) ∧
           (queue_ c = [] ∨ has_data_parser env (connect_handle env a) = false)
  end.
Proof.
  destruct text as [|line rest]; [done|]. unfold on_passive.
  destruct (parsePASVResponse_total (A:=A) line) as [a Ha]. rewrite Ha. cbn [mbind outcome_bind].
  unfold connectData. cbn [data_address set_data_address queue_].
  unfold valid. destruct (connect_handle env a =? ACE_INVALID_HANDLE) eqn:E1; [|
    destruct (connect_handle env a =? 0) eqn:E2]; bool_lia.
  - split; [done|]. intros (b & [= <-] & [_ Hn] & _). done.
  - split; [done|]. intros (b & [= <-] & [Hn _] & _). done.
  - destruct (queue_ c) as [|q l] eqn:Eq.
    + split; [|done]. intros _. exists a. split; [done|]. split; [by split|by left].
    + destruct (has_data_parser _ _) eqn:Ed; cbn [ace_assert mbind outcome_bind].
      * split; [done|]. intros (b & [= <-] & _ & [?|?]); [done|congruence].
      * split; [|done]. intros _. exists a. split; [done|]. split; [by split|by right].
Qed.

(** The replies that end the program: the acknowledgement of PORT when no request
    waits, and a reply to PASV without text, or with the address of a server that can be
    connected to when no request waits or the connection has no parser.  Any other reply,
    at any time, is handled. *)
Theorem reply_aborts_iff env r c : responseCB env r c = Abort ↔ aborts env r c.
Proof.
  unfold responseCB, aborts. destruct (_ =? FTP_CODE_OK) eqn:E1; [|
    destruct (_ =? FTP_CODE_ENTERING_PASSIVE_MODE) eqn:E2]; bool_lia.
  - rewrite E1. destruct (expectingPORTResponse c); [|by split; [|intros [(_ & ? & _)|[? _]]]].
    cbn [queue_ set_expecting]. destruct (queue_ c).
    + split; [|done]. intros _. by left.
    + split; [done|]. by intros [(_ & _ & ?)|[? _]].
  - rewrite on_passive_abort. split; [intros Ht; by right|]. by intros [[? _]|[_ Ht]].
  - split; [|by intros [[? _]|[? _]]]. destruct (_ =? FTP_CODE_USER_OK_NEED_PASSWORD); [|done].
    destruct (getControlConnectionAndMessage env c); [|done]. by destruct (send_throws env).
Qed.
End Lemmas.

(** ** Witnesses *)
Definition working : environment inet_addr :=
  Environment (λ _, true) (λ _, true) false (λ _, 7) (λ _, true).
Definition connected : control inet_addr :=
  set_controlConnection 3 (FTP_Control inet_any inet_any "secret").
Definition retrieve (name : string) : FTP_Request inet_addr :=
  MkFtpRequest inet_any FTP_COMMAND_RETR false [name].
Definition pasv_line : string := "227 Entering Passive Mode (127,0,0,1,19,137)".
Definition one_transfer : transfer :=
  Transfer working (retrieve "a") pasv_line (inet4 127 0 0 1 5001).

Lemma pasv_line_address :
  parsePASVResponse (A:=inet_addr) pasv_line = Ok (inet4 127 0 0 1 5001).
Proof. vm_compute. reflexivity. Defined.

Lemma transfers_in_order_witness :
  ∃ c' os,
    run [(working, Queue (retrieve "a")); (working, Queue (retrieve "b"));
         (working, Response (Reply FTP_CODE_ENTERING_PASSIVE_MODE [pasv_line]))] connected =
      Ok (c', os) ∧
    transfers os ++ queue_ c' `sublist_of` [retrieve "a"; retrieve "b"].
Proof.
  eexists _, _. split; [vm_compute; reflexivity|].
  refine (transfers_in_order
    [(working, Queue (retrieve "a")); (working, Queue (retrieve "b"));
     (working, Response (Reply FTP_CODE_ENTERING_PASSIVE_MODE [pasv_line]))] connected _ _
    _ _ _).
  - by repeat constructor.
  - reflexivity.
  - vm_compute. reflexivity.
Defined.

Lemma one_transfer_ok : transfer_ok connected one_transfer.
Proof. split_and!; try done. Qed.

Lemma passive_mode_transfers_witness :
  ∃ c', run (passive_events one_transfer) connected = Ok (c', passive_outputs connected one_transfer)
        ∧ queue_ c' = [] ∧ controlConnection c' = 3.
Proof.
  apply (passive_mode_transfers [one_transfer] connected); [|reflexivity].
  by apply Forall_singleton, one_transfer_ok.
Defined.

Lemma active_mode_transfers_witness :
  ∃ c', run (active_events (one_transfer, 9)) connected =
          Ok (c', [SendRequest 3 (retrieve "a"); SetDataState 9 FTP_STATE_DATA_DATA])
        ∧ queue_ c' = [] ∧ expectingPORTResponse c' = false.
Proof.
  apply (active_mode_transfers [(one_transfer, 9)] connected); [|reflexivity..].
  apply Forall_singleton. by split_and!.
Defined.

Lemma second_PORT_repeats_request_witness :
  run [(working, ExpectPORT); (working, Response (Reply FTP_CODE_OK []));
       (working, Queue (retrieve "b")); (working, ExpectPORT);
       (working, Response (Reply FTP_CODE_OK []))] (queue (retrieve "a") connected) =
    Ok (set_expecting false (queue (retrieve "b") (queue (retrieve "a") connected)),
        [SendRequest 3 (retrieve "a"); SendRequest 3 (retrieve "a")]).
Proof.
  apply (second_PORT_repeats_request working (retrieve "a") (retrieve "b") []
    (queue (retrieve "a") connected) (Reply FTP_CODE_OK [])); done.
Defined.
