(* ===== verification/FtpReply.v ===== *)
(** * The replies to the FTP client (protocol/ftp: scripts/scanner.l, scripts/parser.y,
    ftp_parser_driver.inl)

    The scanner and the parser that read the replies on the control connection, and transfers
    with [FtpControl] from the octets that are received.  The driver blocks; the offset that the
    rules count is not used. *)
From S2P Require Import Prelude Chars Decimal Regex InetAddr AddressTools Lex Fragments Replies FtpTools FtpControl.

Inductive condition :=
  | INITIAL | reply_code_ | text_begin | multiline_text_begin | multi_line_minus | multiline_text
  | last_line_space | last_line_text | text_.
(** the condition, [yylval->sval], and the code of the record of the driver *)
Record scanner := MkScanner { cond : condition; sval : option string; code_ : Z }.
Inductive token := REPLY_CODE (ival : Z) | REPLY_TEXT (sval : string) | REPLY.
Notation scanned := (scanned scanner token).

(** ** The rules *)
Definition MINUS : re := lits [45].
Definition SPACE : re := lits [32].
Inductive action :=
  | Look | ReplyCode | Multi | Single | EndOfLine | Assign | OtherLine | LastLine | Minus | Space_
  | EndOfReply | ReplyText.
(** the expressions, the length of their trailing context, and what is done *)
Definition rules (c : condition) : list (re * (nat * action)) :=
  match c with
  | INITIAL => [(DIGIT, (0, Look))]
  | reply_code_ => [(times 3 DIGIT, (0, ReplyCode))]
  | text_begin => [(MINUS, (0, Multi)); (SPACE, (0, Single))]
  | multiline_text => [(CRLF, (0, EndOfLine)); (Many1 OCTET_NO_CRLF, (0, Assign))]
  | multiline_text_begin => [(Cat (times 3 DIGIT) MINUS, (1, OtherLine)); (Cat (times 3 DIGIT) SPACE, (1, LastLine))]
  | multi_line_minus => [(MINUS, (0, Minus))]
  | last_line_space => [(SPACE, (0, Space_))]
  | last_line_text | text_ => [(CRLF, (0, EndOfReply)); (Many1 OCTET_NO_CRLF, (0, ReplyText))]
  end%nat.

Definition begin_ (c : condition) (s : scanner) : scanner := MkScanner c (sval s) (code_ s).
Definition set_sval (v : string) (s : scanner) : scanner := MkScanner (cond s) (Some v) (code_ s).
(** [yylval->sval], a string that has been allocated *)
Definition value (s : scanner) : outcome string := match sval s with Some v => Ok v | None => Undef end.

Definition perform (a : action) (s : scanner) (yytext bs : list Z) (i : input) : outcome scanned :=
  let t := bytes_string (c_string yytext) in
  match a with
  | Look => Ok (Matched (begin_ reply_code_ s) ((yytext ++ bs) :: i))
  | ReplyCode => Ok (Token (REPLY_CODE (read_code t)) (MkScanner text_begin None (code_ s)) (bs :: i))
  | Multi => Ok (Matched (begin_ multiline_text (set_sval "" s)) (bs :: i))
  | Single => Ok (Matched (begin_ text_ (set_sval "" s)) (bs :: i))
  | EndOfLine => v ← value s; Ok (Token (REPLY_TEXT v) (begin_ multiline_text_begin s) (bs :: i))
  | Assign => _ ← value s; Ok (Matched (set_sval t s) (bs :: i))
  | OtherLine => ace_assert (read_code t =? code_ s);; Ok (Matched (begin_ multi_line_minus s) (bs :: i))
  | LastLine => ace_assert (read_code t =? code_ s);; Ok (Matched (begin_ last_line_space s) (bs :: i))
  | Minus => Ok (Matched (begin_ multiline_text (set_sval "" s)) (bs :: i))
  | Space_ => Ok (Matched (begin_ last_line_text (set_sval "" s)) (bs :: i))
  | EndOfReply => _ ← value s; Ok (Token REPLY (begin_ INITIAL (set_sval "" s)) (bs :: i))
  | ReplyText => _ ← value s; Ok (Token (REPLY_TEXT t) (set_sval t s) (bs :: i))
  end.
Definition rule (s : scanner) (bs : list Z) (i : input) : option (outcome scanned) :=
  '(n, (k, a)) ← pick (rules (cond s)) bs; Some (perform a s (take (n - k) bs) (drop (n - k) bs) i).

(** an octet that no rule takes is asserted not to be; the condition outlives its buffer *)
Definition any_octet (s : scanner) (bs : list Z) (i : input) : outcome scanned := Abort.
Definition lex (fuel : nat) (s : scanner) (i : input) : outcome scanned :=
  scan rule (λ _, false) id any_octet fuel s i.
Definition yylex (s : scanner) (i : input) : outcome scanned := lex (scan_fuel i) s i.

(** ** The grammar *)
Inductive parsed :=
  | Parsed (r : FTP_Reply) (s : scanner) (i : input)
  | Failed (s : scanner)
  | Waiting.
Definition unexpected (m : scanned) : outcome parsed :=
  Ok match m with Token _ s _ | End_ s _ | Matched s _ => Failed s | Waits => Waiting end.
(** [driver->current ().text.push_back (t)] *)
Definition push (t : string) (r : FTP_Reply) : FTP_Reply := Reply (reply_code r) (reply_text r ++ [t]).
Fixpoint text_lines (fuel : nat) (r : FTP_Reply) (s : scanner) (i : input) : outcome parsed :=
  match fuel with
  | O => Ok Waiting
  | S fuel' =>
      m ← yylex s i;
      match m with
      | Token (REPLY_TEXT t) s i => text_lines fuel' (push t r) s i
      | Token REPLY s i => Ok (Parsed r s i)
      | other => unexpected other
      end
  end.
(** every token takes an octet of those that are left *)
Definition lines_fuel (i : input) : nat := S (length (mjoin i)).
(** the code is kept before the next token is read *)
Definition message (s : scanner) (i : input) : outcome parsed :=
  m ← yylex s i;
  match m with
  | Token (REPLY_CODE c) s i => text_lines (lines_fuel i) (Reply c []) (MkScanner (cond s) (sval s) c) i
  | other => unexpected other
  end.
(** [FTP_Codes::FTP_CODE_INVALID], of a new record *)
Definition FTP_CODE_INVALID : Z := 555.
(** [parse ()], of the fragments that have been received: the condition is that in which the
    last reply has left the scanner ([FTP_Scanner_reset ()] does nothing); what is behind the
    reply is not read *)
Definition parse (s : scanner) (i : input) : outcome parsed := message (MkScanner (cond s) None FTP_CODE_INVALID) i.

(** ** Replies as RFC 959 has them, each line with its code *)
Definition line_start (sep c : Z) : list Z := string_bytes (pretty c) ++ [sep].
Definition text_piece (l : string) : list (list Z) := if decide (l = "") then [] else [string_bytes l].
Definition line_pieces (sep c : Z) (l : string) : list (list Z) :=
  line_start sep c :: text_piece l ++ [string_bytes crlf].
Definition reply_pieces (c : Z) (ls : list string) (l : string) : list (list Z) :=
  (ls ≫= line_pieces 45 c) ++ line_pieces 32 c l.
(** *** What the rules take *)
Lemma ftp_ruled s p q i n k a :
  pick (rules (cond s)) (p ++ q) = Some (n, (k, a)) → n = (length p + k)%nat →
  rule s (p ++ q) i = Some (perform a s p q i).
Proof.
  intros Hp ->. unfold rule. rewrite Hp. cbn [mbind option_bind]. rewrite Nat.add_sub.
  by rewrite take_app_length, drop_app_length.
Qed.
Lemma goes_on_all (s : scanner) : goes_on (λ _, false) id s.
Proof. by split. Qed.
Notation piece := (scan_piece rule (λ _, false) id any_octet).
Notation piece_token := (scan_piece_token rule (λ _, false) id any_octet).

(** the codes of lines that are not the first *)
Definition next_code_ok (n : Z) : bool :=
  implb (100 <=? n)
    (let p := string_bytes (pretty n) in
     match residual (Cat (times 3 DIGIT) MINUS) (p ++ [45]), residual (Cat (times 3 DIGIT) SPACE) (p ++ [45]),
           residual (Cat (times 3 DIGIT) MINUS) (p ++ [32]), residual (Cat (times 3 DIGIT) SPACE) (p ++ [32]) with
     | Eps, Never, Never, Eps => match longest (Cat (times 3 DIGIT) SPACE) (p ++ [45]), longest (Cat (times 3 DIGIT) MINUS) (p ++ [32]) with
                                 | None, None => true | _, _ => false end
     | _, _, _, _ => false
     end).
Lemma next_code_ok_all : forallb next_code_ok (seqZ 0 1000) = true.
Proof. by vm_compute. Qed.
Lemma next_code_picked sep n f :
  100 <= n < 1000 → sep = 45 ∨ sep = 32 →
  pick (rules multiline_text_begin) (line_start sep n ++ f) =
    Some (length (line_start sep n), (1%nat, if sep =? 45 then OtherLine else LastLine)).
Proof.
  intros Hn Hs. pose proof (seqZ_forall _ _ next_code_ok_all n ltac:(lia)) as H. unfold next_code_ok in H.
  rewrite (proj2 (Z.leb_le _ _)) in H by lia. cbn [implb] in H. unfold line_start.
  destruct (residual (Cat _ MINUS) (_ ++ [45])) eqn:E1; try done.
  destruct (residual (Cat _ SPACE) (_ ++ [45])) eqn:E2; try done.
  destruct (residual (Cat _ MINUS) (_ ++ [32])) eqn:E3; try done.
  destruct (residual (Cat _ SPACE) (_ ++ [32])) eqn:E4; try done.
  destruct (longest (Cat _ SPACE) (_ ++ [45])) eqn:E5; [done|].
  destruct (longest (Cat _ MINUS) (_ ++ [32])) eqn:E6; [done|].
  destruct Hs as [-> | ->]; cbn [rules pick].
  - by rewrite (longest_residual _ _ _ E1), (longest_prefix _ _ _ E2), E5.
  - by rewrite (longest_residual _ _ _ E4), (longest_prefix _ _ _ E3), E6.
Qed.

Lemma text_picked {A} (a b : A) l ps rest f j :
  plain_text l = true → l ≠ "" → uncut (string_bytes crlf :: ps) rest (f :: j) →
  pick [(CRLF, a); (Many1 OCTET_NO_CRLF, b)] (string_bytes l ++ f) = Some (length (string_bytes l), b).
Proof.
  intros Hl Hne Hu. destruct (text_octets l Hl) as [Hf _]. apply run_picked; [by destruct l|done|].
  by destruct (uncut_head _ _ _ _ _ Hu) as [->|[f' ->]].
Qed.
Lemma sep_picked sep f :
  sep = 45 ∨ sep = 32 →
  pick (rules text_begin) ([sep] ++ f) = Some (1%nat, (0%nat, if sep =? 45 then Multi else Single)).
Proof.
  intros [-> | ->]; cbn [rules pick].
  - rewrite (longest_residual MINUS) by done. cbn [app]. unfold SPACE. by rewrite lits_none.
  - rewrite (longest_residual SPACE) by done. cbn [app]. unfold MINUS. by rewrite lits_none.
Qed.

(** *** Lines *)
(** behind the separator *)
Definition in_text (sep : Z) (first : bool) : condition :=
  if sep =? 45 then multiline_text else if first then text_ else last_line_text.

Lemma first_code s sep c ps rest i :
  cond s = INITIAL → 100 <= c < 1000 → uncut (line_start sep c :: ps) rest i →
  ∃ f j, yylex s i = Ok (Token (REPLY_CODE c) (MkScanner text_begin None (code_ s)) (([sep] ++ f) :: j)) ∧
    uncut ps rest (f :: j).
Proof.
  intros Hs Hc Hu. destruct (code_digits c Hc) as (Hr & Hcs & Hv & d & l & El & Hd).
  eapply (scan_look rule _ _ _ s _ _ _ _ _ _ (begin_ reply_code_ s)); [exact Hu|by rewrite El|apply goes_on_all| | |].
  - unfold scan_fuel. fold (size i). lia.
  - intros f j. rewrite El. change ((d :: l) ++ [sep] ++ f) with ([d] ++ (l ++ [sep] ++ f)).
    rewrite (ftp_ruled _ _ _ _ 1 0 Look); [done| |done]. rewrite Hs. cbn [rules pick app].
    unfold DIGIT. by rewrite class_picked.
  - intros f j. rewrite (ftp_ruled _ _ _ _ (length (string_bytes (pretty c))) 0 ReplyCode); [| |by rewrite Nat.add_0_r].
    + unfold perform. by rewrite Hcs, bytes_string_bytes, Hv.
    + cbn [cond begin_ rules pick]. by rewrite longest_residual.
Qed.
Lemma first_opened s sep ps rest f j :
  cond s = text_begin → sep = 45 ∨ sep = 32 → uncut ps rest (f :: j) →
  ∃ n, yylex s (([sep] ++ f) :: j) = lex n (MkScanner (in_text sep true) (Some "") (code_ s)) (f :: j) ∧
    (size (f :: j) <= n)%nat.
Proof.
  intros Hs Hsep Hu. apply scan_take; [done|apply scan_fuel_size|].
  rewrite (ftp_ruled _ _ _ _ 1 0 (if sep =? 45 then Multi else Single)); [|by rewrite Hs; apply sep_picked|done].
  by destruct Hsep as [-> | ->].
Qed.
Lemma next_opened s sep c ps rest i n :
  cond s = multiline_text_begin → code_ s = c → 100 <= c < 1000 → sep = 45 ∨ sep = 32 →
  uncut (line_start sep c :: ps) rest i → (size i <= n)%nat →
  ∃ i' n', lex n s i = lex n' (MkScanner (in_text sep false) (Some "") c) i' ∧ uncut ps rest i' ∧ (size i' <= n')%nat.
Proof.
  intros Hs Hk Hc Hsep Hu Hn. destruct (code_digits c Hc) as (Hr & Hcs & Hv & d & l & El & Hd).
  destruct (scan_taken rule (λ _, false) id any_octet s (string_bytes (pretty c)) [sep] ps rest i
    (begin_ (if sep =? 45 then multi_line_minus else last_line_space) s) n) as (f & j & n1 & E1 & Hj & Hn1);
    [exact Hu|by rewrite El|apply goes_on_all|done| |].
  { intros f j. rewrite (ftp_ruled _ _ _ _ (length (line_start sep c)) 1 (if sep =? 45 then OtherLine else LastLine)).
    - destruct Hsep as [-> | ->]; cbn [Z.eqb Pos.eqb]; unfold perform;
        by rewrite Hcs, bytes_string_bytes, Hv, Hk, Z.eqb_refl.
    - rewrite Hs, (assoc_L (++)). by apply next_code_picked.
    - unfold line_start. by rewrite length_app. }
  destruct (scan_take rule (λ _, false) id any_octet (begin_ (if sep =? 45 then multi_line_minus else last_line_space) s)
    [sep] f j (MkScanner (in_text sep false) (Some "") c) n1) as (n2 & E2 & Hn2); [done|done| |].
  { destruct Hsep as [-> | ->]; cbn [Z.eqb Pos.eqb].
    - rewrite (ftp_ruled _ _ _ _ 1 0 Minus); [by unfold perform, begin_, set_sval; cbn [cond sval code_]; rewrite Hk| |done].
      cbn [cond begin_ rules pick]. by rewrite (longest_residual MINUS).
    - rewrite (ftp_ruled _ _ _ _ 1 0 Space_); [by unfold perform, begin_, set_sval; cbn [cond sval code_]; rewrite Hk| |done].
      cbn [cond begin_ rules pick]. by rewrite (longest_residual SPACE). }
  exists (f :: j), n2. split_and!; [|done|done]. unfold lex. by rewrite E1, E2.
Qed.

(** the text of a line that is not the last *)
Lemma ftp_text_lexed c l ps rest i n :
  plain_text l = true → uncut (text_piece l ++ string_bytes crlf :: ps) rest i → (size i <= n)%nat →
  ∃ i', lex n (MkScanner multiline_text (Some "") c) i =
      Ok (Token (REPLY_TEXT l) (MkScanner multiline_text_begin (Some l) c) i') ∧ uncut ps rest i'.
Proof.
  intros Hl Hu Hn.
  assert (∃ i1 n1, lex n (MkScanner multiline_text (Some "") c) i = lex n1 (MkScanner multiline_text (Some l) c) i1 ∧
    uncut (string_bytes crlf :: ps) rest i1 ∧ (size i1 <= n1)%nat) as (i1 & n1 & -> & Hu1 & Hn1).
  { unfold text_piece in Hu. destruct (decide (l = "")) as [->|Hne]; [by exists i, n|].
    apply (piece _ (string_bytes l)); [exact Hu|by destruct l|apply goes_on_all|done|].
    intros f j Hj. rewrite (ftp_ruled _ _ _ _ (length (string_bytes l)) 0 Assign); [| |by rewrite Nat.add_0_r].
    - unfold perform. cbn. by rewrite (proj2 (text_octets l Hl)), bytes_string_bytes.
    - by eapply text_picked. }
  apply (piece_token _ (string_bytes crlf)); [exact Hu1|done|apply goes_on_all|done|].
  intros f j _. rewrite (ftp_ruled _ _ _ _ 2 0 EndOfLine); [done|apply crlf_picked|done].
Qed.

(** what follows a token *)
Definition behind_token (fuel : nat) (r : FTP_Reply) (m : outcome scanned) : outcome parsed :=
  m ← m;
  match m with
  | Token (REPLY_TEXT t) s i => text_lines fuel (push t r) s i
  | Token REPLY s i => Ok (Parsed r s i)
  | other => unexpected other
  end.
Lemma text_lines_behind fuel r s i : text_lines (S fuel) r s i = behind_token fuel r (yylex s i).
Proof. done. Qed.
(** the text of the last line *)
Definition push_text (l : string) (r : FTP_Reply) : FTP_Reply := if decide (l = "") then r else push l r.
Lemma reply_ended fuel first v c r ps rest i n :
  uncut (string_bytes crlf :: ps) rest i → (size i <= n)%nat →
  ∃ s' i', behind_token fuel r (lex n (MkScanner (in_text 32 first) (Some v) c) i) = Ok (Parsed r s' i') ∧
    cond s' = INITIAL ∧ uncut ps rest i'.
Proof.
  intros Hu Hn. destruct (piece_token (MkScanner (in_text 32 first) (Some v) c) (string_bytes crlf) ps rest i REPLY
    (MkScanner INITIAL (Some "") c) n) as (i' & E & Hi'); [exact Hu|done|apply goes_on_all|done| |].
  { intros f j _. rewrite (ftp_ruled _ _ _ _ 2 0 EndOfReply); [done|destruct first; apply crlf_picked|done]. }
  unfold lex. rewrite E. by eexists _, _.
Qed.
Lemma last_text fuel first c r l ps rest i n :
  plain_text l = true → uncut (text_piece l ++ string_bytes crlf :: ps) rest i → (size i <= n)%nat →
  ∃ s' i', behind_token (S fuel) r (lex n (MkScanner (in_text 32 first) (Some "") c) i) =
      Ok (Parsed (push_text l r) s' i') ∧ cond s' = INITIAL ∧ uncut ps rest i'.
Proof.
  intros Hl Hu Hn. unfold text_piece, push_text in *.
  destruct (decide (l = "")) as [->|Hne]; [by apply reply_ended|].
  destruct (piece_token (MkScanner (in_text 32 first) (Some "") c) (string_bytes l) _ rest i (REPLY_TEXT l)
    (MkScanner (in_text 32 first) (Some l) c) n Hu) as (i1 & E & Hi1); [by destruct l|apply goes_on_all|done| |].
  { intros f j Hj. rewrite (ftp_ruled _ _ _ _ (length (string_bytes l)) 0 ReplyText); [| |by rewrite Nat.add_0_r].
    - unfold perform. cbn. by rewrite (proj2 (text_octets l Hl)), bytes_string_bytes.
    - by destruct first; eapply text_picked. }
  unfold lex. rewrite E. cbn [behind_token mbind outcome_bind]. rewrite text_lines_behind.
  by apply reply_ended; [|apply scan_fuel_size].
Qed.

(** *** Replies *)
Definition opened_sep (ls : list string) : Z := match ls with [] => 32 | _ => 45 end.
Lemma reply_opened c ls l : reply_pieces c ls l = line_start (opened_sep ls) c :: tail (reply_pieces c ls l).
Proof. by destruct ls. Qed.
Lemma reply_next c l1 ls l :
  tail (reply_pieces c (l1 :: ls) l) = text_piece l1 ++ string_bytes crlf :: reply_pieces c ls l.
Proof. unfold reply_pieces. cbn [mbind list_bind line_pieces app tail]. by rewrite <- !(assoc_L (++)). Qed.
Lemma opened_sep_ok ls : opened_sep ls = 45 ∨ opened_sep ls = 32.
Proof. destruct ls; [by right|by left]. Qed.
Definition pushes (ls : list string) (r : FTP_Reply) : FTP_Reply := Reply (reply_code r) (reply_text r ++ ls).

Lemma ftp_lines_parsed c l ps rest ls : ∀ first fuel r i n,
  100 <= c < 1000 → Forall (λ l, plain_text l = true) ls → plain_text l = true →
  uncut (tail (reply_pieces c ls l) ++ ps) rest i → (size i <= n)%nat → (length ls + 1 <= fuel)%nat →
  ∃ s' i', behind_token fuel r (lex n (MkScanner (in_text (opened_sep ls) first) (Some "") c) i) =
      Ok (Parsed (push_text l (pushes ls r)) s' i') ∧ cond s' = INITIAL ∧ uncut ps rest i'.
Proof.
  induction ls as [|l1 ls IH]; intros first fuel r i n Hc Hls Hl Hu Hn Hf.
  - destruct fuel as [|fuel]; [cbn in Hf; lia|]. unfold pushes. rewrite app_nil_r.
    replace (Reply (reply_code r) (reply_text r)) with r by (by destruct r).
    apply last_text; [done| |done]. cbn in Hu. by rewrite <- (assoc_L (++)) in Hu.
  - apply Forall_cons_1 in Hls as [Hl1 Hls]. destruct fuel as [|fuel]; [cbn in Hf; lia|].
    rewrite reply_next, <- (assoc_L (++)) in Hu. change (in_text (opened_sep (l1 :: ls)) first) with multiline_text.
    destruct (ftp_text_lexed c l1 (reply_pieces c ls l ++ ps) rest i n Hl1 Hu Hn) as (i1 & -> & Hu1).
    cbn [behind_token mbind outcome_bind]. rewrite text_lines_behind. rewrite reply_opened in Hu1.
    destruct (next_opened (MkScanner multiline_text_begin (Some l1) c) (opened_sep ls) c _ rest i1 (scan_fuel i1)
      eq_refl eq_refl Hc (opened_sep_ok ls) Hu1 (scan_fuel_size i1)) as (i2 & n2 & E2 & Hu2 & Hn2).
    unfold yylex. rewrite E2.
    destruct (IH false fuel (push l1 r) i2 n2) as (s' & i' & -> & Hs' & Hi'); [done..|cbn in Hf; lia|].
    exists s', i'. split; [|done]. unfold pushes, push. cbn [reply_code reply_text]. by rewrite <- (assoc_L (++)).
Qed.
Lemma pieces_length c ls l : (2 * length ls + 2 <= length (mjoin (tail (reply_pieces c ls l))))%nat.
Proof.
  assert (∀ t qs, 2 + length (mjoin qs) <= length (mjoin (text_piece t ++ string_bytes crlf :: qs)))%nat as Ht.
  { intros t qs. rewrite join_app, length_app.
    change (mjoin (string_bytes crlf :: qs)) with (string_bytes crlf ++ mjoin qs). rewrite length_app.
    change (length (string_bytes crlf)) with 2%nat. lia. }
  induction ls as [|l1 ls IH]; [exact (Ht l [])|].
  rewrite reply_next. pose proof (Ht l1 (reply_pieces c ls l)) as H. pose proof (reply_opened c ls l) as E.
  destruct (reply_pieces c ls l) as [|p qs]; [done|]. cbn [tail] in IH.
  change (mjoin (p :: qs)) with (p ++ mjoin qs) in H. rewrite length_app in H. cbn [length]. lia.
Qed.

(** the record of a reply: a last line without text is not kept *)
Definition record_of (c : Z) (ls : list string) (l : string) : FTP_Reply := push_text l (Reply c ls).
Lemma ftp_reply_parsed s c ls l ps rest i :
  cond s = INITIAL → 100 <= c < 1000 → Forall (λ l, plain_text l = true) ls → plain_text l = true →
  uncut (reply_pieces c ls l ++ ps) rest i →
  ∃ s' i', parse s i = Ok (Parsed (record_of c ls l) s' i') ∧ cond s' = INITIAL ∧ uncut ps rest i'.
Proof.
  intros Hs Hc Hls Hl Hu. rewrite reply_opened in Hu. unfold parse, message. rewrite Hs.
  destruct (first_code (MkScanner INITIAL None FTP_CODE_INVALID) (opened_sep ls) c (tail (reply_pieces c ls l) ++ ps) rest i eq_refl Hc Hu)
    as (f & j & -> & Hj). cbn [mbind outcome_bind cond sval code_].
  destruct (first_opened (MkScanner text_begin None c) (opened_sep ls) _ rest f j eq_refl (opened_sep_ok ls) Hj)
    as (n & E & Hn). unfold lines_fuel. rewrite text_lines_behind, E.
  apply (ftp_lines_parsed c l ps rest ls true _ (Reply c []) (f :: j) n Hc Hls Hl Hj Hn).
  pose proof (uncut_join _ _ _ Hj) as El. rewrite join_app in El. apply (f_equal length) in El. rewrite !length_app in El.
  pose proof (pieces_length c ls l). change (mjoin (([opened_sep ls] ++ f) :: j)) with ([opened_sep ls] ++ mjoin (f :: j)).
  rewrite length_app. cbn [length]. lia.
Qed.

(** ** Sessions *)
Section Sessions.
Context {A : Type} `{InetAddr A}.
Implicit Types (env : environment A) (c : control A) (q : FTP_Request A) (t : transfer (A:=A)).

(** Calls of the client, and the fragments of replies, which are read and handed on.  [None]: a
    reply has not been read (what the stream does then, is up to the library). *)
Fixpoint receive (es : list (environment A * (event A + input))) c (s : scanner) :
    outcome (option (control A * scanner * list (output A))) :=
  match es with
  | [] => Ok (Some (c, s, []))
  | (env, inl ev) :: es' =>
      '(c, os) ← handle env ev c;
      x ← receive es' c s;
      Ok ('(c, s, os') ← x; Some (c, s, os ++ os'))
  | (env, inr i) :: es' =>
      p ← parse s i;
      match p with
      | Parsed r s _ =>
          '(c, os) ← responseCB env r c;
          x ← receive es' c s;
          Ok ('(c, s, os') ← x; Some (c, s, os ++ os'))
      | _ => Ok None
      end
  end.

(** fragments that hold a reply, and nothing else *)
Definition holds (i : input) (r : FTP_Reply) : Prop :=
  ∃ n ls l, r = record_of n ls l ∧ 100 <= n < 1000 ∧ Forall (λ l, plain_text l = true) ls ∧ plain_text l = true ∧
    uncut (reply_pieces n ls l) [] i.
Definition reads (e : environment A * (event A + input)) (x : environment A * event A) : Prop :=
  e.1 = x.1 ∧ match e.2 with inl ev => ev = x.2 | inr i => ∃ r, x.2 = Response r ∧ holds i r end.

Lemma ftp_receive_run es : ∀ evs c c' os s,
  Forall2 reads es evs → run evs c = Ok (c', os) → cond s = INITIAL →
  ∃ s', receive es c s = Ok (Some (c', s', os)) ∧ cond s' = INITIAL.
Proof.
  induction es as [|[env e] es IH]; intros evs c c' os s Hes Hr Hs; inversion Hes as [|? [env' ev] ? evs' He Hes']; subst.
  - injection Hr as <- <-. by exists s.
  - destruct He as [Henv He]. cbn [fst snd] in *. subst env'. cbn [run] in Hr.
    apply bind_Ok in Hr as ([c1 os1] & Hh & ([c2 os2] & Hr & [= <- <-])%bind_Ok).
    destruct e as [ev'|i]; cbn [receive].
    + subst ev'. rewrite Hh. cbn [mbind outcome_bind].
      destruct (IH evs' c1 c2 os2 s Hes' Hr Hs) as (s' & -> & Hs'). by exists s'.
    + destruct He as (r & -> & n & ls & l & -> & Hn & Hls & Hl & Hu).
      destruct (ftp_reply_parsed s n ls l [] [] i Hs Hn Hls Hl) as (s1 & i' & -> & Hs1 & _); [by rewrite app_nil_r|].
      cbn [mbind outcome_bind handle] in *. rewrite Hh. cbn [mbind outcome_bind].
      destruct (IH evs' c1 c2 os2 s1 Hes' Hr Hs1) as (s' & -> & Hs'). by exists s'.
Qed.

(** replies that nothing is done about *)
Definition quiet (r : FTP_Reply) : Prop :=
  reply_code r ≠ FTP_CODE_ENTERING_PASSIVE_MODE ∧ reply_code r ≠ FTP_CODE_USER_OK_NEED_PASSWORD.
Definition responses env (rs : list FTP_Reply) : list (environment A * event A) := (λ r, (env, Response r)) <$> rs.
Lemma quiet_run env rs c :
  Forall quiet rs → expectingPORTResponse c = false → run (responses env rs) c = Ok (c, []).
Proof.
  intros Hrs He. induction Hrs as [|r rs [H1 H2] _ IH]; [done|]. cbn [responses fmap list_fmap run handle].
  unfold responseCB. rewrite He, (proj2 (Z.eqb_neq _ _) H1), (proj2 (Z.eqb_neq _ _) H2).
  destruct (reply_code r =? FTP_CODE_OK); unfold request_next; rewrite bool_decide_true by done;
    cbn [mbind outcome_bind]; unfold responses in IH; by rewrite IH.
Qed.

(** A login: the greeting, USER, the reply that asks for the password, and the one that lets the
    client in. *)
Definition login_events env (user : FTP_Request A) (greeting need welcome : FTP_Reply) : list (environment A * event A) :=
  responses env [greeting] ++ (env, Request user) :: responses env [need; welcome].
Lemma login_run env user greeting need welcome c :
  ready env c → expectingPORTResponse c = false → quiet greeting → quiet welcome →
  reply_code need = FTP_CODE_USER_OK_NEED_PASSWORD →
  run (login_events env user greeting need welcome) c =
    Ok (c, SendRequest (controlConnection c) <$> [user; PASS_request c]).
Proof.
  intros Hc He Hg Hw Hn. unfold login_events. rewrite (ftp_run_app _ _ c c []) by (by apply quiet_run; [apply Forall_singleton|]).
  cbn [mbind outcome_bind run handle]. rewrite ready_request by done.
  change (responses env [need; welcome]) with ((env, Response need) :: responses env [welcome]).
  cbn [run handle]. unfold responseCB. rewrite Hn.
  change (FTP_CODE_USER_OK_NEED_PASSWORD =? FTP_CODE_OK) with false.
  change (FTP_CODE_USER_OK_NEED_PASSWORD =? FTP_CODE_ENTERING_PASSIVE_MODE) with false. rewrite Z.eqb_refl.
  destruct Hc as (Hf & Hst & Ht). unfold getControlConnectionAndMessage. rewrite Hf, Hst, Ht. cbn [andb].
  unfold request_next. rewrite bool_decide_true by done. cbn [mbind outcome_bind].
  by rewrite (quiet_run env [welcome] c (proj2 (Forall_singleton _ _) Hw) He).
Qed.

(** A transfer: PASV, the reply to it, the request, and replies while data is transferred. *)
Definition PASV_request : FTP_Request A := MkFtpRequest inet_any FTP_COMMAND_PASV true [].
Definition transfer_events (d : transfer (A:=A) * list FTP_Reply) : list (environment A * event A) :=
  (t_env d.1, Request PASV_request) :: passive_events d.1 ++ responses (t_env d.1) d.2.
Definition transfer_outputs c (d : transfer (A:=A) * list FTP_Reply) : list (output A) :=
  SendRequest (controlConnection c) PASV_request :: passive_outputs c d.1.
(** the address of the argument of PORT, in a reply to PASV *)
Definition announces (line : string) (a : A) : Prop :=
  ∃ pre arg rest w x y z p, line = pre +:+ "(" +:+ arg +:+ ")" +:+ rest ∧ a = inet4 w x y z p ∧
    generatePORTArgument (inet4 w x y z p) = Ok arg ∧ octets w x y z ∧ 0 <= p < 2 ^ 16 ∧
    string_all not_paren pre = true ∧ string_all any_char rest = true.
Lemma announces_parsed line a : announces line a → parsePASVResponse line = Ok a.
Proof.
  intros (pre & arg & rest & w & x & y & z & p & -> & -> & Ha & Ho & Hp & Hpre & Hrest).
  destruct (PORT_PASV_roundtrip pre rest w x y z p Hpre Hrest Ho Hp) as (arg' & Ha' & E). congruence.
Qed.
(** the server announces an address that can be connected to *)
Definition served c (d : transfer (A:=A) * list FTP_Reply) : Prop :=
  announces (t_line d.1) (t_address d.1) ∧ ready (t_env d.1) c ∧
  valid (connect_handle (t_env d.1) (t_address d.1)) ∧
  has_data_parser (t_env d.1) (connect_handle (t_env d.1) (t_address d.1)) = true ∧
  command (t_request d.1) ≠ FTP_COMMAND_INVALID ∧ Forall quiet d.2.
Lemma served_run ds : ∀ c,
  Forall (served c) ds → queue_ c = [] → expectingPORTResponse c = false →
  ∃ c', run (ds ≫= transfer_events) c = Ok (c', ds ≫= transfer_outputs c) ∧ queue_ c' = [].
Proof.
  induction ds as [|[t rs] ds IH]; intros c Hds Hq He; [by exists c|].
  apply Forall_cons_1 in Hds as [(Ha & Hc & Hv & Hd & Hi & Hrs) Hds]. cbn [fst snd] in *.
  apply announces_parsed in Ha. set (c1 := set_queue [] (set_data_address (t_address t) c)).
  assert (run (transfer_events (t, rs)) c = Ok (c1, transfer_outputs c (t, rs))) as Hrun.
  { unfold transfer_events. cbn [run handle fst snd mbind outcome_bind]. rewrite ready_request by done.
    rewrite (ftp_run_app _ _ _ _ _ (passive_run t c (conj Ha (conj Hc (conj Hv (conj Hd Hi)))) Hq)).
    rewrite quiet_run by done. cbn [mbind outcome_bind]. by rewrite app_nil_r. }
  destruct (IH c1) as (c' & Hr & Hq'); [exact Hds|done..|].
  exists c'. split; [|done]. cbn [mbind list_bind]. rewrite (ftp_run_app _ _ _ _ _ Hrun). by rewrite Hr.
Qed.

(** C17: FTP_ParserDriver_T::parse and FTP_Control_T::responseCB, a session in passive mode from
    the octets of the replies, in fragments that cut lines in front of their text or behind it
    only: the client sends USER, then the password, and, for each of its transfers in order, PASV,
    connects to the address that the server gives in reply (as PORT has it), prepares the parser
    of that connection for the kind of data, and sends the request of the transfer; replies of
    other kinds, of one line or of several, change nothing of this.  In the end no transfer waits *)
Theorem ftp_session_received env user greeting need welcome ds es c s :
  ready env c → quiet greeting → quiet welcome → reply_code need = FTP_CODE_USER_OK_NEED_PASSWORD →
  Forall (served c) ds → queue_ c = [] → expectingPORTResponse c = false → cond s = INITIAL →
  Forall2 reads es (login_events env user greeting need welcome ++ (ds ≫= transfer_events)) →
  ∃ c' s', receive es c s =
      Ok (Some (c', s', (SendRequest (controlConnection c) <$> [user; PASS_request c]) ++ (ds ≫= transfer_outputs c))) ∧
    queue_ c' = [] ∧ cond s' = INITIAL.
Proof.
  intros Hc Hg Hw Hn Hds Hq He Hs Hes. destruct (served_run ds c Hds Hq He) as (c' & Hr & Hq').
  destruct (ftp_receive_run es _ c c' ((SendRequest (controlConnection c) <$> [user; PASS_request c]) ++ (ds ≫= transfer_outputs c))
    s Hes) as (s' & E & Hs'); [|done|by exists c', s'].
  rewrite (ftp_run_app _ _ _ _ _ (login_run env user greeting need welcome c Hc He Hg Hw Hn)). by rewrite Hr.
Qed.
End Sessions.

(** ** A concrete session: a greeting of two lines, in three fragments *)
Definition sample_greeting : input :=
  [line_start 45 220; string_bytes "ready"; string_bytes crlf ++ mjoin (line_pieces 32 220 "log in")].
Definition sample_line (c : Z) (l : string) : input := [mjoin (reply_pieces c [] l)].
Definition USER_request : FTP_Request inet_addr := MkFtpRequest inet_any FTP_COMMAND_USER true ["me"].
Definition sample_session : list (environment inet_addr * (event inet_addr + input)) :=
  (λ e, (working, e)) <$>
    [inr sample_greeting; inl (Request USER_request); inr (sample_line 331 "who?"); inr (sample_line 230 "hello");
     inl (Request PASV_request); inl (Queue (retrieve "a")); inr (sample_line 227 pasv_line);
     inr (sample_line 150 ""); inr (sample_line 226 "done")].
Lemma sample_greeting_holds : holds sample_greeting (Reply 220 ["ready"; "log in"]).
Proof.
  exists 220, ["ready"], "log in". split_and!; [done|lia|lia|by repeat constructor|done|].
  set (ps := string_bytes crlf :: line_pieces 32 220 "log in").
  assert (reply_pieces 220 ["ready"] "log in" = [line_start 45 220] ++ string_bytes "ready" :: ps) as -> by (by vm_compute).
  assert (sample_greeting = [mjoin [line_start 45 220]; string_bytes "ready"; mjoin ps]) as -> by (by vm_compute).
  apply uncut_fragment.
  apply (uncut_fragment [string_bytes "ready"] ps [] [mjoin ps]), (uncut_whole ps []).
Qed.
Lemma sample_line_holds c l :
  100 <= c < 1000 → plain_text l = true → holds (sample_line c l) (record_of c [] l).
Proof.
  intros Hc Hl. exists c, [], l. split_and!; [done|lia|lia|by constructor|done|].
  pose proof (uncut_whole (reply_pieces c [] l) []) as Hu. by rewrite app_nil_r in Hu.
Qed.
Lemma pasv_line_announced : announces pasv_line (inet4 127 0 0 1 5001).
Proof.
  exists "227 Entering Passive Mode ", "127,0,0,1,19,137", "", 127, 0, 0, 1, 5001.
  split_and!; [done..|by vm_compute|exact octets_localhost|lia|lia|done|done].
Qed.

Lemma ftp_session_received_witness :
  ∃ c' s', receive sample_session connected (MkScanner INITIAL None 0) =
      Ok (Some (c', s', [SendRequest 3 USER_request; SendRequest 3 (PASS_request connected); SendRequest 3 PASV_request;
        ConnectTo (inet4 127 0 0 1 5001); SetDataState 7 FTP_STATE_DATA_DATA; SendRequest 3 (retrieve "a")])) ∧
    queue_ c' = [] ∧ cond s' = INITIAL.
Proof.
  apply (ftp_session_received working USER_request (Reply 220 ["ready"; "log in"]) (Reply 331 ["who?"]) (Reply 230 ["hello"])
    [(one_transfer, [Reply 150 []; Reply 226 ["done"]])] sample_session connected (MkScanner INITIAL None 0));
    [done|done|done|done| |done..|].
  - apply Forall_singleton. split; [apply pasv_line_announced|]. split_and!; try done. by repeat (apply Forall_cons; split; [done|]).
  - cbn [app mbind list_bind fst snd login_events transfer_events responses passive_events fmap list_fmap sample_session].
    repeat (apply Forall2_cons; split); [..|by constructor]; (split; [reflexivity|]); cbn [snd];
      try reflexivity; (eexists; split; [reflexivity|]);
      [exact sample_greeting_holds|by apply sample_line_holds..].
Defined.

(** ** Replies that are not read *)
Definition parsed_text (ts : list string) : outcome (option (Z * list string)) :=
  p ← parse (MkScanner INITIAL None 0) (string_bytes <$> ts);
  Ok match p with Parsed r _ _ => Some (reply_code r, reply_text r) | _ => None end.
(** a line without a code, between the first and the last one (RFC 959, 4.2) *)
Example plain_line_aborts :
  parsed_text ["211-status" +:+ crlf +:+ " idle" +:+ crlf +:+ "211 end" +:+ crlf] = Abort.
Proof. by vm_compute. Qed.
(** a code, and nothing else *)
Example bare_code_aborts : parsed_text ["220" +:+ crlf] = Abort.
Proof. by vm_compute. Qed.
(** a line break in two fragments *)
Example cut_break_aborts : parsed_text ["220 hello" +:+ String "013" ""; String "010" ""] = Abort.
Proof. by vm_compute. Qed.
(** a text in two fragments: the last line is read as two, of another one the beginning is lost *)
Example cut_text_split : parsed_text ["220 hel"; "lo" +:+ crlf] = Ok (Some (220, ["hel"; "lo"])).
Proof. by vm_compute. Qed.
Example cut_text_lost :
  parsed_text ["220-hel"; "lo" +:+ crlf +:+ "220 x" +:+ crlf] = Ok (Some (220, ["lo"; "x"])).
Proof. by vm_compute. Qed.
