(* ===== verification/FtpData.v ===== *)
(** * The data connections of FTP (protocol/ftp: scripts/scanner_data.l, scripts/parser_data.y,
    ftp_parser_data_driver.inl, ftp_module_parser_data.inl)

    The scanner and the parser of what a server sends on a data connection, and the module around
    them, which passes on the lines of a listing, or the data of a file, as they are received.
    What kind of data it is, [FtpControl] has set.  The driver blocks; messages can be
    allocated. *)
From S2P Require Import Prelude Chars Lex Fragments Replies FtpTools.

Inductive condition := INITIAL | list_directory | list_file | data_.
(** the condition, [yylval->sval] and the offset of the driver *)
Record scanner := MkScanner { cond : condition; sval : option string; offset_ : Z }.
Inductive token := LIST_DIRECTORY (sval : string) | LIST_FILE (sval : string) | RAW_DATA.
Notation scanned := (scanned scanner token).

(** ** The rules *)
Inductive action := Look | DirectoryEnd | DirectoryText | FileEnd | FileText | Octet.
Definition rules (c : condition) : list (re * action) :=
  match c with
  | INITIAL => [(OCTET, Look)]
  | list_directory => [(CRLF, DirectoryEnd); (Many1 OCTET_NO_CRLF, DirectoryText)]
  | list_file => [(CRLF, FileEnd); (Many1 OCTET_NO_CRLF, FileText)]
  | data_ => [(OCTET, Octet)]
  end.

Definition begin_ (c : condition) (s : scanner) : scanner := MkScanner c (sval s) (offset_ s).
Definition set_sval (v : string) (s : scanner) : scanner := MkScanner (cond s) (Some v) (offset_ s).
Definition add_offset (n : Z) (s : scanner) : scanner := MkScanner (cond s) (sval s) (offset_ s +u n).
(** [yylval->sval], a string that has been allocated *)
Definition value (s : scanner) : outcome string := match sval s with Some v => Ok v | None => Undef end.

Section Data.
(** [state ()] of the driver, and the octets that have been received *)
Context (state_ : FTP_ProtocolDataState) (total : Z).
(** [headFragment_->total_length ()]: without the fragments that are still to be taken *)
Definition availableBytes (i : input) : Z := total - zlen (mjoin i).

(** the kind of data decides how it is read *)
Definition look (s : scanner) : outcome scanner :=
  match state_ with
  | FTP_STATE_DATA_LIST_DIRECTORY => Ok (begin_ list_directory (set_sval "" s))
  | FTP_STATE_DATA_LIST_FILE => Ok (begin_ list_file (set_sval "" s))
  | FTP_STATE_DATA_DATA => Ok (begin_ data_ s)
  | _ => Abort
  end.
Definition perform (a : action) (s : scanner) (yytext bs : list Z) (i : input) : outcome scanned :=
  let t := bytes_string (c_string yytext) in
  match a with
  | Look => s ← look s; Ok (Matched s ((yytext ++ bs) :: i))
  | DirectoryEnd => v ← value s; Ok (Token (LIST_DIRECTORY v) (begin_ INITIAL (add_offset 2 s)) (bs :: i))
  | FileEnd => v ← value s; Ok (Token (LIST_FILE v) (begin_ INITIAL (add_offset 2 s)) (bs :: i))
  | DirectoryText | FileText =>
      v ← value s; Ok (Matched (set_sval (v +:+ t) (add_offset (zlen yytext) s)) (bs :: i))
  | Octet =>
      let s := add_offset 1 s in
      Ok (if offset_ s =? availableBytes i then Token RAW_DATA (begin_ INITIAL s) (bs :: i) else Matched s (bs :: i))
  end.
Definition rule (s : scanner) (bs : list Z) (i : input) : option (outcome scanned) :=
  '(n, a) ← pick (rules (cond s)) bs; Some (perform a s (take n bs) (drop n bs) i).
Definition any_octet (s : scanner) (bs : list Z) (i : input) : outcome scanned := Abort.
Definition lex (fuel : nat) (s : scanner) (i : input) : outcome scanned :=
  scan rule (λ _, false) id any_octet fuel s i.
Definition yylex (s : scanner) (i : input) : outcome scanned := lex (scan_fuel i) s i.

(** ** The grammar, and the module *)
Inductive RecordType := FTP_RECORD_DIRECTORY | FTP_RECORD_FILE | FTP_RECORD_DATA.
Context {E : Type} (parseFileEntry : string → option E).
(** what is pushed downstream: a record, and the fragments of its message *)
Record message := Message { type : RecordType; entries : list E; fragments : list (list Z) }.
(** [directory ()] and [file ()]: a line that is no entry is pushed as a record without one *)
Definition entry (k : RecordType) (line : string) : message := Message k (option_list (parseFileEntry line)) [].
Definition push_data (fs : list (list Z)) : message := Message FTP_RECORD_DATA [] fs.

(** the records of the lines, and what is left when data of another kind has been read; [None]:
    the parser waits *)
Fixpoint items (fuel : nat) (s : scanner) (i : input) : outcome (list message * option input) :=
  match fuel with
  | O => Ok ([], None)
  | S fuel' =>
      m ← yylex s i;
      match m with
      | Token (LIST_DIRECTORY t) s i => '(ms, r) ← items fuel' s i; Ok (entry FTP_RECORD_DIRECTORY t :: ms, r)
      | Token (LIST_FILE t) s i => '(ms, r) ← items fuel' s i; Ok (entry FTP_RECORD_FILE t :: ms, r)
      | Token RAW_DATA s i => Ok ([], Some i)
      | _ => Ok ([], None)
      end
  end.
(** every line takes its line break *)
Definition items_fuel (i : input) : nat := S (length (mjoin i)).
Definition parse (s : scanner) (i : input) : outcome (list message * option input) :=
  items (items_fuel i) (MkScanner (cond s) None 0) i.
End Data.
Arguments Message {E}.
Arguments type {E}.
Arguments entries {E}.
Arguments fragments {E}.

Definition scanner_init : scanner := MkScanner INITIAL None 0.
(** [svc ()], of the fragments that are received on a connection: [data ()] pushes the fragments
    that have been read, and what follows is forwarded *)
Definition svc {E} (parseFileEntry : string → option E) (state_ : FTP_ProtocolDataState) (i : input) :
    outcome (list (message (E:=E))) :=
  '(ms, r) ← parse state_ (zlen (mjoin i)) parseFileEntry scanner_init i;
  Ok (ms ++ match r with
            | Some i' => push_data (take (length i - length (tail i')) i) :: ((λ f, push_data [f]) <$> tail i')
            | None => []
            end).

(** ** Listings *)

(** no fragment ends between the two characters of a line break *)
Definition whole (i : input) : Prop := Forall (λ b, last b ≠ Some 13) i.
Lemma whole_suffix u f i : whole ((u ++ f) :: i) → f ≠ [] → whole (f :: i).
Proof.
  intros [H Hi]%Forall_cons_1 Hf. apply Forall_cons. split; [|done]. rewrite last_app in H.
  by destruct f as [|x f] using rev_ind; [|rewrite last_snoc in *].
Qed.
Lemma whole_nothing i : whole i → whole ([] :: i).
Proof. intros Hi. by apply Forall_cons. Qed.

Section Listings.
Context (st : FTP_ProtocolDataState) (Hst : st = FTP_STATE_DATA_LIST_DIRECTORY ∨ st = FTP_STATE_DATA_LIST_FILE) (total : Z).
Definition in_list : condition :=
  if decide (st = FTP_STATE_DATA_LIST_DIRECTORY) then list_directory else list_file.
Definition list_token (t : string) : token :=
  if decide (st = FTP_STATE_DATA_LIST_DIRECTORY) then LIST_DIRECTORY t else LIST_FILE t.
Notation lex := (lex st total).
Notation rule := (rule st total).

Lemma data_ruled s p q i a :
  pick (rules (cond s)) (p ++ q) = Some (length p, a) → rule s (p ++ q) i = Some (perform st total a s p q i).
Proof. intros Hp. unfold rule. rewrite Hp. cbn [mbind option_bind]. by rewrite take_app_length, drop_app_length. Qed.
Lemma line_end_ruled s v f j :
  cond s = in_list → sval s = Some v →
  rule s (string_bytes crlf ++ f) j = Some (Ok (Token (list_token v) (begin_ INITIAL (add_offset 2 s)) (f :: j))).
Proof.
  intros Hs Hv. unfold in_list, list_token in *.
  destruct (decide (st = FTP_STATE_DATA_LIST_DIRECTORY)).
  - rewrite (data_ruled _ _ _ _ DirectoryEnd) by (rewrite Hs; apply crlf_picked). unfold perform, value. by rewrite Hv.
  - rewrite (data_ruled _ _ _ _ FileEnd) by (rewrite Hs; apply crlf_picked). unfold perform, value. by rewrite Hv.
Qed.
Lemma line_text_ruled s v t f j :
  cond s = in_list → sval s = Some v → t ≠ "" → plain_text t = true →
  match f with [] => True | y :: _ => no_crlf y = false end →
  ∃ o, rule s (string_bytes t ++ f) j = Some (Ok (Matched (MkScanner in_list (Some (v +:+ t)) o) (f :: j))).
Proof.
  intros Hs Hv Ht Hp Hf. destruct (text_octets t Hp) as [Hu Hc]. exists (offset_ s +u zlen (string_bytes t)).
  assert (∀ {A} (a b : A), pick [(CRLF, a); (Many1 OCTET_NO_CRLF, b)] (string_bytes t ++ f) = Some (length (string_bytes t), b)) as Hr.
  { intros. apply run_picked; [by destruct t|done..]. }
  unfold in_list in *. destruct (decide (st = FTP_STATE_DATA_LIST_DIRECTORY)).
  - rewrite (data_ruled _ _ _ _ DirectoryText) by (rewrite Hs; apply Hr). unfold perform, value.
    rewrite Hv, Hc, bytes_string_bytes. unfold set_sval, add_offset. by rewrite Hs.
  - rewrite (data_ruled _ _ _ _ FileText) by (rewrite Hs; apply Hr). unfold perform, value.
    rewrite Hv, Hc, bytes_string_bytes. unfold set_sval, add_offset. by rewrite Hs.
Qed.
Lemma list_looked s x f j :
  cond s = INITIAL →
  ∃ o, rule s (x :: f) j = Some (Ok (Matched (MkScanner in_list (Some "") o) ((x :: f) :: j))).
Proof.
  intros Hs. exists (offset_ s). change (x :: f) with ([x] ++ f). rewrite (data_ruled s [x] f j Look) by (rewrite Hs; cbn [rules pick app]; by rewrite octet_longest).
  unfold perform, look, in_list. by destruct Hst as [-> | ->].
Qed.

(** a text that is cut *)
Lemma string_bytes_split l : ∀ a b, string_bytes l = a ++ b →
  ∃ l1 l2, l = l1 +:+ l2 ∧ string_bytes l1 = a ∧ string_bytes l2 = b.
Proof.
  induction l as [|c l IH]; intros a b E.
  - apply eq_sym, app_eq_nil in E as [-> ->]. by exists "", "".
  - change (string_bytes (String c l)) with (code c :: string_bytes l) in E. destruct a as [|x a]; cbn [app] in E.
    + exists "", (String c l). by rewrite <- E.
    + injection E as <- E. destruct (IH a b E) as (l1 & l2 & -> & <- & <-). by exists (String c l1), l2.
Qed.
(** the rest of a line, however it is cut *)
Lemma list_line_lexed n : ∀ i s v l rest,
  cond s = in_list → sval s = Some v → plain_text l = true → whole i →
  mjoin i = string_bytes l ++ string_bytes crlf ++ rest → (size i <= n)%nat →
  ∃ s' i', lex n s i = Ok (Token (list_token (v +:+ l)) s' i') ∧ cond s' = INITIAL ∧ mjoin i' = rest ∧ whole i'.
Proof.
  induction n as [|n IH]; intros i s v l rest Hs Hv Hl Hw Hi Hn.
  { destruct i as [|b i]; [by destruct l|cbn in Hn; lia]. }
  destruct i as [|[|x b] i]; [by destruct l| |].
  - destruct i as [|b i]; [by destruct l|]. unfold FtpData.lex. cbn [scan id]. fold (lex n s (b :: i)).
    apply Forall_cons_1 in Hw as [_ Hw]. rewrite size_next in Hn. apply (IH _ s v l rest); try done. lia.
  - change (mjoin ((x :: b) :: i)) with ((x :: b) ++ mjoin i) in Hi. set (c := x :: b) in *.
    assert (c ≠ []) as Hc by done. clearbody c. clear x b.
    apply app_eq_inv in Hi as [(m & -> & Em)|(m & Em & Ei)].
    + destruct (decide (l = "")) as [->|Hne].
      * (* the line break *)
        rewrite string_app_nil_r. change (string_bytes "") with ([] : list Z) in *. cbn [app] in *.
        change (string_bytes crlf) with [13; 10] in Em. destruct m as [|x [|y m]]; [done| |].
        { apply Forall_cons_1 in Hw as [Hw _]. injection Em as <- _. by destruct Hw. }
        injection Em as <- <- Em. exists (begin_ INITIAL (add_offset 2 s)), (m :: i). split_and!; [|done|by rewrite Em|].
        -- unfold FtpData.lex. erewrite scan_step; [|done|by apply (line_end_ruled s v m i)]. done.
        -- destruct (decide (m = [])) as [->|Hm]; [apply whole_nothing; by apply Forall_cons_1 in Hw as [_ Hw]|].
           by apply (whole_suffix [13; 10] m i).
      * destruct (line_text_ruled s v l m i Hs Hv Hne Hl) as [o Hr].
        { destruct m as [|y m]; [done|]. by injection Em as <- _. }
        unfold FtpData.lex. erewrite scan_step; [|done|exact Hr]. cbv beta iota.
        rewrite size_text in Hn. assert (length (string_bytes l) ≠ 0)%nat by (by destruct l).
        destruct (IH (m :: i) (MkScanner in_list (Some (v +:+ l)) o) (v +:+ l) "" rest) as (s' & i' & E & H1 & H2 & H3); try done.
        -- destruct (decide (m = [])) as [->|Hm]; [apply whole_nothing; by apply Forall_cons_1 in Hw as [_ Hw]|].
           by apply (whole_suffix (string_bytes l) m i).
        -- lia.
        -- rewrite string_app_nil_r in E. by exists s', i'.
    + apply string_bytes_split in Em as (l1 & l2 & -> & <- & <-).
      assert (l1 ≠ "") as Hne by (by destruct l1).
      unfold plain_text in Hl. rewrite string_all_app in Hl. apply andb_true_iff in Hl as [Hl1 Hl2].
      destruct (line_text_ruled s v l1 [] i Hs Hv Hne Hl1 I) as [o Hr]. rewrite app_nil_r in Hr.
      unfold FtpData.lex. erewrite scan_step; [|done|exact Hr]. cbv beta iota.
      pose proof (size_text (string_bytes l1) [] i) as Hz. rewrite app_nil_r in Hz. rewrite Hz in Hn.
      assert (length (string_bytes l1) ≠ 0)%nat by (by destruct l1).
      destruct (IH ([] :: i) (MkScanner in_list (Some (v +:+ l1)) o) (v +:+ l1) l2 rest) as (s' & i' & E & H1 & H2 & H3); try done.
      * apply whole_nothing. by apply Forall_cons_1 in Hw as [_ Hw].
      * lia.
      * rewrite string_app_assoc in E. by exists s', i'.
Qed.

(** what is in front of the next octet *)
Lemma buffer_begun x u n : ∀ i s,
  mjoin i = x :: u → whole i → (size i <= n)%nat →
  ∃ b j n', lex n s i = lex n' s ((x :: b) :: j) ∧ (x :: b) ++ mjoin j = x :: u ∧ whole ((x :: b) :: j) ∧
    (size ((x :: b) :: j) + n <= n' + size i)%nat.
Proof.
  induction n as [|n IH]; intros i s Hi Hw Hn; [destruct i as [|b i]; [done|cbn in Hn; lia]|].
  destruct i as [|[|y b] i]; [done| |].
  - destruct i as [|b i]; [done|]. rewrite size_next in Hn. apply Forall_cons_1 in Hw as [_ Hw].
    destruct (IH (b :: i) s Hi Hw ltac:(lia)) as (b' & j & n' & E & Hj & Hw' & Hn'). exists b', j, n'.
    split_and!; [|done..|rewrite size_next; lia]. unfold FtpData.lex in *. cbn [scan id]. exact E.
  - injection Hi as -> Hi. exists b, i, (S n). split_and!; [done| |done|lia]. cbn. by rewrite <- Hi.
Qed.
Lemma entry_lexed i s l rest n :
  cond s = INITIAL → plain_text l = true → whole i →
  mjoin i = string_bytes l ++ string_bytes crlf ++ rest → (S (size i) <= n)%nat →
  ∃ s' i', lex n s i = Ok (Token (list_token l) s' i') ∧ cond s' = INITIAL ∧ mjoin i' = rest ∧ whole i'.
Proof.
  intros Hs Hl Hw Hi Hn.
  assert (∃ x u, string_bytes l ++ string_bytes crlf ++ rest = x :: u) as (x & u & E) by (destruct l; by eexists _, _).
  rewrite E in Hi. destruct (buffer_begun x u n i s Hi Hw ltac:(lia)) as (b & j & n' & -> & Hj & Hw' & Hn').
  destruct n' as [|n']; [lia|]. destruct (list_looked s x b j Hs) as [o Hr].
  unfold FtpData.lex. erewrite scan_step; [|done|exact Hr]. cbv beta iota.
  destruct (list_line_lexed n' ((x :: b) :: j) (MkScanner in_list (Some "") o) "" l rest) as (s' & i' & E' & H');
    [done|done|done|done|by rewrite E, <- Hj|lia|]. rewrite append_nil in E'. by exists s', i'.
Qed.
(** a line that has not ended *)
Lemma list_text_waits n : ∀ i s v p,
  cond s = in_list → sval s = Some v → plain_text p = true → mjoin i = string_bytes p → lex n s i = Ok Waits.
Proof.
  induction n as [|n IH]; intros i s v p Hs Hv Hp Hi; [done|]. destruct i as [|[|x b] i]; [done| |].
  - destruct i as [|b i]; [done|]. by apply (IH (b :: i) s v p).
  - change (mjoin ((x :: b) :: i)) with ((x :: b) ++ mjoin i) in Hi. symmetry in Hi.
    apply string_bytes_split in Hi as (l1 & l2 & -> & E1 & E2).
    unfold plain_text in Hp. rewrite string_all_app in Hp. apply andb_true_iff in Hp as [Hl1 Hl2].
    destruct (line_text_ruled s v l1 [] i Hs Hv ltac:(by destruct l1) Hl1 I) as [o Hr]. rewrite app_nil_r, E1 in Hr.
    unfold FtpData.lex. erewrite scan_step; [|done|exact Hr]. cbv beta iota.
    by apply (IH ([] :: i) (MkScanner in_list (Some (v +:+ l1)) o) (v +:+ l1) l2).
Qed.
Lemma text_waits n i s p :
  cond s = INITIAL → plain_text p = true → mjoin i = string_bytes p → lex n s i = Ok Waits.
Proof.
  intros Hs Hp. revert i. induction n as [|n IH]; intros i Hi; [done|]. destruct i as [|[|x b] i]; [done| |].
  - destruct i as [|b i]; [done|]. by apply IH.
  - destruct (list_looked s x b i Hs) as [o Hr]. unfold FtpData.lex. erewrite scan_step; [|done|exact Hr].
    by apply (list_text_waits n _ _ "" p).
Qed.

Context {E : Type} (parseFileEntry : string → option E).
Definition list_type : RecordType :=
  if decide (st = FTP_STATE_DATA_LIST_DIRECTORY) then FTP_RECORD_DIRECTORY else FTP_RECORD_FILE.
Lemma listing_items p ls : ∀ fuel i s,
  cond s = INITIAL → Forall (λ l, plain_text l = true) ls → plain_text p = true → whole i →
  mjoin i = mjoin ((λ l, string_bytes l ++ string_bytes crlf) <$> ls) ++ string_bytes p → (length ls <= fuel)%nat →
  items st total parseFileEntry (S fuel) s i = Ok (entry parseFileEntry list_type <$> ls, None).
Proof.
  induction ls as [|l ls IH]; intros fuel i s Hs Hls Hp Hw Hi Hf; cbn [items].
  - unfold yylex. by rewrite (text_waits _ i s p).
  - apply Forall_cons_1 in Hls as [Hl Hls].
    change (mjoin ((λ l, string_bytes l ++ string_bytes crlf) <$> l :: ls))
      with ((string_bytes l ++ string_bytes crlf) ++ mjoin ((λ l, string_bytes l ++ string_bytes crlf) <$> ls)) in Hi.
    rewrite <- !(assoc_L (++)) in Hi. destruct fuel as [|fuel]; [cbn in Hf; lia|].
    destruct (entry_lexed i s l _ (scan_fuel i) Hs Hl Hw Hi) as (s' & i' & E1 & Hs' & Hi' & Hw');
      [pose proof (scan_fuel_enough i); lia|].
    unfold yylex. rewrite E1. pose proof (IH fuel i' s' Hs' Hls Hp Hw' Hi' ltac:(cbn in Hf; lia)) as Hr.
    unfold list_token, list_type in *. destruct (decide (st = FTP_STATE_DATA_LIST_DIRECTORY));
      cbn [mbind outcome_bind]; rewrite Hr; done.
Qed.
End Listings.

(** C27: FTP_Module_Parser_Data_T::svc and FTP_ParserDataDriver_T::parse, a listing: whatever
    fragments it is received in, if none of them ends between the two characters of a line break,
    each line that has ended is passed on once, in order, as the entry that it stands for (a line
    that is none, as a record without one); what has been received of another line waits for the
    rest of it *)
Theorem listing_received {E} (parseFileEntry : string → option E) st ls p i :
  st = FTP_STATE_DATA_LIST_DIRECTORY ∨ st = FTP_STATE_DATA_LIST_FILE →
  Forall (λ l, plain_text l = true) ls → plain_text p = true → whole i →
  mjoin i = mjoin ((λ l, string_bytes l ++ string_bytes crlf) <$> ls) ++ string_bytes p →
  svc parseFileEntry st i = Ok (entry parseFileEntry (list_type st) <$> ls).
Proof.
  intros Hst Hls Hp Hw Hi. unfold svc, parse, items_fuel. rewrite (listing_items st Hst _ _ p ls); try done.
  - cbn [mbind outcome_bind]. by rewrite app_nil_r.
  - rewrite Hi, length_app. assert (length ls <= length (mjoin ((λ l, string_bytes l ++ string_bytes crlf) <$> ls)))%nat; [|lia].
    clear. induction ls as [|l ls IH]; [done|].
    change (mjoin ((λ l, string_bytes l ++ string_bytes crlf) <$> l :: ls))
      with ((string_bytes l ++ string_bytes crlf) ++ mjoin ((λ l, string_bytes l ++ string_bytes crlf) <$> ls)).
    rewrite !length_app. change (length (string_bytes crlf)) with 2%nat. cbn [length]. lia.
Qed.

(** ** Files *)
Section Files.
Context (total : Z).
Notation lex := (lex FTP_STATE_DATA_DATA total).
(** the octets of the fragment that completes what has been received *)
Lemma octets_lexed b : ∀ n s j,
  b ≠ [] → cond s = data_ → 0 <= offset_ s → offset_ s + zlen b = availableBytes total j →
  availableBytes total j < 2 ^ 32 → (size (b :: j) <= n)%nat →
  ∃ s', lex n s (b :: j) = Ok (Token RAW_DATA s' ([] :: j)).
Proof.
  induction b as [|x b IH]; intros n s j Hb Hs H0 Ho Ha Hn; [done|].
  change (x :: b) with ([x] ++ b) in Hn. rewrite size_text in Hn. cbn [length] in Hn.
  destruct n as [|n]; [lia|].
  assert (rule FTP_STATE_DATA_DATA total s (x :: b) j = Some (perform FTP_STATE_DATA_DATA total Octet s [x] b j)) as Hr.
  { change (x :: b) with ([x] ++ b). apply data_ruled. rewrite Hs. cbn [rules pick app]. by rewrite octet_longest. }
  unfold zlen in Ho. cbn [length] in Ho. rewrite Nat2Z.inj_succ in Ho.
  assert (offset_ (add_offset 1 s) = offset_ s + 1) as E.
  { unfold add_offset. cbn [offset_]. apply Z.mod_small. lia. }
  unfold perform in Hr. cbv zeta in Hr. rewrite E in Hr. unfold FtpData.lex.
  erewrite scan_step; [|done|exact Hr]. destruct b as [|y b].
  - rewrite (proj2 (Z.eqb_eq (offset_ s + 1) _)) by (cbn [length] in Ho; lia). by eexists.
  - rewrite (proj2 (Z.eqb_neq (offset_ s + 1) _)) by (cbn [length] in Ho; lia).
    apply (IH n (add_offset 1 s) j); try done; [lia|rewrite E; unfold zlen; lia|lia].
Qed.
(** the first fragment with data, behind those without *)
Lemma file_lexed es : ∀ n b j,
  b ≠ [] → Forall (λ f, f = []) es → total = zlen b + zlen (mjoin j) → zlen b < 2 ^ 32 →
  (S (size (es ++ b :: j)) <= n)%nat →
  ∃ s', lex n scanner_init (es ++ b :: j) = Ok (Token RAW_DATA s' ([] :: j)).
Proof.
  induction es as [|f es IH]; intros n b j Hb Hes Ht Hl Hn.
  - cbn [app] in *. destruct n as [|n]; [lia|]. destruct b as [|x b]; [done|].
    unfold FtpData.lex. erewrite scan_step; [|done|].
    2: { unfold rule. cbn [cond rules pick scanner_init]. rewrite octet_longest. cbn [mbind option_bind take drop].
         rewrite drop_0. reflexivity. }
    apply octets_lexed; try done; unfold availableBytes; cbn [offset_ begin_ scanner_init app]; rewrite ?take_0; cbn [app]; lia.
  - apply Forall_cons_1 in Hes as [-> Hes]. cbn [app] in *. rewrite size_next in Hn. destruct n as [|n]; [lia|].
    destruct (IH n b j Hb Hes Ht Hl ltac:(lia)) as [s' E]. exists s'. rewrite <- E. unfold FtpData.lex.
    by destruct es.
Qed.
End Files.

Lemma first_data (i : input) : mjoin i ≠ [] → ∃ es b j, i = es ++ b :: j ∧ Forall (λ f, f = []) es ∧ b ≠ [].
Proof.
  induction i as [|[|x b] i IH]; intros Hi; [done| |by exists [], (x :: b), i].
  destruct (IH Hi) as (es & b & j & -> & Hes & Hb). exists ([] :: es), b, j. split_and!; [done|by constructor|done].
Qed.
Lemma mjoin_nothing (es : list (list Z)) : Forall (λ f, f = []) es → mjoin es = [].
Proof. induction 1 as [|f es -> _ IH]; [done|exact IH]. Qed.

(** FTP_Module_Parser_Data_T::svc, a file: the messages that are passed on have its octets, all of
    them and in order, whatever fragments they are received in *)
Theorem file_received {E} (parseFileEntry : string → option E) i :
  Forall (λ b, zlen b < 2 ^ 32) i →
  ∃ ms, svc parseFileEntry FTP_STATE_DATA_DATA i = Ok ms ∧
    Forall (λ m, type m = FTP_RECORD_DATA ∧ entries m = []) ms ∧
    mjoin (mjoin (fragments <$> ms)) = mjoin i.
Proof.
  intros Hi. unfold svc, parse, items_fuel. cbn [items].
  destruct (decide (mjoin i = [])) as [E0|Hne].
  - exists []. unfold yylex, lex. rewrite scan_nothing by done. by rewrite E0.
  - destruct (first_data i Hne) as (es & b & j & -> & Hes & Hb).
    assert (zlen b < 2 ^ 32) as Hl by (apply Forall_app in Hi as [_ Hi]; by apply Forall_cons_1 in Hi as [Hi _]).
    destruct (file_lexed (zlen (mjoin (es ++ b :: j))) es (scan_fuel (es ++ b :: j)) b j Hb Hes) as [s' E1]; [|done| |].
    + rewrite join_app, mjoin_nothing by done. cbn [app]. change (mjoin (b :: j)) with (b ++ mjoin j).
      unfold zlen. rewrite length_app. lia.
    + pose proof (scan_fuel_enough (es ++ b :: j)). lia.
    + unfold yylex. change (MkScanner (cond scanner_init) None 0) with scanner_init. rewrite E1. cbn [mbind outcome_bind app tail]. eexists. split; [done|].
      replace (length (es ++ b :: j) - length j)%nat with (length (es ++ [b]))
        by (rewrite !length_app; cbn [length]; lia).
      rewrite (cons_middle b es j), (assoc_L (++)), take_app_length. split.
      * apply Forall_cons. split; [done|]. apply Forall_fmap, Forall_true. done.
      * cbn [fmap list_fmap]. change (mjoin (fragments (push_data (es ++ [b])) :: ?l)) with ((es ++ [b]) ++ mjoin l).
        rewrite <- list_fmap_compose. f_equal. f_equal. clear. induction j as [|f j IH]; [done|]. cbn. f_equal. exact IH.
Qed.

(** ** Concrete data *)
Definition octets_of (ts : list string) : input := string_bytes <$> ts.
Definition cut_listing : input := octets_of ["-rw a"; "" ; "bc" +:+ crlf +:+ "drwx"; " d" +:+ crlf +:+ "-r"].
Lemma listing_received_witness :
  svc (λ l, Some l) FTP_STATE_DATA_LIST_FILE cut_listing =
    Ok [Message FTP_RECORD_FILE ["-rw abc"] []; Message FTP_RECORD_FILE ["drwx d"] []].
Proof.
  apply (listing_received (λ l, Some l) FTP_STATE_DATA_LIST_FILE ["-rw abc"; "drwx d"] "-r" cut_listing);
    [by right|by repeat (apply Forall_cons; split; [done|])|done| |by vm_compute].
  unfold whole, cut_listing, octets_of. cbn [fmap list_fmap]. by repeat (apply Forall_cons; split; [by vm_compute|]).
Defined.
Lemma file_received_witness :
  ∃ ms, svc (λ l, Some l) FTP_STATE_DATA_DATA [[]; [1; 2]; [3]] = Ok ms ∧
    Forall (λ m, type m = FTP_RECORD_DATA ∧ entries m = []) ms ∧ mjoin (mjoin (fragments <$> ms)) = [1; 2; 3].
Proof.
  apply (file_received (λ l, Some l) [[]; [1; 2]; [3]]). by repeat (apply Forall_cons; split; [by vm_compute|]).
Defined.
(** a line break that is cut, and one without a carriage return *)
Example cut_line_break_aborts :
  svc (λ l, Some l) FTP_STATE_DATA_LIST_FILE (octets_of ["a" +:+ String "013" ""; String "010" ""]) = Abort.
Proof. by vm_compute. Qed.
Example bare_newline_aborts :
  svc (λ l, Some l) FTP_STATE_DATA_LIST_DIRECTORY (octets_of ["a" +:+ String "010" "b"]) = Abort.
Proof. by vm_compute. Qed.
