(* ===== verification/PcpTools.v ===== *)
(** * The records of PCP (protocol/pcp: pcp_codes.h, pcp_common.h, pcp_tools.cpp,
      pcp_tools.h, pcp_defines.h)

    The messages of the port control protocol (RFC 6887, RFC 7652), their printed form,
    and the functions on the memory they refer to.  A record refers to addresses and to
    arrays of bytes by pointers: [P] is what a pointer to an address is, and [D] what one
    to an array is; [None] is [NULL]. *)
From S2P Require Import Prelude Chars Decimal ByteOrder InetAddr AddressTools.

(** ** Codes *)
Definition PCP_VERSION_2 : Z := 2.

Definition PCP_OPCODE_ANNOUNCE : Z := 0.
Definition PCP_OPCODE_MAP : Z := 1.
Definition PCP_OPCODE_PEER : Z := 2.
Definition PCP_OPCODE_AUTHENTICATION : Z := 3.

Definition PCP_RESULTCODE_INITIATION : Z := 14.
Definition PCP_RESULTCODE_INVALID : Z := 257.

Definition PCP_OPTION_THIRD_PARTY : Z := 1.
Definition PCP_OPTION_PREFER_FAILURE : Z := 2.
Definition PCP_OPTION_FILTER : Z := 3.
Definition PCP_OPTION_NONCE : Z := 4.
Definition PCP_OPTION_AUTHENTICATION_TAG : Z := 5.
Definition PCP_OPTION_PA_AUTHENTICATION_TAG : Z := 6.
Definition PCP_OPTION_EAP_PAYLOAD : Z := 7.
Definition PCP_OPTION_PSEUDO_RANDOM_FUNCTION : Z := 8.
Definition PCP_OPTION_MAC_ALGORITHM : Z := 9.
Definition PCP_OPTION_SESSION_LIFETIME : Z := 10.
Definition PCP_OPTION_RECEIVED_PAK : Z := 11.
Definition PCP_OPTION_ID_INDICATOR : Z := 12.

Definition PCP_MESSAGE_SIZE : Z := 1100.
Definition PCP_DEFAULT_MAP_LIFETIME_S : Z := 3600.

Definition VersionToString (version_in : Z) : string :=
  switch version_in [(PCP_VERSION_2, "VERSION_2")] "INVALID/UNKNOWN".

Definition OpcodeToString (opcode_in : Z) : string :=
  switch opcode_in
    [(PCP_OPCODE_ANNOUNCE, "ANNOUNCE"); (PCP_OPCODE_MAP, "MAP"); (PCP_OPCODE_PEER, "PEER");
     (PCP_OPCODE_AUTHENTICATION, "AUTHENTICATION")]
    "INVALID/UNKNOWN".

Definition ResultCodeToString (resultCode_in : Z) : string :=
  switch resultCode_in
    [(0, "SUCCESS"); (1, "UNSUPP_VERSION"); (2, "NOT_AUTHORIZED"); (3, "MALFORMED_REQUEST");
     (4, "UNSUPP_OPCODE"); (5, "UNSUPP_OPTION"); (6, "MALFORMED_OPTION");
     (7, "NETWORK_FAILURE"); (8, "NO_RESOURCES"); (9, "UNSUPP_PROTOCOL");
     (10, "USER_EX_QUOTA"); (11, "CANNOT_PROVIDE_EXTERNAL"); (12, "ADDRESS_MISMATCH");
     (13, "EXCESSIVE_REMOTE_PEERS"); (14, "INITIATION"); (15, "AUTHENTICATION_REQUIRED");
     (16, "AUTHENTICATION_FAILED"); (17, "AUTHENTICATION_SUCCEEDED");
     (18, "AUTHORIZATION_FAILED"); (19, "SESSION_TERMINATED"); (20, "UNKNOWN_SESSION_ID");
     (21, "DOWNGRADE_ATTACK_DETECTED"); (22, "AUTHENTICATION_REQUEST");
     (23, "AUTHENTICATION_REPLY"); (24, "STANDARDS_ACTION"); (127, "STANDARDS_ACTION");
     (128, "SPECIFICATION_REQUIRED"); (191, "SPECIFICATION_REQUIRED");
     (192, "PRIVATE_USE"); (254, "PRIVATE_USE"); (255, "STANDARDS_ACTION_RESERVED")]
    "INVALID/UNKNOWN".

Definition OptionToString (option_in : Z) : string :=
  switch option_in
    [(PCP_OPTION_THIRD_PARTY, "THIRD_PARTY"); (PCP_OPTION_PREFER_FAILURE, "PREFER_FAILURE");
     (PCP_OPTION_FILTER, "FILTER"); (PCP_OPTION_NONCE, "NONCE");
     (PCP_OPTION_AUTHENTICATION_TAG, "AUTHENTICATION_TAG");
     (PCP_OPTION_PA_AUTHENTICATION_TAG, "PA_AUTHENTICATION_TAG");
     (PCP_OPTION_EAP_PAYLOAD, "EAP_PAYLOAD");
     (PCP_OPTION_PSEUDO_RANDOM_FUNCTION, "PSEUDO_RANDOM_FUNCTION");
     (PCP_OPTION_MAC_ALGORITHM, "MAC_ALGORITHM");
     (PCP_OPTION_SESSION_LIFETIME, "SESSION_LIFETIME");
     (PCP_OPTION_RECEIVED_PAK, "RECEIVED_PAK"); (PCP_OPTION_ID_INDICATOR, "ID_INDICATOR")]
    "INVALID/UNKNOWN".

(** ** Records *)
Record map_data (P : Type) := MapData {
  map_nonce : Z;
  map_protocol : Z;
  map_reserved : Z;
  map_internal_port : Z;
  map_external_port : Z;
  map_external_address : option P
}.
Arguments MapData {P}.
Arguments map_nonce {P} m.
Arguments map_protocol {P} m.
Arguments map_reserved {P} m.
Arguments map_internal_port {P} m.
Arguments map_external_port {P} m.
Arguments map_external_address {P} m.

(** [PCPOpcodePeerData] begins with the fields of [PCPOpcodeMapData] *)
Record peer_data (P : Type) := PeerData {
  peer_map : map_data P;
  remote_peer_port : Z;
  peer_reserved_2 : Z;
  remote_peer_address : option P
}.
Arguments PeerData {P}.
Arguments peer_map {P} p.
Arguments remote_peer_port {P} p.
Arguments peer_reserved_2 {P} p.
Arguments remote_peer_address {P} p.

(** the union of [PCP_Record]: the member that has been assigned *)
Inductive opcode_data (P : Type) :=
  | NoOpcodeData
  | MapMember (d : map_data P)
  | PeerMember (d : peer_data P)
  | AuthenticationMember (session_id sequence_number : Z).
Arguments NoOpcodeData {P}.
Arguments MapMember {P} d.
Arguments PeerMember {P} d.
Arguments AuthenticationMember {P} session_id sequence_number.

(** the union of [PCPOption]; the members with one number are [Number] *)
Inductive option_data (P D : Type) :=
  | NoOptionData
  | ThirdParty (address : option P)
  | Filter (reserved prefix_length port : Z) (address : option P)
  | AuthenticationTag (session_id sequence_number key_id : Z) (data : option D)
  | PAAuthenticationTag (key_id : Z) (data : option D)
  | Payload (data : option D)
  | Number (n : Z).
Arguments NoOptionData {P D}.
Arguments ThirdParty {P D} address.
Arguments Filter {P D} reserved prefix_length port address.
Arguments AuthenticationTag {P D} session_id sequence_number key_id data.
Arguments PAAuthenticationTag {P D} key_id data.
Arguments Payload {P D} data.
Arguments Number {P D} n.

Record PCPOption (P D : Type) := MkOption {
  option_code : Z;
  option_reserved : Z;
  option_length : Z;
  option_member : option_data P D
}.
Arguments MkOption {P D}.
Arguments option_code {P D} p.
Arguments option_reserved {P D} p.
Arguments option_length {P D} p.
Arguments option_member {P D} p.

(** [A] is the type of addresses; the address of the client is not a pointer *)
Record PCP_Record (A P D : Type) := MkPcpRecord {
  version : Z;
  opcode : Z;
  reserved : Z;
  result_code : Z;
  lifetime : Z;
  epoch_time : Z;
  reserved_2 : Z;
  client_address : A;
  member : opcode_data P;
  options : list (PCPOption P D)
}.
Arguments MkPcpRecord {A P D}.
Arguments version {A P D} p.
Arguments opcode {A P D} p.
Arguments reserved {A P D} p.
Arguments result_code {A P D} p.
Arguments lifetime {A P D} p.
Arguments epoch_time {A P D} p.
Arguments reserved_2 {A P D} p.
Arguments client_address {A P D} p.
Arguments member {A P D} p.
Arguments options {A P D} p.

(** Reading a member of a union that has not been assigned is undefined. *)
Definition as_map {P} (u : opcode_data P) : outcome (map_data P) :=
  match u with MapMember d => Ok d | _ => Undef end.
Definition as_peer {P} (u : opcode_data P) : outcome (peer_data P) :=
  match u with PeerMember d => Ok d | _ => Undef end.
Definition as_authentication {P} (u : opcode_data P) : outcome (Z * Z) :=
  match u with AuthenticationMember a b => Ok (a, b) | _ => Undef end.
Definition as_number {P D} (u : option_data P D) : outcome Z :=
  match u with Number n => Ok n | _ => Undef end.
Definition as_payload {P D} (u : option_data P D) : outcome (option D) :=
  match u with Payload d => Ok d | _ => Undef end.
Definition as_third_party {P D} (u : option_data P D) : outcome (option P) :=
  match u with ThirdParty a => Ok a | _ => Undef end.
Definition as_filter {P D} (u : option_data P D) : outcome (Z * Z * Z * option P) :=
  match u with Filter r l p a => Ok (r, l, p, a) | _ => Undef end.
Definition as_tag {P D} (u : option_data P D) : outcome (Z * Z * Z * option D) :=
  match u with AuthenticationTag s n k d => Ok (s, n, k, d) | _ => Undef end.
Definition as_pa_tag {P D} (u : option_data P D) : outcome (Z * option D) :=
  match u with PAAuthenticationTag k d => Ok (k, d) | _ => Undef end.

(** ** Tools *)
Definition isRequest {A P D} (record_in : PCP_Record A P D) : bool :=
  negb (Z.land (opcode record_in) 0x80 =? 0).

Section Tools.
Context {A : Type} `{InetAddr A} `{ByteOrder}.

(** an IPv4 address as an IPv6 address; [get_ip_address] is 0 for any other address *)
Definition mapAddress (address_in : A) : list Z :=
  replicate 10 0 ++ [0xFF; 0xFF] ++ memory 4 (network 4 (get_ip_address address_in)).

Definition generateNonce (rand_r : Z) : Z := u64 rand_r.

(** *** The printed form *)
Definition address_string (a : option A) : outcome string :=
  a ← deref a; IPAddressToString a true false.
Definition line (name value : string) : string :=
  name +:+ ": " +:+ String "009" "" +:+ value +:+ eol.

Definition dump_map (d : map_data A) : outcome string :=
  a ← address_string (map_external_address d);
  Ok (line "nonce" (pretty (map_nonce d)) +:+ line "protocol" (pretty (map_protocol d)) +:+
      line "reserved" (pretty (map_reserved d)) +:+
      line "internal port" (pretty (map_internal_port d)) +:+
      line "external port" (pretty (map_external_port d)) +:+ line "external address" a).

Definition dump_member (r : PCP_Record A A (list Z)) : outcome (option string) :=
  if opcode r =? PCP_OPCODE_ANNOUNCE then Ok (Some "")
  else if opcode r =? PCP_OPCODE_MAP then
    d ← as_map (member r); s ← dump_map d; Ok (Some s)
  else if opcode r =? PCP_OPCODE_PEER then
    d ← as_peer (member r); s ← dump_map (peer_map d);
    a ← address_string (remote_peer_address d);
    Ok (Some (s +:+ line "remote peer port" (pretty (remote_peer_port d)) +:+
              line "remote peer address" a))
  else if opcode r =? PCP_OPCODE_AUTHENTICATION then
    '(i, n) ← as_authentication (member r);
    Ok (Some (line "session id" (pretty i) +:+ line "sequence number" (pretty n)))
  else Ok None.
(** the loop over [n] bytes of an array *)
Definition data_text (data : option (list Z)) (n : Z) : outcome string :=
  if n =? 0 then Ok ""
  else bs ← deref data;
       if zlen bs <? n then Undef else Ok (bytes_string (take (Z.to_nat n) bs)).

Definition tab : string := String "009" "".
Definition dump_option_member (o : PCPOption A (list Z)) : outcome string :=
  let c := option_code o in
  let u := option_member o in
  let length := option_length o in
  if c =? PCP_OPTION_THIRD_PARTY then
    a ← as_third_party u; s ← address_string a; Ok (" " +:+ tab +:+ s)
  else if c =? PCP_OPTION_PREFER_FAILURE then Ok ""
  else if c =? PCP_OPTION_FILTER then
    '(r, l, p, a) ← as_filter u; s ← address_string a;
    Ok (" " +:+ tab +:+ String (chr r) (tab +:+ String (chr l) (tab +:+ pretty p +:+ tab +:+ s)))
  else if c =? PCP_OPTION_AUTHENTICATION_TAG then
    '(i, n, k, d) ← as_tag u; t ← data_text d (u32 (length - 12));
    Ok (" " +:+ tab +:+ pretty i +:+ tab +:+ pretty n +:+ tab +:+ pretty k +:+ tab +:+
        quote +:+ t +:+ quote)
  else if c =? PCP_OPTION_PA_AUTHENTICATION_TAG then
    '(k, d) ← as_pa_tag u; t ← data_text d (u32 (length - 4));
    Ok (" " +:+ tab +:+ pretty k +:+ tab +:+ quote +:+ t +:+ quote)
  else if (c =? PCP_OPTION_EAP_PAYLOAD) || (c =? PCP_OPTION_ID_INDICATOR) then
    d ← as_payload u; t ← data_text d length;
    Ok (" " +:+ tab +:+ quote +:+ t +:+ quote)
  else if bool_decide (c ∈ [PCP_OPTION_NONCE; PCP_OPTION_PSEUDO_RANDOM_FUNCTION;
                            PCP_OPTION_MAC_ALGORITHM; PCP_OPTION_SESSION_LIFETIME;
                            PCP_OPTION_RECEIVED_PAK]) then
    n ← as_number u; Ok (" " +:+ tab +:+ pretty n)
  else Ok "".

Fixpoint dump_options (os : list (PCPOption A (list Z))) : outcome string :=
  match os with
  | [] => Ok ""
  | o :: os' =>
      m ← dump_option_member o; s ← dump_options os';
      Ok (OptionToString (option_code o) +:+ ": " +:+ tab +:+ pretty (option_reserved o) +:+
          tab +:+ pretty (option_length o) +:+ m +:+ eol +:+ s)
  end.

Definition PCP_dump (record_in : PCP_Record A A (list Z)) : outcome string :=
  m ← dump_member record_in;
  match m with
  | None => Ok ""
  | Some m =>
      os ← dump_options (options record_in);
      Ok (line "version" (VersionToString (version record_in)) +:+
          line "opcode" (OpcodeToString (Z.land (opcode record_in) 0x7F)) +:+
          line "reserved" (pretty (reserved record_in)) +:+
          line "result code" (ResultCodeToString (result_code record_in)) +:+
          line "lifetime" (pretty (lifetime record_in)) +:+
          line "epoch time" (pretty (epoch_time record_in)) +:+
          line "reserved_2" (pretty (reserved_2 record_in)) +:+ m +:+
          "options (" +:+ pretty (zlen (options record_in)) +:+ "):" +:+ eol +:+ os +:+
          "options /END" +:+ eol)
  end.
End Tools.

(** ** The memory of a record

    Here a pointer is the address of an allocation on a heap of allocations; both kinds of
    allocations are on one heap. *)
Definition heap : Type := gset Z.

(** [delete p; p = NULL]: a null pointer is ignored, anything that has not been allocated
    is undefined *)
Definition delete_pointer (p : option Z) (h : heap) : outcome heap :=
  match p with
  | None => Ok h
  | Some p => if bool_decide (p ∈ h) then Ok (h ∖ {[p]}) else Undef
  end.

Section Memory.
Context {A : Type}.
Notation record := (PCP_Record A Z Z).
Notation option_ := (PCPOption Z Z).

Definition set_member (u : opcode_data Z) (os : list option_) (r : record) : record :=
  MkPcpRecord (version r) (opcode r) (reserved r) (result_code r) (lifetime r) (epoch_time r)
    (reserved_2 r) (client_address r) u os.

(** the pointers of the members, by the opcode and the code *)
Definition member_pointers (code : Z) (u : opcode_data Z) : outcome (list (option Z)) :=
  if code =? PCP_OPCODE_MAP then d ← as_map u; Ok [map_external_address d]
  else if code =? PCP_OPCODE_PEER then
    d ← as_peer u; Ok [map_external_address (peer_map d); remote_peer_address d]
  else Ok [].
Definition option_pointer (o : option_) : outcome (option Z) :=
  let c := option_code o in
  let u := option_member o in
  if c =? PCP_OPTION_THIRD_PARTY then as_third_party u
  else if c =? PCP_OPTION_FILTER then '(_, _, _, a) ← as_filter u; Ok a
  else if c =? PCP_OPTION_AUTHENTICATION_TAG then '(_, _, _, d) ← as_tag u; Ok d
  else if c =? PCP_OPTION_PA_AUTHENTICATION_TAG then '(_, d) ← as_pa_tag u; Ok d
  else if (c =? PCP_OPTION_EAP_PAYLOAD) || (c =? PCP_OPTION_ID_INDICATOR) then as_payload u
  else Ok None.

(** the members with their pointers set to [NULL] *)
Definition clear_map (d : map_data Z) : map_data Z :=
  MapData (map_nonce d) (map_protocol d) (map_reserved d) (map_internal_port d)
    (map_external_port d) None.
Definition clear_member (code : Z) (u : opcode_data Z) : opcode_data Z :=
  match u with
  | MapMember d => if code =? PCP_OPCODE_MAP then MapMember (clear_map d) else u
  | PeerMember d =>
      if code =? PCP_OPCODE_PEER then
        PeerMember (PeerData (clear_map (peer_map d)) (remote_peer_port d) (peer_reserved_2 d)
                      None)
      else u
  | _ => u
  end.
Definition clear_option_member (u : option_data Z Z) : option_data Z Z :=
  match u with
  | ThirdParty _ => ThirdParty None
  | Filter r l p _ => Filter r l p None
  | AuthenticationTag s n k _ => AuthenticationTag s n k None
  | PAAuthenticationTag k _ => PAAuthenticationTag k None
  | Payload _ => Payload None
  | u => u
  end.
Definition has_pointer (c : Z) : bool :=
  bool_decide (c ∈ [PCP_OPTION_THIRD_PARTY; PCP_OPTION_FILTER; PCP_OPTION_AUTHENTICATION_TAG;
                    PCP_OPTION_PA_AUTHENTICATION_TAG; PCP_OPTION_EAP_PAYLOAD;
                    PCP_OPTION_ID_INDICATOR]).
Definition clear_option (o : option_) : option_ :=
  MkOption (option_code o) (option_reserved o) (option_length o)
    (if has_pointer (option_code o) then clear_option_member (option_member o)
     else option_member o).

Fixpoint pointers (os : list option_) : outcome (list (option Z)) :=
  match os with
  | [] => Ok []
  | o :: os' => p ← option_pointer o; ps ← pointers os'; Ok (p :: ps)
  end.
Definition record_pointers (r : record) : outcome (list (option Z)) :=
  ps ← member_pointers (opcode r) (member r); qs ← pointers (options r); Ok (ps ++ qs).

Definition clear (record_in : record) : outcome record :=
  _ ← record_pointers record_in;
  Ok (set_member (clear_member (opcode record_in) (member record_in))
        (clear_option <$> options record_in) record_in).

Fixpoint delete_all (ps : list (option Z)) (h : heap) : outcome heap :=
  match ps with
  | [] => Ok h
  | p :: ps' => h' ← delete_pointer p h; delete_all ps' h'
  end.

Definition free (record_in : record) (h : heap) : outcome (record * heap) :=
  ps ← record_pointers record_in; h' ← delete_all ps h; r ← clear record_in; Ok (r, h').
End Memory.

(** ** The lemmas *)
Section MemoryLemmas.
Context {A : Type}.
Notation record := (PCP_Record A Z Z).

(** [delete] ignores null pointers *)
Lemma delete_all_null ps h : Forall (λ p, p = None) ps → delete_all ps h = Ok h.
Proof. induction 1 as [|p ps -> _ IH]; [done|]. cbn. exact IH. Qed.

(** The distinct allocations of a list are released, and nothing else is. *)
Lemma delete_all_distinct ps h :
  NoDup (omap id ps) → (∀ p, Some p ∈ ps → p ∈ h) →
  delete_all ps h = Ok (h ∖ list_to_set (omap id ps)).
Proof.
  revert h. induction ps as [|[p|] ps IH]; intros h Hnd Hin; cbn.
  - f_equal. set_solver.
  - cbn in Hnd. apply NoDup_cons in Hnd as [Hp Hnd].
    rewrite bool_decide_true by (apply Hin; left). cbn. rewrite IH; [|done|].
    + f_equal. cbn. set_solver.
    + intros q Hq. apply elem_of_difference. split; [apply Hin; by right|].
      apply not_elem_of_singleton. intros ->. apply Hp, list_elem_of_omap. eauto.
  - apply IH; [done|]. intros q Hq. apply Hin. by right.
Qed.

(** What has been released is gone. *)
Lemma delete_pointer_gone p h h' :
  delete_pointer p h = Ok h' → ∀ q, p = Some q → q ∉ h'.
Proof.
  intros E q ->. cbn in E. case_bool_decide; [|done]. injection E as <-. set_solver.
Qed.
Lemma delete_all_subset ps h h' : delete_all ps h = Ok h' → h' ⊆ h.
Proof.
  revert h. induction ps as [|p ps IH]; intros h E; cbn in E; [by injection E as <-|].
  destruct (delete_pointer p h) as [h1| |] eqn:E1; try done. cbn in E.
  apply IH in E. destruct p as [p|]; cbn in E1; [case_bool_decide|]; set_solver.
Qed.
Lemma delete_all_gone ps h h' :
  delete_all ps h = Ok h' → ∀ q, Some q ∈ ps → q ∉ h'.
Proof.
  revert h. induction ps as [|p ps IH]; intros h E q Hq; [by apply elem_of_nil in Hq|].
  cbn in E. destruct (delete_pointer p h) as [h1| |] eqn:E1; try done. cbn in E.
  apply elem_of_cons in Hq as [<-|Hq]; [|by eapply IH].
  pose proof (delete_pointer_gone _ _ _ E1 q eq_refl). apply delete_all_subset in E. set_solver.
Qed.
(** Releasing what is not allocated is undefined. *)
Lemma delete_all_undef ps h q : Some q ∈ ps → q ∉ h → delete_all ps h = Undef.
Proof.
  revert h. induction ps as [|p ps IH]; intros h Hin Hq; [by apply elem_of_nil in Hin|].
  cbn. apply elem_of_cons in Hin as [<-|Hin].
  - cbn. by rewrite bool_decide_false.
  - destruct p as [p|]; cbn; [case_bool_decide; [|done]|]; cbn; apply IH; set_solver.
Qed.

(** the pointers of a record that has been cleared *)
Lemma member_pointers_clear code u ps :
  member_pointers code u = Ok ps →
  ∃ qs, member_pointers code (clear_member code u) = Ok qs ∧ Forall (λ p, p = None) qs.
Proof.
  unfold member_pointers, clear_member. intros E.
  destruct (code =? PCP_OPCODE_MAP) eqn:E1.
  - destruct u; cbn in E; try done. cbn. eexists; split; [done|]. by constructor.
  - destruct (code =? PCP_OPCODE_PEER) eqn:E2.
    + destruct u; cbn in E; try done. cbn. eexists; split; [done|]. repeat constructor.
    + exists []. by split.
Qed.
Lemma option_pointer_clear o p :
  option_pointer o = Ok p → option_pointer (clear_option o) = Ok None.
Proof.
  destruct o as [c r l u]. unfold option_pointer, clear_option. cbn [option_code option_member].
  intros E.
  repeat match goal with
  | |- context [c =? ?k] =>
      destruct (c =? k) eqn:?; [bool_lia; subst c; destruct u; done|]
  end.
  done.
Qed.
Lemma pointers_clear os ps :
  pointers os = Ok ps → pointers (clear_option <$> os) = Ok (replicate (length os) None).
Proof.
  revert ps. induction os as [|o os IH]; intros ps E; [done|]. cbn in E.
  apply bind_Ok in E as (p & Ep & E). apply bind_Ok in E as (qs & Eq & _).
  cbn. by rewrite (option_pointer_clear _ _ Ep), (IH _ Eq).
Qed.

Lemma clear_Ok (r r' : record) :
  clear r = Ok r' →
  (∃ ps, record_pointers r = Ok ps) ∧ clear r' = Ok r' ∧
  ∃ qs, record_pointers r' = Ok qs ∧ Forall (λ p, p = None) qs.
Proof.
  unfold clear. intros E. apply bind_Ok in E as (ps & Ep & [= <-]).
  assert (∃ qs, record_pointers
    (set_member (clear_member (opcode r) (member r)) (clear_option <$> options r) r) = Ok qs ∧
    Forall (λ p, p = None) qs) as (qs & Eq & Hq).
  { unfold record_pointers in *. cbn.
    apply bind_Ok in Ep as (ps1 & E1 & Ep). apply bind_Ok in Ep as (ps2 & E2 & _).
    apply member_pointers_clear in E1 as (qs & -> & Hq). cbn.
    rewrite (pointers_clear _ _ E2). cbn. eexists; split; [done|].
    apply Forall_app; split; [done|]. apply Forall_replicate. done. }
  split_and!; [by eexists| |by exists qs].
  rewrite Eq. cbn. f_equal. destruct r as [v o re c l e r2 a u os]. unfold set_member. cbn. f_equal.
  - destruct u; cbn; repeat (case_match; cbn); done.
  - rewrite <- list_fmap_compose. apply list_fmap_ext. intros _ [c' r' l' u'] _.
    unfold compose, clear_option. cbn. case_match; [|done]. by destruct u'.
Qed.
End MemoryLemmas.

(** ** Properties *)
Section MemoryProperties.
Context {A : Type}.
Notation record := (PCP_Record A Z Z).

(** PCP_Tools::free releases exactly the allocations a record refers to, and leaves
    NULL in their place: when they are distinct and allocated, they are no longer, all
    others still are, and the record is the one clear makes *)
Theorem free_releases (r : record) (h : heap) ps :
  record_pointers r = Ok ps → NoDup (omap id ps) → list_to_set (omap id ps) ⊆ h →
  ∃ r', free r h = Ok (r', h ∖ list_to_set (omap id ps)) ∧ clear r = Ok r' ∧
        ∃ qs, record_pointers r' = Ok qs ∧ Forall (λ p, p = None) qs.
Proof.
  intros Ep Hnd Hin. destruct (clear r) as [r'| |] eqn:Ec;
    [|by unfold clear in Ec; rewrite Ep in Ec..].
  exists r'. unfold free. rewrite Ep. cbn.
  rewrite delete_all_distinct, Ec; [|done|].
  - cbn. split_and!; [done..|]. by apply clear_Ok in Ec as (_ & _ & ?).
  - intros p Hp. apply Hin, elem_of_list_to_set, list_elem_of_omap. eauto.
Qed.

(** PCP_Tools::free and the copies of a record: once it has released a record, a second
    call on it changes nothing; on a copy of the record as it was, which refers to the same
    memory, a second call is undefined when there is any; after PCP_Tools::clear, a copy can
    be released too *)
Theorem free_once (r r' : record) (h h' : heap) ps :
  free r h = Ok (r', h') → record_pointers r = Ok ps →
  free r' h' = Ok (r', h') ∧
  (omap id ps ≠ [] → free r h' = Undef) ∧
  (∃ c, clear r = Ok c ∧ free c h' = Ok (c, h')).
Proof.
  unfold free at 1. intros E Ep. rewrite Ep in E. cbn in E.
  apply bind_Ok in E as (h1 & Ed & E). apply bind_Ok in E as (r1 & Ec & [= <- <-]).
  pose proof Ec as (_ & Ecc & qs & Eq & Hq)%clear_Ok.
  assert (free r1 h1 = Ok (r1, h1)) as Hf.
  { unfold free. by rewrite Eq, Ecc; cbn; rewrite delete_all_null. }
  split_and!; [done| |by exists r1].
  intros Hne. unfold free. rewrite Ep. cbn.
  destruct (omap id ps) as [|q qs'] eqn:Eo; [done|].
  assert (Some q ∈ ps) as Hin.
  { assert (q ∈ omap id ps) as (x & Hx & Ex)%list_elem_of_omap by (rewrite Eo; left).
    cbn in Ex. by subst. }
  by rewrite (delete_all_undef _ _ q Hin (delete_all_gone _ _ _ Ed q Hin)).
Qed.
End MemoryProperties.

(** a record with two addresses and the data of an option *)
Definition peer_record : PCP_Record unit Z Z :=
  MkPcpRecord 2 2 0 0 60 0 0 tt
    (PeerMember (PeerData (MapData 7 17 0 1000 2000 (Some 1)) 80 0 (Some 2)))
    [MkOption PCP_OPTION_EAP_PAYLOAD 0 4 (Payload (Some 3))].
Lemma free_releases_witness :
  ∃ r', free peer_record {[1; 2; 3; 4]} =
          Ok (r', {[1; 2; 3; 4]} ∖ list_to_set (omap id [Some 1; Some 2; Some 3])) ∧
        clear peer_record = Ok r' ∧
        ∃ qs, record_pointers r' = Ok qs ∧ Forall (λ p, p = None) qs.
Proof.
  apply (free_releases peer_record {[1; 2; 3; 4]} [Some 1; Some 2; Some 3]);
    [reflexivity|apply (bool_decide_unpack _); vm_compute; exact I..].
Defined.
Lemma free_once_witness :
  let r' := match free peer_record {[1; 2; 3]} with Ok (r, _) => r | _ => peer_record end in
  free r' ∅ = Ok (r', ∅) ∧
  (omap id [Some 1; Some 2; Some 3] ≠ [] → free peer_record ∅ = Undef) ∧
  (∃ c, clear peer_record = Ok c ∧ free c ∅ = Ok (c, ∅)).
Proof.
  apply (free_once peer_record _ {[1; 2; 3]} ∅ [Some 1; Some 2; Some 3]); vm_compute; reflexivity.
Defined.
