(* ===== verification/PcpWire.v ===== *)
(** * The messages of PCP (protocol/pcp: pcp_module_streamer.inl, scripts/scanner.l,
      scripts/parser.y, pcp_parser_driver.cpp)

    The streamer that writes a request, and the rules and the grammar that read a
    response.  The scanner is modelled on a message that is one datagram, and so one
    contiguous buffer ([yy_scan_buffer]); the actions of the parser run as the tokens are
    read, as those of a grammar do that needs no lookahead for them. *)
From S2P Require Import Prelude MessageBlock ByteOrder InetAddr Wire PcpTools.

(** ** The streamer *)

Section Streamer.
Context {A B : Type} `{InetAddr A} `{ByteOrder} `{WritableBlock B}.
Notation record := (PCP_Record A A (list Z)).
Notation option_ := (PCPOption A (list Z)).

Definition copy_address (a : option A) : step :=
  a ← deref a; copy (mapAddress a).
(** [copy (data, n)] for an [int] *)
Definition copy_data (d : option (list Z)) (n : Z) : step :=
  Ok (Some (u64 n, bs ← deref d; if zlen bs <? n then Undef else Ok (take (Z.to_nat n) bs))).

(** the last eight bytes of the nonce *)
Definition copy_nonce (nonce : Z) : step :=
  copy (replicate 4 0 ++ memory 8 (network 8 nonce)).
(** [&data_r.map.reserved + 1] is behind all of [reserved]: the three bytes that are copied
    are those of the ports that follow it *)
Definition copy_reserved (d : map_data A) : step :=
  copy (take 3 (memory 2 (map_internal_port d) ++ memory 2 (map_external_port d))).

Definition map_steps (d : map_data A) : list step :=
  [copy_nonce (map_nonce d); copy [map_protocol d]; copy_reserved d;
   copy_number 2 (map_internal_port d); copy_number 2 (map_external_port d);
   copy_address (map_external_address d)].

Definition member_steps (r : record) : list step :=
  if opcode r =? PCP_OPCODE_ANNOUNCE then []
  else if opcode r =? PCP_OPCODE_MAP then
    match as_map (member r) with Ok d => map_steps d | _ => [Undef] end
  else if opcode r =? PCP_OPCODE_PEER then
    match as_peer (member r) with
    | Ok d =>
        map_steps (peer_map d) ++
        [copy_number 2 (remote_peer_port d); copy (memory 2 (peer_reserved_2 d));
         copy_address (remote_peer_address d)]
    | _ => [Undef]
    end
  else if opcode r =? PCP_OPCODE_AUTHENTICATION then
    match as_authentication (member r) with
    | Ok (i, n) => [copy_number 4 i; copy_number 4 n]
    | _ => [Undef]
    end
  else [error].

Definition header_steps (r : record) : list step :=
  [copy_enum (version r); copy [opcode r]] ++
  (if bool_decide (opcode r ∈ [PCP_OPCODE_ANNOUNCE; PCP_OPCODE_MAP; PCP_OPCODE_PEER])
   then [copy (memory 2 0)]
   else if opcode r =? PCP_OPCODE_AUTHENTICATION
   then [copy (take 1 (memory 2 0)); copy_enum (result_code r)]
   else [error]) ++
  [copy_number 4 (lifetime r); copy (mapAddress (client_address r))].

(** the steps of the member of an option *)
Definition option_member_steps (o : option_) : list step :=
  let c := option_code o in
  let length := option_length o in
  let number := match as_number (option_member o) with
                | Ok n => [copy_number 4 n] | _ => [Undef] end in
  let payload := match as_payload (option_member o) with
                 | Ok d => [copy_data d length] | _ => [Undef] end in
  if c =? PCP_OPTION_THIRD_PARTY then
    match as_third_party (option_member o) with Ok a => [copy_address a] | _ => [Undef] end
  else if c =? PCP_OPTION_PREFER_FAILURE then []
  else if c =? PCP_OPTION_FILTER then
    match as_filter (option_member o) with
    | Ok (r, l, p, a) => [copy [r]; copy [l]; copy_number 2 p; copy_address a]
    | _ => [Undef]
    end
  else if c =? PCP_OPTION_AUTHENTICATION_TAG then
    match as_tag (option_member o) with
    | Ok (i, n, k, d) =>
        [copy_number 4 i; copy_number 4 n; copy_number 4 k; copy_data d (length - 12)]
    | _ => [Undef]
    end
  else if c =? PCP_OPTION_PA_AUTHENTICATION_TAG then
    match as_pa_tag (option_member o) with
    | Ok (k, d) => [copy_number 4 k; copy_data d (length - 4)]
    | _ => [Undef]
    end
  else if c =? PCP_OPTION_EAP_PAYLOAD then payload
  else if c =? PCP_OPTION_NONCE then number
  else if c =? PCP_OPTION_PSEUDO_RANDOM_FUNCTION then number
  else if c =? PCP_OPTION_MAC_ALGORITHM then number
  else if c =? PCP_OPTION_SESSION_LIFETIME then number
  else if c =? PCP_OPTION_RECEIVED_PAK then number
  else if c =? PCP_OPTION_ID_INDICATOR then payload
  else [error].

(** There is no padding. *)
Definition option_steps (o : option_) : list step :=
  [copy_enum (option_code o); copy [option_reserved o]; copy_number 2 (option_length o)] ++
  option_member_steps o.

Definition handleDataMessage (r : record) (message_inout : B) : outcome B :=
  ace_assert (block_length message_inout =? 0);;
  ace_assert (PCP_MESSAGE_SIZE <=? mb_space message_inout);;
  serialize (header_steps r ++ member_steps r ++ (options r ≫= option_steps)) message_inout.
End Streamer.

(** ** The scanner and the parser *)

Section Scanner.
Context {A : Type} `{InetAddr A} `{ByteOrder}.
(** [new] returns memory for an array of this size *)
Variable allocates : Z → bool.

(** the values of the tokens *)
(** the last eight of twelve octets *)
Definition number_12 : scan Z :=
  bs ← octets_rule 12; mret (network 8 (load (drop (12 - 8) bs))).
(** the last four of sixteen octets *)
Definition address_16 : scan Z :=
  bs ← octets_rule 16; mret (network 4 (load (take 4 (drop 12 bs)))).
(** The three octets are added to the value of the last token, [ival]. *)
Definition reserved_3 (ival : Z) : scan Z :=
  bs ← octets_rule 3;
  mret (Z.lor (Z.lor (Z.lor ival (Z.shiftl (default 0 (bs !! 0%nat)) 16))
                 (Z.shiftl (default 0 (bs !! 1%nat)) 8)) (default 0 (bs !! 2%nat))).

(** [opcode_specific_map], and the first part of [opcode_specific_peer] *)
Definition read_map : scan (map_data A) :=
  nonce ← number_12; protocol ← octet; reserved ← reserved_3 protocol;
  internal ← number 2; external ← number 2; ip ← address_16;
  mret (MapData nonce protocol (u32 reserved) internal external
          (Some (inet_of_ip external ip))).

(** [opcode_specific] *)
Definition read_member (opcode : Z) : scan (opcode_data A) :=
  if opcode =? PCP_OPCODE_MAP then d ← read_map; mret (MapMember d)
  else if opcode =? PCP_OPCODE_PEER then
    d ← read_map; port ← number 2; reserved_2 ← number 2; ip ← address_16;
    mret (PeerMember (PeerData d port reserved_2 (Some (inet_of_ip port ip))))
  else if opcode =? PCP_OPCODE_ANNOUNCE then mret NoOpcodeData
  else if opcode =? PCP_OPCODE_AUTHENTICATION then
    i ← number 4; n ← number 4; mret (AuthenticationMember i n)
  else yyterminate.

(** An array of [size] elements: the first octet is written, then [count] more, from the
    second element on; a write behind the end is undefined. *)
Fixpoint write_octets (size i : Z) (count : nat) (acc : list Z) : scan (list Z) := λ s,
  match count with
  | O => Ok (Some (acc, s))
  | S count' =>
      if size <=? i then Undef
      else write_octets size (i + 1) count' (acc ++ [default 0 (head s)]) (tail s)
  end.
Definition write_data (size : Z) (bs : list Z) : scan (list Z) := λ s,
  if size <=? 0 then Undef else write_octets size 1 (Z.to_nat size) bs s.
(** the rules for data of [total] octets *)
Definition read_data (total : Z) : scan (option (list Z)) :=
  bs ← octets_rule 1;
  let bytes_to_read := u32 (total - 1) in
  _ ← scan_assert (allocates bytes_to_read);
  d ← write_data bytes_to_read bs;
  mret (Some d).
(** [<option_padding>] *)
Definition read_padding (length : Z) : scan unit := λ s,
  if length `mod` 4 =? 0 then Ok (Some (tt, s))
  else r ← octets_rule 1 s;
       match r with
       | None => Ok None
       | Some (_, s') => Ok (Some (tt, drop (Z.to_nat (3 - length `mod` 4)) s'))
       end.

(** [option_data] *)
Definition read_option_member (c length : Z) : scan (option_data A (list Z)) :=
  let a_number := n ← number 4; mret (Number n) in
  let payload := d ← read_data length; _ ← read_padding length; mret (Payload d) in
  if c =? PCP_OPTION_THIRD_PARTY then ip ← address_16; mret (ThirdParty (Some (inet_of_ip 0 ip)))
  else if c =? PCP_OPTION_PREFER_FAILURE then mret NoOptionData
  else if c =? PCP_OPTION_FILTER then
    r ← octet; l ← octet; p ← number 2; ip ← address_16;
    mret (Filter r l p (Some (inet_of_ip p ip)))
  else if c =? PCP_OPTION_NONCE then a_number
  else if c =? PCP_OPTION_AUTHENTICATION_TAG then
    i ← number 4; n ← number 4; k ← number 4; d ← read_data (length - 12);
    _ ← read_padding length; mret (AuthenticationTag i n k d)
  else if c =? PCP_OPTION_PA_AUTHENTICATION_TAG then
    k ← number 4; d ← read_data (length - 4); _ ← read_padding length;
    mret (PAAuthenticationTag k d)
  else if c =? PCP_OPTION_EAP_PAYLOAD then payload
  else if c =? PCP_OPTION_PSEUDO_RANDOM_FUNCTION then a_number
  else if c =? PCP_OPTION_MAC_ALGORITHM then a_number
  else if c =? PCP_OPTION_SESSION_LIFETIME then a_number
  else if c =? PCP_OPTION_RECEIVED_PAK then a_number
  else if c =? PCP_OPTION_ID_INDICATOR then payload
  else yyterminate.

(** [option] *)
Definition read_option : scan (PCPOption A (list Z)) :=
  c ← octet; r ← octet; l ← number 2; m ← read_option_member c l;
  mret (MkOption c r l m).

(** [options]: the end of the buffer is expected in front of an option; an option takes at
    least one octet *)
Fixpoint read_options (fuel : nat) (s : list Z) : outcome (option (list (PCPOption A (list Z)))) :=
  match s, fuel with
  | [], _ => Ok (Some [])
  | _, O => Ok None
  | _, S fuel' =>
      r ← read_option s;
      match r with
      | None => Ok None
      | Some (o, s') => os ← read_options fuel' s'; Ok (option_map (cons o) os)
      end
  end.

(** [header] and [opcode_specific] *)
Definition read_record : scan (list (PCPOption A (list Z)) → PCP_Record A A (list Z)) :=
  v ← octet; o ← octet; _ ← scan_assert (negb (Z.land o 0x80 =? 0));
  let opcode := Z.land o 0x7F in
  r ← octet; code ← octet; life ← number 4; epoch ← number 4; r2 ← number_12;
  u ← read_member opcode;
  mret (MkPcpRecord v opcode r code life epoch (u32 r2) inet_any u).

(** [PCP_ParserDriver::parse ()] *)
Definition parse (s : list Z) : outcome (option (PCP_Record A A (list Z))) :=
  r ← read_record s;
  match r with
  | None => Ok None
  | Some (f, s') => os ← read_options (length s') s'; Ok (option_map f os)
  end.
End Scanner.

(** ** The layout of a request

    What RFC 6887 prescribes, of numbers in network byte order.  The three bytes of
    [leaked] should be zero. *)
Section Layout.
Context {A : Type} `{InetAddr A}.
Notation record := (PCP_Record A A (list Z)).
Notation option_ := (PCPOption A (list Z)).

Definition address_layout (a : A) : list Z :=
  replicate 10 0 ++ [0xFF; 0xFF] ++ be_bytes 4 (get_ip_address a).
Definition pointer_layout (a : option A) : list Z := from_option address_layout [] a.
Definition leaked (d : map_data A) : list Z :=
  [map_internal_port d `mod` 256; map_internal_port d `div` 256;
   map_external_port d `mod` 256].
Definition map_layout (d : map_data A) : list Z :=
  replicate 4 0 ++ be_bytes 8 (map_nonce d) ++ [map_protocol d] ++ leaked d ++
  be_bytes 2 (map_internal_port d) ++ be_bytes 2 (map_external_port d) ++
  pointer_layout (map_external_address d).
Definition member_layout (u : opcode_data A) : list Z :=
  match u with
  | NoOpcodeData => []
  | MapMember d => map_layout d
  | PeerMember d =>
      map_layout (peer_map d) ++ be_bytes 2 (remote_peer_port d) ++
      le_bytes 2 (peer_reserved_2 d) ++ pointer_layout (remote_peer_address d)
  | AuthenticationMember i n => be_bytes 4 i ++ be_bytes 4 n
  end.
Definition data_layout (d : option (list Z)) : list Z := default [] d.
Definition option_member_layout (u : option_data A (list Z)) : list Z :=
  match u with
  | NoOptionData => []
  | ThirdParty a => pointer_layout a
  | Filter r l p a => [r] ++ [l] ++ be_bytes 2 p ++ pointer_layout a
  | AuthenticationTag i n k d =>
      be_bytes 4 i ++ be_bytes 4 n ++ be_bytes 4 k ++ data_layout d
  | PAAuthenticationTag k d => be_bytes 4 k ++ data_layout d
  | Payload d => data_layout d
  | Number n => be_bytes 4 n
  end.
Definition option_layout (o : option_) : list Z :=
  [option_code o] ++ [option_reserved o] ++ be_bytes 2 (option_length o) ++
  option_member_layout (option_member o).
Definition header_layout (r : record) : list Z :=
  [version r] ++ [opcode r] ++
  [0; if opcode r =? PCP_OPCODE_AUTHENTICATION then result_code r else 0] ++
  be_bytes 4 (lifetime r) ++ address_layout (client_address r).
Definition request_layout (r : record) : list Z :=
  header_layout r ++ member_layout (member r) ++ (options r ≫= option_layout).

(** a record that is one: the numbers fit, the members are those of the codes, and the
    pointers refer to something *)
Definition map_ok (d : map_data A) : Prop :=
  range 8 (map_nonce d) ∧ byte (map_protocol d) ∧ range 2 (map_internal_port d) ∧
  range 2 (map_external_port d) ∧ is_Some (map_external_address d).
Definition member_ok (opcode : Z) (u : opcode_data A) : Prop :=
  match u with
  | NoOpcodeData => opcode = PCP_OPCODE_ANNOUNCE
  | MapMember d => opcode = PCP_OPCODE_MAP ∧ map_ok d
  | PeerMember d =>
      opcode = PCP_OPCODE_PEER ∧ map_ok (peer_map d) ∧ range 2 (remote_peer_port d) ∧
      range 2 (peer_reserved_2 d) ∧ is_Some (remote_peer_address d)
  | AuthenticationMember i n => opcode = PCP_OPCODE_AUTHENTICATION ∧ range 4 i ∧ range 4 n
  end.
Definition data_ok (d : option (list Z)) (n : Z) : Prop :=
  ∃ bs, d = Some bs ∧ zlen bs = n.
Definition option_member_ok (c length : Z) (u : option_data A (list Z)) : Prop :=
  match u with
  | NoOptionData => c = PCP_OPTION_PREFER_FAILURE
  | ThirdParty a => c = PCP_OPTION_THIRD_PARTY ∧ is_Some a
  | Filter r l p a => c = PCP_OPTION_FILTER ∧ byte r ∧ byte l ∧ range 2 p ∧ is_Some a
  | AuthenticationTag i n k d =>
      c = PCP_OPTION_AUTHENTICATION_TAG ∧ range 4 i ∧ range 4 n ∧ range 4 k ∧
      data_ok d (length - 12)
  | PAAuthenticationTag k d =>
      c = PCP_OPTION_PA_AUTHENTICATION_TAG ∧ range 4 k ∧ data_ok d (length - 4)
  | Payload d => c ∈ [PCP_OPTION_EAP_PAYLOAD; PCP_OPTION_ID_INDICATOR] ∧ data_ok d length
  | Number n =>
      c ∈ [PCP_OPTION_NONCE; PCP_OPTION_PSEUDO_RANDOM_FUNCTION; PCP_OPTION_MAC_ALGORITHM;
           PCP_OPTION_SESSION_LIFETIME; PCP_OPTION_RECEIVED_PAK] ∧ range 4 n
  end.
Definition option_ok (o : option_) : Prop :=
  byte (option_reserved o) ∧ range 2 (option_length o) ∧
  option_member_ok (option_code o) (option_length o) (option_member o).
Definition record_ok (r : record) : Prop :=
  byte (version r) ∧ (opcode r = PCP_OPCODE_AUTHENTICATION → byte (result_code r)) ∧
  range 4 (lifetime r) ∧
  member_ok (opcode r) (member r) ∧ Forall option_ok (options r).
End Layout.

Section StreamerLemmas.
Context {A B : Type} `{InetAddr A} `{ByteOrder} `{WritableBlock B}.
Hypothesis Hle : little_endian = true.

Lemma map_address a : mapAddress a = address_layout a.
Proof.
  unfold mapAddress, address_layout. rewrite memory_network; [done|].
  apply get_ip_address_range.
Qed.
Lemma writes_address a : is_Some a → writes [copy_address a] (pointer_layout a).
Proof. intros [x ->]. change (copy_address (Some x)) with (copy (mapAddress x)).
  rewrite map_address. apply writes_copy. Qed.
Lemma writes_data d n :
  data_ok d n → n < 2 ^ 64 → writes [copy_data d n] (data_layout d).
Proof.
  intros (bs & -> & <-) Hn. unfold copy_data, u64. cbn.
  pose proof (zlen_nonneg bs). rewrite Z.mod_small by lia. rewrite Z.ltb_irrefl.
  unfold zlen at 2. rewrite Nat2Z.id, firstn_all. apply writes_copy.
Qed.
Lemma writes_reserved (d : map_data A) :
  range 2 (map_internal_port d) → range 2 (map_external_port d) →
  writes [copy_reserved d] (leaked d).
Proof.
  unfold range. intros Hi He. unfold copy_reserved, memory. rewrite Hle. cbn.
  rewrite (Z.mod_small (map_internal_port d / 256)); [apply writes_copy|].
  change (256 ^ Z.of_nat 2) with (256 * 256) in *.
  split; [apply Z.div_pos; lia|apply Z.div_lt_upper_bound; lia].
Qed.

Lemma writes_map d : map_ok d → writes (map_steps d) (map_layout d).
Proof.
  intros (Hn & Hp & Hi & He & Ha). unfold map_steps, map_layout, copy_nonce.
  rewrite memory_network by done. rewrite (app_assoc (replicate 4 0)).
  apply writes_cons; [apply writes_copy|]. apply writes_cons; [apply writes_copy|].
  apply writes_cons; [by apply writes_reserved|].
  apply writes_cons; [by apply writes_number|]. apply writes_cons; [by apply writes_number|].
  by apply writes_address.
Qed.

Lemma writes_member (r : PCP_Record A A (list Z)) :
  member_ok (opcode r) (member r) → writes (member_steps r) (member_layout (member r)).
Proof.
  unfold member_steps. destruct (member r) as [|d|d|i n]; cbn [member_ok as_map as_peer
    as_authentication member_layout].
  - intros ->. apply writes_nil.
  - intros [-> Hd]. by apply writes_map.
  - intros (-> & Hd & Hp & Hr & Ha).
    cbn -[map_steps map_layout memory le_bytes be_bytes copy_number copy_address].
    apply writes_app; [by apply writes_map|].
    apply writes_cons; [by apply writes_number|].
    apply writes_cons; [|by apply writes_address]. unfold memory. rewrite Hle. apply writes_copy.
  - intros (-> & Hi & Hn). cbn -[be_bytes copy_number].
    apply writes_cons; [by apply writes_number|by apply writes_number].
Qed.

Lemma writes_option o : option_ok o → writes (option_steps o) (option_layout o).
Proof.
  destruct o as [c r l u]. unfold option_ok. cbn. intros (Hr & Hl & Hu).
  assert (byte c) as Hc.
  { destruct u; cbn in Hu; destruct_and?; try (subst; done); set_unfold;
      unfold byte; destruct_or?; subst; done. }
  assert (writes (option_member_steps (MkOption c r l u)) (option_member_layout u)) as Hw.
  { assert (l - 12 < 2 ^ 64 ∧ l - 4 < 2 ^ 64 ∧ l < 2 ^ 64) as (H12 & H4 & H0').
    { unfold range in Hl. change (256 ^ Z.of_nat 2) with 65536 in Hl. lia. }
    unfold option_member_steps. cbn [option_code option_member option_length].
    destruct u; cbn in Hu; set_unfold in Hu; destruct_and?; destruct_or?; subst c;
      cbn -[app be_bytes copy_number copy_address copy_data pointer_layout data_layout];
      repeat first [apply writes_nil | apply writes_copy | by apply writes_number
                   | by apply writes_address | by apply writes_data
                   | apply writes_cons]. }
  change (writes ([copy_enum c] ++ [copy [r]] ++ [copy_number 2 l] ++
                  option_member_steps (MkOption c r l u))
            ([c] ++ [r] ++ be_bytes 2 l ++ option_member_layout u)).
  repeat apply writes_app; [by apply (writes_enum _ Hle)|apply writes_copy|by apply writes_number|done].
Qed.
Lemma writes_options os :
  Forall option_ok os → writes (os ≫= option_steps) (os ≫= option_layout).
Proof.
  induction 1 as [|o os Ho _ IH]; [apply writes_nil|]. rewrite !bind_cons.
  apply writes_app; [by apply writes_option|done].
Qed.

Lemma member_opcode opcode (u : opcode_data A) : member_ok opcode u → 0 <= opcode <= 3.
Proof. destruct u; cbn; intros; destruct_and?; subst; done. Qed.
Lemma writes_header (r : PCP_Record A A (list Z)) :
  byte (version r) → (opcode r = PCP_OPCODE_AUTHENTICATION → byte (result_code r)) →
  range 4 (lifetime r) →
  0 <= opcode r <= 3 → writes (header_steps r) (header_layout r).
Proof.
  intros Hv Hc Hl Hu. unfold header_steps, header_layout.
  match goal with
  | |- writes ([?a; ?b] ++ ?X ++ [?c; ?d]) ?l => change (writes ([a] ++ [b] ++ X ++ [c] ++ [d]) l)
  end.
  rewrite <- (map_address (client_address r)).
  repeat apply writes_app;
    [by apply (writes_enum _ Hle)|apply writes_copy| |by apply writes_number|apply writes_copy].
  destruct (opcode r =? PCP_OPCODE_AUTHENTICATION) eqn:E; bool_lia.
  - rewrite E. replace (bool_decide _) with false by (vm_compute; done).
    cbn -[copy_enum memory]. unfold memory. rewrite Hle. cbn -[copy_enum].
    apply (writes_cons _ _ [0]); [apply writes_copy|by apply (writes_enum _ Hle), Hc].
  - rewrite bool_decide_true; [cbn; unfold memory; rewrite Hle; apply writes_copy|].
    unfold PCP_OPCODE_AUTHENTICATION in E.
    assert (opcode r = 0 ∨ opcode r = 1 ∨ opcode r = 2) as [-> | [-> | ->]] by lia; set_solver.
Qed.

End StreamerLemmas.

(** ** What is read back *)
Section Received.
Context {A : Type} `{InetAddr A}.

Definition received_address (port : Z) (a : option A) : option A :=
  (λ a, inet_of_ip port (get_ip_address a)) <$> a.
(** the protocol, and the bytes of the ports *)
Definition received_reserved (d : map_data A) : Z :=
  u32 (Z.lor (Z.lor (Z.lor (map_protocol d) (Z.shiftl (map_internal_port d `mod` 256) 16))
                (Z.shiftl (map_internal_port d `div` 256) 8)) (map_external_port d `mod` 256)).
Definition received_map (d : map_data A) : map_data A :=
  MapData (map_nonce d) (map_protocol d) (received_reserved d) (map_internal_port d)
    (map_external_port d) (received_address (map_external_port d) (map_external_address d)).
Definition received_member (u : opcode_data A) : opcode_data A :=
  match u with
  | MapMember d => MapMember (received_map d)
  | PeerMember d =>
      PeerMember (PeerData (received_map (peer_map d)) (remote_peer_port d)
        (be_value (le_bytes 2 (peer_reserved_2 d)))
        (received_address (remote_peer_port d) (remote_peer_address d)))
  | u => u
  end.
Definition received_option_member (u : option_data A (list Z)) : option_data A (list Z) :=
  match u with
  | ThirdParty a => ThirdParty (received_address 0 a)
  | Filter r l p a => Filter r l p (received_address p a)
  | u => u
  end.
Definition received_option (o : PCPOption A (list Z)) : PCPOption A (list Z) :=
  MkOption (option_code o) (option_reserved o) (option_length o)
    (received_option_member (option_member o)).
(** an option without an array *)
Definition fixed (o : PCPOption A (list Z)) : Prop :=
  match option_member o with
  | AuthenticationTag _ _ _ _ | PAAuthenticationTag _ _ | Payload _ => False
  | _ => True
  end.

(** the header of a response *)
Definition response_header (v opcode r code life epoch : Z) : list Z :=
  [v] ++ [Z.lor opcode 0x80] ++ [r] ++ [code] ++ be_bytes 4 life ++ be_bytes 4 epoch ++
  replicate 12 0.
End Received.

Section ScannerLemmas.
Context {A : Type} `{InetAddr A} `{ByteOrder}.
Variable allocates : Z → bool.

Lemma parses_number_12 z : range 8 z → parses number_12 (replicate 4 0 ++ be_bytes 8 z) z.
Proof.
  intros Hz. eapply parses_last; [by apply parses_octets|].
  rewrite drop_app_length', network_load_be by done. apply parses_ret.
Qed.
Lemma parses_zeros : parses number_12 (replicate 12 0) 0.
Proof. apply (parses_number_12 0). done. Qed.
Lemma parses_address a : parses address_16 (address_layout a) (get_ip_address a).
Proof.
  eapply parses_last; [by apply parses_octets|].
  unfold address_layout. rewrite (app_assoc (replicate 10 0)), drop_app_length' by done.
  rewrite take_ge, network_load_be by (done || apply get_ip_address_range). apply parses_ret.
Qed.
Lemma parses_reserved ival a b c :
  parses (reserved_3 ival) [a; b; c]
    (Z.lor (Z.lor (Z.lor ival (Z.shiftl a 16)) (Z.shiftl b 8)) c).
Proof. eapply parses_last; [by apply parses_octets|]. apply parses_ret. Qed.

Ltac parse_fields :=
  repeat first
    [ by apply parses_ret
    | eapply parses_bind;
        [ first [ apply parses_octet | by apply parses_number | by apply parses_number_12
                | apply parses_zeros | apply parses_address | apply parses_reserved ]
        | cbv beta ]
    | eapply parses_last;
        [ first [ apply parses_octet | by apply parses_number | by apply parses_address ]
        | cbv beta ] ].

Lemma parses_map d : map_ok d → parses read_map (map_layout d) (received_map d).
Proof.
  intros (Hn & Hp & Hi & He & [a Ha]). unfold map_layout, received_map, received_address, leaked.
  rewrite Ha, (app_assoc (replicate 4 0)). cbn [pointer_layout from_option].
  unfold read_map. parse_fields.
Qed.

Lemma parses_member opcode u :
  member_ok opcode u → parses (read_member opcode) (member_layout u) (received_member u).
Proof.
  destruct u as [|d|d|i n]; cbn [member_ok member_layout received_member].
  - intros ->. apply parses_ret.
  - intros [-> Hd]. eapply parses_last; [by apply parses_map|]. apply parses_ret.
  - intros (-> & Hd & Hp & Hr & [a Ha]). unfold received_address. rewrite Ha.
    cbn [pointer_layout from_option].
    eapply parses_bind; [by apply parses_map|]. cbv beta.
    eapply parses_bind; [by apply parses_number|]. cbv beta.
    eapply parses_bind; [|parse_fields].
    eapply parses_last; [by apply parses_octets|].
    rewrite network_load by (done || apply le_bytes_byte). apply parses_ret.
  - intros (-> & Hi & Hn). unfold read_member. cbn -[be_bytes]. parse_fields.
Qed.

Lemma parses_option o :
  option_ok o → fixed o → parses (read_option allocates) (option_layout o) (received_option o).
Proof.
  destruct o as [c r l u]. unfold option_ok, fixed, option_layout, received_option.
  cbn [option_code option_reserved option_length option_member]. intros (_ & Hl & Hu) Hf.
  assert (parses (read_option_member allocates c l) (option_member_layout u)
            (received_option_member u)) as Hm.
  { destruct u; cbn in Hu, Hf; set_unfold in Hu; destruct_and?; destruct_or?; subst c; try done;
      unfold received_option_member, received_address;
      repeat match goal with Ha : is_Some ?a |- _ => destruct Ha as [? ->] end;
      cbn [option_member_layout pointer_layout from_option];
      unfold read_option_member; cbn -[app be_bytes]; parse_fields. }
  unfold read_option. do 2 (eapply parses_bind; [apply parses_octet|]; cbv beta).
  eapply parses_bind; [by apply parses_number|]. cbv beta.
  eapply parses_last; [exact Hm|]. apply parses_ret.
Qed.

(** the options, and what follows them *)
Lemma read_options_app os fuel s :
  Forall option_ok os → Forall fixed os →
  read_options allocates (length os + fuel) ((os ≫= option_layout) ++ s) =
    rest ← read_options allocates fuel s;
    Ok (option_map (app (received_option <$> os)) rest).
Proof.
  induction os as [|o os IH]; intros Ho Hf.
  - cbn. by destruct (read_options allocates fuel s) as [[]| |].
  - inv Ho. inv Hf. rewrite bind_cons, <- (assoc_L (++)).
    change (length (o :: os) + fuel)%nat with (S (length os + fuel)).
    assert (∀ f t, read_options allocates (S f) (option_layout o ++ t) =
      os ← read_options allocates f t; Ok (option_map (cons (received_option o)) os)) as ->.
    { intros f t. cbn [read_options]. rewrite parses_option by done. done. }
    rewrite IH by done. by destruct (read_options allocates fuel s) as [[]| |].
Qed.
Lemma option_layout_length o : (1 <= length (option_layout o))%nat.
Proof. unfold option_layout. cbn. lia. Qed.
Lemma options_layout_length os : (length os <= length (os ≫= option_layout))%nat.
Proof.
  induction os as [|o os IH]; [done|]. rewrite bind_cons, length_app.
  pose proof (option_layout_length o). cbn [length]. lia.
Qed.

Lemma parses_record v opcode r code life epoch u :
  member_ok opcode u → range 4 life → range 4 epoch →
  parses read_record (response_header v opcode r code life epoch ++ member_layout u)
    (MkPcpRecord v opcode r code life epoch 0 inet_any (received_member u)).
Proof.
  intros Hu Hl He. unfold response_header. rewrite <- !(assoc_L (++)).
  assert (Z.land (Z.lor opcode 0x80) 0x80 ≠ 0 ∧ Z.land (Z.lor opcode 0x80) 0x7F = opcode)
    as (H80 & H7F) by (destruct u; cbn in Hu; destruct_and?; subst; done).
  unfold read_record.
  do 2 (eapply parses_bind; [apply parses_octet|]; cbv beta). rewrite H7F.
  eapply parses_first; [apply parses_assert; by rewrite negb_true_iff, Z.eqb_neq|].
  cbv beta.
  do 2 (eapply parses_bind; [apply parses_octet|]; cbv beta).
  do 2 (eapply parses_bind; [by apply parses_number|]; cbv beta).
  eapply parses_bind; [apply parses_zeros|]. cbv beta.
  eapply parses_last; [by apply parses_member|]. apply parses_ret.
Qed.

(** a response, and what follows its options *)
Lemma parse_app v opcode r code life epoch u os s :
  member_ok opcode u → range 4 life → range 4 epoch → Forall option_ok os → Forall fixed os →
  ∃ fuel, (length s <= fuel)%nat ∧
  parse allocates (response_header v opcode r code life epoch ++ member_layout u ++
                   (os ≫= option_layout) ++ s) =
    rest ← read_options allocates fuel s;
    Ok (option_map (λ os', MkPcpRecord v opcode r code life epoch 0 inet_any
                             (received_member u) ((received_option <$> os) ++ os')) rest).
Proof.
  intros Hu Hl He Ho Hf. unfold parse. rewrite (assoc_L (++)), parses_record by done. cbn.
  pose proof (options_layout_length os) as Hlen.
  exists (length ((os ≫= option_layout) ++ s) - length os)%nat. rewrite length_app.
  split; [lia|].
  replace (length (os ≫= option_layout) + length s)%nat
    with (length os + (length (os ≫= option_layout) + length s - length os))%nat at 1 by lia.
  rewrite read_options_app by done. by destruct (read_options allocates _ s) as [[]| |].
Qed.
End ScannerLemmas.

(** ** Properties *)
Section Properties.
Context {A B : Type} `{InetAddr A} `{ByteOrder} `{WritableBlock B}.
Variable allocates : Z → bool.
Notation record := (PCP_Record A A (list Z)).

Lemma handleDataMessage_writes (r : record) (b : B) :
  little_endian = true → record_ok r → mb_bytes b = [] → PCP_MESSAGE_SIZE <= mb_space b →
  ∃ b' rest, handleDataMessage r b = Ok b' ∧ mb_bytes b' ++ rest = request_layout r ∧
    mb_space b' = mb_space b - (zlen (request_layout r) - zlen rest) ∧
    (zlen (request_layout r) <= mb_space b → rest = []).
Proof.
  intros Hle (Hv & Hc & Hl & Hu & Ho) Hb Hs. unfold handleDataMessage, block_length.
  rewrite Hb, (proj2 (Z.leb_le _ _) Hs). cbn [ace_assert zlen].
  destruct (writes_app _ _ _ _ (writes_header Hle r Hv Hc Hl (member_opcode _ _ Hu))
    (writes_app _ _ _ _ (writes_member Hle r Hu) (writes_options Hle _ Ho))) as (ds & -> & Hds).
  destruct (serialize_copies ds b) as (b' & rest & E & H').
  exists b', rest. rewrite Hb, Hds in H'. split; [exact E|exact H'].
Qed.

(** PCP_Module_Streamer_T::handleDataMessage on a little endian machine: a record whose
    numbers fit, whose union members are those of its codes and whose pointers are not NULL
    is written in the layout of RFC 6887, every number in network byte order, when the
    message has the room; when it has not, what is passed on is a proper prefix of it.  (The
    three reserved bytes of the opcode data are not zero, but bytes of the two ports.) *)
Theorem request_layout_written (r : record) (b : B) :
  little_endian = true → record_ok r → mb_bytes b = [] → PCP_MESSAGE_SIZE <= mb_space b →
  ∃ b', handleDataMessage r b = Ok b' ∧
    (zlen (request_layout r) <= mb_space b → mb_bytes b' = request_layout r) ∧
    (mb_space b < zlen (request_layout r) →
       mb_bytes b' `prefix_of` request_layout r ∧ mb_bytes b' ≠ request_layout r).
Proof.
  intros Hle Hr Hb Hs.
  destruct (handleDataMessage_writes r b Hle Hr Hb Hs) as (b' & rest & E & Hb' & Hs' & Hrest).
  exists b'. split_and!; [done| |].
  - intros Hroom. by rewrite <- Hb', (Hrest Hroom), app_nil_r.
  - intros Hroom. split; [by exists rest|]. intros Heq.
    assert (zlen rest = 0) as Hz.
    { rewrite Heq in Hb'. apply (f_equal zlen) in Hb'. rewrite zlen_app in Hb'. lia. }
    pose proof (mb_space_nonneg b'). lia.
Qed.

(** C19: a PCP server that answers with a header of its own and the opcode data and options
    of the request (as RFC 6887 prescribes for a success) is understood: PCP_ParserDriver
    reads what PCP_Module_Streamer_T has written, for each opcode and any list of options
    without arrays, except that an address of 16 octets is read as its last four, with the
    port next to it, and that the reserved octets are added to the protocol *)
Theorem response_roundtrip (r : record) (b : B) v res code life epoch :
  little_endian = true → record_ok r → Forall fixed (options r) → mb_bytes b = [] →
  PCP_MESSAGE_SIZE <= mb_space b → zlen (request_layout r) <= mb_space b →
  range 4 life → range 4 epoch →
  ∃ b', handleDataMessage r b = Ok b' ∧
    parse allocates (response_header v (opcode r) res code life epoch ++ drop 24 (mb_bytes b'))
    = Ok (Some (MkPcpRecord v (opcode r) res code life epoch 0 inet_any
                  (received_member (member r)) (received_option <$> options r))).
Proof.
  intros Hle Hr Hf Hb Hs Hroom Hl He.
  destruct (handleDataMessage_writes r b Hle Hr Hb Hs) as (b' & rest & E & Hb' & _ & Hrest).
  exists b'. split; [done|].
  rewrite <- (app_nil_r (mb_bytes b')), <- (Hrest Hroom), Hb'.
  destruct Hr as (_ & _ & _ & Hu & Ho). unfold request_layout.
  rewrite drop_app_length' by done.
  destruct (parse_app allocates v (opcode r) res code life epoch (member r) (options r) [])
    as (fuel & _ & Hp); [done..|].
  rewrite !app_nil_r in Hp. rewrite Hp.
  destruct fuel; cbn; by rewrite app_nil_r.
Qed.

(** the codes of the options with an array, and the octets in front of it *)
Definition array_offset (c : Z) : option nat :=
  if c =? PCP_OPTION_AUTHENTICATION_TAG then Some 12%nat
  else if c =? PCP_OPTION_PA_AUTHENTICATION_TAG then Some 4%nat
  else if (c =? PCP_OPTION_EAP_PAYLOAD) || (c =? PCP_OPTION_ID_INDICATOR) then Some 0%nat
  else None.

Lemma write_octets_overflow size i count acc s :
  i + Z.of_nat count = size + 1 → (0 < count)%nat → write_octets size i count acc s = Undef.
Proof.
  revert i acc s. induction count as [|count IH]; intros i acc s Hi Hc; [lia|]. cbn.
  destruct (size <=? i) eqn:E; [done|]. bool_lia. apply IH; lia.
Qed.
Lemma write_data_overflow size bs s : 0 <= size → write_data size bs s = Undef.
Proof.
  intros Hs. unfold write_data. destruct (size <=? 0) eqn:E; [done|]. bool_lia.
  apply write_octets_overflow; lia.
Qed.
Lemma read_data_overflow total d s :
  (∀ n, allocates n = true) → read_data allocates total (d :: s) = Undef.
Proof.
  intros Ha. unfold read_data, mbind, scan_bind. rewrite (parses_octets 0 [d] eq_refl s : _ (d :: s) = _).
  cbn. unfold scan_assert. rewrite Ha. cbn.
  rewrite write_data_overflow; [done|]. apply Z.mod_pos_bound. done.
Qed.

(** the fields in front of the array are read, then the array is written *)
Lemma read_option_array c x len pre d n s fuel :
  (∀ n, allocates n = true) → array_offset c = Some n → length pre = n → range 2 len →
  read_options allocates (S fuel) ([c; x] ++ be_bytes 2 len ++ pre ++ d :: s) = Undef.
Proof.
  intros Ha Hc Hp Hl.
  assert (read_option_member allocates c len (pre ++ d :: s) = Undef) as Hm.
  { unfold array_offset in Hc.
    destruct (c =? PCP_OPTION_AUTHENTICATION_TAG) eqn:E1; [|
    destruct (c =? PCP_OPTION_PA_AUTHENTICATION_TAG) eqn:E2; [|
    destruct (_ || _) eqn:E3; [apply orb_true_iff in E3 as [E3|E3]|done]]];
      bool_lia; subst c; injection Hc as <-;
      repeat (destruct pre as [|? pre]; try done);
      unfold read_option_member, number, mbind, scan_bind, mbind, outcome_bind;
      cbn -[read_data];
      by rewrite read_data_overflow. }
  assert (read_option allocates ([c; x] ++ be_bytes 2 len ++ pre ++ d :: s) = Undef) as Ho.
  { change ([c; x] ++ ?l) with ([c] ++ [x] ++ l). unfold read_option, mbind, scan_bind.
    rewrite (parses_octet c). cbn -[app be_bytes number].
    rewrite (parses_octet x). cbn -[app be_bytes number].
    rewrite (parses_number 1 len) by done. cbn -[app be_bytes number]. by rewrite Hm. }
  cbn [app read_options] in *. by rewrite Ho.
Qed.

(** Every option with an array (AUTHENTICATION_TAG, PA_AUTHENTICATION_TAG, EAP_PAYLOAD,
    ID_INDICATOR) that is received is written one octet behind its array, whatever its
    length is and whatever precedes and follows it *)
Theorem array_option_overflows v opcode r code life epoch u os c x len pre d n s :
  (∀ n, allocates n = true) →
  member_ok opcode u → range 4 life → range 4 epoch → Forall option_ok os → Forall fixed os →
  array_offset c = Some n → length pre = n → range 2 len →
  parse allocates (response_header v opcode r code life epoch ++ member_layout u ++
    (os ≫= option_layout) ++ [c; x] ++ be_bytes 2 len ++ pre ++ d :: s) = Undef.
Proof.
  intros Ha Hu Hl He Ho Hf Hc Hp Hlen.
  destruct (parse_app allocates v opcode r code life epoch u os
    ([c; x] ++ be_bytes 2 len ++ pre ++ d :: s)) as (fuel & Hfuel & ->); [done..|].
  destruct fuel as [|fuel]; [cbn in Hfuel; lia|].
  by rewrite (read_option_array c x len pre d n s fuel).
Qed.

(** the octets in front of each field of a response to a MAP request without options *)
Definition map_response_fields : list nat :=
  [0; 1; 2; 3; 4; 8; 12; 24; 36; 37; 40; 42; 44]%nat.

(** A response to a MAP request that is shorter than its 60 octets: when it ends with a
    field, the parser returns an error; when it ends within one, the scanner's rule for an
    octet that no other rule matches is reached, and its assertion fails *)
Theorem truncated_response bs n :
  length bs = 60%nat → bs !! 1%nat = Some 0x81 → (n < 60)%nat →
  parse allocates (take n bs) =
    if bool_decide (n ∈ map_response_fields) then Ok None else Abort.
Proof.
  intros Hlen Ho Hn.
  do 60 (destruct bs as [|? bs]; [done|]). destruct bs; [clear Hlen|done].
  cbn in Ho. injection Ho as ->.
  do 60 (destruct n as [|n]; [reflexivity|]). lia.
Qed.
End Properties.

(** ** Witnesses *)

(** a request for a mapping of TCP port 1000, for another host *)
Definition map_request : PCP_Record inet_addr inet_addr (list Z) :=
  MkPcpRecord 2 PCP_OPCODE_MAP 0 0 3600 0 0 (inet4 192 168 0 2 5351)
    (MapMember (MapData 0x1122334455667788 6 0 1000 2000 (Some (inet4 10 1 2 3 0))))
    [MkOption PCP_OPTION_THIRD_PARTY 0 16 (ThirdParty (Some (inet4 192 168 0 9 0)));
     MkOption PCP_OPTION_PREFER_FAILURE 0 0 NoOptionData].
Definition empty_message : list Z * N := ([], 1100%N).
Lemma map_request_ok : record_ok map_request.
Proof.
  repeat split; try done; try (by eexists).
  repeat constructor; try done; by eexists.
Qed.
Lemma map_request_fixed : Forall fixed (options map_request).
Proof. repeat constructor. Qed.

Lemma request_layout_written_witness :
  ∃ b' : list Z * N, handleDataMessage map_request empty_message = Ok b' ∧
    (zlen (request_layout map_request) <= mb_space empty_message → mb_bytes b' = request_layout map_request) ∧
    (mb_space empty_message < zlen (request_layout map_request) →
       mb_bytes b' `prefix_of` request_layout map_request ∧
       mb_bytes b' ≠ request_layout map_request).
Proof.
  apply (request_layout_written map_request empty_message); [done|apply map_request_ok|done..].
Defined.
Lemma response_roundtrip_witness :
  ∃ b' : list Z * N, handleDataMessage map_request empty_message = Ok b' ∧
    parse (λ _, true) (response_header 2 PCP_OPCODE_MAP 0 0 1800 77 ++ drop 24 (mb_bytes b'))
    = Ok (Some (MkPcpRecord 2 PCP_OPCODE_MAP 0 0 1800 77 0 inet_any
                  (received_member (member map_request))
                  (received_option <$> options map_request))).
Proof.
  apply (response_roundtrip (λ _, true) map_request empty_message 2 0 0 1800 77);
    [done|apply map_request_ok|apply map_request_fixed|done..].
Defined.
Lemma array_option_overflows_witness :
  parse (A := inet_addr) (λ _, true)
    (response_header 2 PCP_OPCODE_ANNOUNCE 0 0 0 0 ++ member_layout (A := inet_addr) NoOpcodeData ++
     (([] : list (PCPOption inet_addr (list Z))) ≫= option_layout) ++
     [PCP_OPTION_EAP_PAYLOAD; 0] ++ be_bytes 2 8 ++ [] ++ 1 :: [2; 3; 4; 5; 6; 7; 8]) = Undef.
Proof.
  apply (array_option_overflows (λ _, true) 2 PCP_OPCODE_ANNOUNCE 0 0 0 0 NoOpcodeData []
    PCP_OPTION_EAP_PAYLOAD 0 8 [] 1 0 [2; 3; 4; 5; 6; 7; 8]); done.
Defined.
Lemma truncated_response_witness :
  let bs := [2; 0x81] ++ replicate 58 0 in
  parse (A := inet_addr) (λ _, true) (take 38 bs) =
    if bool_decide (38%nat ∈ map_response_fields) then Ok None else Abort.
Proof.
  apply (truncated_response (λ _, true) ([2; 0x81] ++ replicate 58 0) 38);
    [reflexivity|reflexivity|lia].
Defined.
