(* ===== verification/PcpSession.v ===== *)
(** * The requests of a PCP session (protocol/pcp: pcp_session.inl, pcp_session.h,
      pcp_network.h, pcp_common.h)

    [PCP_Session_T] allocates a message, makes a record of it and sends it; the streamer
    of [PcpWire] then writes the record.  What the operations do to other objects is a list
    of effects. *)
From S2P Require Import Prelude MessageBlock ByteOrder InetAddr Wire PcpTools PcpWire.

Definition IPPROTO_TCP : Z := 6.

Section Session.
Context {A : Type} `{InetAddr A}.
Notation record := (PCP_Record A A (list Z)).

Record Configuration := MkConfiguration { messageAllocator : bool }.
(** [PCP_SessionState], without the address that is never used *)
Record PCP_SessionState := MkState { nonce : Z; timeStamp : Z }.
(** a connection has a number *)
Record PCP_Session := MkSession {
  configuration_ : option Configuration;
  connection_ : option Z;
  state_ : PCP_SessionState
}.
Inductive effect :=
  | Increase (connection : Z)
  | Release
  | Send (connection : Z) (r : record).

Definition new_session : PCP_Session := MkSession None None (MkState 0 0).

Definition initialize (configuration_in : Configuration) (connection_in : option Z)
    (s : PCP_Session) : outcome (PCP_Session * list effect) :=
  c ← (match connection_in with Some c => Ok c | None => Abort end);
  Ok (MkSession (Some configuration_in) (Some c) (state_ s), [Increase c]).

(** The checks, the allocation of the message (step 1), the address of the interface, and
    the sending, which all requests share: [r] is the record for an address, and [s'] is the
    session when it is sent.  The call returns when no message can be allocated. *)
Definition request (allocated : bool) (interfaceToIPAddress : option A)
    (r : A → record) (s s' : PCP_Session) : outcome (PCP_Session * list effect) :=
  c ← (match configuration_ s with Some c => Ok c | None => Abort end);
  ace_assert (messageAllocator c);;
  connection ← (match connection_ s with Some c => Ok c | None => Abort end);
  if negb allocated then Ok (s, [])
  else match interfaceToIPAddress with
       | None => Ok (s, [Release])
       | Some a => Ok (s', [Send connection (r a)])
       end.

(** [PCP_Record ()], with these fields assigned *)
Definition new_record (opcode lifetime : Z) (a : A) (u : opcode_data A) : record :=
  MkPcpRecord PCP_VERSION_2 opcode 0 PCP_RESULTCODE_INVALID lifetime 0 0 a u [].

Definition announce (allocated : bool) (interfaceToIPAddress : option A) (s : PCP_Session) :
    outcome (PCP_Session * list effect) :=
  request allocated interfaceToIPAddress
    (λ a, new_record PCP_OPCODE_ANNOUNCE 0 a NoOpcodeData) s s.

(** [garbage] is what is in the memory of a field that is not assigned; [rand] is what
    [ACE_OS::rand_r] returns. *)
Definition map_record (externalAddress_in internalAddress_in : A) (rand garbage : Z) :
    map_data A :=
  MapData (generateNonce rand) IPPROTO_TCP garbage (get_port_number internalAddress_in)
    (get_port_number externalAddress_in) (Some externalAddress_in).
Definition map (allocated : bool) (interfaceToIPAddress : option A)
    (externalAddress_in internalAddress_in : A) (rand garbage now : Z) (s : PCP_Session) :
    outcome (PCP_Session * list effect) :=
  let d := map_record externalAddress_in internalAddress_in rand garbage in
  request allocated interfaceToIPAddress
    (λ a, new_record PCP_OPCODE_MAP PCP_DEFAULT_MAP_LIFETIME_S a (MapMember d))
    s (MkSession (configuration_ s) (connection_ s) (MkState (map_nonce d) now)).

Definition peer (allocated : bool) (interfaceToIPAddress : option A)
    (externalAddress_in internalAddress_in remotePeerAddress_in : A)
    (rand garbage garbage_2 : Z) (s : PCP_Session) : outcome (PCP_Session * list effect) :=
  let d := map_record externalAddress_in internalAddress_in rand garbage in
  request allocated interfaceToIPAddress
    (λ a, new_record PCP_OPCODE_PEER PCP_DEFAULT_MAP_LIFETIME_S a
            (PeerMember (PeerData d (get_port_number remotePeerAddress_in) garbage_2
                           (Some remotePeerAddress_in)))) s s.

(** The opcode data is not assigned. *)
Definition authenticate (allocated : bool) (interfaceToIPAddress : option A) (rand : Z)
    (s : PCP_Session) : outcome (PCP_Session * list effect) :=
  request allocated interfaceToIPAddress
    (λ a, MkPcpRecord PCP_VERSION_2 PCP_OPCODE_AUTHENTICATION 0 PCP_RESULTCODE_INITIATION
            0 0 0 a NoOpcodeData
            [MkOption PCP_OPTION_NONCE 0 4 (Number (u32 (generateNonce rand)))]) s s.
End Session.
Arguments effect A : clear implicits.

(** [notify]: the response is released, and that is all *)
Definition notify {A} (record_inout : option (PCP_Record A Z Z)) (h : heap) :
    outcome (option (PCP_Record A Z Z) * heap) :=
  r ← (match record_inout with Some r => Ok r | None => Abort end);
  '(_, h') ← free r h; Ok (None, h').

(** ** Properties *)
Section Properties.
Context {A B : Type} `{InetAddr A} `{ByteOrder} `{WritableBlock B}.

(** a session that can send *)
Definition ready (s : PCP_Session) (connection : Z) : Prop :=
  (∃ c, configuration_ s = Some c ∧ messageAllocator c = true) ∧
  connection_ s = Some connection.

Lemma request_ready s c (r : A → PCP_Record A A (list Z)) a s' :
  ready s c → request true (Some a) r s s' = Ok (s', [Send c (r a)]).
Proof. intros [(k & Hk & Ha) Hc]. unfold request. by rewrite Hk, Hc; cbn; rewrite Ha. Qed.

(** C20: PCP_Session_T::map of a session that has been initialized, with a message and the
    address of the interface, on a little endian machine: the nonce of the request is kept
    in the state of the session, and the datagram that the streamer makes of the record is
    the 60 octets of a MAP request for one hour of the TCP port of the internal address, to
    the external address and its port, with 31 random bits in the 96 of the nonce *)
Theorem map_sends (s : PCP_Session) connection (b : B) (client external internal : A)
    rand garbage now :
  little_endian = true → ready s connection → 0 <= rand < 2 ^ 31 →
  range 2 (get_port_number external) → range 2 (get_port_number internal) →
  mb_bytes b = [] → PCP_MESSAGE_SIZE <= mb_space b →
  ∃ r s' b',
    map true (Some client) external internal rand garbage now s =
      Ok (s', [Send connection r]) ∧
    state_ s' = MkState rand now ∧ handleDataMessage r b = Ok b' ∧
    mb_bytes b' =
      [2; 1; 0; 0] ++ be_bytes 4 3600 ++ address_layout client ++
      replicate 8 0 ++ be_bytes 4 rand ++ [6] ++
      [get_port_number internal `mod` 256; get_port_number internal `div` 256;
       get_port_number external `mod` 256] ++
      be_bytes 2 (get_port_number internal) ++ be_bytes 2 (get_port_number external) ++
      address_layout external ∧
    zlen (mb_bytes b') = 60.
Proof.
  intros Hle Hs Hr He Hi Hb Hroom. unfold map. rewrite (request_ready _ _ _ _ _ Hs).
  assert (generateNonce rand = rand) as Hn by (apply Z.mod_small; lia).
  set (d := map_record external internal rand garbage).
  set (r := new_record PCP_OPCODE_MAP PCP_DEFAULT_MAP_LIFETIME_S client (MapMember d)).
  assert (record_ok r) as Hok.
  { unfold record_ok, r, d, new_record, map_record.
    cbn -[generateNonce]. rewrite Hn. unfold map_ok, range, byte in *. cbn in *.
    split_and!; (done || lia || by eexists). }
  assert (zlen (request_layout r) = 60) as Hlen by done.
  destruct (handleDataMessage_writes r b Hle Hok Hb Hroom) as (b' & rest & E & Hb' & _ & Hrest).
  rewrite Hrest, app_nil_r in Hb' by (unfold PCP_MESSAGE_SIZE in *; lia).
  eexists r, _, b'. 
  split_and!; [done|exact (f_equal (λ n, MkState n now) Hn)|done| |by rewrite Hb'].
  rewrite Hb'. unfold request_layout, r, d, new_record, map_record.
  cbn [member member_layout]. unfold map_layout. cbn [map_nonce].
  rewrite Hn, (be_bytes_pad 4 4); [reflexivity|].
  change (256 ^ Z.of_nat 4) with (2 ^ 32). lia.
Qed.

(** PCP_Session_T::authenticate sends a record whose opcode data has not been assigned:
    the streamer reads the session identifier and the sequence number from uninitialized
    memory *)
Theorem authenticate_uninitialized (s : PCP_Session) connection (b : B) (client : A) rand :
  little_endian = true → ready s connection → mb_bytes b = [] →
  PCP_MESSAGE_SIZE <= mb_space b →
  ∃ r, authenticate true (Some client) rand s = Ok (s, [Send connection r]) ∧
       handleDataMessage r b = Undef.
Proof.
  intros Hle Hs Hb Hroom. unfold authenticate. rewrite (request_ready _ _ _ _ _ Hs).
  eexists. split; [done|]. unfold handleDataMessage, block_length.
  rewrite Hb, (proj2 (Z.leb_le _ _) Hroom).
  match goal with |- context [serialize (header_steps ?r ++ _)] =>
    assert (writes (header_steps r) (header_layout r)) as (ds & -> & Hds)
  end.
  { by apply writes_header. }
  set (r := MkPcpRecord _ _ _ _ _ _ _ _ _ _) in *.
  change (member_steps r) with [Undef : step].
  destruct (serialize_app ds ([Undef] ++ (options r ≫= option_steps)) b) as (b' & _ & _ & E).
  - rewrite Hds. change (zlen (header_layout r)) with 24. unfold PCP_MESSAGE_SIZE in Hroom. lia.
  - change (serialize ((copy <$> ds) ++ [Undef] ++ (options r ≫= option_steps)) b = Undef).
    exact (eq_trans E eq_refl).
Qed.
End Properties.

(** ** Witnesses *)
Definition ready_session : PCP_Session :=
  MkSession (Some (MkConfiguration true)) (Some 4) (MkState 0 0).
Lemma ready_session_ready : ready ready_session 4.
Proof. split; [by eexists|done]. Qed.
Definition outside : inet_addr := inet4 10 1 2 3 2000.
Definition inside : inet_addr := inet4 192 168 0 2 1000.
Lemma map_sends_witness :
  ∃ r s' (b' : list Z * N),
    map true (Some inside) outside inside 123456789 77 5 ready_session =
      Ok (s', [Send 4 r]) ∧
    state_ s' = MkState 123456789 5 ∧ handleDataMessage r empty_message = Ok b' ∧
    mb_bytes b' =
      [2; 1; 0; 0] ++ be_bytes 4 3600 ++ address_layout inside ++
      replicate 8 0 ++ be_bytes 4 123456789 ++ [6] ++
      [get_port_number inside `mod` 256; get_port_number inside `div` 256;
       get_port_number outside `mod` 256] ++
      be_bytes 2 (get_port_number inside) ++ be_bytes 2 (get_port_number outside) ++
      address_layout outside ∧
    zlen (mb_bytes b') = 60.
Proof.
  apply (map_sends ready_session 4 empty_message inside outside inside 123456789 77 5);
    [done|apply ready_session_ready|done..].
Defined.
Lemma authenticate_uninitialized_witness :
  ∃ r, authenticate true (Some inside) 9 ready_session =
         Ok (ready_session, [Send 4 r]) ∧
       handleDataMessage r empty_message = Undef.
Proof.
  apply (authenticate_uninitialized ready_session 4 empty_message inside 9);
    [done|apply ready_session_ready|done..].
Defined.
