(* ===== verification/DhcpTools.v ===== *)
(** * The records of DHCP (protocol/dhcp: dhcp_common.h, dhcp_codes.h, dhcp_defines.h,
      dhcp_tools.cpp)

    A record of DHCP (RFC 2131), and the names and types of its options.  A [std::string] of
    a record is a list of bytes; the options are a [std::map], a list in the order of the
    tags. *)
From S2P Require Import Prelude Chars ByteOrder Decimal Regex InetAddr AddressTools.

(** ** Codes *)
Definition DHCP_OP_REQUEST : Z := 1.
Definition DHCP_OP_REPLY : Z := 2.
Definition DHCP_OP_INVALID : Z := 4.

Definition DHCP_MESSAGE_OFFER : Z := 2.
Definition DHCP_MESSAGE_REQUEST : Z := 3.

Definition DHCP_OPTION_DHCP_REQUESTEDIPADDRESS : Z := 50.
Definition DHCP_OPTION_DHCP_IPADDRESSLEASETIME : Z := 51.
Definition DHCP_OPTION_DHCP_MESSAGETYPE : Z := 53.
Definition DHCP_OPTION_DHCP_SERVERIDENTIFIER : Z := 54.

Definition DHCP_MESSAGE_SIZE : Z := 576.
Definition DHCP_FLAGS_BROADCAST : Z := 0x8000.
Definition DHCP_CHADDR_SIZE : nat := 16.
Definition DHCP_SNAME_SIZE : nat := 64.
Definition DHCP_FILE_SIZE : nat := 128.
Definition DHCP_MAGIC_COOKIE : Z := 0x63825363.
Definition DHCP_OPTIONS_SIZE : nat := 312.
Definition DHCP_OPTION_TAG_PAD : Z := 0.
Definition DHCP_OPTION_TAG_END : Z := 255.
Definition DHCP_FRAME_HTYPE : Z := 1.
Definition DHCP_FRAME_HLEN : Z := 6.

Inductive OptionFieldType :=
  | FIELDTYPE_ADDRESS | FIELDTYPE_COMMAND | FIELDTYPE_INTEGER | FIELDTYPE_STRING
  | FIELDTYPE_ADDRESSES | FIELDTYPE_LENGTH | FIELDTYPE_INVALID.

Definition OpToString (op_in : Z) : string :=
  switch op_in [(DHCP_OP_REQUEST, "BOOTREQUEST"); (DHCP_OP_REPLY, "BOOTREPLY")]
    "INVALID/UNKNOWN".

Definition OptionToString (option_in : Z) : string :=
  switch option_in
    [(1, "SUBNETMASK"); (2, "TIMEOFFSET"); (3, "GATEWAY"); (4, "TIMESERVER");
     (5, "IEN116NAMESERVER"); (6, "DOMAINNAMESERVER"); (7, "LOGSERVER");
     (8, "COOKIESERVER"); (9, "LPRSERVER"); (10, "IMPRESSSERVER"); (11, "RLPSERVER");
     (12, "HOSTNAME"); (13, "BOOTFILESIZE"); (14, "MERITDUMPFILE"); (15, "DOMAINNAME");
     (16, "SWAPSERVER"); (17, "ROOTPATH"); (26, "IP_MTU"); (28, "IP_BROADCASTADDRESS");
     (42, "DHCP_NTP_SERVER"); (43, "DHCP_VENDORSPECIFICINFORMATION");
     (51, "DHCP_IPADDRESSLEASETIME"); (53, "DHCP_MESSAGETYPE");
     (54, "DHCP_SERVERIDENTIFIER"); (58, "DHCP_RENEWALT1TIME");
     (59, "DHCP_REBINDINGT2TIME"); (60, "DHCP_VENDORCLASSIDENTIFIER"); (61, "DHCP_CLIENTIDENTIFIER");
     (62, "NETWAREIP_DOMAINNAME"); (63, "NETWAREIP_INFORMATION"); (64, "NISP_DOMAIN");
     (65, "NISP_SERVER"); (66, "TFTP_SERVER"); (67, "BOOTFILE"); (68, "MIP_HOMEAGENT");
     (69, "SMTP_SERVER"); (70, "POP3_SERVER"); (71, "NNTP_SERVER");
     (72, "WWW_DEFAULTSERVER"); (73, "FINGER_DEFAULTSERVER"); (74, "IRC_DEFAULTSERVER");
     (75, "STREETTALK_SERVER"); (76, "STREETTALK_DIRECTORYASSISTANCESERVER");
     (77, "USERCLASS"); (78, "SLP_DIRECTORYAGENT"); (79, "SLP_SERVICESCOPE");
     (80, "RAPIDCOMMIT"); (81, "CLIENTFQDN"); (82, "RELAYAGENTINFORMATION");
     (83, "ISNS_SERVER"); (85, "NDS_SERVER"); (86, "NDS_TREE"); (87, "NDS_CONTEXT");
     (88, "BCMCCS_DOMAINNAMELIST"); (89, "BCMCCS_IPADDRESS"); (90, "AUTHENTICATION");
     (91, "CLIENTLASTTRANSACTIONTIME"); (92, "CLIENTASSOCIATEDIP");
     (93, "IPXE_CLIENTSYSTEMARCHITECTURETYPE");
     (94, "IPXE_CLIENTNETWORKINTERFACEIDENTIFIER"); (97, "IPXE_CLIENTMACHINEIDENTIFIER");
     (121, "CLASSLESSROUTE"); (123, "GEOCONF"); (124, "VENDOR_CLASS");
     (125, "VENDOR_SPECIFIC_INFORMATION"); (158, "PCP_SERVER")]
    "INVALID/UNKNOWN".

Definition MessageTypeToString (type_in : Z) : string :=
  switch type_in
    [(1, "DISCOVER"); (2, "OFFER"); (3, "REQUEST"); (4, "DECLINE"); (5, "ACK"); (6, "NAK");
     (7, "RELEASE"); (8, "INFORM"); (9, "FORCERENEW"); (10, "LEASEQUERY");
     (11, "LEASEUNASSIGNED"); (12, "LEASEUNKNOWN"); (13, "LEASEACTIVE");
     (14, "BULKLEASEQUERY"); (15, "LEASEQUERYDONE"); (16, "ACTIVELEASEQUERY");
     (17, "LEASEQUERYSTATUS"); (18, "TLS")]
    "INVALID/UNKNOWN".

Definition OptionToFieldType (option_in : Z) : OptionFieldType :=
  switch option_in
    [(1, FIELDTYPE_ADDRESS); (3, FIELDTYPE_ADDRESS); (6, FIELDTYPE_ADDRESS);
     (28, FIELDTYPE_ADDRESS); (54, FIELDTYPE_ADDRESS); (42, FIELDTYPE_ADDRESS);
     (53, FIELDTYPE_COMMAND);
     (2, FIELDTYPE_INTEGER); (26, FIELDTYPE_INTEGER); (51, FIELDTYPE_INTEGER);
     (58, FIELDTYPE_INTEGER); (59, FIELDTYPE_INTEGER);
     (12, FIELDTYPE_STRING); (15, FIELDTYPE_STRING); (43, FIELDTYPE_STRING);
     (125, FIELDTYPE_LENGTH); (158, FIELDTYPE_ADDRESSES)]
    FIELDTYPE_INVALID.

(** ** Records *)
Record DHCP_Record := MkDhcpRecord {
  op : Z;
  htype : Z;
  hlen : Z;
  hops : Z;
  xid : Z;
  secs : Z;
  flags : Z;
  ciaddr : Z;
  yiaddr : Z;
  siaddr : Z;
  giaddr : Z;
  chaddr : list Z;
  sname : list Z;
  file : list Z;
  cookie : Z;
  options : list (Z * list Z)
}.

(** [DHCP_Record ()] *)
Definition new_record : DHCP_Record :=
  MkDhcpRecord DHCP_OP_INVALID 0 0 0 0 0 0 0 0 0 0 (replicate DHCP_CHADDR_SIZE 0) [] [] 0 [].

Definition set_options (r : DHCP_Record) (cookie_ : Z) (os : list (Z * list Z)) : DHCP_Record :=
  MkDhcpRecord (op r) (htype r) (hlen r) (hops r) (xid r) (secs r) (flags r) (ciaddr r)
    (yiaddr r) (siaddr r) (giaddr r) (chaddr r) (sname r) (file r) cookie_ os.

(** [options.find (tag)], and [options.insert (std::make_pair (tag, value))], which keeps
    what is there *)
Fixpoint find (tag : Z) (os : list (Z * list Z)) : option (list Z) :=
  match os with
  | [] => None
  | (t, v) :: os' => if t =? tag then Some v else find tag os'
  end.
Fixpoint insert_option (tag : Z) (value : list Z) (os : list (Z * list Z)) : list (Z * list Z) :=
  match os with
  | [] => [(tag, value)]
  | (t, v) :: os' =>
      if tag <? t then (tag, value) :: os
      else if t =? tag then os
      else (t, v) :: insert_option tag value os'
  end.

Definition isRequest (record_in : DHCP_Record) : bool := op record_in =? DHCP_OP_REQUEST.

(** the first byte of the option, that of the terminator when it is empty *)
Definition type (record_in : DHCP_Record) : outcome Z :=
  match find DHCP_OPTION_DHCP_MESSAGETYPE (options record_in) with
  | None => Abort
  | Some v => Ok (default 0 (head v))
  end.

(** the byte is a signed character *)
Definition MessageTypeToType (type_in : list Z) : outcome Z :=
  match type_in with
  | [b] => Ok (if b <? 128 then b else b - 256)
  | _ => Abort
  end.

Definition generateXID (rand_r : Z) : Z := u32 rand_r.

(** ** Printing a record *)

Definition tab : string := String "009" "".
Definition hex32 (n : Z) : string := hex_loop 8 (u32 n) "".

Section Dump.
Context {A : Type} `{InetAddr A} `{ByteOrder}.

(** a number of [n] bytes at [c_str () + i]: the terminator can be read, what is behind it
    cannot *)
Definition peek (n i : nat) (value : list Z) : outcome Z :=
  if (i + n <=? S (length value))%nat then Ok (load (take n (drop i (value ++ [0])))) else Undef.

Definition address_line (i : nat) (ip_address : Z) : outcome string :=
  s ← IPv4AddressToString (A := A) 0 ip_address;
  Ok (eol +:+ tab +:+ "#" +:+ pretty (Z.of_nat i + 1) +:+ ": " +:+ s).
(** [n] addresses from the offset [p] on, the first of them the number [i] *)
Fixpoint address_lines (n p i : nat) (value : list Z) : outcome string :=
  match n with
  | O => Ok ""
  | S n' =>
      ip_address ← peek 4 p value; s ← address_line i ip_address;
      t ← address_lines n' (p + 4) (S i) value; Ok (s +:+ t)
  end.

(** [next_list]: every turn advances the pointer, and what is behind the value is not
    read, so that the fuel is enough *)
Fixpoint next_list (fuel p : nat) (used_bytes : nat) (value : list Z) : outcome string :=
  match fuel with
  | O => Undef
  | S fuel' =>
      b ← peek 1 p value;
      let num_ip_addresses := Z.to_nat (b `div` 4) in
      s ← address_lines num_ip_addresses (S p) 0 value;
      let used_bytes := (used_bytes + num_ip_addresses * 4)%nat in
      if (used_bytes <? length value)%nat then
        t ← next_list fuel' (S p + num_ip_addresses * 4) used_bytes value; Ok (s +:+ t)
      else Ok s
  end.

Definition dump_address (value : list Z) : outcome string :=
  ace_assert (zlen value `mod` 4 =? 0);;
  ip_address ← peek 4 0 value;
  if zlen value =? 4 then IPv4AddressToString (A := A) 0 ip_address
  else address_lines (length value / 4) 0 0 value.
Definition dump_addresses (value : list Z) : outcome string :=
  ace_assert (5 <=? zlen value);;
  b ← peek 1 0 value;
  let num_ip_addresses := b `div` 4 in
  ace_assert (1 <=? num_ip_addresses);;
  ip_address ← peek 4 1 value;
  if num_ip_addresses =? 1 then IPv4AddressToString (A := A) 0 ip_address
  else next_list (S (S (length value))) 1 1 value.
Definition dump_integer (value : list Z) : outcome string :=
  match length value with
  | 1%nat => v ← peek 1 0 value; Ok (pretty v)
  | 2%nat => v ← peek 2 0 value; Ok (pretty (network 2 v))
  | 4%nat => v ← peek 4 0 value; Ok (pretty (network 4 v))
  | _ => Ok ""
  end.
Definition dump_value (option_type : Z) (value : list Z) : outcome string :=
  match OptionToFieldType option_type with
  | FIELDTYPE_ADDRESS => dump_address value
  | FIELDTYPE_COMMAND => Ok (MessageTypeToString (default 0 (head value)))
  | FIELDTYPE_STRING => Ok (quote +:+ bytes_string (c_string value) +:+ quote)
  | FIELDTYPE_INTEGER => dump_integer value
  | FIELDTYPE_ADDRESSES => dump_addresses value
  | FIELDTYPE_LENGTH | FIELDTYPE_INVALID => Ok ""
  end.
Fixpoint dump_options (os : list (Z * list Z)) : outcome string :=
  match os with
  | [] => Ok ""
  | (option_type, value) :: os' =>
      s ← dump_value option_type value; t ← dump_options os';
      Ok (OptionToString option_type +:+ " (" +:+ pretty option_type +:+ "): " +:+ tab +:+
          s +:+ eol +:+ t)
  end.

Definition line (name value : string) : string :=
  name +:+ ": " +:+ tab +:+ value +:+ eol.
Definition dump_header (r : DHCP_Record) : outcome string :=
  ci ← IPv4AddressToString (A := A) 0 (ciaddr r);
  yi ← IPv4AddressToString (A := A) 0 (yiaddr r);
  si ← IPv4AddressToString (A := A) 0 (siaddr r);
  gi ← IPv4AddressToString (A := A) 0 (giaddr r);
  ch ← LinkLayerAddressToString (chaddr r) NET_LINKLAYER_802_3;
  Ok (line "op" (OpToString (op r)) +:+ line "htype" (pretty (htype r)) +:+
      line "hlen" (pretty (hlen r)) +:+ line "hops" (pretty (hops r)) +:+
      line "xid" (pretty (xid r) +:+ " (0x" +:+ hex32 (xid r) +:+ ")") +:+
      line "secs" (pretty (secs r)) +:+ line "flags" ("0x" +:+ hex16 (flags r)) +:+
      line "ciaddr" ci +:+ line "yiaddr" yi +:+ line "siaddr" si +:+ line "giaddr" gi +:+
      line "chaddr" ch +:+ line "sname" (quote +:+ bytes_string (sname r) +:+ quote) +:+
      line "file" (quote +:+ bytes_string (file r) +:+ quote)).
Definition DHCP_dump (record_in : DHCP_Record) : outcome string :=
  h ← dump_header record_in; os ← dump_options (options record_in);
  Ok (h +:+ "options (" +:+ pretty (zlen (options record_in)) +:+ "):" +:+ eol +:+ os +:+
      "options /END" +:+ eol).
End Dump.

(** ** The options are a map *)
Definition tags_sorted (os : list (Z * list Z)) : Prop := StronglySorted Z.lt os.*1.

(** a tag above all others is put last *)
Lemma insert_option_last tag value os :
  Forall (λ t, t < tag) os.*1 → insert_option tag value os = os ++ [(tag, value)].
Proof.
  induction os as [|[t v] os IH]; intros Ht; cbn; [done|]. inv Ht.
  rewrite (proj2 (Z.ltb_ge _ _)), (proj2 (Z.eqb_neq _ _)) by lia. by rewrite IH.
Qed.

(** inserting the options of a map in their order gives that map *)
Lemma insert_options_sorted os acc :
  tags_sorted (acc ++ os) →
  foldl (λ m o, insert_option o.1 o.2 m) acc os = acc ++ os.
Proof.
  revert acc. induction os as [|[t v] os IH]; intros acc Hs; cbn; [by rewrite app_nil_r|].
  rewrite insert_option_last.
  - rewrite IH; by rewrite <- (assoc_L (++)).
  - unfold tags_sorted in Hs. rewrite fmap_app in Hs.
    apply Forall_forall. intros x Hx.
    eapply StronglySorted_app_1_elem_of; [exact Hs|exact Hx|left].
Qed.

(** inserting keeps the map *)
Lemma insert_option_Forall (P : Z * list Z → Prop) tag value os :
  P (tag, value) → Forall P os → Forall P (insert_option tag value os).
Proof.
  intros HP. induction 1 as [|[t v] os Hx Hos IH]; cbn; [by repeat constructor|].
  destruct (tag <? t); [by repeat constructor|]. destruct (t =? tag); by constructor.
Qed.
Lemma insert_option_sorted tag value os :
  tags_sorted os → tags_sorted (insert_option tag value os).
Proof.
  unfold tags_sorted. induction os as [|[t v] os IH]; intros Hs; cbn; [by repeat constructor|].
  cbn in Hs. inv Hs as [|? ? Hos Ht]. destruct (tag <? t) eqn:E1; bool_lia.
  - constructor; [by constructor|]. constructor; [done|].
    eapply Forall_impl; [exact Ht|]. cbn. intros; lia.
  - destruct (t =? tag) eqn:E2; bool_lia; [by constructor|]. cbn. constructor; [by apply IH|].
    apply Forall_fmap, insert_option_Forall; [cbn; lia|]. by apply (proj1 (Forall_fmap fst (Z.lt t) os)).
Qed.

(** ** When a record can be printed *)
Section DumpLemmas.
Context {A : Type} `{InetAddr A} `{ByteOrder}.

(** any number is printed as some address *)
Lemma IPv4AddressToString_Ok ip : ∃ s, IPv4AddressToString (A := A) 0 ip = Ok s.
Proof.
  unfold IPv4AddressToString, of_network.
  assert (length (memory 4 ip) = 4%nat) as Hl.
  { unfold memory. destruct little_endian; [apply length_le_bytes|apply length_be_bytes]. }
  assert (Forall byte (memory 4 ip)) as Hb.
  { unfold memory. destruct little_endian; [apply le_bytes_byte|apply be_bytes_byte]. }
  destruct (memory 4 ip) as [|a [|b [|c [|d [|]]]]]; try done.
  repeat (apply Forall_cons in Hb as [? Hb]).
  replace (be_value (memory 2 0)) with 0 by (unfold memory; by destruct little_endian).
  assert (octets a b c d) as Ho by done.
  rewrite addr_to_string_inet4 by (done || lia). cbn [Z.eqb].
  rewrite append_cons, append_nil.
  rewrite split_last_app by (apply digits_no_colon; by apply port_digits). by eexists.
Qed.

Lemma address_lines_Ok n p i value :
  (p + 4 * n <= S (length value))%nat → ∃ s, address_lines (A := A) n p i value = Ok s.
Proof.
  revert p i. induction n as [|n IH]; intros p i Hp; cbn [address_lines]; [by eexists|].
  unfold peek. rewrite (proj2 (Nat.leb_le _ _)) by lia. cbn [mbind outcome_bind].
  unfold address_line. destruct (IPv4AddressToString_Ok (load (take 4 (drop p (value ++ [0]))))) as (s & ->).
  cbn [mbind outcome_bind]. destruct (IH (p + 4)%nat (S i)) as (t & ->); [lia|]. by eexists.
Qed.

(** the addresses of an option: none, some, or no whole number of them *)
Lemma dump_address_spec value :
  match dump_address (A := A) value with
  | Ok _ => value ≠ [] ∧ zlen value `mod` 4 = 0
  | Abort => zlen value `mod` 4 ≠ 0
  | Undef => value = []
  end.
Proof.
  unfold dump_address. destruct (zlen value `mod` 4 =? 0) eqn:E; bool_lia; [|done].
  cbn [ace_assert mbind outcome_bind].
  unfold peek. destruct (decide (length value < 4)%nat) as [Hl|Hl].
  - assert (length value = 0%nat) as Hz.
    { unfold zlen in E. change 4 with (Z.of_nat 4) in E. rewrite <- Nat2Z.inj_mod in E.
      rewrite Nat.mod_small in E by lia. lia. }
    destruct value; done.
  - rewrite (proj2 (Nat.leb_le _ _)) by lia. cbn [mbind outcome_bind].
    assert (value ≠ []) as Hne by (by destruct value; cbn in Hl; [lia|]).
    destruct (zlen value =? 4).
    + by destruct (IPv4AddressToString_Ok (load (take 4 (drop 0 (value ++ [0]))))) as (s & ->).
    + destruct (address_lines_Ok (length value / 4) 0 0 value) as (s & ->); [|done].
      pose proof (Nat.mul_div_le (length value) 4). lia.
Qed.
Lemma dump_integer_Ok value : ∃ s, dump_integer value = Ok s.
Proof.
  unfold dump_integer, peek.
  destruct value as [|a [|b [|c [|d [|]]]]]; cbn; by eexists.
Qed.

Lemma address_lines_Undef n p i value :
  (S (length value) < p + 4 * n)%nat → n ≠ O → address_lines (A := A) n p i value = Undef.
Proof.
  revert p i. induction n as [|n IH]; intros p i Hp Hn; [done|]. cbn [address_lines].
  unfold peek. destruct (p + 4 <=? S (length value))%nat eqn:E; [|done].
  cbn [mbind outcome_bind]. unfold address_line.
  destruct (IPv4AddressToString_Ok (load (take 4 (drop p (value ++ [0]))))) as (s & ->).
  cbn [mbind outcome_bind]. apply Nat.leb_le in E. rewrite IH; [done|lia|lia].
Qed.

Lemma peek_octet i value b : value !! i = Some b → peek 1 i value = Ok b.
Proof.
  intros Hi. unfold peek. pose proof (lookup_lt_Some _ _ _ Hi).
  rewrite (proj2 (Nat.leb_le _ _)) by lia.
  rewrite (drop_S _ b) by (by apply lookup_app_l_Some). cbn [take]. rewrite take_0.
  unfold load. f_equal. destruct little_endian; cbn; lia.
Qed.

(** options whose values can be printed, but for the lists of addresses *)
Definition printable (o : Z * list Z) : Prop :=
  match OptionToFieldType o.1 with
  | FIELDTYPE_ADDRESS => o.2 ≠ [] ∧ zlen o.2 `mod` 4 = 0
  | FIELDTYPE_ADDRESSES => ∃ s, dump_addresses (A := A) o.2 = Ok s
  | _ => True
  end.

Lemma dump_value_Ok_iff o : (∃ s, dump_value (A := A) o.1 o.2 = Ok s) ↔ printable o.
Proof.
  unfold dump_value, printable.
  destruct (OptionToFieldType o.1); try (split; [done|by eexists]); try done.
  - pose proof (dump_address_spec o.2) as Hs. destruct (dump_address o.2).
    + split; [done|by eexists].
    + split; [by intros [? ?]|by intros [_ ?]].
    + split; [by intros [? ?]|by intros [? _]].
  - split; [done|]. intros _. apply dump_integer_Ok.
Qed.
Lemma dump_options_Ok_iff os :
  (∃ s, dump_options (A := A) os = Ok s) ↔ Forall printable os.
Proof.
  induction os as [|[t v] os IH]; cbn [dump_options]; [split; [constructor|by eexists]|].
  rewrite Forall_cons, <- IH, <- (dump_value_Ok_iff (t, v)). cbn [fst snd].
  destruct (dump_value t v), (dump_options os); cbn; naive_solver.
Qed.
Lemma dump_header_Ok r :
  length (chaddr r) = DHCP_CHADDR_SIZE → ∃ s, dump_header (A := A) r = Ok s.
Proof.
  intros Hc. unfold dump_header.
  destruct (IPv4AddressToString_Ok (ciaddr r)) as (? & ->).
  destruct (IPv4AddressToString_Ok (yiaddr r)) as (? & ->).
  destruct (IPv4AddressToString_Ok (siaddr r)) as (? & ->).
  destruct (IPv4AddressToString_Ok (giaddr r)) as (? & ->). cbn [mbind outcome_bind].
  destruct (chaddr r) as [|? [|? [|? [|? [|? [|? l]]]]]]; try done. by eexists.
Qed.
End DumpLemmas.

(** ** Properties *)
Section Properties.
Context {A : Type} `{InetAddr A} `{ByteOrder}.

(** DHCP_Tools::dump of a record whose hardware address has its 16 octets prints it
    exactly when every option that holds addresses has some, and no part of one, and the
    lists of the servers of PCP can be printed; it aborts or reads behind a value otherwise *)
Theorem DHCP_dump_ok_iff (r : DHCP_Record) (Hc : length (chaddr r) = DHCP_CHADDR_SIZE) :
  (∃ s, DHCP_dump (A := A) r = Ok s) ↔ Forall (printable (A := A)) (options r).
Proof.
  unfold DHCP_dump. destruct (dump_header_Ok (A := A) r Hc) as (h & ->).
  cbn [mbind outcome_bind]. rewrite <- dump_options_Ok_iff.
  destruct (dump_options (options r)); cbn; naive_solver.
Qed.

(** The lists of the servers of PCP (RFC 7291): one list with one address is printed; of
    one list with more addresses, the first octet of the first address is taken for the
    length of the list, so that memory behind the value is read when it counts more
    addresses than there are (any address from 192.0.0.0 on) *)
Theorem dump_servers (n : nat) (a : Z) (as_ : list Z) :
  length (a :: as_) = (4 * n)%nat → (1 <= n <= 63)%nat → Forall byte (a :: as_) →
  let value := Z.of_nat (4 * n) :: a :: as_ in
  (n = 1%nat → ∃ b c d, as_ = [b; c; d] ∧ dump_addresses (A := A) value = Ok (dotted a b c d)) ∧
  ((1 < n)%nat → Z.of_nat n < a `div` 4 → dump_addresses (A := A) value = Undef).
Proof.
  intros Hl Hn Hb value.
  assert (Z.of_nat (4 * n) `div` 4 = Z.of_nat n) as Hq.
  { clear. rewrite Nat2Z.inj_mul, Z.mul_comm. by apply Z.div_mul. }
  pose proof (peek_octet 0 value (Z.of_nat (4 * n)) eq_refl) as E0.
  pose proof (peek_octet 1 value a eq_refl) as E1.
  assert (5 <= zlen value) as H5 by (unfold zlen, value; cbn [length] in *; lia).
  unfold dump_addresses. rewrite (proj2 (Z.leb_le _ _) H5), E0.
  cbn [ace_assert mbind outcome_bind].
  rewrite Hq.
  rewrite (proj2 (Z.leb_le _ _)) by lia. cbn [ace_assert mbind outcome_bind].
  assert (peek 4 1 value = Ok (load (take 4 (a :: as_ ++ [0])))) as ->.
  { unfold peek. rewrite (proj2 (Nat.leb_le _ _)); [done|]. unfold zlen in H5. lia. }
  cbn [mbind outcome_bind]. split.
  - intros ->. destruct as_ as [|b [|c [|d [|]]]]; try done. exists b, c, d.
    repeat (apply Forall_cons in Hb as [? Hb]).
    split; [done|]. cbn [Z.of_nat Z.eqb Pos.eqb take app].
    by apply IPv4AddressToString_load.
  - intros H1 Ha. rewrite (proj2 (Z.eqb_neq _ _)) by lia. cbn [next_list].
    rewrite E1. cbn [mbind outcome_bind].
    rewrite address_lines_Undef; [done| |lia]. unfold value. cbn [length] in *. lia.
Qed.
End Properties.

Definition offered : DHCP_Record :=
  MkDhcpRecord DHCP_OP_REPLY 1 6 0 0x12345678 0 0 0 (le_value [192; 168; 0; 17]) 0 0
    (replicate 16 7) [] [] 0
    [(1, [255; 255; 255; 0]); (51, [0; 0; 14; 16]); (53, [2]); (54, [192; 168; 0; 1])].
Lemma DHCP_dump_ok_iff_witness :
  (∃ s, DHCP_dump (A := inet_addr) offered = Ok s) ↔
  Forall (printable (A := inet_addr)) (options offered).
Proof. apply DHCP_dump_ok_iff. reflexivity. Defined.
Lemma dump_servers_witness :
  (2%nat = 1%nat → ∃ b c d, [168; 0; 1; 192; 168; 0; 2] = [b; c; d] ∧
     dump_addresses (A := inet_addr) [8; 192; 168; 0; 1; 192; 168; 0; 2] = Ok (dotted 192 b c d)) ∧
  ((1 < 2)%nat → Z.of_nat 2 < 192 `div` 4 →
     dump_addresses (A := inet_addr) [8; 192; 168; 0; 1; 192; 168; 0; 2] = Undef).
Proof.
  apply (dump_servers 2 192 [168; 0; 1; 192; 168; 0; 2]); [reflexivity|lia|].
  by repeat (apply Forall_cons; split; [done|]).
Defined.
