(* ===== verification/DhcpWire.v ===== *)
(** * The messages of DHCP (protocol/dhcp: dhcp_module_streamer.inl, scripts/scanner.l,
      scripts/parser.y)

    The streamer that writes a record, and the rules and the grammar that read one.  The
    tokens are numbers in the byte order of the machine; the grammar swaps some of them. *)
From S2P Require Import Prelude MessageBlock Chars ByteOrder Wire DhcpTools.

(** ** The streamer *)
Section Streamer.
Context {B : Type} `{ByteOrder} `{WritableBlock B}.

(** a string in a buffer of zeros; [memcpy] behind the buffer is undefined *)
Definition copy_string (size : nat) (s : list Z) : step :=
  if Z.of_nat size <? zlen s then Undef
  else copy (s ++ replicate (size - length s) 0).

(** [memcpy (buffer_3 + offset, d, size)], the buffer as far as it has been written *)
Definition append (buffer d : list Z) : outcome (list Z) :=
  if Z.of_nat DHCP_OPTIONS_SIZE <? zlen (buffer ++ d) then Undef else Ok (buffer ++ d).
Fixpoint write_options (os : list (Z * list Z)) (buffer : list Z) : outcome (list Z) :=
  match os with
  | [] => Ok buffer
  | (tag, value) :: os' =>
      b ← append buffer [tag];
      ace_assert (zlen value <=? 255);;
      b ← append b [zlen value]; b ← append b value; write_options os' b
  end.
Definition copy_options (os : list (Z * list Z)) : step :=
  b ← append [] (memory 4 (network 4 DHCP_MAGIC_COOKIE));
  b ← write_options os b;
  b ← append b [DHCP_OPTION_TAG_END];
  copy (b ++ replicate (DHCP_OPTIONS_SIZE - length b) 0).

Definition header_steps (r : DHCP_Record) : list step :=
  [copy_enum (op r); copy [htype r]; copy [hlen r]; copy [hops r]; copy_number 4 (xid r);
   copy_number 2 (secs r); copy_number 2 (flags r); copy_number 4 (ciaddr r);
   copy_number 4 (yiaddr r); copy_number 4 (siaddr r); copy_number 4 (giaddr r);
   copy (chaddr r); copy_string DHCP_SNAME_SIZE (sname r);
   copy_string DHCP_FILE_SIZE (file r)].

Definition handleDataMessage (r : DHCP_Record) (message_inout : B) : outcome B :=
  ace_assert (block_length message_inout =? 0);;
  ace_assert (DHCP_MESSAGE_SIZE <=? mb_space message_inout);;
  serialize (header_steps r ++ [copy_options (options r)]) message_inout.
End Streamer.

(** ** The scanner and the parser *)

Section Scanner.
Context `{ByteOrder}.
(** the memory of the message behind the data *)
Variable behind : list Z.

(** the values of the tokens, that are asserted not to be zero *)
Definition raw (n : nat) : scan Z := bs ← octets_rule n; mret (load bs).
Definition nonzero (m : scan Z) : scan Z := v ← m; _ ← scan_assert (negb (v =? 0)); mret v.
Definition string_rule (n : nat) : scan (list Z) := bs ← octets_rule n; mret (c_string bs).

(** [header]; what [ACE_SWAP_WORD] yields is not assigned *)
Definition read_header : scan DHCP_Record :=
  op ← nonzero octet; htype ← nonzero octet; hlen ← nonzero octet; hops ← octet;
  xid ← nonzero (raw 4); secs ← raw 2; flags ← raw 2;
  ciaddr ← raw 4; yiaddr ← raw 4; siaddr ← raw 4; giaddr ← raw 4;
  chaddr ← octets_rule DHCP_CHADDR_SIZE; sname ← string_rule DHCP_SNAME_SIZE;
  file ← string_rule DHCP_FILE_SIZE;
  mret (MkDhcpRecord op htype hlen hops (network 4 xid) secs flags ciaddr yiaddr siaddr giaddr
          chaddr sname file 0 []).

(** [<option_length>]: the value is taken from the memory of the message, whether or not
    the data end before *)
Definition read_value : scan (list Z) :=
  size ← octet;
  (λ s, if zlen (s ++ behind) <? size then Undef
        else Ok (Some (take (Z.to_nat size) (s ++ behind), drop (Z.to_nat size) s))) : scan _.

(** [options], and the end of [message].  The tag [END] is accepted at once; the cookie is
    only stored and checked when the data end without one.  A tag at the end of the data
    is no option. *)
Fixpoint read_options (fuel : nat) (cookie_ : Z) (r : DHCP_Record)
    (os : list (Z * list Z)) (s : list Z) : outcome (option DHCP_Record) :=
  let finish :=
    ace_assert (cookie_ =? DHCP_MAGIC_COOKIE);; Ok (Some (set_options r cookie_ os)) in
  match s, fuel with
  | [], _ => finish
  | _, O => Ok None
  | tag :: s', S fuel' =>
      if tag =? DHCP_OPTION_TAG_END then Ok (Some (set_options r (cookie r) os))
      else if tag =? DHCP_OPTION_TAG_PAD then read_options fuel' cookie_ r os s'
      else
        match s' with
        | [] => finish
        | _ =>
            v ← read_value s';
            match v with
            | None => Ok None
            | Some (value, s'') =>
                read_options fuel' cookie_ r (insert_option tag value os) s''
            end
        end
  end.

(** [message] *)
Definition parse (s : list Z) : outcome (option DHCP_Record) :=
  h ← (r ← read_header; c ← nonzero (raw 4); mret (r, c) : scan _) s;
  match h with
  | None => Ok None
  | Some ((r, c), s') => read_options (length s') c r [] s'
  end.
End Scanner.

(** ** The layout of a message (RFC 2131) *)
Definition padded (size : nat) (s : list Z) : list Z := s ++ replicate (size - length s) 0.
Definition header_layout (r : DHCP_Record) : list Z :=
  [op r] ++ [htype r] ++ [hlen r] ++ [hops r] ++ be_bytes 4 (xid r) ++ be_bytes 2 (secs r) ++
  be_bytes 2 (flags r) ++ be_bytes 4 (ciaddr r) ++ be_bytes 4 (yiaddr r) ++
  be_bytes 4 (siaddr r) ++ be_bytes 4 (giaddr r) ++ chaddr r ++
  padded DHCP_SNAME_SIZE (sname r) ++ padded DHCP_FILE_SIZE (file r).
Definition option_layout (o : Z * list Z) : list Z := [o.1] ++ [zlen o.2] ++ o.2.
Definition options_layout (os : list (Z * list Z)) : list Z := os ≫= option_layout.
Definition message_layout (r : DHCP_Record) : list Z :=
  header_layout r ++
  padded DHCP_OPTIONS_SIZE (be_bytes 4 DHCP_MAGIC_COOKIE ++ options_layout (options r) ++
                            [DHCP_OPTION_TAG_END]).

Definition header_ok (r : DHCP_Record) : Prop :=
  byte (op r) ∧ range 4 (xid r) ∧ range 2 (secs r) ∧ range 2 (flags r) ∧
  range 4 (ciaddr r) ∧ range 4 (yiaddr r) ∧ range 4 (siaddr r) ∧ range 4 (giaddr r) ∧
  length (chaddr r) = DHCP_CHADDR_SIZE ∧ (length (sname r) <= DHCP_SNAME_SIZE)%nat ∧
  (length (file r) <= DHCP_FILE_SIZE)%nat.
(** the options fit with the cookie and the tag [END] *)
Definition options_fit (os : list (Z * list Z)) : Prop :=
  zlen (options_layout os) + 5 <= Z.of_nat DHCP_OPTIONS_SIZE.

(** a message that the scanner does not refuse: the first fields are not zero, and the tags
    are those of options *)
Definition fields_set (r : DHCP_Record) : Prop :=
  op r ≠ 0 ∧ htype r ≠ 0 ∧ hlen r ≠ 0 ∧ xid r ≠ 0.
Definition tags_ok (os : list (Z * list Z)) : Prop :=
  tags_sorted os ∧ Forall (λ o, 0 < o.1 < 255) os.

Lemma header_length r : header_ok r → length (header_layout r) = 236%nat.
Proof.
  intros (_ & _ & _ & _ & _ & _ & _ & _ & Hc & Hs & Hf). unfold header_layout, padded.
  rewrite !length_app, !length_be_bytes, !length_replicate, Hc. cbn [length].
  unfold DHCP_SNAME_SIZE, DHCP_FILE_SIZE, DHCP_CHADDR_SIZE in *. lia.
Qed.
Lemma options_layout_app os o : options_layout (o :: os) = option_layout o ++ options_layout os.
Proof. apply bind_cons. Qed.

Section StreamerLemmas.
Context {B : Type} `{ByteOrder} `{WritableBlock B}.

Lemma writes_string size s :
  (length s <= size)%nat → writes [copy_string size s] (padded size s).
Proof.
  intros Hs. unfold copy_string, zlen. rewrite (proj2 (Z.ltb_ge _ _)) by lia.
  apply writes_copy.
Qed.
Lemma writes_fields r :
  little_endian = true → header_ok r → writes (header_steps r) (header_layout r).
Proof.
  intros Hle (Hop & Hx & Hse & Hfl & Hc & Hy & Hsi & Hg & _ & Hs & Hf).
  unfold header_steps, header_layout.
  repeat (apply writes_cons; [first
    [by apply writes_enum | apply writes_copy | by apply writes_number | by apply writes_string]|]).
  by apply writes_string.
Qed.

(** the buffer of the options *)
Lemma append_spec b d :
  append b d = if zlen b + zlen d <=? Z.of_nat DHCP_OPTIONS_SIZE then Ok (b ++ d) else Undef.
Proof.
  unfold append. rewrite zlen_app. destruct (_ <? _) eqn:E1, (_ <=? _) eqn:E2; bool_lia; done.
Qed.
Lemma write_options_spec os b :
  Forall (λ o, zlen o.2 <= 255) os → zlen b <= Z.of_nat DHCP_OPTIONS_SIZE →
  write_options os b =
    if zlen b + zlen (options_layout os) <=? Z.of_nat DHCP_OPTIONS_SIZE
    then Ok (b ++ options_layout os) else Undef.
Proof.
  intros Hv. revert b. induction Hv as [|[t v] os Hv _ IH]; intros b Hb.
  - change (zlen (options_layout [])) with 0. rewrite Z.add_0_r, (proj2 (Z.leb_le _ _)) by done.
    by rewrite app_nil_r.
  - cbn [snd] in Hv. apply Z.leb_le in Hv.
    rewrite options_layout_app. unfold option_layout. cbn [fst snd].
    rewrite !zlen_app. pose proof (zlen_nonneg (options_layout os)). pose proof (zlen_nonneg v).
    change (zlen [t]) with 1. change (zlen [zlen v]) with 1.
    cbn [write_options]. rewrite Hv, !append_spec. change (zlen [t]) with 1.
    destruct (zlen b + 1 <=? _) eqn:E1; cbn [mbind outcome_bind ace_assert]; bool_lia;
      [|by rewrite (proj2 (Z.leb_gt _ _)) by lia].
    rewrite append_spec, zlen_app. change (zlen [_]) with 1.
    destruct (_ <=? _) eqn:E2; cbn [mbind outcome_bind]; bool_lia;
      [|by rewrite (proj2 (Z.leb_gt _ _)) by lia].
    rewrite append_spec, !zlen_app. change (zlen [_]) with 1.
    destruct (_ <=? _) eqn:E3; cbn [mbind outcome_bind]; bool_lia;
      [|by rewrite (proj2 (Z.leb_gt _ _)) by lia].
    rewrite IH; rewrite !zlen_app; change (zlen [_]) with 1; [|lia].
    rewrite <- !(assoc_L (++)).
    destruct (_ <=? _) eqn:E4; bool_lia;
      [by rewrite (proj2 (Z.leb_le _ _)) by lia|by rewrite (proj2 (Z.leb_gt _ _)) by lia].
Qed.
Lemma copy_options_spec os :
  Forall (λ o, zlen o.2 <= 255) os →
  copy_options os =
    if zlen (options_layout os) + 5 <=? Z.of_nat DHCP_OPTIONS_SIZE
    then copy (padded DHCP_OPTIONS_SIZE (be_bytes 4 DHCP_MAGIC_COOKIE ++ options_layout os ++
                                         [DHCP_OPTION_TAG_END]))
    else Undef.
Proof.
  intros Hv. unfold copy_options. rewrite memory_network by done.
  rewrite append_spec. change (zlen [] + zlen (be_bytes 4 DHCP_MAGIC_COOKIE)) with 4.
  change (4 <=? Z.of_nat DHCP_OPTIONS_SIZE) with true. cbn [mbind outcome_bind].
  rewrite write_options_spec; [|done|done].
  change (zlen ([] ++ be_bytes 4 DHCP_MAGIC_COOKIE)) with 4.
  pose proof (zlen_nonneg (options_layout os)).
  destruct (4 + zlen (options_layout os) <=? _) eqn:E1; cbn [mbind outcome_bind]; bool_lia;
    [|by rewrite (proj2 (Z.leb_gt _ _)) by lia].
  rewrite append_spec, !zlen_app. change (zlen (be_bytes 4 DHCP_MAGIC_COOKIE)) with 4.
  change (zlen []) with 0. change (zlen [DHCP_OPTION_TAG_END]) with 1.
  destruct (_ <=? _) eqn:E2; cbn [mbind outcome_bind]; bool_lia.
  - rewrite (proj2 (Z.leb_le _ _)) by lia. unfold padded. by rewrite <- !(assoc_L (++)).
  - by rewrite (proj2 (Z.leb_gt _ _)) by lia.
Qed.
End StreamerLemmas.

(** ** What is read back *)
Section ScannerLemmas.
Context `{ByteOrder}.
Variable behind : list Z.

(** the number that a machine finds in the bytes of a number in network byte order *)
Definition unswapped (n : nat) (z : Z) : Z := load (be_bytes n z).
Definition received (r : DHCP_Record) (cookie_ : Z) : DHCP_Record :=
  MkDhcpRecord (op r) (htype r) (hlen r) (hops r) (xid r) (unswapped 2 (secs r))
    (unswapped 2 (flags r)) (unswapped 4 (ciaddr r)) (unswapped 4 (yiaddr r))
    (unswapped 4 (siaddr r)) (unswapped 4 (giaddr r)) (chaddr r) (c_string (sname r))
    (c_string (file r)) cookie_ (options r).

Lemma memory_unswapped n z : memory n (unswapped n z) = be_bytes n z.
Proof.
  unfold unswapped. rewrite <- (length_be_bytes n z) at 1. apply memory_load, be_bytes_byte.
Qed.
Lemma unswapped_range n z : range n (unswapped n z).
Proof. unfold unswapped. rewrite <- (length_be_bytes n z) at 1. apply load_range, be_bytes_byte. Qed.
(** written as a number, the octets are reversed on a little endian machine *)
Lemma be_bytes_unswapped n z :
  little_endian = true → be_bytes n (unswapped n z) = rev (be_bytes n z).
Proof.
  intros Hle. unfold be_bytes at 1. f_equal. pose proof (memory_unswapped n z) as Hm.
  unfold memory in Hm. by rewrite Hle in Hm.
Qed.

Lemma c_string_padded size s : c_string (padded size s) = c_string s.
Proof.
  unfold padded. generalize (size - length s)%nat as k. intros k.
  induction s as [|b s IH]; cbn; [by destruct k|]. by rewrite IH.
Qed.

Lemma parses_raw n bs : length bs = S n → parses (raw (S n)) bs (load bs).
Proof. intros Hn. eapply parses_last; [by apply parses_octets|]. apply parses_ret. Qed.
Lemma parses_be n z : parses (raw (S n)) (be_bytes (S n) z) (unswapped (S n) z).
Proof. apply parses_raw, length_be_bytes. Qed.
Lemma parses_nonzero m bs v : v ≠ 0 → parses m bs v → parses (nonzero m) bs v.
Proof.
  intros Hv Hm. eapply parses_last; [exact Hm|].
  eapply parses_first; [apply parses_assert; by rewrite negb_true_iff, Z.eqb_neq|].
  apply parses_ret.
Qed.
Lemma parses_string n s :
  (length s <= S n)%nat → parses (string_rule (S n)) (padded (S n) s) (c_string s).
Proof.
  intros Hs. rewrite <- (c_string_padded (S n)).
  eapply parses_last; [apply parses_octets|apply parses_ret].
  unfold padded. rewrite length_app, length_replicate. lia.
Qed.

Lemma load_nonzero n z : range n z → load (be_bytes n z) = 0 → z = 0.
Proof.
  intros Hz Hl. rewrite <- (network_load_be n z Hz), Hl. unfold network.
  destruct little_endian; [|done]. rewrite swap_bytes_spec by (unfold range in Hz; lia).
  rewrite le_bytes_zeros, rev_replicate. apply le_value_zeros.
Qed.

Lemma parses_header r :
  header_ok r → fields_set r →
  parses read_header (header_layout r) (set_options (received r 0) 0 []).
Proof.
  intros (Hop & Hx & Hse & Hfl & Hc & Hy & Hsi & Hg & Hch & Hs & Hf) (Ho & Ht & Hl & Hxid).
  unfold read_header, header_layout.
  do 3 (eapply parses_bind; [apply parses_nonzero, parses_octet; done|]; cbv beta).
  eapply parses_bind; [apply parses_octet|]. cbv beta.
  eapply parses_bind; [apply parses_nonzero, parses_be|]; cbv beta.
  { intros E. by apply Hxid, (load_nonzero 4). }
  do 6 (eapply parses_bind; [apply parses_be|]; cbv beta).
  eapply parses_bind; [by apply parses_octets|]. cbv beta.
  eapply parses_bind; [by apply parses_string|]. cbv beta.
  eapply parses_last; [by apply parses_string|]. cbv beta.
  unfold unswapped at 1. rewrite network_load_be by done. apply parses_ret.
Qed.

Lemma parses_value v : zlen v <= 255 → parses (read_value behind) ([zlen v] ++ v) v.
Proof.
  intros Hv. eapply parses_bind; [apply parses_octet|]. intros s. cbn.
  rewrite !zlen_app. pose proof (zlen_nonneg s). pose proof (zlen_nonneg behind).
  rewrite (proj2 (Z.ltb_ge _ _)) by lia. unfold zlen. rewrite Nat2Z.id.
  by rewrite <- (assoc_L (++)), take_app_length, drop_app_length.
Qed.

(** the options, and what follows them *)
Lemma read_dhcp_options os fuel c r acc s :
  Forall (λ o, 0 < o.1 < 255 ∧ zlen o.2 <= 255) os →
  read_options behind (length os + fuel) c r acc (options_layout os ++ s) =
    read_options behind fuel c r (foldl (λ m o, insert_option o.1 o.2 m) acc os) s.
Proof.
  intros Ho. revert acc. induction Ho as [|[t v] os [Ht Hv] _ IH]; intros acc; [done|].
  cbn [fst snd] in *. rewrite options_layout_app, <- (assoc_L (++)).
  unfold option_layout. cbn [fst snd]. rewrite <- !(assoc_L (++)).
  change (length ((t, v) :: os) + fuel)%nat with (S (length os + fuel)).
  change ([t] ++ ?l) with (t :: l). cbn [read_options].
  rewrite (proj2 (Z.eqb_neq t _)), (proj2 (Z.eqb_neq t _))
    by (unfold DHCP_OPTION_TAG_END, DHCP_OPTION_TAG_PAD; lia).
  change ([zlen v] ++ v ++ options_layout os ++ s)
    with (zlen v :: (v ++ options_layout os ++ s)) at 1. cbn iota.
  rewrite (assoc_L (++) [zlen v]), parses_value by done. cbn [mbind outcome_bind].
  by rewrite IH.
Qed.
Lemma options_length os : (length os <= length (options_layout os))%nat.
Proof.
  induction os as [|o os IH]; [done|]. rewrite options_layout_app, length_app.
  unfold option_layout. cbn. lia.
Qed.

(** a message with a cookie, whatever it is, and what follows its options *)
Lemma parse_message r c s :
  header_ok r → fields_set r → tags_ok (options r) →
  Forall (λ o, zlen o.2 <= 255) (options r) → length c = 4%nat → load c ≠ 0 →
  ∃ fuel, (length s <= fuel)%nat ∧
  parse behind (header_layout r ++ c ++ options_layout (options r) ++ s) =
    read_options behind fuel (load c) (set_options (received r 0) 0 []) (options r) s.
Proof.
  intros Hh Hn [Hs Ht] Hv Hc Hl.
  exists (length (options_layout (options r) ++ s) - length (options r))%nat.
  pose proof (options_length (options r)) as Hlen. rewrite length_app. split; [lia|].
  unfold parse. rewrite (assoc_L (++)).
  assert (parses (r ← read_header; c ← nonzero (raw 4); mret (r, c) : scan _)
    (header_layout r ++ c) (set_options (received r 0) 0 [], load c)) as Hp.
  { eapply parses_bind; [by apply parses_header|]. cbv beta.
    eapply parses_last; [apply parses_nonzero, parses_raw; done|]. apply parses_ret. }
  rewrite Hp. cbn [mbind outcome_bind]. rewrite length_app.
  replace (length (options_layout (options r)) + length s)%nat
    with (length (options r) + (length (options_layout (options r)) + length s
          - length (options r)))%nat at 1 by lia.
  rewrite read_dhcp_options.
  - by rewrite (insert_options_sorted (options r) []).
  - apply Forall_and. by split.
Qed.
End ScannerLemmas.

(** ** What can be read *)
Section Types.
Context `{ByteOrder}.
Variable behind : list Z.

Lemma yields_raw n : yields (raw n) (range n).
Proof.
  eapply yields_bind; [apply yields_octets|]. intros bs [Hbs <-]. by apply yields_ret, load_range.
Qed.
Lemma yields_nonzero m P : yields m P → yields (nonzero m) (λ v, P v ∧ v ≠ 0).
Proof.
  intros Hm. eapply yields_bind; [exact Hm|]. intros v Hv.
  eapply yields_bind; [apply yields_assert|]. intros ? Hn. apply yields_ret.
  by apply negb_true_iff, Z.eqb_neq in Hn.
Qed.
Lemma c_string_length bs : (length (c_string bs) <= length bs)%nat.
Proof. induction bs as [|b bs IH]; cbn; [lia|]. destruct (b =? 0); cbn; lia. Qed.
Lemma yields_string n : yields (string_rule n) (λ s, (length s <= n)%nat).
Proof.
  eapply yields_bind; [apply yields_octets|]. intros bs [_ <-].
  apply yields_ret, c_string_length.
Qed.
Lemma network_range n z : range n z → range n (network n z).
Proof.
  intros Hz. unfold network. destruct little_endian; [|done].
  rewrite swap_bytes_spec by done.
  pose proof (le_value_range (rev (le_bytes n z)) (Forall_rev (le_bytes_byte n z))) as Hr.
  unfold zlen in Hr. by rewrite length_rev, length_le_bytes in Hr.
Qed.
Lemma network_nonzero n z : range n z → z ≠ 0 → network n z ≠ 0.
Proof.
  intros Hz Hn E. apply Hn. rewrite <- (be_value_bytes n z Hz), <- (memory_network n z Hz), E.
  unfold memory, be_value, be_bytes.
  destruct little_endian; rewrite le_bytes_zeros, !rev_replicate; apply le_value_zeros.
Qed.

(** a record whose header can be written, without options *)
Lemma yields_header :
  yields read_header (λ r, header_ok r ∧ fields_set r ∧ options r = []).
Proof.
  unfold read_header.
  eapply yields_bind; [apply yields_nonzero, yields_octet|]; intros op [Hop ?].
  eapply yields_bind; [apply yields_nonzero, yields_octet|]; intros ht [_ ?].
  eapply yields_bind; [apply yields_nonzero, yields_octet|]; intros hl [_ ?].
  eapply yields_bind; [apply yields_octet|]; intros ho _.
  eapply yields_bind; [apply yields_nonzero, yields_raw|]; intros x [Hx ?].
  do 6 (eapply yields_bind; [apply yields_raw|]; intros ? ?).
  eapply yields_bind; [apply yields_octets|]; intros ch [_ Hch].
  eapply yields_bind; [apply yields_string|]; intros sn Hsn.
  eapply yields_bind; [apply yields_string|]; intros fi Hfi.
  apply yields_ret. split; [|split]; [|by split_and!; try apply network_nonzero|done].
  unfold header_ok. by split_and!; try apply network_range.
Qed.

(** the options that have been read *)
Definition options_ok (os : list (Z * list Z)) : Prop :=
  tags_ok os ∧ Forall (λ o, Forall byte o.2 ∧ zlen o.2 <= 255) os.
Lemma insert_option_ok tag value os :
  options_ok os → 0 < tag < 255 → Forall byte value → zlen value <= 255 →
  options_ok (insert_option tag value os).
Proof.
  intros [[Hs Ht] Hv] Htag Hb Hl. unfold options_ok, tags_ok.
  split; [split; [by apply insert_option_sorted|]|]; apply insert_option_Forall; try done.
Qed.

Lemma yields_value :
  Forall byte behind → yields (read_value behind) (λ v, Forall byte v ∧ zlen v <= 255).
Proof.
  intros Hbe. eapply yields_bind; [apply yields_octet|]. intros size Hsize s v s' Hs E.
  cbn in E. destruct (zlen (s ++ behind) <? size); inv E. unfold byte in Hsize.
  split_and!; [apply Forall_take, Forall_app; by split| |by apply Forall_drop].
  unfold zlen. rewrite length_take. lia.
Qed.

Lemma read_options_ok fuel c r os s r' :
  Forall byte behind → Forall byte s → options_ok os →
  read_options behind fuel c r os s = Ok (Some r') →
  ∃ c' os', r' = set_options r c' os' ∧ options_ok os'.
Proof.
  intros Hbe. revert os s. induction fuel as [|fuel IH]; intros os s Hs Ho E.
  - destruct s; [|done]. cbn in E. destruct (c =? _); inv E. by eexists _, _.
  - destruct s as [|tag s']; cbn [read_options] in E.
    { destruct (c =? _); inv E. by eexists _, _. }
    apply Forall_cons in Hs as [Htag Hs']. unfold byte in Htag.
    destruct (tag =? DHCP_OPTION_TAG_END) eqn:E1; [inv E; by eexists _, _|].
    destruct (tag =? DHCP_OPTION_TAG_PAD) eqn:E2; [by eapply IH|]. bool_lia.
    unfold DHCP_OPTION_TAG_END, DHCP_OPTION_TAG_PAD in *.
    destruct s' as [|b s']. { destruct (c =? _); inv E. by eexists _, _. }
    destruct (read_value behind (b :: s')) as [[[v s'']|]| |] eqn:Ev; try done.
    destruct (yields_value Hbe _ _ _ Hs' Ev) as ((Hv & Hl) & Hs''). cbn in E.
    eapply IH; [| |exact E]; [done|]. apply insert_option_ok; try done. lia.
Qed.

(** C38: whatever octets of a datagram the scanner and the parser of DHCP accept, the record
    is well formed: its numbers have their widths, its strings fit their fields, the fields
    that are asserted are not 0, and its options are a map of tags other than those of the
    padding and the end to values of up to 255 octets, so that the streamer can write it
    again when the options fit *)
Theorem parse_well_formed (s : list Z) (r : DHCP_Record) :
  Forall byte behind → Forall byte s → parse behind s = Ok (Some r) →
  header_ok r ∧ fields_set r ∧ options_ok (options r).
Proof.
  intros Hbe Hs E. unfold parse in E.
  apply bind_Ok in E as ([[[r0 c] s']|] & Eh & E); [|done].
  assert (yields (r ← read_header; c ← nonzero (raw 4); mret (r, c) : scan _)
    (λ rc, header_ok rc.1 ∧ fields_set rc.1 ∧ options rc.1 = [])) as Hy.
  { eapply yields_bind; [apply yields_header|]. intros r1 Hr1.
    eapply yields_bind; [apply yields_nonzero, yields_raw|]. intros c1 _. by apply yields_ret. }
  destruct (Hy _ _ _ Hs Eh) as [(Hh & Hf & _) Hs'].
  apply read_options_ok in E as (c' & os' & -> & Ho); [|done|done|].
  - done.
  - by split; [split; constructor|constructor].
Qed.
End Types.

(** ** Properties *)
Section Properties.
Context {B : Type} `{ByteOrder} `{WritableBlock B}.
Variable behind : list Z.

Lemma handleDataMessage_options (r : DHCP_Record) (b : B) :
  little_endian = true → header_ok r → mb_bytes b = [] → DHCP_MESSAGE_SIZE <= mb_space b →
  ∃ b1, mb_bytes b1 = header_layout r ∧ mb_space b1 = mb_space b - 236 ∧
        handleDataMessage r b = serialize [copy_options (options r)] b1.
Proof.
  intros Hle Hh Hb Hs. unfold handleDataMessage, block_length.
  rewrite Hb, (proj2 (Z.leb_le _ _) Hs).
  destruct (writes_fields r Hle Hh) as (ds & -> & Hds).
  assert (zlen (concat ds) = 236) as Hl.
  { rewrite Hds. unfold zlen. by rewrite header_length. }
  unfold DHCP_MESSAGE_SIZE in Hs.
  destruct (serialize_app ds [copy_options (options r)] b) as (b1 & Hb1 & Hs1 & E); [lia|].
  exists b1. rewrite Hb1, Hb, Hds, Hs1, Hl. split_and!; [done..|exact E].
Qed.

Lemma message_layout_written (r : DHCP_Record) (b : B) :
  little_endian = true → header_ok r → Forall (λ o, zlen o.2 <= 255) (options r) →
  mb_bytes b = [] → DHCP_MESSAGE_SIZE <= mb_space b → options_fit (options r) →
  ∃ b', handleDataMessage r b = Ok b' ∧ mb_bytes b' = message_layout r ∧
        zlen (mb_bytes b') = 548.
Proof.
  intros Hle Hh Hv Hb Hs Hfit.
  destruct (handleDataMessage_options r b Hle Hh Hb Hs) as (b1 & Hb1 & Hs1 & ->).
  rewrite copy_options_spec by done. unfold options_fit in Hfit.
  rewrite (proj2 (Z.leb_le _ _) Hfit).
  set (d := padded _ _).
  assert (zlen d = 312) as Hd.
  { unfold d, padded, zlen. rewrite length_app, length_replicate.
    unfold zlen in Hfit. rewrite !length_app, length_be_bytes. cbn [length].
    unfold DHCP_OPTIONS_SIZE in *. lia. }
  destruct (serialize_copies [d] b1) as (b' & rest & E & Hb' & _ & Hrest).
  cbn [concat] in *. rewrite app_nil_r in *.
  unfold DHCP_MESSAGE_SIZE in Hs. rewrite Hrest, app_nil_r in Hb' by lia.
  exists b'. rewrite Hb', Hb1. split_and!; [exact E|done|].
  rewrite zlen_app, Hd. unfold zlen. by rewrite header_length.
Qed.

(** C23: DHCP_Module_Streamer_T::handleDataMessage on a little endian machine: a record whose
    fields have their sizes is written as the 548 octets of a message of RFC 2131, with its
    options (of up to 255 octets each) in the order of their tags, when they fit into 312
    octets with the cookie and the end; when they do not, the buffer of the options
    overflows *)
Theorem message_written (r : DHCP_Record) (b : B) :
  little_endian = true → header_ok r → Forall (λ o, zlen o.2 <= 255) (options r) →
  mb_bytes b = [] → DHCP_MESSAGE_SIZE <= mb_space b →
  (options_fit (options r) →
     ∃ b', handleDataMessage r b = Ok b' ∧ mb_bytes b' = message_layout r ∧
           zlen (mb_bytes b') = 548) ∧
  (¬ options_fit (options r) → handleDataMessage r b = Undef).
Proof.
  intros Hle Hh Hv Hb Hs. split; intros Hfit; [by apply message_layout_written|].
  destruct (handleDataMessage_options r b Hle Hh Hb Hs) as (b1 & _ & _ & ->).
  rewrite copy_options_spec by done. unfold options_fit in Hfit.
  by rewrite (proj2 (Z.leb_gt _ _)) by lia.
Qed.

(** the options of a message, up to the tag [END] *)
Lemma read_options_end fuel c r os s :
  fuel ≠ O → read_options behind fuel c r os (DHCP_OPTION_TAG_END :: s) =
             Ok (Some (set_options r (cookie r) os)).
Proof. by destruct fuel. Qed.
Lemma set_received (r : DHCP_Record) :
  set_options (set_options (received r 0) 0 []) (cookie (set_options (received r 0) 0 []))
    (options r) = received r 0.
Proof. by destruct r. Qed.

Lemma parse_written (r : DHCP_Record) (b : B) :
  little_endian = true → header_ok r → fields_set r → tags_ok (options r) →
  Forall (λ o, zlen o.2 <= 255) (options r) → options_fit (options r) →
  mb_bytes b = [] → DHCP_MESSAGE_SIZE <= mb_space b →
  ∃ b', handleDataMessage r b = Ok b' ∧
        parse behind (mb_bytes b') = Ok (Some (received r 0)).
Proof.
  intros Hle Hh Hn Ht Hv Hfit Hb Hs.
  destruct (message_layout_written r b) as (b' & E & Hb' & _); try done.
  exists b'. split; [exact E|]. rewrite Hb'. unfold message_layout, padded.
  rewrite <- !(assoc_L (++)).
  destruct (parse_message behind r (be_bytes 4 DHCP_MAGIC_COOKIE)
    ([DHCP_OPTION_TAG_END] ++ replicate (DHCP_OPTIONS_SIZE - length (be_bytes 4
       DHCP_MAGIC_COOKIE ++ options_layout (options r) ++ [DHCP_OPTION_TAG_END])) 0))
    as (fuel & Hf & ->); try done.
  { intros E0. apply load_nonzero in E0; done. }
  cbn [app] in *. rewrite read_options_end; [|cbn in Hf; lia]. by rewrite set_received.
Qed.

(** C22: what DHCP_Module_Streamer_T writes, the scanner and the parser of DHCP read back: all
    fields and options, when the operation, the types and the transaction are not 0; but the
    strings end with their first zero, and the seconds, the flags and the addresses are left
    as they are in memory, in network byte order *)
Theorem dhcp_roundtrip (r : DHCP_Record) (b : B) :
  little_endian = true → header_ok r → fields_set r → tags_ok (options r) →
  Forall (λ o, zlen o.2 <= 255) (options r) → options_fit (options r) →
  mb_bytes b = [] → DHCP_MESSAGE_SIZE <= mb_space b →
  ∃ b', handleDataMessage r b = Ok b' ∧
        parse behind (mb_bytes b') = Ok (Some (received r 0)).
Proof. intros. by apply parse_written. Qed.

(** What is sent without the tag [END] is not read like what is sent with it: with the
    tag, a message is accepted whatever its cookie (but 0), and without it, at the end of the
    options, the value of the cookie in memory is compared, which fails the assertion on a
    little endian machine for the cookie of RFC 2131 *)
Theorem cookie_unchecked (r : DHCP_Record) (c s : list Z) :
  little_endian = true → header_ok r → fields_set r → tags_ok (options r) →
  Forall (λ o, zlen o.2 <= 255) (options r) → length c = 4%nat → load c ≠ 0 →
  parse behind (header_layout r ++ c ++ options_layout (options r) ++
                [DHCP_OPTION_TAG_END] ++ s) = Ok (Some (received r 0)) ∧
  parse behind (header_layout r ++ be_bytes 4 DHCP_MAGIC_COOKIE ++
                options_layout (options r)) = Abort.
Proof.
  intros Hle Hh Hn Ht Hv Hc Hl. split.
  - destruct (parse_message behind r c ([DHCP_OPTION_TAG_END] ++ s)) as (fuel & Hf & ->); try done.
    cbn [app] in *. rewrite read_options_end; [|cbn in Hf; lia]. by rewrite set_received.
  - destruct (parse_message behind r (be_bytes 4 DHCP_MAGIC_COOKIE) []) as (fuel & _ & E);
      try done.
    { intros E0. apply load_nonzero in E0; done. }
    rewrite app_nil_r in E. rewrite E.
    unfold load. rewrite Hle. by destruct fuel.
Qed.
End Properties.

Definition an_offer : DHCP_Record :=
  MkDhcpRecord DHCP_OP_REPLY 1 6 0 0x12345678 3 0 0 0xC0A80011 0 0 (replicate 16 7) [] [] 0
    [(1, [255; 255; 255; 0]); (51, [0; 0; 14; 16]); (53, [2]); (54, [192; 168; 0; 1])].
Definition empty_datagram : list Z * N := ([], 576%N).
Lemma an_offer_ok :
  header_ok an_offer ∧ fields_set an_offer ∧ tags_ok (options an_offer) ∧
  Forall (λ o, zlen o.2 <= 255) (options an_offer) ∧ options_fit (options an_offer).
Proof.
  split_and!; try done.
  - unfold header_ok. cbn -[range]. split_and!; try done; lia.
  - split; [|by repeat (apply Forall_cons; split; [done|])].
    unfold tags_sorted. cbn.
    repeat (apply SSorted_cons || apply SSorted_nil || apply Forall_cons; try split); done.
  - by repeat (apply Forall_cons; split; [done|]).
Qed.

Lemma message_written_witness :
  (options_fit (options an_offer) →
     ∃ b' : list Z * N, handleDataMessage an_offer empty_datagram = Ok b' ∧
           mb_bytes b' = message_layout an_offer ∧ zlen (mb_bytes b') = 548) ∧
  (¬ options_fit (options an_offer) → handleDataMessage an_offer empty_datagram = Undef).
Proof. apply (message_written an_offer empty_datagram); try done; apply an_offer_ok. Defined.
Lemma dhcp_roundtrip_witness :
  ∃ b' : list Z * N, handleDataMessage an_offer empty_datagram = Ok b' ∧
    parse [] (mb_bytes b') = Ok (Some (received an_offer 0)).
Proof. apply (dhcp_roundtrip [] an_offer empty_datagram); try done; apply an_offer_ok. Defined.
Lemma cookie_unchecked_witness :
  parse [] (header_layout an_offer ++ [1; 2; 3; 4] ++ options_layout (options an_offer) ++
            [DHCP_OPTION_TAG_END] ++ []) = Ok (Some (received an_offer 0)) ∧
  parse [] (header_layout an_offer ++ be_bytes 4 DHCP_MAGIC_COOKIE ++
            options_layout (options an_offer)) = Abort.
Proof. apply (cookie_unchecked [] an_offer [1; 2; 3; 4] []); try done; apply an_offer_ok. Defined.

Lemma parse_well_formed_witness :
  let s := header_layout an_offer ++ be_bytes 4 DHCP_MAGIC_COOKIE ++
           options_layout (options an_offer) ++ [DHCP_OPTION_TAG_END] in
  let r := received an_offer 0 in
  parse [] s = Ok (Some r) ∧ header_ok r ∧ fields_set r ∧ options_ok (options r).
Proof.
  intros s r. assert (parse [] s = Ok (Some r)) as E by (vm_compute; reflexivity).
  split; [exact E|]. apply (parse_well_formed [] s r); [constructor| |exact E].
  assert (forallb (λ b, (0 <=? b) && (b <? 256)) s = true) as Hb by (vm_compute; reflexivity).
  apply List.Forall_forall. intros b Hin. rewrite forallb_forall in Hb. specialize (Hb b Hin).
  unfold byte. lia.
Defined.
