(* ===== verification/DhcpDiscover.v ===== *)
(** * The discovery of a DHCP client (protocol/dhcp: dhcp_module_discover.inl)

    [DHCP_Module_Discover_T] keeps the address of the server that answers, and requests what
    is offered over the connection that it holds a reference to.  What it does to other
    objects is a list of effects; a connection is a number. *)
From S2P Require Import Prelude MessageBlock ByteOrder Decimal Regex InetAddr AddressTools Wire DhcpTools DhcpWire.

Definition DHCP_DEFAULT_SERVER_PORT : Z := 67.

(** the configuration of the connection, of the name of the module or "Out", tells whether
    there is an allocator *)
Record Configuration := MkConfiguration {
  connectionConfiguration : option bool;
  requestBroadcastReplies : bool;
  sendRequestOnOffer : bool;
  configured_connection : option Z
}.
Record Module_Discover := MkModule {
  isInitialized_ : bool;
  configuration_ : option Configuration;
  connection_ : option Z;
  sendRequestOnOffer_ : bool
}.
(** the numbers of the address of the server as they are in memory, and the transaction *)
Record SessionData := MkSession {
  server_port : Z;
  server_address : Z;
  session_xid : Z;
  session_connection : option Z
}.
Inductive effect :=
  | Increase (connection : Z)
  | Decrease (connection : Z)
  | Send (connection : Z) (r : DHCP_Record).

Definition new_module : Module_Discover := MkModule false None None false.
Definition new_session : SessionData := MkSession 0 0 0 None.

Definition hold (o : option Z) : list effect :=
  match o with Some c => [Increase c] | None => [] end.
Definition release (o : option Z) : list effect :=
  match o with Some c => [Decrease c] | None => [] end.
Definition set_connection (m : Module_Discover) (c : option Z) : Module_Discover :=
  MkModule (isInitialized_ m) (configuration_ m) c (sendRequestOnOffer_ m).

(** [ok]: [inherited::initialize] succeeds, which sets [isInitialized_] *)
Definition initialize (ok : bool) (configuration_in : Configuration) (m : Module_Discover) :
    Module_Discover * list effect :=
  let c := configured_connection configuration_in in
  (MkModule ok (Some configuration_in) c (sendRequestOnOffer configuration_in),
   (if isInitialized_ m then release (connection_ m) else []) ++ hold c).

Inductive session_message := SESSION_BEGIN | SESSION_END | SESSION_OTHER.
Definition handleSessionMessage (type_ : session_message) (d : SessionData)
    (m : Module_Discover) : outcome (Module_Discover * list effect) :=
  ace_assert (isInitialized_ m);;
  match type_ with
  | SESSION_BEGIN =>
      match connection_ m with
      | Some _ => Ok (m, [])
      | None => Ok (set_connection m (session_connection d), hold (session_connection d))
      end
  | SESSION_END => Ok (set_connection m None, release (connection_ m))
  | SESSION_OTHER => Ok (m, [])
  end.

(** the destructor *)
Definition destroy (m : Module_Discover) : list effect := release (connection_ m).

Section Discover.
Context {A : Type} `{InetAddr A} `{ByteOrder}.

(** the address of the server, unless there is one; [set_ok]: [ACE_INET_Addr::set] works *)
Definition set_server_address (set_ok : bool) (r : DHCP_Record) (d : SessionData) :
    outcome (option SessionData) :=
  if negb (server_address d =? 0) then Ok (Some d)
  else
    match find DHCP_OPTION_DHCP_SERVERIDENTIFIER (options r) with
    | None => Ok (Some d)
    | Some v =>
        ace_assert (zlen v =? 4);;
        if set_ok then
          Ok (Some (MkSession (network 2 DHCP_DEFAULT_SERVER_PORT) (load v) (session_xid d)
                      (session_connection d)))
        else Ok None
    end.

(** the request of what is offered *)
Definition offer_request (c : Configuration) (ether_addr_octet : list Z) (r : DHCP_Record) :
    outcome DHCP_Record :=
  let os := insert_option DHCP_OPTION_DHCP_REQUESTEDIPADDRESS (memory 4 (yiaddr r)) [] in
  lease ← (match find DHCP_OPTION_DHCP_IPADDRESSLEASETIME (options r) with
           | Some v => Ok v | None => Abort end);
  let os := insert_option DHCP_OPTION_DHCP_IPADDRESSLEASETIME lease os in
  let os := insert_option DHCP_OPTION_DHCP_MESSAGETYPE [DHCP_MESSAGE_REQUEST] os in
  server ← (match find DHCP_OPTION_DHCP_SERVERIDENTIFIER (options r) with
            | Some v => Ok v | None => Abort end);
  let os := insert_option DHCP_OPTION_DHCP_SERVERIDENTIFIER server os in
  let n := new_record in
  Ok (MkDhcpRecord DHCP_OP_REQUEST DHCP_FRAME_HTYPE DHCP_FRAME_HLEN (hops n) (xid r) (secs r)
        (if requestBroadcastReplies c then DHCP_FLAGS_BROADCAST else flags n)
        (ciaddr n) (yiaddr n) (siaddr n) (giaddr n)
        (ether_addr_octet ++ drop (length ether_addr_octet) (chaddr n))
        (sname n) (file n) (cookie n) os).

(** [allocated]: a message can be allocated *)
Definition handle_data_message (set_ok allocated : bool) (ether_addr_octet : list Z)
    (r : DHCP_Record) (m : Module_Discover) (d : SessionData) :
    outcome (SessionData * list effect) :=
  c ← (match configuration_ m with Some c => Ok c | None => Abort end);
  connection ← (match connection_ m with Some c => Ok c | None => Abort end);
  allocatorConfiguration ←
    (match connectionConfiguration c with Some b => Ok b | None => Abort end);
  d' ← set_server_address set_ok r d;
  match d' with
  | None => Ok (d, [])
  | Some d =>
      offer ← (if sendRequestOnOffer_ m
               then t ← type r; Ok (t =? DHCP_MESSAGE_OFFER) else Ok false);
      if negb offer then
        if negb (op r =? DHCP_OP_REPLY) then Ok (d, [])
        else _ ← DHCP_dump (A := A) r; Ok (d, [])
      else if negb (xid r =? session_xid d) then Ok (d, [])
      else
        ace_assert allocatorConfiguration;;
        if negb allocated then Ok (d, [])
        else r' ← offer_request c ether_addr_octet r; Ok (d, [Send connection r'])
  end.
End Discover.

(** ** The life of a module *)
Inductive operation :=
  | Initialize (ok : bool) (c : Configuration)
  | Session (type_ : session_message) (d : SessionData)
  | Data (set_ok allocated : bool) (ether_addr_octet : list Z) (r : DHCP_Record)
      (d : SessionData).

Definition perform {A} `{InetAddr A} `{ByteOrder} (o : operation) (m : Module_Discover) :
    outcome (Module_Discover * list effect) :=
  match o with
  | Initialize ok c => Ok (initialize ok c m)
  | Session t d => handleSessionMessage t d m
  | Data set_ok allocated e r d =>
      '(_, es) ← handle_data_message (A := A) set_ok allocated e r m d; Ok (m, es)
  end.
Fixpoint run {A} `{InetAddr A} `{ByteOrder} (ops : list operation) (m : Module_Discover) :
    outcome (Module_Discover * list effect) :=
  match ops with
  | [] => Ok (m, [])
  | o :: ops' =>
      '(m, es) ← perform (A := A) o m; '(m, es') ← run (A := A) ops' m; Ok (m, es ++ es')
  end.

(** the references to a connection that are taken, less those that are released *)
Definition reference (c : Z) (e : effect) : Z :=
  match e with
  | Increase c' => if c' =? c then 1 else 0
  | Decrease c' => if c' =? c then -1 else 0
  | Send _ _ => 0
  end.
Definition references (c : Z) (es : list effect) : Z := zsum (reference c <$> es).
Definition held (c : Z) (m : Module_Discover) : Z :=
  match connection_ m with Some c' => if c' =? c then 1 else 0 | None => 0 end.
Definition initialized_ok (o : operation) : Prop :=
  match o with Initialize ok _ => ok = true | _ => True end.

Lemma references_app c es es' : references c (es ++ es') = references c es + references c es'.
Proof. unfold references. rewrite fmap_app. apply zsum_app. Qed.
Lemma references_hold c o : references c (hold o) = held c (MkModule true None o false).
Proof. destruct o as [c'|]; [|done]. cbn. destruct (c' =? c); done. Qed.
Lemma references_release c o : references c (release o) = - held c (MkModule true None o false).
Proof. destruct o as [c'|]; [|done]. cbn. destruct (c' =? c); done. Qed.

Section Life.
Context {A : Type} `{InetAddr A} `{ByteOrder}.

(** a module that is not initialized holds nothing *)
Definition module_ok (m : Module_Discover) : Prop :=
  isInitialized_ m = false → connection_ m = None.

(** what is sent is no reference *)
Lemma data_references c set_ok allocated e r m d d' es :
  handle_data_message (A := A) set_ok allocated e r m d = Ok (d', es) → references c es = 0.
Proof.
  unfold handle_data_message. intros E.
  repeat (case_match || apply bind_Ok in E as (? & ? & E)); by simplify_eq.
Qed.

Lemma perform_references o m m' es c :
  initialized_ok o → module_ok m → perform (A := A) o m = Ok (m', es) →
  module_ok m' ∧ references c es = held c m' - held c m.
Proof.
  intros Ho Hm E. destruct o as [ok k|t d|set_ok allocated e r d]; cbn in *.
  - subst. inv E. split; [by intros [=]|]. rewrite references_app, references_hold.
    destruct (isInitialized_ m) eqn:Ei; [rewrite references_release|].
    + unfold held. cbn. lia.
    + unfold held. rewrite (Hm Ei). cbn. lia.
  - unfold handleSessionMessage in E. destruct (isInitialized_ m) eqn:Ei; [|done].
    cbn in E. destruct t.
    + unfold held. destruct (connection_ m) eqn:Ec; inv E.
      * rewrite Ec. split; [done|]. cbn. lia.
      * split; [by intros ?; cbn in *; congruence|]. rewrite references_hold.
        unfold held. cbn. lia.
    + inv E. split; [done|]. rewrite references_release. unfold held. cbn. lia.
    + inv E. split; [done|]. cbn. lia.
  - destruct (handle_data_message _ _ _ _ _ _) as [[d' es']| |] eqn:Ed; inv E.
    split; [done|]. rewrite (data_references c _ _ _ _ _ _ _ _ Ed). lia.
Qed.
Lemma run_references ops m m' es c :
  Forall initialized_ok ops → module_ok m → run (A := A) ops m = Ok (m', es) →
  references c es = held c m' - held c m.
Proof.
  intros Ho. revert m es. induction Ho as [|o ops Ho _ IH]; intros m es Hm E; cbn in E.
  - inv E. cbn. lia.
  - destruct (perform o m) as [[m1 es1]| |] eqn:E1; cbn in E; try done.
    destruct (run ops m1) as [[m2 es2]| |] eqn:E2; inv E.
    apply (perform_references _ _ _ _ c) in E1 as [Hm1 E1]; [|done..].
    apply IH in E2; [|done]. rewrite references_app. lia.
Qed.

(** C24: DHCP_Module_Discover_T, whose initializations succeed: after any operations, each
    connection has one reference when the module uses it and none otherwise, and none when
    the module is destroyed.  After an initialization that fails, the next one does not
    release the connection, which keeps its reference *)
Theorem connection_references (ops : list operation) (m : Module_Discover) (es : list effect)
    (c : Z) (Ho : Forall initialized_ok ops) (E : run (A := A) ops new_module = Ok (m, es)) :
  references c es = held c m ∧ references c (es ++ destroy m) = 0 ∧
  (∀ k k', configured_connection k = Some c → configured_connection k' ≠ Some c →
     ∃ m' es', run (A := A) [Initialize false k; Initialize true k'] new_module = Ok (m', es') ∧
               references c (es' ++ destroy m') = 1).
Proof.
  apply (run_references _ _ _ _ c) in E; [|done..].
  rewrite references_app. unfold destroy. rewrite references_release. unfold held in *.
  cbn in *. split_and!; [lia..|]. intros k k' Hk Hk'. eexists _, _. split; [done|].
  rewrite references_app. cbn [connection_]. rewrite references_release, Hk. cbn.
  rewrite app_nil_r, Z.eqb_refl. destruct (configured_connection k') as [c'|]; [|done].
  cbn. rewrite (proj2 (Z.eqb_neq c' c)) by congruence. done.
Qed.
End Life.

(** ** What is offered is requested *)
Section Offer.
Context {A B : Type} `{InetAddr A} `{ByteOrder} `{WritableBlock B}.

(** a module that requests what is offered *)
Definition requests (m : Module_Discover) (c : Configuration) (connection : Z) : Prop :=
  configuration_ m = Some c ∧ connection_ m = Some connection ∧
  sendRequestOnOffer_ m = true ∧ connectionConfiguration c = Some true.
(** the address of the server is known, or can be set *)
Definition server_ok (r : DHCP_Record) (d : SessionData) : Prop :=
  server_address d ≠ 0 ∨
  ∀ v, find DHCP_OPTION_DHCP_SERVERIDENTIFIER (options r) = Some v → zlen v = 4.

Lemma set_server_address_ok r d :
  server_ok r d → ∃ d', set_server_address true r d = Ok (Some d') ∧
                        session_xid d' = session_xid d.
Proof.
  intros Hs. unfold set_server_address. destruct (server_address d =? 0) eqn:E; bool_lia; cbn.
  - destruct Hs as [?|Hs]; [done|].
    destruct (find DHCP_OPTION_DHCP_SERVERIDENTIFIER (options r)) as [v|]; [|by eexists].
    rewrite (Hs v eq_refl). by eexists.
  - by eexists.
Qed.

(** an offer for the transaction of the session *)
Lemma handle_offer mac r m c connection d t :
  requests m c connection → server_ok r d →
  find DHCP_OPTION_DHCP_MESSAGETYPE (options r) = Some (DHCP_MESSAGE_OFFER :: t) →
  xid r = session_xid d →
  ∃ d', handle_data_message (A := A) true true mac r m d =
          (r' ← offer_request c mac r; Ok (d', [Send connection r'])).
Proof.
  intros (Hc & Hm & Hs & Ha) Hd Ht Hx.
  destruct (set_server_address_ok r d Hd) as (d' & E & Hx').
  exists d'. unfold handle_data_message. rewrite Hc, Hm. cbn [mbind outcome_bind].
  rewrite Ha, E, Hs. unfold type. rewrite Ht. cbn [mbind outcome_bind default head from_option].
  rewrite Z.eqb_refl, Hx', Hx, Z.eqb_refl. done.
Qed.

(** DHCP_Module_Discover_T::handleDataMessage: an offer for the transaction of the
    session that has no lease time, or no identifier of its server, fails an assertion, and
    is requested otherwise; and any message without a message type fails one *)
Theorem incomplete_offer_aborts mac r m c connection d :
  requests m c connection → server_ok r d → xid r = session_xid d →
  (∀ t, find DHCP_OPTION_DHCP_MESSAGETYPE (options r) = Some (DHCP_MESSAGE_OFFER :: t) →
     match find DHCP_OPTION_DHCP_IPADDRESSLEASETIME (options r),
           find DHCP_OPTION_DHCP_SERVERIDENTIFIER (options r) with
     | Some _, Some _ => ∃ d' r', handle_data_message (A := A) true true mac r m d =
                                    Ok (d', [Send connection r'])
     | _, _ => handle_data_message (A := A) true true mac r m d = Abort
     end) ∧
  (find DHCP_OPTION_DHCP_MESSAGETYPE (options r) = None →
     handle_data_message (A := A) true true mac r m d = Abort).
Proof.
  intros Hm Hs Hx. split.
  - intros t Ht. destruct (handle_offer mac r m c connection d t) as (d' & ->); [done..|].
    unfold offer_request.
    destruct (find DHCP_OPTION_DHCP_IPADDRESSLEASETIME (options r)); cbn [mbind outcome_bind];
      destruct (find DHCP_OPTION_DHCP_SERVERIDENTIFIER (options r)); cbn [mbind outcome_bind]; try done.
    by eexists _, _.
  - intros Ht. destruct Hm as (Hc & Hm & Hso & Ha).
    destruct (set_server_address_ok r d Hs) as (d' & E & _).
    unfold handle_data_message. rewrite Hc, Hm. cbn [mbind outcome_bind].
    rewrite Ha, E, Hso. unfold type. by rewrite Ht.
Qed.

(** the request of an offer *)
Definition request_of (c : Configuration) (mac : list Z) (o : DHCP_Record)
    (lease server : list Z) : DHCP_Record :=
  MkDhcpRecord 1 1 6 0 (xid o) (secs o) (if requestBroadcastReplies c then 0x8000 else 0)
    0 0 0 0 (mac ++ drop (length mac) (replicate 16 0)) [] [] 0
    [(50, memory 4 (yiaddr o)); (51, lease); (53, [3]); (54, server)].
Lemma offer_request_spec c mac o lease server :
  find DHCP_OPTION_DHCP_IPADDRESSLEASETIME (options o) = Some lease →
  find DHCP_OPTION_DHCP_SERVERIDENTIFIER (options o) = Some server →
  ∃ r, offer_request c mac o = Ok r ∧ r = request_of c mac o lease server.
Proof. intros Hl Hs. eexists. split; [|done]. unfold offer_request. by rewrite Hl, Hs. Qed.

(** the request of an offer that has been read *)
Lemma request_written c mac o lease server r (b : B) :
  little_endian = true → range 4 (xid o) → length mac = 6%nat →
  zlen lease <= 255 → zlen server = 4 → r = request_of c mac (received o 0) lease server →
  mb_bytes b = [] → DHCP_MESSAGE_SIZE <= mb_space b →
  ∃ b', handleDataMessage r b = Ok b' ∧
    mb_bytes b' =
      [1; 1; 6; 0] ++ be_bytes 4 (xid o) ++ rev (be_bytes 2 (secs o)) ++
      be_bytes 2 (if requestBroadcastReplies c then 0x8000 else 0) ++ replicate 16 0 ++
      mac ++ replicate 202 0 ++
      padded 312 (be_bytes 4 DHCP_MAGIC_COOKIE ++ [50; 4] ++ be_bytes 4 (yiaddr o) ++
                  [51; zlen lease] ++ lease ++ [53; 1; 3] ++ [54; 4] ++ server ++ [255]).
Proof.
  intros Hle Hx Hmac Hl Hs -> Hb Hb2.
  assert (options_layout (options (request_of c mac (received o 0) lease server)) =
    [50; 4] ++ be_bytes 4 (yiaddr o) ++ [51; zlen lease] ++ lease ++ [53; 1; 3] ++ [54; 4] ++
    server) as Ho.
  { unfold request_of. cbn [options received yiaddr]. rewrite memory_unswapped.
    unfold options_layout, option_layout. cbn [mbind list_bind fst snd app].
    rewrite zlen_be_bytes, Hs, app_nil_r. by rewrite <- ?(assoc_L (++)). }
  destruct (message_layout_written (request_of c mac (received o 0) lease server) b)
    as (b' & Eb & Hb' & _); [done| | |done..| |].
  - unfold header_ok, request_of. cbn -[range be_bytes unswapped].
    split_and!; try done; try lia; [apply unswapped_range| |].
    + by destruct (requestBroadcastReplies c).
    + rewrite length_app, length_drop, Hmac. done.
  - cbn [options request_of]. cbn [received yiaddr]. rewrite memory_unswapped.
    repeat (apply Forall_cons; split); cbn [snd]; rewrite ?zlen_be_bytes; try done; lia.
  - unfold options_fit. rewrite Ho. autorewrite with zlen. rewrite zlen_be_bytes.
    unfold DHCP_OPTIONS_SIZE. lia.
  - exists b'. split; [done|]. rewrite Hb'. unfold message_layout. rewrite Ho.
    unfold header_layout, request_of. cbn [op htype hlen hops xid secs flags ciaddr yiaddr
      siaddr giaddr chaddr sname file received].
    rewrite be_bytes_unswapped by done. rewrite Hmac.
    change (be_bytes 4 0) with (replicate 4 0). rewrite <- !(assoc_L (++)). done.
Qed.

(** C21: a datagram with an offer (what the streamer writes of it, for the transaction of the
    session, with a lease time and the identifier of its server) is read, and what the
    module sends makes the streamer write the request of RFC 2131 for the address that is
    offered, from the server that offers it, in the same transaction; but the octets of the
    seconds are reversed *)
Theorem offer_requested (o : DHCP_Record) (b b2 : B) (behind mac : list Z) m c connection d
    lease server t :
  little_endian = true → header_ok o → fields_set o → tags_ok (options o) →
  Forall (λ o, zlen o.2 <= 255) (options o) → options_fit (options o) →
  mb_bytes b = [] → DHCP_MESSAGE_SIZE <= mb_space b →
  mb_bytes b2 = [] → DHCP_MESSAGE_SIZE <= mb_space b2 →
  requests m c connection → xid o = session_xid d → length mac = 6%nat →
  find DHCP_OPTION_DHCP_MESSAGETYPE (options o) = Some (DHCP_MESSAGE_OFFER :: t) →
  find DHCP_OPTION_DHCP_IPADDRESSLEASETIME (options o) = Some lease → zlen lease <= 255 →
  find DHCP_OPTION_DHCP_SERVERIDENTIFIER (options o) = Some server → zlen server = 4 →
  ∃ datagram o' d' r b',
    handleDataMessage o b = Ok datagram ∧
    parse behind (mb_bytes datagram) = Ok (Some o') ∧
    handle_data_message (A := A) true true mac o' m d = Ok (d', [Send connection r]) ∧
    handleDataMessage r b2 = Ok b' ∧
    mb_bytes b' =
      [1; 1; 6; 0] ++ be_bytes 4 (xid o) ++ rev (be_bytes 2 (secs o)) ++
      be_bytes 2 (if requestBroadcastReplies c then 0x8000 else 0) ++ replicate 16 0 ++
      mac ++ replicate 202 0 ++
      padded 312 (be_bytes 4 DHCP_MAGIC_COOKIE ++ [50; 4] ++ be_bytes 4 (yiaddr o) ++
                  [51; zlen lease] ++ lease ++ [53; 1; 3] ++ [54; 4] ++ server ++ [255]).
Proof.
  intros Hle Hh Hn Ht Hv Hfit Hb Hs Hb2 Hs2 Hm Hx Hmac Hty Hlease Hll Hserver Hsl.
  destruct (parse_written behind o b) as (datagram & Ed & Ep); [done..|].
  destruct (handle_offer mac (received o 0) m c connection d t) as (d' & Eh); [done| |done|done|].
  { right. intros v Hv'. change (options (received o 0)) with (options o) in Hv'. congruence. }
  destruct (offer_request_spec c mac (received o 0) lease server Hlease Hserver) as (r & Er & Hr).
  rewrite Er in Eh.
  destruct Hh as (_ & Hxid & _).
  destruct (request_written c mac o lease server r b2) as (b' & Eb & Hb'); [done..|].
  by exists datagram, (received o 0), d', r, b'.
Qed.
End Offer.

Definition a_configuration : Configuration := MkConfiguration (Some true) true true (Some 5).
Definition a_module : Module_Discover := MkModule true (Some a_configuration) (Some 5) true.
Definition a_session : SessionData := MkSession 0 0 0x12345678 None.
Definition a_mac : list Z := [2; 0; 0; 1; 2; 3].
Lemma a_module_requests : requests a_module a_configuration 5.
Proof. done. Qed.
Lemma an_offer_server : server_ok an_offer a_session.
Proof. right. by intros v [= <-]. Qed.

Lemma connection_references_witness :
  references 5 [Increase 5; Decrease 5] = held 5 (set_connection a_module None) ∧
  references 5 ([Increase 5; Decrease 5] ++ destroy (set_connection a_module None)) = 0 ∧
  (∀ k k', configured_connection k = Some 5 → configured_connection k' ≠ Some 5 →
     ∃ m' es', run (A := inet_addr) [Initialize false k; Initialize true k'] new_module =
                 Ok (m', es') ∧ references 5 (es' ++ destroy m') = 1).
Proof.
  apply (connection_references (A := inet_addr)
    [Initialize true a_configuration; Session SESSION_BEGIN a_session;
     Session SESSION_END a_session]); [by repeat (apply Forall_cons; split; [done|])|].
  reflexivity.
Defined.
Lemma incomplete_offer_aborts_witness :
  (∀ t, find DHCP_OPTION_DHCP_MESSAGETYPE (options an_offer) = Some (DHCP_MESSAGE_OFFER :: t) →
     match find DHCP_OPTION_DHCP_IPADDRESSLEASETIME (options an_offer),
           find DHCP_OPTION_DHCP_SERVERIDENTIFIER (options an_offer) with
     | Some _, Some _ => ∃ d' r', handle_data_message (A := inet_addr) true true a_mac an_offer
                                    a_module a_session = Ok (d', [Send 5 r'])
     | _, _ => handle_data_message (A := inet_addr) true true a_mac an_offer a_module a_session
               = Abort
     end) ∧
  (find DHCP_OPTION_DHCP_MESSAGETYPE (options an_offer) = None →
     handle_data_message (A := inet_addr) true true a_mac an_offer a_module a_session = Abort).
Proof.
  apply (incomplete_offer_aborts a_mac an_offer a_module a_configuration 5 a_session);
    [apply a_module_requests|apply an_offer_server|reflexivity].
Defined.
Lemma offer_requested_witness :
  ∃ (datagram : list Z * N) o' d' r (b' : list Z * N),
    handleDataMessage an_offer empty_datagram = Ok datagram ∧
    parse [] (mb_bytes datagram) = Ok (Some o') ∧
    handle_data_message (A := inet_addr) true true a_mac o' a_module a_session =
      Ok (d', [Send 5 r]) ∧
    handleDataMessage r empty_datagram = Ok b' ∧
    mb_bytes b' =
      [1; 1; 6; 0] ++ be_bytes 4 0x12345678 ++ rev (be_bytes 2 3) ++ be_bytes 2 0x8000 ++
      replicate 16 0 ++ a_mac ++ replicate 202 0 ++
      padded 312 (be_bytes 4 DHCP_MAGIC_COOKIE ++ [50; 4] ++ be_bytes 4 0xC0A80011 ++
                  [51; 4] ++ [0; 0; 14; 16] ++ [53; 1; 3] ++ [54; 4] ++ [192; 168; 0; 1] ++ [255]).
Proof.
  apply (offer_requested an_offer empty_datagram empty_datagram [] a_mac a_module
    a_configuration 5 a_session [0; 0; 14; 16] [192; 168; 0; 1] []);
    try (apply an_offer_ok); try done.
Defined.
