(* ===== verification/Platform.v ===== *)
(** * The interfaces of the common libraries used by the file handling code

    [FileSystem]: what the code asks of [Common_File_Tools] on regular files, and
    what it relies on: a store to one path does not change another, and appends to
    (or replaces) what a load of that path returns.  [FileStream]: writing a file through
    an [ACE_FILE_IO].  [Bencoding]: the elements of the
    bencoding parser, with the type tags the code asserts. *)
From S2P Require Import Prelude.

Class FileSystem (FS : Type) : Type := {
  (** [load]: the content, [None] when it fails *)
  fs_load : FS → string → option (list Z);
  (** [store (path, data, append)]: [None] when it fails *)
  fs_store : FS → string → list Z → bool → option FS;
  (** [files (path, selector)]: the names of the entries the selector accepts *)
  fs_files : FS → string → (string → bool) → list string;
  fs_is_directory : FS → string → bool;
  fs_create_directory : FS → string → option FS;
  (** [deleteFiles] *)
  fs_delete : FS → list string → FS;
  fs_load_store fs p d a fs' q :
    fs_store fs p d a = Some fs' →
    fs_load fs' q =
      if decide (q = p)
      then Some ((if a : bool then default [] (fs_load fs p) else []) ++ d)
      else fs_load fs q;
  fs_load_delete fs ps q :
    q ∉ ps → fs_load (fs_delete fs ps) q = fs_load fs q
}.

(** The concrete file system the witnesses run on: the files by path; every store
    works, and a directory is any path that has been created. *)
Record plain_fs := PlainFS { plain_files : gmap string (list Z); plain_dirs : list string }.
Definition plain_store (fs : plain_fs) (p : string) (d : list Z) (a : bool) : plain_fs :=
  PlainFS (<[p := (if a then default [] (plain_files fs !! p) else []) ++ d]>
             (plain_files fs)) (plain_dirs fs).
(** the paths below a directory, relative to it *)
Definition plain_entries (dir : string) (fs : plain_fs) : list string :=
  (λ p, String.substring (String.length dir) (String.length p - String.length dir) p) <$>
  filter (λ p, String.prefix dir p = true) (map_to_list (plain_files fs)).*1.
#[export] Program Instance plain_file_system : FileSystem plain_fs := {|
  fs_load fs p := plain_files fs !! p;
  fs_store fs p d a := Some (plain_store fs p d a);
  fs_files fs dir sel := filter (λ n, sel n = true) (plain_entries (dir +:+ "/") fs);
  fs_is_directory fs p := bool_decide (p ∈ plain_dirs fs);
  fs_create_directory fs p := Some (PlainFS (plain_files fs) (p :: plain_dirs fs));
  fs_delete fs ps :=
    PlainFS (filter (λ e, e.1 ∉ ps) (plain_files fs)) (plain_dirs fs)
|}.
Next Obligation.
  intros fs p d a fs' q [= <-]. cbn. destruct (decide (q = p)) as [->|Hne].
  - by rewrite lookup_insert_eq.
  - by rewrite lookup_insert_ne.
Qed.
Next Obligation.
  intros fs ps q Hq. cbn. rewrite map_lookup_filter.
  destruct (plain_files fs !! q); cbn; [|done]. by rewrite option_guard_True.
Qed.

(** Opening a file for writing ([None]: it failed), which truncates it; sending data
    ([ACE_FILE_IO::send_n]) to the open file and closing it: the number of bytes
    transferred, and whether closing worked. *)
Class FileStream (FS : Type) `{FileSystem FS} : Type := {
  fs_open : FS → string → option FS;
  fs_send : FS → string → list Z → FS * Z * bool;
  fs_load_open fs p fs' q :
    fs_open fs p = Some fs' →
    fs_load fs' q = if decide (q = p) then Some [] else fs_load fs q;
  fs_send_bound fs p d fs' n c : fs_send fs p d = (fs', n, c) → 0 <= n <= zlen d;
  fs_load_send fs p d fs' n c q :
    fs_load fs p = Some [] → fs_send fs p d = (fs', n, c) →
    fs_load fs' q = if decide (q = p) then Some (take (Z.to_nat n) d) else fs_load fs q
}.

(** The concrete stream sends at most 16 bytes. *)
#[export] Program Instance plain_stream : FileStream plain_fs := {|
  fs_open fs p := Some (plain_store fs p [] false);
  fs_send fs p d := (plain_store fs p (take 16 d) false, zlen (take 16 d), true)
|}.
Next Obligation.
  intros fs p fs' q [= <-]. cbn. destruct (decide (q = p)) as [->|Hne].
  - by rewrite lookup_insert_eq.
  - by rewrite lookup_insert_ne.
Qed.
Next Obligation.
  intros fs p d fs' n c [= _ <- _]. unfold zlen. rewrite length_take. lia.
Qed.
Next Obligation.
  intros fs p d fs' n c q _ [= <- <- _]. cbn. unfold zlen.
  destruct (decide (q = p)) as [->|Hne].
  - rewrite lookup_insert_eq. f_equal. cbn. rewrite Nat2Z.id, length_take.
    destruct (decide (length d <= 16)%nat).
    + rewrite Nat.min_r by lia. by rewrite firstn_all, take_ge by lia.
    + by rewrite Nat.min_l by lia.
  - by rewrite lookup_insert_ne.
Qed.

(** The tag of a [Bencoding_Element]. *)
Inductive bencoding_type :=
  | BENCODING_TYPE_INTEGER
  | BENCODING_TYPE_STRING
  | BENCODING_TYPE_LIST
  | BENCODING_TYPE_DICTIONARY.
#[export] Instance bencoding_type_eq_dec : EqDecision bencoding_type.
Proof. solve_decision. Defined.

(** A dictionary is the list of its entries in iteration order. *)
Class Bencoding (E : Type) : Type := {
  be_type : E → bencoding_type;
  be_integer : E → Z;
  be_string : E → string;
  be_list : E → list E;
  be_dictionary : E → list (string * E);
  (** [Common_Parser_Bencoding_Tools::bencode] of a dictionary *)
  be_bencode : list (string * E) → list Z
}.

(** The concrete elements the witnesses run on. *)
Inductive element :=
  | BeInteger (i : Z)
  | BeString (s : string)
  | BeList (l : list element)
  | BeDictionary (d : list (string * element)).
#[export] Instance element_bencoding : Bencoding element := {|
  be_type e :=
    match e with
    | BeInteger _ => BENCODING_TYPE_INTEGER
    | BeString _ => BENCODING_TYPE_STRING
    | BeList _ => BENCODING_TYPE_LIST
    | BeDictionary _ => BENCODING_TYPE_DICTIONARY
    end;
  be_integer e := match e with BeInteger i => i | _ => 0 end;
  be_string e := match e with BeString s => s | _ => "" end;
  be_list e := match e with BeList l => l | _ => [] end;
  be_dictionary e := match e with BeDictionary d => d | _ => [] end;
  be_bencode d := [zlen d]
|}.
