(* ===== verification/BitTorrentPieces.v ===== *)
(** * BitTorrent pieces (bittorrent_common.h, bittorrent_tools.{h,cpp})

    The pieces of a torrent, the chunks received of each, the availability bitfield
    of a peer, and the queries the session runs on them: [chunkLength],
    [chunksLength], [isPieceComplete], [havePiece], [hasMissingPiece],
    [isMissingPiece], [getPieceIndexes], [receivedBytes], [freeChunks]. *)
From S2P Require Import Prelude MessageBlock.

Section Pieces.
Context {B : Type} `{MessageBlock B}.

(** struct BitTorrent_Piece_Chunk; [None] is the NULL message block *)
Record chunk : Type := Chunk { data : option (list B); offset : Z }.

(** struct BitTorrent_Piece *)
Record piece : Type := Piece {
  chunks : list chunk;
  filename : string;
  hash : list Z;
  length_ : Z;
  onDisk : bool
}.

Definition chunkLength (c : chunk) : Z :=
  match data c with Some d => u32 (total_length d) | None => 0 end.

Definition chunksLength (cs : list chunk) : Z :=
  foldl (λ result c, result +u chunkLength c) 0 cs.

Fixpoint isPieceComplete_loop (total : Z) (cs : list chunk) : outcome Z :=
  match cs with
  | [] => Ok total
  | c :: cs' =>
      match data c with
      | None => Abort
      | Some d => isPieceComplete_loop (total +u u32 (total_length d)) cs'
      end
  end.

Definition isPieceComplete (length_in : Z) (cs : list chunk) : outcome bool :=
  total ← isPieceComplete_loop 0 cs; Ok (length_in =? total).

(** [bitfield_in[array_index_i] & (0x80 >> array_offset_i)] *)
Definition havePiece (index_in : Z) (bitfield : list Z) : outcome bool :=
  let array_index_i := index_in `div` 8 in
  let array_offset_i := index_in `mod` 8 in
  ace_assert (array_index_i <=? zlen bitfield);;
  b ← deref (bitfield !! Z.to_nat array_index_i);
  Ok (negb (Z.land b (Z.shiftr 0x80 array_offset_i) =? 0)).

Fixpoint hasMissingPiece_loop (i : Z) (ps : list piece) (bitfield : list Z)
  : outcome bool :=
  match ps with
  | [] => Ok false
  | p :: ps' =>
      if onDisk p then hasMissingPiece_loop (i +u 1) ps' bitfield
      else
        complete ← isPieceComplete (length_ p) (chunks p);
        if complete : bool then hasMissingPiece_loop (i +u 1) ps' bitfield
        else
          have ← havePiece i bitfield;
          if have : bool then Ok true else hasMissingPiece_loop (i +u 1) ps' bitfield
  end.
Definition hasMissingPiece (ps : list piece) (bitfield : list Z) : outcome bool :=
  hasMissingPiece_loop 0 ps bitfield.

Fixpoint isMissingPiece (ps : list piece) : outcome bool :=
  match ps with
  | [] => Ok false
  | p :: ps' =>
      if onDisk p then isMissingPiece ps'
      else
        complete ← isPieceComplete (length_ p) (chunks p);
        if negb complete then Ok true else isMissingPiece ps'
  end.

Fixpoint getPieceIndexes_loop (index_i : Z) (ps : list piece) (getMissing : bool)
  : outcome (list Z) :=
  match ps with
  | [] => Ok []
  | p :: ps' =>
      is_complete_b ← (if onDisk p then Ok true
                       else isPieceComplete (length_ p) (chunks p));
      rest ← getPieceIndexes_loop (index_i +u 1) ps' getMissing;
      Ok (if (getMissing && negb is_complete_b) || (negb getMissing && is_complete_b)
          then index_i :: rest else rest)
  end.
Definition getPieceIndexes (ps : list piece) (getMissing : bool) : outcome (list Z) :=
  getPieceIndexes_loop 0 ps getMissing.

Definition receivedBytes (ps : list piece) : Z :=
  foldl (λ result p,
           if onDisk p then result +u length_ p
           else foldl (λ r c, r +u chunkLength c) result (chunks p)) 0 ps.

(** releases every block; the vector is empty afterwards.  A NULL block is
    dereferenced *)
Definition freeChunks (cs : list chunk) : outcome (list chunk) :=
  if forallb (λ c, match data c with Some _ => true | None => false end) cs
  then Ok [] else Undef.
End Pieces.

Arguments chunk B : clear implicits.
Arguments piece B : clear implicits.

(** ** Specification vocabulary *)
Section Specification.
Context {B : Type} `{MessageBlock B}.

(** every chunk carries a block *)
Definition have_data (cs : list (chunk B)) : Prop := Forall (λ c, is_Some (data c)) cs.

(** the piece is on disk, or its chunks add up to its length *)
Definition piece_done (p : piece B) : bool :=
  onDisk p || (length_ p =? u32 (zsum (chunkLength <$> chunks p))).

Definition well_fed (ps : list (piece B)) : Prop := Forall (λ p, have_data (chunks p)) ps.

(** bit [i] of a BitTorrent bitfield: most significant bit first *)
Definition advertised (bitfield : list Z) (i : nat) : bool :=
  Z.testbit (nth (i / 8)%nat bitfield 0) (7 - Z.of_nat i `mod` 8).
End Specification.

(** ** Shared lemmas *)

(** the mask [0x80 >> k] selects bit [7 - k] *)
Lemma mask_bit b k :
  0 <= k < 8 → negb (Z.land b (Z.shiftr 0x80 k) =? 0) = Z.testbit b (7 - k).
Proof.
  intros Hk. replace (Z.shiftr 0x80 k) with (2 ^ (7 - k))
    by (assert (k = 0 ∨ k = 1 ∨ k = 2 ∨ k = 3 ∨ k = 4 ∨ k = 5 ∨ k = 6 ∨ k = 7) as Hc by lia;
        destruct_or! Hc; subst; reflexivity).
  destruct (Z.testbit b (7 - k)) eqn:Hb.
  - apply negb_true_iff, Z.eqb_neq. intros H0.
    apply (f_equal (λ z, Z.testbit z (7 - k))) in H0.
    rewrite Z.land_spec, Hb, Z.pow2_bits_true, Z.bits_0 in H0 by lia. done.
  - apply negb_false_iff, Z.eqb_eq, Z.bits_inj'. intros j Hj.
    rewrite Z.land_spec, Z.bits_0, Z.pow2_bits_eqb by lia.
    destruct (7 - k =? j) eqn:E; bool_lia; subst; by rewrite ?Hb, ?andb_false_r.
Qed.

Lemma sorted_lt_NoDup (l : list Z) : StronglySorted Z.lt l → NoDup l.
Proof.
  induction 1 as [|z l Hs IH Hz]; constructor; [|done].
  intros Hin. rewrite Forall_forall in Hz. by apply (Z.lt_irrefl z), Hz.
Qed.

Section Lemmas.
Context {B : Type} `{MessageBlock B}.
Implicit Types (cs : list (chunk B)) (p : piece B) (ps : list (piece B)).

Lemma chunkLength_range c : 0 <= chunkLength c < 2 ^ 32.
Proof. unfold chunkLength. destruct (data c); [apply u32_range | lia]. Qed.

Lemma chunksLength_sum cs : chunksLength cs = u32 (zsum (chunkLength <$> cs)).
Proof. unfold chunksLength. change 0 with (u32 0) at 1. by rewrite foldl_u32. Qed.

Lemma isPieceComplete_loop_sum total cs :
  have_data cs →
  isPieceComplete_loop (u32 total) cs = Ok (u32 (total + zsum (chunkLength <$> cs))).
Proof.
  unfold have_data. intros Hd; revert total.
  induction Hd as [|c cs [d Hc] Hd IH]; intros total; cbn.
  - by rewrite Z.add_0_r.
  - rewrite Hc. rewrite u32_add_mod_l, IH. unfold chunkLength at 2. rewrite Hc.
    unfold zsum; cbn. do 2 f_equal. lia.
Qed.

Lemma isPieceComplete_sum n cs :
  have_data cs →
  isPieceComplete n cs = Ok (n =? u32 (zsum (chunkLength <$> cs))).
Proof.
  intros Hd. unfold isPieceComplete.
  change 0 with (u32 0). rewrite isPieceComplete_loop_sum by done. done.
Qed.

Lemma piece_done_step p :
  have_data (chunks p) →
  (if onDisk p then Ok true else isPieceComplete (length_ p) (chunks p))
  = Ok (piece_done p).
Proof.
  intros Hd. unfold piece_done. destruct (onDisk p); [done|].
  by rewrite isPieceComplete_sum.
Qed.

Lemma u32_succ (k n : nat) :
  Z.of_nat (k + S n) < 2 ^ 32 → u32 (Z.of_nat k + 1) = Z.of_nat (S k).
Proof. intros. rewrite u32_small; lia. Qed.

Lemma getPieceIndexes_loop_spec ps m : ∀ k,
  well_fed ps → Z.of_nat (k + length ps) < 2 ^ 32 →
  ∃ l, getPieceIndexes_loop (Z.of_nat k) ps m = Ok l ∧
    StronglySorted Z.lt l ∧
    ∀ z, z ∈ l ↔ ∃ i p, z = Z.of_nat (k + i) ∧ ps !! i = Some p ∧ piece_done p = negb m.
Proof.
  induction ps as [|p ps IH]; intros k Hf Hb; cbn [getPieceIndexes_loop].
  { exists []. repeat split; [constructor| |intros (i & q & _ & ? & _); by destruct i].
    by intros ?%elem_of_nil. }
  apply Forall_cons in Hf as [Hp Hf]. cbn [length] in Hb.
  rewrite piece_done_step by done. cbn.
  rewrite (u32_succ k (length ps)) by lia.
  destruct (IH (S k) Hf) as (l & -> & Hs & Hl); [lia|]. cbn.
  assert (Hlt : Forall (Z.lt (Z.of_nat k)) l).
  { apply Forall_forall. intros z (i & q & -> & _)%Hl. lia. }
  eexists; split; [reflexivity|]. split.
  { destruct_if; [by constructor | done]. }
  intros z. transitivity ((z = Z.of_nat k ∧ piece_done p = negb m) ∨ z ∈ l).
  { destruct m, (piece_done p); cbn; rewrite ?elem_of_cons; naive_solver. }
  rewrite Hl. split.
  - intros [[-> Hd]|(i & q & -> & Hi & Hd)].
    + exists 0%nat, p. split_and!; [lia|done|done].
    + exists (S i), q. split_and!; [lia|done|done].
  - intros ([|i] & q & -> & Hi & Hd); cbn in Hi.
    + left. split; [lia|congruence].
    + right. exists i, q. split_and!; [lia|done|done].
Qed.

Lemma isMissingPiece_spec ps :
  well_fed ps → isMissingPiece ps = Ok (existsb (λ p, negb (piece_done p)) ps).
Proof.
  induction 1 as [|p ps Hp Hf IH]; [done|].
  cbn. unfold piece_done at 1. destruct (onDisk p); cbn; [done|].
  rewrite isPieceComplete_sum by done. cbn.
  by destruct (length_ p =? _).
Qed.

Lemma havePiece_spec bitfield (i : nat) :
  (i < 8 * length bitfield)%nat →
  havePiece (Z.of_nat i) bitfield = Ok (advertised bitfield i).
Proof.
  intros Hi. unfold havePiece, advertised.
  assert (Hd : Z.of_nat i `div` 8 = Z.of_nat (i / 8)) by (by rewrite Nat2Z.inj_div).
  assert (Hlt : (i / 8 < length bitfield)%nat) by (apply Nat.Div0.div_lt_upper_bound; lia).
  rewrite Hd, Nat2Z.id.
  destruct (lookup_lt_is_Some_2 bitfield (i / 8) Hlt) as [b Hb].
  rewrite (nth_lookup_Some _ _ _ _ Hb).
  replace (Z.of_nat (i / 8) <=? zlen bitfield) with true
    by (symmetry; apply Z.leb_le; unfold zlen; lia).
  rewrite Hb. cbn. f_equal.
  apply mask_bit. apply Z.mod_pos_bound. lia.
Qed.

Lemma hasMissingPiece_spec ps bitfield :
  well_fed ps → (length ps <= 8 * length bitfield)%nat → Z.of_nat (length ps) < 2 ^ 32 →
  ∃ b, hasMissingPiece ps bitfield = Ok b ∧
    (b = true ↔ ∃ (i : nat) p, ps !! i = Some p ∧ piece_done p = false ∧
                               advertised bitfield i = true).
Proof.
  intros Hf Hlen Hb. unfold hasMissingPiece.
  enough (Hg : ∀ k, (k + length ps <= 8 * length bitfield)%nat →
    Z.of_nat (k + length ps) < 2 ^ 32 →
    ∃ b, hasMissingPiece_loop (Z.of_nat k) ps bitfield = Ok b ∧
    (b = true ↔ ∃ (i : nat) p, ps !! i = Some p ∧ piece_done p = false ∧
                               advertised bitfield (k + i) = true))
    by (apply (Hg 0%nat); lia).
  clear Hlen Hb. induction Hf as [|p ps Hp Hf IH]; intros k Hk Hb; cbn [hasMissingPiece_loop].
  { exists false. split; [done|]. split; [done|]. intros (i & q & ? & _). by destruct i. }
  cbn [length] in Hk, Hb. rewrite (u32_succ k (length ps)) by lia.
  destruct (IH (S k)) as (b & Hb1 & Hb2); [lia..|].
  rewrite Hb1. pose proof (piece_done_step p Hp) as Hd.
  assert (Hskip : piece_done p = true ∨ advertised bitfield k = false →
    ∃ b0, Ok b = Ok b0 ∧ (b0 = true ↔ ∃ (i : nat) q, (p :: ps) !! i = Some q ∧
       piece_done q = false ∧ advertised bitfield (k + i) = true)).
  { intros Hno. exists b. split; [done|]. rewrite Hb2. split.
    - intros (i & q & Hi & Hq & Ha). exists (S i), q. by rewrite Nat.add_succ_r.
    - intros ([|i] & q & Hi & Hq & Ha); cbn in Hi.
      + rewrite Nat.add_0_r in Ha. naive_solver congruence.
      + exists i, q. by rewrite Nat.add_succ_r in Ha. }
  destruct (onDisk p) eqn:Ho.
  { apply Hskip. left. unfold piece_done. by rewrite Ho. }
  rewrite Hd. cbn. destruct (piece_done p) eqn:Hdone; [by apply Hskip; left|].
  rewrite havePiece_spec by lia. cbn.
  destruct (advertised bitfield k) eqn:Ha; [|by apply Hskip; right].
  exists true. split; [done|]. split; [|done]. intros _.
  exists 0%nat, p. by rewrite Nat.add_0_r.
Qed.
End Lemmas.

(** ** Properties *)
Section Properties.
Context {B : Type} `{MessageBlock B}.
Implicit Types (ps : list (piece B)).

(** [havePiece] reads bit [7 - index mod 8] of byte [index / 8], for every index
    the bitfield covers, without failing its assertion. *)
Theorem havePiece_reads_bit bitfield (i : nat) :
  (i < 8 * length bitfield)%nat →
  havePiece (Z.of_nat i) bitfield = Ok (advertised bitfield i).
Proof. apply havePiece_spec. Qed.

(** The assertion of [havePiece] admits the first byte past the bitfield: with
    [index / 8 = size], the check passes and the element read is out of range. *)
Theorem havePiece_off_by_one bitfield (i : nat) :
  (i / 8 = length bitfield)%nat → havePiece (Z.of_nat i) bitfield = Undef.
Proof.
  intros Hi. unfold havePiece.
  replace (Z.of_nat i `div` 8) with (zlen bitfield)
    by (unfold zlen; rewrite <- Hi; by rewrite Nat2Z.inj_div).
  rewrite Z.leb_refl. cbn. unfold zlen. rewrite Nat2Z.id.
  by rewrite lookup_ge_None_2 by lia.
Qed.

(** [hasMissingPiece] answers whether some piece that is neither on disk nor
    complete is advertised by the peer, and it answers without failing. *)
Theorem hasMissingPiece_iff ps bitfield :
  well_fed ps → (length ps <= 8 * length bitfield)%nat → Z.of_nat (length ps) < 2 ^ 32 →
  ∃ b, hasMissingPiece ps bitfield = Ok b ∧
    (b = true ↔ ∃ (i : nat) p, ps !! i = Some p ∧ piece_done p = false ∧
                               advertised bitfield i = true).
Proof. apply hasMissingPiece_spec. Qed.

(** [getPieceIndexes] returns, in increasing order, the indexes of exactly the
    missing pieces (or of exactly the finished ones), so that its two answers
    together list every index once. *)
Theorem getPieceIndexes_partition ps :
  well_fed ps → Z.of_nat (length ps) < 2 ^ 32 →
  ∃ missing done_,
    getPieceIndexes ps true = Ok missing ∧ getPieceIndexes ps false = Ok done_ ∧
    StronglySorted Z.lt missing ∧ StronglySorted Z.lt done_ ∧
    missing ++ done_ ≡ₚ Z.of_nat <$> seq 0 (length ps) ∧
    (∀ (i : nat), Z.of_nat i ∈ missing ↔ ∃ p, ps !! i = Some p ∧ piece_done p = false).
Proof.
  intros Hf Hb. unfold getPieceIndexes. change 0 with (Z.of_nat 0) at 1 2.
  destruct (getPieceIndexes_loop_spec ps true 0 Hf) as (lm & -> & Hsm & Hm); [done|].
  destruct (getPieceIndexes_loop_spec ps false 0 Hf) as (ld & -> & Hsd & Hd); [done|].
  exists lm, ld. split_and!; try done.
  - apply NoDup_Permutation.
    + apply NoDup_app. split_and!; [by apply sorted_lt_NoDup | |by apply sorted_lt_NoDup].
      intros z (i & p & -> & Hi & Hpm)%Hm (j & q & ? & Hj & Hqd)%Hd.
      assert (i = j) as -> by lia. rewrite Hi in Hj. simplify_eq. by rewrite Hpm in Hqd.
    + apply NoDup_fmap_2; [apply _|apply NoDup_seq].
    + intros z. rewrite elem_of_app, Hm, Hd, list_elem_of_fmap. split.
      * intros [(i & p & -> & Hi & _)|(i & p & -> & Hi & _)];
          (exists i; split; [lia|apply elem_of_seq; apply lookup_lt_Some in Hi; lia]).
      * intros (i & -> & [_ Hi]%elem_of_seq).
        destruct (lookup_lt_is_Some_2 ps i Hi) as [p Hp].
        destruct (piece_done p) eqn:E; [right|left]; by exists i, p.
  - intros i. rewrite Hm. split; [intros (j & p & ? & Hj & Hp)|intros (p & Hi & Hp)].
    + assert (i = j) as -> by lia. by exists p.
    + by exists i, p.
Qed.

(** [isMissingPiece] holds exactly when [getPieceIndexes] finds a missing piece. *)
Theorem isMissingPiece_agrees ps :
  well_fed ps → Z.of_nat (length ps) < 2 ^ 32 →
  ∃ b missing, isMissingPiece ps = Ok b ∧ getPieceIndexes ps true = Ok missing ∧
               (b = true ↔ missing ≠ []).
Proof.
  intros Hf Hb.
  destruct (getPieceIndexes_loop_spec ps true 0 Hf) as (lm & Hlm & _ & Hm); [done|].
  exists (existsb (λ p, negb (piece_done p)) ps), lm.
  split_and!; [by apply isMissingPiece_spec | done|].
  rewrite existsb_exists. split.
  - intros (p & [i Hi]%list_elem_of_In%list_elem_of_lookup & Hp) ->.
    apply (elem_of_nil (Z.of_nat i)), Hm. exists i, p. by destruct (piece_done p).
  - destruct lm as [|z lm]; [done|]. intros _.
    destruct (proj1 (Hm z)) as (i & p & -> & Hi & Hp); [by left|].
    exists p. split; [|by rewrite Hp].
    apply list_elem_of_In, list_elem_of_lookup. by exists i.
Qed.

(** [receivedBytes] is the sum, at 32 bits, of the lengths of the pieces on disk
    and of the chunks in memory of the others. *)
Theorem receivedBytes_sum ps :
  receivedBytes ps =
  u32 (zsum ((λ p, if onDisk p then length_ p
                   else zsum (chunkLength <$> chunks p)) <$> ps)).
Proof.
  unfold receivedBytes.
  enough (Hg : ∀ acc, foldl (λ result p,
      if onDisk p then result +u length_ p
      else foldl (λ r c, r +u chunkLength c) result (chunks p)) (u32 acc) ps =
    u32 (acc + zsum ((λ p, if onDisk p then length_ p
                           else zsum (chunkLength <$> chunks p)) <$> ps)))
    by apply (Hg 0).
  induction ps as [|p ps IH]; intros acc; cbn; [by rewrite Z.add_0_r|].
  destruct (onDisk p).
  - rewrite u32_add_mod_l, IH, Z.add_assoc. done.
  - rewrite foldl_u32, IH, Z.add_assoc. done.
Qed.
End Properties.

(** ** Witnesses: the properties at concrete torrents *)
Definition sample_pieces : list (piece (list Z)) :=
  [ Piece [] "p0" [] 4 true;
    Piece [Chunk (Some [[1; 2]; [3]]) 0; Chunk (Some [[4]]) 3] "p1" [] 4 false;
    Piece [Chunk (Some [[9]]) 0] "p2" [] 4 false ].

Lemma sample_well_fed : well_fed sample_pieces.
Proof. repeat constructor; eauto. Defined.

Lemma havePiece_reads_bit_witness :
  (10 < 8 * length [0x80; 0x20])%nat ∧ havePiece 10 [0x80; 0x20] = Ok true.
Proof.
  split; [cbn; lia|]. apply (havePiece_reads_bit [0x80; 0x20] 10). cbn; lia.
Defined.

Lemma havePiece_off_by_one_witness :
  (16 / 8 = length [0x80; 0x20])%nat ∧ havePiece 16 [0x80; 0x20] = Undef.
Proof. split; [reflexivity|]. apply (havePiece_off_by_one [0x80; 0x20] 16). reflexivity. Defined.

Lemma hasMissingPiece_iff_witness :
  well_fed sample_pieces ∧ ∃ b, hasMissingPiece sample_pieces [0x20] = Ok b ∧
    (b = true ↔ ∃ (i : nat) p, sample_pieces !! i = Some p ∧ piece_done p = false ∧
                               advertised [0x20] i = true).
Proof.
  split; [apply sample_well_fed|].
  apply (hasMissingPiece_iff sample_pieces [0x20]);
    [apply sample_well_fed | cbn; lia | cbn; lia].
Defined.

Lemma getPieceIndexes_partition_witness :
  ∃ missing done_,
    getPieceIndexes sample_pieces true = Ok missing ∧
    getPieceIndexes sample_pieces false = Ok done_ ∧
    StronglySorted Z.lt missing ∧ StronglySorted Z.lt done_ ∧
    missing ++ done_ ≡ₚ Z.of_nat <$> seq 0 (length sample_pieces) ∧
    (∀ i : nat, Z.of_nat i ∈ missing ↔
       ∃ p, sample_pieces !! i = Some p ∧ piece_done p = false).
Proof.
  apply (getPieceIndexes_partition sample_pieces); [apply sample_well_fed | cbn; lia].
Defined.

Lemma isMissingPiece_agrees_witness :
  ∃ b missing, isMissingPiece sample_pieces = Ok b ∧
    getPieceIndexes sample_pieces true = Ok missing ∧ (b = true ↔ missing ≠ []).
Proof.
  apply (isMissingPiece_agrees sample_pieces); [apply sample_well_fed | cbn; lia].
Defined.

Example getPieceIndexes_sample : getPieceIndexes sample_pieces true = Ok [2].
Proof. reflexivity. Qed.
