(* ===== verification/BitTorrentChunks.v ===== *)
(** * Overlaps and gaps of a piece (bittorrent_tools.cpp)

    [sanitizeChunks] sorts the chunks of a piece, drops the duplicates and crops the
    overlaps; [getMissingChunks] lists the block requests that complete the piece. *)
From S2P Require Import Prelude MessageBlock BitTorrentPieces.

Definition BITTORRENT_PEER_REQUEST_BLOCK_LENGTH_MAX : Z := 16384.

(** struct BitTorrent_MessagePayload_Request (its [index] is not set here) *)
Record request : Type := Request { begin_ : Z; req_length : Z }.

Section Chunks.
Context {B : Type} `{MessageBlock B}.

Definition chunk_total (c : chunk B) : Z := total_length (default [] (data c)).

(** struct bittorrent_piece_chunks_less *)
Definition chunks_less (lhs rhs : chunk B) : bool :=
  if negb (offset lhs =? offset rhs) then offset lhs <? offset rhs
  else chunk_total rhs <? chunk_total lhs.

(** step2ba, step2bb: crop [overlap] bytes, walking the chain from its last block.
    The chain is given last block first. *)
Fixpoint crop_overlap (rev_blocks : list B) (overlap_i : Z) : outcome (list B) :=
  match rev_blocks with
  | [] => Undef
  | b :: before =>
      if overlap_i <? u32 (block_length b)
      then Ok (mb_rd_ptr overlap_i b :: before)
      else
        let overlap_i := overlap_i -u u32 (block_length b) in
        match before with
        | [] => Abort
        | _ :: _ => if overlap_i =? 0 then Ok before else crop_overlap before overlap_i
        end
  end.

Definition crop_chunk (c : chunk B) (next_offset : Z) : outcome (chunk B) :=
  d ← deref (data c);
  let total_length_i := u32 (total_length d) in
  let overlap_i := if next_offset <? offset c +u total_length_i
                   then u32 (offset c + total_length_i) -u next_offset else 0 in
  if overlap_i =? 0 then Ok c
  else d' ← crop_overlap (rev d) overlap_i; Ok (Chunk (Some (rev d')) (offset c)).

(** step2: [cur] is the chunk under iterator_3, the list starts at iterator_4 *)
Fixpoint merge_overlaps (cur : chunk B) (rest : list (chunk B))
  : outcome (list (chunk B)) :=
  match rest with
  | [] => Ok [cur]
  | nxt :: rest' =>
      if offset cur =? offset nxt then
        match data nxt with
        | None => Abort
        | Some _ => merge_overlaps cur rest'
        end
      else
        cur' ← crop_chunk cur (offset nxt);
        out ← merge_overlaps nxt rest';
        Ok (cur' :: out)
  end.

Section Sort.
(** std::sort with [chunks_less] *)
Variable std_sort : list (chunk B) → list (chunk B).

Definition sanitizeChunks (cs : list (chunk B)) : outcome (list (chunk B)) :=
  match std_sort cs with
  | [] => Ok []
  | c :: cs' => merge_overlaps c cs'
  end.
End Sort.

(** the inner loops of getMissingChunks: requests of at most 16384 bytes for the
    [missing_data] bytes at [offset_] *)
Fixpoint request_blocks (fuel : nat) (offset_ missing_data : Z) : list request * Z :=
  match fuel with
  | O => ([], offset_)
  | S fuel =>
      if missing_data =? 0 then ([], offset_)
      else
        let l := Z.min missing_data BITTORRENT_PEER_REQUEST_BLOCK_LENGTH_MAX in
        let '(rs, o) := request_blocks fuel (offset_ +u l) (missing_data -u l) in
        (Request offset_ l :: rs, o)
  end.

(** one more turn than there are full blocks *)
Definition request_fuel (missing_data : Z) : nat :=
  S (Z.to_nat (missing_data `div` BITTORRENT_PEER_REQUEST_BLOCK_LENGTH_MAX + 1)).

Definition request_gap (offset_ missing_data : Z) : list request * Z :=
  request_blocks (request_fuel missing_data) offset_ missing_data.

Fixpoint getMissingChunks_loop (offset_ : Z) (cs : list (chunk B))
  : outcome (list request * Z) :=
  match cs with
  | [] => Ok ([], offset_)
  | c :: cs' =>
      if negb (offset c =? offset_) then
        ace_assert (offset_ <? offset c);;
        let '(rs, o) := request_gap offset_ (offset c -u offset_) in
        '(rs', o') ← getMissingChunks_loop o cs';
        Ok (rs ++ rs', o')
      else getMissingChunks_loop (offset c +u chunkLength c) cs'
  end.

Definition getMissingChunks (pieceLength_in : Z) (cs : list (chunk B))
  : outcome (list request) :=
  '(rs, o) ← getMissingChunks_loop 0 cs;
  Ok (rs ++ fst (request_gap o (pieceLength_in -u o))).
End Chunks.
#[global] Arguments request_gap : simpl never.

(** ** Specification vocabulary *)

(** the requests [rs] cover [a, b) without gap or overlap, in blocks of 1..16384 bytes *)
Fixpoint tiles (rs : list request) (a b : Z) : Prop :=
  match rs with
  | [] => a = b
  | r :: rs => begin_ r = a ∧
      0 < req_length r <= BITTORRENT_PEER_REQUEST_BLOCK_LENGTH_MAX ∧
      tiles rs (a + req_length r) b
  end.

Section Specification.
Context {B : Type} `{MessageBlock B}.

(** the chunk lies in [0, bound) and holds data *)
Definition chunk_in (bound : Z) (c : chunk B) : Prop :=
  0 <= offset c ∧ 0 < chunkLength c ∧ offset c + chunkLength c <= bound.

(** a chunk with data, a non-empty chain, that ends below 2^32 (the begin of a block comes
    from the peer, and nothing checks that it does) *)
Definition valid_chunk (c : chunk B) : Prop :=
  ∃ d, data c = Some d ∧ d ≠ [] ∧ 0 <= offset c ∧
       offset c + zlen (chain_bytes d) < 2 ^ 32.

(** std::sort: some permutation, ordered by [chunks_less] *)
Definition is_sort (std_sort : list (chunk B) → list (chunk B)) : Prop :=
  ∀ cs, std_sort cs ≡ₚ cs ∧
        StronglySorted (λ a b, chunks_less b a = false) (std_sort cs).

(** by offset; the longest first among equals *)
Definition chunk_ord (a b : chunk B) : Prop :=
  offset a < offset b ∨ (offset a = offset b ∧ chunkLength b <= chunkLength a).

(** no chunk reaches beyond the end of one that starts after it *)
Definition ends_ordered (cs : list (chunk B)) : Prop :=
  ∀ a b, a ∈ cs → b ∈ cs → offset a < offset b →
         offset a + chunkLength a <= offset b + chunkLength b.

(** the chunks are ordered and do not overlap *)
Definition disjoint_chunks (cs : list (chunk B)) : Prop :=
  StronglySorted (λ a b, offset a + chunkLength a <= offset b) cs.

(** the end of the gap-free run of chunks that starts at [o] *)
Fixpoint contiguous_from (o : Z) (cs : list (chunk B)) : Z :=
  match cs with
  | [] => o
  | c :: cs => if offset c =? o then contiguous_from (o + chunkLength c) cs else o
  end.

Definition held (cs : list (chunk B)) (p : Z) : Prop :=
  ∃ c, c ∈ cs ∧ offset c <= p < offset c + chunkLength c.
Definition requested (rs : list request) (p : Z) : Prop :=
  ∃ r, r ∈ rs ∧ begin_ r <= p < begin_ r + req_length r.
End Specification.

(** ** Requests tile the gaps *)
Lemma tiles_app rs rs' a b c : tiles rs a b → tiles rs' b c → tiles (rs ++ rs') a c.
Proof.
  revert a. induction rs as [|r rs IH]; intros a; cbn; [by intros ->|].
  intros (? & ? & ?) ?. split; [done|]. split; [done|]. by apply IH.
Qed.

Lemma tiles_le rs a b : tiles rs a b → a <= b.
Proof.
  revert a. induction rs as [|r rs IH]; intros a; cbn; [lia|].
  intros (? & ? & ?%IH). lia.
Qed.

Lemma tiles_nil rs a : tiles rs a a → rs = [].
Proof. destruct rs; [done|]. cbn. intros (? & ? & ?%tiles_le). lia. Qed.

Lemma tiles_requested rs a b p : tiles rs a b → requested rs p ↔ a <= p < b.
Proof.
  unfold requested. revert a. induction rs as [|r rs IH]; intros a; cbn.
  { intros ->. split; [intros (r & []%elem_of_nil & _)|lia]. }
  intros (Ha & Hl & Ht). specialize (IH _ Ht). pose proof (tiles_le _ _ _ Ht).
  split.
  - intros (q & [->|Hq]%elem_of_cons & Hp); [lia|].
    assert (a + req_length r <= p < b) by (apply IH; eauto). lia.
  - intros Hp. destruct (Z_lt_ge_dec p (a + req_length r)).
    + exists r. split; [by left|lia].
    + destruct (proj2 IH) as (q & Hq & ?); [lia|]. exists q. split; [by right|done].
Qed.

Lemma request_blocks_tiles fuel : ∀ o m,
  0 <= o → 0 <= m → o + m < 2 ^ 32 →
  m <= Z.of_nat fuel * BITTORRENT_PEER_REQUEST_BLOCK_LENGTH_MAX →
  ∃ rs, request_blocks fuel o m = (rs, o + m) ∧ tiles rs o (o + m).
Proof.
  unfold BITTORRENT_PEER_REQUEST_BLOCK_LENGTH_MAX.
  induction fuel as [|fuel IH]; intros o m Ho Hm Hb Hf.
  { assert (m = 0) as -> by lia. exists []. by rewrite Z.add_0_r. }
  cbn [request_blocks]. destruct (m =? 0) eqn:E; bool_lia.
  { subst. exists []. rewrite Z.add_0_r. done. }
  unfold BITTORRENT_PEER_REQUEST_BLOCK_LENGTH_MAX.
  set (l := Z.min m 16384).
  destruct (IH (o + l) (m - l)) as (rs & Hrs & Ht); [lia..|].
  rewrite !u32_small by lia. rewrite Hrs.
  exists (Request o l :: rs). replace (o + l + (m - l)) with (o + m) in * by lia.
  split; [done|]. cbn. unfold BITTORRENT_PEER_REQUEST_BLOCK_LENGTH_MAX.
  split; [done|]. split; [lia|done].
Qed.

Lemma request_gap_tiles o m :
  0 <= o → 0 <= m → o + m < 2 ^ 32 →
  ∃ rs, request_gap o m = (rs, o + m) ∧ tiles rs o (o + m).
Proof.
  intros. apply request_blocks_tiles; try done.
  unfold request_fuel, BITTORRENT_PEER_REQUEST_BLOCK_LENGTH_MAX.
  pose proof (Z.mul_succ_div_gt m 16384). pose proof (Z.div_pos m 16384). lia.
Qed.

Section GetMissing.
Context {B : Type} `{MessageBlock B}.
Implicit Types (cs : list (chunk B)).

(** Once a chunk lies beyond the running offset, every later byte is requested. *)
Lemma getMissingChunks_loop_spec bound cs : ∀ o,
  bound < 2 ^ 32 → 0 <= o → Forall (chunk_in bound) cs → disjoint_chunks cs →
  Forall (λ c, o <= offset c) cs →
  ∃ rs o', getMissingChunks_loop o cs = Ok (rs, o') ∧
    tiles rs (contiguous_from o cs) o' ∧ (o <= bound → o' <= bound).
Proof.
  induction cs as [|c cs IH]; intros o Hb Ho Hin Hdis Hge; cbn.
  { exists [], o. done. }
  apply Forall_cons in Hin as [(Hc1 & Hc2 & Hc3) Hin].
  apply StronglySorted_inv in Hdis as [Hdis Hlt].
  apply Forall_cons in Hge as [Hge _].
  destruct (offset c =? o) eqn:E; bool_lia; cbn.
  - subst o. rewrite u32_small by lia.
    destruct (IH (offset c + chunkLength c)) as (rs & o' & -> & Ht & Hle); try done; [lia|].
    exists rs, o'. split_and!; [done..|]. intros _. apply Hle. lia.
  - replace (o <? offset c) with true by (symmetry; apply Z.ltb_lt; lia). cbn.
    rewrite (u32_small (offset c - o)) by lia.
    destruct (request_gap_tiles o (offset c - o)) as (rs & -> & Ht); [lia..|].
    replace (o + (offset c - o)) with (offset c) in * by lia. cbn.
    destruct (IH (offset c)) as (rs' & o' & -> & Ht' & Hle); try done.
    { eapply Forall_impl; [exact Hlt|]. cbn. lia. }
    exists (rs ++ rs'), o'. cbn. split_and!; [done| |intros _; apply Hle; lia].
    apply (tiles_app _ _ _ (offset c)); [done|].
    destruct cs as [|d cs]; [done|]. cbn in Ht'. apply Forall_cons in Hlt as [Hd _].
    destruct (offset d =? offset c) eqn:Ed; bool_lia. done.
Qed.

Lemma contiguous_from_range bound cs : ∀ o,
  Forall (chunk_in bound) cs → o <= bound → o <= contiguous_from o cs <= bound.
Proof.
  induction cs as [|c cs IH]; intros o Hin Ho; cbn; [lia|].
  apply Forall_cons in Hin as [(? & ? & ?) Hin]. destruct_if; bool_lia.
  specialize (IH (o + chunkLength c) Hin). lia.
Qed.

Lemma contiguous_from_held o cs p : o <= p < contiguous_from o cs → held cs p.
Proof.
  unfold held. revert o. induction cs as [|c cs IH]; intros o; cbn; [lia|].
  destruct_if; bool_lia. intros Hp.
  destruct (Z_lt_ge_dec p (o + chunkLength c)).
  - exists c. split; [by left|lia].
  - destruct (IH (o + chunkLength c)) as (d & ? & ?); [lia|].
    exists d. split; [by right|done].
Qed.

Lemma getMissingChunks_tiles L cs :
  0 <= L < 2 ^ 32 → Forall (chunk_in L) cs → disjoint_chunks cs →
  ∃ rs, getMissingChunks L cs = Ok rs ∧ tiles rs (contiguous_from 0 cs) L.
Proof.
  intros HL Hin Hdis.
  destruct (getMissingChunks_loop_spec L cs 0) as (rs & o & Hl & Ht & Ho); try done; [lia| |].
  { eapply Forall_impl; [exact Hin|]. intros c (? & _). done. }
  unfold getMissingChunks. rewrite Hl. cbn.
  pose proof (contiguous_from_range L cs 0 Hin). pose proof (tiles_le _ _ _ Ht).
  destruct (request_gap_tiles o (L - o)) as (rs' & Hg & Ht'); [lia..|].
  rewrite u32_small by lia. rewrite Hg.
  exists (rs ++ rs'). split; [done|]. replace (o + (L - o)) with L in * by lia.
  by eapply tiles_app.
Qed.
End GetMissing.

Section Sanitize.
Context {B : Type} `{MessageBlock B}.
Implicit Types (cs rest : list (chunk B)) (c : chunk B).

Lemma valid_chunkLength c d :
  data c = Some d → 0 <= offset c → offset c + zlen (chain_bytes d) < 2 ^ 32 →
  chunkLength c = zlen (chain_bytes d) ∧ chunk_total c = zlen (chain_bytes d) ∧
  0 <= zlen (chain_bytes d) < 2 ^ 32.
Proof.
  intros Hd Ho Hb. pose proof (zlen_nonneg (chain_bytes d)).
  unfold chunkLength, chunk_total. rewrite Hd. cbn.
  rewrite total_length_small, u32_small; lia.
Qed.

Lemma sorted_chunk_ord cs :
  Forall valid_chunk cs → StronglySorted (λ a b, chunks_less b a = false) cs →
  StronglySorted chunk_ord cs.
Proof.
  intros Hv Hs. induction Hs as [|c cs Hs IH Hc]; [constructor|].
  apply Forall_cons in Hv as [(d & Hd & _ & Ho & Hb) Hv].
  constructor; [by apply IH|].
  rewrite Forall_forall in Hc, Hv |- *. intros c' Hin.
  specialize (Hc c' Hin). destruct (Hv c' Hin) as (d' & Hd' & _ & Ho' & Hb').
  destruct (valid_chunkLength c d) as (Hl & Ht & _); [done..|].
  destruct (valid_chunkLength c' d') as (Hl' & Ht' & _); [done..|].
  unfold chunks_less, chunk_ord in *. rewrite Hl, Hl', Ht, Ht' in *.
  destruct (offset c' =? offset c) eqn:E; cbn in Hc; bool_lia.
Qed.

(** Cropping always finds a block to crop in; only the amount of data changes. *)
Lemma crop_overlap_spec rb : ∀ o,
  0 < o → o < zsum (block_length <$> rb) → zsum (block_length <$> rb) < 2 ^ 32 →
  ∃ rb', crop_overlap rb o = Ok rb' ∧ rb' ≠ [] ∧
         zsum (block_length <$> rb') = zsum (block_length <$> rb) - o.
Proof.
  induction rb as [|b rb IH]; intros o Ho Hlt Hb; unfold zsum in *; cbn in *; [lia|].
  pose proof (block_length_nonneg b) as Hbl.
  assert (0 <= zsum (block_length <$> rb)) as Hrb
    by (apply zsum_nonneg, Forall_fmap, Forall_true; intros; apply block_length_nonneg).
  unfold zsum in Hrb.
  rewrite !(u32_small (block_length b)) by lia.
  destruct (o <? block_length b) eqn:E; bool_lia.
  - eexists; split; [done|]. split; [done|]. cbn. rewrite block_length_rd_ptr; lia.
  - rewrite u32_small by lia. destruct rb as [|b' rb]; [cbn in *; lia|].
    destruct (o - block_length b =? 0) eqn:E'; bool_lia.
    + eexists; split; [done|]. split; [done|]. cbn in *. lia.
    + destruct (IH (o - block_length b)) as (rb' & Hr & Hne & Hz); [lia..|].
      exists rb'. rewrite Hr, Hz. split; [done|]. split; [done|]. cbn. lia.
Qed.

Lemma crop_chunk_spec c n :
  valid_chunk c → offset c < n < 2 ^ 32 →
  ∃ c', crop_chunk c n = Ok c' ∧ valid_chunk c' ∧ offset c' = offset c ∧
        chunkLength c' = Z.min (chunkLength c) (n - offset c).
Proof.
  intros (d & Hd & Hne & Ho & Hb) Hn.
  destruct (valid_chunkLength c d) as (Hl & _ & Hr); [done..|].
  unfold crop_chunk. rewrite Hd. cbn.
  rewrite total_length_small, (u32_small (zlen (chain_bytes d))),
    (u32_small (offset c + _)) by lia.
  destruct (n <? offset c + zlen (chain_bytes d)) eqn:E; bool_lia.
  - rewrite u32_small by lia. rewrite (proj2 (Z.eqb_neq _ _)) by lia.
    assert (Hz : zsum (block_length <$> rev d) = zlen (chain_bytes d)).
    { rewrite zlen_chain_bytes. apply zsum_Permutation, fmap_Permutation.
      by rewrite <- Permutation_rev. }
    destruct (crop_overlap_spec (rev d) (offset c + zlen (chain_bytes d) - n))
      as (rb & -> & Hrb & Hzb); [lia..|]. cbn.
    assert (Hz' : zlen (chain_bytes (rev rb)) = n - offset c).
    { rewrite zlen_chain_bytes, (zsum_Permutation _ (block_length <$> rb)).
      - lia.
      - apply fmap_Permutation. by rewrite <- Permutation_rev. }
    eexists; split; [done|]. cbn. split.
    + exists (rev rb). cbn. split_and!; try done; [|lia].
      intros Hnil. apply Hrb. by rewrite <- (rev_involutive rb), Hnil.
    + split; [done|]. rewrite Hl. unfold chunkLength. cbn.
      rewrite total_length_small, u32_small; lia.
  - exists c. split; [done|]. split; [by exists d|]. split; [done|]. lia.
Qed.

Lemma held_cons c cs p :
  held (c :: cs) p ↔ offset c <= p < offset c + chunkLength c ∨ held cs p.
Proof.
  unfold held. split.
  - intros (d & [->|Hd]%elem_of_cons & Hp); [by left|right; eauto].
  - intros [Hp|(d & Hd & Hp)]; [exists c|exists d]; split; try done; set_solver.
Qed.

Lemma ends_ordered_sub cs cs' : cs' ⊆ cs → ends_ordered cs → ends_ordered cs'.
Proof. unfold ends_ordered. intros Hs He a b Ha Hb. apply He; by apply Hs. Qed.

(** What the merge promises about its result [out]: valid, ordered, without overlap,
    at the same offsets, and holding no byte that was not received; nothing is lost
    when no chunk extends beyond one that starts later. *)
Definition merged (cs out : list (chunk B)) : Prop :=
  Forall valid_chunk out ∧ disjoint_chunks out ∧
  (∀ o, o ∈ offset <$> out ↔ o ∈ offset <$> cs) ∧
  (∀ p, held out p → held cs p) ∧
  (ends_ordered cs → ∀ p, held cs p → held out p).

Lemma merged_duplicate cur nxt rest out :
  offset cur = offset nxt → chunkLength nxt <= chunkLength cur →
  merged (cur :: rest) out → merged (cur :: nxt :: rest) out.
Proof.
  intros Heq Hle (Hv & Hd & Ho & Hi & Hk). split_and!; try done.
  - intros o. rewrite Ho. rewrite !fmap_cons, !elem_of_cons. naive_solver.
  - intros p Hp%Hi. revert Hp. rewrite !held_cons. tauto.
  - intros He p Hp. apply Hk.
    + eapply ends_ordered_sub; [|exact He]. set_solver.
    + revert Hp. rewrite !held_cons. intros [?|[?|?]]; [left; lia..|by right].
Qed.

Lemma merged_crop cur cur' nxt rest out :
  valid_chunk cur' → offset cur' = offset cur → offset cur < offset nxt →
  chunkLength cur' = Z.min (chunkLength cur) (offset nxt - offset cur) →
  Forall (λ c, offset nxt <= offset c) out →
  merged (nxt :: rest) out → merged (cur :: nxt :: rest) (cur' :: out).
Proof.
  intros Hv' Hoff Hlt Hlen Hge (Hv & Hd & Ho & Hi & Hk). split_and!.
  - by constructor.
  - constructor; [done|]. eapply Forall_impl; [exact Hge|]. cbn. lia.
  - intros o. rewrite !fmap_cons, !elem_of_cons, Ho, fmap_cons, elem_of_cons, Hoff. tauto.
  - intros p. rewrite held_cons, (held_cons cur). intros [?|?%Hi]; [left; lia|by right].
  - intros He p. rewrite (held_cons cur), (held_cons cur'). intros [Hp|Hp].
    + destruct (Z_lt_ge_dec p (offset nxt)); [left; lia|right].
      apply Hk; [eapply ends_ordered_sub; [|exact He]; set_solver|].
      apply held_cons. left. 
        assert (offset cur + chunkLength cur <= offset nxt + chunkLength nxt)
          by (apply He; [set_solver|set_solver|done]). lia.
    + right. apply Hk; [|done]. eapply ends_ordered_sub; [|exact He]. set_solver.
Qed.

Lemma merge_overlaps_spec rest : ∀ cur,
  Forall valid_chunk (cur :: rest) → StronglySorted chunk_ord (cur :: rest) →
  ∃ out, merge_overlaps cur rest = Ok out ∧ merged (cur :: rest) out ∧
         Forall (λ c, offset cur <= offset c) out.
Proof.
  induction rest as [|nxt rest IH]; intros cur Hv Hs; cbn [merge_overlaps].
  { exists [cur]. split; [done|]. split; [|repeat constructor; lia].
    split_and!; try done. repeat constructor. }
  apply StronglySorted_inv in Hs as [Hs Hc].
  apply Forall_cons in Hc as [Hn Hc]. apply Forall_cons in Hv as [Hvc Hv].
  pose proof Hv as Hv2. apply Forall_cons in Hv2 as [(dn & Hdn & _ & Hno & Hnb) Hvr].
  pose proof (zlen_nonneg (chain_bytes dn)).
  destruct (offset cur =? offset nxt) eqn:E; bool_lia.
  - rewrite Hdn. destruct Hn as [Hn|[_ Hn]]; [lia|].
    destruct (IH cur) as (out & Hout & Hm & Hge).
    { by constructor. }
    { constructor; [by apply StronglySorted_inv in Hs as [? _]|done]. }
    exists out. split; [done|]. split; [|done]. by apply merged_duplicate.
  - destruct Hn as [Hn|[Hn _]]; [|lia].
    destruct (crop_chunk_spec cur (offset nxt)) as (cur' & -> & Hv' & Ho' & Hl'); [done|lia|].
    destruct (IH nxt) as (out & Hout & Hm & Hge); [done..|].
    rewrite Hout. cbn. exists (cur' :: out). split; [done|]. split.
    + by apply merged_crop with (nxt := nxt).
    + constructor; [lia|]. eapply Forall_impl; [exact Hge|]. cbn. lia.
Qed.

Lemma merged_Permutation cs cs' out : cs ≡ₚ cs' → merged cs out → merged cs' out.
Proof.
  intros Hp (Hv & Hd & Ho & Hi & Hk).
  assert (Hheld : ∀ p, held cs p ↔ held cs' p)
    by (intros p; unfold held; by setoid_rewrite Hp).
  split_and!; try done.
  - intros o. rewrite Ho. by rewrite Hp.
  - intros p ?%Hi. by apply Hheld.
  - intros He p ?%Hheld. apply Hk; [|done].
    unfold ends_ordered in *. intros a b Ha Hb. apply He; by rewrite <- Hp.
Qed.

Lemma sanitizeChunks_merged std_sort cs :
  is_sort std_sort → Forall valid_chunk cs →
  ∃ out, sanitizeChunks std_sort cs = Ok out ∧ merged cs out.
Proof.
  intros Hsort Hv. destruct (Hsort cs) as [Hp Hs]. unfold sanitizeChunks.
  assert (Hv' : Forall valid_chunk (std_sort cs)) by (by rewrite Hp).
  destruct (std_sort cs) as [|c cs'].
  - apply Permutation_nil in Hp as ->. exists []. split; [done|].
    split_and!; try done. constructor.
  - destruct (merge_overlaps_spec cs' c) as (out & -> & Hm & _); [done| |].
    { by apply sorted_chunk_ord. }
    exists out. split; [done|]. by eapply merged_Permutation.
Qed.
End Sanitize.

(** ** Completeness of a piece *)
Section Completeness.
Context {B : Type} `{MessageBlock B}.
Implicit Types (cs : list (chunk B)).

Lemma contiguous_sum L cs : ∀ o,
  Forall (chunk_in L) cs → disjoint_chunks cs → Forall (λ c, o <= offset c) cs → o <= L →
  zsum (chunkLength <$> cs) <= L - o ∧
  (contiguous_from o cs = L ↔ zsum (chunkLength <$> cs) = L - o).
Proof.
  induction cs as [|c cs IH]; intros o Hin Hdis Hge Ho; unfold zsum in *; cbn; [lia|].
  apply Forall_cons in Hin as [(Hc1 & Hc2 & Hc3) Hin].
  apply StronglySorted_inv in Hdis as [Hdis Hlt].
  apply Forall_cons in Hge as [Hge _].
  destruct (IH (offset c + chunkLength c)) as [Hle Hiff]; [done..|].
  destruct (offset c =? o) eqn:E; bool_lia. subst o. rewrite Hiff. lia.
Qed.

Lemma isPieceComplete_disjoint L cs :
  0 <= L < 2 ^ 32 → have_data cs → Forall (chunk_in L) cs → disjoint_chunks cs →
  isPieceComplete L cs = Ok (L =? zsum (chunkLength <$> cs)).
Proof.
  intros HL Hd Hin Hdis. rewrite isPieceComplete_sum by done.
  rewrite u32_small; [done|].
  destruct (contiguous_sum L cs 0) as [Hle _]; try done; [|lia|].
  { eapply Forall_impl; [exact Hin|]. by intros c (? & _). }
  split; [|lia]. apply zsum_nonneg, Forall_fmap.
  eapply Forall_impl; [exact Hin|]. intros c (_ & ? & _). cbn. lia.
Qed.
(** no request is left exactly when the chunks add up to the length *)
Lemma complete_no_missing L cs :
  0 <= L < 2 ^ 32 → have_data cs → Forall (chunk_in L) cs → disjoint_chunks cs →
  isPieceComplete L cs = Ok true ↔ getMissingChunks L cs = Ok [].
Proof.
  intros HL Hd Hin Hdis. rewrite isPieceComplete_disjoint by done.
  destruct (getMissingChunks_tiles L cs) as (rs & -> & Ht); [done..|].
  destruct (contiguous_sum L cs 0) as [_ Hiff]; try done; [|lia|].
  { eapply Forall_impl; [exact Hin|]. by intros c (? & _). }
  rewrite Z.sub_0_r in Hiff. split.
  - intros [= Heq%Z.eqb_eq]. rewrite (proj2 Hiff) in Ht by done.
    by apply tiles_nil in Ht as ->.
  - intros [= ->]. cbn in Ht. f_equal. apply Z.eqb_eq. symmetry. by apply Hiff.
Qed.
End Completeness.

(** ** Properties *)
Section Properties.
Context {B : Type} `{MessageBlock B}.
Implicit Types (cs : list (chunk B)).

(** C4: on chunks with data that end below 2^32, [sanitizeChunks] returns (no assertion
    fails); what it leaves is ordered and free of overlaps, has the same offsets as the
    input, and covers no position that the input does not cover.  The bytes that are
    left at a position can be the wrong ones (sanitizeChunks_crops_front), and the bound
    is not checked when a block is received: a block whose end wraps around keeps its
    overlap (wrapped_chunks_overlap). *)
Theorem sanitizeChunks_disjoint std_sort cs :
  is_sort std_sort → Forall valid_chunk cs →
  ∃ out, sanitizeChunks std_sort cs = Ok out ∧ Forall valid_chunk out ∧
    disjoint_chunks out ∧ (∀ o, o ∈ offset <$> out ↔ o ∈ offset <$> cs) ∧
    (∀ p, held out p → held cs p).
Proof.
  intros Hs Hv. destruct (sanitizeChunks_merged std_sort cs) as (out & Ho & Hm); [done..|].
  destruct Hm as (? & ? & ? & ? & _). by exists out.
Qed.

(** When no chunk reaches beyond the end of one that starts later, sanitizing
    keeps every byte position that was held. *)
Theorem sanitizeChunks_keeps_bytes std_sort cs :
  is_sort std_sort → Forall valid_chunk cs → ends_ordered cs →
  ∃ out, sanitizeChunks std_sort cs = Ok out ∧ ∀ p, held out p ↔ held cs p.
Proof.
  intros Hs Hv He. destruct (sanitizeChunks_merged std_sort cs) as (out & Ho & Hm); [done..|].
  destruct Hm as (_ & _ & _ & ? & Hk). exists out. split; [done|]. split; [auto|by apply Hk].
Qed.

(** The crop of an overlap keeps the wrong end of the data: a one-block chunk that
    overlaps its successor by [k] bytes keeps its last bytes (the overlapping ones) and
    loses its first [k], instead of the other way round. *)
Theorem sanitizeChunks_crops_front (b : B) o n :
  0 <= o → o < n → n < o + block_length b → o + block_length b < 2 ^ 32 →
  ∃ b', crop_chunk (Chunk (Some [b]) o) n = Ok (Chunk (Some [b']) o) ∧
        mb_bytes b' = drop (Z.to_nat (o + block_length b - n)) (mb_bytes b).
Proof.
  intros Ho Hn Hb Hm. exists (mb_rd_ptr (o + block_length b - n) b).
  assert (Ht : total_length [b] = block_length b).
  { unfold total_length, zsum. cbn. rewrite u64_small; lia. }
  unfold crop_chunk. cbn -[crop_overlap total_length].
  rewrite Ht, (u32_small (block_length b)), (u32_small (o + _)) by lia.
  rewrite (proj2 (Z.ltb_lt _ _)) by lia. rewrite u32_small by lia.
  rewrite (proj2 (Z.eqb_neq _ _)) by lia. cbn.
  rewrite (u32_small (block_length b)) by lia.
  rewrite (proj2 (Z.ltb_lt _ _)) by lia. cbn. split; [done|].
  apply mb_rd_ptr_bytes. unfold block_length in *. lia.
Qed.

(** C5: [getMissingChunks] returns, for ordered chunks without overlap inside the piece,
    requests that tile exactly the range from the end of the gap-free prefix to the end
    of the piece, in blocks of 1 to 16384 bytes, failing no assertion. *)
Theorem getMissingChunks_exact L cs :
  0 <= L < 2 ^ 32 → Forall (chunk_in L) cs → disjoint_chunks cs →
  ∃ rs, getMissingChunks L cs = Ok rs ∧ tiles rs (contiguous_from 0 cs) L.
Proof. apply getMissingChunks_tiles. Qed.

(** Every byte of the piece that no chunk holds is requested, and nothing outside
    the piece is. *)
Theorem getMissingChunks_covers L cs :
  0 <= L < 2 ^ 32 → Forall (chunk_in L) cs → disjoint_chunks cs →
  ∃ rs, getMissingChunks L cs = Ok rs ∧
    (∀ p, 0 <= p < L → ¬ held cs p → requested rs p) ∧
    (∀ p, requested rs p → 0 <= p < L).
Proof.
  intros HL Hin Hdis.
  destruct (getMissingChunks_tiles L cs) as (rs & -> & Ht); [done..|].
  pose proof (contiguous_from_range L cs 0 Hin).
  exists rs. split; [done|]. split; intros p; rewrite (tiles_requested _ _ _ p Ht); [|lia].
  intros Hp Hnot. split; [|lia]. apply Z.nlt_ge. intros Hlt. apply Hnot.
  apply (contiguous_from_held 0). lia.
Qed.

(** After the first gap [getMissingChunks] requests data it already has: every byte
    of a chunk that lies beyond the gap-free prefix is requested again. *)
Theorem getMissingChunks_requests_held_data L cs c :
  0 <= L < 2 ^ 32 → Forall (chunk_in L) cs → disjoint_chunks cs →
  c ∈ cs → contiguous_from 0 cs <= offset c →
  ∃ rs, getMissingChunks L cs = Ok rs ∧
    ∀ p, offset c <= p < offset c + chunkLength c → requested rs p.
Proof.
  intros HL Hin Hdis Hc Hge.
  destruct (getMissingChunks_tiles L cs) as (rs & -> & Ht); [done..|].
  exists rs. split; [done|]. intros p Hp. apply (tiles_requested _ _ _ p Ht).
  rewrite Forall_forall in Hin. destruct (Hin c Hc) as (_ & _ & ?). lia.
Qed.

(** On ordered chunks without overlap, [isPieceComplete] (which only compares the
    total length) holds exactly when nothing is left to request. *)
Theorem isPieceComplete_iff_no_missing L cs :
  0 <= L < 2 ^ 32 → have_data cs → Forall (chunk_in L) cs → disjoint_chunks cs →
  isPieceComplete L cs = Ok true ↔ getMissingChunks L cs = Ok [].
Proof.
  apply complete_no_missing.
Qed.
End Properties.

(** ** Witnesses: one piece of 8 bytes received in three chunks *)
Section Sort.
Context {B : Type} `{MessageBlock B}.

Definition not_before (a b : chunk B) : Prop := chunks_less b a = false.

#[export] Instance not_before_dec : RelDecision not_before.
Proof. intros a b. unfold not_before. apply _. Defined.
#[export] Instance not_before_total : Total not_before.
Proof.
  intros a b. unfold not_before, chunks_less. rewrite (Z.eqb_sym (offset b)).
  destruct (offset a =? offset b) eqn:E; cbn; rewrite !Z.ltb_ge; lia.
Qed.
#[export] Instance not_before_trans : Transitive not_before.
Proof.
  intros a b c. unfold not_before, chunks_less.
  destruct (offset b =? offset a) eqn:E1, (offset c =? offset b) eqn:E2,
    (offset c =? offset a) eqn:E3; cbn; rewrite ?Z.ltb_ge; bool_lia.
Qed.

(** one possible std::sort *)
Definition chunk_sort : list (chunk B) → list (chunk B) := merge_sort not_before.

Lemma chunk_sort_is_sort : is_sort chunk_sort.
Proof.
  intros cs. split; [apply merge_sort_Permutation|apply (StronglySorted_merge_sort not_before)].
Qed.
End Sort.

Definition overlapping_chunks : list (chunk (list Z)) :=
  [ Chunk (Some [[67; 68; 69; 70]]) 2; Chunk (Some [[65; 66; 67; 68]]) 0;
    Chunk (Some [[65]]) 0 ].
Definition tail_chunk : chunk (list Z) := Chunk (Some [[1; 2; 3; 4]]) 4.
Definition gap_chunks : list (chunk (list Z)) := [tail_chunk].

Ltac concrete_chunks :=
  repeat constructor; cbn; unfold valid_chunk, chunk_in;
  try (eexists; split; [reflexivity|]); cbn; try done; try lia.

Lemma overlapping_valid : Forall valid_chunk overlapping_chunks.
Proof. concrete_chunks. Defined.
Lemma gap_chunks_in : Forall (chunk_in 8) gap_chunks.
Proof. concrete_chunks. Defined.
Lemma gap_chunks_disjoint : disjoint_chunks gap_chunks.
Proof. concrete_chunks. Defined.

Lemma sanitizeChunks_disjoint_witness :
  ∃ out, sanitizeChunks chunk_sort overlapping_chunks = Ok out ∧ Forall valid_chunk out ∧
    disjoint_chunks out ∧
    (∀ o, o ∈ offset <$> out ↔ o ∈ offset <$> overlapping_chunks) ∧
    (∀ p, held out p → held overlapping_chunks p).
Proof.
  apply (sanitizeChunks_disjoint chunk_sort overlapping_chunks);
    [apply chunk_sort_is_sort | apply overlapping_valid].
Defined.

Lemma overlapping_ends_ordered : ends_ordered overlapping_chunks.
Proof.
  intros a b Ha Hb. unfold overlapping_chunks in *.
  rewrite !elem_of_cons in Ha, Hb. destruct_or!; subst; cbn;
    try (by apply elem_of_nil in Ha); try (by apply elem_of_nil in Hb); vm_compute; intuition congruence.
Defined.

Lemma sanitizeChunks_keeps_bytes_witness :
  ∃ out, sanitizeChunks chunk_sort overlapping_chunks = Ok out ∧
    ∀ p, held out p ↔ held overlapping_chunks p.
Proof.
  apply (sanitizeChunks_keeps_bytes chunk_sort overlapping_chunks);
    [apply chunk_sort_is_sort | apply overlapping_valid | apply overlapping_ends_ordered].
Defined.

(** bytes "ABCD" at 0 and "CDEF" at 2: the piece reads "CDCDEF", not "ABCDEF" *)
Example sanitizeChunks_scrambles :
  sanitizeChunks chunk_sort overlapping_chunks =
  Ok [Chunk (Some [[67; 68]]) 0; Chunk (Some [[67; 68; 69; 70]]) 2].
Proof. vm_compute. reflexivity. Qed.

(** A block of four bytes that begins two bytes below 2^32: its end wraps around, and the
    overlap with the block behind it stays. *)
Definition wrapped_chunks : list (chunk (list Z)) :=
  [Chunk (Some [[65; 66; 67; 68]]) (2 ^ 32 - 2); Chunk (Some [[69]]) (2 ^ 32 - 1)].
Example wrapped_chunks_overlap :
  sanitizeChunks chunk_sort wrapped_chunks = Ok wrapped_chunks ∧
  2 ^ 32 - 1 < 2 ^ 32 - 2 + chunkLength (Chunk (Some [[65; 66; 67; 68]]) (2 ^ 32 - 2)).
Proof. split; vm_compute; reflexivity. Qed.

Lemma sanitizeChunks_crops_front_witness :
  ∃ b', crop_chunk (Chunk (Some [[65; 66; 67; 68]]) 0) 2 = Ok (Chunk (Some [b']) 0) ∧
        mb_bytes b' = drop (Z.to_nat (0 + block_length [65; 66; 67; 68] - 2)) (mb_bytes [65; 66; 67; 68]).
Proof. apply (sanitizeChunks_crops_front [65; 66; 67; 68] 0 2); unfold block_length, zlen; cbn; lia. Defined.

Lemma getMissingChunks_exact_witness :
  ∃ rs, getMissingChunks 8 gap_chunks = Ok rs ∧ tiles rs (contiguous_from 0 gap_chunks) 8.
Proof.
  apply (getMissingChunks_exact 8 gap_chunks);
    [lia | apply gap_chunks_in | apply gap_chunks_disjoint].
Defined.

Lemma getMissingChunks_covers_witness :
  ∃ rs, getMissingChunks 8 gap_chunks = Ok rs ∧
    (∀ p, 0 <= p < 8 → ¬ held gap_chunks p → requested rs p) ∧
    (∀ p, requested rs p → 0 <= p < 8).
Proof.
  apply (getMissingChunks_covers 8 gap_chunks);
    [lia | apply gap_chunks_in | apply gap_chunks_disjoint].
Defined.

Lemma getMissingChunks_requests_held_data_witness :
  ∃ rs, getMissingChunks 8 gap_chunks = Ok rs ∧
    ∀ p, offset tail_chunk <= p < offset tail_chunk + chunkLength tail_chunk → requested rs p.
Proof.
  apply (getMissingChunks_requests_held_data 8 gap_chunks tail_chunk);
    [lia | apply gap_chunks_in | apply gap_chunks_disjoint | by left | cbn; lia].
Defined.

Lemma isPieceComplete_iff_no_missing_witness :
  isPieceComplete 8 gap_chunks = Ok true ↔ getMissingChunks 8 gap_chunks = Ok [].
Proof.
  apply (isPieceComplete_iff_no_missing 8 gap_chunks);
    [lia | repeat constructor; eauto | apply gap_chunks_in | apply gap_chunks_disjoint].
Defined.
