(* ===== verification/BitTorrentFiles.v ===== *)
(** * BitTorrent metainfo and files (bittorrent_tools.{h,cpp}, bittorrent_defines.h)

    What a torrent's metainfo says of its files, the piece files on disk
    ([savePiece], [loadPiece], [loadPieces]), and the assembly of the pieces into the
    files of the torrent ([assembleFiles]). *)
From S2P Require Import Prelude Chars MessageBlock Platform BitTorrentPieces.

(** ** Keys (bittorrent_defines.h) *)
Definition BITTORRENT_METAINFO_INFO_KEY := "info".
Definition BITTORRENT_METAINFO_INFO_FILES_KEY := "files".
Definition BITTORRENT_METAINFO_INFO_FILES_LENGTH_KEY := "length".
Definition BITTORRENT_METAINFO_INFO_FILES_PATH_KEY := "path".
Definition BITTORRENT_METAINFO_INFO_LENGTH_KEY := "length".
Definition BITTORRENT_METAINFO_INFO_NAME_KEY := "name".
Definition BITTORRENT_DEFAULT_PIECE_FILENAME_SUFFIX := ".piece".
Definition BITTORRENT_DEFAULT_PIECES_DIRECTORY_SUFFIX := "_pieces".

(** ** Metainfo *)
Section MetaInfo.
Context {E : Type} `{Bencoding E}.
(** ACE_DIRECTORY_SEPARATOR_CHAR_A *)
Variable separator : string.

(** the loop that looks for a key of a dictionary *)
Fixpoint find_key (key : string) (d : list (string * E)) : option E :=
  match d with
  | [] => None
  | (k, e) :: d' => if decide (k = key) then Some e else find_key key d'
  end.

(** [ACE_ASSERT (iterator != end ())], and the assertion on the element's type *)
Definition expect (o : option E) (t : bencoding_type) : outcome E :=
  match o with
  | None => Abort
  | Some e => ace_assert (bool_decide (be_type e = t));; Ok e
  end.

Fixpoint MetaInfoToLength_loop (result : Z) (l : list E) : outcome Z :=
  match l with
  | [] => Ok result
  | e :: l' =>
      ace_assert (bool_decide (be_type e = BENCODING_TYPE_DICTIONARY));;
      n ← expect (find_key BITTORRENT_METAINFO_INFO_LENGTH_KEY (be_dictionary e))
            BENCODING_TYPE_INTEGER;
      MetaInfoToLength_loop (result +u u32 (be_integer n)) l'
  end.

Definition MetaInfoToLength (metaInfo_in : list (string * E)) : outcome Z :=
  info ← expect (find_key BITTORRENT_METAINFO_INFO_KEY metaInfo_in)
           BENCODING_TYPE_DICTIONARY;
  match find_key BITTORRENT_METAINFO_INFO_LENGTH_KEY (be_dictionary info) with
  | Some n =>
      ace_assert (bool_decide (be_type n = BENCODING_TYPE_INTEGER));;
      Ok (u32 (be_integer n))
  | None =>
      files ← expect (find_key BITTORRENT_METAINFO_INFO_FILES_KEY (be_dictionary info))
                BENCODING_TYPE_LIST;
      MetaInfoToLength_loop 0 (be_list files)
  end.

(** [SHA1]: a parameter; its result has 20 bytes *)
Definition MetaInfoToInfoHash (SHA1 : list Z → list Z) (metaInfo_out : list (string * E)) :
    outcome (list Z) :=
  match find_key BITTORRENT_METAINFO_INFO_KEY metaInfo_out with
  | None => Ok []
  | Some info =>
      ace_assert (bool_decide (be_type info = BENCODING_TYPE_DICTIONARY));;
      Ok (SHA1 (be_bencode (be_dictionary info)))
  end.

(** the path components, each followed by a separator *)
Fixpoint listToPath_loop (l : list E) : outcome string :=
  match l with
  | [] => Ok ""
  | e :: l' =>
      ace_assert (bool_decide (be_type e = BENCODING_TYPE_STRING));;
      rest ← listToPath_loop l';
      Ok (be_string e +:+ separator +:+ rest)
  end.

(** Erasing the last character of an empty string is undefined. *)
Definition listToPath (list_in : list E) : outcome string :=
  result ← listToPath_loop list_in;
  if decide (result = "") then Undef
  else Ok (String.substring 0 (String.length result - 1) result).

(** the two lookups in an entry of the list of files *)
Definition entry_length (e : E) : outcome Z :=
  n ← expect (find_key BITTORRENT_METAINFO_INFO_FILES_LENGTH_KEY (be_dictionary e))
        BENCODING_TYPE_INTEGER;
  Ok (be_integer n).
Definition entry_path (e : E) : outcome string :=
  l ← expect (find_key BITTORRENT_METAINFO_INFO_FILES_PATH_KEY (be_dictionary e))
        BENCODING_TYPE_LIST;
  listToPath (be_list l).

(** Where [assembleFiles] stands: the file being written, the bytes it lacks, and the
    iterator over the list of files, as the rest of the list from there on. *)
Record cursor := Cursor {
  current_file_path_on_disk : string;
  current_file_length : Z;
  iterator_3 : list E
}.

(** the part before the loop: the first file *)
Definition first_file (pieces_path : string) (metaInfo_in : list (string * E)) :
    outcome (bool * string * cursor) :=
  info ← expect (find_key BITTORRENT_METAINFO_INFO_KEY metaInfo_in)
           BENCODING_TYPE_DICTIONARY;
  name ← expect (find_key BITTORRENT_METAINFO_INFO_NAME_KEY (be_dictionary info))
           BENCODING_TYPE_STRING;
  let directory_name_string := be_string name in
  match find_key BITTORRENT_METAINFO_INFO_FILES_KEY (be_dictionary info) with
  | None =>
      n ← expect (find_key BITTORRENT_METAINFO_INFO_LENGTH_KEY (be_dictionary info))
            BENCODING_TYPE_INTEGER;
      Ok (true, "", Cursor (pieces_path +:+ separator +:+ directory_name_string)
                      (u64 (be_integer n)) [])
  | Some files =>
      ace_assert (bool_decide (be_type files = BENCODING_TYPE_LIST));;
      match be_list files with
      | [] => Abort
      | e :: _ =>
          ace_assert (bool_decide (be_type e = BENCODING_TYPE_DICTIONARY));;
          n ← entry_length e;
          path ← entry_path e;
          Ok (false, directory_name_string,
              Cursor (pieces_path +:+ separator +:+ directory_name_string +:+
                      separator +:+ path) (u64 n) (be_list files))
      end
  end.
End MetaInfo.
Arguments cursor E : clear implicits.

(** ** Assembling the files *)
Section Assemble.
Context {E FS : Type} `{Bencoding E} `{FileSystem FS}.
Variable separator : string.
(** [Common_File_Tools::getUserDownloadDirectory (ACE_TEXT_ALWAYS_CHAR (_))] *)
Variable download_directory : string.
(** [Common_File_Tools::fileExtension (name, true)] *)
Variable fileExtension : string → string.
(** [std::sort] with the comparator of the common library *)
Variable sort_identifiers : list string → list string.

(** [strncmp] of the suffix: a prefix of the extension *)
Definition selector (d_name : string) : bool :=
  String.prefix BITTORRENT_DEFAULT_PIECE_FILENAME_SUFFIX (fileExtension d_name).

Definition pieces_directory (metaInfoFileName_in : string) : string :=
  download_directory +:+ separator +:+ metaInfoFileName_in +:+
  BITTORRENT_DEFAULT_PIECES_DIRECTORY_SUFFIX.

(** From the label [write_file] to the end of the loop's body: the data left of the
    piece goes to the current file; [None] is [return false].  [directory_name] is
    that of a torrent of several files. *)
Fixpoint write_file (pieces_path directory_name : string) (is_single_file_b : bool)
    (fs : FS) (path : string) (length : Z) (iter : list E) (data : list Z) {struct iter} :
    outcome (FS * option (cursor E)) :=
  let bytes_to_write := u32 (if zlen data >=? length then length else zlen data) in
  match fs_store fs path (take (Z.to_nat bytes_to_write) data) true with
  | None => Ok (fs, None)
  | Some fs' =>
      let length' := u64 (length - bytes_to_write) in
      let data' := drop (Z.to_nat bytes_to_write) data in
      if negb (length' =? 0) then
        ace_assert (zlen data' =? 0);; Ok (fs', Some (Cursor path length' iter))
      else if is_single_file_b then
        ace_assert (zlen data' =? 0);; Ok (fs', Some (Cursor path length' iter))
      else
        match iter with
        | [] => Undef
        | _ :: iter' =>
            match iter' with
            | [] => ace_assert (zlen data' =? 0);; Ok (fs', Some (Cursor path length' []))
            | e :: _ =>
                ace_assert (bool_decide (be_type e = BENCODING_TYPE_DICTIONARY));;
                n ← entry_length e;
                p ← entry_path separator e;
                let path' := pieces_path +:+ separator +:+ directory_name +:+
                             separator +:+ p in
                if negb (zlen data' =? 0) then
                  write_file pieces_path directory_name is_single_file_b fs' path'
                    (u32 n) iter' data'
                else Ok (fs', Some (Cursor path' (u32 n) iter'))
            end
        end
  end.

(** the loop over the piece files *)
Fixpoint assemble_loop (pieces_path directory_name : string) (is_single_file_b : bool)
    (fs : FS) (c : cursor E) (names : list string) : outcome (FS * bool) :=
  match names with
  | [] => Ok (fs, true)
  | name :: names' =>
      match fs_load fs (pieces_path +:+ separator +:+ name) with
      | None => Ok (fs, false)
      | Some data =>
          r ← write_file pieces_path directory_name is_single_file_b fs
                (current_file_path_on_disk c) (current_file_length c) (iterator_3 c) data;
          match r with
          | (fs', None) => Ok (fs', false)
          | (fs', Some c') =>
              assemble_loop pieces_path directory_name is_single_file_b fs' c' names'
          end
      end
  end.

Definition assembleFiles (metaInfoFileName_in : string) (metaInfo_in : list (string * E))
    (fs : FS) : outcome (FS * bool) :=
  let pieces_path := pieces_directory metaInfoFileName_in in
  let piece_files_a := sort_identifiers (fs_files fs pieces_path selector) in
  first ← first_file separator pieces_path metaInfo_in;
  let '(is_single_file_b, directory_name_string, c) := first in
  r ← assemble_loop pieces_path directory_name_string is_single_file_b fs c piece_files_a;
  match r with
  | (fs', false) => Ok (fs', false)
  | (fs', true) =>
      Ok (fs_delete fs' ((λ name, pieces_path +:+ separator +:+ name) <$> piece_files_a),
          true)
  end.
End Assemble.

(** ** Assembling: specification *)
Section AssembleSpec.
Context {E FS : Type} `{Bencoding E} `{FileSystem FS}.
Context (separator : string).

(** What a file holds; a file that does not exist holds nothing. *)
Definition content (fs : FS) (q : string) : list Z := default [] (fs_load fs q).

(** The bytes that the file at [q] gets when [D] is laid out over the files [F], each
    with its path and its length. *)
Fixpoint laid_out (F : list (string * Z)) (D : list Z) (q : string) : list Z :=
  match F with
  | [] => []
  | (p, l) :: F' =>
      (if decide (q = p) then take (Z.to_nat l) D else []) ++
      laid_out F' (drop (Z.to_nat l) D) q
  end.

Definition total (F : list (string * Z)) : Z := zsum (F.*2).

Context (pieces_path directory_name : string).

(** An entry of the list of files, and the file it describes. *)
Definition entry_of (e : E) (f : string * Z) : Prop :=
  be_type e = BENCODING_TYPE_DICTIONARY ∧ entry_length e = Ok f.2 ∧ 0 <= f.2 < 2 ^ 32 ∧
  ∃ rel, entry_path separator e = Ok rel ∧
    f.1 = pieces_path +:+ separator +:+ directory_name +:+ separator +:+ rel.

(** The files a cursor has still to write: the rest of the current one, then the
    files of the rest of the list. *)
Definition cursor_at (is_single_file_b : bool) (c : cursor E) (F : list (string * Z)) :
    Prop :=
  let current := (current_file_path_on_disk c, current_file_length c) in
  if is_single_file_b then 0 <= current_file_length c < 2 ^ 64 ∧ F = [current]
  else
    match iterator_3 c with
    | [] => F = []
    | _ :: iter' =>
        0 <= current_file_length c < 2 ^ 64 ∧
        ∃ F', F = current :: F' ∧ Forall2 entry_of iter' F'
    end.

Lemma total_cons p l F : total ((p, l) :: F) = l + total F.
Proof. done. Qed.

Lemma total_nonneg iter F : Forall2 entry_of iter F → 0 <= total F.
Proof.
  intros HF. apply zsum_nonneg. induction HF as [|e f iter F (_&_&Hl&_) HF IH];
    constructor; [lia|done].
Qed.

Lemma content_store fs p d fs' q :
  fs_store fs p d true = Some fs' →
  content fs' q = content fs q ++ (if decide (q = p) then d else []).
Proof.
  intros Hs. unfold content. rewrite (fs_load_store _ _ _ _ _ q Hs).
  destruct (decide (q = p)) as [->|]; [done|by rewrite app_nil_r].
Qed.

Lemma load_store_other fs p d fs' q :
  fs_store fs p d true = Some fs' → q ≠ p → fs_load fs' q = fs_load fs q.
Proof. intros Hs Hq. rewrite (fs_load_store _ _ _ _ _ q Hs). by rewrite decide_False. Qed.

(** Part of a file, or a whole file, taken from the data at hand. *)
Lemma laid_out_part p l F (d D : list Z) q :
  zlen d <= l →
  laid_out ((p, l) :: F) (d ++ D) q =
    (if decide (q = p) then d else []) ++ laid_out ((p, l - zlen d) :: F) D q.
Proof.
  unfold zlen. intros Hl. cbn [laid_out].
  rewrite take_app_ge, drop_app_ge by lia.
  replace (Z.to_nat l - length d)%nat with (Z.to_nat (l - Z.of_nat (length d))) by lia.
  destruct (decide (q = p)); [by rewrite (assoc_L (++))|done].
Qed.

Lemma laid_out_whole p l F (d D : list Z) q :
  0 <= l <= zlen d →
  laid_out ((p, l) :: F) (d ++ D) q =
    (if decide (q = p) then take (Z.to_nat l) d else []) ++
    laid_out F (drop (Z.to_nat l) d ++ D) q.
Proof. unfold zlen. intros Hl. cbn [laid_out]. by rewrite take_app_le, drop_app_le by lia. Qed.

(** The result of writing [data] to the files [F], starting in [fs]. *)
Definition written (is_single_file_b : bool) (fs : FS) (F : list (string * Z)) (data : list Z)
    (r : outcome (FS * option (cursor E))) : Prop :=
  ∃ fs' c F', r = Ok (fs', Some c) ∧ cursor_at is_single_file_b c F' ∧
    total F' = total F - zlen data ∧
    (∀ q D, content fs' q ++ laid_out F' D q = content fs q ++ laid_out F (data ++ D) q) ∧
    (∀ q, q ∉ F.*1 → fs_load fs' q = fs_load fs q) ∧ F'.*1 ⊆ F.*1.

(** Passing on to the next file. *)
Lemma written_next b fs fs1 p l F data r :
  0 <= l <= zlen data →
  fs_store fs p (take (Z.to_nat l) data) true = Some fs1 →
  written b fs1 F (drop (Z.to_nat l) data) r → written b fs ((p, l) :: F) data r.
Proof.
  intros Hl Hs (fs' & c & F' & Hr & Hc & Ht & Hcont & Hother & Hsub).
  exists fs', c, F'. split_and!; try done.
  - rewrite total_cons, Ht, zlen_drop by lia. lia.
  - intros q D. rewrite Hcont, laid_out_whole by done.
    by rewrite (content_store _ _ _ _ _ Hs), (assoc_L (++)).
  - intros q. cbn. rewrite not_elem_of_cons. intros [Hq HqF].
    rewrite Hother by done. by apply (load_store_other _ _ _ _ _ Hs).
  - cbn. set_solver.
Qed.

Context (stores_work : ∀ fs p d, is_Some (fs_store (FS := FS) fs p d true)).

Lemma write_file_written fs path len iter F data :
  iter ≠ [] → Forall2 entry_of (tail iter) F →
  0 <= len < 2 ^ 64 → zlen data < 2 ^ 32 → zlen data <= len + total F →
  written false fs ((path, len) :: F) data
    (write_file separator pieces_path directory_name false fs path len iter data).
Proof.
  revert fs path len F data. induction iter as [|e0 iter IH]; [done|].
  intros fs path len F data _ HF Hlen Hdata Htotal. cbn [tail] in HF.
  pose proof (zlen_nonneg data) as Hpos. pose proof (total_nonneg _ _ HF) as HtF.
  cbn [write_file]. rewrite Z.geb_leb. destruct (len <=? zlen data) eqn:Hcase; bool_lia.
  - rewrite (u32_small len), Z.sub_diag by lia. change (u64 0 =? 0) with true.
    destruct (stores_work fs path (take (Z.to_nat len) data)) as [fs1 Hs]. rewrite Hs.
    cbn [negb]. set (data' := drop (Z.to_nat len) data).
    assert (Hdata' : zlen data' = zlen data - len)
      by (unfold data'; rewrite zlen_drop; lia).
    eapply written_next; [lia|exact Hs|]. fold data'.
    destruct HF as [|e f iter F (Hty & Hl & Hf & rel & Hrel & Hp) HF]. 
    + change (total []) with 0 in Htotal.
      rewrite (proj2 (Z.eqb_eq (zlen data') 0)) by lia. cbn [ace_assert mbind outcome_bind].
      eexists _, _, []. split; [reflexivity|]. split_and!; try done.
      assert (data' = []) as -> by (apply zlen_0_inv; lia). done.
    + destruct f as [p l]. cbn [fst snd] in *. rewrite total_cons in *.
      rewrite bool_decide_true by done. cbn [ace_assert mbind outcome_bind].
      rewrite Hl, Hrel. cbn [mbind outcome_bind]. rewrite <- Hp, (u32_small l) by lia.
      destruct (zlen data' =? 0) eqn:Hz; bool_lia; cbn [negb].
      * assert (data' = []) as -> by (by apply zlen_0_inv).
        eexists _, _, ((p, l) :: F). split; [reflexivity|]. split_and!; try done.
        -- split; [cbn; lia|]. by exists F.
        -- rewrite zlen_nil. lia.
      * apply IH; [done|done|lia|lia|lia].
  - rewrite (u32_small (zlen data)) by lia. rewrite (u64_small (len - zlen data)) by lia.
    destruct (stores_work fs path (take (Z.to_nat (zlen data)) data)) as [fs1 Hs].
    rewrite Hs. rewrite (proj2 (Z.eqb_neq (len - zlen data) 0)) by lia. cbn [negb].
    rewrite take_zlen in Hs. rewrite drop_zlen. cbn [ace_assert mbind outcome_bind].
    eexists _, _, ((path, len - zlen data) :: F). split; [reflexivity|].
    split_and!; try done.
    + split; [cbn; lia|]. by exists F.
    + rewrite !total_cons. lia.
    + intros q D. rewrite laid_out_part by lia.
      by rewrite (content_store _ _ _ _ _ Hs), (assoc_L (++)).
    + intros q. cbn. rewrite not_elem_of_cons. intros [Hq _].
      by apply (load_store_other _ _ _ _ _ Hs).
Qed.
Lemma write_file_single fs path len iter data :
  0 <= len < 2 ^ 64 → zlen data < 2 ^ 32 → zlen data <= len →
  written true fs [(path, len)] data
    (write_file separator pieces_path directory_name true fs path len iter data).
Proof.
  intros Hlen Hdata Hle. pose proof (zlen_nonneg data) as Hpos.
  assert (Hb : u32 (if zlen data >=? len then len else zlen data) = zlen data).
  { rewrite Z.geb_leb. destruct_if; bool_lia; apply u32_small || (rewrite u32_small; lia).
    lia. }
  destruct (stores_work fs path data) as [fs1 Hs].
  exists fs1, (Cursor path (len - zlen data) iter), [(path, len - zlen data)].
  split_and!.
  - destruct iter; cbn [write_file]; rewrite Hb, take_zlen, drop_zlen, Hs;
      rewrite u64_small by lia; by destruct (len - zlen data =? 0).
  - split; [cbn; lia|done].
  - rewrite !total_cons. lia.
  - intros q D. rewrite laid_out_part by lia.
    by rewrite (content_store _ _ _ _ _ Hs), (assoc_L (++)).
  - intros q. cbn. rewrite not_elem_of_cons. intros [Hq _].
    by apply (load_store_other _ _ _ _ _ Hs).
  - done.
Qed.

Lemma write_file_cursor b fs c F data :
  cursor_at b c F → data ≠ [] → zlen data < 2 ^ 32 → zlen data <= total F →
  written b fs F data
    (write_file separator pieces_path directory_name b fs (current_file_path_on_disk c)
       (current_file_length c) (iterator_3 c) data).
Proof.
  intros Hc Hne Hdata Htotal. destruct c as [path len iter]. unfold cursor_at in Hc.
  cbn in *. destruct b.
  - destruct Hc as [Hlen ->]. rewrite total_cons in Htotal.
    change (total []) with 0 in Htotal. apply write_file_single; lia.
  - destruct iter as [|e iter].
    + subst F. change (total []) with 0 in Htotal. destruct Hne. apply zlen_0_inv.
      pose proof (zlen_nonneg data). lia.
    + destruct Hc as (Hlen & F' & -> & HF). rewrite total_cons in Htotal.
      by apply write_file_written.
Qed.

Lemma laid_out_nil F q : laid_out F [] q = [].
Proof.
  induction F as [|[p l] F IH]; [done|]. cbn [laid_out].
  rewrite drop_nil, take_nil, IH. by destruct decide.
Qed.

(** The piece files, by name and content. *)
Definition piece_files (fs : FS) (names : list string) (ds : list (list Z)) : Prop :=
  Forall2 (λ name d, fs_load fs (pieces_path +:+ separator +:+ name) = Some d ∧
                     d ≠ [] ∧ zlen d < 2 ^ 32) names ds.

Lemma piece_files_ext fs fs1 names ds :
  piece_files fs names ds →
  (∀ name, name ∈ names → fs_load fs1 (pieces_path +:+ separator +:+ name) =
                          fs_load fs (pieces_path +:+ separator +:+ name)) →
  piece_files fs1 names ds.
Proof.
  unfold piece_files. induction 1 as [|name d names ds (Hl & Hne & Hd) HF IH];
    intros Hext; constructor.
  - by rewrite Hext by left.
  - apply IH. intros n Hn. apply Hext. by right.
Qed.

Lemma assemble_loop_lays_out b fs c F names ds :
  cursor_at b c F → piece_files fs names ds →
  zlen (mjoin ds) <= total F →
  (∀ name, name ∈ names → pieces_path +:+ separator +:+ name ∉ F.*1) →
  ∃ fs' F', assemble_loop separator pieces_path directory_name b fs c names = Ok (fs', true) ∧
    (∀ q D, content fs' q ++ laid_out F' D q =
            content fs q ++ laid_out F (mjoin ds ++ D) q).
Proof.
  intros Hc Hp. revert fs c F Hc Hp. revert ds.
  induction names as [|name names IH]; intros ds fs c F Hc Hp Htotal Hnames;
    apply Forall2_cons_inv_l in Hp as (d & ds' & (Hload & Hne & Hd) & Hp & ->)
    || apply Forall2_nil_inv_l in Hp as ->; [by exists fs, F|].
  cbn [assemble_loop]. rewrite Hload. change (mjoin (d :: ds')) with (d ++ mjoin ds') in *.
  rewrite zlen_app in Htotal. pose proof (zlen_nonneg (mjoin ds')).
  destruct (write_file_cursor b fs c F d) as
    (fs1 & c1 & F1 & -> & Hc1 & Ht1 & Hcont1 & Hother1 & Hsub1); [done|done|done|lia|].
  cbn [mbind outcome_bind].
  destruct (IH ds' fs1 c1 F1) as (fs' & F' & -> & Hcont); [done| |lia| |].
  - apply (piece_files_ext fs); [done|].
    intros n Hn. apply Hother1, Hnames. by right.
  - intros n Hn Hin. apply Hsub1 in Hin. revert Hin. apply Hnames. by right.
  - exists fs', F'. split; [done|]. intros q D. rewrite Hcont, Hcont1.
    by rewrite (assoc_L (++)).
Qed.
End AssembleSpec.

Section AssembleTheorem.
Context {E FS : Type} `{Bencoding E} `{FileSystem FS}.
Context (separator download_directory : string).
Context (fileExtension : string → string) (sort_identifiers : list string → list string).

(** What the metainfo says of the files: the list of their paths on disk, with their
    lengths, in order. *)
Definition describes (metaInfoFileName : string) (metaInfo : list (string * E))
    (files : list (string * Z)) : Prop :=
  let pieces_path := pieces_directory separator download_directory metaInfoFileName in
  ∃ single directory_name c,
    first_file separator pieces_path metaInfo = Ok (single, directory_name, c) ∧
    cursor_at separator pieces_path directory_name single c files.

(** C29: assembling a torrent lays the pieces out over its files: if the metainfo
    describes the files, with all but the first shorter than 4 GB, and the piece files
    (in the order of their sorted names) hold exactly as many bytes, then assembling
    succeeds without a failed assertion, and each file has been extended by its slice
    of the concatenated pieces, for a torrent of one file and for one of several.  (The
    paths of the files are not those of the pieces, and writing does not fail.) *)
Theorem assembleFiles_lays_out (fs : FS) name metaInfo files ds
    (pieces_path := pieces_directory separator download_directory name)
    (names := sort_identifiers
       (fs_files fs pieces_path (selector fileExtension)))
    (Hstore : ∀ fs p d, is_Some (fs_store (FS := FS) fs p d true))
    (Hdescribes : describes name metaInfo files)
    (Hpieces : piece_files separator pieces_path fs names ds)
    (Hlength : zlen (mjoin ds) = total files)
    (Hpaths : ∀ n, n ∈ names → pieces_path +:+ separator +:+ n ∉ files.*1) :
  ∃ fs', assembleFiles separator download_directory fileExtension sort_identifiers
           name metaInfo fs = Ok (fs', true) ∧
    ∀ q, q ∈ files.*1 → content fs' q = content fs q ++ laid_out files (mjoin ds) q.
Proof.
  destruct Hdescribes as (single & dir & c & Hfirst & Hc).
  destruct (assemble_loop_lays_out separator pieces_path dir Hstore single fs c files
    names ds) as (fs' & F' & Hloop & Hcont); [done|done|lia|done|].
  unfold assembleFiles. fold pieces_path in Hfirst |- *. fold names. rewrite Hfirst. cbn.
  rewrite Hloop. cbn. eexists; split; [reflexivity|]. intros q Hq.
  unfold content at 1. rewrite fs_load_delete.
  - specialize (Hcont q []). by rewrite laid_out_nil, !app_nil_r in Hcont.
  - rewrite list_elem_of_fmap. intros (n & -> & Hn). by apply (Hpaths n).
Qed.
End AssembleTheorem.

(** A torrent of two files (3 and 4 bytes) in two pieces. *)
Definition sample_metainfo : list (string * element) :=
  [("info", BeDictionary
     [("files", BeList
        [BeDictionary [("length", BeInteger 3); ("path", BeList [BeString "a"])];
         BeDictionary [("length", BeInteger 4);
                       ("path", BeList [BeString "d"; BeString "b"])]]);
      ("name", BeString "dir")])].
Definition sample_fs : plain_fs :=
  PlainFS (<["/tmp/t_pieces/0_x.piece" := [1; 2; 3; 4; 5]]>
             (<["/tmp/t_pieces/1_x.piece" := [6; 7]]> ∅)) [].
Definition sample_le (a b : string) : Prop := String.leb a b = true.
#[local] Instance sample_le_dec : RelDecision sample_le :=
  λ a b, decide (String.leb a b = true).
Definition sample_sort (l : list string) : list string :=
  merge_sort sample_le l.
Definition sample_extension (name : string) : string :=
  String.substring (String.length name - 6) 6 name.

Lemma assembleFiles_lays_out_witness :
  (∃ fs', assembleFiles "/" "/tmp" sample_extension sample_sort "t" sample_metainfo
            sample_fs = Ok (fs', true) ∧
     ∀ q, q ∈ [("/tmp/t_pieces/dir/a", 3); ("/tmp/t_pieces/dir/d/b", 4)].*1 →
       content fs' q = content sample_fs q ++
         laid_out [("/tmp/t_pieces/dir/a", 3); ("/tmp/t_pieces/dir/d/b", 4)]
           (mjoin [[1; 2; 3; 4; 5]; [6; 7]]) q) ∧
  laid_out [("/tmp/t_pieces/dir/a", 3); ("/tmp/t_pieces/dir/d/b", 4)]
    (mjoin [[1; 2; 3; 4; 5]; [6; 7]]) "/tmp/t_pieces/dir/d/b" = [4; 5; 6; 7].
Proof.
  split; [|by vm_compute].
  apply (assembleFiles_lays_out "/" "/tmp" sample_extension sample_sort sample_fs "t"
    sample_metainfo [("/tmp/t_pieces/dir/a", 3); ("/tmp/t_pieces/dir/d/b", 4)]
    [[1; 2; 3; 4; 5]; [6; 7]]).
  - intros fs p d. by eexists.
  - eexists false, "dir", _. split; [by vm_compute|]. split; [cbn; lia|].
    eexists. split; [reflexivity|]. constructor; [|constructor].
    split; [done|]. split; [done|]. split; [cbn; lia|]. by eexists.
  - assert (Hn : sample_sort (fs_files sample_fs (pieces_directory "/" "/tmp" "t")
      (selector sample_extension)) = ["0_x.piece"; "1_x.piece"]) by (by vm_compute).
    rewrite Hn. repeat constructor; try done; by vm_compute.
  - done.
  - assert (Hn : sample_sort (fs_files sample_fs (pieces_directory "/" "/tmp" "t")
      (selector sample_extension)) = ["0_x.piece"; "1_x.piece"]) by (by vm_compute).
    rewrite Hn. intros n Hin. apply (bool_decide_unpack _).
    rewrite !elem_of_cons, elem_of_nil in Hin. destruct Hin as [->|[->|[]]]; by vm_compute.
Defined.
