(* ===== verification/BencodingScanner.v ===== *)
(** * The scanner of bencoding (protocol/p2p/bittorrent/scripts/bencoding_scanner.ll)

    The rules and their stack of conditions, elements as BEP 3 has them, and the tokens that they
    are read as.  The scanner does not block ([parseMetaInfoFile] clears the option), and what
    it reads is in one buffer.  The offset that the rules count is not used. *)
From S2P Require Import Prelude Chars Decimal Lex Platform.

(** ** Numbers *)
(** what a stream reads of a sign and digits: the sign, and the value of the digits *)
Definition read_digits (t : string) : bool * Z :=
  match t with
  | String "-" t' => (true, digits_value 0 (span_digits t').1)
  | _ => (false, digits_value 0 (span_digits t).1)
  end.
(** [stream >> n] of an [ACE_INT64], and of an [unsigned int], which takes a sign, too *)
Definition read_integer (t : string) : Z :=
  let '(negative, v) := read_digits t in
  if negative : bool then Z.max (- v) (- 2 ^ 63) else Z.min v (2 ^ 63 - 1).
Definition read_length (t : string) : Z :=
  let '(negative, v) := read_digits t in
  if 2 ^ 32 <=? v then 2 ^ 32 - 1 else u32 (if negative : bool then - v else v).

(** ** The scanner *)
Inductive condition :=
  | INITIAL | state_string | state_string_2 | state_integer | state_list | state_dictionary_key
  | state_dictionary_key_2 | state_dictionary_value | state_dictionary_value_2.
(** the union [yylval] *)
Inductive semantic := NoValue | Ival (ival : Z) | Sval (sval : string).
(** the condition and the stack of the conditions; the other two are local to [yylex ()] *)
Record scanner := MkScanner {
  start : condition; stack : list condition; string_length : Z; yylval : semantic
}.
Inductive token :=
  | INTEGER (ival : Z) | STRING (sval : string) | LIST | DICTIONARY | END_OF_LIST
  | END_OF_DICTIONARY.
Inductive scanned :=
  | Matched (s : scanner) (bs : list Z)
  | Token (t : token) (s : scanner) (bs : list Z)
  | End_ (s : scanner) (bs : list Z).

Definition begin_ (c : condition) (s : scanner) : scanner :=
  MkScanner c (stack s) (string_length s) (yylval s).
Definition yy_push_state (c : condition) (s : scanner) : scanner :=
  MkScanner c (start s :: stack s) (string_length s) (yylval s).
(** a stack that is empty is a fatal error *)
Definition yy_pop_state (s : scanner) : outcome scanner :=
  match stack s with
  | [] => Abort
  | c :: st => Ok (MkScanner c st (string_length s) (yylval s))
  end.
Definition set_yylval (v : semantic) (s : scanner) : scanner :=
  MkScanner (start s) (stack s) (string_length s) v.
Definition set_string_length (n : Z) (s : scanner) : scanner :=
  MkScanner (start s) (stack s) n (yylval s).

Definition digit (z : Z) : bool := (z =? 45) || ((48 <=? z) && (z <=? 57)).
Definition DIGIT : re := Cls digit.
Definition OCTET : re := Cls (λ _, true).

Inductive action :=
  | BeginInteger | BeginString | BeginList | BeginDictionary | EndOfInteger | Value_ | Length_
  | Colon | Octet | KeyColon | KeyOctet | EndOfList | EndOfDictionary | NextKey.
(** the rules that begin an element *)
Definition element_rules : list (re * action) :=
  [(Chr 105, BeginInteger); (DIGIT, BeginString); (Chr 108, BeginList); (Chr 100, BeginDictionary)].
Definition rules (c : condition) : list (re * action) :=
  match c with
  | INITIAL | state_dictionary_value => element_rules
  | state_integer => [(Chr 101, EndOfInteger); (Many1 DIGIT, Value_)]
  | state_string => [(Many1 DIGIT, Length_); (Chr 58, Colon)]
  | state_string_2 => [(OCTET, Octet)]
  | state_list => (Chr 101, EndOfList) :: element_rules
  | state_dictionary_key => [(Chr 101, EndOfDictionary); (Many1 DIGIT, Length_); (Chr 58, KeyColon)]
  | state_dictionary_key_2 => [(OCTET, KeyOctet)]
  | state_dictionary_value_2 => [(OCTET, NextKey)]
  end.

(** where an element begins: the value of a dictionary is left by way of [state_dictionary_value_2] *)
Definition enter (c : condition) (s : scanner) : scanner :=
  match start s with
  | state_dictionary_value => yy_push_state c (yy_push_state state_dictionary_value_2 s)
  | _ => yy_push_state c s
  end.
(** the end of a string and of a key *)
Definition end_of_string (v : string) (s : scanner) (bs : list Z) : outcome scanned :=
  s ← yy_pop_state s; Ok (Token (STRING v) s bs).
Definition end_of_key (v : string) (s : scanner) (bs : list Z) : outcome scanned :=
  Ok (Token (STRING v) (yy_push_state state_dictionary_value s) bs).
(** the rules for the colon and for an octet: the condition that reads the octets, and the end *)
Definition colon (c : condition) (end_ : string → scanner → list Z → outcome scanned)
    (s : scanner) (bs : list Z) : outcome scanned :=
  let s := set_yylval (Sval "") s in
  if string_length s =? 0 then end_ "" s bs else Ok (Matched (begin_ c s) bs).
Definition octet (end_ : string → scanner → list Z → outcome scanned) (yytext : list Z)
    (s : scanner) (bs : list Z) : outcome scanned :=
  ace_assert (negb (string_length s =? 0));;
  match yylval s with
  | Sval v =>
      let v := v +:+ bytes_string (take 1 yytext) in
      let s := set_string_length (string_length s -u 1) (set_yylval (Sval v) s) in
      if string_length s =? 0 then end_ v s bs else Ok (Matched s bs)
  | _ => Undef
  end.

Definition perform (a : action) (yytext : list Z) (s : scanner) (bs : list Z) : outcome scanned :=
  let t := bytes_string yytext in
  match a with
  | BeginInteger => Ok (Matched (enter state_integer (set_yylval (Ival 0) s)) bs)
  | BeginString => Ok (Matched (enter state_string s) (yytext ++ bs))
  | BeginList => Ok (Token LIST (enter state_list s) bs)
  | BeginDictionary => Ok (Token DICTIONARY (enter state_dictionary_key s) bs)
  | EndOfInteger =>
      s ← yy_pop_state s;
      match yylval s with Ival z => Ok (Token (INTEGER z) s bs) | _ => Undef end
  | Value_ => Ok (Matched (set_yylval (Ival (read_integer t)) s) bs)
  | Length_ => Ok (Matched (set_string_length (read_length t) s) bs)
  | Colon => colon state_string_2 end_of_string s bs
  | Octet => octet end_of_string yytext s bs
  | KeyColon => colon state_dictionary_key_2 end_of_key s bs
  | KeyOctet => octet end_of_key yytext s bs
  | EndOfList => s ← yy_pop_state s; Ok (Token END_OF_LIST s bs)
  | EndOfDictionary => s ← yy_pop_state s; Ok (Token END_OF_DICTIONARY s bs)
  | NextKey =>
      s ← yy_pop_state s; s ← yy_pop_state s;
      Ok (Matched (begin_ state_dictionary_key s) (yytext ++ bs))
  end.
(** An octet that no rule takes ends the input. *)
Definition step (s : scanner) (bs : list Z) : outcome scanned :=
  match pick (rules (start s)) bs with
  | Some (n, a) => perform a (take n bs) s (drop n bs)
  | None => Ok (End_ s (drop 1 bs))
  end.

(** At the end of the buffer, [yywrap ()] fails. *)
Fixpoint lex (fuel : nat) (s : scanner) (bs : list Z) : outcome scanned :=
  match fuel, bs with
  | O, _ | _, [] => Abort
  | S fuel', _ =>
      m ← step s bs;
      match m with Matched s bs => lex fuel' s bs | other => Ok other end
  end.
(** every turn takes an octet, but for the one that begins a string, or goes on to a key *)
Definition lex_fuel (bs : list Z) : nat := S (S (length bs)).
Definition yylex (s : scanner) (bs : list Z) : outcome scanned :=
  lex (lex_fuel bs) (MkScanner (start s) (stack s) 0 NoValue) bs.

(** ** Elements as BEP 3 has them *)
Definition bencode_string (s : string) : list Z :=
  string_bytes (pretty (Z.of_nat (String.length s))) ++ [58] ++ string_bytes s.
Fixpoint bencode (e : element) : list Z :=
  match e with
  | BeInteger i => [105] ++ string_bytes (pretty i) ++ [101]
  | BeString s => bencode_string s
  | BeList l => [108] ++ concat (map bencode l) ++ [101]
  | BeDictionary d => [100] ++ concat (map (λ kv, bencode_string kv.1 ++ bencode kv.2) d) ++ [101]
  end.
(** what the machine can hold *)
Definition string_ok (s : string) : bool := Z.of_nat (String.length s) <? 2 ^ 32.
Fixpoint encodable (e : element) : bool :=
  match e with
  | BeInteger i => (- 2 ^ 63 <=? i) && (i <? 2 ^ 63)
  | BeString s => string_ok s
  | BeList l => forallb encodable l
  | BeDictionary d => forallb (λ kv, string_ok kv.1 && encodable kv.2) d
  end.

(** ** Which rule applies *)
Lemma longest_chr x y u : longest (Chr y) (x :: u) = if x =? y then Some 1%nat else None.
Proof. rewrite longest_cons. cbn [deriv nullable]. destruct (x =? y); [|by rewrite longest_never]. by destruct u. Qed.
Lemma longest_cls f x u : longest (Cls f) (x :: u) = if f x then Some 1%nat else None.
Proof. rewrite longest_cons. cbn [deriv nullable]. destruct (f x); [|by rewrite longest_never]. by destruct u. Qed.

(** a condition, and those below it *)
Definition at_ (c : condition) (st : list condition) (s : scanner) : Prop := start s = c ∧ stack s = st.
(** where an element may begin, and where the scanner is when it has ended *)
Definition opens (c : condition) : Prop := c = INITIAL ∨ c = state_list ∨ c = state_dictionary_value.
Definition behind (c : condition) (st : list condition) : condition * list condition :=
  match c with state_dictionary_value => (state_dictionary_value_2, c :: st) | _ => (c, st) end.

Lemma step_pick s p q a :
  pick (rules (start s)) (p ++ q) = Some (length p, a) → step s (p ++ q) = perform a p s q.
Proof. intros Hp. unfold step. rewrite Hp. by rewrite take_app_length, drop_app_length. Qed.
Lemma enter_at c k st s :
  opens c → at_ c st s → at_ k ((behind c st).1 :: (behind c st).2) (enter k s).
Proof. intros Hk [Hc <-]. unfold enter. rewrite Hc. destruct Hk as [->|[->| ->]]; by split; cbn; rewrite ?Hc. Qed.

(** one of a list of cases *)
Ltac one_of H := repeat (apply list_elem_of_In in H; cbn in H); destruct_or! H; simplify_eq; try done.
(** one octet: its rule is the only one of the condition that it matches *)
Ltac one_rule :=
  cbn [pick rules element_rules app] in *; unfold DIGIT, OCTET, Many1 in *;
  rewrite ?longest_chr, ?longest_cls; cbn.
Lemma begin_picked c x a q :
  opens c → (x, a) ∈ [(105, BeginInteger); (108, BeginList); (100, BeginDictionary)] →
  pick (rules c) ([x] ++ q) = Some (1%nat, a).
Proof. intros Hc Hx. one_of Hx; destruct Hc as [->|[->| ->]]; one_rule; done. Qed.
Lemma digit_picked c x q :
  opens c → digit x = true → pick (rules c) ([x] ++ q) = Some (1%nat, BeginString).
Proof.
  intros Hc Hx. assert (x <> 105 ∧ x <> 108 ∧ x <> 100 ∧ x <> 101) as (H1 & H2 & H3 & H4)
    by (unfold digit in Hx; repeat split; intros ->; done).
  apply Z.eqb_neq in H1, H2, H3, H4.
  destruct Hc as [->|[->| ->]]; one_rule; by rewrite ?H1, ?H2, ?H3, ?H4, ?Hx.
Qed.
(** the digits of a number *)
Lemma digits_picked c a p q :
  (c, a) ∈ [(state_integer, Value_); (state_string, Length_); (state_dictionary_key, Length_)] →
  p ≠ [] → Forall (λ x, digit x = true) p → match q with [] => True | y :: _ => digit y = false end →
  pick (rules c) (p ++ q) = Some (length p, a).
Proof.
  intros Hc Hne Hp Hq. pose proof (longest_run digit p q Hne Hp Hq) as Hl.
  destruct p as [|x p]; [done|]. apply Forall_cons_1 in Hp as [Hx _].
  assert (x <> 101 ∧ x <> 58) as [H1%Z.eqb_neq H2%Z.eqb_neq] by (unfold digit in Hx; split; intros ->; done).
  one_of Hc;
    cbn [pick rules app]; unfold DIGIT; cbn [app] in Hl; rewrite Hl, ?longest_chr, ?H1, ?H2; done.
Qed.
Lemma end_picked c x a q :
  (c, (x, a)) ∈ [(state_integer, (101, EndOfInteger)); (state_string, (58, Colon)); (state_list, (101, EndOfList));
    (state_dictionary_key, (101, EndOfDictionary)); (state_dictionary_key, (58, KeyColon))] →
  pick (rules c) ([x] ++ q) = Some (1%nat, a).
Proof.
  intros Hx. assert (digit x = false) as Hd by (by one_of Hx).
  pose proof (run_none digit x q Hd) as Hl.
  one_of Hx; cbn [pick rules element_rules app] in *;
    unfold DIGIT; rewrite ?Hl, ?longest_chr, ?longest_cls; done.
Qed.
Lemma one_octet_picked c a x q :
  (c, a) ∈ [(state_string_2, Octet); (state_dictionary_key_2, KeyOctet); (state_dictionary_value_2, NextKey)] →
  pick (rules c) ([x] ++ q) = Some (1%nat, a).
Proof. intros Hx. one_of Hx; one_rule; done. Qed.

(** ** Turns of the scanner *)
Lemma turn_taken s p q a s' fuel :
  pick (rules (start s)) (p ++ q) = Some (length p, a) → perform a p s q = Ok (Matched s' q) →
  p ≠ [] → (length (p ++ q) < fuel)%nat →
  ∃ fuel', lex fuel s (p ++ q) = lex fuel' s' q ∧ (length q < fuel')%nat.
Proof.
  intros Hp Ha Hne Hf. destruct p as [|x p]; [done|]. rewrite length_app in Hf. cbn [length] in Hf.
  destruct fuel as [|fuel]; [lia|]. exists fuel. split; [|lia]. cbn [lex app].
  change (x :: p ++ q) with ((x :: p) ++ q). by rewrite (step_pick _ _ _ _ Hp), Ha.
Qed.
Lemma lex_looked s x q a s' fuel :
  pick (rules (start s)) ([x] ++ q) = Some (1%nat, a) →
  perform a [x] s q = Ok (Matched s' ([x] ++ q)) → (S (length ([x] ++ q)) < fuel)%nat →
  ∃ fuel', lex fuel s ([x] ++ q) = lex fuel' s' ([x] ++ q) ∧ (length ([x] ++ q) < fuel')%nat.
Proof.
  intros Hp Ha Hf. destruct fuel as [|fuel]; [lia|]. exists fuel. split; [|lia]. cbn [lex app].
  change (x :: q) with ([x] ++ q). by rewrite (step_pick _ [x] _ _ Hp), Ha.
Qed.
Lemma lex_given s p q a t s' bs fuel :
  pick (rules (start s)) (p ++ q) = Some (length p, a) → perform a p s q = Ok (Token t s' bs) →
  p ≠ [] → (0 < fuel)%nat → lex fuel s (p ++ q) = Ok (Token t s' bs).
Proof.
  intros Hp Ha Hne Hf. destruct p as [|x p]; [done|]. destruct fuel as [|fuel]; [lia|]. cbn [lex app].
  change (x :: p ++ q) with ((x :: p) ++ q). by rewrite (step_pick _ _ _ _ Hp), Ha.
Qed.

(** ** The fuel is enough, whatever is read *)
Lemma pick_in {A} (l : list (re * A)) u n a : pick l u = Some (n, a) → ∃ r, (r, a) ∈ l ∧ longest r u = Some n.
Proof.
  induction l as [|[r b] l IH]; [done|]. cbn [pick]. intros Hp.
  assert (pick l u = Some (n, a) → ∃ r', (r', a) ∈ (r, b) :: l ∧ longest r' u = Some n) as Hl
    by (intros (r' & Hr & Hu)%IH; exists r'; split; [by right|done]).
  destruct (longest r u) as [k|] eqn:E; [|by apply Hl].
  destruct (pick l u) as [[m c]|]; [destruct (m <=? k)%nat|]; simplify_eq; try (by apply Hl);
    by exists r; split; [left|].
Qed.
Lemma rule_length c u n a : pick (rules c) u = Some (n, a) → (1 <= n <= length u)%nat.
Proof.
  intros (r & Hr & Hu)%pick_in. apply longest_Some in Hu as (Hle & Hl & _). split; [|done].
  destruct n as [|n]; [|lia]. exfalso. cbn in Hl. apply nullable_spec in Hl.
  assert (forallb (λ x, negb (nullable x.1)) (rules c) = true) as Hn by (by destruct c).
  rewrite forallb_forall in Hn. apply list_elem_of_In, Hn in Hr. cbn in Hr. by rewrite Hl in Hr.
Qed.
(** the conditions in which a rule may take nothing *)
Definition looks (c : condition) : bool :=
  match c with INITIAL | state_list | state_dictionary_value | state_dictionary_value_2 => true | _ => false end.
Definition shrinks (s : scanner) (bs : list Z) (m : scanned) : Prop :=
  match m with
  | Matched s' bs' =>
      looks (start s') = false ∧ ((length bs' < length bs)%nat ∨ bs' = bs ∧ looks (start s) = true)
  | Token _ _ bs' => (length bs' < length bs)%nat
  | End_ _ _ => True
  end.
Lemma enter_start k s : start (enter k s) = k.
Proof. unfold enter. by destruct (start s). Qed.
Lemma end_shrinks s bs n m :
  (1 <= n <= length bs)%nat →
  (∀ v s', end_of_string v s' (drop n bs) = Ok m → shrinks s bs m) ∧
  (∀ v s', end_of_key v s' (drop n bs) = Ok m → shrinks s bs m).
Proof.
  intros Hn. split; intros v s'; unfold end_of_string, end_of_key, yy_pop_state.
  - destruct (stack s'); [done|]. intros [= <-]. cbn. rewrite length_drop. lia.
  - intros [= <-]. cbn. rewrite length_drop. lia.
Qed.
Lemma step_shrinks s bs m : step s bs = Ok m → shrinks s bs m.
Proof.
  unfold step. destruct (pick _ _) as [[n a]|] eqn:Hp; [|by intros [= <-]].
  pose proof (rule_length _ _ _ _ Hp) as Hn. pose proof (end_shrinks s bs n m Hn) as [Hs Hk].
  assert (length (drop n bs) < length bs)%nat as Hd by (rewrite length_drop; lia).
  apply pick_in in Hp as (r & Hr & _).
  destruct a; cbn [perform]; unfold colon, octet, yy_pop_state, ace_assert; intros Hm;
    repeat (case_match; cbn in Hm; try done); simplify_eq/=; unfold shrinks; eauto;
    try (by eapply Hs); try (by eapply Hk); rewrite ?take_drop;
    (split; [rewrite ?enter_start; destruct (start s); by one_of Hr|]); try (by left);
    (right; split; [done|]; destruct (start s); by one_of Hr).
Qed.
Lemma lex_enough fuel : ∀ s bs,
  (length bs + (if looks (start s) then 1 else 0) < fuel)%nat → lex (S fuel) s bs = lex fuel s bs.
Proof.
  induction fuel as [|fuel IH]; intros s bs Hf; [lia|]. destruct bs as [|x bs]; [done|].
  change (lex (S (S fuel)) s (x :: bs)) with
    (m ← step s (x :: bs); match m with Matched s bs => lex (S fuel) s bs | other => Ok other end).
  change (lex (S fuel) s (x :: bs)) with
    (m ← step s (x :: bs); match m with Matched s bs => lex fuel s bs | other => Ok other end).
  destruct (step s (x :: bs)) as [m| |] eqn:Em; [|done..]. apply step_shrinks in Em. cbn [mbind outcome_bind].
  destruct m as [s' bs'| |]; [|done..]. apply IH. destruct Em as (-> & [Hl|(-> & Hs)]); [lia|].
  rewrite Hs in Hf. lia.
Qed.
Lemma lex_shrinks fuel : ∀ s bs m, lex fuel s bs = Ok m → match m with
  | Token _ _ bs' => (length bs' < length bs)%nat | Matched _ _ => False | End_ _ _ => True end.
Proof.
  induction fuel as [|fuel IH]; intros s bs m; [done|]. destruct bs as [|x bs]; [done|]. cbn [lex].
  intros (m1 & Hm1 & Hm)%bind_Ok. apply step_shrinks in Hm1. destruct m1 as [s' bs'|t s' bs'|s' bs']; [|by simplify_eq..].
  apply IH in Hm. destruct m as [| t s2 bs2|]; [done| |done].
  destruct Hm1 as (_ & [Hl|(-> & _)]); cbn [length] in *; lia.
Qed.
Lemma token_shrinks s bs t s' bs' : yylex s bs = Ok (Token t s' bs') → (length bs' < length bs)%nat.
Proof. apply lex_shrinks. Qed.

(** ** Numbers, read back *)
Lemma pretty_negative i : i < 0 → pretty i = "-" +:+ pretty (- i).
Proof. by destruct i as [|p|p]. Qed.
Lemma digits_octets s : all_digits s = true → Forall (λ x, digit x = true) (string_bytes s).
Proof.
  apply string_all_bytes. intros c Hc.
  exact (char_mono isdigit (λ c, digit (code c)) ltac:(by vm_compute) c Hc).
Qed.
Lemma number_octets (i : Z) : Forall (λ x, digit x = true) (string_bytes (pretty i)) ∧ string_bytes (pretty i) ≠ [].
Proof.
  assert (∀ i : Z, 0 <= i → Forall (λ x, digit x = true) (string_bytes (pretty i)) ∧
    string_bytes (pretty i) ≠ []) as Hp.
  { intros j Hj. destruct (pretty_digits j Hj) as (Ha & _ & Hne). split; [by apply digits_octets|].
    by destruct (pretty j). }
  destruct (decide (0 <= i)) as [Hi|Hi]; [by apply Hp|].
  rewrite pretty_negative, string_bytes_app by lia. destruct (Hp (- i) ltac:(lia)) as [Hf _].
  split; [|done]. apply Forall_app. split; [by repeat constructor|done].
Qed.
Lemma read_digits_pretty i : read_digits (pretty i) = (i <? 0, Z.abs i).
Proof.
  assert (∀ j, 0 <= j → digits_value 0 (span_digits (pretty j)).1 = j ∧
    ∃ c t, pretty j = String c t ∧ c ≠ "-"%char) as Hp.
  { intros j Hj. destruct (pretty_digits j Hj) as (Ha & Hv & Hne). rewrite span_digits_all by done.
    split; [done|]. destruct (pretty j) as [|c t]; [done|]. exists c, t. split; [done|]. by intros ->. }
  destruct (decide (0 <= i)) as [Hi|Hi].
  - destruct (Hp i Hi) as (Hv & c & t & E & Hc). rewrite (proj2 (Z.ltb_ge _ _)), Z.abs_eq by done.
    rewrite E in *. unfold read_digits. destruct c as [[] [] [] [] [] [] [] []]; try by rewrite Hv. done.
  - rewrite (proj2 (Z.ltb_lt _ _)), Z.abs_neq, pretty_negative by lia.
    destruct (Hp (- i) ltac:(lia)) as [Hv _]. rewrite append_cons, append_nil. cbn [read_digits]. by rewrite Hv.
Qed.
Lemma read_integer_pretty i : - 2 ^ 63 <= i < 2 ^ 63 → read_integer (pretty i) = i.
Proof. intros Hi. unfold read_integer. rewrite read_digits_pretty. destruct (i <? 0) eqn:E; bool_lia. Qed.
Lemma read_length_pretty n : 0 <= n < 2 ^ 32 → read_length (pretty n) = n.
Proof.
  intros Hn. unfold read_length. rewrite read_digits_pretty, (proj2 (Z.ltb_ge n 0)), Z.abs_eq by lia.
  rewrite (proj2 (Z.leb_gt _ _)) by lia. by apply u32_small.
Qed.

(** ** Strings, read by their octets *)
Section Strings.
(** the condition that reads the length, the one that reads the octets, and where the string ends *)
Context (c0 c1 : condition) (colon_ octet_ : action) (end_ : string → scanner → list Z → outcome scanned)
  (st : list condition) (ended : scanner → Prop).
Context (colon_picked : ∀ q, pick (rules c0) ([58] ++ q) = Some (1%nat, colon_))
  (length_picked : ∀ p q, p ≠ [] → Forall (λ x, digit x = true) p →
     match q with [] => True | y :: _ => digit y = false end → pick (rules c0) (p ++ q) = Some (length p, Length_))
  (octets_picked : ∀ x q, pick (rules c1) ([x] ++ q) = Some (1%nat, octet_))
  (colon_perform : ∀ y s bs, perform colon_ y s bs = colon c1 end_ s bs)
  (octet_perform : ∀ y s bs, perform octet_ y s bs = octet end_ y s bs)
  (end_given : ∀ c v s bs, c = c0 ∨ c = c1 → at_ c st s →
     ∃ s', end_ v s bs = Ok (Token (STRING v) s' bs) ∧ ended s').

Lemma string_octets_lexed v : ∀ u s rest fuel,
  at_ c1 st s → string_length s = Z.of_nat (String.length v) → string_ok v = true → v ≠ "" →
  yylval s = Sval u → (length (string_bytes v ++ rest) < fuel)%nat →
  ∃ s', lex fuel s (string_bytes v ++ rest) = Ok (Token (STRING (u +:+ v)) s' rest) ∧ ended s'.
Proof using octets_picked octet_perform end_given.
  unfold string_ok. induction v as [|x v IH]; [done|]. intros u s rest fuel [Hc Hst] Hl Hok _ Hu Hf.
  change (string_bytes (String x v) ++ rest) with ([code x] ++ string_bytes v ++ rest) in *.
  pose proof (octets_picked (code x) (string_bytes v ++ rest)) as Hp. rewrite <- Hc in Hp.
  cbn [String.length] in Hl, Hok. bool_lia.
  pose proof (octet_perform [code x] s (string_bytes v ++ rest)) as Ho. unfold octet in Ho. rewrite Hu in Ho.
  rewrite (proj2 (Z.eqb_neq (string_length s) 0)) in Ho by lia.
  change (bytes_string (take 1 [code x])) with (String (chr (code x)) "") in Ho. rewrite chr_code in Ho.
  cbn [negb ace_assert mbind outcome_bind string_length set_string_length] in Ho.
  rewrite u32_small in Ho by lia.
  replace (u +:+ String x v) with ((u +:+ String x "") +:+ v) by (by rewrite string_app_assoc, append_cons, append_nil).
  destruct (decide (v = "")) as [->|Hne].
  - rewrite (proj2 (Z.eqb_eq _ _)) in Ho by (cbn in Hl; lia). rewrite string_app_nil_r.
    match type of Ho with _ = end_ ?v ?s ?bs =>
      destruct (end_given c1 v s bs ltac:(by right) ltac:(by split)) as (s' & Hs & He) end.
    exists s'. split; [|done]. eapply lex_given; [done|by rewrite Ho|done|lia].
  - rewrite (proj2 (Z.eqb_neq _ _)) in Ho by (destruct v; [done|cbn [String.length] in Hl; lia]).
    destruct (turn_taken s _ _ _ _ _ Hp Ho ltac:(done) Hf) as (fuel' & -> & Hf').
    apply IH; [by split|cbn; lia|by apply Z.ltb_lt; lia|done|done|done].
Qed.

Lemma string_lexed v s rest fuel :
  at_ c0 st s → string_ok v = true → (length (bencode_string v ++ rest) < fuel)%nat →
  ∃ s', lex fuel s (bencode_string v ++ rest) = Ok (Token (STRING v) s' rest) ∧ ended s'.
Proof using All.
  intros [Hc Hst] Hok Hf. assert (0 <= Z.of_nat (String.length v) < 2 ^ 32) as Hb by (unfold string_ok in Hok; bool_lia).
  destruct (number_octets (Z.of_nat (String.length v))) as [Hd Hne].
  unfold bencode_string in *. rewrite <- !(assoc_L (++)) in *.
  pose proof (length_picked _ ([58] ++ string_bytes v ++ rest) Hne Hd eq_refl) as Hp. rewrite <- Hc in Hp.
  destruct (turn_taken s _ _ _ _ _ Hp eq_refl Hne Hf) as (f1 & -> & Hf1).
  rewrite bytes_string_bytes, read_length_pretty by done.
  pose proof (colon_picked (string_bytes v ++ rest)) as Hp1. rewrite <- Hc in Hp1.
  match goal with |- ∃ _, lex _ ?s1 _ = _ ∧ _ => pose proof (colon_perform [58] s1 (string_bytes v ++ rest)) as Ho end.
  unfold colon in Ho. cbn [string_length set_yylval set_string_length] in Ho.
  destruct (decide (v = "")) as [->|Hv].
  - match type of Ho with _ = (if _ then end_ ?v ?s ?bs else _) =>
      destruct (end_given c0 v s bs ltac:(by left) ltac:(by split)) as (s' & Hs & He) end.
    exists s'. split; [|done]. eapply lex_given; [exact Hp1|by rewrite Ho|done|lia].
  - rewrite (proj2 (Z.eqb_neq _ _)) in Ho by (destruct v; [done|cbn [String.length]; lia]).
    destruct (turn_taken (set_string_length _ s) _ _ _ _ _ Hp1 Ho ltac:(done) Hf1) as (f2 & -> & Hf2).
    apply (string_octets_lexed v ""); [by split|done..].
Qed.
End Strings.

(** ** The tokens of elements *)
Definition at_behind (c : condition) (st : list condition) (s : scanner) : Prop :=
  at_ (behind c st).1 (behind c st).2 s.
Definition fresh (s : scanner) : scanner := MkScanner (start s) (stack s) 0 NoValue.
Lemma at_fresh c st s : at_ c st s → at_ c st (fresh s).
Proof. done. Qed.
Lemma lex_fuel_enough bs : (S (length bs) < lex_fuel bs)%nat.
Proof. unfold lex_fuel. lia. Qed.

Lemma integer_token c st s i rest :
  opens c → at_ c st s → - 2 ^ 63 <= i < 2 ^ 63 →
  ∃ s', yylex s (bencode (BeInteger i) ++ rest) = Ok (Token (INTEGER i) s' rest) ∧ at_behind c st s'.
Proof.
  intros Hc Hs Hi. cbn [bencode]. rewrite <- !(assoc_L (++)). unfold yylex. fold (fresh s).
  pose proof (lex_fuel_enough ([105] ++ string_bytes (pretty i) ++ [101] ++ rest)) as Hf.
  pose proof (begin_picked c 105 BeginInteger (string_bytes (pretty i) ++ [101] ++ rest) Hc ltac:(by left)) as Hp.
  rewrite <- (proj1 (at_fresh _ _ _ Hs)) in Hp.
  destruct (turn_taken _ [105] _ _ _ _ Hp eq_refl ltac:(done) (Nat.lt_succ_l _ _ Hf)) as (f1 & -> & Hf1).
  destruct (number_octets i) as [Hd Hne].
  pose proof (enter_at c state_integer st (set_yylval (Ival 0) (fresh s)) Hc ltac:(done)) as [Hs1 Hst1].
  pose proof (digits_picked state_integer Value_ _ ([101] ++ rest) ltac:(by left) Hne Hd eq_refl) as Hp1.
  rewrite <- Hs1 in Hp1. destruct (turn_taken _ _ _ _ _ _ Hp1 eq_refl Hne Hf1) as (f2 & -> & Hf2).
  rewrite bytes_string_bytes, read_integer_pretty by done.
  pose proof (end_picked state_integer 101 EndOfInteger rest ltac:(by left)) as Hp2. rewrite <- Hs1 in Hp2.
  eexists. split; [eapply lex_given; [exact Hp2| |done|lia]|].
  - cbn [perform]. unfold yy_pop_state. cbn [stack set_yylval]. rewrite Hst1. reflexivity.
  - by split.
Qed.

Lemma string_token c st s v rest :
  opens c → at_ c st s → string_ok v = true →
  ∃ s', yylex s (bencode_string v ++ rest) = Ok (Token (STRING v) s' rest) ∧ at_behind c st s'.
Proof.
  intros Hc Hs Hv. unfold yylex. fold (fresh s). pose proof (lex_fuel_enough (bencode_string v ++ rest)) as Hf.
  assert (∃ x q, bencode_string v ++ rest = [x] ++ q ∧ digit x = true) as (x & q & E & Hx).
  { unfold bencode_string. destruct (number_octets (Z.of_nat (String.length v))) as [Hd Hne].
    destruct Hd as [|x l Hx _]; [done|]. by exists x, ((l ++ [58] ++ string_bytes v) ++ rest). }
  rewrite E in *. pose proof (digit_picked c x q Hc Hx) as Hp. rewrite <- (proj1 (at_fresh _ _ _ Hs)) in Hp.
  destruct (lex_looked _ _ _ _ _ _ Hp eq_refl Hf) as (f1 & -> & Hf1). rewrite <- E in *.
  apply (string_lexed state_string state_string_2 Colon Octet end_of_string ((behind c st).1 :: (behind c st).2)); try done.
  - intros u. by apply end_picked; right; left.
  - intros p u. by apply digits_picked; right; left.
  - intros y u. by apply one_octet_picked; left.
  - intros k u s' bs _ [_ Hst]. eexists. split; [unfold end_of_string, yy_pop_state; by rewrite Hst|done].
  - by apply enter_at.
Qed.

(** where a key, or the end of the dictionary, may be *)
Definition at_key (st : list condition) (s : scanner) : Prop :=
  at_ state_dictionary_key st s ∨ ∃ k, at_ state_dictionary_value_2 (state_dictionary_value :: k :: st) s.
Lemma key_looked st s x q fuel :
  at_key st s → (S (length ([x] ++ q)) < fuel)%nat →
  ∃ s' fuel', lex fuel (fresh s) ([x] ++ q) = lex fuel' s' ([x] ++ q) ∧ at_ state_dictionary_key st s' ∧
    (length ([x] ++ q) < fuel')%nat.
Proof.
  intros [Hs|(k & Hs & Hst)] Hf; [exists (fresh s), fuel; split_and!; [done..|lia]|].
  pose proof (one_octet_picked state_dictionary_value_2 NextKey x q ltac:(by right; right; left)) as Hp.
  rewrite <- Hs in Hp. change (start s) with (start (fresh s)) in Hp.
  assert (perform NextKey [x] (fresh s) q = Ok (Matched (MkScanner state_dictionary_key st 0 NoValue) ([x] ++ q))) as Ha
    by (cbn [perform]; unfold yy_pop_state, fresh; cbn [stack]; by rewrite Hst).
  destruct (lex_looked _ _ _ _ _ _ Hp Ha Hf) as (f1 & E & Hf1). eexists _, f1. split_and!; [exact E|done|done].
Qed.
Lemma key_token st s v rest :
  at_key st s → string_ok v = true →
  ∃ s' k, yylex s (bencode_string v ++ rest) = Ok (Token (STRING v) s' rest) ∧ at_ state_dictionary_value (k :: st) s'.
Proof.
  intros Hs Hv. unfold yylex. fold (fresh s). pose proof (lex_fuel_enough (bencode_string v ++ rest)) as Hf.
  assert (∃ x q, bencode_string v ++ rest = [x] ++ q) as (x & q & E).
  { unfold bencode_string. destruct (number_octets (Z.of_nat (String.length v))) as [_ Hne].
    destruct (string_bytes (pretty _)) as [|x l]; [done|]. by exists x, ((l ++ [58] ++ string_bytes v) ++ rest). }
  rewrite E in *. destruct (key_looked st s x q _ Hs Hf) as (s1 & f1 & -> & Hs1 & Hf1). rewrite <- E in *.
  destruct (string_lexed state_dictionary_key state_dictionary_key_2 KeyColon KeyOctet end_of_key st
    (λ s', ∃ k, at_ state_dictionary_value (k :: st) s')) with (v := v) (s := s1) (rest := rest) (fuel := f1)
    as (s' & Es & k & Hk); try done.
  - intros u. by apply end_picked; do 4 right; left.
  - intros p u. by apply digits_picked; do 2 right; left.
  - intros y u. by apply one_octet_picked; right; left.
  - intros k u s' bs _ [_ Hst]. eexists. split; [done|]. exists (start s'). by split; cbn; rewrite ?Hst.
  - by exists s', k.
Qed.

Lemma container_token c st s rest :
  opens c → at_ c st s →
  (∃ s', yylex s ([108] ++ rest) = Ok (Token LIST s' rest) ∧
     at_ state_list ((behind c st).1 :: (behind c st).2) s') ∧
  (∃ s', yylex s ([100] ++ rest) = Ok (Token DICTIONARY s' rest) ∧
     at_ state_dictionary_key ((behind c st).1 :: (behind c st).2) s').
Proof.
  intros Hc Hs. unfold yylex. fold (fresh s).
  pose proof (begin_picked c 108 BeginList rest Hc ltac:(by right; left)) as Hp.
  pose proof (begin_picked c 100 BeginDictionary rest Hc ltac:(by right; right; left)) as Hp'.
  rewrite <- (proj1 (at_fresh _ _ _ Hs)) in Hp, Hp'.
  split; eexists; (split; [eapply lex_given; [done|reflexivity|done|unfold lex_fuel; lia]|by apply enter_at]).
Qed.
Lemma list_end_token c st s rest :
  at_ state_list (c :: st) s → ∃ s', yylex s ([101] ++ rest) = Ok (Token END_OF_LIST s' rest) ∧ at_ c st s'.
Proof.
  intros [Hs Hst]. unfold yylex. fold (fresh s).
  pose proof (end_picked state_list 101 EndOfList rest ltac:(by do 2 right; left)) as Hp. rewrite <- Hs in Hp.
  eexists. split; [eapply lex_given; [exact Hp| |done|unfold lex_fuel; lia]|].
  - cbn [perform]. unfold yy_pop_state, fresh. cbn [stack]. by rewrite Hst.
  - done.
Qed.
Lemma dictionary_end_token c st s rest :
  at_key (c :: st) s → ∃ s', yylex s ([101] ++ rest) = Ok (Token END_OF_DICTIONARY s' rest) ∧ at_ c st s'.
Proof.
  intros Hs. unfold yylex. fold (fresh s).
  destruct (key_looked _ s 101 rest _ Hs (lex_fuel_enough _)) as (s1 & f1 & -> & [Hs1 Hst1] & Hf1).
  pose proof (end_picked state_dictionary_key 101 EndOfDictionary rest ltac:(by do 3 right; left)) as Hp.
  rewrite <- Hs1 in Hp. eexists. split; [eapply lex_given; [exact Hp| |done|lia]|].
  - cbn [perform]. unfold yy_pop_state. by rewrite Hst1.
  - done.
Qed.
