(* ===== verification/BencodingParser.v ===== *)
(** * The parser of bencoding (protocol/p2p/bittorrent: scripts/bencoding_parser.yy,
    bittorrent_bencoding_parser_driver.{h,cpp})

    The grammar, whose actions run as their tokens are read, and the driver, which makes the
    elements: they are in a store, and a list or a dictionary is a list of their addresses.  An
    element in its bencoding is read, and nothing behind it ([parse_bencoded]). *)
From S2P Require Import Prelude Chars Decimal Lex Platform BencodingScanner.

(** ** The driver *)
(** an element in the store, and the addresses of those in it *)
Inductive node :=
  | Integer (integer : Z)
  | String_ (string : string)
  | List_ (list : list nat)
  | Dictionary (dictionary : list (string * nat)).
Record driver := MkDriver {
  heap : list node; bencoding_ : option nat; isFirst_ : bool; current_ : list nat;
  key_ : option string
}.
Definition driver_init : driver := MkDriver [] None true [] None.
Definition is_container (n : node) : bool :=
  match n with List_ _ | Dictionary _ => true | _ => false end.

(** the element [l] is put into that at [current_p] *)
Definition attach (current_p l : nat) (d : driver) : outcome driver :=
  match heap d !! current_p with
  | Some (List_ ls) =>
      Ok (MkDriver (<[current_p := List_ (ls ++ [l])]> (heap d)) (bencoding_ d) (isFirst_ d)
            (current_ d) (key_ d))
  | Some (Dictionary kvs) =>
      match key_ d with
      | None => Abort
      | Some k =>
          Ok (MkDriver (<[current_p := Dictionary (kvs ++ [(k, l)])]> (heap d)) (bencoding_ d)
                (isFirst_ d) (current_ d) None)
      end
  | Some _ => Abort
  | None => Undef
  end.
(** the element that is pushed may become the current one *)
Definition descend (n : node) (l : nat) (d : driver) : driver :=
  MkDriver (heap d) (bencoding_ d) (isFirst_ d)
    (if is_container n then l :: current_ d else current_ d) (key_ d).
(** [pushInteger ()] and the others: an element, which is passed to [push ()] *)
Definition push (n : node) (d : driver) : outcome driver :=
  let l := length (heap d) in
  let d := MkDriver (heap d ++ [n]) (bencoding_ d) (isFirst_ d) (current_ d) (key_ d) in
  d ← (if isFirst_ d then
         ace_assert (bool_decide (bencoding_ d = None));;
         Ok (MkDriver (heap d) (Some l) false (current_ d) (key_ d))
       else Ok d);
  match current_ d with
  | [] => Ok (descend n l d)
  | current_p :: _ => d ← attach current_p l d; Ok (descend n l d)
  end.
Definition pushKey (k : string) (d : driver) : outcome driver :=
  ace_assert (bool_decide (key_ d = None));;
  Ok (MkDriver (heap d) (bencoding_ d) (isFirst_ d) (current_ d) (Some k)).
Definition pop (d : driver) : outcome driver :=
  match current_ d with
  | [] => Undef
  | _ :: st => Ok (MkDriver (heap d) (bencoding_ d) (isFirst_ d) st (key_ d))
  end.

(** ** The grammar *)
(** [Failed]: a syntax error *)
Inductive parsed := Parsed (d : driver) (s : scanner) (bs : list Z) | Failed.
Definition popped (p : parsed) : outcome parsed :=
  match p with Parsed d s bs => d ← pop d; Ok (Parsed d s bs) | Failed => Ok Failed end.

(** an element, after its first token *)
Definition value (list_items dictionary_items : driver → scanner → list Z → outcome parsed)
    (t : token) (d : driver) (s : scanner) (bs : list Z) : outcome parsed :=
  match t with
  | INTEGER z => d ← push (Integer z) d; Ok (Parsed d s bs)
  | STRING v => d ← push (String_ v) d; Ok (Parsed d s bs)
  | LIST => d ← push (List_ []) d; p ← list_items d s bs; popped p
  | DICTIONARY => d ← push (Dictionary []) d; p ← dictionary_items d s bs; popped p
  | END_OF_LIST | END_OF_DICTIONARY => Ok Failed
  end.

(** the items, and the token that ends them *)
Fixpoint list_items (fuel : nat) (d : driver) (s : scanner) (bs : list Z) : outcome parsed :=
  match fuel with
  | O => Abort
  | S fuel' =>
      m ← yylex s bs;
      match m with
      | Token END_OF_LIST s bs => Ok (Parsed d s bs)
      | Token t s bs =>
          p ← value (list_items fuel') (dictionary_items fuel') t d s bs;
          match p with Parsed d s bs => list_items fuel' d s bs | Failed => Ok Failed end
      | _ => Ok Failed
      end
  end
with dictionary_items (fuel : nat) (d : driver) (s : scanner) (bs : list Z) : outcome parsed :=
  match fuel with
  | O => Abort
  | S fuel' =>
      m ← yylex s bs;
      match m with
      | Token END_OF_DICTIONARY s bs => Ok (Parsed d s bs)
      | Token (STRING k) s bs =>
          d ← pushKey k d;
          m ← yylex s bs;
          match m with
          | Token t s bs =>
              p ← value (list_items fuel') (dictionary_items fuel') t d s bs;
              match p with Parsed d s bs => dictionary_items fuel' d s bs | Failed => Ok Failed end
          | _ => Ok Failed
          end
      | _ => Ok Failed
      end
  end.
(** every token takes an octet *)
Definition items_fuel (bs : list Z) : nat := S (length bs).

(** [current ()] and [record ()]: there is an element *)
Definition record (p : parsed) : outcome parsed :=
  match p with
  | Parsed d _ _ => ace_assert (bool_decide (bencoding_ d ≠ None));; Ok p
  | Failed => Ok Failed
  end.
Definition bencoding (d : driver) (s : scanner) (bs : list Z) : outcome parsed :=
  m ← yylex s bs;
  match m with
  | Token t s bs => p ← value (list_items (items_fuel bs)) (dictionary_items (items_fuel bs)) t d s bs; record p
  | _ => Ok Failed
  end.
(** [parse ()] of a driver that is new *)
Definition parse (bs : list Z) : outcome parsed :=
  bencoding driver_init (MkScanner INITIAL [] 0 NoValue) bs.

(** ** The elements of a store *)
(** the element at an address of the store; an element is below [fuel] others at most *)
Fixpoint resolve (fuel : nat) (h : list node) (l : nat) : option element :=
  match fuel with
  | O => None
  | S fuel' =>
      match h !! l with
      | None => None
      | Some (Integer i) => Some (BeInteger i)
      | Some (String_ s) => Some (BeString s)
      | Some (List_ ls) => BeList <$> mapM (resolve fuel' h) ls
      | Some (Dictionary kvs) =>
          BeDictionary <$> mapM (λ kv, pair kv.1 <$> resolve fuel' h kv.2) kvs
      end
  end.
(** the elements that a driver has made *)
Definition element_at (d : driver) (l : nat) : option element := resolve (length (heap d)) (heap d) l.
Definition entries_at (d : driver) (kvs : list (string * nat)) : option (list (string * element)) :=
  mapM (λ kv, pair kv.1 <$> element_at d kv.2) kvs.

Definition sample_metainfo : list (string * element) :=
  [("announce", BeString "http://tracker/announce");
   ("info", BeDictionary
      [("files", BeList [BeDictionary [("length", BeInteger 7); ("path", BeList [BeString "a"])];
                         BeDictionary [("length", BeInteger 5); ("path", BeList [BeString "b"; BeString "c"])]]);
       ("name", BeString ""); ("piece length", BeInteger (-3))])].
Example sample_parsed :
  match parse (bencode (BeDictionary sample_metainfo) ++ [101; 10]) with
  | Ok (Parsed d s bs) =>
      (l ← bencoding_ d; element_at d l) = Some (BeDictionary sample_metainfo) ∧ bs = [101; 10] ∧
      start s = INITIAL ∧ stack s = [] ∧ current_ d = []
  | _ => False
  end.
Proof. vm_compute. by split_and!. Qed.

(** What is not bencoding, and is taken: a number with a sign inside, or out of range, the length of a string with a
    sign, keys that are not sorted or that are repeated. *)
Definition element_read_from (s : string) : option element :=
  match parse (string_bytes s) with Ok (Parsed d _ _) => l ← bencoding_ d; element_at d l | _ => None end.
Example signs_inside :
  element_read_from "li5-3ei-ei--7ei007ee" = Some (BeList [BeInteger 5; BeInteger 0; BeInteger 0; BeInteger 7]).
Proof. by vm_compute. Qed.
Example integer_clamped : element_read_from "i9223372036854775808e" = Some (BeInteger (2 ^ 63 - 1)).
Proof. by vm_compute. Qed.
Example length_negative : element_read_from "-4294967293:abc" = Some (BeString "abc").
Proof. by vm_compute. Qed.
Example keys_repeated :
  element_read_from "d1:bi1e1:ai2e1:bi3ee" =
    Some (BeDictionary [("b", BeInteger 1); ("a", BeInteger 2); ("b", BeInteger 3)]).
Proof. by vm_compute. Qed.
(** A syntax error; and the end of the file inside an element, which [yywrap ()] does not expect. *)
Example value_missing : parse (string_bytes "d1:ae") = Ok Failed.
Proof. by vm_compute. Qed.
Example truncated_aborts : parse (string_bytes "d3:abc") = Abort ∧ parse [] = Abort.
Proof. by vm_compute. Qed.

(** ** The fuel is enough, whatever is read *)
(** what is parsed takes nothing that it has not got; and more fuel makes no difference *)
Definition bounded (bs : list Z) (p : outcome parsed) : Prop :=
  ∀ d s bs', p = Ok (Parsed d s bs') → (length bs' <= length bs)%nat.
Definition same_on (bs : list Z) (f g : driver → scanner → list Z → outcome parsed) : Prop :=
  ∀ d s bs', (length bs' <= length bs)%nat → f d s bs' = g d s bs'.
Lemma value_bounded f g t d s bs :
  (∀ d s, bounded bs (f d s bs)) → (∀ d s, bounded bs (g d s bs)) → bounded bs (value f g t d s bs).
Proof.
  intros Hf Hg d' s' bs'. destruct t; cbn [value]; intros Hp; try apply bind_Ok in Hp as (d1 & Hd & Hp);
    simplify_eq; try done.
  all: apply bind_Ok in Hp as ([d2 s2 bs2|] & Hi & Hp); [|done]; cbn [popped] in Hp;
    apply bind_Ok in Hp as (d3 & _ & [= <- <- <-]); first [by eapply Hf|by eapply Hg].
Qed.
Lemma value_same f g f' g' t d s bs :
  same_on bs f f' → same_on bs g g' → value f g t d s bs = value f' g' t d s bs.
Proof.
  intros Hf Hg. destruct t; cbn [value]; try done; (destruct (push _ d); [|done..]); cbn [mbind outcome_bind];
    by rewrite Hf || rewrite Hg.
Qed.
Lemma items_bounded fuel : ∀ d s bs,
  bounded bs (list_items fuel d s bs) ∧ bounded bs (dictionary_items fuel d s bs).
Proof.
  induction fuel as [|fuel IH]; intros d s bs; [done|].
  assert (∀ t d s bs, bounded bs (value (list_items fuel) (dictionary_items fuel) t d s bs)) as Hb
    by (intros; apply value_bounded; intros; apply IH).
  split; intros d' s' bs'; cbn [list_items dictionary_items];
    intros ([|t s1 bs1|] & Hl%lex_shrinks & Hp)%bind_Ok; try done; cbn in Hl; destruct t; simplify_eq; try lia.
  all: try (apply bind_Ok in Hp as ([d2 s2 bs2|] & Hv & Hp); [|done]; apply Hb in Hv; apply IH in Hp; lia).
  apply bind_Ok in Hp as (d1 & _ & Hp). apply bind_Ok in Hp as ([|t s2 bs2|] & Hl2%lex_shrinks & Hp); try done.
  apply bind_Ok in Hp as ([d3 s3 bs3|] & Hv & Hp); [|done]. apply Hb in Hv. apply IH in Hp. lia.
Qed.
(** More fuel than there are octets makes no difference. *)
Theorem items_fuel_enough fuel : ∀ n d s bs, (length bs < fuel)%nat → (fuel <= n)%nat →
  list_items n d s bs = list_items fuel d s bs ∧ dictionary_items n d s bs = dictionary_items fuel d s bs.
Proof.
  induction fuel as [|fuel IH]; intros n d s bs Hf Hn; [lia|]. destruct n as [|n]; [lia|].
  assert (∀ bs', (length bs' < length bs)%nat →
    same_on bs' (list_items n) (list_items fuel) ∧ same_on bs' (dictionary_items n) (dictionary_items fuel)) as Hs
    by (intros bs' Hb; split; intros d1 s1 bs1 Hb1; apply IH; lia).
  assert (∀ t d s bs', (length bs' < length bs)%nat →
    value (list_items n) (dictionary_items n) t d s bs' = value (list_items fuel) (dictionary_items fuel) t d s bs') as Hv
    by (intros t1 d1 s1 bs1 Hb; apply value_same; by apply Hs).
  assert (∀ t d s bs' d2 s2 bs2, (length bs' < length bs)%nat →
    value (list_items fuel) (dictionary_items fuel) t d s bs' = Ok (Parsed d2 s2 bs2) →
    (length bs2 < length bs)%nat) as Hl
    by (intros t1 d1 s1 bs1 d2 s2 bs2 Hb E; eapply Nat.le_lt_trans; [|exact Hb];
      refine (value_bounded _ _ t1 d1 s1 bs1 _ _ d2 s2 bs2 E);
      intros; apply items_bounded).
  cbn [list_items dictionary_items].
  destruct (yylex s bs) as [[|t s1 bs1|]| |] eqn:El; try done. apply token_shrinks in El. cbn [mbind outcome_bind].
  split; destruct t; try done.
  all: try (rewrite Hv by done; (destruct (value _ _ _ _ _ _) as [[d2 s2 bs2|]| |] eqn:Ev; try done);
    apply Hl in Ev; [|done]; cbn [mbind outcome_bind]; apply IH; lia).
  destruct (pushKey _ d) as [d0| |]; try done. cbn [mbind outcome_bind].
  destruct (yylex s1 bs1) as [[|t s2 bs2|]| |] eqn:El2; try done. apply token_shrinks in El2. cbn [mbind outcome_bind].
  rewrite Hv by lia. destruct (value _ _ _ _ _ _) as [[d3 s3 bs3|]| |] eqn:Ev; try done.
  apply Hl in Ev; [|lia]. cbn [mbind outcome_bind]. apply IH; lia.
Qed.

(** ** How elements are laid out in the store

    Those of a list, one behind the other: their addresses, and the store that they take. *)
Definition items {A} (f : nat → A → list node) : nat → list A → list nat * list node :=
  fix go (n : nat) (l : list A) :=
    match l with
    | [] => ([], [])
    | x :: l' => let r := go (n + length (f n x))%nat l' in (n :: r.1, f n x ++ r.2)
    end.
Fixpoint layout (n : nat) (e : element) : list node :=
  match e with
  | BeInteger i => [Integer i]
  | BeString s => [String_ s]
  | BeList l => let r := items layout (S n) l in List_ r.1 :: r.2
  | BeDictionary d => let r := items (λ n kv, layout n kv.2) (S n) d in Dictionary (zip d.*1 r.1) :: r.2
  end.

Section ElementInd.
Variable P : element → Prop.
Hypothesis integer_case : ∀ i, P (BeInteger i).
Hypothesis string_case : ∀ s, P (BeString s).
Hypothesis list_case : ∀ l, Forall P l → P (BeList l).
Hypothesis dictionary_case : ∀ d, Forall (λ kv, P kv.2) d → P (BeDictionary d).
Fixpoint element_induction (e : element) : P e :=
  match e with
  | BeInteger i => integer_case i
  | BeString s => string_case s
  | BeList l =>
      list_case l ((fix go l : Forall P l :=
        match l with [] => Forall_nil_2 _ | e :: l' => Forall_cons_2 _ _ _ (element_induction e) (go l') end) l)
  | BeDictionary d =>
      dictionary_case d ((fix go d : Forall (λ kv, P kv.2) d :=
        match d with
        | [] => Forall_nil_2 _
        | (k, e) :: d' => Forall_cons_2 _ (k, e) _ (element_induction e) (go d')
        end) d)
  end.
End ElementInd.

(** what is laid out is found: those in an element are behind it *)
Lemma items_resolved {A B} (f : nat → A → list node) (g : nat → option B) (k : A → B) h m l :
  Forall (λ x, ∀ pre post, h = pre ++ f (length pre) x ++ post → (m <= length pre)%nat →
    g (length pre) = Some (k x)) l →
  ∀ pre post, h = pre ++ (items f (length pre) l).2 ++ post → (m <= length pre)%nat →
  mapM g (items f (length pre) l).1 = Some (k <$> l).
Proof.
  induction 1 as [|x l Hx _ IH]; [done|]. intros pre post Hh Hm. cbn [items fst snd mapM] in *.
  rewrite <- (assoc_L (++)) in Hh. rewrite (Hx pre _ Hh Hm). cbn [mbind option_bind].
  specialize (IH (pre ++ f (length pre) x) post). rewrite length_app in IH.
  rewrite IH by (rewrite <- ?(assoc_L (++)); done || lia). done.
Qed.
Lemma mapM_pairs {B} (g : nat → option B) ls es :
  mapM g ls = Some es → ∀ ks : list string,
  mapM (λ kv, pair kv.1 <$> g kv.2) (zip ks ls) = Some (zip ks es).
Proof.
  revert es. induction ls as [|l ls IH]; intros es; cbn [mapM].
  - intros [= <-] ks. by destruct ks.
  - intros (b & Hb & Hes)%bind_Some. apply bind_Some in Hes as (es' & Hes & [= <-]).
    intros [|k ks]; [done|]. cbn [zip zip_with mapM fst snd]. rewrite Hb.
    cbn [fmap option_fmap option_map mbind option_bind].
    by rewrite (IH es').
Qed.
Lemma layout_found pre e post h :
  h = pre ++ layout (length pre) e ++ post → h !! length pre = layout (length pre) e !! 0%nat.
Proof. intros ->. rewrite lookup_app_r, Nat.sub_diag by done. by destruct e. Qed.
Lemma layout_resolved h e : ∀ pre post fuel,
  h = pre ++ layout (length pre) e ++ post → (length h - length pre <= fuel)%nat →
  resolve fuel h (length pre) = Some e.
Proof.
  induction e as [i|s|l IH|d IH] using element_induction; intros pre post fuel Hh Hf;
    (destruct fuel as [|fuel]; [rewrite Hh in Hf; rewrite !length_app in Hf; cbn in Hf; lia|]);
    cbn [resolve]; rewrite (layout_found _ _ _ _ Hh); cbn [layout]; [done|done|..]; cbn.
  - pose proof (items_resolved layout (resolve fuel h) id h (S (length pre)) l) as Hi.
    rewrite list_fmap_id in Hi. cbn [layout] in Hh.
    specialize (Hi ltac:(eapply Forall_impl; [exact IH|cbn; intros x Hx p q Hp Hm; apply (Hx p q); [done|lia]])
      (pre ++ [List_ (items layout (S (length pre)) l).1]) post).
    rewrite length_app in Hi. cbn [length] in Hi. rewrite Nat.add_1_r in *.
    rewrite Hi by (rewrite <- ?(assoc_L (++)); done || lia). done.
  - pose proof (items_resolved (λ n kv, layout n kv.2) (resolve fuel h) snd h (S (length pre)) d) as Hi.
    cbn [layout] in Hh.
    specialize (Hi ltac:(eapply Forall_impl; [exact IH|cbn; intros x Hx p q Hp Hm; apply (Hx p q); [done|lia]])
      (pre ++ [Dictionary (zip d.*1 (items (λ n kv, layout n kv.2) (S (length pre)) d).1)]) post).
    rewrite length_app in Hi. cbn [length] in Hi. rewrite Nat.add_1_r in *.
    rewrite (mapM_pairs _ _ _ (Hi ltac:(rewrite <- ?(assoc_L (++)); done) ltac:(lia))).
    by rewrite zip_fst_snd.
Qed.

(** ** Elements are read *)
Definition grown (ns : list node) (d : driver) : driver :=
  MkDriver (heap d ++ ns) (bencoding_ d) (isFirst_ d) (current_ d) (key_ d).
(** the next element has its place: [d'] is the driver when it is there *)
Definition takes (d d' : driver) : Prop :=
  length (heap d') = length (heap d) ∧ isFirst_ d' = false ∧ key_ d' = None ∧
  ∀ n, push n d = Ok (descend n (length (heap d)) (grown [n] d')).
(** the current element has become [n], and what it has taken is in the store *)
Definition filled (cur : nat) (n : node) (ns : list node) (d : driver) : driver :=
  MkDriver (<[cur := n]> (heap d) ++ ns) (bencoding_ d) false (current_ d) None.
Definition inside (cur : nat) (n : node) (d : driver) : Prop :=
  head (current_ d) = Some cur ∧ heap d !! cur = Some n ∧ isFirst_ d = false ∧ key_ d = None.

Lemma takes_init : takes driver_init (MkDriver [] (Some 0%nat) false [] None).
Proof. by split_and!. Qed.
Lemma filled_again cur n m ns ms d :
  (cur < length (heap d))%nat → filled cur m ms (filled cur n ns d) = filled cur m (ns ++ ms) d.
Proof.
  intros Hc. unfold filled. cbn [heap bencoding_ current_].
  by rewrite insert_app_l, list_insert_insert_eq, <- (assoc_L (++)) by (by rewrite length_insert).
Qed.
Lemma inside_filled cur n m ns d : inside cur n d → inside cur m (filled cur m ns d).
Proof.
  intros (Hd & Hn & _). split_and!; [done| |done..]. cbn. apply lookup_lt_Some in Hn.
  by rewrite lookup_app_l, list_lookup_insert_eq by (by rewrite ?length_insert).
Qed.
Lemma takes_list cur ls d :
  inside cur (List_ ls) d → takes d (filled cur (List_ (ls ++ [length (heap d)])) [] d).
Proof.
  intros (Hd & Hn & Hf & Hk). pose proof (lookup_lt_Some _ _ _ Hn) as Hl. destruct d as [h b f st k]. cbn in *. subst f k.
  destruct st as [|cur' st]; [done|]. injection Hd as ->. unfold filled. split_and!; cbn; [|done|done|].
  - by rewrite app_nil_r, length_insert.
  - intros n. unfold push. cbn. unfold attach. cbn. rewrite lookup_app_l, Hn by done. cbn.
    unfold descend, grown. cbn. by rewrite insert_app_l, app_nil_r by done.
Qed.
Lemma takes_dictionary cur kvs k d :
  inside cur (Dictionary kvs) d →
  ∃ d', pushKey k d = Ok d' ∧ heap d' = heap d ∧
    takes d' (filled cur (Dictionary (kvs ++ [(k, length (heap d))])) [] d).
Proof.
  intros (Hd & Hn & Hf & Hk). pose proof (lookup_lt_Some _ _ _ Hn) as Hl. destruct d as [h b f st k']. cbn in *. subst f k'.
  destruct st as [|cur' st]; [done|]. injection Hd as ->. eexists. split_and!; [done|done|].
  unfold filled. split_and!; cbn; [|done|done|].
  - by rewrite app_nil_r, length_insert.
  - intros n. unfold push. cbn. unfold attach. cbn. rewrite lookup_app_l, Hn by done. cbn.
    unfold descend, grown. cbn. by rewrite insert_app_l, app_nil_r by done.
Qed.

(** an element is read from its first token to its last one, and put into its place *)
Definition element_read (e : element) : Prop :=
  encodable e = true → ∀ c st s d d' rest, opens c → at_ c st s → takes d d' →
  ∃ t s1 bs, yylex s (bencode e ++ rest) = Ok (Token t s1 bs) ∧ t ≠ END_OF_LIST ∧
    (length bs < length (bencode e ++ rest))%nat ∧
    ∀ fuel, (length bs < fuel)%nat →
      ∃ s', value (list_items fuel) (dictionary_items fuel) t d s1 bs =
        Ok (Parsed (grown (layout (length (heap d)) e) d') s' rest) ∧ at_behind c st s'.

Lemma bencode_string_length v : (0 < length (bencode_string v))%nat.
Proof. unfold bencode_string. rewrite !length_app. cbn. lia. Qed.
Lemma bencode_length e : (0 < length (bencode e))%nat.
Proof. destruct e; cbn; [lia|apply bencode_string_length|lia..]. Qed.

Lemma list_read l :
  Forall element_read l → forallb encodable l = true → ∀ c st s d cur ls rest fuel,
  at_ state_list (c :: st) s → inside cur (List_ ls) d →
  (length (concat (map bencode l) ++ [101%Z] ++ rest) < fuel)%nat →
  let r := items layout (length (heap d)) l in
  ∃ s', list_items fuel d s (concat (map bencode l) ++ [101] ++ rest) =
      Ok (Parsed (filled cur (List_ (ls ++ r.1)) r.2 d) s' rest) ∧ at_ c st s'.
Proof.
  induction 1 as [|e l He _ IH]; cbn [map concat forallb items fst snd]; intros Hok c st s d cur ls rest fuel Hs Hd Hf.
  - destruct fuel as [|fuel]; [lia|]. cbn [list_items]. rewrite app_nil_l.
    destruct (list_end_token c st s rest Hs) as (s' & -> & Hs'). cbn [mbind outcome_bind]. exists s'.
    split; [|done]. do 2 f_equal. destruct Hd as (Hd & Hn & Hfirst & Hk). destruct d. cbn in *. subst.
    unfold filled. cbn. by rewrite !app_nil_r, list_insert_id.
  - apply andb_true_iff in Hok as [Hoke Hok]. rewrite <- !(assoc_L (++)) in *.
    destruct (He Hoke state_list (c :: st) s d _ (concat (map bencode l) ++ [101] ++ rest)
      ltac:(by right; left) Hs (takes_list _ _ _ Hd)) as (t & s1 & bs & Hl & Ht & Hbs & Hv).
    destruct fuel as [|fuel]; [lia|]. cbn [list_items]. rewrite Hl. cbn [mbind outcome_bind].
    destruct (Hv fuel ltac:(lia)) as (s2 & -> & Hs2). cbn [mbind outcome_bind]. change (grown ?ns (filled ?c ?n [] ?d)) with
      (MkDriver ((<[c := n]> (heap d) ++ []) ++ ns) (bencoding_ d) false (current_ d) None).
    rewrite app_nil_r. fold (filled cur (List_ (ls ++ [length (heap d)])) (layout (length (heap d)) e) d).
    pose proof (inside_filled _ _ (List_ (ls ++ [length (heap d)])) (layout (length (heap d)) e) _ Hd) as Hd'.
    destruct (IH Hok c st s2 _ cur _ rest fuel Hs2 Hd') as (s' & Hr & Hs');
      [pose proof (bencode_length e); rewrite length_app in Hf; lia|].
    exists s'. split; [|done].
    assert (cur < length (heap d))%nat as Hc by (destruct Hd as (_ & Hn & _); by eapply lookup_lt_Some).
    rewrite filled_again, <- (assoc_L (++)) in Hr by done. cbn [heap filled] in Hr.
    rewrite length_app, length_insert in Hr. destruct t; try done; exact Hr.
Qed.

Notation bencode_entry := (λ kv : string * element, bencode_string kv.1 ++ bencode kv.2).
Lemma dictionary_read l :
  Forall (λ kv, element_read kv.2) l → forallb (λ kv, string_ok kv.1 && encodable kv.2) l = true →
  ∀ c st s d cur kvs rest fuel, at_key (c :: st) s → inside cur (Dictionary kvs) d →
  (length (concat (map bencode_entry l) ++ [101%Z] ++ rest) < fuel)%nat →
  let r := items (λ n kv, layout n kv.2) (length (heap d)) l in
  ∃ s', dictionary_items fuel d s (concat (map bencode_entry l) ++ [101] ++ rest) =
      Ok (Parsed (filled cur (Dictionary (kvs ++ zip l.*1 r.1)) r.2 d) s' rest) ∧ at_ c st s'.
Proof.
  induction 1 as [|[k e] l He _ IH]; cbn [map concat forallb items fst snd]; intros Hok c st s d cur kvs rest fuel Hs Hd Hf.
  - destruct fuel as [|fuel]; [lia|]. cbn [dictionary_items]. rewrite app_nil_l.
    destruct (dictionary_end_token c st s rest Hs) as (s' & -> & Hs'). cbn [mbind outcome_bind]. exists s'.
    split; [|done]. do 2 f_equal. destruct Hd as (Hd & Hn & Hfirst & Hk). destruct d. cbn in *. subst.
    unfold filled. cbn. by rewrite !app_nil_r, list_insert_id.
  - cbn [snd] in He. apply andb_true_iff in Hok as [[Hk Hoke]%andb_true_iff Hok]. rewrite <- !(assoc_L (++)) in *.
    destruct fuel as [|fuel]; [lia|]. cbn [dictionary_items].
    destruct (key_token _ s k (bencode e ++ concat (map bencode_entry l) ++ [101] ++ rest) Hs Hk) as (s0 & c' & -> & Hs0).
    cbn [mbind outcome_bind]. destruct (takes_dictionary _ _ k _ Hd) as (d0 & -> & Hh & Ht0). cbn [mbind outcome_bind].
    destruct (He Hoke _ _ s0 d0 _ (concat (map bencode_entry l) ++ [101] ++ rest)
      ltac:(by right; right) Hs0 Ht0) as (t & s1 & bs & Hl & Ht & Hbs & Hv).
    rewrite Hl. cbn [mbind outcome_bind].
    pose proof (bencode_length e). pose proof (bencode_string_length k). rewrite !length_app in Hf, Hbs.
    destruct (Hv fuel ltac:(cbn [length app] in *; lia)) as (s2 & -> & Hs2). cbn [mbind outcome_bind]. rewrite Hh.
    change (grown ?ns (filled ?c ?n [] ?d)) with
      (MkDriver ((<[c := n]> (heap d) ++ []) ++ ns) (bencoding_ d) false (current_ d) None).
    rewrite app_nil_r.
    fold (filled cur (Dictionary (kvs ++ [(k, length (heap d))])) (layout (length (heap d)) e) d).
    pose proof (inside_filled _ _ (Dictionary (kvs ++ [(k, length (heap d))])) (layout (length (heap d)) e) _ Hd) as Hd'.
    destruct (IH Hok c st s2 _ cur _ rest fuel ltac:(by right; exists c') Hd') as (s' & Hr & Hs');
      [rewrite !length_app in *; cbn [length] in *; lia|].
    exists s'. split; [|done].
    assert (cur < length (heap d))%nat as Hc by (destruct Hd as (_ & Hn & _); by eapply lookup_lt_Some).
    rewrite filled_again, <- (assoc_L (++)) in Hr by done. cbn [heap filled] in Hr.
    rewrite length_app, length_insert in Hr. exact Hr.
Qed.

(** a container is made, filled and left *)
Lemma container_read n m ns c st d d' (rest : list Z) (items_ : driver → outcome parsed) :
  takes d d' → is_container n = true →
  (∀ d1, inside (length (heap d)) n d1 → heap d1 = heap d' ++ [n] →
     ∃ s', items_ d1 = Ok (Parsed (filled (length (heap d)) m ns d1) s' rest) ∧ at_ c st s') →
  ∃ s', (d ← push n d; p ← items_ d; popped p) = Ok (Parsed (grown (m :: ns) d') s' rest) ∧ at_ c st s'.
Proof.
  intros (Hl & Hf & Hk & Hp) Hn Hi. rewrite Hp. cbn [mbind outcome_bind]. unfold descend. rewrite Hn.
  cbn [heap grown bencoding_ isFirst_ current_ key_].
  destruct (Hi (MkDriver (heap d' ++ [n]) (bencoding_ d') (isFirst_ d') (length (heap d) :: current_ d') (key_ d')))
    as (s' & -> & Hs').
  - split_and!; [done| |done..]. cbn. rewrite <- Hl. by rewrite lookup_app_r, Nat.sub_diag.
  - done.
  - cbn [mbind outcome_bind]. exists s'. split; [|done]. unfold popped, pop, filled, grown. cbn.
    rewrite <- Hl, insert_app_r_alt, Nat.sub_diag by done. cbn. rewrite <- (assoc_L (++)), Hf, Hk. done.
Qed.

Lemma element_read_all e : element_read e.
Proof.
  induction e as [i|v|l IH|l IH] using element_induction; intros Hok c st s d d' rest Hc Hs Ht; cbn [encodable] in Hok.
  - apply andb_true_iff in Hok as [Hlo Hhi]. bool_lia.
    destruct (integer_token c st s i rest Hc Hs (conj Hlo Hhi)) as (s' & E & Hs').
    exists (INTEGER i), s', rest. split_and!; [done|done|cbn [bencode]; rewrite length_app; cbn; lia|].
    intros fuel _. exists s'. split; [|done]. cbn [value layout]. by destruct Ht as (_ & _ & _ & ->).
  - destruct (string_token c st s v rest Hc Hs Hok) as (s' & E & Hs').
    exists (STRING v), s', rest. pose proof (bencode_string_length v).
    split_and!; [done|done|cbn [bencode]; rewrite length_app; lia|].
    intros fuel _. exists s'. split; [|done]. cbn [value layout]. by destruct Ht as (_ & _ & _ & ->).
  - cbn [bencode]. rewrite <- !(assoc_L (++)).
    destruct (container_token c st s (concat (map bencode l) ++ [101] ++ rest) Hc Hs) as [(s1 & E & Hs1) _].
    exists LIST, s1, (concat (map bencode l) ++ [101] ++ rest). split_and!; [done|done|cbn; lia|].
    intros fuel Hf. apply (container_read (List_ []) _ _ _ _ _ _ _ _ Ht eq_refl). intros d1 Hd1 Hh.
    destruct (list_read l IH Hok _ _ s1 d1 _ [] rest fuel Hs1 Hd1 Hf) as (s' & Hr & Hs').
    destruct Ht as [Hl _]. rewrite Hh, length_app, Hl, Nat.add_1_r in Hr. by exists s'.
  - cbn [bencode]. rewrite <- !(assoc_L (++)).
    destruct (container_token c st s (concat (map bencode_entry l) ++ [101] ++ rest) Hc Hs) as [_ (s1 & E & Hs1)].
    exists DICTIONARY, s1, (concat (map bencode_entry l) ++ [101] ++ rest). split_and!; [done|done|cbn; lia|].
    intros fuel Hf. apply (container_read (Dictionary []) _ _ _ _ _ _ _ _ Ht eq_refl). intros d1 Hd1 Hh.
    destruct (dictionary_read l IH Hok _ _ s1 d1 _ [] rest fuel ltac:(by left) Hd1 Hf) as (s' & Hr & Hs').
    destruct Ht as [Hl _]. rewrite Hh, length_app, Hl, Nat.add_1_r in Hr. by exists s'.
Qed.

(** What is behind an element is not taken. *)
Theorem parse_bencoded e rest :
  encodable e = true →
  ∃ d s, parse (bencode e ++ rest) = Ok (Parsed d s rest) ∧ heap d = layout 0 e ∧ bencoding_ d = Some 0%nat ∧
    element_at d 0 = Some e ∧ current_ d = [] ∧ at_ INITIAL [] s.
Proof.
  intros Hok. unfold parse, bencoding.
  destruct (element_read_all e Hok INITIAL [] (MkScanner INITIAL [] 0 NoValue) driver_init _ rest
    ltac:(by left) ltac:(done) takes_init) as (t & s1 & bs & -> & _ & _ & Hv).
  cbn [mbind outcome_bind]. destruct (Hv (items_fuel bs) (Nat.lt_succ_diag_r _)) as (s' & -> & Hs').
  eexists _, s'. split_and!; [reflexivity|done|done| |done|by apply Hs'..]. unfold element_at.
  apply (layout_resolved _ e [] []); [by rewrite app_nil_r|lia].
Qed.
