(* ===== verification/MetaInfoFile.v ===== *)
(** * The metainfo of torrents (bittorrent_tools.cpp, [parseMetaInfoFile])

    From the octets of a file to the store of its elements, and to the length of the torrent and
    its info hash, as [BitTorrentFiles] computes them from a store. *)
From S2P Require Import Prelude Chars Platform BitTorrentFiles BencodingScanner BencodingParser.

(** ** The metainfo of a file *)
(** What a store says of the element at an address; [bencode_] is a function of the common
    library. *)
Definition stored (h : list node) (bencode_ : list (string * nat) → list Z) : Bencoding nat := {|
  be_type l :=
    match h !! l with
    | Some (Integer _) | None => BENCODING_TYPE_INTEGER
    | Some (String_ _) => BENCODING_TYPE_STRING
    | Some (List_ _) => BENCODING_TYPE_LIST
    | Some (Dictionary _) => BENCODING_TYPE_DICTIONARY
    end;
  be_integer l := match h !! l with Some (Integer i) => i | _ => 0 end;
  be_string l := match h !! l with Some (String_ s) => s | _ => "" end;
  be_list l := match h !! l with Some (List_ ls) => ls | _ => [] end;
  be_dictionary l := match h !! l with Some (Dictionary kvs) => kvs | _ => [] end;
  be_bencode := bencode_
|}.

Section MetaInfoFile.
Context {FS : Type} `{FileSystem FS}.
(** whether the parser can be initialized, and whether a file can be read *)
Context (initialize : bool) (canRead : FS → string → bool).
(** The option [block] of the configuration, and the dictionary, unless it fails. *)
Definition parseMetaInfoFile (fs : FS) (block : bool) (metaInfoFileName_in : string) :
    outcome (bool * option (driver * list (string * nat))) :=
  let block_in_parse := block in
  let block := false in
  if negb initialize then Ok (block, None)
  else
    let block := block_in_parse in
    ace_assert (canRead fs metaInfoFileName_in);;
    match fs_load fs metaInfoFileName_in with
    | None => Ok (block, None)
    | Some data =>
        p ← parse data;
        match p with
        | Failed => Ok (block, None)
        | Parsed d _ _ =>
            ace_assert (bool_decide (bencoding_ d ≠ None));;
            match l ← bencoding_ d; heap d !! l with
            | Some (Dictionary kvs) => Ok (block, Some (d, kvs))
            | _ => Abort
            end
        end
    end.
End MetaInfoFile.

(** ** What is computed from the store is computed from its elements *)
Section Stored.
Context (h : list node) (bencode_ : list (string * nat) → list Z).
Definition holds (l : nat) (e : element) : Prop := resolve (length h) h l = Some e.
Definition entries_hold : list (string * nat) → list (string * element) → Prop :=
  Forall2 (λ kv ke, kv.1 = ke.1 ∧ holds kv.2 ke.2).
#[local] Instance store_bencoding : Bencoding nat := stored h bencode_.

Lemma entries_hold_iff fuel (kvs : list (string * nat)) d :
  mapM (λ kv, pair kv.1 <$> resolve fuel h kv.2) kvs = Some d ↔
  Forall2 (λ kv ke, kv.1 = ke.1 ∧ resolve fuel h kv.2 = Some ke.2) kvs d.
Proof.
  rewrite mapM_Some. split; intros Hm; (eapply Forall2_impl; [exact Hm|]); intros [k l] [k' e]; cbn.
  - by intros (e' & He & [= <- <-])%fmap_Some.
  - by intros [-> ->].
Qed.
Lemma resolve_le fuel fuel' l e :
  resolve fuel h l = Some e → (fuel <= fuel')%nat → resolve fuel' h l = Some e.
Proof.
  revert fuel' l e. induction fuel as [|fuel IH]; intros fuel' l e; [done|]. intros Hr Hf.
  destruct fuel' as [|fuel']; [lia|]. cbn [resolve] in *. destruct (h !! l) as [[i|s|ls|kvs]|]; [done|done| | |done].
  - apply fmap_Some in Hr as (es & Hm & ->). apply fmap_Some. exists es. split; [|done].
    apply mapM_Some in Hm. apply mapM_Some. eapply Forall2_impl; [exact Hm|]. intros x y Hx. apply IH; [exact Hx|lia].
  - apply fmap_Some in Hr as (d & Hm & ->). apply fmap_Some. exists d. split; [|done].
    apply entries_hold_iff in Hm. apply entries_hold_iff. eapply Forall2_impl; [exact Hm|].
    intros x y [Hx Hy]. split; [done|]. apply IH; [exact Hy|lia].
Qed.
Lemma holds_parts l e :
  holds l e → be_type l = be_type e ∧ be_integer l = be_integer e ∧ be_string l = be_string e ∧
    Forall2 holds (be_list l) (be_list e) ∧ entries_hold (be_dictionary l) (be_dictionary e).
Proof.
  unfold holds, entries_hold, holds. destruct (length h) as [|fuel] eqn:Ef; [done|]. intros Hr. cbn [resolve] in Hr.
  cbn [be_type be_integer be_string be_list be_dictionary store_bencoding stored].
  destruct (h !! l) as [[i|s|ls|kvs]|]; [simplify_eq; by repeat constructor..| | |done].
  - apply fmap_Some in Hr as (es & Hm & ->). split_and!; [done..| |by constructor].
    apply mapM_Some in Hm. eapply Forall2_impl; [exact Hm|]. intros x y Hx. apply (resolve_le fuel); [exact Hx|lia].
  - apply fmap_Some in Hr as (d & Hm & ->). split_and!; [done..|by constructor|]. apply entries_hold_iff in Hm.
    eapply Forall2_impl; [exact Hm|]. intros x y [Hx Hy]. split; [done|]. apply (resolve_le fuel); [exact Hy|lia].
Qed.
Lemma find_key_holds k kvs d :
  entries_hold kvs d → match find_key k kvs, find_key k d with
    | Some l, Some e => holds l e | None, None => True | _, _ => False end.
Proof.
  induction 1 as [|[k1 l] [k2 e] kvs d [Hk Hl] _ IH]; [done|]. cbn in *. subst. by destruct (decide (k2 = k)).
Qed.
Lemma expect_holds k kvs d t :
  entries_hold kvs d →
  match expect (find_key k kvs) t, expect (find_key k d) t with
  | Ok l, Ok e => holds l e | Abort, Abort => True | _, _ => False end.
Proof.
  intros Hd. pose proof (find_key_holds k kvs d Hd) as Hk. unfold expect.
  destruct (find_key k kvs) as [l|], (find_key k d) as [e|]; [|done..].
  rewrite (proj1 (holds_parts l e Hk)). by destruct (bool_decide _).
Qed.

Lemma length_loop_holds ls es :
  Forall2 holds ls es → ∀ n, MetaInfoToLength_loop n ls = MetaInfoToLength_loop n es.
Proof.
  induction 1 as [|l e ls es Hl _ IH]; intros n; [done|]. cbn [MetaInfoToLength_loop].
  destruct (holds_parts l e Hl) as (-> & _ & _ & _ & Hd). destruct (ace_assert _); [|done..]. cbn [mbind outcome_bind].
  pose proof (expect_holds BITTORRENT_METAINFO_INFO_LENGTH_KEY _ _ BENCODING_TYPE_INTEGER Hd) as He.
  destruct (expect _ _) as [l'| |], (expect _ _) as [e'| |]; try done. cbn [mbind outcome_bind].
  destruct (holds_parts l' e' He) as (_ & -> & _). apply IH.
Qed.
Lemma MetaInfoToLength_holds kvs d : entries_hold kvs d → MetaInfoToLength kvs = MetaInfoToLength d.
Proof.
  intros Hd. unfold MetaInfoToLength.
  pose proof (expect_holds BITTORRENT_METAINFO_INFO_KEY _ _ BENCODING_TYPE_DICTIONARY Hd) as Hi.
  destruct (expect _ _) as [l| |], (expect _ _) as [e| |]; try done. cbn [mbind outcome_bind].
  destruct (holds_parts l e Hi) as (_ & _ & _ & _ & Hd'). clear Hi.
  pose proof (find_key_holds BITTORRENT_METAINFO_INFO_LENGTH_KEY _ _ Hd') as Hk.
  destruct (find_key _ _) as [n|], (find_key _ _) as [n'|]; try done.
  - destruct (holds_parts n n' Hk) as (-> & -> & _). done.
  - pose proof (expect_holds BITTORRENT_METAINFO_INFO_FILES_KEY _ _ BENCODING_TYPE_LIST Hd') as Hf.
    destruct (expect _ _) as [fl| |], (expect _ _) as [fe| |]; try done. cbn [mbind outcome_bind].
    apply length_loop_holds, (holds_parts fl fe Hf).
Qed.
Lemma MetaInfoToInfoHash_holds SHA1 kvs d info :
  entries_hold kvs d → find_key BITTORRENT_METAINFO_INFO_KEY d = Some (BeDictionary info) →
  (∀ kvs d, entries_hold kvs d → bencode_ kvs = bencode (BeDictionary d)) →
  MetaInfoToInfoHash SHA1 kvs = Ok (SHA1 (bencode (BeDictionary info))).
Proof.
  intros Hd Hi Hb. unfold MetaInfoToInfoHash. pose proof (find_key_holds BITTORRENT_METAINFO_INFO_KEY _ _ Hd) as Hk.
  rewrite Hi in Hk. destruct (find_key _ kvs) as [l|]; [|done]. destruct (holds_parts _ _ Hk) as (Ht & _ & _ & _ & Hd').
  rewrite Ht. cbn [be_type element_bencoding]. rewrite bool_decide_true by done. cbn [ace_assert mbind outcome_bind].
  do 2 f_equal. by apply Hb.
Qed.
End Stored.

(** ** The metainfo of a torrent is read from the octets of its file *)
(** [Common_Parser_Bencoding_Tools::bencode ()] writes what BEP 3 says *)
Definition bencodes (bencode_ : list node → list (string * nat) → list Z) : Prop :=
  ∀ h kvs d, entries_hold h kvs d → bencode_ h kvs = bencode (BeDictionary d).

(** C28: a file that begins with a bencoded dictionary (BEP 3), of integers of 64 bits and strings that are shorter
    than 2^32 octets, in lists and dictionaries that may be nested as they like, is read: the dictionary that
    [parseMetaInfoFile] returns has in the store of the driver exactly the keys and elements of the file, in their
    order, whatever follows it; the option [block] is as before.  The length of the torrent is that of these
    elements, and its info hash is the SHA-1 of the octets of the value of [info] as they are in the file, when
    the common library writes the dictionary as BEP 3 has it. *)
Theorem metainfo_read {FS} `{FileSystem FS} canRead fs block name m info rest bencode_ SHA1
    (Hread : canRead fs name = true) (Hload : fs_load fs name = Some (bencode (BeDictionary m) ++ rest))
    (Hok : encodable (BeDictionary m) = true) (Hb : bencodes bencode_)
    (Hinfo : find_key BITTORRENT_METAINFO_INFO_KEY m = Some (BeDictionary info)) :
  ∃ d kvs, parseMetaInfoFile true canRead fs block name = Ok (block, Some (d, kvs)) ∧
    entries_at d kvs = Some m ∧
    let _ := stored (heap d) (bencode_ (heap d)) in
    MetaInfoToLength kvs = MetaInfoToLength m ∧
    MetaInfoToInfoHash SHA1 kvs = Ok (SHA1 (bencode (BeDictionary info))).
Proof.
  destruct (parse_bencoded (BeDictionary m) rest Hok) as (d & s & Hp & Hh & Hl & He & _).
  unfold parseMetaInfoFile. cbn [negb]. rewrite Hread, Hload. cbn [ace_assert mbind outcome_bind].
  rewrite Hp. cbn [mbind outcome_bind]. rewrite Hl. cbn [bool_decide ace_assert mbind outcome_bind option_bind].
  rewrite bool_decide_true by done. cbn [ace_assert mbind outcome_bind].
  destruct (heap d !! 0%nat) as [[i|v|ls|kvs]|] eqn:E; try (rewrite Hh in E; discriminate E).
  destruct (holds_parts (heap d) (bencode_ (heap d)) 0%nat _ He) as (_ & _ & _ & _ & Hd).
  unfold store_bencoding in Hd. cbn [be_dictionary stored] in Hd. rewrite E in Hd. exists d, kvs.
  split_and!; [done|by apply entries_hold_iff|..].
  - by apply MetaInfoToLength_holds.
  - apply (MetaInfoToInfoHash_holds _ _ _ _ m); [done|done|]. intros ? ?. apply Hb.
Qed.

(** *** A file of a torrent *)
Definition sample_files (rest : list Z) : plain_fs :=
  PlainFS {["a.torrent" := bencode (BeDictionary sample_metainfo) ++ rest]} [].
Definition sample_info : list (string * element) :=
  match find_key BITTORRENT_METAINFO_INFO_KEY sample_metainfo with Some (BeDictionary d) => d | _ => [] end.
Definition sample_bencode (h : list node) (kvs : list (string * nat)) : list Z :=
  match mapM (λ kv, pair kv.1 <$> resolve (length h) h kv.2) kvs with
  | Some d => bencode (BeDictionary d)
  | None => []
  end.
Lemma sample_bencodes : bencodes sample_bencode.
Proof. intros h kvs d Hd%entries_hold_iff. unfold sample_bencode. by rewrite Hd. Qed.
(** A file that is not a dictionary is not refused: an assertion fails, as for one that cannot be read. *)
Example other_element_aborts :
  parseMetaInfoFile true (λ _ _, true) (PlainFS {["a.torrent" := string_bytes "i5e"]} []) true "a.torrent" = Abort.
Proof. by vm_compute. Qed.
(** When the parser cannot be initialized, the option [block] of the configuration is left cleared. *)
Example block_left_cleared :
  parseMetaInfoFile false (λ _ _, true) (sample_files []) true "a.torrent" = Ok (false, None).
Proof. done. Qed.
Lemma metainfo_read_witness :
  ∃ d kvs, parseMetaInfoFile true (λ _ _, true) (sample_files [101; 10]) true "a.torrent" = Ok (true, Some (d, kvs)) ∧
    entries_at d kvs = Some sample_metainfo ∧
    let _ := stored (heap d) (sample_bencode (heap d)) in
    MetaInfoToLength kvs = Ok 12 ∧
    MetaInfoToInfoHash (take 20) kvs = Ok (take 20 (bencode (BeDictionary sample_info))).
Proof.
  exact (metainfo_read (λ _ _, true) (sample_files [101; 10]) true "a.torrent" sample_metainfo sample_info [101; 10]
    sample_bencode (take 20) ltac:(done) ltac:(done) ltac:(by vm_compute) sample_bencodes ltac:(done)).
Defined.
