(* ===== verification/BitTorrentStore.v ===== *)
(** * BitTorrent piece files (bittorrent_tools.cpp)

    Pieces on disk: the names of their files and what is read back from the names
    ([pieceFileNameToIndex]), saving a piece ([savePiece]), loading one ([loadPiece])
    or all ([loadPieces]), and the check of a piece against its hash
    ([validatePieceHash]). *)
From S2P Require Import Prelude Chars Decimal MessageBlock Platform BitTorrentPieces.
From S2P Require Import BitTorrentFiles.

(** ** The index in a file name

    The regular expression [^([[:digit:]]+)(?:_[[:alnum:]]{6}.piece)$]: digits, an
    underscore, six letters or digits, any one character that is not a line
    terminator (the dot of the suffix is not escaped), and the rest of the suffix. *)
Fixpoint match_alnum (n : nat) (s : string) : option string :=
  match n, s with
  | O, _ => Some s
  | S n', String c s' => if isalnum c then match_alnum n' s' else None
  | S _, "" => None
  end.

Definition match_suffix (s : string) : bool :=
  match s with
  | String u s' =>
      Ascii.eqb u "_" &&
      match match_alnum 6 s' with
      | Some (String any s'') =>
          negb (Ascii.eqb any newline || Ascii.eqb any "013") && bool_decide (s'' = "piece")
      | _ => false
      end
  | "" => false
  end.

(** [return -1] of an unsigned function *)
Definition pieceFileNameToIndex (basename : string → string) (fileName_in : string) : Z :=
  let '(digits, rest) := span_digits (basename fileName_in) in
  if bool_decide (digits ≠ "") && match_suffix rest
  then Z.min (digits_value 0 digits) (2 ^ 32 - 1)
  else u32 (-1).

(** ** Saving and loading *)
Section Store.
Context {B FS : Type} `{MessageBlock B} `{FileSystem FS} `{!FileStream FS}.
Variable separator : string.
Variable download_directory : string.
(** [ACE::basename] *)
Variable basename : string → string.
Variable fileExtension : string → string.
Variable sort_identifiers : list string → list string.
(** [Common_Math_Tools::digitsBase10] *)
Variable digitsBase10 : Z → Z.
(** [SHA1] of a buffer *)
Variable SHA1 : list Z → list Z.

(** the data of the chunks, one after the other: [None] where a NULL block is read *)
Fixpoint concatenate (cs : list (chunk B)) : list Z :=
  match cs with
  | [] => []
  | c :: cs' =>
      match data c with Some d => chain_bytes d | None => [] end ++ concatenate cs'
  end.

(** A hash is compared over its 20 bytes; more data than the buffer holds would be
    written past its end. *)
Definition validatePieceHash (piece_in : piece B) : outcome bool :=
  let d := concatenate (chunks piece_in) in
  if length_ piece_in <? zlen d then Undef
  else
    ace_assert (zlen d =? length_ piece_in);;
    Ok (bool_decide (take 20 (SHA1 d) = hash piece_in)).

(** the name of a piece's file *)
Definition piece_filename (numberOfPieces_in index_in : Z) (filename_ : string) : string :=
  setw (Z.to_nat (digitsBase10 numberOfPieces_in)) "0" (pretty index_in) +:+ "_" +:+
  filename_ +:+ BITTORRENT_DEFAULT_PIECE_FILENAME_SUFFIX.

(** linking the blocks by [next ()]: all but the last chunk's block are dereferenced *)
Fixpoint link (c : chunk B) (cs : list (chunk B)) : outcome (list Z) :=
  match cs with
  | [] => Ok (match data c with Some d => chain_bytes d | None => [] end)
  | c' :: cs' =>
      d ← deref (data c);
      rest ← link c' cs';
      Ok (chain_bytes d ++ rest)
  end.

Definition set_on_disk (p : piece B) (cs : list (chunk B)) : piece B :=
  Piece cs (filename p) (hash p) (length_ p) true.

(** from the opening of the file on *)
Definition write_piece (fs : FS) (path : string) (piece_inout : piece B) :
    outcome (FS * piece B * bool) :=
  match chunks piece_inout with
  | [] => Undef
  | c :: cs =>
      match fs_open fs path with
      | None => Ok (fs, piece_inout, false)
      | Some fs1 =>
          d ← link c cs;
          let '(fs2, bytes_transferred_i, closed) := fs_send fs1 path d in
          let result_3 := bytes_transferred_i =? length_ piece_inout in
          if negb closed then Ok (fs2, piece_inout, false)
          else
            cs' ← freeChunks (chunks piece_inout);
            Ok (fs2, set_on_disk piece_inout cs', result_3)
      end
  end.

Definition savePiece (metaInfoFileName_in : string) (numberOfPieces_in index_in : Z)
    (piece_inout : piece B) (fs : FS) : outcome (FS * piece B * bool) :=
  let directory := pieces_directory separator download_directory metaInfoFileName_in in
  let path := directory +:+ separator +:+
              piece_filename numberOfPieces_in index_in (filename piece_inout) in
  if fs_is_directory fs directory then write_piece fs path piece_inout
  else
    match fs_create_directory fs directory with
    | None => Ok (fs, piece_inout, false)
    | Some fs' => write_piece fs' path piece_inout
    end.

(** a chunk at offset 0 on a new block *)
Definition loaded_chunk (d : list Z) : chunk B := Chunk (Some [mb_of_bytes d]) 0.

Definition add_chunk (p : piece B) (d : list Z) : piece B :=
  Piece (chunks p ++ [loaded_chunk d]) (filename p) (hash p) (length_ p) (onDisk p).

(** the loop of [loadPiece]; [None] is [return false] *)
Fixpoint loadPiece_loop (fs : FS) (pieces_path : string) (index_in : Z)
    (names : list string) (piece_inout : piece B) : piece B * bool :=
  match names with
  | [] => (piece_inout, true)
  | name :: names' =>
      if negb (pieceFileNameToIndex basename name =? index_in) then
        loadPiece_loop fs pieces_path index_in names' piece_inout
      else
        match fs_load fs (pieces_path +:+ separator +:+ name) with
        | None => (piece_inout, false)
        | Some d => (add_chunk piece_inout d, true)
        end
  end.

Definition loadPiece (metaInfoFileName_in : string) (index_in : Z)
    (piece_inout : piece B) (fs : FS) : outcome (piece B * bool) :=
  ace_assert (bool_decide (zlen (chunks piece_inout) = 0) && onDisk piece_inout);;
  let pieces_path := pieces_directory separator download_directory
                       (basename metaInfoFileName_in) in
  let names := sort_identifiers (fs_files fs pieces_path (selector fileExtension)) in
  Ok (loadPiece_loop fs pieces_path index_in names piece_inout).

(** the loop of [loadPieces]; [None] is the jump to [error] *)
Fixpoint loadPieces_loop (fs : FS) (pieces_path : string) (loadToMemory_in : bool)
    (names : list string) (ps : list (piece B)) :
    outcome (list (piece B) * bool) :=
  match names with
  | [] => Ok (ps, true)
  | name :: names' =>
      let piece_index_i := pieceFileNameToIndex basename name in
      if zlen ps <? piece_index_i then Undef
      else
        ace_assert (negb (piece_index_i =? zlen ps));;
        p ← deref (ps !! Z.to_nat piece_index_i);
        if negb loadToMemory_in then
          loadPieces_loop fs pieces_path loadToMemory_in names'
            (<[Z.to_nat piece_index_i := set_on_disk p (chunks p)]> ps)
        else
          match fs_load fs (pieces_path +:+ separator +:+ name) with
          | None => Ok (ps, false)
          | Some d =>
              loadPieces_loop fs pieces_path loadToMemory_in names'
                (<[Z.to_nat piece_index_i := add_chunk p d]> ps)
          end
  end.

(** the loop at [error]: the chunks of all pieces are freed *)
Fixpoint free_all (ps : list (piece B)) : outcome (list (piece B)) :=
  match ps with
  | [] => Ok []
  | p :: ps' =>
      cs ← freeChunks (chunks p);
      rest ← free_all ps';
      Ok (Piece cs (filename p) (hash p) (length_ p) (onDisk p) :: rest)
  end.

Definition loadPieces (metaInfoFileName_in : string) (pieces_inout : list (piece B))
    (loadToMemory_in : bool) (fs : FS) : outcome (list (piece B) * bool) :=
  ace_assert (negb (zlen pieces_inout =? 0));;
  let pieces_path := pieces_directory separator download_directory
                       (basename metaInfoFileName_in) in
  let names := sort_identifiers (fs_files fs pieces_path (selector fileExtension)) in
  r ← loadPieces_loop fs pieces_path loadToMemory_in names pieces_inout;
  match r with
  | (ps, true) => Ok (ps, true)
  | (ps, false) => ps' ← free_all ps; Ok (ps', false)
  end.
End Store.

(** ** File names *)
Lemma match_alnum_app s t :
  string_all isalnum s = true → match_alnum (String.length s) (s +:+ t) = Some t.
Proof.
  induction s as [|c s IH]; [done|]. cbn [string_all].
  intros [Hc Hs]%andb_true_iff. autorewrite with str. cbn [String.length match_alnum].
  rewrite Hc. by apply IH.
Qed.

Definition piece_name_ok (filename_ : string) : Prop :=
  String.length filename_ = 6%nat ∧ string_all isalnum filename_ = true.

Lemma pieceFileNameToIndex_name basename digitsBase10 n i filename_ :
  0 <= i < 2 ^ 32 → piece_name_ok filename_ →
  basename (piece_filename digitsBase10 n i filename_) =
    piece_filename digitsBase10 n i filename_ →
  pieceFileNameToIndex basename (piece_filename digitsBase10 n i filename_) = i.
Proof.
  intros Hi [Hlen Hal] Hbase. unfold pieceFileNameToIndex. rewrite Hbase.
  unfold piece_filename. destruct (pretty_digits i) as (Ha & Hv & Hne); [lia|].
  unfold setw. set (k := (_ - _)%nat). destruct (pad_digits k _ Ha) as [Ha' Hv'].
  autorewrite with str. rewrite span_digits_app by done.
  assert (Hne' : pad k "0" (pretty i) ≠ "") by (by destruct k).
  rewrite bool_decide_true by done. cbn [andb match_suffix Ascii.eqb].
  pose proof (match_alnum_app filename_ BITTORRENT_DEFAULT_PIECE_FILENAME_SUFFIX Hal) as Hm.
  rewrite Hlen in Hm. change (Ascii.eqb "_" "_") with true. rewrite Hm. cbn.
  rewrite Hv', Hv. apply Z.min_l. lia.
Qed.

(** The name under which a piece is saved tells its index: parsing the padded
    number, the underscore, the six random characters and the suffix gives the index
    back, for every 32-bit index and whatever the padding is. *)
Theorem piece_name_roundtrip basename digitsBase10 n i filename_
    (Hi : 0 <= i < 2 ^ 32) (Hname : piece_name_ok filename_)
    (Hbase : basename (piece_filename digitsBase10 n i filename_) =
             piece_filename digitsBase10 n i filename_) :
  pieceFileNameToIndex basename (piece_filename digitsBase10 n i filename_) = i.
Proof. by apply pieceFileNameToIndex_name. Qed.

Lemma piece_name_roundtrip_witness :
  (0 <= 42 < 2 ^ 32 ∧ piece_name_ok "aB3dE6") ∧
  pieceFileNameToIndex id (piece_filename (λ _, 4) 1000 42 "aB3dE6") = 42.
Proof.
  split; [done|]. apply (piece_name_roundtrip id (λ _, 4)); by vm_compute.
Defined.

(** ** Saving a piece *)
Section SaveLoad.
Context {B FS : Type} `{MessageBlock B} `{FileSystem FS} `{!FileStream FS}.
Context (separator download_directory : string) (basename fileExtension : string → string).
Context (sort_identifiers : list string → list string) (digitsBase10 : Z → Z).

Lemma load_sent fs fs1 fs2 path d n closed :
  fs_open fs path = Some fs1 → fs_send fs1 path d = (fs2, n, closed) →
  fs_load fs2 path = Some (take (Z.to_nat n) d).
Proof.
  intros Hopen Hsend. pose proof (fs_load_open fs path fs1 path Hopen) as Hempty.
  rewrite decide_True in Hempty by done.
  rewrite (fs_load_send fs1 path d fs2 n closed path Hempty Hsend).
  by rewrite decide_True.
Qed.

Lemma link_concatenate c (cs : list (chunk B)) :
  have_data (c :: cs) → link c cs = Ok (concatenate (c :: cs)).
Proof.
  revert c; induction cs as [|c' cs IH]; intros c [[d Hd] Hcs]%Forall_cons;
    cbn [link concatenate]; rewrite Hd.
  - by rewrite app_nil_r.
  - cbn [deref from_option mbind outcome_bind]. by rewrite IH by done.
Qed.

Lemma freeChunks_have_data (cs : list (chunk B)) : have_data cs → freeChunks cs = Ok [].
Proof.
  intros Hcs. unfold freeChunks. replace (forallb _ cs) with true; [done|].
  symmetry. apply forallb_forall. intros c Hc%list_elem_of_In.
  unfold have_data in Hcs. rewrite Forall_forall in Hcs. by destruct (Hcs c Hc) as [? ->].
Qed.

(** What saving does once the directory is there, the file opens, and closing works:
    the piece counts as saved whatever the number of bytes transferred. *)
Lemma savePiece_closed name n i (p : piece B) fs fs1 fs2 sent
    (path := pieces_directory separator download_directory name +:+ separator +:+
             piece_filename digitsBase10 n i (filename p)) :
  fs_is_directory fs (pieces_directory separator download_directory name) = true →
  chunks p ≠ [] → have_data (chunks p) →
  fs_open fs path = Some fs1 →
  fs_send fs1 path (concatenate (chunks p)) = (fs2, sent, true) →
  savePiece separator download_directory digitsBase10 name n i p fs =
    Ok (fs2, set_on_disk p [], sent =? length_ p).
Proof.
  intros Hdir Hne Hdata Hopen Hsend. unfold savePiece. rewrite Hdir. fold path.
  unfold write_piece. destruct (chunks p) as [|c cs] eqn:Hc; [done|].
  rewrite Hopen, link_concatenate by done. cbn [mbind outcome_bind].
  rewrite Hsend. cbn [negb]. by rewrite freeChunks_have_data.
Qed.

(** A piece whose write falls short is lost: [savePiece] returns false, but when
    closing the file works it has already freed the chunks and marked the piece as
    being on disk, so the piece counts as complete and is not requested again, while
    its file holds only part of the data. *)
Theorem savePiece_short_write_loses_piece name n i (p : piece B) fs fs1 fs2 sent
    (path := pieces_directory separator download_directory name +:+ separator +:+
             piece_filename digitsBase10 n i (filename p))
    (Hdir : fs_is_directory fs (pieces_directory separator download_directory name) = true)
    (Hne : chunks p ≠ []) (Hdata : have_data (chunks p))
    (Hopen : fs_open fs path = Some fs1)
    (Hsend : fs_send fs1 path (concatenate (chunks p)) = (fs2, sent, true))
    (Hshort : sent ≠ length_ p) :
  ∃ p', savePiece separator download_directory digitsBase10 name n i p fs =
          Ok (fs2, p', false) ∧
    chunks p' = [] ∧ isMissingPiece [p'] = Ok false ∧
    fs_load fs2 path = Some (take (Z.to_nat sent) (concatenate (chunks p))).
Proof.
  exists (set_on_disk p []).
  rewrite (savePiece_closed name n i p fs fs1 fs2 sent) by done.
  rewrite (proj2 (Z.eqb_neq _ _)) by done. split_and!; [done..|].
  by apply (load_sent fs fs1 fs2 path _ sent true).
Qed.

(** ** Loading a saved piece *)
Lemma loadPiece_loop_first fs pieces_path i before name after (p : piece B) d :
  (∀ x, x ∈ before → pieceFileNameToIndex basename x ≠ i) →
  pieceFileNameToIndex basename name = i →
  fs_load fs (pieces_path +:+ separator +:+ name) = Some d →
  loadPiece_loop separator basename fs pieces_path i (before ++ name :: after) p =
    (add_chunk p d, true).
Proof.
  intros Hbefore Hname Hload. induction before as [|x before IH]; cbn [app loadPiece_loop].
  - by rewrite Hname, Z.eqb_refl, Hload.
  - rewrite (proj2 (Z.eqb_neq _ _)) by (apply Hbefore; by left).
    apply IH. intros y Hy. apply Hbefore. by right.
Qed.

(** C30: a complete piece survives the disk: when saving it succeeds, loading it again
    from the resulting files succeeds and gives a piece with one chunk that holds the
    bytes of all the chunks that were saved, in order.  (The listing has the file the
    piece was saved to, and before it no other file with the same index.) *)
Theorem savePiece_loadPiece name n i (p : piece B) fs fs1 fs2 sent before after
    (dir := pieces_directory separator download_directory name)
    (file := piece_filename digitsBase10 n i (filename p))
    (Hi : 0 <= i < 2 ^ 32) (Hfilename : piece_name_ok (filename p))
    (Hbasename : basename file = file) (Hname : basename name = name)
    (Hdir : fs_is_directory fs dir = true)
    (Hne : chunks p ≠ []) (Hdata : have_data (chunks p))
    (Hcomplete : zlen (concatenate (chunks p)) = length_ p)
    (Hopen : fs_open fs (dir +:+ separator +:+ file) = Some fs1)
    (Hsend : fs_send fs1 (dir +:+ separator +:+ file) (concatenate (chunks p)) =
             (fs2, sent, true))
    (Hfiles : sort_identifiers (fs_files fs2 dir (selector fileExtension)) =
              before ++ file :: after)
    (Hbefore : ∀ x, x ∈ before → pieceFileNameToIndex basename x ≠ i) p'
    (Hsaved : savePiece separator download_directory digitsBase10 name n i p fs =
              Ok (fs2, p', true)) :
  ∃ p'', loadPiece separator download_directory basename fileExtension sort_identifiers
           name i p' fs2 = Ok (p'', true) ∧
    concatenate (chunks p'') = concatenate (chunks p) ∧ length_ p'' = length_ p.
Proof.
  rewrite (savePiece_closed name n i p fs fs1 fs2 sent) in Hsaved by done.
  injection Hsaved as <- Hsent%Z.eqb_eq. eexists. split.
  - unfold loadPiece. cbn [set_on_disk chunks onDisk]. rewrite bool_decide_true by done.
    cbn [andb ace_assert mbind outcome_bind]. rewrite Hname. fold dir. rewrite Hfiles.
    rewrite (loadPiece_loop_first fs2 dir i before file after _
      (take (Z.to_nat sent) (concatenate (chunks p)))); [reflexivity|done| |].
    + by apply pieceFileNameToIndex_name.
    + by apply (load_sent fs fs1 fs2 _ _ sent true).
  - cbn. unfold chain_bytes. cbn. rewrite mb_of_bytes_bytes, !app_nil_r.
    split; [|done]. by rewrite Hsent, <- Hcomplete, take_zlen.
Qed.
End SaveLoad.

(** A piece of 4 bytes in two chunks, and one of 20 bytes; the sample stream sends at
    most 16. *)
Definition sample_piece : piece (list Z) :=
  Piece [Chunk (Some [[1; 2]; [3]]) 0; Chunk (Some [[4]]) 3] "aB3dE6" [] 4 false.
Definition long_piece : piece (list Z) :=
  Piece [Chunk (Some [[1; 2; 3; 4; 5; 6; 7; 8; 9; 10; 11; 12; 13; 14; 15; 16; 17; 18; 19;
                       20]]) 0] "aB3dE6" [] 20 false.
Definition empty_store : plain_fs := PlainFS ∅ ["/tmp/t_pieces"].

Definition sample_path (p : piece (list Z)) : string :=
  pieces_directory "/" "/tmp" "t" +:+ "/" +:+ piece_filename (λ _, 2) 10 7 (filename p).

Lemma savePiece_short_write_loses_piece_witness :
  ∃ fs2 p', savePiece "/" "/tmp" (λ _, 2) "t" 10 7 long_piece empty_store =
          Ok (fs2, p', false) ∧
    chunks p' = [] ∧ isMissingPiece [p'] = Ok false ∧
    fs_load fs2 (sample_path long_piece) =
      Some (take (Z.to_nat 16) (concatenate (chunks long_piece))).
Proof.
  exists (plain_store (plain_store empty_store (sample_path long_piece) [] false)
            (sample_path long_piece) (take 16 (concatenate (chunks long_piece))) false).
  apply (savePiece_short_write_loses_piece "/" "/tmp" (λ _, 2) "t" 10 7
    long_piece empty_store (plain_store empty_store (sample_path long_piece) [] false) _ 16).
  - by vm_compute.
  - done.
  - repeat constructor; by eexists.
  - reflexivity.
  - reflexivity.
  - done.
Defined.

Lemma savePiece_loadPiece_witness :
  ∃ fs2 p' p'', savePiece "/" "/tmp" (λ _, 2) "t" 10 7 sample_piece empty_store =
             Ok (fs2, p', true) ∧
    loadPiece "/" "/tmp" id sample_extension sample_sort "t" 7 p' fs2 = Ok (p'', true) ∧
    concatenate (chunks p'') = concatenate (chunks sample_piece).
Proof.
  exists (plain_store (plain_store empty_store (sample_path sample_piece) [] false)
            (sample_path sample_piece) (take 16 (concatenate (chunks sample_piece))) false).
  exists (set_on_disk sample_piece []).
  destruct (savePiece_loadPiece "/" "/tmp" id sample_extension sample_sort (λ _, 2) "t"
    10 7 sample_piece empty_store
    (plain_store empty_store (sample_path sample_piece) [] false)
    (plain_store (plain_store empty_store (sample_path sample_piece) [] false)
       (sample_path sample_piece) (take 16 (concatenate (chunks sample_piece))) false)
    4 [] []) with (p' := set_on_disk sample_piece [])
    as (p'' & Hload & Hbytes & _).
  1: done.
  1: by split; vm_compute.
  1: by vm_compute.
  1: reflexivity.
  1: by vm_compute.
  1: discriminate.
  1: repeat constructor; by eexists.
  1: by vm_compute.
  1: reflexivity.
  1: reflexivity.
  1: by vm_compute.
  1: by intros x Hx%elem_of_nil.
  1: by vm_compute.
  exists p''. split; [by vm_compute|]. by split.
Defined.
