(* ===== verification/BitTorrentText.v ===== *)
(** * BitTorrent messages and URLs in text (bittorrent_tools.cpp, bittorrent_common.h)

    The printed forms of the handshake and of the messages of a peer, and the scrape
    URL that goes with an announce URL. *)
From S2P Require Import Prelude Chars.

(** ** Messages of a peer *)
Inductive BitTorrent_MessageType :=
  | BITTORRENT_MESSAGETYPE_CHOKE | BITTORRENT_MESSAGETYPE_UNCHOKE
  | BITTORRENT_MESSAGETYPE_INTERESTED | BITTORRENT_MESSAGETYPE_NOT_INTERESTED
  | BITTORRENT_MESSAGETYPE_HAVE | BITTORRENT_MESSAGETYPE_BITFIELD
  | BITTORRENT_MESSAGETYPE_REQUEST | BITTORRENT_MESSAGETYPE_PIECE
  | BITTORRENT_MESSAGETYPE_CANCEL | BITTORRENT_MESSAGETYPE_MAX
  | BITTORRENT_MESSAGETYPE_INVALID.

Record BitTorrent_PeerHandShake := MkHandShake {
  pstr : string;
  reserved : list Z;
  info_hash : string;
  peer_id : string
}.

(** three numbers of a request or a cancel message; a piece message has the first two *)
Record block_triple := MkTriple { index : Z; begin : Z; length_ : Z }.

(** The union of the payloads: the member that the message type selects. *)
Record BitTorrent_PeerRecord := MkPeerRecord {
  record_length : Z;
  type : BitTorrent_MessageType;
  bitfield : list Z;
  have : Z;
  block : block_triple
}.

(** [(byte & mask) ? one : zero] for the masks of the eight bits, high to low *)
Definition masks : list Z := [0x80; 0x40; 0x20; 0x10; 0x08; 0x04; 0x02; 0x01].
Definition bit_string (byte : Z) : string :=
  foldr (λ mask s, (if Z.land byte mask =? 0 then "0" else "1") +:+ s) "" masks.

Fixpoint reserved_to_string (bytes : list Z) : string :=
  match bytes with
  | [] => ""
  | b :: bytes' => bit_string b +:+ " " +:+ reserved_to_string bytes'
  end.

Definition HandShakeToString (peerHandshake_in : BitTorrent_PeerHandShake) : string :=
  pstr peerHandshake_in +:+ " " +:+
  reserved_to_string (reserved peerHandshake_in) +:+
  info_hash peerHandshake_in +:+ " " +:+ peer_id peerHandshake_in.

Definition TypeToString (type_in : BitTorrent_MessageType) : string :=
  match type_in with
  | BITTORRENT_MESSAGETYPE_CHOKE => "CHOKE"
  | BITTORRENT_MESSAGETYPE_UNCHOKE => "UNCHOKE"
  | BITTORRENT_MESSAGETYPE_INTERESTED => "INTERESTED"
  | BITTORRENT_MESSAGETYPE_NOT_INTERESTED => "NOT INTERESTED"
  | BITTORRENT_MESSAGETYPE_HAVE => "HAVE"
  | BITTORRENT_MESSAGETYPE_BITFIELD => "BITFIELD"
  | BITTORRENT_MESSAGETYPE_REQUEST => "REQUEST"
  | BITTORRENT_MESSAGETYPE_PIECE => "PIECE"
  | BITTORRENT_MESSAGETYPE_CANCEL => "CANCEL"
  | _ => "INVALID/UNKNOWN"
  end.

(** the eight additions of the loop over the bitfield, and the loop *)
Definition count_bits (num_pieces_i byte : Z) : Z :=
  foldl (λ n mask, n +u (if Z.land byte mask =? 0 then 0 else 1)) num_pieces_i masks.
Definition count_pieces (bytes : list Z) : Z := foldl count_bits 0 bytes.

Definition triple_to_string (t : block_triple) : string :=
  " " +:+ pretty (index t) +:+ " " +:+ pretty (begin t) +:+ " " +:+ pretty (length_ t).

Definition RecordToString (r : BitTorrent_PeerRecord) : string :=
  if record_length r =? 0 then "type: KEEP-ALIVE" +:+ eol
  else
    "type: " +:+ TypeToString (type r) +:+
    match type r with
    | BITTORRENT_MESSAGETYPE_CHOKE | BITTORRENT_MESSAGETYPE_UNCHOKE
    | BITTORRENT_MESSAGETYPE_INTERESTED | BITTORRENT_MESSAGETYPE_NOT_INTERESTED => eol
    | BITTORRENT_MESSAGETYPE_HAVE => " " +:+ pretty (have r) +:+ eol
    | BITTORRENT_MESSAGETYPE_BITFIELD =>
        " " +:+ pretty (count_pieces (bitfield r)) +:+ " pieces" +:+ eol
    | BITTORRENT_MESSAGETYPE_REQUEST => triple_to_string (block r) +:+ eol
    | BITTORRENT_MESSAGETYPE_PIECE =>
        " " +:+ pretty (index (block r)) +:+ " " +:+ pretty (begin (block r)) +:+ eol
    | BITTORRENT_MESSAGETYPE_CANCEL => triple_to_string (block r) +:+ eol
    | _ => ""
    end.

(** ** Scraping *)
Definition BITTORRENT_METAINFO_ANNOUNCE_KEY := "announce".
Definition BITTORRENT_TRACKER_SCRAPE_URI_PREFIX := "scrape".

(** the string up to its last slash, and from that slash on *)
Fixpoint split_last_slash (s : string) : option (string * string) :=
  match s with
  | "" => None
  | String c s' =>
      match split_last_slash s' with
      | Some (before, after) => Some (String c before, after)
      | None => if Ascii.eqb c "/" then Some ("", s) else None
      end
  end.

Definition string_drop (n : nat) (s : string) : string :=
  String.substring n (String.length s - n) s.

(** [find (key, position) == position]: the key starts after the slash *)
Definition torrentSupportsScrape (announceURL_in : string) : bool :=
  match split_last_slash announceURL_in with
  | None => false
  | Some (_, after) =>
      String.prefix BITTORRENT_METAINFO_ANNOUNCE_KEY (string_drop 1 after)
  end.

(** [replace (position, strlen (announce), scrape)], position being that of the slash *)
Definition AnnounceURLToScrapeURL (announceURL_in : string) : string :=
  if torrentSupportsScrape announceURL_in then
    match split_last_slash announceURL_in with
    | None => ""
    | Some (before, after) =>
        before +:+ BITTORRENT_TRACKER_SCRAPE_URI_PREFIX +:+
        string_drop (String.length BITTORRENT_METAINFO_ANNOUNCE_KEY) after
    end
  else "".

(** ** The pieces of a bitfield *)
Definition bits_set (byte : Z) : Z :=
  zsum ((λ k, Z.b2z (Z.testbit byte k)) <$> [7; 6; 5; 4; 3; 2; 1; 0]).

Lemma land_pow2 byte k : 0 <= k →
  (Z.land byte (2 ^ k) =? 0) = negb (Z.testbit byte k).
Proof.
  intros Hk. destruct (Z.testbit byte k) eqn:Hb; cbn.
  - apply Z.eqb_neq. intros H0. apply (f_equal (λ z, Z.testbit z k)) in H0.
    by rewrite Z.land_spec, Hb, Z.pow2_bits_true, Z.bits_0 in H0 by done.
  - apply Z.eqb_eq, Z.bits_inj'. intros j Hj.
    rewrite Z.land_spec, Z.bits_0, Z.pow2_bits_eqb by done.
    destruct (Z.eqb_spec k j) as [->|]; by rewrite ?Hb, ?andb_false_r.
Qed.

Lemma count_bits_sum n byte : count_bits (u32 n) byte = u32 (n + bits_set byte).
Proof.
  unfold count_bits. rewrite (foldl_u32 (λ mask, if Z.land byte mask =? 0 then 0 else 1)).
  do 2 f_equal. unfold bits_set.
  change masks with ((λ k, 2 ^ k) <$> [7; 6; 5; 4; 3; 2; 1; 0]).
  rewrite <- list_fmap_compose. apply zsum_fmap_ext. intros k Hk. cbn beta.
  unfold compose. rewrite land_pow2 by (rewrite !elem_of_cons, elem_of_nil in Hk; lia).
  by destruct (Z.testbit byte k).
Qed.

(** The number of pieces that the printed form of a bitfield shows is the number of its
    bits that are set. *)
Lemma count_pieces_sum bytes : count_pieces bytes = u32 (zsum (bits_set <$> bytes)).
Proof.
  unfold count_pieces. change 0 with (u32 0) at 1.
  rewrite <- (Z.add_0_l (zsum (bits_set <$> bytes))).
  generalize 0. induction bytes as [|b bytes IH]; intros n; cbn [foldl].
  - cbn. by rewrite Z.add_0_r.
  - rewrite count_bits_sum, IH. cbn. f_equal. unfold zsum. cbn. lia.
Qed.

(** ** Scrape URLs *)
Definition no_slash (s : string) : bool := string_all (λ c, negb (Ascii.eqb c "/")) s.

Lemma split_no_slash s : no_slash s = true → split_last_slash s = None.
Proof.
  induction s as [|c s IH]; [done|]. unfold no_slash in *. cbn [string_all].
  intros [Hc Hs]%andb_true_iff. cbn [split_last_slash]. rewrite IH by done.
  by apply negb_true_iff in Hc as ->.
Qed.

Lemma split_last_slash_app s t :
  no_slash t = true → split_last_slash (s +:+ String "/" t) = Some (s, String "/" t).
Proof.
  intros Ht. induction s as [|c s IH]; autorewrite with str; cbn [split_last_slash].
  - by rewrite split_no_slash.
  - by rewrite IH.
Qed.

Lemma string_drop_app s t : string_drop (String.length s) (s +:+ t) = t.
Proof.
  induction s as [|c s IH].
  - unfold string_drop. cbn [String.length]. rewrite Nat.sub_0_r. apply substring_all.
  - exact IH.
Qed.

(** The scrape URL that is made of an announce URL is wrong: the replacement starts
    at the slash instead of after it, so that the slash is lost and the last letter of
    [announce] stays; for instance http://t/announce gives http://tscrapee. *)
Theorem AnnounceURLToScrapeURL_misplaced base rest (Hrest : no_slash rest = true) :
  AnnounceURLToScrapeURL (base +:+ "/" +:+ "announce" +:+ rest) =
    base +:+ "scrape" +:+ "e" +:+ rest.
Proof.
  assert (Hns : no_slash ("announce" +:+ rest) = true)
    by (unfold no_slash in *; by rewrite string_all_app, Hrest).
  unfold AnnounceURLToScrapeURL, torrentSupportsScrape.
  change ("/" +:+ "announce" +:+ rest) with (String "/" ("announce" +:+ rest)).
  rewrite split_last_slash_app by done.
  assert (Hd : string_drop 1 (String "/" ("announce" +:+ rest)) = "announce" +:+ rest).
  { apply (string_drop_app "/"). }
  rewrite Hd, prefix_app.
  change (String "/" ("announce" +:+ rest)) with ("/announc" +:+ ("e" +:+ rest)).
  by rewrite (string_drop_app "/announc").
Qed.

Lemma AnnounceURLToScrapeURL_misplaced_witness :
  no_slash "?passkey=1" = true ∧
  AnnounceURLToScrapeURL "http://t/announce?passkey=1" = "http://tscrapee?passkey=1".
Proof.
  split; [done|]. by apply (AnnounceURLToScrapeURL_misplaced "http://t" "?passkey=1").
Defined.
