(* ===== verification/BitTorrentWire.v ===== *)
(** * The peer wire protocol of BitTorrent (bittorrent_module_streamer.inl, scanner.l)

    The streamer writes a handshake or a message of a peer into the block of the
    message; the rules of the scanner read the bytes that a peer sends.  The
    characters of the scanner's buffer are the bytes in 0..255. *)
From S2P Require Import Prelude Chars MessageBlock ByteOrder BitTorrentText.

Definition BITTORRENT_PEER_HANDSHAKE_RESERVED_SIZE : Z := 8.
Definition BITTORRENT_PRT_INFO_HASH_SIZE : Z := 20.
Definition BITTORRENT_PRT_PEER_ID_LENGTH : Z := 20.
Definition BITTORRENT_PEER_HANDSHAKE_PSTR_STRING : string := "BitTorrent protocol".

(** [enum BitTorrent_MessageType] as the number that is sent, and back *)
Definition type_value (t : BitTorrent_MessageType) : Z :=
  match t with
  | BITTORRENT_MESSAGETYPE_CHOKE => 0
  | BITTORRENT_MESSAGETYPE_UNCHOKE => 1
  | BITTORRENT_MESSAGETYPE_INTERESTED => 2
  | BITTORRENT_MESSAGETYPE_NOT_INTERESTED => 3
  | BITTORRENT_MESSAGETYPE_HAVE => 4
  | BITTORRENT_MESSAGETYPE_BITFIELD => 5
  | BITTORRENT_MESSAGETYPE_REQUEST => 6
  | BITTORRENT_MESSAGETYPE_PIECE => 7
  | BITTORRENT_MESSAGETYPE_CANCEL => 8
  | BITTORRENT_MESSAGETYPE_MAX => 9
  | BITTORRENT_MESSAGETYPE_INVALID => 10
  end.
Definition type_of_value (v : Z) : BitTorrent_MessageType :=
  switch v [(0, BITTORRENT_MESSAGETYPE_CHOKE); (1, BITTORRENT_MESSAGETYPE_UNCHOKE);
            (2, BITTORRENT_MESSAGETYPE_INTERESTED);
            (3, BITTORRENT_MESSAGETYPE_NOT_INTERESTED);
            (4, BITTORRENT_MESSAGETYPE_HAVE); (5, BITTORRENT_MESSAGETYPE_BITFIELD);
            (6, BITTORRENT_MESSAGETYPE_REQUEST); (7, BITTORRENT_MESSAGETYPE_PIECE);
            (8, BITTORRENT_MESSAGETYPE_CANCEL); (9, BITTORRENT_MESSAGETYPE_MAX)]
    BITTORRENT_MESSAGETYPE_INVALID.

(** [n] bytes from [c_str ()]: the characters and the terminator can be read *)
Definition c_str_bytes (s : string) (n : Z) : outcome (list Z) :=
  if n <=? zlen (string_bytes s) + 1 then Ok (take (Z.to_nat n) (string_bytes s ++ [0]))
  else Undef.

(** the data of a message: the one or the other is set *)
Record message_record := MkMessageRecord {
  handShakeRecord : option BitTorrent_PeerHandShake;
  peerRecord : option BitTorrent_PeerRecord
}.

Section Streamer.
Context {B : Type} `{WritableBlock B} `{ByteOrder}.

(** [copy (&value_i, sizeof (ACE_UINT32))] of the swapped value, and of a byte *)
Definition copy_uint32 (value_i : Z) (b : B) : option B :=
  mb_copy (memory 4 (network 4 (u32 value_i))) b.
Definition copy_uint8 (value_i : Z) (b : B) : option B := mb_copy [u8 value_i] b.

(** [None]: a write fails *)
Definition stream_handshake (h : BitTorrent_PeerHandShake) (message_inout : B) :
    outcome (option B) :=
  _ ← ace_assert (49 + zlen (string_bytes (pstr h)) <=? mb_space message_inout);
  let pstrlen := u8 (zlen (string_bytes (pstr h))) in
  pstr_bytes ← c_str_bytes (pstr h) pstrlen;
  hash_bytes ← c_str_bytes (info_hash h) BITTORRENT_PRT_INFO_HASH_SIZE;
  id_bytes ← c_str_bytes (peer_id h) BITTORRENT_PRT_PEER_ID_LENGTH;
  Ok (b ← copy_uint8 pstrlen message_inout;
      b ← mb_copy pstr_bytes b;
      b ← mb_copy (take (Z.to_nat BITTORRENT_PEER_HANDSHAKE_RESERVED_SIZE) (reserved h)) b;
      b ← mb_copy hash_bytes b;
      mb_copy id_bytes b).

Definition stream_triple (t : block_triple) (b : B) : option B :=
  b ← copy_uint32 (index t) b;
  b ← copy_uint32 (begin t) b;
  copy_uint32 (length_ t) b.

(** [cont]: the blocks that continue the message, for a piece *)
Definition stream_message (r : BitTorrent_PeerRecord) (message_inout : B) (cont : list B) :
    outcome (option B) :=
  match type r with
  | BITTORRENT_MESSAGETYPE_CHOKE | BITTORRENT_MESSAGETYPE_UNCHOKE
  | BITTORRENT_MESSAGETYPE_INTERESTED | BITTORRENT_MESSAGETYPE_NOT_INTERESTED =>
      Ok (b ← copy_uint32 1 message_inout; copy_uint8 (type_value (type r)) b)
  | BITTORRENT_MESSAGETYPE_HAVE =>
      Ok (b ← copy_uint32 (1 + 4) message_inout;
          b ← copy_uint8 (type_value (type r)) b;
          copy_uint32 (have r) b)
  | BITTORRENT_MESSAGETYPE_BITFIELD =>
      b ← Ok (b ← copy_uint32 (1 + 4 + u32 (zlen (bitfield r))) message_inout;
              copy_uint8 (type_value (type r)) b);
      match b with
      | None => Ok None
      | Some b => _ ← deref (head (bitfield r)); Ok (mb_copy (bitfield r) b)
      end
  | BITTORRENT_MESSAGETYPE_REQUEST | BITTORRENT_MESSAGETYPE_CANCEL =>
      Ok (b ← copy_uint32 (1 + 4 + 4 + 4) message_inout;
          b ← copy_uint8 (type_value (type r)) b;
          stream_triple (block r) b)
  | BITTORRENT_MESSAGETYPE_PIECE =>
      _ ← ace_assert (match cont with [] => false | _ => true end);
      Ok (b ← copy_uint32 (1 + 4 + 4 + u32 (total_length cont)) message_inout;
          b ← copy_uint8 (type_value (type r)) b;
          b ← copy_uint32 (index (block r)) b;
          copy_uint32 (begin (block r)) b)
  | _ => Ok None
  end.

(** [Ok (Some m)]: the message [m] is passed on; [Ok None]: it is released instead *)
Definition stream_handleDataMessage (record_r : message_record) (message_inout : B)
    (cont : list B) : outcome (option (list B)) :=
  _ ← ace_assert (block_length message_inout =? 0);
  b ← match handShakeRecord record_r, peerRecord record_r return outcome (option B) with
      | Some h, None => stream_handshake h message_inout
      | None, Some r => stream_message r message_inout cont
      | _, _ => Abort
      end;
  Ok (fmap (M := option) (λ b, b :: cont) b).
End Streamer.

(** ** The scanner

    The start conditions of the rules for the peer protocol.  The other rules of the
    scanner (metainfo, trackers) have conditions of their own. *)
Inductive start_condition :=
  | INITIAL | state_reserved | state_hash | state_peer_id | state_length | state_type
  | state_bitfield_payload | state_cancel_payload | state_have_payload
  | state_piece_payload | state_piece | state_request_payload.

(** [yylval] (the handshake or the record that is being read), the offset of the parser
    and [bytes_to_skip] *)
Record scanner := Scanner {
  start : start_condition;
  yylval_handshake : option BitTorrent_PeerHandShake;
  yylval_record : option BitTorrent_PeerRecord;
  offset_ : Z;
  bytes_to_skip : Z
}.

Inductive token :=
  | HANDSHAKE (h : BitTorrent_PeerHandShake)
  | KEEP_ALIVE (r : BitTorrent_PeerRecord)
  | MESSAGE (r : BitTorrent_PeerRecord)  (* CHOKE, UNCHOKE, ..: the type of the record *)
  | END_OF_FRAGMENT
  | YYTERMINATE.

(** What a rule does: it matches (the rest of the buffer, and perhaps a token), or only
    the default rule, or the end of the buffer, does. *)
Inductive scanned :=
  | Matched (s : scanner) (rest : list Z)
  | Token (t : token) (s : scanner) (rest : list Z)
  | More.

Section Scanner.
Context `{ByteOrder}.

Definition begin_ (c : start_condition) (s : scanner) : scanner :=
  Scanner c (yylval_handshake s) (yylval_record s) (offset_ s) (bytes_to_skip s).
Definition set_record (r : BitTorrent_PeerRecord) (s : scanner) : scanner :=
  Scanner (start s) (yylval_handshake s) (Some r) (offset_ s) (bytes_to_skip s).
Definition set_handshake (h : BitTorrent_PeerHandShake) (s : scanner) : scanner :=
  Scanner (start s) (Some h) (yylval_record s) (offset_ s) (bytes_to_skip s).
Definition add_offset (n : Z) (s : scanner) : scanner :=
  Scanner (start s) (yylval_handshake s) (yylval_record s) (offset_ s +u n) (bytes_to_skip s).
Definition set_skip (n : Z) (s : scanner) : scanner :=
  Scanner (start s) (yylval_handshake s) (yylval_record s) (offset_ s) n.

(** the pattern of [n] octets: the text and the rest *)
Definition octets (n : nat) (bs : list Z) : option (list Z * list Z) :=
  if (n <=? length bs)%nat then Some (take n bs, drop n bs) else None.

(** [ACE_SWAP_LONG] (on little endian machines) of the number at [yytext] *)
Definition yytext_uint32 (text : list Z) : Z := network 4 (load (take 4 text)).

Definition new_record (length : Z) : BitTorrent_PeerRecord :=
  MkPeerRecord length BITTORRENT_MESSAGETYPE_INVALID [] 0 (MkTriple 0 0 0).
Definition set_type (t : BitTorrent_MessageType) (r : BitTorrent_PeerRecord) :=
  MkPeerRecord (record_length r) t (bitfield r) (have r) (block r).
Definition push_bitfield (b : Z) (r : BitTorrent_PeerRecord) :=
  MkPeerRecord (record_length r) (type r) (bitfield r ++ [b]) (have r) (block r).
Definition set_have (v : Z) (r : BitTorrent_PeerRecord) :=
  MkPeerRecord (record_length r) (type r) (bitfield r) v (block r).
Definition set_block (t : block_triple) (r : BitTorrent_PeerRecord) :=
  MkPeerRecord (record_length r) (type r) (bitfield r) (have r) t.

Definition scan_initial (s : scanner) (bs : list Z) : outcome scanned :=
  let prefix := 19 :: string_bytes BITTORRENT_PEER_HANDSHAKE_PSTR_STRING in
  match octets 20 bs with
  | Some (text, rest) =>
      if bool_decide (text = prefix) then
        Ok (Matched (begin_ state_reserved
              (set_handshake (MkHandShake (bytes_string (drop 1 text))
                 (replicate 8 0) "" "") (add_offset 20 s))) rest)
      else Ok (Matched (begin_ state_length s) bs)
  | None => match octets 4 bs with
            | Some _ => Ok (Matched (begin_ state_length s) bs)
            | None => Ok More
            end
  end.

Definition scan_reserved (s : scanner) (bs : list Z) : outcome scanned :=
  match octets 8 bs with
  | Some (text, rest) =>
      h ← deref (yylval_handshake s);
      Ok (Matched (begin_ state_hash (set_handshake
            (MkHandShake (pstr h) text (info_hash h) (peer_id h)) (add_offset 8 s))) rest)
  | None => Ok More
  end.

Definition scan_hash (s : scanner) (bs : list Z) : outcome scanned :=
  match octets 20 bs with
  | Some (text, rest) =>
      h ← deref (yylval_handshake s);
      Ok (Matched (begin_ state_peer_id (set_handshake
            (MkHandShake (pstr h) (reserved h) (bytes_string text) (peer_id h))
            (add_offset 20 s))) rest)
  | None => Ok More
  end.

Definition scan_peer_id (s : scanner) (bs : list Z) : outcome scanned :=
  match octets 20 bs with
  | Some (text, rest) =>
      h ← deref (yylval_handshake s);
      let h := MkHandShake (pstr h) (reserved h) (info_hash h) (bytes_string text) in
      Ok (Token (HANDSHAKE h) (begin_ state_length (set_handshake h (add_offset 20 s))) rest)
  | None => Ok More
  end.

Definition scan_length (s : scanner) (bs : list Z) : outcome scanned :=
  match octets 4 bs with
  | Some (text, rest) =>
      let r := new_record (yytext_uint32 text) in
      let s := set_record r (add_offset 4 s) in
      if record_length r =? 0 then Ok (Token (KEEP_ALIVE r) s rest)
      else Ok (Matched (begin_ state_type s) rest)
  | None => Ok More
  end.

Definition scan_type (s : scanner) (bs : list Z) : outcome scanned :=
  match bs with
  | b :: rest =>
      r ← deref (yylval_record s);
      let r := set_type (type_of_value b) r in
      let s := set_record r (add_offset 1 s) in
      match type r with
      | BITTORRENT_MESSAGETYPE_CHOKE | BITTORRENT_MESSAGETYPE_UNCHOKE
      | BITTORRENT_MESSAGETYPE_INTERESTED | BITTORRENT_MESSAGETYPE_NOT_INTERESTED =>
          Ok (Token (MESSAGE r) (begin_ state_length s) rest)
      | BITTORRENT_MESSAGETYPE_HAVE => Ok (Matched (begin_ state_have_payload s) rest)
      | BITTORRENT_MESSAGETYPE_BITFIELD =>
          Ok (Matched (begin_ state_bitfield_payload (set_skip (record_length r -u 1) s)) rest)
      | BITTORRENT_MESSAGETYPE_REQUEST => Ok (Matched (begin_ state_request_payload s) rest)
      | BITTORRENT_MESSAGETYPE_PIECE => Ok (Matched (begin_ state_piece_payload s) rest)
      | BITTORRENT_MESSAGETYPE_CANCEL => Ok (Matched (begin_ state_cancel_payload s) rest)
      | _ => Ok (Token YYTERMINATE (begin_ state_length s) rest)
      end
  | [] => Ok More
  end.

Definition scan_have (s : scanner) (bs : list Z) : outcome scanned :=
  match octets 4 bs with
  | Some (text, rest) =>
      r ← deref (yylval_record s);
      let r := set_have (yytext_uint32 text) r in
      Ok (Token (MESSAGE r) (begin_ state_length (set_record r (add_offset 4 s))) rest)
  | None => Ok More
  end.

Definition scan_bitfield (s : scanner) (bs : list Z) : outcome scanned :=
  match bs with
  | b :: rest =>
      r ← deref (yylval_record s);
      let r := push_bitfield b r in
      let s := set_record r s in
      _ ← ace_assert (negb (bytes_to_skip s =? 0));
      let s := set_skip (bytes_to_skip s -u 1) s in
      if bytes_to_skip s =? 0 then
        Ok (Token (MESSAGE r) (begin_ state_length (add_offset (record_length r -u 1) s)) rest)
      else Ok (Matched s rest)
  | [] => Ok More
  end.

(** [REQUEST_PAYLOAD] and [CANCEL_PAYLOAD] *)
Definition scan_triple (s : scanner) (bs : list Z) : outcome scanned :=
  match octets 12 bs with
  | Some (text, rest) =>
      r ← deref (yylval_record s);
      let r := set_block (MkTriple (yytext_uint32 text) (yytext_uint32 (drop 4 text))
                            (yytext_uint32 (drop 8 text))) r in
      Ok (Token (MESSAGE r) (begin_ state_length (set_record r (add_offset 12 s))) rest)
  | None => Ok More
  end.

Definition scan_piece_payload (s : scanner) (bs : list Z) : outcome scanned :=
  match octets 8 bs with
  | Some (text, rest) =>
      r ← deref (yylval_record s);
      let r := set_block (MkTriple (yytext_uint32 text) (yytext_uint32 (drop 4 text))
                            (length_ (block r))) r in
      Ok (Matched (begin_ state_piece
            (set_skip (record_length r -u 9) (set_record r (add_offset 8 s)))) rest)
  | None => Ok More
  end.

Definition scan_piece (s : scanner) (bs : list Z) : outcome scanned :=
  match bs with
  | _ :: rest =>
      _ ← ace_assert (negb (bytes_to_skip s =? 0));
      let s := set_skip (bytes_to_skip s -u 1) s in
      if bytes_to_skip s =? 0 then
        r ← deref (yylval_record s);
        Ok (Token (MESSAGE r) (begin_ state_length (add_offset (record_length r -u 9) s)) rest)
      else Ok (Matched s rest)
  | [] => Ok More
  end.

Definition scan_rule (s : scanner) (bs : list Z) : outcome scanned :=
  match start s with
  | INITIAL => scan_initial s bs
  | state_reserved => scan_reserved s bs
  | state_hash => scan_hash s bs
  | state_peer_id => scan_peer_id s bs
  | state_length => scan_length s bs
  | state_type => scan_type s bs
  | state_bitfield_payload => scan_bitfield s bs
  | state_cancel_payload | state_request_payload => scan_triple s bs
  | state_have_payload => scan_have s bs
  | state_piece_payload => scan_piece_payload s bs
  | state_piece => scan_piece s bs
  end.

(** The rules up to the next token.  Only the first rule matches without taking an
    octet, so [fuel] above the length of the buffer is enough. *)
Fixpoint yylex_loop (fuel : nat) (s : scanner) (bs : list Z) : outcome scanned :=
  match fuel with
  | O => Ok More
  | S fuel' =>
      m ← scan_rule s bs;
      match m with
      | Matched s' rest => yylex_loop fuel' s' rest
      | Token t s' rest => Ok (Token t s' rest)
      | More => Ok (Token (if bs is [] then YYTERMINATE else END_OF_FRAGMENT) s bs)
      end
  end.

(** [yylex ()] on a buffer, when the parser does not block; [bytes_to_skip] is local *)
Definition yylex (s : scanner) (bs : list Z) : outcome scanned :=
  yylex_loop (2 + length bs) (set_skip 0 s) bs.
End Scanner.

(** ** What is sent *)

(** the length of a message with [n] bytes of data *)
Definition message_length (r : BitTorrent_PeerRecord) (n : Z) : Z :=
  match type r with
  | BITTORRENT_MESSAGETYPE_HAVE => 5
  | BITTORRENT_MESSAGETYPE_BITFIELD => 1 + 4 + zlen (bitfield r)
  | BITTORRENT_MESSAGETYPE_REQUEST | BITTORRENT_MESSAGETYPE_CANCEL => 13
  | BITTORRENT_MESSAGETYPE_PIECE => 9 + n
  | _ => 1
  end.
(** the writes to the first block, and their bytes *)
Definition message_chunks (r : BitTorrent_PeerRecord) (n : Z) : list (list Z) :=
  be_bytes 4 (message_length r n) :: [type_value (type r)] ::
  match type r with
  | BITTORRENT_MESSAGETYPE_HAVE => [be_bytes 4 (have r)]
  | BITTORRENT_MESSAGETYPE_BITFIELD => [bitfield r]
  | BITTORRENT_MESSAGETYPE_REQUEST | BITTORRENT_MESSAGETYPE_CANCEL =>
      [be_bytes 4 (index (block r)); be_bytes 4 (begin (block r));
       be_bytes 4 (length_ (block r))]
  | BITTORRENT_MESSAGETYPE_PIECE =>
      [be_bytes 4 (index (block r)); be_bytes 4 (begin (block r))]
  | _ => []
  end.
Definition message_bytes (r : BitTorrent_PeerRecord) (n : Z) : list Z :=
  mjoin (message_chunks r n).

(** a record whose members are numbers of 32 bits, and which can be sent *)
Definition uint32 (z : Z) : Prop := 0 <= z < 2 ^ 32.
Record sendable (r : BitTorrent_PeerRecord) (n : Z) : Prop := {
  sendable_type : type r ≠ BITTORRENT_MESSAGETYPE_MAX ∧ type r ≠ BITTORRENT_MESSAGETYPE_INVALID;
  sendable_have : uint32 (have r);
  sendable_block : uint32 (index (block r)) ∧ uint32 (begin (block r)) ∧ uint32 (length_ (block r));
  sendable_data : type r = BITTORRENT_MESSAGETYPE_PIECE → 0 < n ∧ 9 + n < 2 ^ 32;
  sendable_bitfield : type r = BITTORRENT_MESSAGETYPE_BITFIELD →
    0 < zlen (bitfield r) < 2 ^ 32 - 5
}.

Section StreamerProofs.
Context {B : Type} `{WritableBlock B} `{ByteOrder}.
Implicit Types (r : BitTorrent_PeerRecord) (b : B) (cont : list B).

Lemma copies_step d ds (k : B → option B) b :
  (∀ b', k b' = copies ds b') → (mb_copy d b ≫= k) = copies (d :: ds) b.
Proof. intros Hk. rewrite copies_cons. destruct (mb_copy d b); cbn; auto. Qed.
Lemma copies_last d b : mb_copy d b = copies [d] b.
Proof. rewrite copies_cons. by destruct (mb_copy d b). Qed.

Lemma copy_uint32_be v b : uint32 v → copy_uint32 v b = mb_copy (be_bytes 4 v) b.
Proof.
  intros Hv. unfold copy_uint32. rewrite memory_network; rewrite u32_small by done; done.
Qed.
Lemma copy_uint8_byte v b : byte v → copy_uint8 v b = mb_copy [v] b.
Proof. intros Hv. unfold copy_uint8, u8. by rewrite Z.mod_small. Qed.
Lemma type_value_byte t : byte (type_value t).
Proof. unfold byte. destruct t; cbn; lia. Qed.

(** one write of the code after the other *)
Ltac copies_of_code :=
  repeat (intros;
    first [rewrite copy_uint32_be by (done || unfold uint32; lia)
          |rewrite copy_uint8_byte by apply type_value_byte];
    (apply copies_last || apply copies_step)).

Lemma stream_message_copies r b cont :
  sendable r (zlen (chain_bytes cont)) →
  stream_message r b cont = Ok (copies (message_chunks r (zlen (chain_bytes cont))) b).
Proof.
  intros [[Hmax Hinv] Hhave (Hi & Hbg & Hl) Hdata Hbits].
  unfold stream_message, message_chunks, message_length, stream_triple.
  destruct (type r) eqn:Ht; try done; try (f_equal; by copies_of_code).
  - specialize (Hbits eq_refl). rewrite u32_small by lia.
    destruct (bitfield r) as [|x bits]; [unfold zlen in Hbits; cbn in Hbits; lia|].
    cbn [mbind outcome_bind deref head from_option].
    rewrite !copies_cons, copy_uint32_be by (unfold uint32; lia).
    destruct (mb_copy _ b) as [b1|]; [|done]. cbn [mbind option_bind].
    rewrite copies_cons, copy_uint8_byte by apply type_value_byte.
    destruct (mb_copy _ b1) as [b2|]; [|done]. cbn [mbind option_bind]. by rewrite <- copies_last.
  - specialize (Hdata eq_refl). rewrite total_length_small by lia. rewrite u32_small by lia.
    destruct cont as [|c cont]; [unfold zlen in Hdata; cbn in Hdata; lia|]. cbn [mbind outcome_bind ace_assert].
    f_equal. by copies_of_code.
Qed.
End StreamerProofs.

Section ScannerProofs.
Context `{ByteOrder}.
Implicit Types (s : scanner) (r : BitTorrent_PeerRecord) (bs d rest : list Z).

Lemma octets_app n d rest : length d = n → octets n (d ++ rest) = Some (d, rest).
Proof.
  intros <-. unfold octets. rewrite length_app, (proj2 (Nat.leb_le _ _)) by lia.
  by rewrite take_app_length, drop_app_length.
Qed.

Lemma yytext_be v rest : uint32 v → yytext_uint32 (be_bytes 4 v ++ rest) = v.
Proof.
  intros Hv. unfold yytext_uint32. rewrite take_app_le by (by rewrite length_be_bytes).
  rewrite take_ge by (by rewrite length_be_bytes).
  rewrite network_load by (apply be_bytes_byte || apply length_be_bytes).
  by apply be_value_bytes.
Qed.

Lemma loop_matched fuel s bs s' rest :
  scan_rule s bs = Ok (Matched s' rest) →
  yylex_loop (S fuel) s bs = yylex_loop fuel s' rest.
Proof. intros Hr. cbn. by rewrite Hr. Qed.
Lemma loop_token fuel s bs t s' rest :
  scan_rule s bs = Ok (Token t s' rest) → yylex_loop (S fuel) s bs = Ok (Token t s' rest).
Proof. intros Hr. cbn. by rewrite Hr. Qed.

(** Each rule takes an octet, or leaves the initial condition (for good): the fuel of
    [yylex] is enough, and it always returns a token, unless it aborts. *)
Definition scan_measure s bs : nat :=
  length bs + match start s with INITIAL => 1 | _ => 0 end.

Lemma octets_inv n bs d rest : octets n bs = Some (d, rest) → length bs = (n + length rest)%nat.
Proof.
  unfold octets. destruct (Nat.leb_spec n (length bs)) as [Hn|]; [|done]. intros [= _ <-].
  rewrite length_drop. lia.
Qed.

Lemma scan_rule_decreases s bs s' rest :
  scan_rule s bs = Ok (Matched s' rest) → (scan_measure s' rest < scan_measure s bs)%nat.
Proof.
  unfold scan_rule, scan_measure. intros Hr.
  destruct (start s) eqn:Hs; unfold scan_initial, scan_reserved, scan_hash, scan_peer_id,
    scan_length, scan_type, scan_bitfield, scan_triple, scan_have, scan_piece_payload,
    scan_piece in Hr;
  repeat match type of Hr with
    | mbind _ _ = _ => apply bind_Ok in Hr as (? & ? & Hr)
    | context [octets ?n bs] =>
        let E := fresh in destruct (octets n bs) as [[? ?]|] eqn:E;
        [apply octets_inv in E|clear E]
    | context [match bs with _ => _ end] => destruct bs
    | _ => case_match
    end; try discriminate Hr; injection Hr as <- <-; cbn in *; try rewrite Hs; congruence || lia.
Qed.

Lemma yylex_loop_returns fuel s bs :
  (scan_measure s bs < fuel)%nat →
  match yylex_loop fuel s bs with
  | Ok (Token _ _ _) | Abort | Undef => True
  | Ok (Matched _ _) | Ok More => False
  end.
Proof.
  revert s bs. induction fuel as [|fuel IH]; intros s bs Hf; [lia|]. cbn [yylex_loop].
  destruct (scan_rule s bs) as [[s' rest| |]| |] eqn:Hr; cbn; try done.
  apply IH. pose proof (scan_rule_decreases _ _ _ _ Hr). lia.
Qed.

Theorem yylex_returns s bs :
  match yylex s bs with
  | Ok (Token _ _ _) | Abort | Undef => True
  | Ok (Matched _ _) | Ok More => False
  end.
Proof.
  apply yylex_loop_returns. unfold scan_measure. cbn. destruct (start s); lia.
Qed.

(** the rules for the head of a message *)
Lemma scan_length_be s v rest :
  start s = state_length → uint32 v → v ≠ 0 →
  scan_rule s (be_bytes 4 v ++ rest) =
    Ok (Matched (begin_ state_type (set_record (new_record v) (add_offset 4 s))) rest).
Proof.
  intros Hs Hv Hne. unfold scan_rule. rewrite Hs. unfold scan_length.
  rewrite octets_app by apply length_be_bytes.
  rewrite <- (app_nil_r (be_bytes 4 v)), yytext_be by done. cbn [record_length new_record].
  by rewrite (proj2 (Z.eqb_neq _ _)).
Qed.

Lemma type_of_value_value (t : BitTorrent_MessageType) : type_of_value (type_value t) = t.
Proof. by destruct t. Qed.

(** the loops over the data of a piece and of a bitfield *)
Lemma piece_loop d s r rest fuel :
  start s = state_piece → yylval_record s = Some r → bytes_to_skip s = zlen d →
  0 < zlen d < 2 ^ 32 → (length d <= fuel)%nat →
  yylex_loop fuel s (d ++ rest) =
    Ok (Token (MESSAGE r)
          (begin_ state_length (add_offset (record_length r -u 9) (set_skip 0 s))) rest).
Proof.
  revert s fuel. induction d as [|b d IH]; intros s fuel Hs Hr Hskip Hd Hf; [by destruct Hd|].
  destruct fuel as [|fuel]; [cbn in Hf; lia|]. rewrite zlen_cons in Hskip, Hd.
  pose proof (zlen_nonneg d).
  assert (Hrule : scan_rule s (b :: d ++ rest) =
    if zlen d =? 0 then Ok (Token (MESSAGE r)
      (begin_ state_length (add_offset (record_length r -u 9) (set_skip 0 s))) (d ++ rest))
    else Ok (Matched (set_skip (zlen d) s) (d ++ rest))).
  { unfold scan_rule. rewrite Hs. cbn [scan_piece]. rewrite Hskip.
    rewrite (proj2 (Z.eqb_neq (1 + zlen d) 0)) by lia. cbn [negb ace_assert mbind outcome_bind].
    cbn [set_skip bytes_to_skip]. replace (1 + zlen d - 1) with (zlen d) by lia.
    rewrite u32_small by lia. destruct (zlen d =? 0) eqn:E; [|done]. bool_lia.
    cbn [yylval_record set_skip]. rewrite Hr. cbn. by rewrite E. }
  cbn [app]. destruct (zlen d =? 0) eqn:E; bool_lia.
  - rewrite (loop_token _ _ _ _ _ _ Hrule). by rewrite (zlen_0_inv d E).
  - rewrite (loop_matched _ _ _ _ _ Hrule). rewrite IH; try done; [lia|cbn in Hf; lia].
Qed.

Definition push_all (d : list Z) r : BitTorrent_PeerRecord :=
  MkPeerRecord (record_length r) (type r) (bitfield r ++ d) (have r) (block r).

Lemma bitfield_loop d s r rest fuel :
  start s = state_bitfield_payload → yylval_record s = Some r → bytes_to_skip s = zlen d →
  0 < zlen d < 2 ^ 32 → (length d <= fuel)%nat →
  yylex_loop fuel s (d ++ rest) =
    Ok (Token (MESSAGE (push_all d r))
          (begin_ state_length (add_offset (record_length r -u 1)
             (set_skip 0 (set_record (push_all d r) s)))) rest).
Proof.
  revert s r fuel. induction d as [|b d IH]; intros s r fuel Hs Hr Hskip Hd Hf; [by destruct Hd|].
  destruct fuel as [|fuel]; [cbn in Hf; lia|]. rewrite zlen_cons in Hskip, Hd.
  pose proof (zlen_nonneg d).
  assert (Hrule : scan_rule s (b :: d ++ rest) =
    if zlen d =? 0 then Ok (Token (MESSAGE (push_bitfield b r))
      (begin_ state_length (add_offset (record_length r -u 1)
         (set_skip 0 (set_record (push_bitfield b r) s)))) (d ++ rest))
    else Ok (Matched (set_skip (zlen d) (set_record (push_bitfield b r) s)) (d ++ rest))).
  { unfold scan_rule. rewrite Hs. cbn [scan_bitfield]. rewrite Hr.
    cbn [mbind outcome_bind deref from_option]. cbn [set_record bytes_to_skip]. rewrite Hskip.
    rewrite (proj2 (Z.eqb_neq (1 + zlen d) 0)) by lia. cbn [negb ace_assert mbind outcome_bind].
    cbn [set_skip bytes_to_skip]. replace (1 + zlen d - 1) with (zlen d) by lia.
    rewrite u32_small by lia. destruct (zlen d =? 0) eqn:E; [|done]. bool_lia.
    by rewrite E. }
  cbn [app]. destruct (zlen d =? 0) eqn:E; bool_lia.
  - rewrite (loop_token _ _ _ _ _ _ Hrule). by rewrite (zlen_0_inv d E).
  - rewrite (loop_matched _ _ _ _ _ Hrule).
    rewrite (IH _ (push_bitfield b r)); try done; [|lia|cbn in Hf; lia].
    unfold push_all, push_bitfield. cbn. by rewrite <- app_assoc.
Qed.
End ScannerProofs.

(** ** Round trips *)

(** the record that is read back: its length, and the members that are sent *)
Definition received (r : BitTorrent_PeerRecord) (n : Z) : BitTorrent_PeerRecord :=
  MkPeerRecord (message_length r n) (type r)
    (if type r is BITTORRENT_MESSAGETYPE_BITFIELD then bitfield r else [])
    (if type r is BITTORRENT_MESSAGETYPE_HAVE then have r else 0)
    (match type r with
     | BITTORRENT_MESSAGETYPE_REQUEST | BITTORRENT_MESSAGETYPE_CANCEL => block r
     | BITTORRENT_MESSAGETYPE_PIECE => MkTriple (index (block r)) (begin (block r)) 0
     | _ => MkTriple 0 0 0
     end).

Section RoundTrip.
Context `{ByteOrder}.
Implicit Types (s : scanner) (r : BitTorrent_PeerRecord) (d rest : list Z).

Lemma message_length_uint32 r n : sendable r n → uint32 (message_length r n) ∧ message_length r n ≠ 0.
Proof.
  intros [_ _ _ Hd Hb]. unfold uint32, message_length.
  destruct (type r); try specialize (Hd eq_refl); try specialize (Hb eq_refl); lia.
Qed.

(** the head of a message, up to its type *)
Lemma scan_head s r n rest fuel :
  start s = state_length → sendable r n →
  yylex_loop (S fuel) s (be_bytes 4 (message_length r n) ++ rest) =
  yylex_loop fuel (begin_ state_type (set_record (new_record (message_length r n))
    (add_offset 4 s))) rest.
Proof.
  intros Hs Hr. destruct (message_length_uint32 r n Hr).
  apply loop_matched. by apply scan_length_be.
Qed.

Definition typed s r n : scanner :=
  add_offset 1 (begin_ state_type (set_record (set_type (type r) (new_record (message_length r n)))
    (add_offset 4 s))).

Lemma scan_type_value s r n rest :
  scan_rule (begin_ state_type (set_record (new_record (message_length r n)) (add_offset 4 s)))
    (type_value (type r) :: rest) =
  let r' := set_type (type r) (new_record (message_length r n)) in
  let s' := set_record r' (typed s r n) in
  match type r with
  | BITTORRENT_MESSAGETYPE_CHOKE | BITTORRENT_MESSAGETYPE_UNCHOKE
  | BITTORRENT_MESSAGETYPE_INTERESTED | BITTORRENT_MESSAGETYPE_NOT_INTERESTED =>
      Ok (Token (MESSAGE r') (begin_ state_length s') rest)
  | BITTORRENT_MESSAGETYPE_HAVE => Ok (Matched (begin_ state_have_payload s') rest)
  | BITTORRENT_MESSAGETYPE_BITFIELD =>
      Ok (Matched (begin_ state_bitfield_payload (set_skip (message_length r n -u 1) s')) rest)
  | BITTORRENT_MESSAGETYPE_REQUEST => Ok (Matched (begin_ state_request_payload s') rest)
  | BITTORRENT_MESSAGETYPE_PIECE => Ok (Matched (begin_ state_piece_payload s') rest)
  | BITTORRENT_MESSAGETYPE_CANCEL => Ok (Matched (begin_ state_cancel_payload s') rest)
  | _ => Ok (Token YYTERMINATE (begin_ state_length s') rest)
  end.
Proof.
  unfold scan_rule. cbn [start begin_ scan_type]. rewrite type_of_value_value.
  by destruct (type r).
Qed.

Lemma message_bytes_app r n rest :
  message_bytes r n ++ rest =
    be_bytes 4 (message_length r n) ++ type_value (type r) ::
    mjoin (drop 2 (message_chunks r n)) ++ rest.
Proof.
  unfold message_bytes, message_chunks. cbn [drop].
  change (mjoin (?a :: ?b :: ?c)) with (a ++ b ++ mjoin c). by rewrite <- !app_assoc.
Qed.

(** the length and the type, in two steps *)
Lemma yylex_head s r n rest :
  start s = state_length → sendable r n →
  yylex s (message_bytes r n ++ rest) =
    yylex_loop (S (length (message_bytes r n ++ rest)))
      (begin_ state_type (set_record (new_record (message_length r n))
         (add_offset 4 (set_skip 0 s))))
      (type_value (type r) :: mjoin (drop 2 (message_chunks r n)) ++ rest).
Proof.
  intros Hs Hr. unfold yylex. rewrite message_bytes_app at 2.
  change (2 + ?n)%nat with (S (S n)). by apply scan_head.
Qed.

Lemma loop_have s r v rest fuel :
  start s = state_have_payload → yylval_record s = Some r → uint32 v →
  yylex_loop (S fuel) s (be_bytes 4 v ++ rest) =
    Ok (Token (MESSAGE (set_have v r))
          (begin_ state_length (set_record (set_have v r) (add_offset 4 s))) rest).
Proof.
  intros Hs Hr Hv. apply loop_token. unfold scan_rule. rewrite Hs. unfold scan_have.
  rewrite octets_app, Hr by apply length_be_bytes. cbn [mbind outcome_bind deref from_option].
  by rewrite <- (app_nil_r (be_bytes 4 v)), yytext_be.
Qed.

Lemma loop_triple s r t rest fuel :
  start s = state_request_payload ∨ start s = state_cancel_payload →
  yylval_record s = Some r → uint32 (index t) → uint32 (begin t) → uint32 (length_ t) →
  yylex_loop (S fuel) s
    (mjoin [be_bytes 4 (index t); be_bytes 4 (begin t); be_bytes 4 (length_ t)] ++ rest) =
    Ok (Token (MESSAGE (set_block t r))
          (begin_ state_length (set_record (set_block t r) (add_offset 12 s))) rest).
Proof.
  intros Hs Hr Hi Hb Hl. apply loop_token.
  replace (scan_rule s) with (scan_triple s) by (unfold scan_rule; by destruct Hs as [-> | ->]).
  unfold scan_triple. rewrite octets_app, Hr by done.
  cbn [mbind outcome_bind deref from_option mjoin list_join].
  rewrite yytext_be by done.
  change 8%nat with (4 + 4)%nat. rewrite <- drop_drop.
  rewrite !drop_app_length' by (by rewrite length_be_bytes). rewrite !yytext_be by done.
  by destruct t.
Qed.

Lemma loop_piece s r i b d rest fuel :
  start s = state_piece_payload → yylval_record s = Some r → uint32 i → uint32 b →
  record_length r = 9 + zlen d → 0 < zlen d → 9 + zlen d < 2 ^ 32 →
  (length d <= fuel)%nat →
  let r' := set_block (MkTriple i b (length_ (block r))) r in
  ∃ s', yylex_loop (S fuel) s (mjoin [be_bytes 4 i; be_bytes 4 b] ++ d ++ rest) =
          Ok (Token (MESSAGE r') s' rest) ∧
        start s' = state_length ∧ offset_ s' = offset_ s +u 8 +u zlen d.
Proof.
  intros Hs Hr Hi Hb Hl Hd Hd32 Hf r'.
  assert (Hrule : scan_rule s (mjoin [be_bytes 4 i; be_bytes 4 b] ++ d ++ rest) =
    Ok (Matched (begin_ state_piece (set_skip (record_length r' -u 9)
         (set_record r' (add_offset 8 s)))) (d ++ rest))).
  { unfold scan_rule. rewrite Hs. unfold scan_piece_payload. rewrite octets_app, Hr by done.
    cbn [mbind outcome_bind deref from_option mjoin list_join].
    rewrite yytext_be by done. rewrite drop_app_length' by (by rewrite length_be_bytes).
    by rewrite yytext_be. }
  assert (Hskip : record_length r' -u 9 = zlen d).
  { unfold r'. cbn [record_length set_block]. rewrite Hl.
    replace (9 + zlen d - 9) with (zlen d) by lia. apply u32_small. lia. }
  rewrite (loop_matched _ _ _ _ _ Hrule), Hskip, (piece_loop d _ r') by (done || lia).
  rewrite Hskip. eexists. split; [reflexivity|]. done.
Qed.

Lemma add_u32 o a b : o +u a +u b = o +u (a + b).
Proof. rewrite u32_add_mod_l. f_equal. lia. Qed.

(** A message that is sent, other than a bitfield, is read back, and nothing else. *)
Lemma scan_message s r n d rest :
  start s = state_length → sendable r n → type r ≠ BITTORRENT_MESSAGETYPE_BITFIELD →
  (if type r is BITTORRENT_MESSAGETYPE_PIECE then zlen d = n else d = []) →
  ∃ s', yylex s (message_bytes r n ++ d ++ rest) = Ok (Token (MESSAGE (received r n)) s' rest) ∧
        start s' = state_length ∧ offset_ s' = offset_ s +u (4 + message_length r n).
Proof.
  intros Hs Hr Hnb Hd. rewrite yylex_head by done.
  set (fuel := length _). assert (Hfuel : (5 + length d <= fuel)%nat).
  { unfold fuel. rewrite message_bytes_app, !length_app, length_be_bytes. cbn. rewrite !length_app. lia. }
  pose proof (scan_type_value (set_skip 0 s) r n (mjoin (drop 2 (message_chunks r n)) ++ d ++ rest))
    as Ht.
  destruct Hr as [[Hmax Hinv] Hhave (Hi & Hbg & Hl) Hdata _].
  unfold message_chunks in *. unfold received, message_length in *.
  destruct (type r) eqn:Htype; try done; cbn zeta in Ht;
    try (rewrite (loop_token _ _ _ _ _ _ Ht); rewrite Hd; eexists; split; [reflexivity|];
         split; [done|apply add_u32]).
  all: rewrite (loop_matched _ _ _ _ _ Ht); clear Ht; cbn [drop].
  all: destruct fuel as [|fuel]; [lia|].
  - rewrite Hd. change (mjoin [?a]) with (a ++ []). rewrite app_nil_r.
    rewrite (loop_have _ (set_type BITTORRENT_MESSAGETYPE_HAVE (new_record 5))) by done.
    eexists. split; [reflexivity|]. split; [done|]. cbn. by rewrite !add_u32.
  - rewrite Hd. rewrite (loop_triple _ (set_type BITTORRENT_MESSAGETYPE_REQUEST (new_record 13)))
      by (done || by left).
    eexists. split; [reflexivity|]. split; [done|]. cbn. by rewrite !add_u32.
  - specialize (Hdata eq_refl). subst n.
    edestruct (loop_piece (begin_ state_piece_payload (set_record
      (set_type BITTORRENT_MESSAGETYPE_PIECE (new_record (9 + zlen d)))
      (typed (set_skip 0 s) r (9 + zlen d))))
      (set_type BITTORRENT_MESSAGETYPE_PIECE (new_record (9 + zlen d)))
      (index (block r)) (begin (block r)) d rest fuel) as (s' & Hs' & Hst & Ho);
      [done..|lia|lia|lia|].
    exists s'. split; [exact Hs'|]. split; [done|]. rewrite Ho. cbn.
    rewrite !add_u32. f_equal. lia.
  - rewrite Hd. rewrite (loop_triple _ (set_type BITTORRENT_MESSAGETYPE_CANCEL (new_record 13)))
      by (done || by right).
    eexists. split; [reflexivity|]. split; [done|]. cbn. by rewrite !add_u32.
Qed.
End RoundTrip.

Section Theorems.
Context {B : Type} `{WritableBlock B} `{ByteOrder}.
Implicit Types (s : scanner) (r : BitTorrent_PeerRecord) (b : B) (cont : list B).

(** what the streamer does with a message that can be sent: write it, or fail *)
Lemma stream_handleDataMessage_bytes r b cont :
  sendable r (zlen (chain_bytes cont)) → block_length b = 0 →
  let bs := message_bytes r (zlen (chain_bytes cont)) in
  if zlen bs <=? mb_space b
  then ∃ b', stream_handleDataMessage (MkMessageRecord None (Some r)) b cont = Ok (Some (b' :: cont)) ∧
             chain_bytes (b' :: cont) = bs ++ chain_bytes cont
  else stream_handleDataMessage (MkMessageRecord None (Some r)) b cont = Ok None.
Proof.
  intros Hr Hb bs. unfold stream_handleDataMessage. rewrite Hb.
  cbn [handShakeRecord peerRecord mbind outcome_bind ace_assert Z.eqb].
  rewrite stream_message_copies by done. cbn [mbind outcome_bind].
  pose proof (copies_spec (message_chunks r (zlen (chain_bytes cont))) b) as Hc.
  fold (message_bytes r (zlen (chain_bytes cont))) in Hc. fold bs in Hc.
  destruct (zlen bs <=? mb_space b); [|by rewrite Hc].
  destruct Hc as (b' & -> & Hbytes & _). exists b'. split; [done|].
  cbn. by rewrite Hbytes, (zlen_0_inv _ Hb).
Qed.

(** C11: the messages of peers are sent and read back: every message other than a bitfield
    either fits in its block and is written with its data behind it, and the scanner,
    whatever follows, then yields exactly that message and is left at what follows,
    ready for the next length; or it does not fit, and it is released. *)
Theorem peer_messages_roundtrip r b cont (Hr : sendable r (zlen (chain_bytes cont)))
    (Htype : type r ≠ BITTORRENT_MESSAGETYPE_BITFIELD)
    (Hcont : type r ≠ BITTORRENT_MESSAGETYPE_PIECE → chain_bytes cont = [])
    (Hb : block_length b = 0) :
  let n := zlen (chain_bytes cont) in
  if zlen (message_bytes r n) <=? mb_space b then
    ∃ m, stream_handleDataMessage (MkMessageRecord None (Some r)) b cont = Ok (Some m) ∧
      ∀ s rest, start s = state_length →
        ∃ s', yylex s (chain_bytes m ++ rest) = Ok (Token (MESSAGE (received r n)) s' rest) ∧
              start s' = state_length ∧ offset_ s' = offset_ s +u (4 + message_length r n)
  else stream_handleDataMessage (MkMessageRecord None (Some r)) b cont = Ok None.
Proof.
  intros n. pose proof (stream_handleDataMessage_bytes r b cont Hr Hb) as Hm. cbn zeta in Hm.
  fold n in Hm, Hr. destruct (_ <=? _); [|done]. destruct Hm as (b' & Hs & Hbytes).
  exists (b' :: cont). split; [done|]. intros s rest Hst. rewrite Hbytes, <- app_assoc.
  apply scan_message; [done..|].
  destruct (type r); try done; by apply Hcont.
Qed.

(** The length that is sent with a bitfield is too large by four: the scanner takes
    the four bytes that follow, the length of the next message, for a part of it. *)
Theorem bitfield_swallows_next r b (Hr : sendable r 0)
    (Htype : type r = BITTORRENT_MESSAGETYPE_BITFIELD) (Hb : block_length b = 0)
    (Hspace : 5 + zlen (bitfield r) <= mb_space b) s (Hs : start s = state_length) next rest
    (Hnext : zlen next = 4) :
  ∃ m, stream_handleDataMessage (MkMessageRecord None (Some r)) b [] = Ok (Some m) ∧
    chain_bytes m = be_bytes 4 (zlen (bitfield r) + 5) ++ 5 :: bitfield r ∧
    ∃ s', yylex s (chain_bytes m ++ next ++ rest) =
      Ok (Token (MESSAGE (push_all next (received r 0))) s' rest) ∧ start s' = state_length.
Proof.
  pose proof (stream_handleDataMessage_bytes r b [] Hr Hb) as Hm.
  change (chain_bytes (@nil B)) with (@nil Z) in Hm. change (zlen (@nil Z)) with 0 in Hm.
  cbn zeta in Hm.
  assert (Hbytes : message_bytes r 0 = be_bytes 4 (zlen (bitfield r) + 5) ++ 5 :: bitfield r).
  { rewrite <- (app_nil_r (message_bytes r 0)), message_bytes_app.
    unfold message_chunks, message_length. rewrite Htype. cbn [drop mjoin list_join].
    rewrite !app_nil_r. do 2 f_equal. lia. }
  assert (Hlen : zlen (message_bytes r 0) = 5 + zlen (bitfield r)).
  { rewrite Hbytes, zlen_app, zlen_cons, zlen_be_bytes. lia. }
  rewrite Hlen, (proj2 (Z.leb_le _ _)) in Hm by done. destruct Hm as (b' & Hsm & Hcb).
  rewrite app_nil_r in Hcb. exists [b']. rewrite Hcb. split_and!; [done|done|].
  rewrite yylex_head by done. set (fuel := length _).
  pose proof (scan_type_value (set_skip 0 s) r 0
    (mjoin (drop 2 (message_chunks r 0)) ++ next ++ rest)) as Ht.
  pose proof (sendable_bitfield r 0 Hr Htype) as Hbits.
  assert (Hfuel : (length (bitfield r ++ next) <= fuel)%nat).
  { unfold fuel. rewrite Hbytes, !length_app. cbn. lia. }
  unfold message_chunks in *. unfold received, message_length in *.
  rewrite Htype in *. cbn zeta in Ht. rewrite (loop_matched _ _ _ _ _ Ht). cbn [drop mjoin list_join].
  rewrite app_nil_r, app_assoc.
  rewrite (bitfield_loop (bitfield r ++ next) _
    (set_type BITTORRENT_MESSAGETYPE_BITFIELD (new_record (1 + 4 + zlen (bitfield r))))).
  - eexists. split; [reflexivity|done].
  - done.
  - done.
  - cbn [bytes_to_skip begin_ set_skip]. rewrite zlen_app, u32_small; lia.
  - rewrite zlen_app. lia.
  - done.
Qed.
End Theorems.

(** ** The handshake *)
Section Handshake.
Context {B : Type} `{WritableBlock B} `{ByteOrder}.

Lemma c_str_bytes_all s n :
  zlen (string_bytes s) = n → c_str_bytes s n = Ok (string_bytes s).
Proof.
  intros <-. unfold c_str_bytes. rewrite (proj2 (Z.leb_le _ _)) by lia.
  unfold zlen. rewrite Nat2Z.id, take_app_le, take_ge by lia. done.
Qed.

Definition handshake_chunks (h : BitTorrent_PeerHandShake) : list (list Z) :=
  [[19]; string_bytes (pstr h); reserved h; string_bytes (info_hash h);
   string_bytes (peer_id h)].

(** a handshake of version 1.0 of the protocol *)
Record proper_handshake (h : BitTorrent_PeerHandShake) : Prop := {
  proper_pstr : pstr h = BITTORRENT_PEER_HANDSHAKE_PSTR_STRING;
  proper_reserved : length (reserved h) = 8%nat;
  proper_hash : String.length (info_hash h) = 20%nat;
  proper_id : String.length (peer_id h) = 20%nat
}.

Lemma stream_handshake_copies h (b : B) :
  proper_handshake h →
  stream_handshake h b = if 68 <=? mb_space b then Ok (copies (handshake_chunks h) b) else Abort.
Proof.
  intros [Hp Hr Hh Hi]. unfold stream_handshake, handshake_chunks. rewrite Hp.
  change (49 + _) with 68. destruct (68 <=? mb_space b); [|done].
  cbn [ace_assert mbind outcome_bind].
  rewrite !c_str_bytes_all by (by rewrite zlen_string_bytes, ?Hh, ?Hi).
  change (u8 _) with 19. cbn [mbind outcome_bind]. do 1 f_equal.
  rewrite copy_uint8_byte by (unfold byte; lia). apply copies_step. intros b1.
  apply copies_step. intros b2. rewrite take_ge by (rewrite Hr; done).
  do 2 (apply copies_step; intros ?). apply copies_last.
Qed.

Lemma scan_handshake s h rest :
  proper_handshake h → start s = INITIAL →
  ∃ s', yylex s (mjoin (handshake_chunks h) ++ rest) = Ok (Token (HANDSHAKE h) s' rest) ∧
        start s' = state_length.
Proof.
  intros [Hp Hr Hh Hi] Hs. unfold yylex. set (fuel := (_ + _)%nat).
  assert (Hfuel : (4 <= fuel)%nat).
  { unfold fuel. rewrite length_app. unfold handshake_chunks. rewrite Hp. cbn. lia. }
  assert (Hlh : length (string_bytes (info_hash h)) = 20%nat).
  { pose proof (zlen_string_bytes (info_hash h)). unfold zlen in *. lia. }
  assert (Hli : length (string_bytes (peer_id h)) = 20%nat).
  { pose proof (zlen_string_bytes (peer_id h)). unfold zlen in *. lia. }
  destruct fuel as [|[|[|[|fuel]]]]; [lia..|]. clear Hfuel.
  assert (E : mjoin (handshake_chunks h) ++ rest =
    (19 :: string_bytes BITTORRENT_PEER_HANDSHAKE_PSTR_STRING) ++ reserved h ++
    string_bytes (info_hash h) ++ string_bytes (peer_id h) ++ rest).
  { unfold handshake_chunks. rewrite Hp. cbn [mjoin list_join]. rewrite app_nil_r.
    by rewrite <- !app_assoc. }
  rewrite E. erewrite loop_matched; [|unfold scan_rule; cbn [start set_skip]; rewrite Hs;
    unfold scan_initial; rewrite octets_app by done; rewrite bool_decide_true by done; reflexivity].
  erewrite loop_matched; [|unfold scan_rule; cbn [start begin_ scan_reserved];
    unfold scan_reserved; rewrite octets_app by done; reflexivity].
  erewrite loop_matched; [|unfold scan_rule; cbn [start begin_]; unfold scan_hash;
    rewrite octets_app by done; reflexivity].
  erewrite loop_token; [|unfold scan_rule; cbn [start begin_]; unfold scan_peer_id;
    rewrite octets_app by done; reflexivity].
  cbn [pstr reserved info_hash]. change (drop 1 (?x :: ?l)) with l. rewrite !bytes_string_bytes, <- Hp.
  destruct h. eexists. by split.
Qed.

(** A handshake is sent in 68 bytes, if there is room for them (an assertion fails
    if not), and the scanner yields it again from the start of the stream, and is left
    at the first message. *)
Theorem handshake_roundtrip h (b : B) (Hh : proper_handshake h) (Hb : block_length b = 0) :
  if 68 <=? mb_space b then
    ∃ m, stream_handleDataMessage (MkMessageRecord (Some h) None) b [] = Ok (Some m) ∧
      zlen (chain_bytes m) = 68 ∧
      ∀ s rest, start s = INITIAL →
        ∃ s', yylex s (chain_bytes m ++ rest) = Ok (Token (HANDSHAKE h) s' rest) ∧
              start s' = state_length
  else stream_handleDataMessage (MkMessageRecord (Some h) None) b [] = Abort.
Proof.
  unfold stream_handleDataMessage. rewrite Hb.
  cbn [handShakeRecord peerRecord mbind outcome_bind ace_assert Z.eqb].
  rewrite stream_handshake_copies by done.
  destruct (68 <=? mb_space b) eqn:E; [|done]. bool_lia.
  assert (Hlen : zlen (mjoin (handshake_chunks h)) = 68).
  { destruct Hh as [Hp Hr Hh Hi]. unfold handshake_chunks. rewrite Hp. cbn [mjoin list_join].
    rewrite !zlen_app, !zlen_string_bytes, Hh, Hi. unfold zlen at 1 2. rewrite Hr. done. }
  pose proof (copies_spec (handshake_chunks h) b) as Hc.
  rewrite Hlen, (proj2 (Z.leb_le _ _)) in Hc by done. destruct Hc as (b' & -> & Hbytes & _).
  exists [b']. cbn [mbind outcome_bind fmap option_fmap option_map].
  change (chain_bytes [b']) with (mb_bytes b' ++ []).
  rewrite app_nil_r, Hbytes, (zlen_0_inv _ Hb). split; [done|]. split; [done|].
  intros s rest Hs. by apply scan_handshake.
Qed.
End Handshake.

Definition sample_piece : BitTorrent_PeerRecord :=
  MkPeerRecord 0 BITTORRENT_MESSAGETYPE_PIECE [] 0 (MkTriple 3 16384 0).
Definition sample_bitfield : BitTorrent_PeerRecord :=
  MkPeerRecord 0 BITTORRENT_MESSAGETYPE_BITFIELD [255; 128] 0 (MkTriple 0 0 0).
Definition sample_handshake : BitTorrent_PeerHandShake :=
  MkHandShake BITTORRENT_PEER_HANDSHAKE_PSTR_STRING (replicate 8 0)
    "aaaaaaaaaaaaaaaaaaaa" "-XX0001-bbbbbbbbbbbb".
Definition sample_scanner (c : start_condition) : scanner := Scanner c None None 0 0.

Lemma peer_messages_roundtrip_witness :
  sendable sample_piece 3 ∧
  ∃ m, stream_handleDataMessage (MkMessageRecord None (Some sample_piece))
         (([], 64%N) : list Z * N) [([7; 8; 9], 0%N)] = Ok (Some m) ∧
    ∀ s rest, start s = state_length →
      ∃ s', yylex s (chain_bytes m ++ rest) =
              Ok (Token (MESSAGE (received sample_piece 3)) s' rest) ∧
            start s' = state_length ∧ offset_ s' = offset_ s +u (4 + message_length sample_piece 3).
Proof.
  assert (Hs : sendable sample_piece 3) by (split; unfold uint32; cbn; done || lia).
  split; [exact Hs|].
  exact (peer_messages_roundtrip sample_piece (([], 64%N) : list Z * N) [([7; 8; 9], 0%N)]
    Hs ltac:(done) ltac:(done) eq_refl).
Defined.

Lemma bitfield_swallows_next_witness :
  sendable sample_bitfield 0 ∧
  ∃ m, stream_handleDataMessage (MkMessageRecord None (Some sample_bitfield))
         (([], 64%N) : list Z * N) [] = Ok (Some m) ∧
    chain_bytes m = [0; 0; 0; 7; 5; 255; 128] ∧
    ∃ s', yylex (sample_scanner state_length) (chain_bytes m ++ [0; 0; 0; 1] ++ [2]) =
      Ok (Token (MESSAGE (push_all [0; 0; 0; 1] (received sample_bitfield 0))) s' [2]) ∧
      start s' = state_length.
Proof.
  assert (Hs : sendable sample_bitfield 0).
  { split; unfold uint32; cbn; try done; unfold zlen; cbn; lia. }
  split; [exact Hs|].
  exact (bitfield_swallows_next sample_bitfield (([], 64%N) : list Z * N) Hs eq_refl eq_refl
    ltac:(by vm_compute) (sample_scanner state_length) eq_refl [0; 0; 0; 1] [2] eq_refl).
Defined.

Lemma handshake_roundtrip_witness :
  proper_handshake sample_handshake ∧
  ∃ m, stream_handleDataMessage (MkMessageRecord (Some sample_handshake) None)
         (([], 128%N) : list Z * N) [] = Ok (Some m) ∧
    zlen (chain_bytes m) = 68 ∧
    ∀ s rest, start s = INITIAL →
      ∃ s', yylex s (chain_bytes m ++ rest) = Ok (Token (HANDSHAKE sample_handshake) s' rest) ∧
            start s' = state_length.
Proof.
  assert (Hh : proper_handshake sample_handshake) by (by split).
  split; [exact Hh|].
  exact (handshake_roundtrip sample_handshake (([], 128%N) : list Z * N) Hh eq_refl).
Defined.
