(* ===== verification/BitTorrentParser.v ===== *)
(** * Framing the messages of peers (bittorrent_module_parser.inl)

    When the scanner has read a message, [record ()] cuts its blocks off the chain of
    fragments that have been received, keeps only the data of a piece, and passes the
    message on; [handshake ()] skips the handshake. *)
From S2P Require Import Prelude MessageBlock BitTorrentText BitTorrentWire.

Section Parser.
Context {B : Type} `{MessageBlock B}.
Implicit Types (c : list B).

(** the loop that advances the read pointers over the first [header_bytes]: the blocks
    that are used up, and the others *)
Fixpoint skip_bytes (header_bytes : Z) (c : list B) : outcome (list B * list B) :=
  match c with
  | [] => Abort
  | b :: c' =>
      if header_bytes <=? block_length b then Ok ([], mb_rd_ptr header_bytes b :: c')
      else
        r ← skip_bytes (header_bytes -u u32 (block_length b)) c';
        Ok (mb_rd_ptr (block_length b) b :: r.1, r.2)
  end.

(** the loop that looks for the block in which the message ends: the chain up to there,
    and what follows, with the rest of that block *)
Fixpoint cut (message_bytes skipped_bytes : Z) (c : list B) : outcome (list B * list B) :=
  match c with
  | [] => Abort
  | b :: c' =>
      let skipped_bytes := skipped_bytes +u u32 (block_length b) in
      if skipped_bytes <? message_bytes then
        r ← cut message_bytes skipped_bytes c';
        Ok (b :: r.1, r.2)
      else
        let remainder := skipped_bytes -u message_bytes in
        if remainder =? 0 then Ok ([b], c')
        else Ok ([mb_set_length (block_length b - remainder) b],
                 mb_rd_ptr (block_length b - remainder) b :: c')
  end.

(** the bytes of a message; [None]: an invalid type *)
Definition frame_length (r : BitTorrent_PeerRecord) : option Z :=
  if record_length r =? 0 then Some 4
  else
    match type r with
    | BITTORRENT_MESSAGETYPE_CHOKE | BITTORRENT_MESSAGETYPE_UNCHOKE
    | BITTORRENT_MESSAGETYPE_INTERESTED | BITTORRENT_MESSAGETYPE_NOT_INTERESTED =>
        Some (4 + 1)
    | BITTORRENT_MESSAGETYPE_HAVE => Some (4 + 1 + 4)
    | BITTORRENT_MESSAGETYPE_BITFIELD => Some (4 + 1 +u (record_length r -u 1))
    | BITTORRENT_MESSAGETYPE_REQUEST | BITTORRENT_MESSAGETYPE_CANCEL =>
        Some (4 + 1 + 4 + 4 + 4)
    | BITTORRENT_MESSAGETYPE_PIECE => Some (4 + 1 + 4 + 4 +u (record_length r -u 9))
    | _ => None
    end.

(** what becomes of the chain: it is released, or a message is passed on and the rest
    is the new chain ([[]] for [NULL]) *)
Inductive framed :=
  | Released
  | Passed (message headFragment : list B).

Definition is_piece (t : BitTorrent_MessageType) : bool :=
  match t with BITTORRENT_MESSAGETYPE_PIECE => true | _ => false end.

Definition record (r : BitTorrent_PeerRecord) (headFragment_ : list B) : outcome framed :=
  _ ← ace_assert (match headFragment_ with [] => false | _ => true end);
  match frame_length r with
  | None => Ok Released
  | Some message_bytes =>
      _ ← ace_assert (negb (message_bytes =? 0));
      if total_length headFragment_ <? message_bytes then Ok Released
      else if is_piece (type r) then
        h ← skip_bytes (4 + 1 + 4 + 4) headFragment_;
        m ← cut (message_bytes -u (4 + 1 + 4 + 4)) 0 h.2;
        _ ← ace_assert (total_length (h.1 ++ m.1) =? record_length r -u 9);
        Ok (Passed (h.1 ++ m.1) m.2)
      else
        m ← cut message_bytes 0 headFragment_;
        _ ← ace_assert (total_length m.1 =? message_bytes);
        Ok (Passed m.1 m.2)
  end.

(** [handshake_bytes]: the offset of the parser *)
Definition handshake (handshake_bytes : Z) (headFragment_ : list B) : outcome (list B) :=
  h ← skip_bytes handshake_bytes headFragment_;
  Ok (h.1 ++ h.2).
End Parser.
Arguments framed : clear implicits.

Section Framing.
Context {B : Type} `{MessageBlock B}.
Implicit Types (c : list B).

Lemma skip_bytes_spec n c :
  0 <= n <= zlen (chain_bytes c) → zlen (chain_bytes c) < 2 ^ 32 → c ≠ [] →
  ∃ pre rest, skip_bytes n c = Ok (pre, rest) ∧ chain_bytes pre = [] ∧ rest ≠ [] ∧
    chain_bytes rest = drop (Z.to_nat n) (chain_bytes c).
Proof.
  revert n. induction c as [|b c IH]; intros n Hn Hc Hne; [done|].
  rewrite chain_bytes_cons, zlen_app in *. cbn [skip_bytes].
  pose proof (zlen_nonneg (mb_bytes b)). pose proof (zlen_nonneg (chain_bytes c)).
  unfold block_length. destruct (n <=? zlen (mb_bytes b)) eqn:E; bool_lia.
  - exists [], (mb_rd_ptr n b :: c). split_and!; [done..|].
    rewrite chain_bytes_cons, mb_rd_ptr_bytes by lia.
    by rewrite drop_app_le by (unfold zlen in *; lia).
  - rewrite (u32_small (zlen _)), u32_small by lia.
    destruct (decide (c = [])) as [->|Hc'].
    { change (chain_bytes []) with (@nil Z) in Hn. unfold zlen in *. cbn in Hn. lia. }
    destruct (IH (n - zlen (mb_bytes b))) as (pre & rest & -> & Hpre & Hrest & Hb); [lia..|done|].
    eexists _, rest. split; [reflexivity|]. split_and!; [|done|].
    + cbn [fst]. rewrite chain_bytes_cons, mb_rd_ptr_bytes, drop_zlen, Hpre by lia. done.
    + rewrite Hb. rewrite drop_app_ge by (unfold zlen in *; lia).
      f_equal. unfold zlen in *. lia.
Qed.

Lemma cut_spec n k c :
  0 <= k < n → n - k <= zlen (chain_bytes c) → k + zlen (chain_bytes c) < 2 ^ 32 →
  ∃ m rest, cut n k c = Ok (m, rest) ∧
    chain_bytes m = take (Z.to_nat (n - k)) (chain_bytes c) ∧
    chain_bytes rest = drop (Z.to_nat (n - k)) (chain_bytes c).
Proof.
  revert k. induction c as [|b c IH]; intros k Hk Hn Hc.
  { change (chain_bytes []) with (@nil Z) in *. unfold zlen in *. cbn in *. lia. }
  rewrite chain_bytes_cons, zlen_app in *. cbn [cut].
  pose proof (zlen_nonneg (mb_bytes b)). pose proof (zlen_nonneg (chain_bytes c)).
  unfold block_length. rewrite (u32_small (zlen _)), u32_small by lia.
  destruct (k + zlen (mb_bytes b) <? n) eqn:E; bool_lia.
  - destruct (IH (k + zlen (mb_bytes b))) as (m & rest & -> & Hm & Hrest); [lia..|].
    eexists _, rest. split; [reflexivity|]. cbn [fst snd].
    rewrite chain_bytes_cons, Hm, Hrest. split.
    + rewrite take_app_ge by (unfold zlen in *; lia). do 2 f_equal. unfold zlen in *. lia.
    + rewrite drop_app_ge by (unfold zlen in *; lia). f_equal. unfold zlen in *. lia.
  - rewrite u32_small by lia.
    destruct (k + zlen (mb_bytes b) - n =? 0) eqn:E0; bool_lia.
    + eexists _, c. split; [reflexivity|]. rewrite chain_bytes_cons, app_nil_r.
      split; [rewrite take_app_length'|rewrite drop_app_length']; unfold zlen in *; (done || lia).
    + eexists _, _. split; [reflexivity|]. rewrite !chain_bytes_cons, app_nil_r.
      replace (zlen (mb_bytes b) - _) with (n - k) by lia.
      rewrite mb_set_length_bytes, mb_rd_ptr_bytes by lia.
      split; [rewrite take_app_le|rewrite drop_app_le]; unfold zlen in *; (done || lia).
Qed.

(** the record of a message that is framed by its length *)
Definition well_sized (r : BitTorrent_PeerRecord) : Prop :=
  match type r with
  | BITTORRENT_MESSAGETYPE_CHOKE | BITTORRENT_MESSAGETYPE_UNCHOKE
  | BITTORRENT_MESSAGETYPE_INTERESTED | BITTORRENT_MESSAGETYPE_NOT_INTERESTED =>
      record_length r = 1
  | BITTORRENT_MESSAGETYPE_HAVE => record_length r = 5
  | BITTORRENT_MESSAGETYPE_BITFIELD => 1 <= record_length r
  | BITTORRENT_MESSAGETYPE_REQUEST | BITTORRENT_MESSAGETYPE_CANCEL => record_length r = 13
  | BITTORRENT_MESSAGETYPE_PIECE => 9 < record_length r
  | _ => record_length r = 0
  end.

Lemma frame_length_well_sized r :
  well_sized r → 4 + record_length r < 2 ^ 32 → frame_length r = Some (4 + record_length r).
Proof.
  unfold well_sized, frame_length. intros Hr Hb.
  destruct (record_length r =? 0) eqn:E; bool_lia; [by rewrite E|].
  destruct (type r); try (f_equal; lia); rewrite (u32_small (record_length r - _)) by lia;
    rewrite u32_small by lia; f_equal; lia.
Qed.

(** the data of a message: all of it, or what follows the header of a piece *)
Definition frame_header (r : BitTorrent_PeerRecord) : Z := if is_piece (type r) then 13 else 0.

(** However a message is spread over the fragments that have been received, it is
    cut off exactly at its end: the message that is passed on holds its bytes (of a
    piece, those of its data), and the bytes of the chain that is left are exactly those
    that follow.  A message that is not complete is released. *)
Theorem record_frames r c (Hr : well_sized r) (Hc : c ≠ [])
    (Hlen : zlen (chain_bytes c) < 2 ^ 32) (Hmax : 4 + record_length r < 2 ^ 32) :
  let n := 4 + record_length r in
  if zlen (chain_bytes c) <? n then record r c = Ok Released
  else ∃ m c', record r c = Ok (Passed m c') ∧
    chain_bytes m = drop (Z.to_nat (frame_header r)) (take (Z.to_nat n) (chain_bytes c)) ∧
    chain_bytes c' = drop (Z.to_nat n) (chain_bytes c).
Proof.
  intros n. pose proof (zlen_nonneg (chain_bytes c)).
  assert (Hn : 4 <= n) by (unfold n, well_sized in *; destruct (type r); lia).
  unfold record, frame_header. destruct c as [|b c0] eqn:Ec; [done|]. rewrite <- Ec in *.
  rewrite frame_length_well_sized by done. fold n. cbn [ace_assert mbind outcome_bind].
  rewrite (proj2 (Z.eqb_neq n 0)) by lia. cbn [negb ace_assert mbind outcome_bind].
  rewrite total_length_small by lia. destruct (zlen (chain_bytes c) <? n) eqn:E; [done|]. bool_lia.
  destruct (is_piece (type r)) eqn:Ep.
  - assert (Hp : 13 < n) by (unfold n, well_sized in *; destruct (type r); (done || lia)).
    destruct (skip_bytes_spec 13 c) as (pre & rest & Hs & Hpre & Hrest & Hb); [lia|lia|by subst c|].
    change (4 + 1 + 4 + 4) with 13. rewrite Hs. cbn [mbind outcome_bind fst snd].
    rewrite (u32_small (n - 13)) by lia.
    assert (Hzr : zlen (chain_bytes rest) = zlen (chain_bytes c) - 13)
      by (rewrite Hb, zlen_drop; lia).
    destruct (cut_spec (n - 13) 0 rest) as (m & c' & Hcut & Hm & Hc'); [lia..|].
    rewrite Z.sub_0_r in Hm, Hc'. rewrite Hcut. cbn [mbind outcome_bind fst snd].
    assert (Hpm : chain_bytes (pre ++ m) = drop (Z.to_nat 13) (take (Z.to_nat n) (chain_bytes c))).
    { rewrite chain_bytes_app, Hpre, Hm, Hb, take_drop_commute. cbn [app]. do 2 f_equal. lia. }
    rewrite total_length_small; rewrite Hpm, zlen_drop, zlen_take by lia; [|lia].
    rewrite Z.max_r, u32_small by lia. rewrite (proj2 (Z.eqb_eq _ _)) by lia.
    eexists _, c'. split; [reflexivity|]. split; [done|].
    rewrite Hc', Hb, drop_drop. f_equal. lia.
  - destruct (cut_spec n 0 c) as (m & c' & Hcut & Hm & Hc'); [lia..|].
    rewrite Z.sub_0_r in Hm, Hc'. rewrite Hcut. cbn [mbind outcome_bind fst snd].
    rewrite total_length_small; rewrite Hm, zlen_take by lia; [|lia].
    rewrite Z.eqb_refl. eexists m, c'. by split.
Qed.

Lemma well_sized_received r n :
  sendable r n → well_sized (received r n) ∧ 4 + message_length r n < 2 ^ 32 + 4.
Proof.
  intros Hr. destruct (message_length_uint32 r n Hr) as [Hl _]. destruct Hr as [[? ?] _ _ Hd Hb].
  split; [|unfold uint32 in Hl; lia]. unfold well_sized, received, message_length in *.
  cbn [type record_length]. destruct (type r); try done; try specialize (Hd eq_refl);
    try specialize (Hb eq_refl); lia.
Qed.
End Framing.

Definition sample_fragments : list (list Z) :=
  [[0; 0; 0]; [12; 7; 0; 0; 0; 3; 0; 0]; [64; 0; 7]; [8; 9; 0]; [0; 0]].
Definition sample_received : BitTorrent_PeerRecord :=
  MkPeerRecord 12 BITTORRENT_MESSAGETYPE_PIECE [] 0 (MkTriple 3 16384 0).

Lemma record_frames_witness :
  (well_sized sample_received ∧ zlen (chain_bytes sample_fragments) < 2 ^ 32) ∧
  ∃ m c', record sample_received sample_fragments = Ok (Passed m c') ∧
    chain_bytes m = [7; 8; 9] ∧ chain_bytes c' = [0; 0; 0].
Proof.
  split; [by split|].
  exact (record_frames sample_received sample_fragments ltac:(by vm_compute) ltac:(done)
    ltac:(by vm_compute) ltac:(by vm_compute)).
Defined.
