(* ===== verification/BitTorrentSession.v ===== *)
(** * The session of a torrent (bittorrent_session.inl, bittorrent_network.h)

    The state that a session keeps of its peers and the handlers of what the peers send:
    choking, interest, the choice of the next block, uploads, completed pieces.  The
    handlers run one after the other, each to its end; what they send and whom they
    notify are the outputs. *)
From S2P Require Import Prelude Chars MessageBlock BitTorrentPieces BitTorrentChunks Platform.
From S2P Require Import BitTorrentFiles BitTorrentStore BitTorrentText BitTorrentWire.

(** struct BitTorrent_PeerStatus ([requesting_piece] is an [int]) *)
Record peer_status := PeerStatus {
  am_choking : bool;
  am_interested : bool;
  peer_choking : bool;
  peer_interested : bool;
  requesting_piece : Z
}.
Definition PeerStatus_init : peer_status := PeerStatus true false true false 0.

(** struct BitTorrent_PeerState *)
Record peer := Peer {
  peer_connections : list Z;
  peer_pieces : list Z;
  status : peer_status
}.
Definition PeerState_init : peer := Peer [] [] PeerStatus_init.

Inductive BitTorrent_Event :=
  | BITTORRENT_EVENT_CANCELLED
  | BITTORRENT_EVENT_COMPLETE
  | BITTORRENT_EVENT_NO_MORE_PEERS
  | BITTORRENT_EVENT_TRACKER_REREQUEST_PEERS
  | BITTORRENT_EVENT_TRACKER_REDIRECTED
  | BITTORRENT_EVENT_MAX
  | BITTORRENT_EVENT_INVALID.

#[export] Instance BitTorrent_MessageType_eq_dec : EqDecision BitTorrent_MessageType.
Proof. solve_decision. Defined.

(** [ACE_INET_Addr]: an IPv4 address, or the 16 bytes of an IPv6 address *)
Inductive inet_address :=
  | Inet4 (ip : Z)
  | Inet6 (bytes : list Z).

(** the calls of the event subscriber ([BitTorrent_ISessionProgress]) *)
Inductive progress :=
  | Log (text : string)
  | PieceComplete (index : Z)
  | Complete (cancelled : bool)
  | TrackerConnect (id : Z)
  | TrackerDisconnect (id : Z)
  | PeerConnect (id : Z)
  | PeerDisconnect (id : Z).

(** What a handler does to the outside: a message (with the data of a piece) or a
    handshake is sent on a connection, another connection is opened, the controller or
    the subscriber is notified, the connection of a tracker is aborted. *)
Inductive output (B : Type) :=
  | Send (id : Z) (r : BitTorrent_PeerRecord) (cont : list B)
  | SendHandShake (id : Z) (h : BitTorrent_PeerHandShake)
  | OpenConnection (a : inet_address)
  | NotifyController (name : string) (e : BitTorrent_Event) (text : string)
  | NotifySubscriber (p : progress)
  | AbortConnection (id : Z).
Arguments Send {B} id r cont.
Arguments SendHandShake {B} id h.
Arguments OpenConnection {B} a.
Arguments NotifyController {B} name e text.
Arguments NotifySubscriber {B} p.
Arguments AbortConnection {B} id.

(** What is outside, when an event is handled: the connections that the manager finds,
    with the address of their configuration, and with the peer address that [info ()]
    returns; whether [getConnectionAndMessage ()] works, and whether [send ()] does (it
    may throw); the random numbers for the piece and for the block. *)
Record environment := Environment {
  connection_address : Z → option inet_address;
  connection_info : Z → option inet_address;
  message_available : Z → bool;
  send_works : Z → bool;
  random_piece : Z → Z → Z;
  random_chunk : Z → Z → Z
}.

(** the configuration of the session, as far as it is used here *)
Record configuration (E : Type) := Configuration {
  metaInfoFileName : string;
  metaInfo : list (string * E);
  sendBitfieldAfterHandshake : bool;
  allowMultipleConnectionsPerPeer : bool;
  subscriber : bool
}.
Arguments metaInfoFileName {E} c.
Arguments metaInfo {E} c.
Arguments sendBitfieldAfterHandshake {E} c.
Arguments allowMultipleConnectionsPerPeer {E} c.
Arguments subscriber {E} c.

Definition BITTORRENT_DEFAULT_MAX_CONNECTIONS_PER_PEER : Z := 5.
Definition BITTORRENT_METAINFO_INFO_PIECES_KEY := "pieces".
Definition BITTORRENT_METAINFO_INFO_PIECE_LENGTH_KEY := "piece length".
Definition BITTORRENT_PRT_INFO_PIECE_HASH_SIZE : Z := 20.

Section Session.
Context {B FS E : Type} `{MessageBlock B} `{FileSystem FS} `{!FileStream FS} `{Bencoding E}.
Variable separator : string.
Variable download_directory : string.
(** [ACE::basename], and [Common_File_Tools::basename] without the extension *)
Variables basename file_basename : string → string.
Variable fileExtension : string → string.
Variable sort_identifiers : list string → list string.
Variable digitsBase10 : Z → Z.
Variable SHA1 : list Z → list Z.
Variable std_sort : list (chunk B) → list (chunk B).
Variable configuration_ : configuration E.
(** [state_.peerId], which is set once *)
Variable peerId : string.

(** struct BitTorrent_SessionState, as far as it is used here; [connections] is a set,
    in the order of the ids; [files] is the file system, [outputs] what has been done *)
Record session := Session {
  connections : list Z;
  connecting : bool;
  aborted : bool;
  pieces : list (piece B);
  peerState : gmap Z peer;
  trackerConnectionId : Z;
  files : FS;
  outputs : list (output B)
}.

Implicit Types (s : session) (p : peer) (env : environment).

Definition emit (o : output B) s : session :=
  Session (connections s) (connecting s) (aborted s) (pieces s) (peerState s)
    (trackerConnectionId s) (files s) (outputs s ++ [o]).
Definition set_peers (m : gmap Z peer) s : session :=
  Session (connections s) (connecting s) (aborted s) (pieces s) m
    (trackerConnectionId s) (files s) (outputs s).
Definition set_peer (a : Z) p s : session := set_peers (<[a := p]> (peerState s)) s.
Definition set_connections (l : list Z) s : session :=
  Session l (connecting s) (aborted s) (pieces s) (peerState s)
    (trackerConnectionId s) (files s) (outputs s).
Definition set_piece (i : Z) (q : piece B) s : session :=
  Session (connections s) (connecting s) (aborted s) (<[Z.to_nat i := q]> (pieces s))
    (peerState s) (trackerConnectionId s) (files s) (outputs s).
Definition set_files (fs : FS) s : session :=
  Session (connections s) (connecting s) (aborted s) (pieces s) (peerState s)
    (trackerConnectionId s) fs (outputs s).
Definition set_tracker (id : Z) s : session :=
  Session (connections s) (connecting s) (aborted s) (pieces s) (peerState s)
    id (files s) (outputs s).

Definition with_pieces (bits : list Z) p : peer := Peer (peer_connections p) bits (status p).
Definition with_connections (l : list Z) p : peer := Peer l (peer_pieces p) (status p).
Definition with_status (st : peer_status) p : peer :=
  Peer (peer_connections p) (peer_pieces p) st.
Definition set_am_choking (b : bool) (st : peer_status) : peer_status :=
  PeerStatus b (am_interested st) (peer_choking st) (peer_interested st) (requesting_piece st).
Definition set_am_interested (b : bool) (st : peer_status) : peer_status :=
  PeerStatus (am_choking st) b (peer_choking st) (peer_interested st) (requesting_piece st).
Definition set_peer_choking (b : bool) (st : peer_status) : peer_status :=
  PeerStatus (am_choking st) (am_interested st) b (peer_interested st) (requesting_piece st).
Definition set_peer_interested (b : bool) (st : peer_status) : peer_status :=
  PeerStatus (am_choking st) (am_interested st) (peer_choking st) b (requesting_piece st).
Definition set_requesting_piece (n : Z) (st : peer_status) : peer_status :=
  PeerStatus (am_choking st) (am_interested st) (peer_choking st) (peer_interested st) n.

Definition notify_subscriber (e : progress) s : session :=
  if subscriber configuration_ then emit (NotifySubscriber e) s else s.

(** [std::set::insert ()] and [erase ()] *)
Fixpoint insert_connection (id : Z) (l : list Z) : list Z :=
  match l with
  | [] => [id]
  | i :: l' => if id <? i then id :: l else i :: insert_connection id l'
  end.
Fixpoint remove_id (id : Z) (l : list Z) : list Z :=
  match l with
  | [] => []
  | i :: l' => if i =? id then l' else i :: remove_id id l'
  end.

Definition connectionIdToPeerAddress env (id_in : Z) : outcome Z :=
  ace_assert (negb (id_in =? 0));;
  match connection_address env id_in with
  | None => Ok 0
  | Some (Inet4 ip) => Ok ip
  | Some (Inet6 data_p) =>
      a ← deref (data_p !! 0%nat); b ← deref (data_p !! 5%nat);
      c ← deref (data_p !! 9%nat); d ← deref (data_p !! 13%nat);
      Ok (u32 (Z.lor (Z.lor (Z.lor a (Z.shiftl b 8)) (Z.shiftl c 16)) (Z.shiftl d 24)))
  end.

(** [peerState.find ()], with the assertion that there is such a peer *)
Definition find_peer (a : Z) s : outcome peer :=
  match peerState s !! a with Some p => Ok p | None => Abort end.
Definition update_status (a : Z) (f : peer_status → peer_status) s : outcome session :=
  p ← find_peer a s; Ok (set_peer a (with_status (f (status p)) p) s).

(** ** Sending

    [getConnectionAndMessage ()] and [send ()] of one record, the way that [choke ()] and
    its like do; a record that cannot be sent is dropped *)
Definition send_record env (id_in : Z) (r : BitTorrent_PeerRecord) s : outcome session :=
  ace_assert (negb (id_in =? 0));;
  Ok (if message_available env id_in && send_works env id_in then emit (Send id_in r []) s
      else s).

Definition choke env (id_in : Z) (choke_in : bool) s : outcome session :=
  send_record env id_in
    (set_type (if choke_in then BITTORRENT_MESSAGETYPE_CHOKE
               else BITTORRENT_MESSAGETYPE_UNCHOKE) (new_record 0)) s.

Definition interested env (id_in : Z) (interested_in : bool) s : outcome session :=
  send_record env id_in
    (set_type (if interested_in then BITTORRENT_MESSAGETYPE_INTERESTED
               else BITTORRENT_MESSAGETYPE_NOT_INTERESTED) (new_record 0)) s.

Definition request env (id_in index_in begin_in length_in : Z) s : outcome session :=
  ace_assert (negb (id_in =? 0));;
  ace_assert (negb (length_in =? 0));;
  send_record env id_in
    (BitTorrentWire.set_block (MkTriple index_in begin_in length_in)
       (set_type BITTORRENT_MESSAGETYPE_REQUEST (new_record 0))) s.

(** to all connections but that of the tracker; a record that cannot be allocated is
    skipped, a failure to send ends the loop *)
Fixpoint have_loop env (index_in : Z) (ids : list Z) s : outcome session :=
  match ids with
  | [] => Ok s
  | id :: ids' =>
      if id =? trackerConnectionId s then have_loop env index_in ids' s
      else
        ace_assert (negb (id =? 0));;
        if negb (message_available env id) then have_loop env index_in ids' s
        else if negb (send_works env id) then Ok s
        else
          have_loop env index_in ids'
            (emit (Send id (set_have index_in
                     (set_type BITTORRENT_MESSAGETYPE_HAVE (new_record 0))) []) s)
  end.
Definition have_ env (index_in : Z) s : outcome session :=
  have_loop env index_in (connections s) s.

(** ** Uploads *)

(** the search of the chunk: the loop runs until an offset is not below [begin_in], and
    goes one back if it is above; past the end of the vector it is undefined *)
Fixpoint find_chunk (begin_in : Z) (previous : option (chunk B)) (cs : list (chunk B)) :
    outcome (chunk B * list (chunk B)) :=
  match cs with
  | [] => Undef
  | c :: cs' =>
      if offset c <? begin_in then find_chunk begin_in (Some c) cs'
      else if begin_in <? offset c then
        c' ← deref previous; Ok (c', cs)
      else Ok (c, cs')
  end.

(** one chain of the loop: the blocks that are taken, and the bytes still missing *)
Fixpoint take_chain (missing_bytes : Z) (d : list B) : list B * Z :=
  match d with
  | [] => ([], missing_bytes)
  | b :: d' =>
      if missing_bytes <=? block_length b then ([mb_set_length missing_bytes b], 0)
      else
        let '(r, m) := take_chain (missing_bytes -u u32 (block_length b)) d' in
        (b :: r, m)
  end.
Fixpoint take_chunks (missing_bytes : Z) (d : list B) (cs : list (chunk B)) :
    outcome (list B) :=
  let '(r, m) := take_chain missing_bytes d in
  if m =? 0 then Ok r
  else
    match cs with
    | [] => Abort
    | c :: cs' =>
        d' ← deref (data c);
        r' ← take_chunks m d' cs';
        Ok (r ++ r')
    end.

Definition attach_chunk (cs : list (chunk B)) (begin_in length_in : Z) : outcome (list B) :=
  '(c, cs') ← find_chunk begin_in None cs;
  d ← deref (data c);
  ace_assert ((offset c <=? begin_in) && (begin_in <? u64 (offset c + total_length d)));;
  match d with
  | [] => Undef
  | b :: d' =>
      let offset_ := begin_in -u offset c in
      ace_assert (offset_ <? block_length b);;
      r ← take_chunks length_in (mb_rd_ptr offset_ b :: d') cs';
      ace_assert (total_length r =? length_in);;
      Ok r
  end.

(** the pieces, after a piece on disk has been loaded; [None] is the jump to [error] *)
Definition piece_to_send (index_in : Z) s : outcome (session * option (piece B)) :=
  q ← deref (pieces s !! Z.to_nat index_in);
  if onDisk q then
    '(q', loaded) ← loadPiece separator download_directory basename fileExtension
                      sort_identifiers (metaInfoFileName configuration_) index_in q (files s);
    Ok (set_piece index_in q' s, if loaded : bool then Some q' else None)
  else
    complete ← isPieceComplete (BitTorrentPieces.length_ q) (chunks q);
    Ok (s, if complete : bool then Some q else None).

Definition piece_ env (id_in index_in begin_in length_in : Z) s : outcome session :=
  ace_assert (negb (id_in =? 0));;
  ace_assert (negb (length_in =? 0));;
  if negb (message_available env id_in) then Ok s
  else
    '(s, q) ← piece_to_send index_in s;
    match q with
    | None => Ok s
    | Some q =>
        cont ← attach_chunk (chunks q) begin_in length_in;
        Ok (if send_works env id_in then
              emit (Send id_in
                (BitTorrentWire.set_block (MkTriple index_in begin_in 0)
                   (set_type BITTORRENT_MESSAGETYPE_PIECE (new_record 0))) cont) s
            else s)
    end.

(** ** The next block *)

(** the loop over the pieces that the peer does not have *)
Fixpoint doesnt_have (i : Z) (n : nat) (bits : list Z) : outcome (list Z) :=
  match n with
  | O => Ok []
  | S n' =>
      h ← havePiece i bits;
      rest ← doesnt_have (i +u 1) n' bits;
      Ok (if h : bool then rest else i :: rest)
  end.

(** struct net_bittorrent_piece_index_remove_predicate *)
Definition piece_index_remove_predicate (index_in : Z) (array_in : list Z) : bool :=
  bool_decide (index_in ∈ array_in).

(** the index of the piece and the block of it that is requested *)
Definition choose_block env (bits : list Z) s : outcome (Z * BitTorrentChunks.request) :=
  ace_assert (negb (bool_decide (pieces s = [])));;
  missing_pieces_a ← getPieceIndexes (pieces s) true;
  doesnt_have_a ← doesnt_have 0 (length (pieces s)) bits;
  let missing_pieces_a :=
    filter (λ i, piece_index_remove_predicate i doesnt_have_a = false) missing_pieces_a in
  ace_assert (negb (bool_decide (missing_pieces_a = [])));;
  index_i ← deref (missing_pieces_a !!
                     Z.to_nat (random_piece env 0 (zlen missing_pieces_a - 1)));
  q ← deref (pieces s !! Z.to_nat index_i);
  missing_chunks_a ← getMissingChunks (BitTorrentPieces.length_ q) (chunks q);
  ace_assert (negb (bool_decide (missing_chunks_a = [])));;
  r ← deref (missing_chunks_a !! Z.to_nat (random_chunk env 0 (zlen missing_chunks_a - 1)));
  Ok (u32 index_i, r).

Definition requestNextPiece env (id_in : Z) s : outcome (session * bool) :=
  peer_address_i ← connectionIdToPeerAddress env id_in;
  p ← find_peer peer_address_i s;
  has_missing ← hasMissingPiece (pieces s) (peer_pieces p);
  if negb has_missing then
    let s := set_peer peer_address_i (with_status (set_am_interested false (status p)) p) s in
    s ← interested env id_in false s;
    Ok (s, false)
  else
    '(index_i, r) ← choose_block env (peer_pieces p) s;
    s ← request env id_in index_i (BitTorrentChunks.begin_ r) (req_length r) s;
    Ok (s, true).

(** a request, counted if there is one *)
Definition request_and_count env (peer_address_i id_in : Z) s : outcome session :=
  '(s, requesting_piece_b) ← requestNextPiece env id_in s;
  if requesting_piece_b : bool then
    update_status peer_address_i
      (λ st, set_requesting_piece (requesting_piece st + 1) st) s
  else Ok s.

(** ** Peers come and go *)

(** the bit of a piece, most significant bit first *)
Definition set_bit (bits : list Z) (i : Z) : outcome (list Z) :=
  b ← deref (bits !! Z.to_nat (i `div` 8));
  Ok (<[Z.to_nat (i `div` 8) := u8 (Z.lor b (Z.shiftr 0x80 (i `mod` 8)))]> bits).
Fixpoint set_bits (bits : list Z) (js : list Z) : outcome (list Z) :=
  match js with
  | [] => Ok bits
  | j :: js' => bits' ← set_bit bits j; set_bits bits' js'
  end.

Definition populatePeerPiecesBitfield env (id_in : Z) s : outcome session :=
  peer_address_i ← connectionIdToPeerAddress env id_in;
  p ← find_peer peer_address_i s;
  ace_assert (bool_decide (peer_pieces p = []));;
  info ← expect (find_key BITTORRENT_METAINFO_INFO_KEY (metaInfo configuration_))
           BENCODING_TYPE_DICTIONARY;
  hashes ← expect (find_key BITTORRENT_METAINFO_INFO_PIECES_KEY (be_dictionary info))
             BENCODING_TYPE_STRING;
  let size := Z.of_nat (String.length (be_string hashes)) in
  ace_assert (size `mod` BITTORRENT_PRT_INFO_PIECE_HASH_SIZE =? 0);;
  let pieces_ := u32 size `div` BITTORRENT_PRT_INFO_PIECE_HASH_SIZE in
  let indices_i := pieces_ `div` 8 in
  let indices_2 := pieces_ `mod` 8 in
  Ok (set_peer peer_address_i
        (with_pieces (replicate (Z.to_nat (if indices_2 =? 0 then indices_i
                                           else indices_i +u 1)) 0) p) s).

(** [inherited::connect ()] and [inherited::disconnect ()] (net_session_base.inl) *)
Definition base_connect (id_in : Z) s : outcome session :=
  ace_assert (bool_decide (id_in ∉ connections s));;
  Ok (set_connections (insert_connection id_in (connections s)) s).
Definition base_disconnect (id_in : Z) s : outcome session :=
  ace_assert (bool_decide (id_in ∈ connections s));;
  Ok (set_connections (remove_id id_in (connections s)) s).

(** the bitfield after the handshake, [None] when there is nothing to send *)
Definition bitfield_to_send s : outcome (option (list Z)) :=
  piece_indexes_a ← getPieceIndexes (pieces s) false;
  if negb (bool_decide (piece_indexes_a = [])) && sendBitfieldAfterHandshake configuration_
  then bits ← set_bits (replicate (length (pieces s)) 0) piece_indexes_a; Ok (Some bits)
  else Ok None.

(** The message of the bitfield is allocated when that of the handshake could be. *)
Definition connect env (id_in : Z) s : outcome session :=
  s ← base_connect id_in s;
  peer_address_i ← connectionIdToPeerAddress env id_in;
  let p := default PeerState_init (peerState s !! peer_address_i) in
  let s := set_peer peer_address_i (with_connections (peer_connections p ++ [id_in]) p) s in
  s ← (if bool_decide (peer_pieces p = []) then populatePeerPiecesBitfield env id_in s
       else Ok s);
  hash ← MetaInfoToInfoHash SHA1 (metaInfo configuration_);
  if negb (message_available env id_in && send_works env id_in) then Ok s
  else
    let s := emit (SendHandShake id_in
               (MkHandShake BITTORRENT_PEER_HANDSHAKE_PSTR_STRING (replicate 8 0)
                  (bytes_string hash) peerId)) s in
    bits ← bitfield_to_send s;
    match bits with
    | None => Ok (notify_subscriber (PeerConnect id_in) s)
    | Some bits =>
        let r := MkPeerRecord 0 BITTORRENT_MESSAGETYPE_BITFIELD bits 0 (MkTriple 0 0 0) in
        Ok (notify_subscriber (PeerConnect id_in) (emit (Send id_in r []) s))
    end.

Definition disconnect env (id_in : Z) s : outcome session :=
  peer_address_i ← connectionIdToPeerAddress env id_in;
  s ← base_disconnect id_in s;
  p ← find_peer peer_address_i s;
  ace_assert (bool_decide (id_in ∈ peer_connections p));;
  let l := remove_id id_in (peer_connections p) in
  let s := if bool_decide (l = []) then set_peers (delete peer_address_i (peerState s)) s
           else set_peer peer_address_i (with_connections l p) s in
  let s := if bool_decide (connections s = []) && negb (connecting s)
           then emit (NotifyController (file_basename (metaInfoFileName configuration_))
                        BITTORRENT_EVENT_NO_MORE_PEERS "") s
           else s in
  Ok (notify_subscriber (PeerDisconnect id_in) s).

(** ** What the peers send *)
Definition notify_choke (peer_address_i : Z) s : outcome session :=
  update_status peer_address_i (set_am_choking true) s.

Definition notify_unchoke env (peer_address_i id_in : Z) s : outcome session :=
  s ← update_status peer_address_i (set_am_choking false) s;
  p ← find_peer peer_address_i s;
  if (1 <? zlen (peer_connections p)) || negb (bool_decide (peer_pieces p = []))
  then request_and_count env peer_address_i id_in s
  else Ok s.

Definition notify_interested env (peer_address_i id_in : Z) s : outcome session :=
  s ← update_status peer_address_i
        (λ st, set_peer_choking false (set_peer_interested true st)) s;
  choke env id_in false s.

Definition notify_not_interested (peer_address_i : Z) s : outcome session :=
  update_status peer_address_i (set_peer_interested false) s.

(** 'interested' is sent when the peer has a piece that is missing, unless it has been *)
Definition send_interested env (peer_address_i id_in : Z) (has_missing_piece_b : bool) s :
    outcome session :=
  p ← find_peer peer_address_i s;
  if negb (am_interested (status p)) && has_missing_piece_b then
    interested env id_in true
      (set_peer peer_address_i (with_status (set_am_interested true (status p)) p) s)
  else Ok s.

Definition open_another env (id_in : Z) p s : session :=
  if allowMultipleConnectionsPerPeer configuration_ &&
     (u32 (zlen (peer_connections p)) <? BITTORRENT_DEFAULT_MAX_CONNECTIONS_PER_PEER)
  then match connection_info env id_in with
       | None => s
       | Some a => emit (OpenConnection a) s
       end
  else s.

Definition notify_have env (peer_address_i id_in have_in : Z) s : outcome session :=
  p ← find_peer peer_address_i s;
  bits ← set_bit (peer_pieces p) have_in;
  let s := set_peer peer_address_i (with_pieces bits p) s in
  has_missing_piece_b ← hasMissingPiece (pieces s) bits;
  s ← send_interested env peer_address_i id_in has_missing_piece_b s;
  p ← find_peer peer_address_i s;
  if negb (am_choking (status p)) && (requesting_piece (status p) =? 0) &&
     has_missing_piece_b
  then request_and_count env peer_address_i id_in s
  else if negb (am_choking (status p)) && has_missing_piece_b
  then Ok (open_another env id_in p s)
  else Ok s.

(** [hasMissingPiece ()] is only called if 'interested' has not been sent. *)
Definition notify_bitfield env (peer_address_i id_in : Z) (bits : list Z) s :
    outcome session :=
  p ← find_peer peer_address_i s;
  let s := set_peer peer_address_i (with_pieces bits p) s in
  if am_interested (status p) then Ok s
  else
    has_missing_piece_b ← hasMissingPiece (pieces s) bits;
    send_interested env peer_address_i id_in has_missing_piece_b s.

Definition notify_request env (peer_address_i id_in : Z) (t : block_triple) s :
    outcome session :=
  p ← find_peer peer_address_i s;
  if peer_choking (status p) then Ok s
  else piece_ env id_in (index t) (begin t) (BitTorrentText.length_ t) s.

(** a piece whose chunks are complete: it is checked and saved, and the files are
    assembled if it was the last one; whether it is announced, and whether the torrent
    is complete.  A failure to save or to assemble fails an assertion. *)
Definition piece_completed (index_in : Z) (q : piece B) s :
    outcome (session * bool * bool) :=
  valid ← validatePieceHash SHA1 q;
  if negb valid then
    cs ← freeChunks (chunks q);
    Ok (set_piece index_in
          (Piece cs (filename q) (hash q) (BitTorrentPieces.length_ q) (onDisk q)) s,
        false, false)
  else
    '(fs, q', saved) ← savePiece separator download_directory digitsBase10
                         (basename (metaInfoFileName configuration_))
                         (u32 (zlen (pieces s))) index_in q (files s);
    ace_assert saved;;
    let s := notify_subscriber (PieceComplete index_in)
               (set_files fs (set_piece index_in q' s)) in
    missing ← isMissingPiece (pieces s);
    if missing : bool then Ok (s, true, false)
    else
      '(fs, assembled) ← assembleFiles separator download_directory fileExtension
                           sort_identifiers (basename (metaInfoFileName configuration_))
                           (metaInfo configuration_) (files s);
      ace_assert assembled;;
      Ok (set_files fs s, true, true).

(** the chunk is added to its piece, unless that is complete *)
Definition add_block (t : block_triple) (messageBlock_in : list B) s :
    outcome (session * bool * bool) :=
  q ← deref (pieces s !! Z.to_nat (index t));
  complete ← (if onDisk q then Ok true
              else isPieceComplete (BitTorrentPieces.length_ q) (chunks q));
  if complete : bool then Ok (s, false, false)
  else
    cs ← sanitizeChunks std_sort (chunks q ++ [Chunk (Some messageBlock_in) (begin t)]);
    let q := Piece cs (filename q) (hash q) (BitTorrentPieces.length_ q) (onDisk q) in
    let s := set_piece (index t) q s in
    complete ← isPieceComplete (BitTorrentPieces.length_ q) (chunks q);
    if negb complete then Ok (s, false, false) else piece_completed (index t) q s.

Definition notify_piece env (peer_address_i id_in : Z) (t : block_triple)
    (messageBlock_in : list B) s : outcome session :=
  '(s, send_have_b, notify_completion_b) ← add_block t messageBlock_in s;
  p ← find_peer peer_address_i s;
  let request_next_piece_b := negb (am_choking (status p) || notify_completion_b) in
  s ← (if send_have_b : bool then have_ env (index t) s else Ok s);
  s ← update_status peer_address_i
        (λ st, set_requesting_piece (requesting_piece st - 1) st) s;
  s ← (if request_next_piece_b then request_and_count env peer_address_i id_in s else Ok s);
  Ok (if notify_completion_b : bool then
        emit (NotifyController (metaInfoFileName configuration_) BITTORRENT_EVENT_COMPLETE "")
          (notify_subscriber (Complete false) s)
      else s).

Definition notify_record env (peer_address_i id_in : Z) (r : BitTorrent_PeerRecord)
    (messageBlock_in : option (list B)) s : outcome session :=
  match type r with
  | BITTORRENT_MESSAGETYPE_CHOKE => notify_choke peer_address_i s
  | BITTORRENT_MESSAGETYPE_UNCHOKE => notify_unchoke env peer_address_i id_in s
  | BITTORRENT_MESSAGETYPE_INTERESTED => notify_interested env peer_address_i id_in s
  | BITTORRENT_MESSAGETYPE_NOT_INTERESTED => notify_not_interested peer_address_i s
  | BITTORRENT_MESSAGETYPE_HAVE => notify_have env peer_address_i id_in (have r) s
  | BITTORRENT_MESSAGETYPE_BITFIELD => notify_bitfield env peer_address_i id_in (bitfield r) s
  | BITTORRENT_MESSAGETYPE_REQUEST => notify_request env peer_address_i id_in (block r) s
  | BITTORRENT_MESSAGETYPE_PIECE =>
      match messageBlock_in with
      | None => Abort
      | Some d => notify_piece env peer_address_i id_in (block r) d s
      end
  | _ => Ok s
  end.

Definition notify env (id_in : Z) (r : BitTorrent_PeerRecord)
    (messageBlock_in : option (list B)) s : outcome session :=
  let s := notify_subscriber
             (Log (if bool_decide (type r = BITTORRENT_MESSAGETYPE_PIECE) then "."
                   else RecordToString r)) s in
  peer_address_i ← connectionIdToPeerAddress env id_in;
  if record_length r =? 0 then Ok s
  else notify_record env peer_address_i id_in r messageBlock_in s.

(** ** The tracker *)

(** [TRACKER_CONNECTION_MANAGER..->get ()] finds the connection, or not *)
Definition trackerConnect (found : bool) (id_in : Z) s : outcome session :=
  let s := if negb (trackerConnectionId s =? 0) && found
           then emit (AbortConnection (trackerConnectionId s)) s else s in
  s ← base_connect id_in (set_tracker id_in s);
  Ok (notify_subscriber (TrackerConnect id_in) s).

Definition trackerDisconnect (id_in : Z) s : outcome session :=
  s ← base_disconnect id_in s;
  let s := if trackerConnectionId s =? id_in then set_tracker 0 s else s in
  event_e ←
    (if aborted s then Ok (Some BITTORRENT_EVENT_CANCELLED)
     else
       missing ← isMissingPiece (pieces s);
       Ok (if (missing : bool) && bool_decide (connections s = []) && negb (connecting s)
           then Some BITTORRENT_EVENT_NO_MORE_PEERS else None));
  let s := match event_e with
           | Some e => emit (NotifyController (metaInfoFileName configuration_) e "") s
           | None => s
           end in
  Ok (notify_subscriber (TrackerDisconnect id_in) s).

Definition trackerRedirect (location_in : string) s : session :=
  emit (NotifyController (metaInfoFileName configuration_)
          BITTORRENT_EVENT_TRACKER_REDIRECTED location_in) s.
Definition trackerError s : session :=
  emit (NotifyController (metaInfoFileName configuration_) BITTORRENT_EVENT_CANCELLED "")
    (notify_subscriber (Complete true) s).

Definition numberOfPieces s : Z := u32 (zlen (pieces s)).
Definition isComplete s : outcome bool := negb <$> isMissingPiece (pieces s).

(** ** Initialization

    the loop over the hashes of the pieces: [getTempFilename ()] yields the names *)
Fixpoint make_pieces (total_length_in piece_length : Z) (names : list string)
    (hashes : list (list Z)) : outcome (list (piece B)) :=
  match hashes with
  | [] => Ok []
  | h :: hashes' =>
      name ← deref (head names);
      ace_assert (negb (bool_decide (name = "")));;
      l ← (if bool_decide (hashes' = []) then
             if piece_length =? 0 then Undef else Ok (total_length_in `mod` piece_length)
           else Ok piece_length);
      let l := if l =? 0 then piece_length else l in
      rest ← make_pieces total_length_in piece_length (tail names) hashes';
      Ok (Piece [] name h l false :: rest)
  end.

(** the string of the hashes, 20 bytes each; at most as many as there are bytes *)
Fixpoint split_hashes (fuel : nat) (bytes : list Z) : list (list Z) :=
  match fuel with
  | O => []
  | S fuel' =>
      if bool_decide (bytes = []) then []
      else take 20 bytes :: split_hashes fuel' (drop 20 bytes)
  end.

(** the pieces, as far as [loadPieces ()] finds them on disk; the subscriber is notified
    of those whose chunks are in memory *)
Definition initialize (names : list string) (s : session) : outcome (session * bool) :=
  info ← expect (find_key BITTORRENT_METAINFO_INFO_KEY (metaInfo configuration_))
           BENCODING_TYPE_DICTIONARY;
  hashes ← expect (find_key BITTORRENT_METAINFO_INFO_PIECES_KEY (be_dictionary info))
             BENCODING_TYPE_STRING;
  let piece_hashes := string_bytes (be_string hashes) in
  ace_assert (zlen piece_hashes `mod` BITTORRENT_PRT_INFO_PIECE_HASH_SIZE =? 0);;
  n ← expect (find_key BITTORRENT_METAINFO_INFO_PIECE_LENGTH_KEY (be_dictionary info))
        BENCODING_TYPE_INTEGER;
  total_length_ ← MetaInfoToLength (metaInfo configuration_);
  new ← make_pieces total_length_ (u32 (be_integer n)) names
          (split_hashes (length piece_hashes) piece_hashes);
  '(loaded, ok) ← loadPieces separator download_directory basename fileExtension
                    sort_identifiers (metaInfoFileName configuration_)
                    (pieces s ++ new) false (files s);
  let s := Session (connections s) (connecting s) (aborted s) loaded (peerState s)
             (trackerConnectionId s) (files s) (outputs s) in
  if negb ok then Ok (s, false)
  else
    Ok (foldl (λ s e, if bool_decide (chunks e.2 = []) then s
                      else notify_subscriber (PieceComplete e.1) s)
          s (zip (Z.of_nat <$> seq 0 (length loaded)) loaded), true).
End Session.

Arguments session B FS : clear implicits.
