(* ===== verification/BitTorrentExchange.v ===== *)
(** * Exchanging blocks with peers (bittorrent_session.inl)

    What the handlers of [BitTorrentSession] achieve: the block that is requested next,
    the bitfield after the handshake, what becomes of a completed piece, what is
    uploaded, and what a peer can provoke. *)
From S2P Require Import Prelude MessageBlock BitTorrentPieces BitTorrentChunks Platform.
From S2P Require Import BitTorrentFiles BitTorrentStore BitTorrentText BitTorrentWire BitTorrentSession.

(** ** The next block *)
Lemma tiles_in rs a b r :
  tiles rs a b → r ∈ rs →
  a <= BitTorrentChunks.begin_ r ∧
  0 < req_length r <= BITTORRENT_PEER_REQUEST_BLOCK_LENGTH_MAX ∧
  BitTorrentChunks.begin_ r + req_length r <= b.
Proof.
  revert a. induction rs as [|r' rs IH]; intros a Ht Hr; [by apply elem_of_nil in Hr|].
  destruct Ht as (<- & Hl & Ht). pose proof (tiles_le _ _ _ Ht).
  apply elem_of_cons in Hr as [->|Hr]; [lia|]. destruct (IH _ Ht Hr) as (? & ? & ?). lia.
Qed.

Section Choice.
Context {B FS : Type} `{MessageBlock B}.
Implicit Types (s : session B FS) (q : piece B) (env : environment).

(** a piece that is being received *)
Definition receiving q : Prop :=
  0 < BitTorrentPieces.length_ q < 2 ^ 32 ∧
  Forall (chunk_in (BitTorrentPieces.length_ q)) (chunks q) ∧ disjoint_chunks (chunks q).
Definition pieces_ok (ps : list (piece B)) : Prop :=
  Z.of_nat (length ps) < 2 ^ 32 ∧ well_fed ps ∧
  Forall (λ q, onDisk q = false → receiving q) ps.

(** [getRandomNumber (low, high)] is between its bounds *)
Definition random_ok env : Prop :=
  ∀ h, 0 <= h → 0 <= random_piece env 0 h <= h ∧ 0 <= random_chunk env 0 h <= h.

(** the peer has told that it has a piece that is missing here *)
Definition wanted (ps : list (piece B)) (bits : list Z) (i : nat) : Prop :=
  ∃ q, ps !! i = Some q ∧ piece_done q = false ∧ advertised bits i = true.

Lemma doesnt_have_spec bits n : ∀ k,
  (k + n <= 8 * length bits)%nat → Z.of_nat (k + n) < 2 ^ 32 →
  ∃ l, doesnt_have (Z.of_nat k) n bits = Ok l ∧
    ∀ i, Z.of_nat i ∈ l ↔ (k <= i < k + n)%nat ∧ advertised bits i = false.
Proof.
  induction n as [|n IH]; intros k Hk Hb; cbn [doesnt_have].
  { exists []. split; [done|]. intros i. rewrite elem_of_nil. lia. }
  rewrite havePiece_spec by lia. cbn. rewrite (u32_succ k n) by lia.
  destruct (IH (S k)) as (l & -> & Hl); [lia..|]. cbn.
  eexists; split; [reflexivity|]. intros i.
  destruct (decide (i = k)) as [->|Hne].
  - destruct (advertised bits k) eqn:E; rewrite ?elem_of_cons, Hl; [|naive_solver lia].
    split; [lia|intros [_ ?]; done].
  - destruct (advertised bits k); rewrite ?elem_of_cons, Hl; [intuition lia|].
    split; [intros [?|?]; [lia|intuition lia]|intros [??]; right; intuition lia].
Qed.

Lemma in_range_lookup {A} (l : list A) z :
  l ≠ [] → 0 <= z <= zlen l - 1 → ∃ x, l !! Z.to_nat z = Some x ∧ x ∈ l.
Proof.
  intros _ Hz. destruct (lookup_lt_is_Some_2 l (Z.to_nat z)) as [x Hx].
  { unfold zlen in Hz. lia. }
  exists x. split; [done|]. by eapply list_elem_of_lookup_2.
Qed.

(** a missing block of a piece that is being received *)
Lemma missing_block q :
  receiving q → have_data (chunks q) → onDisk q = false → piece_done q = false →
  ∃ rs, getMissingChunks (BitTorrentPieces.length_ q) (chunks q) = Ok rs ∧ rs ≠ [] ∧
    tiles rs (contiguous_from 0 (chunks q)) (BitTorrentPieces.length_ q).
Proof.
  intros (Hl & Hin & Hdis) Hdata Hdisk Hdone.
  destruct (getMissingChunks_tiles (BitTorrentPieces.length_ q) (chunks q))
    as (rs & Hrs & Ht); [lia|done..|].
  exists rs. split_and!; try done. intros ->.
  assert (Hc : isPieceComplete (BitTorrentPieces.length_ q) (chunks q) = Ok true)
    by (apply complete_no_missing; done || lia).
  pose proof (piece_done_step q Hdata) as Hd. rewrite Hdisk, Hdone, Hc in Hd. done.
Qed.
End Choice.

Section ChooseBlock.
Context {B FS : Type} `{MessageBlock B}.
Implicit Types (s : session B FS) (q : piece B) (env : environment).

(** the pieces that are chosen from *)
Lemma candidates_spec bits s :
  pieces_ok (pieces s) → (length (pieces s) <= 8 * length bits)%nat →
  ∃ lm ld, getPieceIndexes (pieces s) true = Ok lm ∧
    doesnt_have 0 (length (pieces s)) bits = Ok ld ∧
    ∀ z, z ∈ filter (λ i, piece_index_remove_predicate i ld = false) lm ↔
         ∃ i, z = Z.of_nat i ∧ wanted (pieces s) bits i.
Proof.
  intros (Hn & Hfed & _) Hbits.
  destruct (getPieceIndexes_loop_spec (pieces s) true 0 Hfed) as (lm & Hlm & _ & Hm); [done|].
  destruct (doesnt_have_spec bits (length (pieces s)) 0) as (ld & Hld & Hd); [lia..|].
  exists lm, ld. split; [done|]. split; [done|].
  intros z. rewrite list_elem_of_filter, Hm. unfold piece_index_remove_predicate.
  rewrite bool_decide_eq_false. split.
  - intros [Hz (i & q & -> & Hi & Hq)]. exists i. split; [done|]. exists q.
    split_and!; try done. apply lookup_lt_Some in Hi.
    destruct (advertised bits i) eqn:E; [done|]. exfalso. apply Hz, Hd. split; [lia|done].
  - intros (i & -> & q & Hi & Hq & Ha). split; [|by exists i, q].
    intros [_ Hf]%Hd. congruence.
Qed.

Lemma random_element {A} (l : list A) (f : Z → Z) :
  l ≠ [] → (∀ h, 0 <= h → 0 <= f h <= h) →
  ∃ x, l !! Z.to_nat (f (zlen l - 1)) = Some x ∧ x ∈ l.
Proof.
  intros Hne Hf. assert (0 <= zlen l - 1) by (destruct l; [done|unfold zlen; cbn [length]; lia]).
  by apply in_range_lookup, Hf.
Qed.

Lemma choose_block_spec env bits s :
  pieces_ok (pieces s) → (length (pieces s) <= 8 * length bits)%nat → random_ok env →
  (∃ i, wanted (pieces s) bits i) →
  ∃ i q r, choose_block env bits s = Ok (Z.of_nat i, r) ∧
    wanted (pieces s) bits i ∧ pieces s !! i = Some q ∧
    contiguous_from 0 (chunks q) <= BitTorrentChunks.begin_ r ∧
    0 < req_length r <= BITTORRENT_PEER_REQUEST_BLOCK_LENGTH_MAX ∧
    BitTorrentChunks.begin_ r + req_length r <= BitTorrentPieces.length_ q.
Proof.
  intros Hok Hbits Hrandom [i0 Hi0].
  destruct (candidates_spec bits s Hok Hbits) as (lm & ld & Hlm & Hld & Hl).
  destruct Hok as (Hn & Hfed & Hrec). unfold choose_block.
  rewrite bool_decide_false by (intros Hnil; destruct Hi0 as (? & Hi0 & _); by rewrite Hnil in Hi0).
  cbn [negb ace_assert mbind outcome_bind]. rewrite Hlm. cbn [mbind outcome_bind].
  rewrite Hld. cbn [mbind outcome_bind].
  set (l := filter _ lm) in Hl |- *.
  assert (Hne : l ≠ []).
  { intros Hnil. apply (elem_of_nil (Z.of_nat i0)). rewrite <- Hnil. apply Hl. by exists i0. }
  rewrite bool_decide_false by done. cbn [negb ace_assert mbind outcome_bind].
  destruct (random_element l (random_piece env 0) Hne) as (z & Hz & Hin);
    [intros; by apply Hrandom|].
  rewrite Hz. cbn [deref from_option mbind outcome_bind].
  apply Hl in Hin as (i & -> & Hwi). pose proof Hwi as (q & Hi & Hq & Ha).
  rewrite Nat2Z.id, Hi. cbn [deref from_option mbind outcome_bind].
  assert (Hdisk : onDisk q = false) by (unfold piece_done in Hq; by destruct (onDisk q)).
  destruct (missing_block q) as (rs & -> & Hrs & Ht); try done.
  { rewrite Forall_lookup in Hrec. by eapply Hrec. }
  { unfold well_fed in Hfed. rewrite Forall_lookup in Hfed. by eapply Hfed. }
  cbn [mbind outcome_bind]. rewrite bool_decide_false by done.
  cbn [negb ace_assert mbind outcome_bind].
  destruct (random_element rs (random_chunk env 0) Hrs) as (r & Hr & Hrin);
    [intros; by apply Hrandom|].
  rewrite Hr. cbn. apply lookup_lt_Some in Hi as Hlt.
  exists i, q, r. rewrite u32_small by lia. split; [done|]. split; [done|]. split; [done|].
  by eapply tiles_in.
Qed.
End ChooseBlock.

(** ** Bits of a bitfield *)
Section Bits.
Implicit Types (bits js : list Z).

Lemma advertised_insert bits i j b :
  (i / 8 < length bits)%nat → bits !! (i / 8)%nat = Some b →
  advertised (<[(i / 8)%nat := u8 (Z.lor b (Z.shiftr 0x80 (Z.of_nat i `mod` 8)))]> bits) j =
  advertised bits j || bool_decide (i = j).
Proof.
  intros Hi Hb. unfold advertised.
  assert (Hmod : 0 <= Z.of_nat i `mod` 8 < 8) by (apply Z.mod_pos_bound; lia).
  assert (Hmodj : 0 <= Z.of_nat j `mod` 8 < 8) by (apply Z.mod_pos_bound; lia).
  assert (Hshift : ∀ k, 0 <= k < 8 → Z.shiftr 0x80 k = 2 ^ (7 - k)).
  { intros k Hk. assert (k = 0 ∨ k = 1 ∨ k = 2 ∨ k = 3 ∨ k = 4 ∨ k = 5 ∨ k = 6 ∨ k = 7)
      as Hc by lia. by destruct_or! Hc; subst. }
  rewrite Hshift by done. destruct (decide (j / 8 = i / 8)%nat) as [Heq|Hne].
  - rewrite Heq, (nth_lookup_Some bits (i / 8)%nat 0 b Hb).
    rewrite (nth_lookup_Some _ (i / 8)%nat 0 _ (list_lookup_insert_eq _ _ _ Hi)).
    unfold u8. rewrite Z.mod_pow2_bits_low, Z.lor_spec, Z.pow2_bits_eqb by lia.
    f_equal. destruct (decide (i = j)) as [->|Hij].
    + by rewrite Z.eqb_refl, bool_decide_true.
    + rewrite bool_decide_false by done. apply Z.eqb_neq. intros Hm. apply Hij.
      pose proof (Nat.div_mod_eq i 8). pose proof (Nat.div_mod_eq j 8).
      assert (Z.of_nat (i mod 8) = Z.of_nat (j mod 8)) by (rewrite !Nat2Z.inj_mod; lia). lia.
  - rewrite bool_decide_false by (intros ->; done). rewrite orb_false_r. f_equal.
    rewrite !nth_lookup. rewrite list_lookup_insert_ne; [done|lia].
Qed.

Lemma set_bit_spec bits (i : nat) :
  (i < 8 * length bits)%nat →
  ∃ bits', set_bit bits (Z.of_nat i) = Ok bits' ∧ length bits' = length bits ∧
    ∀ j, advertised bits' j = advertised bits j || bool_decide (i = j).
Proof.
  intros Hi. unfold set_bit.
  assert (Hd : Z.of_nat i `div` 8 = Z.of_nat (i / 8)) by (by rewrite Nat2Z.inj_div).
  assert (Hlt : (i / 8 < length bits)%nat) by (apply Nat.Div0.div_lt_upper_bound; lia).
  rewrite Hd, Nat2Z.id. destruct (lookup_lt_is_Some_2 bits (i / 8) Hlt) as [b Hb].
  rewrite Hb. cbn. eexists. split; [reflexivity|]. split; [by rewrite length_insert|].
  intros j. by apply advertised_insert.
Qed.

Lemma set_bits_spec js : ∀ bits,
  Forall (λ z, ∃ i : nat, z = Z.of_nat i ∧ (i < 8 * length bits)%nat) js →
  ∃ bits', set_bits bits js = Ok bits' ∧ length bits' = length bits ∧
    ∀ j, advertised bits' j = advertised bits j || bool_decide (Z.of_nat j ∈ js).
Proof.
  induction js as [|z js IH]; intros bits Hjs; cbn [set_bits].
  { exists bits. split; [done|]. split; [done|]. intros j.
    rewrite bool_decide_false by apply not_elem_of_nil. by rewrite orb_false_r. }
  apply Forall_cons in Hjs as [(i & -> & Hi) Hjs].
  destruct (set_bit_spec bits i Hi) as (bits1 & -> & Hl1 & Ha1). cbn [mbind outcome_bind].
  destruct (IH bits1) as (bits2 & -> & Hl2 & Ha2); [by rewrite Hl1|].
  exists bits2. split; [done|]. split; [congruence|]. intros j.
  rewrite Ha2, Ha1, <- orb_assoc. f_equal.
  destruct (decide (i = j)) as [->|Hij].
  - rewrite (bool_decide_true (j = j)) by done.
    by rewrite (bool_decide_true (_ ∈ _ :: js)) by left.
  - rewrite (bool_decide_false (i = j)) by done. apply bool_decide_ext.
    rewrite elem_of_cons. split; [by right|]. intros [?|?]; [lia|done].
Qed.

Lemma advertised_replicate n j : advertised (replicate n 0) j = false.
Proof.
  unfold advertised. rewrite nth_lookup.
  destruct (replicate n 0 !! (j / 8)%nat) as [x|] eqn:E; cbn; [|apply Z.testbit_0_l].
  apply lookup_replicate in E as [-> _]. apply Z.testbit_0_l.
Qed.
End Bits.

(** ** Requests, availability and the bitfield *)
Section Requests.
Context {B FS : Type} `{MessageBlock B}.
Implicit Types (s : session B FS) (p : peer) (env : environment).

(** the record of a request *)
Definition request_record (i : Z) (r : BitTorrentChunks.request) : BitTorrent_PeerRecord :=
  MkPeerRecord 0 BITTORRENT_MESSAGETYPE_REQUEST [] 0
    (MkTriple i (BitTorrentChunks.begin_ r) (req_length r)).

Lemma connectionIdToPeerAddress_id env id a :
  connectionIdToPeerAddress env id = Ok a → negb (id =? 0) = true.
Proof. unfold connectionIdToPeerAddress. by destruct (id =? 0). Qed.

(** C2: [requestNextPiece] on a connection whose peer is known, when the pieces are well
    formed (pieces_ok), the bitfield of the peer has a bit for every piece, and the random
    numbers are in range: it returns, and when the peer has a piece that is missing, one
    block is requested, of at most 16384 bytes, inside a piece that is missing and that
    the peer has, after the data that is held from its start; otherwise the peer is told
    that there is no interest in it any more, and this is noted.  That a bitfield is long
    enough is not checked when it is received: short_bitfield_undefined shows what a
    shorter one does. *)
Theorem requestNextPiece_requests_missing env id a p s :
  connectionIdToPeerAddress env id = Ok a → peerState s !! a = Some p →
  pieces_ok (pieces s) → (length (pieces s) <= 8 * length (peer_pieces p))%nat →
  random_ok env →
  (∃ i q r, wanted (pieces s) (peer_pieces p) i ∧ pieces s !! i = Some q ∧
     contiguous_from 0 (chunks q) <= BitTorrentChunks.begin_ r ∧
     0 < req_length r <= BITTORRENT_PEER_REQUEST_BLOCK_LENGTH_MAX ∧
     BitTorrentChunks.begin_ r + req_length r <= BitTorrentPieces.length_ q ∧
     ∃ s', send_record env id (request_record (Z.of_nat i) r) s = Ok s' ∧
           requestNextPiece env id s = Ok (s', true)) ∨
  (¬ (∃ i, wanted (pieces s) (peer_pieces p) i)) ∧
     ∃ s', interested env id false
             (set_peer a (with_status (set_am_interested false (status p)) p) s) = Ok s' ∧
           requestNextPiece env id s = Ok (s', false).
Proof.
  intros Ha Hp Hok Hbits Hrandom. pose proof (connectionIdToPeerAddress_id _ _ _ Ha) as Hid.
  unfold requestNextPiece, find_peer. rewrite Ha. cbn [mbind outcome_bind]. rewrite Hp.
  cbn [mbind outcome_bind].
  destruct (hasMissingPiece_spec (pieces s) (peer_pieces p)) as (b & -> & Hb);
    [apply Hok|done|apply Hok|].
  cbn [mbind outcome_bind]. destruct b.
  - left. destruct (proj1 Hb eq_refl) as (i0 & q0 & Hq0).
    destruct (choose_block_spec env (peer_pieces p) s) as (i & q & r & Hc & Hw & Hi & Hr);
      [done..|by exists i0, q0|].
    exists i, q, r. split; [done|]. split; [done|]. split_and!; try apply Hr.
    rewrite Hc. cbn [negb mbind outcome_bind]. unfold request. rewrite Hid.
    rewrite (proj2 (Z.eqb_neq _ _)) by lia. cbn [negb ace_assert mbind outcome_bind].
    eexists. unfold send_record. rewrite Hid. split; reflexivity.
  - right. split; [intros (i & q & Hq); by assert (false = true) by (apply Hb; by exists i, q)|].
    cbn [negb]. unfold interested, send_record. rewrite Hid. cbn. eauto.
Qed.

(** The bitfield that is sent after the handshake has the bits of exactly the pieces
    that are complete; it has as many bytes as there are pieces, where the protocol has a
    bit for each. *)
Theorem bitfield_to_send_pieces {E} (c : configuration E) s :
  pieces_ok (pieces s) → sendBitfieldAfterHandshake c = true →
  (∃ q, q ∈ pieces s ∧ piece_done q = true) →
  ∃ bits, bitfield_to_send c s = Ok (Some bits) ∧ length bits = length (pieces s) ∧
    ∀ i, advertised bits i = true ↔ ∃ q, pieces s !! i = Some q ∧ piece_done q = true.
Proof.
  intros (Hn & Hfed & _) Hc (q0 & [i0 Hi0]%list_elem_of_lookup & Hq0). unfold bitfield_to_send.
  destruct (getPieceIndexes_loop_spec (pieces s) false 0 Hfed) as (l & Hl & _ & Hin); [done|].
  unfold getPieceIndexes. change (Z.of_nat 0) with 0 in Hl. rewrite Hl.
  cbn [mbind outcome_bind].
  rewrite Hc, bool_decide_false.
  2:{ intros ->. apply (elem_of_nil (Z.of_nat i0)), Hin. by exists i0, q0. }
  cbn [negb andb]. destruct (set_bits_spec l (replicate (length (pieces s)) 0))
    as (bits & -> & Hlen & Hbits).
  { apply Forall_forall. intros z (i & q & -> & Hi & _)%Hin. exists i. split; [done|].
    apply lookup_lt_Some in Hi. rewrite length_replicate. lia. }
  cbn. exists bits. rewrite length_replicate in Hlen. split; [done|]. split; [done|].
  intros i. rewrite Hbits, advertised_replicate. cbn. rewrite bool_decide_eq_true, Hin. split.
  - intros (j & q & Hj & Hi & Hq). assert (i = j) as -> by lia. by exists q.
  - intros (q & Hi & Hq). by exists i, q.
Qed.
End Requests.

(** ** Pieces that are complete *)
Section Completed.
Context {B FS M : Type} `{MessageBlock B} `{FileSystem FS} `{!FileStream FS} `{Bencoding M}.
Context (separator download_directory : string) (basename fileExtension : string → string).
Context (sort_identifiers : list string → list string) (digitsBase10 : Z → Z).
Context (SHA1 : list Z → list Z) (std_sort : list (chunk B) → list (chunk B)).
Context (c : configuration M).
Implicit Types (s : session B FS) (q : piece B) (env : environment).

(** [add_block] on this torrent *)
Notation add_block := (add_block separator download_directory basename fileExtension
  sort_identifiers digitsBase10 SHA1 std_sort c).

(** the data [cs] of a piece is what its hash is of *)
Definition verified q (cs : list (chunk B)) : Prop :=
  zlen (concatenate cs) = BitTorrentPieces.length_ q ∧
  take 20 (SHA1 (concatenate cs)) = hash q.

Lemma validatePieceHash_true q :
  validatePieceHash SHA1 q = Ok true → verified q (chunks q).
Proof.
  unfold validatePieceHash. destruct_if; [done|].
  intros (? & Ha & [= Hh%bool_decide_eq_true])%bind_Ok. unfold ace_assert in Ha.
  destruct (_ =? _) eqn:E; [|done]. bool_lia. done.
Qed.

Lemma validatePieceHash_false q :
  validatePieceHash SHA1 q = Ok false → ¬ verified q (chunks q).
Proof.
  unfold validatePieceHash. destruct_if; [done|].
  intros (? & _ & [= Hh%bool_decide_eq_false])%bind_Ok [_ Hv]. done.
Qed.

Lemma verified_validatePieceHash q :
  verified q (chunks q) → validatePieceHash SHA1 q = Ok true.
Proof.
  intros [Hl Hh]. unfold validatePieceHash. rewrite Hl, Z.ltb_irrefl, Z.eqb_refl.
  cbn. by rewrite bool_decide_true.
Qed.

Lemma savePiece_true name n i q fs fs' q' :
  savePiece separator download_directory digitsBase10 name n i q fs = Ok (fs', q', true) →
  q' = set_on_disk q [].
Proof.
  assert (Hw : ∀ fs path, write_piece fs path q = Ok (fs', q', true) → q' = set_on_disk q []).
  { intros fs1 path. unfold write_piece. destruct (chunks q) as [|k cs] eqn:Hcs; [done|].
    destruct (fs_open fs1 path); [|done]. intros (d & _ & Hd)%bind_Ok.
    destruct (fs_send _ _ _) as [[fs2 n2] closed]. destruct closed; [|done]. cbn in Hd.
    apply bind_Ok in Hd as (cs' & Hf & [= _ <- _]).
    unfold freeChunks in Hf. destruct_if; by simplify_eq. }
  unfold savePiece. destruct (fs_is_directory _ _); [by eauto|].
  destruct (fs_create_directory _ _); [by eauto|done].
Qed.

(** [q] with the chunks [cs] *)
Definition with_chunks q (cs : list (chunk B)) : piece B :=
  Piece cs (filename q) (hash q) (BitTorrentPieces.length_ q) (onDisk q).

(** [savePiece] on the piece [i] of this torrent writes it: its file is in [fs'] *)
Definition saved s (i : nat) q (fs' : FS) : Prop :=
  savePiece separator download_directory digitsBase10 (basename (metaInfoFileName c))
    (u32 (zlen (pieces s))) (Z.of_nat i) q (files s) = Ok (fs', set_on_disk q [], true).

(** the chunks of [q] are complete with the block [t], [d], as they were not before *)
Definition completes q (t : block_triple) (d : list B) (cs : list (chunk B)) : Prop :=
  onDisk q = false ∧ isPieceComplete (BitTorrentPieces.length_ q) (chunks q) = Ok false ∧
  sanitizeChunks std_sort (chunks q ++ [Chunk (Some d) (begin t)]) = Ok cs ∧
  isPieceComplete (BitTorrentPieces.length_ q) cs = Ok true.

(** The session when the piece [i] has become [q'], and its file is in [fs']; the
    subscriber has been told. *)
Definition piece_announced (i : nat) q' (fs' : FS) s : session B FS :=
  notify_subscriber c (PieceComplete (Z.of_nat i))
    (set_files fs' (set_piece (Z.of_nat i) q' s)).

Lemma pieces_announced i q' fs' s :
  pieces (piece_announced i q' fs' s) = <[i := q']> (pieces s).
Proof. unfold piece_announced, notify_subscriber. destruct_if; cbn; by rewrite Nat2Z.id. Qed.

Lemma piece_completed_spec i q s s' announced finished :
  piece_completed separator download_directory basename fileExtension sort_identifiers
    digitsBase10 SHA1 c (Z.of_nat i) q s = Ok (s', announced, finished) →
  (verified q (chunks q) ∧ announced = true ∧
     ∃ fs1 fs2, saved s i q fs1 ∧
       s' = set_files fs2 (piece_announced i (set_on_disk q []) fs1 s) ∧
       isMissingPiece (<[i := set_on_disk q []]> (pieces s)) = Ok (negb finished) ∧
       (finished = false → fs2 = fs1)) ∨
  (¬ verified q (chunks q) ∧ announced = false ∧ finished = false ∧
     s' = set_piece (Z.of_nat i) (with_chunks q []) s).
Proof.
  intros Hc. unfold piece_completed in Hc.
  apply bind_Ok in Hc as (valid & Hv & Hc). destruct valid; cbn [negb] in Hc; [left|right].
  - apply validatePieceHash_true in Hv. split; [done|].
    apply bind_Ok in Hc as ([[fs q'] b] & Hs & Hc).
    destruct b; [|done]. cbn [ace_assert mbind outcome_bind] in Hc.
    pose proof (savePiece_true _ _ _ _ _ _ _ Hs) as ->.
    fold (piece_announced i (set_on_disk q []) fs s) in Hc. rewrite pieces_announced in Hc.
    apply bind_Ok in Hc as (missing & Hm & Hc).
    destruct missing; [simplify_eq; split; [done|]; exists fs, fs; split; [done|]|].
    { split; [|done]. unfold piece_announced, notify_subscriber. by destruct_if. }
    apply bind_Ok in Hc as ([fs2 assembled] & _ & Hc). destruct assembled; [|done].
    cbn in Hc. simplify_eq. split; [done|]. by exists fs, fs2.
  - apply validatePieceHash_false in Hv. split; [done|].
    apply bind_Ok in Hc as (cs & Hf & Hc). simplify_eq.
    unfold freeChunks in Hf. destruct_if; by simplify_eq.
Qed.

(** [add_block] when the piece is not complete yet *)
Lemma add_block_incomplete i t d s q cs :
  index t = Z.of_nat i → pieces s !! i = Some q → onDisk q = false →
  isPieceComplete (BitTorrentPieces.length_ q) (chunks q) = Ok false →
  sanitizeChunks std_sort (chunks q ++ [Chunk (Some d) (begin t)]) = Ok cs →
  add_block t d s =
    complete ← isPieceComplete (BitTorrentPieces.length_ q) cs;
    let s1 := set_piece (Z.of_nat i) (with_chunks q cs) s in
    if negb complete then Ok (s1, false, false)
    else piece_completed separator download_directory basename fileExtension
           sort_identifiers digitsBase10 SHA1 c (Z.of_nat i) (with_chunks q cs) s1.
Proof.
  intros Ht Hq Hdisk Hc Hcs. unfold BitTorrentSession.add_block.
  rewrite Ht, Nat2Z.id, Hq. cbn [deref from_option mbind outcome_bind].
  rewrite Hdisk, Hc. cbn [mbind outcome_bind]. rewrite Hcs. cbn [mbind outcome_bind].
  unfold with_chunks. by rewrite Hdisk.
Qed.

Lemma set_piece_set_piece i q1 q2 s :
  set_piece (Z.of_nat i) q2 (set_piece (Z.of_nat i) q1 s) = set_piece (Z.of_nat i) q2 s.
Proof. unfold set_piece. cbn. by rewrite list_insert_insert_eq. Qed.

Lemma piece_announced_set_piece i q' q1 fs1 s :
  piece_announced i q' fs1 (set_piece (Z.of_nat i) q1 s) = piece_announced i q' fs1 s.
Proof. unfold piece_announced. by rewrite set_piece_set_piece. Qed.

Lemma saved_set_piece s i q q1 fs1 :
  saved (set_piece (Z.of_nat i) q1 s) i q fs1 ↔ saved s i q fs1.
Proof. unfold saved, zlen. cbn. by rewrite length_insert. Qed.

Lemma set_files_same s : set_files (files s) s = s.
Proof. by destruct s. Qed.

Lemma set_piece_same i q s :
  pieces s !! i = Some q → set_piece (Z.of_nat i) (with_chunks q (chunks q)) s = s.
Proof.
  intros Hq. unfold set_piece, with_chunks. rewrite Nat2Z.id. destruct s, q. cbn in *.
  by rewrite list_insert_id.
Qed.

(** what can have been returned when the block does not complete the piece *)
Lemma not_completed i t d s q s' announced finished :
  index t = Z.of_nat i → pieces s !! i = Some q →
  add_block t d s = Ok (s', announced, finished) →
  (∃ cs, completes q t d cs) ∨
  (∀ cs, ¬ completes q t d cs) ∧ announced = false ∧ finished = false ∧
    ∃ cs, s' = set_piece (Z.of_nat i) (with_chunks q cs) s.
Proof.
  intros Ht Hq Ha. destruct (onDisk q) eqn:Hdisk.
  { right. unfold BitTorrentSession.add_block in Ha. rewrite Ht, Nat2Z.id, Hq in Ha.
    cbn [deref from_option mbind outcome_bind] in Ha. rewrite Hdisk in Ha. cbn in Ha.
    simplify_eq. split; [intros cs [? _]; congruence|]. split; [done|]. split; [done|].
    exists (chunks q). by rewrite set_piece_same. }
  pose proof Ha as Hb. unfold BitTorrentSession.add_block in Hb.
  rewrite Ht, Nat2Z.id, Hq in Hb. cbn [deref from_option mbind outcome_bind] in Hb.
  rewrite Hdisk in Hb. apply bind_Ok in Hb as (b & Hb & Hcs). destruct b.
  { right. simplify_eq. split; [intros cs (_ & ? & _); congruence|]. split; [done|].
    split; [done|]. exists (chunks q). by rewrite set_piece_same. }
  apply bind_Ok in Hcs as (cs & Hcs & _).
  rewrite (add_block_incomplete i t d s q cs) in Ha by done.
  apply bind_Ok in Ha as ([|] & Hc & Ha); [left; by exists cs|right].
  cbn in Ha. simplify_eq. split; [intros cs' (_ & _ & ? & ?); congruence|].
  split; [done|]. split; [done|]. by exists cs.
Qed.

Lemma completes_unique q t d cs cs' : completes q t d cs → completes q t d cs' → cs' = cs.
Proof. intros (_ & _ & E1 & _) (_ & _ & E2 & _). congruence. Qed.

(** C3: what becomes of a block.  Whenever the handler returns, the piece is announced (the
    flags of the handler: the HAVE is sent for the first) if and only if the block
    completes it and the SHA1 of its data is the hash of the metainfo; it has then been
    written to its file, is on disk, holds no chunks, and the subscriber has been told;
    the torrent is complete exactly if no other piece is missing then.  A piece that is
    completed but has another hash loses its chunks and nothing else changes; a block
    that does not complete a piece changes no more than the chunks of that piece.  And
    the handler does return, and announces, when the block completes the piece, the hash
    is right, the file is written and another piece is missing (it asserts that the file
    is written). *)
Theorem add_block_verifies i t d s q :
  index t = Z.of_nat i → pieces s !! i = Some q →
  (∀ s' announced finished, add_block t d s = Ok (s', announced, finished) →
     (announced = true ↔ ∃ cs, completes q t d cs ∧ verified q cs) ∧
     (announced = true → ∃ cs fs1 fs2,
        completes q t d cs ∧ saved s i (with_chunks q cs) fs1 ∧
        s' = set_files fs2 (piece_announced i (set_on_disk (with_chunks q cs) []) fs1 s) ∧
        isMissingPiece (pieces s') = Ok (negb finished) ∧ (finished = false → fs2 = fs1)) ∧
     (announced = false → finished = false ∧
        ∃ cs, s' = set_piece (Z.of_nat i) (with_chunks q cs) s ∧
              ((∃ cs', completes q t d cs') → cs = []))) ∧
  (∀ cs fs1, completes q t d cs → verified q cs → saved s i (with_chunks q cs) fs1 →
     isMissingPiece (<[i := set_on_disk (with_chunks q cs) []]> (pieces s)) = Ok true →
     add_block t d s =
       Ok (piece_announced i (set_on_disk (with_chunks q cs) []) fs1 s, true, false)).
Proof.
  intros Ht Hq. split.
  - intros s' announced finished Ha.
    destruct (not_completed i t d s q s' announced finished Ht Hq Ha) as [[cs Hc]|Hno].
    + pose proof Hc as (Hdisk & Hc0 & Hcs & Hc1).
      rewrite (add_block_incomplete i t d s q cs), Hc1 in Ha by done. cbn in Ha.
      apply piece_completed_spec in Ha as
        [(Hv & -> & fs1 & fs2 & Hs & -> & Hm & Hfs)|(Hv & -> & -> & ->)].
      * rewrite saved_set_piece in Hs. rewrite piece_announced_set_piece.
        split; [split; [by exists cs|done]|]. split; [|done].
        intros _. exists cs, fs1, fs2. split_and!; try done. cbn.
        rewrite pieces_announced. cbn in Hm. by rewrite Nat2Z.id, list_insert_insert_eq in Hm.
      * rewrite set_piece_set_piece. split; [|split; [done|]].
        { split; [done|]. intros (cs' & Hc' & Hv').
          by rewrite (completes_unique _ _ _ _ _ Hc Hc') in Hv'. }
        intros _. split; [done|]. by exists [].
    + destruct Hno as (Hno & -> & -> & cs & ->). split; [|split; [done|]].
      { split; [done|]. intros (cs' & Hc & _). by destruct (Hno cs'). }
      intros _. split; [done|]. exists cs. split; [done|].
      intros (cs' & Hc). by destruct (Hno cs').
  - intros cs fs1 (Hdisk & Hc & Hcs & Hcomplete) Hv Hs Hm.
    rewrite (add_block_incomplete i t d s q cs) by done. rewrite Hcomplete.
    cbn [mbind outcome_bind negb]. unfold piece_completed.
    rewrite verified_validatePieceHash by done. cbn [mbind outcome_bind negb].
    apply (saved_set_piece _ _ _ (with_chunks q cs)) in Hs. unfold saved in Hs. rewrite Hs.
    cbn [mbind outcome_bind ace_assert].
    fold (piece_announced i (set_on_disk (with_chunks q cs) []) fs1
      (set_piece (Z.of_nat i) (with_chunks q cs) s)).
    rewrite piece_announced_set_piece, pieces_announced, Hm. done.
Qed.
End Completed.

(** ** Uploads *)
Section Uploads.
Context {B FS M : Type} `{MessageBlock B} `{FileSystem FS} `{!FileStream FS} `{Bencoding M}.
Context (separator download_directory : string) (basename fileExtension : string → string).
Context (sort_identifiers : list string → list string).
Context (c : configuration M).
Implicit Types (s : session B FS) (q : piece B) (env : environment).

Notation piece_ := (piece_ separator download_directory basename fileExtension
  sort_identifiers c).
Notation loadPiece := (loadPiece separator download_directory basename fileExtension
  sort_identifiers (metaInfoFileName c)).

(** the piece is on disk and not in memory, and its file has the bytes [d] *)
Definition stored (i : Z) q (fs : FS) (d : list Z) : Prop :=
  onDisk q = true ∧ chunks q = [] ∧ loadPiece i q fs = Ok (add_chunk q d, true).

Lemma take_chunks_one (n : Z) (b : B) :
  0 < n <= block_length b →
  take_chunks n [b] [] = Ok [mb_set_length n b].
Proof. intros Hn. cbn. by rewrite (proj2 (Z.leb_le _ _)) by lia. Qed.

Lemma attach_first_block d n :
  0 < n <= zlen d → zlen d < 2 ^ 32 →
  ∃ cont, attach_chunk [loaded_chunk (B := B) d] 0 n = Ok cont ∧
          chain_bytes cont = take (Z.to_nat n) d.
Proof.
  intros Hn Hd. set (b := mb_of_bytes d : B).
  assert (Hb : mb_bytes b = d) by apply mb_of_bytes_bytes.
  assert (Hbl : block_length b = zlen d) by (unfold block_length; by rewrite Hb).
  assert (Htot : total_length [b] = zlen d).
  { unfold total_length, zsum. cbn. rewrite Hbl, u64_small; lia. }
  unfold attach_chunk. cbn [find_chunk offset loaded_chunk mbind outcome_bind data deref
    from_option Z.ltb Z.compare]. fold b.
  rewrite Htot, Z.add_0_l, u64_small by lia.
  replace ((0 <=? 0) && (0 <? zlen d)) with true by (symmetry; apply Z.ltb_lt; lia).
  cbn [ace_assert mbind outcome_bind].
  rewrite Hbl. change (0 -u 0) with 0. rewrite (proj2 (Z.ltb_lt 0 (zlen d))) by lia.
  cbn [ace_assert mbind outcome_bind].
  assert (Hrd : mb_bytes (mb_rd_ptr 0 b) = d) by (rewrite mb_rd_ptr_bytes; rewrite Hb; [done|lia]).
  rewrite take_chunks_one by (unfold block_length; rewrite Hrd; lia).
  cbn [mbind outcome_bind].
  assert (Hset : mb_bytes (mb_set_length n (mb_rd_ptr 0 b)) = take (Z.to_nat n) d).
  { rewrite mb_set_length_bytes; rewrite Hrd; [done|lia]. }
  assert (Hlen : total_length [mb_set_length n (mb_rd_ptr 0 b)] = n).
  { unfold total_length, zsum, block_length. cbn. rewrite Hset, zlen_take, u64_small; lia. }
  rewrite Hlen, Z.eqb_refl. cbn. eexists. split; [reflexivity|].
  unfold chain_bytes. cbn. by rewrite app_nil_r.
Qed.

Lemma stored_to_send i q d s :
  pieces s !! i = Some q → stored (Z.of_nat i) q (files s) d →
  piece_to_send separator download_directory basename fileExtension sort_identifiers c
    (Z.of_nat i) s =
  Ok (set_piece (Z.of_nat i) (add_chunk q d) s, Some (add_chunk q d)).
Proof.
  intros Hi (Hdisk & _ & Hload). unfold piece_to_send. rewrite Nat2Z.id, Hi.
  cbn [deref from_option mbind outcome_bind]. by rewrite Hdisk, Hload.
Qed.

(** [loadPiece] insists on a piece without chunks *)
Lemma loaded_again env id i begin n q s :
  id ≠ 0 → n ≠ 0 → message_available env id = true →
  pieces s !! i = Some q → onDisk q = true → chunks q ≠ [] →
  piece_ env id (Z.of_nat i) begin n s = Abort.
Proof.
  intros Hid Hn Hm Hi Hdisk Hcs. unfold BitTorrentSession.piece_, piece_to_send.
  rewrite (proj2 (Z.eqb_neq id 0)), (proj2 (Z.eqb_neq n 0)), Hm, Nat2Z.id, Hi by done.
  cbn [negb ace_assert mbind outcome_bind deref from_option]. rewrite Hdisk.
  unfold BitTorrentStore.loadPiece. rewrite bool_decide_false; [done|].
  intros Hz. by apply Hcs, zlen_0_inv.
Qed.

Lemma chunks_add_chunk q d : chunks q = [] → chunks (add_chunk q d) = [loaded_chunk d].
Proof. intros Hcs. unfold add_chunk. cbn. by rewrite Hcs. Qed.

(** The first request for a piece on disk is answered, if it is for bytes at its
    start: the peer is sent these bytes.  The piece stays in memory, and from then on
    every request for it fails an assertion of [loadPiece]. *)
Theorem piece_uploaded_once env id i q d n s :
  id ≠ 0 → message_available env id = true → send_works env id = true →
  pieces s !! i = Some q → stored (Z.of_nat i) q (files s) d →
  0 < n <= zlen d → zlen d < 2 ^ 32 →
  ∃ s' cont r, piece_ env id (Z.of_nat i) 0 n s = Ok s' ∧
    outputs s' = outputs s ++ [Send id r cont] ∧
    type r = BITTORRENT_MESSAGETYPE_PIECE ∧ block r = MkTriple (Z.of_nat i) 0 0 ∧
    chain_bytes cont = take (Z.to_nat n) d ∧
    ∀ env' id' begin' n', id' ≠ 0 → n' ≠ 0 → message_available env' id' = true →
      piece_ env' id' (Z.of_nat i) begin' n' s' = Abort.
Proof.
  intros Hid Hm Hw Hi (Hdisk & Hcs & Hload) Hn Hd.
  destruct (attach_first_block d n) as (cont & Hcont & Hbytes); [done..|].
  pose proof (chunks_add_chunk q d Hcs) as Hadd.
  assert (Hs' : piece_ env id (Z.of_nat i) 0 n s = Ok (emit (Send id
      (BitTorrentWire.set_block (MkTriple (Z.of_nat i) 0 0)
         (set_type BITTORRENT_MESSAGETYPE_PIECE (new_record 0))) cont)
      (set_piece (Z.of_nat i) (add_chunk q d) s))).
  { unfold BitTorrentSession.piece_.
    rewrite (proj2 (Z.eqb_neq id 0)), (proj2 (Z.eqb_neq n 0)), Hm by lia.
    cbn [negb ace_assert mbind outcome_bind]. rewrite (stored_to_send i q d) by done.
    cbn [mbind outcome_bind]. by rewrite Hadd, Hcont, Hw. }
  do 3 eexists. split; [exact Hs'|]. split_and!; try done.
  intros env' id' begin' n' Hid' Hn' Hm'. apply (loaded_again _ _ _ _ _ (add_chunk q d)); try done.
  - cbn. rewrite Nat2Z.id. apply list_lookup_insert_eq. by eapply lookup_lt_Some.
  - by rewrite Hadd.
Qed.

(** A request for a later block of a piece on disk looks for its chunk past the end
    of the vector: the loop that advances to it has no bound. *)
Theorem later_block_undefined env id i q d begin_in n s :
  id ≠ 0 → message_available env id = true →
  pieces s !! i = Some q → stored (Z.of_nat i) q (files s) d →
  0 < begin_in → n ≠ 0 →
  piece_ env id (Z.of_nat i) begin_in n s = Undef.
Proof.
  intros Hid Hm Hi Hst Hb Hn. unfold BitTorrentSession.piece_.
  rewrite (proj2 (Z.eqb_neq id 0)), (proj2 (Z.eqb_neq n 0)), Hm by done.
  cbn [negb ace_assert mbind outcome_bind]. rewrite (stored_to_send i q d) by done.
  cbn [mbind outcome_bind]. rewrite chunks_add_chunk by apply Hst.
  unfold attach_chunk. cbn [find_chunk offset loaded_chunk].
  by rewrite (proj2 (Z.ltb_lt 0 begin_in)).
Qed.
End Uploads.

(** ** What a peer can provoke *)
Section Hostile.
Context {B FS M : Type} `{MessageBlock B} `{FileSystem FS} `{!FileStream FS} `{Bencoding M}.
Context (separator download_directory : string) (basename fileExtension : string → string).
Context (sort_identifiers : list string → list string) (digitsBase10 : Z → Z).
Context (SHA1 : list Z → list Z) (std_sort : list (chunk B) → list (chunk B)).
Context (c : configuration M).
Implicit Types (s : session B FS) (env : environment) (r : BitTorrent_PeerRecord).

Notation notify := (notify separator download_directory basename fileExtension
  sort_identifiers digitsBase10 SHA1 std_sort c).

Lemma lookup_past {A} (l : list A) z : zlen l <= z → l !! Z.to_nat z = None.
Proof. intros Hz. apply lookup_ge_None_2. unfold zlen in Hz. lia. Qed.

Lemma notify_subscriber_pieces e s : pieces (notify_subscriber c e s) = pieces s.
Proof. unfold notify_subscriber. by destruct_if. Qed.
Lemma notify_subscriber_peers e s : peerState (notify_subscriber c e s) = peerState s.
Proof. unfold notify_subscriber. by destruct_if. Qed.

(** an index past the end of a list *)
Definition beyond {T} (i : Z) (l : list T) : Prop := zlen l <= i.

(** The numbers in the messages of a peer are not checked: a 'have' or a block of a
    piece that does not exist, or a request for one, is undefined behaviour, and a
    request for no bytes fails an assertion. *)
Theorem peer_input_unchecked env id a p r d s :
  connectionIdToPeerAddress env id = Ok a → peerState s !! a = Some p →
  record_length r ≠ 0 →
  (type r = BITTORRENT_MESSAGETYPE_HAVE → beyond (have r `div` 8) (peer_pieces p) →
     notify env id r d s = Undef) ∧
  (type r = BITTORRENT_MESSAGETYPE_PIECE → is_Some d → beyond (index (block r)) (pieces s) →
     notify env id r d s = Undef) ∧
  (type r = BITTORRENT_MESSAGETYPE_REQUEST → peer_choking (status p) = false →
     (BitTorrentText.length_ (block r) = 0 → notify env id r d s = Abort) ∧
     (BitTorrentText.length_ (block r) ≠ 0 → message_available env id = true →
      beyond (index (block r)) (pieces s) → notify env id r d s = Undef)).
Proof.
  intros Ha Hp Hlen. pose proof (connectionIdToPeerAddress_id _ _ _ Ha) as Hid.
  unfold BitTorrentSession.notify. rewrite Ha, (proj2 (Z.eqb_neq _ _)) by done.
  cbn [mbind outcome_bind]. unfold notify_record. set (s1 := notify_subscriber c _ s).
  assert (Hp1 : find_peer a s1 = Ok p).
  { unfold find_peer, s1. by rewrite notify_subscriber_peers, Hp. }
  assert (Hps : pieces s1 = pieces s) by apply notify_subscriber_pieces.
  split_and!.
  - intros Ht Hi. rewrite Ht. unfold notify_have. rewrite Hp1. cbn [mbind outcome_bind].
    unfold set_bit. by rewrite (lookup_past _ _ Hi).
  - intros Ht [blocks ->] Hi. rewrite Ht. unfold notify_piece, add_block.
    by rewrite Hps, (lookup_past _ _ Hi).
  - intros Ht Hc. rewrite Ht. unfold notify_request. rewrite Hp1. cbn [mbind outcome_bind].
    rewrite Hc. unfold piece_. rewrite Hid. split.
    + intros Hl. by rewrite Hl.
    + intros Hl Hm Hi. rewrite (proj2 (Z.eqb_neq _ _)), Hm by done.
      cbn [negb ace_assert mbind outcome_bind]. unfold piece_to_send.
      by rewrite Hps, (lookup_past _ _ Hi).
Qed.
End Hostile.

(** ** The pieces of a torrent *)
Section Initial.
Context {B : Type} `{MessageBlock B}.

(** the length of the last piece *)
Lemma last_length total_length_in piece_length k :
  0 < piece_length → k * piece_length < total_length_in <= (k + 1) * piece_length →
  let l := total_length_in `mod` piece_length in
  (if l =? 0 then piece_length else l) = total_length_in - k * piece_length.
Proof.
  intros Hpl Ht. cbn. set (r := total_length_in - k * piece_length).
  assert (Hr : 0 < r <= piece_length) by (unfold r; lia).
  replace total_length_in with (r + k * piece_length) by (unfold r; lia).
  rewrite Z_mod_plus_full. destruct (decide (r = piece_length)) as [->|Hne].
  - by rewrite Z_mod_same_full.
  - rewrite Z.mod_small by lia. by rewrite (proj2 (Z.eqb_neq r 0)) by lia.
Qed.

Definition initial_piece (piece_length : Z) (q : piece B) : Prop :=
  0 < BitTorrentPieces.length_ q <= piece_length ∧ chunks q = [] ∧ onDisk q = false.

Lemma make_pieces_from total_length_in piece_length hashes : 0 < piece_length → ∀ k names,
  hashes ≠ [] → (length hashes <= length names)%nat → Forall (λ n, n ≠ "") names → 0 <= k →
  (k + zlen hashes - 1) * piece_length < total_length_in <= (k + zlen hashes) * piece_length →
  ∃ ps : list (piece B), make_pieces total_length_in piece_length names hashes = Ok ps ∧
    hash <$> ps = hashes ∧
    zsum (BitTorrentPieces.length_ <$> ps) = total_length_in - k * piece_length ∧
    Forall (initial_piece piece_length) ps.
Proof.
  intros Hpl. induction hashes as [|h hashes IH]; [done|].
  intros k [|name names] _ Hnames Hnonempty Hk Ht; [cbn in Hnames; lia|].
  apply Forall_cons in Hnonempty as [Hname Hnonempty]. rewrite zlen_cons in Ht.
  cbn [make_pieces head deref from_option mbind outcome_bind].
  rewrite (bool_decide_false (name = "")) by done.
  cbn [negb ace_assert mbind outcome_bind tail].
  destruct hashes as [|h' hashes].
  - rewrite zlen_nil in Ht. replace (k + (1 + 0) - 1) with k in Ht by lia.
    replace (k + (1 + 0)) with (k + 1) in Ht by lia.
    rewrite bool_decide_true, (proj2 (Z.eqb_neq piece_length 0)) by (done || lia).
    cbn [mbind outcome_bind make_pieces]. rewrite (last_length _ _ k) by done.
    eexists. split; [reflexivity|]. unfold zsum. cbn.
    split_and!; [done|lia|]. repeat constructor; cbn; lia || done.
  - rewrite bool_decide_false by done. cbn [mbind outcome_bind].
    rewrite (proj2 (Z.eqb_neq piece_length 0)) by lia.
    destruct (IH (k + 1) names) as (ps & -> & Hh & Hs & Hf); [done| |done|lia| |].
    { cbn [length] in *. lia. }
    { by replace (k + 1 + zlen (h' :: hashes)) with (k + (1 + zlen (h' :: hashes))) by lia. }
    cbn [mbind outcome_bind]. eexists. split; [reflexivity|]. unfold zsum in *. cbn.
    rewrite Hh, Hs. split_and!; [done|lia|]. constructor; [|done]. repeat split; cbn; lia || done.
Qed.

(** The pieces are made for the hashes in order; their lengths are the piece length,
    but for the last one, and add up to the length of the torrent. *)
Theorem make_pieces_lengths total_length_in piece_length names hashes :
  hashes ≠ [] → 0 < piece_length → (length hashes <= length names)%nat →
  Forall (λ n, n ≠ "") names →
  (zlen hashes - 1) * piece_length < total_length_in <= zlen hashes * piece_length →
  ∃ ps : list (piece B), make_pieces total_length_in piece_length names hashes = Ok ps ∧
    hash <$> ps = hashes ∧ zsum (BitTorrentPieces.length_ <$> ps) = total_length_in ∧
    Forall (initial_piece piece_length) ps.
Proof.
  intros Hne Hpl Hnames Hnonempty Ht.
  destruct (make_pieces_from total_length_in piece_length hashes Hpl 0 names)
    as (ps & Hps & Hh & Hs & Hf); try done.
  exists ps. split_and!; try done. lia.
Qed.
End Initial.

(** ** Witnesses: a session with three pieces, the last one incomplete *)
Definition sample_env : environment :=
  Environment (λ _, Some (Inet4 7)) (λ _, Some (Inet4 7)) (λ _, true) (λ _, true)
    (λ _ _, 0) (λ _ _, 0).
Definition sample_peer : peer := Peer [3] [0xE0] (PeerStatus false true false true 0).
Definition exchange_session : session (list Z) plain_fs :=
  Session [3] false false sample_pieces {[7 := sample_peer]} 0
    (PlainFS {["/tmp/t_pieces/0_p0.piece" := [1; 2; 3; 4]]} ["/tmp/t_pieces"]) [].
Definition sample_config : configuration element :=
  Configuration element "t" [] true false false.

Lemma sample_receiving q :
  q ∈ sample_pieces → onDisk q = false → receiving q.
Proof.
  intros [->|[->|[->|[]%elem_of_nil]%elem_of_cons]%elem_of_cons]%elem_of_cons; [done|..];
    intros _; (split; [cbn; lia|]); split;
    repeat first [apply Forall_nil|apply Forall_cons; split|apply SSorted_nil
                 |apply SSorted_cons]; unfold chunk_in, chunkLength; vm_compute; intuition done.
Qed.

Lemma sample_pieces_ok : pieces_ok sample_pieces.
Proof.
  split; [cbn; lia|]. split; [apply sample_well_fed|].
  apply Forall_forall. intros q Hq. by apply sample_receiving.
Qed.

Lemma sample_random_ok : random_ok sample_env.
Proof. intros h Hh. cbn. lia. Qed.

Lemma requestNextPiece_requests_missing_witness :
  ∃ s', requestNextPiece sample_env 3 exchange_session = Ok (s', true).
Proof.
  destruct (requestNextPiece_requests_missing sample_env 3 7 sample_peer exchange_session)
    as [(i & q & r & _ & _ & _ & _ & _ & s' & _ & Hs)|[Hno _]];
    [reflexivity|reflexivity|apply sample_pieces_ok|cbn; lia|apply sample_random_ok|..].
  - by exists s'.
  - exfalso. apply Hno. exists 2%nat. eexists. split; [reflexivity|]. by split.
Defined.

Lemma bitfield_to_send_pieces_witness :
  ∃ bits, bitfield_to_send sample_config exchange_session = Ok (Some bits) ∧
    length bits = length (pieces exchange_session) ∧
    ∀ i, advertised bits i = true ↔
         ∃ q, pieces exchange_session !! i = Some q ∧ piece_done q = true.
Proof.
  apply (bitfield_to_send_pieces sample_config exchange_session);
    [apply sample_pieces_ok|reflexivity|].
  exists (Piece [] "p0" [] 4 true). split; [by left|done].
Defined.

(** the missing bytes of the third of four pieces *)
Definition announcing_session : session (list Z) plain_fs :=
  Session [3] false false (sample_pieces ++ [Piece [] "p3" [] 4 false]) {[7 := sample_peer]} 0
    (PlainFS ∅ ["/tmp/t_pieces"]) [].
Definition sample_triple : block_triple := MkTriple 2 1 3.
Definition sample_partial : piece (list Z) := Piece [Chunk (Some [[9]]) 0] "p2" [] 4 false.

Definition sample_add : outcome (session (list Z) plain_fs * bool * bool) :=
  add_block "/" "/tmp" (λ n, n) (λ n, n) (λ l, l) (λ _, 1) (λ _, []) chunk_sort sample_config
    sample_triple [[7; 7; 7]] announcing_session.

Lemma add_block_verifies_witness :
  ∃ s', sample_add = Ok (s', true, false) ∧
    ∃ cs fs1 fs2, completes chunk_sort sample_partial sample_triple [[7; 7; 7]] cs ∧
      saved "/" "/tmp" (λ n, n) (λ _, 1) sample_config announcing_session 2
        (with_chunks sample_partial cs) fs1 ∧
      s' = set_files fs2 (piece_announced sample_config 2
        (set_on_disk (with_chunks sample_partial cs) []) fs1 announcing_session).
Proof.
  destruct sample_add as [[[s' [|]] [|]]| |] eqn:Hadd; try (vm_compute in Hadd; discriminate Hadd).
  exists s'. split; [reflexivity|].
  destruct (add_block_verifies "/" "/tmp" (λ n, n) (λ n, n) (λ l, l) (λ _, 1) (λ _, [])
    chunk_sort sample_config 2 sample_triple [[7; 7; 7]] announcing_session sample_partial
    eq_refl eq_refl) as [Hreturn _].
  destruct (Hreturn s' true false Hadd) as (_ & Hann & _).
  destruct (Hann eq_refl) as (cs & fs1 & fs2 & Hc & Hs & He & _). by exists cs, fs1, fs2.
Defined.

(** A bitfield that is too short is kept as it is; looking for a piece in it reads past
    its end. *)
Definition new_peer : peer := Peer [3] [] (PeerStatus true false true false 0).
Example short_bitfield_undefined :
  notify "/" "/tmp" id sample_extension sample_sort (λ _, 1) (λ _, []) chunk_sort sample_config
    sample_env 3 (MkPeerRecord 1 BITTORRENT_MESSAGETYPE_BITFIELD [] 0 (MkTriple 0 0 0)) None
    (set_peer 7 new_peer exchange_session) = Undef ∧
  requestNextPiece sample_env 3 (set_peer 7 new_peer exchange_session) = Undef.
Proof. split; reflexivity. Qed.

(** a piece on disk *)
Definition stored_piece : piece (list Z) := Piece [] "aB3dE6" [] 4 true.
Definition stored_files : plain_fs :=
  PlainFS {[pieces_directory "/" "/tmp" "t" +:+ "/0_aB3dE6.piece" := [5; 6; 7; 8]]}
    ["/tmp/t_pieces"].
Definition serving_session : session (list Z) plain_fs :=
  Session [3] false false [stored_piece] {[7 := sample_peer]} 0 stored_files [].

Lemma sample_stored :
  stored "/" "/tmp" id sample_extension sample_sort sample_config 0 stored_piece
    (files serving_session) [5; 6; 7; 8].
Proof. repeat split; vm_compute; reflexivity. Defined.

Lemma piece_uploaded_once_witness :
  ∃ s' cont r, piece_ "/" "/tmp" id sample_extension sample_sort sample_config sample_env
      3 0 0 2 serving_session = Ok s' ∧
    outputs s' = [Send 3 r cont] ∧ chain_bytes cont = [5; 6] ∧
    piece_ "/" "/tmp" id sample_extension sample_sort sample_config sample_env
      3 0 2 2 s' = Abort.
Proof.
  destruct (piece_uploaded_once "/" "/tmp" id sample_extension sample_sort sample_config
    sample_env 3 0 stored_piece [5; 6; 7; 8] 2 serving_session)
    as (s' & cont & r & Hs & Ho & _ & _ & Hb & Hagain);
    [done|done|done|done|apply sample_stored|unfold zlen; cbn; lia|unfold zlen; cbn; lia|].
  exists s', cont, r. split; [exact Hs|]. split; [exact Ho|]. split; [exact Hb|].
  by apply (Hagain sample_env).
Defined.

Lemma later_block_undefined_witness :
  piece_ "/" "/tmp" id sample_extension sample_sort sample_config sample_env
    3 0 2 2 serving_session = Undef.
Proof.
  apply (later_block_undefined "/" "/tmp" id sample_extension sample_sort sample_config
    sample_env 3 0 stored_piece [5; 6; 7; 8] 2 2 serving_session);
    [done|done|done|apply sample_stored|lia|done].
Defined.

Lemma peer_input_unchecked_witness :
  notify "/" "/tmp" id sample_extension sample_sort (λ _, 1) (λ _, []) chunk_sort sample_config
    sample_env 3 (MkPeerRecord 5 BITTORRENT_MESSAGETYPE_HAVE [] 8 (MkTriple 0 0 0)) None
    exchange_session = Undef.
Proof.
  destruct (peer_input_unchecked "/" "/tmp" id sample_extension sample_sort (λ _, 1) (λ _, [])
    chunk_sort sample_config sample_env 3 7 sample_peer
    (MkPeerRecord 5 BITTORRENT_MESSAGETYPE_HAVE [] 8 (MkTriple 0 0 0)) None exchange_session)
    as [Hhave _]; [reflexivity|reflexivity|done|].
  apply Hhave; [reflexivity|vm_compute; discriminate].
Defined.

Lemma make_pieces_lengths_witness :
  ∃ ps : list (piece (list Z)), make_pieces 10 4 ["a"; "b"; "c"] [[1]; [2]; [3]] = Ok ps ∧
    zsum (BitTorrentPieces.length_ <$> ps) = 10.
Proof.
  destruct (make_pieces_lengths (B := list Z) 10 4 ["a"; "b"; "c"] [[1]; [2]; [3]])
    as (ps & Hps & _ & Hs & _); [done|lia|cbn; lia|repeat constructor; done|unfold zlen; cbn; lia|].
  by exists ps.
Defined.
