(* ===== verification/BitTorrentProtocol.v ===== *)
(** * The protocol with the peers (bittorrent_session.inl)

    An abstract specification of what a session may send to a peer, given what it has
    received from it, and the refinement: all that the handlers of [BitTorrentSession]
    send, in every sequence of events, is allowed.  The state of a peer is shared by its
    connections, as in the code. *)
From S2P Require Import Prelude MessageBlock BitTorrentPieces BitTorrentChunks Platform.
From S2P Require Import BitTorrentFiles BitTorrentStore BitTorrentText BitTorrentWire BitTorrentSession.

(** ** The specification

    What has been agreed with a peer: its connections, whether it chokes this side,
    whether interest in it has been declared, whether it may be served, and the number of
    blocks that have been requested and not received. *)
Record view := View {
  v_connections : list Z;
  v_choked : bool;
  v_interested : bool;
  v_serving : bool;
  v_outstanding : Z
}.
Definition view_init : view := View [] true false false 0.

(** what a message of the peer changes *)
Definition received (t : BitTorrent_MessageType) (v : view) : view :=
  match t with
  | BITTORRENT_MESSAGETYPE_CHOKE =>
      View (v_connections v) true (v_interested v) (v_serving v) (v_outstanding v)
  | BITTORRENT_MESSAGETYPE_UNCHOKE =>
      View (v_connections v) false (v_interested v) (v_serving v) (v_outstanding v)
  | BITTORRENT_MESSAGETYPE_PIECE =>
      View (v_connections v) (v_choked v) (v_interested v) (v_serving v) (v_outstanding v - 1)
  | _ => v
  end.

(** what may be sent, and what this changes: no request while choked, no data to a peer
    that has not been unchoked, and interest is declared once *)
Definition accept (t : BitTorrent_MessageType) (v : view) : option view :=
  match t with
  | BITTORRENT_MESSAGETYPE_UNCHOKE =>
      Some (View (v_connections v) (v_choked v) (v_interested v) true (v_outstanding v))
  | BITTORRENT_MESSAGETYPE_CHOKE =>
      Some (View (v_connections v) (v_choked v) (v_interested v) false (v_outstanding v))
  | BITTORRENT_MESSAGETYPE_INTERESTED =>
      if v_interested v then None
      else Some (View (v_connections v) (v_choked v) true (v_serving v) (v_outstanding v))
  | BITTORRENT_MESSAGETYPE_NOT_INTERESTED =>
      Some (View (v_connections v) (v_choked v) false (v_serving v) (v_outstanding v))
  | BITTORRENT_MESSAGETYPE_REQUEST =>
      if v_choked v then None
      else Some (View (v_connections v) (v_choked v) (v_interested v) (v_serving v)
                   (v_outstanding v + 1))
  | BITTORRENT_MESSAGETYPE_PIECE => if v_serving v then Some v else None
  | _ => None
  end.

(** messages that are always allowed *)
Definition unconditional (t : BitTorrent_MessageType) : bool :=
  match t with
  | BITTORRENT_MESSAGETYPE_HAVE | BITTORRENT_MESSAGETYPE_BITFIELD => true
  | _ => false
  end.

(** the events that a session handles *)
Inductive event (B : Type) :=
  | Connected (id : Z)
  | Disconnected (id : Z)
  | Received (id : Z) (r : BitTorrent_PeerRecord) (d : option (list B))
  | TrackerConnected (found : bool) (id : Z)
  | TrackerDisconnected (id : Z)
  | TrackerRedirected (location : string)
  | TrackerFailed.
Arguments Connected {B} id.
Arguments Disconnected {B} id.
Arguments Received {B} id r d.
Arguments TrackerConnected {B} found id.
Arguments TrackerDisconnected {B} id.
Arguments TrackerRedirected {B} location.
Arguments TrackerFailed {B}.

Section Protocol.
Context {B : Type}.
Implicit Types (env : environment) (vs : gmap Z view).

Definition send_step env (o : output B) vs : option (gmap Z view) :=
  match o with
  | Send id r _ =>
      if unconditional (type r) then Some vs
      else
        match connectionIdToPeerAddress env id with
        | Ok a => v ← vs !! a; v' ← accept (type r) v; Some (<[a := v']> vs)
        | _ => None
        end
  | _ => Some vs
  end.
Fixpoint sends env (os : list (output B)) vs : option (gmap Z view) :=
  match os with
  | [] => Some vs
  | o :: os' => vs' ← send_step env o vs; sends env os' vs'
  end.

Definition at_peer env (id : Z) (f : Z → gmap Z view) : gmap Z view :=
  match connectionIdToPeerAddress env id with Ok a => f a | _ => ∅ end.

Definition receive_step env (ev : event B) vs : gmap Z view :=
  match ev with
  | Connected id => at_peer env id (λ a,
      let v := default view_init (vs !! a) in
      <[a := View (v_connections v ++ [id]) (v_choked v) (v_interested v) (v_serving v)
               (v_outstanding v)]> vs)
  | Disconnected id => at_peer env id (λ a,
      let v := default view_init (vs !! a) in
      let l := remove_id id (v_connections v) in
      if bool_decide (l = []) then delete a vs
      else <[a := View l (v_choked v) (v_interested v) (v_serving v) (v_outstanding v)]> vs)
  | Received id r _ =>
      if record_length r =? 0 then vs
      else at_peer env id (λ a, alter (received (type r)) a vs)
  | _ => vs
  end.

(** a log of events, each with what is outside and what is sent *)
Definition entry : Type := environment * event B * list (output B).
Fixpoint accepts (log : list entry) vs : option (gmap Z view) :=
  match log with
  | [] => Some vs
  | (env, ev, os) :: log' =>
      vs' ← sends env os (receive_step env ev vs); accepts log' vs'
  end.
End Protocol.

(** ** The session *)
Definition view_of (p : peer) : view :=
  View (peer_connections p) (am_choking (status p)) (am_interested (status p))
    (negb (peer_choking (status p))) (requesting_piece (status p)).

Section Handling.
Context {B FS E : Type} `{MessageBlock B} `{FileSystem FS} `{!FileStream FS} `{Bencoding E}.
Variable separator : string.
Variable download_directory : string.
Variables basename file_basename : string → string.
Variable fileExtension : string → string.
Variable sort_identifiers : list string → list string.
Variable digitsBase10 : Z → Z.
Variable SHA1 : list Z → list Z.
Variable std_sort : list (chunk B) → list (chunk B).
Variable c : configuration E.
Variable peerId : string.

Definition abs (s : session B FS) : gmap Z view := view_of <$> peerState s.

Definition handle (env : environment) (ev : event B) (s : session B FS) :
    outcome (session B FS) :=
  match ev with
  | Connected id => connect SHA1 c peerId env id s
  | Disconnected id => disconnect file_basename c env id s
  | Received id r d =>
      notify separator download_directory basename fileExtension sort_identifiers
        digitsBase10 SHA1 std_sort c env id r d s
  | TrackerConnected found id => trackerConnect c found id s
  | TrackerDisconnected id => trackerDisconnect c id s
  | TrackerRedirected location => Ok (trackerRedirect c location s)
  | TrackerFailed => Ok (trackerError c s)
  end.

(** runs of the session, with their logs *)
Inductive run : session B FS → list (entry (B := B)) → session B FS → Prop :=
  | run_nil s : run s [] s
  | run_step s env ev os s1 log s' :
      handle env ev s = Ok s1 → outputs s1 = outputs s ++ os → run s1 log s' →
      run s ((env, ev, os) :: log) s'.
End Handling.

(** every message can be sent *)
Definition working (env : environment) : Prop :=
  ∀ id, message_available env id = true ∧ send_works env id = true.

(** ** The refinement *)
Section Effects.
Context {B FS : Type}.
Implicit Types (s : session B FS) (p : peer) (env : environment) (vs : gmap Z view).
Implicit Types (o : output B) (os : list (output B)).

Definition quiet (o : output B) : bool :=
  match o with Send _ r _ => unconditional (type r) | _ => true end.

Lemma sends_app env os os' vs :
  sends env (os ++ os') vs = (vs' ← sends env os vs; sends env os' vs').
Proof.
  revert vs. induction os as [|o os IH]; intros vs; [done|].
  cbn. destruct (send_step env o vs); [apply IH|done].
Qed.

Lemma sends_quiet env os vs : Forall (λ o, quiet o = true) os → sends env os vs = Some vs.
Proof.
  induction 1 as [|o os Ho _ IH]; [done|]. cbn.
  destruct o; cbn in Ho |- *; by rewrite ?Ho.
Qed.

(** [s'] follows [s] with sends that are allowed *)
Definition effect env s s' : Prop :=
  ∃ os, outputs s' = outputs s ++ os ∧ sends env os (abs s) = Some (abs s').
(** the same with sends that are always allowed, and no change to the peers *)
Definition silent s s' : Prop :=
  abs s' = abs s ∧ ∃ os, outputs s' = outputs s ++ os ∧ Forall (λ o, quiet o = true) os.

Lemma effect_trans env s1 s2 s3 : effect env s1 s2 → effect env s2 s3 → effect env s1 s3.
Proof.
  intros (os & Ho & Hs) (os' & Ho' & Hs'). exists (os ++ os').
  split; [by rewrite Ho', Ho, app_assoc|]. by rewrite sends_app, Hs.
Qed.
Lemma silent_effect env s s' : silent s s' → effect env s s'.
Proof. intros [Ha (os & Ho & Hq)]. exists os. split; [done|]. rewrite Ha. by apply sends_quiet. Qed.
Lemma silent_refl s : silent s s.
Proof. split; [done|]. exists []. by rewrite app_nil_r. Qed.
Lemma silent_trans s1 s2 s3 : silent s1 s2 → silent s2 s3 → silent s1 s3.
Proof.
  intros [Ha (os & Ho & Hq)] [Ha' (os' & Ho' & Hq')]. split; [congruence|].
  exists (os ++ os'). split; [by rewrite Ho', Ho, app_assoc|]. by apply Forall_app.
Qed.
Lemma silent_emit o s : quiet o = true → silent s (emit o s).
Proof. intros Hq. split; [done|]. exists [o]. split; [done|]. by constructor. Qed.
(** a change that shows neither in the peers nor in the outputs *)
Lemma silent_same s s' : peerState s' = peerState s → outputs s' = outputs s → silent s s'.
Proof.
  intros Hp Ho. split; [unfold abs; by rewrite Hp|]. exists []. by rewrite app_nil_r.
Qed.

(** what an event leads to, from the view [vs] that its receipt gives *)
Definition follows env vs s s' : Prop :=
  ∃ os, outputs s' = outputs s ++ os ∧ sends env os vs = Some (abs s').

Lemma follows_effect env vs s1 s2 s3 :
  follows env vs s1 s2 → effect env s2 s3 → follows env vs s1 s3.
Proof.
  intros (os & Ho & Hs) (os' & Ho' & Hs'). exists (os ++ os').
  split; [by rewrite Ho', Ho, app_assoc|]. by rewrite sends_app, Hs.
Qed.
(** the peers change with quiet outputs only *)
Lemma follows_quiet env s1 s2 s3 :
  silent s1 s2 → outputs s3 = outputs s2 → follows env (abs s3) s1 s3.
Proof.
  intros [_ (os & Ho & Hq)] Ho'. exists os. split; [congruence|]. by apply sends_quiet.
Qed.
Lemma follows_now env s s' : outputs s' = outputs s → follows env (abs s') s s'.
Proof. intros Ho. apply (follows_quiet env s s); [apply silent_refl|done]. Qed.

Lemma find_peer_Ok a s p : find_peer a s = Ok p ↔ peerState s !! a = Some p.
Proof. unfold find_peer. destruct (peerState s !! a); naive_solver. Qed.
Lemma abs_lookup a s p : peerState s !! a = Some p → abs s !! a = Some (view_of p).
Proof. intros Hp. unfold abs. by rewrite lookup_fmap, Hp. Qed.
Lemma abs_set_peer a p s : abs (set_peer a p s) = <[a := view_of p]> (abs s).
Proof. unfold abs. cbn. by rewrite fmap_insert. Qed.
(** a change of a peer that does not show *)
Lemma abs_set_peer_same a p p' s :
  peerState s !! a = Some p → view_of p' = view_of p → abs (set_peer a p' s) = abs s.
Proof.
  intros Hp Hv. rewrite abs_set_peer, Hv. by rewrite insert_id by (by apply abs_lookup).
Qed.

Lemma update_status_Ok a f s s' :
  update_status a f s = Ok s' →
  ∃ p, peerState s !! a = Some p ∧ s' = set_peer a (with_status (f (status p)) p) s.
Proof. unfold update_status. intros (p & Hp%find_peer_Ok & [= <-])%bind_Ok. eauto. Qed.

Lemma send_record_Ok env id r s s' :
  working env → send_record env id r s = Ok s' → s' = emit (Send id r []) s.
Proof.
  intros Hw. destruct (Hw id) as [Hm Hs]. unfold send_record. rewrite Hm, Hs.
  by intros (_ & _ & [= <-])%bind_Ok.
Qed.

(** a record that the specification accepts *)
Lemma send_accepted env id a r d s s1 v v' :
  connectionIdToPeerAddress env id = Ok a → unconditional (type r) = false →
  abs s !! a = Some v → accept (type r) v = Some v' →
  outputs s1 = outputs s → abs s1 = <[a := v']> (abs s) →
  effect env s (emit (Send id r d) s1).
Proof.
  intros Ha Hu Hv Hacc Ho Habs. exists [Send id r d]. cbn [outputs emit]. rewrite Ho.
  split; [done|]. cbn. rewrite Hu, Ha, Hv. cbn. rewrite Hacc. cbn. by rewrite <- Habs.
Qed.
End Effects.

Section Handlers.
Context {B FS M : Type} `{MessageBlock B} `{FileSystem FS} `{!FileStream FS} `{Bencoding M}.
Context (separator download_directory : string) (basename file_basename : string → string).
Context (fileExtension : string → string) (sort_identifiers : list string → list string).
Context (digitsBase10 : Z → Z) (SHA1 : list Z → list Z).
Context (std_sort : list (chunk B) → list (chunk B)) (c : configuration M).
Implicit Types (s : session B FS) (p : peer) (env : environment).

Lemma notify_subscriber_silent e s : silent s (notify_subscriber c e s).
Proof. unfold notify_subscriber. destruct_if; [by apply silent_emit|apply silent_refl]. Qed.

Lemma have_silent env i ids : ∀ s s', have_loop env i ids s = Ok s' → silent s s'.
Proof.
  induction ids as [|id ids IH]; intros s s' Hs; cbn in Hs; [simplify_eq; apply silent_refl|].
  destruct_if; [by apply IH|]. apply bind_Ok in Hs as (_ & _ & Hs).
  destruct_if; [by apply IH|]. destruct_if; [simplify_eq; apply silent_refl|].
  eapply silent_trans; [|by apply IH]. by apply silent_emit.
Qed.

Lemma request_and_count_effect env a id s s' p :
  working env → connectionIdToPeerAddress env id = Ok a →
  peerState s !! a = Some p → am_choking (status p) = false →
  request_and_count env a id s = Ok s' → effect env s s'.
Proof.
  intros Hw Ha Hp Hc. unfold request_and_count, requestNextPiece. rewrite Ha.
  intros ([s1 b] & Hr & Hs')%bind_Ok. cbn [mbind outcome_bind] in Hr.
  apply bind_Ok in Hr as (p' & Hp'%find_peer_Ok & Hr). simplify_eq.
  apply bind_Ok in Hr as (missing & _ & Hr). destruct missing; cbn [negb] in Hr.
  - apply bind_Ok in Hr as ([i r] & _ & Hr).
    apply bind_Ok in Hr as (s2 & Hr & [= -> <-]).
    unfold request in Hr. apply bind_Ok in Hr as (_ & _ & Hr).
    apply bind_Ok in Hr as (_ & _ & Hr). apply send_record_Ok in Hr as ->; [|done].
    apply update_status_Ok in Hs' as (p1 & Hp1 & ->). cbn in Hp1. simplify_eq.
    eapply (send_accepted env id a _ _ s (set_peer a _ s)); try done.
    + by apply abs_lookup.
    + cbn. by rewrite Hc.
    + rewrite abs_set_peer. unfold view_of. cbn. by rewrite Hc.
  - apply bind_Ok in Hr as (s2 & Hr & [= -> <-]). simplify_eq.
    apply send_record_Ok in Hr as ->; [|done].
    eapply (send_accepted env id a _ _ s (set_peer a _ s)); try done.
    + by apply abs_lookup.
    + by rewrite abs_set_peer.
Qed.

Lemma send_interested_effect env a id b s s' :
  working env → connectionIdToPeerAddress env id = Ok a →
  send_interested env a id b s = Ok s' → effect env s s'.
Proof.
  intros Hw Ha. unfold send_interested. intros (p & Hp%find_peer_Ok & Hs)%bind_Ok.
  destruct (am_interested (status p)) eqn:Hi, b; cbn in Hs;
    try (simplify_eq; apply silent_effect, silent_refl).
  apply send_record_Ok in Hs as ->; [|done].
  eapply (send_accepted env id a _ _ s (set_peer a _ s)); try done.
  - by apply abs_lookup.
  - cbn. by rewrite Hi.
  - by rewrite abs_set_peer.
Qed.

Lemma open_another_silent env id p s : silent s (open_another c env id p s).
Proof.
  unfold open_another. destruct_if; [|apply silent_refl].
  destruct (connection_info env id); [by apply silent_emit|apply silent_refl].
Qed.

Lemma piece_completed_silent i q s s' b b' :
  piece_completed separator download_directory basename fileExtension sort_identifiers
    digitsBase10 SHA1 c i q s = Ok (s', b, b') → silent s s'.
Proof.
  unfold piece_completed. intros (valid & _ & Hs)%bind_Ok. destruct valid; cbn [negb] in Hs.
  - apply bind_Ok in Hs as ([[fs q'] saved] & _ & Hs). apply bind_Ok in Hs as (_ & _ & Hs).
    apply bind_Ok in Hs as (missing & _ & Hs).
    assert (Hn : silent s (notify_subscriber c (PieceComplete i)
                             (set_files fs (set_piece i q' s)))).
    { eapply silent_trans; [|apply notify_subscriber_silent]. by apply silent_same. }
    destruct missing; [by simplify_eq|].
    apply bind_Ok in Hs as ([fs2 assembled] & _ & Hs). apply bind_Ok in Hs as (_ & _ & Hs).
    simplify_eq. eapply silent_trans; [exact Hn|]. by apply silent_same.
  - apply bind_Ok in Hs as (cs & _ & Hs). simplify_eq. by apply silent_same.
Qed.

Lemma add_block_silent t d s s' b b' :
  add_block separator download_directory basename fileExtension sort_identifiers
    digitsBase10 SHA1 std_sort c t d s = Ok (s', b, b') → silent s s'.
Proof.
  unfold add_block. intros (q & _ & Hs)%bind_Ok. apply bind_Ok in Hs as (complete & _ & Hs).
  destruct complete; [simplify_eq; apply silent_refl|].
  apply bind_Ok in Hs as (cs & _ & Hs). apply bind_Ok in Hs as (complete & _ & Hs).
  destruct complete; cbn [negb] in Hs; [|simplify_eq; by apply silent_same].
  eapply silent_trans; [|eapply piece_completed_silent; exact Hs]. by apply silent_same.
Qed.

Lemma piece_to_send_silent i s s' q :
  piece_to_send separator download_directory basename fileExtension sort_identifiers c i s =
    Ok (s', q) → silent s s'.
Proof.
  unfold piece_to_send. intros (q0 & _ & Hs)%bind_Ok. destruct (onDisk q0).
  - apply bind_Ok in Hs as ([q' loaded] & _ & Hs). simplify_eq. by apply silent_same.
  - apply bind_Ok in Hs as (complete & _ & Hs). simplify_eq. apply silent_refl.
Qed.

Lemma piece_effect env id a p i b n s s' :
  working env → connectionIdToPeerAddress env id = Ok a →
  peerState s !! a = Some p → peer_choking (status p) = false →
  piece_ separator download_directory basename fileExtension sort_identifiers c env id i b n s =
    Ok s' → effect env s s'.
Proof.
  intros Hw Ha Hp Hc. unfold piece_. destruct (Hw id) as [Hm Hs]. rewrite Hm, Hs.
  intros (_ & _ & Hr)%bind_Ok. apply bind_Ok in Hr as (_ & _ & Hr). cbn [negb] in Hr.
  apply bind_Ok in Hr as ([s1 q] & Hq & Hr). apply piece_to_send_silent in Hq as Hsil.
  destruct q as [q|]; [|simplify_eq; by apply silent_effect].
  apply bind_Ok in Hr as (cont & _ & Hr). simplify_eq.
  eapply effect_trans; [by apply silent_effect|].
  assert (Hv : abs s1 !! a = Some (view_of p)).
  { destruct Hsil as [-> _]. by apply abs_lookup. }
  eapply (send_accepted env id a _ _ s1 s1 _ (view_of p)); try done.
  - cbn. by rewrite Hc.
  - by rewrite insert_id.
Qed.

Notation notify_record := (notify_record separator download_directory basename fileExtension
  sort_identifiers digitsBase10 SHA1 std_sort c).

Lemma alter_abs f a p s :
  peerState s !! a = Some p → alter f a (abs s) = <[a := f (view_of p)]> (abs s).
Proof.
  intros Hp. apply map_eq. intros j. rewrite lookup_alter, lookup_insert.
  case_decide; [|done]. subst. by rewrite (abs_lookup _ _ _ Hp).
Qed.

Lemma silent_pieces a bits p s :
  peerState s !! a = Some p → silent s (set_peer a (with_pieces bits p) s).
Proof.
  intros Hp. split; [by apply (abs_set_peer_same a p)|]. exists []. by rewrite app_nil_r.
Qed.

(** the handlers of messages that need more than one step *)
Lemma notify_unchoke_follows env a id p s s' :
  working env → connectionIdToPeerAddress env id = Ok a → peerState s !! a = Some p →
  notify_unchoke env a id s = Ok s' →
  follows env (<[a := received BITTORRENT_MESSAGETYPE_UNCHOKE (view_of p)]> (abs s)) s s'.
Proof.
  intros Hw Ha Hp. unfold notify_unchoke.
  intros (s1 & (p' & Hp' & ->)%update_status_Ok & Hs)%bind_Ok. simplify_eq.
  apply bind_Ok in Hs as (p1 & Hp1%find_peer_Ok & Hs).
  change (received BITTORRENT_MESSAGETYPE_UNCHOKE (view_of p))
    with (view_of (with_status (set_am_choking false (status p)) p)).
  rewrite <- (abs_set_peer a (with_status (set_am_choking false (status p)) p) s).
  eapply follows_effect; [by apply follows_now|].
  destruct_if; [|simplify_eq; apply silent_effect, silent_refl].
  eapply request_and_count_effect; try done.
  cbn in Hp1. rewrite lookup_insert_eq in Hp1. by simplify_eq.
Qed.

Lemma notify_interested_follows env a id p s s' :
  working env → connectionIdToPeerAddress env id = Ok a → peerState s !! a = Some p →
  notify_interested env a id s = Ok s' → effect env s s'.
Proof.
  intros Hw Ha Hp. unfold notify_interested.
  intros (s1 & (p' & Hp' & ->)%update_status_Ok & Hs)%bind_Ok. simplify_eq.
  apply send_record_Ok in Hs as ->; [|done].
  eapply (send_accepted env id a _ _ s (set_peer a _ s)); try done.
  - by apply abs_lookup.
  - by rewrite abs_set_peer.
Qed.

Lemma notify_have_follows env a id i p s s' :
  working env → connectionIdToPeerAddress env id = Ok a → peerState s !! a = Some p →
  notify_have c env a id i s = Ok s' → effect env s s'.
Proof.
  intros Hw Ha Hp. unfold notify_have.
  intros (p' & Hp'%find_peer_Ok & Hs)%bind_Ok. simplify_eq.
  apply bind_Ok in Hs as (bits & _ & Hs). apply bind_Ok in Hs as (missing & _ & Hs).
  apply bind_Ok in Hs as (s1 & Hs1 & Hs). apply bind_Ok in Hs as (p1 & Hp1%find_peer_Ok & Hs).
  apply (effect_trans _ _ (set_peer a (with_pieces bits p) s));
    [by apply silent_effect, silent_pieces|].
  eapply effect_trans; [by eapply send_interested_effect|].
  destruct (am_choking (status p1)) eqn:Hc; cbn [negb andb] in Hs;
    [simplify_eq; apply silent_effect, silent_refl|].
  destruct_if; [by eapply request_and_count_effect|].
  destruct missing; simplify_eq; apply silent_effect;
    [apply open_another_silent|apply silent_refl].
Qed.

Lemma notify_bitfield_follows env a id bits p s s' :
  working env → connectionIdToPeerAddress env id = Ok a → peerState s !! a = Some p →
  notify_bitfield env a id bits s = Ok s' → effect env s s'.
Proof.
  intros Hw Ha Hp. unfold notify_bitfield.
  intros (p' & Hp'%find_peer_Ok & Hs)%bind_Ok. simplify_eq.
  apply (effect_trans _ _ (set_peer a (with_pieces bits p) s));
    [by apply silent_effect, silent_pieces|].
  destruct (am_interested (status p)); [simplify_eq; apply silent_effect, silent_refl|].
  apply bind_Ok in Hs as (missing & _ & Hs). by eapply send_interested_effect.
Qed.

Lemma notify_request_follows env a id t p s s' :
  working env → connectionIdToPeerAddress env id = Ok a → peerState s !! a = Some p →
  notify_request separator download_directory basename fileExtension sort_identifiers c
    env a id t s = Ok s' → effect env s s'.
Proof.
  intros Hw Ha Hp. unfold notify_request.
  intros (p' & Hp'%find_peer_Ok & Hs)%bind_Ok. simplify_eq.
  destruct (peer_choking (status p)) eqn:Hc; [simplify_eq; apply silent_effect, silent_refl|].
  by eapply piece_effect.
Qed.

Lemma notify_piece_follows env a id t d p s s' :
  working env → connectionIdToPeerAddress env id = Ok a → peerState s !! a = Some p →
  notify_piece separator download_directory basename fileExtension sort_identifiers
    digitsBase10 SHA1 std_sort c env a id t d s = Ok s' →
  follows env (<[a := received BITTORRENT_MESSAGETYPE_PIECE (view_of p)]> (abs s)) s s'.
Proof.
  intros Hw Ha Hp. unfold notify_piece.
  intros ([[s1 ann] fin] & Hadd%add_block_silent & Hs)%bind_Ok.
  apply bind_Ok in Hs as (p1 & Hp1%find_peer_Ok & Hs).
  apply bind_Ok in Hs as (s2 & Hhave & Hs).
  assert (Hs2 : silent s1 s2).
  { destruct ann; [by eapply have_silent|]. simplify_eq. apply silent_refl. }
  apply bind_Ok in Hs as (s3 & (p2 & Hp2 & ->)%update_status_Ok & Hs).
  assert (Hv : view_of p1 = view_of p ∧ view_of p2 = view_of p).
  { apply abs_lookup in Hp, Hp1, Hp2. destruct Hs2 as [Hs2 _], Hadd as [Hadd _].
    rewrite Hs2 in Hp2. rewrite Hadd in Hp1, Hp2. split; congruence. }
  destruct Hv as [Hv1 Hv2].
  assert (Habs : <[a := received BITTORRENT_MESSAGETYPE_PIECE (view_of p)]> (abs s) =
    abs (set_peer a (with_status
      (set_requesting_piece (requesting_piece (status p2) - 1) (status p2)) p2) s2)).
  { rewrite abs_set_peer, <- Hv2. by destruct Hs2 as [-> _], Hadd as [-> _]. }
  rewrite Habs. apply bind_Ok in Hs as (s4 & Hreq & Hs).
  eapply follows_effect; [eapply follows_quiet; [by eapply silent_trans|done]|].
  eapply (effect_trans _ _ s4).
  - destruct (am_choking (status p1)) eqn:Hc; cbn [orb negb] in Hreq;
      [simplify_eq; apply silent_effect, silent_refl|].
    destruct fin; cbn [negb] in Hreq; [simplify_eq; apply silent_effect, silent_refl|].
    eapply request_and_count_effect; [exact Hw|exact Ha| | |exact Hreq].
    + apply lookup_insert_eq.
    + cbn. unfold view_of in Hv1, Hv2. congruence.
  - apply silent_effect. destruct fin; simplify_eq; [|apply silent_refl].
    eapply silent_trans; [apply notify_subscriber_silent|by apply silent_emit].
Qed.

(** messages that change nothing by themselves *)
Lemma alter_received_same ty a s :
  (∀ v, received ty v = v) → alter (received ty) a (abs s) = abs s.
Proof.
  intros Hv. apply map_eq. intros j. rewrite lookup_alter. case_decide; [|done].
  subst. destruct (abs s !! j); cbn; by rewrite ?Hv.
Qed.

Lemma notify_record_follows env a id r d s s' :
  working env → connectionIdToPeerAddress env id = Ok a →
  notify_record env a id r d s = Ok s' →
  follows env (alter (received (type r)) a (abs s)) s s'.
Proof.
  intros Hw Ha Hn. destruct (peerState s !! a) as [p|] eqn:Hp.
  - unfold notify_record in Hn. destruct (type r) eqn:Ht;
      try (rewrite alter_received_same by done);
      try (simplify_eq; by apply silent_effect, silent_refl);
      try (rewrite (alter_abs _ a p s Hp)).
    + apply update_status_Ok in Hn as (p' & Hp' & ->). assert (p' = p) as -> by congruence.
      change (received BITTORRENT_MESSAGETYPE_CHOKE (view_of p))
        with (view_of (with_status (set_am_choking true (status p)) p)).
      rewrite <- abs_set_peer. by apply follows_now.
    + by eapply notify_unchoke_follows.
    + by eapply notify_interested_follows.
    + apply update_status_Ok in Hn as (p' & Hp' & ->). assert (p' = p) as -> by congruence.
      rewrite <- (abs_set_peer_same a p (with_status (set_peer_interested false (status p)) p))
        by done. by apply follows_now.
    + by eapply notify_have_follows.
    + by eapply notify_bitfield_follows.
    + by eapply notify_request_follows.
    + destruct d as [d|]; [|done]. by eapply notify_piece_follows.
  - assert (Hf : find_peer a s = Abort) by (unfold find_peer; by rewrite Hp).
    unfold notify_record in Hn. destruct (type r) eqn:Ht;
      try (simplify_eq; rewrite alter_received_same by done; by apply silent_effect, silent_refl).
    all: unfold notify_choke, notify_unchoke, notify_interested, notify_not_interested,
      notify_have, notify_bitfield, notify_request, update_status in Hn.
    all: try (rewrite Hf in Hn; discriminate Hn).
    destruct d as [d|]; [|done]. unfold notify_piece in Hn.
    apply bind_Ok in Hn as ([[s1 ann] fin] & Hadd%add_block_silent & Hn).
    apply bind_Ok in Hn as (p1 & Hp1%find_peer_Ok & Hn).
    apply abs_lookup in Hp1. destruct Hadd as [Hadd _]. rewrite Hadd in Hp1.
    unfold abs in Hp1. by rewrite lookup_fmap, Hp in Hp1.
Qed.

Lemma notify_follows env id r d s s' :
  working env →
  notify separator download_directory basename fileExtension sort_identifiers
    digitsBase10 SHA1 std_sort c env id r d s = Ok s' →
  follows env (receive_step env (Received id r d) (abs s)) s s'.
Proof.
  intros Hw. unfold notify. set (s0 := notify_subscriber c _ s).
  assert (Hs0 : silent s s0) by apply notify_subscriber_silent.
  intros (a & Ha & Hn)%bind_Ok. cbn [receive_step]. unfold at_peer. rewrite Ha.
  destruct Hs0 as [Habs (os & Ho & Hq)]. rewrite <- Habs.
  destruct (record_length r =? 0).
  - simplify_eq. exists os. split; [done|]. by apply sends_quiet.
  - apply notify_record_follows in Hn as (os' & Ho' & Hs'); [|done..].
    exists (os ++ os'). split; [by rewrite Ho', Ho, app_assoc|].
    rewrite sends_app, sends_quiet by done. done.
Qed.

Lemma populate_abs env id s s' :
  populatePeerPiecesBitfield c env id s = Ok s' → abs s' = abs s ∧ outputs s' = outputs s.
Proof.
  unfold populatePeerPiecesBitfield. intros (a & _ & Hs)%bind_Ok.
  apply bind_Ok in Hs as (p & Hp%find_peer_Ok & Hs). apply bind_Ok in Hs as (_ & _ & Hs).
  apply bind_Ok in Hs as (info & _ & Hs). apply bind_Ok in Hs as (hashes & _ & Hs).
  apply bind_Ok in Hs as (_ & _ & [= <-]). split; [|done]. by apply (abs_set_peer_same a p).
Qed.

Lemma connect_follows peerId env id s s' :
  working env → connect SHA1 c peerId env id s = Ok s' →
  follows env (receive_step env (Connected (B := B) id) (abs s)) s s'.
Proof.
  intros Hw. destruct (Hw id) as [Hm Hse]. unfold connect. rewrite Hm, Hse.
  intros (s1 & Hs1 & Hs)%bind_Ok. unfold base_connect in Hs1.
  apply bind_Ok in Hs1 as (_ & _ & [= <-]). apply bind_Ok in Hs as (a & Ha & Hs).
  cbn [peerState set_connections] in Hs. set (p := default PeerState_init _) in Hs.
  set (s2 := set_peer a _ _) in Hs.
  assert (Habs2 : receive_step env (Connected (B := B) id) (abs s) = abs s2).
  { unfold s2. rewrite abs_set_peer. cbn [receive_step]. unfold at_peer. rewrite Ha.
    assert (Hv : default view_init (abs s !! a) = view_of p).
    { unfold abs, p. rewrite lookup_fmap. by destruct (peerState s !! a). }
    by rewrite Hv. }
  rewrite Habs2. apply bind_Ok in Hs as (s3 & Hs3 & Hs).
  assert (Hs23 : abs s3 = abs s2 ∧ outputs s3 = outputs s2).
  { destruct (bool_decide (peer_pieces p = [])); [by eapply populate_abs|injection Hs3 as Hs3; by rewrite <- Hs3]. }
  destruct Hs23 as [Habs3 Ho3]. rewrite <- Habs3.
  apply bind_Ok in Hs as (h & _ & Hs). cbn [andb negb] in Hs.
  set (s4 := emit _ s3) in Hs. apply bind_Ok in Hs as (bits & _ & Hs).
  assert (Hsil : silent s3 s4) by (by apply silent_emit).
  eapply follows_effect; [apply follows_now; by rewrite Ho3|].
  apply silent_effect. eapply silent_trans; [exact Hsil|].
  destruct bits; simplify_eq; [|apply notify_subscriber_silent].
  eapply silent_trans; [|apply notify_subscriber_silent]. by apply silent_emit.
Qed.

Lemma disconnect_follows env id s s' :
  disconnect file_basename c env id s = Ok s' →
  follows env (receive_step env (Disconnected (B := B) id) (abs s)) s s'.
Proof.
  unfold disconnect. intros (a & Ha & Hs)%bind_Ok. unfold base_disconnect in Hs.
  apply bind_Ok in Hs as (s1 & Hs1 & Hs). apply bind_Ok in Hs1 as (_ & _ & [= <-]).
  apply bind_Ok in Hs as (p & Hp%find_peer_Ok & Hs). apply bind_Ok in Hs as (_ & _ & [= <-]).
  cbn [peerState set_connections] in Hp. set (l := remove_id id (peer_connections p)).
  set (s2 := if bool_decide (l = []) then _ else _).
  assert (Habs2 : receive_step env (Disconnected (B := B) id) (abs s) = abs s2).
  { cbn [receive_step]. unfold at_peer. rewrite Ha, (abs_lookup _ _ _ Hp).
    change (default view_init (Some (view_of p))) with (view_of p).
    cbn [v_connections view_of]. fold l. unfold s2. destruct_if.
    - unfold abs. cbn. by rewrite fmap_delete.
    - by rewrite abs_set_peer. }
  rewrite Habs2. eapply follows_effect.
  { apply (follows_now env s s2). unfold s2. by destruct_if. }
  apply silent_effect. eapply silent_trans; [|apply notify_subscriber_silent].
  destruct_if; [by apply silent_emit|apply silent_refl].
Qed.

Lemma tracker_disconnect_silent id s s' : trackerDisconnect c id s = Ok s' → silent s s'.
Proof.
  unfold trackerDisconnect, base_disconnect. intros (s1 & Hs1 & Hs)%bind_Ok.
  apply bind_Ok in Hs1 as (_ & _ & [= <-]). apply bind_Ok in Hs as (e & _ & [= <-]).
  eapply silent_trans; [|apply notify_subscriber_silent].
  eapply silent_trans; [apply silent_same|];
    [..|destruct e; [by apply silent_emit|apply silent_refl]]; by destruct_if.
Qed.

Lemma tracker_connect_silent b id s s' : trackerConnect c b id s = Ok s' → silent s s'.
Proof.
  unfold trackerConnect, base_connect. intros (s1 & Hs1 & [= <-])%bind_Ok.
  apply bind_Ok in Hs1 as (_ & _ & [= <-]).
  eapply silent_trans; [|apply notify_subscriber_silent].
  destruct_if; [|by apply silent_same].
  eapply silent_trans; [by apply (silent_emit (AbortConnection (trackerConnectionId s)))|].
  by apply silent_same.
Qed.

Lemma handle_follows peerId env ev s s' :
  working env →
  handle separator download_directory basename file_basename fileExtension
    sort_identifiers digitsBase10 SHA1 std_sort c peerId env ev s = Ok s' →
  follows env (receive_step env ev (abs s)) s s'.
Proof.
  intros Hw. destruct ev as [id|id|id r d|found id|id|location|]; cbn [handle]; intros Hs.
  - by eapply connect_follows.
  - by apply disconnect_follows.
  - by apply notify_follows.
  - by eapply silent_effect, tracker_connect_silent.
  - by eapply silent_effect, tracker_disconnect_silent.
  - simplify_eq. by apply silent_effect, silent_emit.
  - simplify_eq. apply silent_effect.
    eapply silent_trans; [apply notify_subscriber_silent|by apply silent_emit].
Qed.
End Handlers.

(** ** The property *)
Section Refinement.
Context {B FS M : Type} `{MessageBlock B} `{FileSystem FS} `{!FileStream FS} `{Bencoding M}.
Context (separator download_directory : string) (basename file_basename : string → string).
Context (fileExtension : string → string) (sort_identifiers : list string → list string).
Context (digitsBase10 : Z → Z) (SHA1 : list Z → list Z).
Context (std_sort : list (chunk B) → list (chunk B)) (c : configuration M) (peerId : string).

(** C1: The session implements the protocol with its peers.  In every run in which
    messages can be sent, the log of what is received and sent is accepted by the
    specification: blocks are only requested from peers that do not choke this side, data
    is only sent to peers that have been unchoked, interest is declared once, and the
    state of each peer in the session, with the count of its outstanding requests, is
    what the specification makes of the log. *)
Theorem session_follows_protocol log (s s' : session B FS) :
  run separator download_directory basename file_basename fileExtension
    sort_identifiers digitsBase10 SHA1 std_sort c peerId s log s' →
  Forall (λ e, working e.1.1) log →
  accepts log (abs s) = Some (abs s').
Proof.
  induction 1 as [s|s env ev os s1 log s' Hh Ho _ IH]; intros Hw; [done|].
  apply Forall_cons in Hw as [Hw Hlog]. cbn in Hw. cbn [accepts].
  apply handle_follows in Hh as (os' & Ho' & Hs); [|done].
  assert (os' = os) as -> by (apply (app_inv_head (outputs s)); congruence).
  rewrite Hs. by apply IH.
Qed.
End Refinement.

(** ** A run: a peer connects, tells what it has, unchokes, and is asked for a block *)
Definition sample_info : list (string * element) :=
  [("info", BeDictionary [("pieces", BeString "0123456789abcdefghij")])].
Definition sample_configuration : configuration element :=
  Configuration element "/t.torrent" sample_info true false false.
Definition sample_environment : environment :=
  Environment (λ _, Some (Inet4 7)) (λ _, Some (Inet4 7)) (λ _, true) (λ _, true)
    (λ _ _, 0) (λ _ _, 0).
Definition sample_session : session (list Z) plain_fs :=
  Session [] false false [Piece [] "p" [] 4 false] ∅ 0 (PlainFS ∅ []) [].

Definition sample_handle (ev : event (list Z)) (s : session (list Z) plain_fs) :=
  handle "/" "/tmp" (λ n, n) (λ n, n) (λ n, n) (λ l, l) (λ _, 1) (λ d, d) chunk_sort
    sample_configuration "me" sample_environment ev s.
Definition sample_message (t : BitTorrent_MessageType) (bits : list Z) : event (list Z) :=
  Received 3 (MkPeerRecord 1 t bits 0 (MkTriple 0 0 0)) None.
Definition sample_events : list (event (list Z)) :=
  [Connected 3; sample_message BITTORRENT_MESSAGETYPE_BITFIELD [0x80];
   sample_message BITTORRENT_MESSAGETYPE_UNCHOKE [];
   sample_message BITTORRENT_MESSAGETYPE_INTERESTED []].

(** the log of a list of events *)
Fixpoint sample_log (evs : list (event (list Z))) (s : session (list Z) plain_fs) :
    list (entry (B := list Z)) * session (list Z) plain_fs :=
  match evs with
  | [] => ([], s)
  | ev :: evs' =>
      match sample_handle ev s with
      | Ok s1 =>
          let '(log, s') := sample_log evs' s1 in
          ((sample_environment, ev, drop (length (outputs s)) (outputs s1)) :: log, s')
      | _ => ([], s)
      end
  end.

Lemma session_follows_protocol_witness :
  let '(log, s') := sample_log sample_events sample_session in
  length (outputs s') = 4%nat ∧ accepts log ∅ = Some (abs s').
Proof.
  vm_compute sample_log. split; [reflexivity|].
  apply (session_follows_protocol "/" "/tmp" (λ n, n) (λ n, n) (λ n, n) (λ l, l) (λ _, 1)
    (λ d, d) chunk_sort sample_configuration "me" _ sample_session).
  - repeat (eapply run_step; [vm_compute; reflexivity|vm_compute; reflexivity|]). apply run_nil.
  - repeat constructor.
Defined.
