(* ===== verification/WebSocket.v ===== *)
(** * The frames of WebSocket (protocol/ws: ws_module_streamer.inl, scripts/scanner.l,
      ws_module_parser.h, ws_codes.h, ws_common.h, ws_tools.cpp)

    The streamer writes a frame for a record, with a random mask; the scanner reads the
    frames of a server, which are not masked.  Both are compared with the frames of
    RFC 6455. *)
From S2P Require Import Prelude MessageBlock ByteOrder.

(** [enum OpCodeType], by the number that is sent *)
Definition OPCODE_CONTINUATION : Z := 0.
Definition OPCODE_TEXT : Z := 1.
Definition OPCODE_BINARY : Z := 2.
Definition OPCODE_CLOSE : Z := 8.
Definition OPCODE_PING : Z := 9.
Definition OPCODE_PONG : Z := 10.
Definition OPCODE_MAX : Z := 15.
Definition OPCODE_INVALID : Z := 16.

(** What is used of a record: [payload] is the pointer (of either member of the union),
    and the bytes it points to. *)
Record WebSocket_Record := MkWebSocketRecord {
  final : bool;
  opcode : Z;
  payload : option (list Z);
  payloadSize : Z
}.
Definition WebSocket_Record_init : WebSocket_Record :=
  MkWebSocketRecord true OPCODE_INVALID None 0.

Definition OpCodeToString (opcode_in : Z) : string :=
  switch opcode_in [(OPCODE_CONTINUATION, "CONTINUATION"); (OPCODE_TEXT, "TEXT");
    (OPCODE_BINARY, "BINARY"); (OPCODE_CLOSE, "CLOSE"); (OPCODE_PING, "PING");
    (OPCODE_PONG, "PONG")] "INVALID/UNKNOWN".

(** ** The streamer *)

(** the bytes that are pushed for a number, by masks and shifts *)
Definition push_uint16 (v : Z) : list Z :=
  [Z.shiftr (Z.land v 0xFF00) 8; Z.land v 0x00FF].
Definition push_uint32 (v : Z) : list Z :=
  [Z.shiftr (Z.land v 0xFF000000) 24; Z.shiftr (Z.land v 0x00FF0000) 16;
   Z.shiftr (Z.land v 0x0000FF00) 8; Z.land v 0x000000FF].
Definition push_uint64 (v : Z) : list Z :=
  [Z.shiftr (Z.land v 0xFF00000000000000) 56; Z.shiftr (Z.land v 0x00FF000000000000) 48;
   Z.shiftr (Z.land v 0x0000FF0000000000) 40; Z.shiftr (Z.land v 0x000000FF00000000) 32;
   Z.shiftr (Z.land v 0x00000000FF000000) 24; Z.shiftr (Z.land v 0x0000000000FF0000) 16;
   Z.shiftr (Z.land v 0x000000000000FF00) 8; Z.land v 0x00000000000000FF].

(** the loop that masks the payload *)
Fixpoint mask_payload (i : Z) (masking_key_a data_p : list Z) : list Z :=
  match data_p with
  | [] => []
  | d :: data_p' =>
      Z.lxor d (default 0 (masking_key_a !! Z.to_nat (i `mod` 4)))
      :: mask_payload (i + 1) masking_key_a data_p'
  end.

Section Streamer.
Context {B : Type} `{WritableBlock B}.
(** [Common_Tools::max<ACE_UINT64> (2, false)] *)
Variable max_of_two_bytes : Z.
(** the streamer of HTTP, which sends the handshake *)
Variable http_handleDataMessage : WebSocket_Record → B → outcome (option B).

Definition frame_header (record_r : WebSocket_Record) (masking_key_i : Z) : list Z :=
  [Z.lor 0x80 (Z.land (opcode record_r) 0x0F)] ++
  (if payloadSize record_r <=? 125 then [Z.lor 0x80 (Z.land (payloadSize record_r) 0x7F)]
   else if payloadSize record_r <=? max_of_two_bytes then
     [Z.lor 0x80 0x7E] ++ push_uint16 (u16 (payloadSize record_r))
   else [Z.lor 0x80 0x7F] ++ push_uint64 (payloadSize record_r)) ++
  push_uint32 masking_key_i.

(** [None]: the message is released, there is no room *)
Definition stream_frame (record_r : WebSocket_Record) (masking_key_i : Z)
    (message_inout : B) : outcome (option B) :=
  _ ← ace_assert (block_length message_inout =? 0);
  let buffer_a := frame_header record_r masking_key_i in
  if mb_space message_inout <? zlen buffer_a then Ok None
  else
    match mb_copy buffer_a message_inout with
    | None => Ok None
    | Some b =>
        if payloadSize record_r =? 0 then Ok (Some b)
        else
          _ ← ace_assert (bool_decide (is_Some (payload record_r)));
          let data := default [] (payload record_r) in
          if zlen data <? payloadSize record_r then Undef
          else
            let payload_buffer_a :=
              mask_payload 0 (push_uint32 masking_key_i)
                (take (Z.to_nat (payloadSize record_r)) data) in
            if mb_space b <? zlen payload_buffer_a then Ok None
            else Ok (mb_copy payload_buffer_a b)
    end.

(** the first message is the handshake *)
Definition ws_handleDataMessage (handshakeComplete_ : bool) (record_r : WebSocket_Record)
    (masking_key_i : Z) (message_inout : B) : bool * outcome (option B) :=
  if negb handshakeComplete_ then (true, http_handleDataMessage record_r message_inout)
  else (true, stream_frame record_r masking_key_i message_inout).
End Streamer.

(** ** Frames of RFC 6455 *)

(** the size of the payload: 7 bits, or 126 and 16 bits, or 127 and 64 bits *)
Definition size_bytes (masked n : Z) : list Z :=
  if n <=? 125 then [masked + n]
  else if n <=? 65535 then (masked + 126) :: be_bytes 2 n
  else (masked + 127) :: be_bytes 8 n.

(** the frame of a client, which is masked, and that of a server, which is not *)
Definition client_frame (opcode : Z) (key data : list Z) : list Z :=
  (128 + opcode) :: size_bytes 128 (zlen data) ++ key ++ mask_payload 0 key data.
Definition server_frame (final : bool) (opcode : Z) (data : list Z) : list Z :=
  ((if final then 128 else 0) + opcode) :: size_bytes 0 (zlen data) ++ data.

(** what a server does with the frame of a client: opcode, payload and what follows *)
Definition read_size (bs : list Z) : option (Z * list Z) :=
  match bs with
  | [] => None
  | b :: bs' =>
      let n := b - 128 in
      if n <=? 125 then Some (n, bs')
      else if n =? 126 then Some (be_value (take 2 bs'), drop 2 bs')
      else Some (be_value (take 8 bs'), drop 8 bs')
  end.
Definition read_client_frame (bs : list Z) : option (Z * list Z * list Z) :=
  match bs with
  | [] => None
  | b :: bs' =>
      '(n, bs') ← read_size bs';
      let key := take 4 bs' in
      let data := drop 4 bs' in
      Some (b - 128, mask_payload 0 key (take (Z.to_nat n) data), drop (Z.to_nat n) data)
  end.

(** ** The numbers *)
Lemma shiftr_mask v k : 0 <= k → Z.shiftr (Z.land v (Z.shiftl 255 k)) k = (v `div` 2 ^ k) `mod` 256.
Proof.
  intros Hk. rewrite Z.shiftr_land, Z.shiftr_shiftl_l, Z.sub_diag, Z.shiftl_0_r by lia.
  change 255 with (Z.ones 8). by rewrite Z.land_ones, Z.shiftr_div_pow2 by lia.
Qed.
Lemma land_255 v : Z.land v 255 = v `mod` 256.
Proof. change 255 with (Z.ones 8). by rewrite Z.land_ones by lia. Qed.

Lemma push_uint16_be v : push_uint16 v = be_bytes 2 v.
Proof.
  unfold push_uint16, be_bytes. cbn [le_bytes rev app].
  change 0xFF00 with (Z.shiftl 255 8). by rewrite shiftr_mask, land_255 by lia.
Qed.
Lemma push_uint32_be v : push_uint32 v = be_bytes 4 v.
Proof.
  unfold push_uint32, be_bytes. cbn [le_bytes rev app]. rewrite !Z.div_div by lia.
  change 0xFF000000 with (Z.shiftl 255 24). change 0x00FF0000 with (Z.shiftl 255 16).
  change 0x0000FF00 with (Z.shiftl 255 8). by rewrite !shiftr_mask, land_255 by lia.
Qed.
Lemma push_uint64_be v : push_uint64 v = be_bytes 8 v.
Proof.
  unfold push_uint64, be_bytes. cbn [le_bytes rev app]. rewrite !Z.div_div by lia.
  change 0xFF00000000000000 with (Z.shiftl 255 56).
  change 0x00FF000000000000 with (Z.shiftl 255 48).
  change 0x0000FF0000000000 with (Z.shiftl 255 40).
  change 0x000000FF00000000 with (Z.shiftl 255 32).
  change 0x00000000FF000000 with (Z.shiftl 255 24).
  change 0x0000000000FF0000 with (Z.shiftl 255 16).
  change 0x000000000000FF00 with (Z.shiftl 255 8).
  by rewrite !shiftr_mask, land_255 by lia.
Qed.

Lemma lor_128 n : 0 <= n < 128 → Z.lor 128 n = 128 + n.
Proof.
  intros Hn.
  assert (Hall : forallb (λ k, Z.lor 128 (Z.of_nat k) =? 128 + Z.of_nat k) (seq 0 128) = true)
    by (by vm_compute).
  rewrite forallb_forall in Hall. specialize (Hall (Z.to_nat n)).
  rewrite Z2Nat.id, Z.eqb_eq in Hall by lia. apply Hall, in_seq. lia.
Qed.
Lemma lor_land_128 n k : 0 <= k <= 7 → 0 <= n < 2 ^ k → Z.lor 128 (Z.land n (Z.ones k)) = 128 + n.
Proof.
  intros Hk Hn. rewrite Z.land_ones, Z.mod_small by lia. apply lor_128.
  split; [lia|]. eapply Z.lt_le_trans; [apply Hn|].
  change 128 with (2 ^ 7). apply Z.pow_le_mono_r; lia.
Qed.

Lemma length_mask_payload i key data : length (mask_payload i key data) = length data.
Proof. revert i; induction data; intros; cbn; auto. Qed.
Lemma zlen_mask_payload i key data : zlen (mask_payload i key data) = zlen data.
Proof. unfold zlen. by rewrite length_mask_payload. Qed.
(** masking twice is no masking *)
Lemma mask_payload_involutive i key data : mask_payload i key (mask_payload i key data) = data.
Proof.
  revert i; induction data as [|d data IH]; intros i; cbn; [done|].
  by rewrite IH, Z.lxor_assoc, Z.lxor_nilpotent, Z.lxor_0_r.
Qed.

Lemma zlen_size_bytes m n :
  zlen (size_bytes m n) = if n <=? 125 then 1 else if n <=? 65535 then 3 else 9.
Proof.
  unfold size_bytes. destruct (n <=? 125); [done|].
  destruct (n <=? 65535); rewrite zlen_cons, zlen_be_bytes; done.
Qed.

Lemma read_size_bytes n rest :
  0 <= n < 2 ^ 64 → read_size (size_bytes 128 n ++ rest) = Some (n, rest).
Proof.
  intros Hn. unfold size_bytes. destruct (n <=? 125) eqn:E1; bool_lia.
  - cbn [app read_size]. replace (128 + n - 128) with n by lia.
    by rewrite (proj2 (Z.leb_le _ _)) by lia.
  - destruct (n <=? 65535) eqn:E2; bool_lia; cbn [app read_size];
      [change (128 + 126 - 128) with 126|change (128 + 127 - 128) with 127]; cbn [Z.leb Z.eqb Z.compare Pos.compare Pos.compare_cont Pos.eqb];
      rewrite take_app_length', drop_app_length' by (by rewrite length_be_bytes);
      rewrite be_value_bytes by lia; done.
Qed.

Lemma read_client_frame_spec op key data rest :
  length key = 4%nat → zlen data < 2 ^ 64 →
  read_client_frame (client_frame op key data ++ rest) = Some (op, data, rest).
Proof.
  intros Hk Hd. pose proof (zlen_nonneg data). unfold read_client_frame, client_frame.
  cbn [app]. rewrite <- !app_assoc, read_size_bytes by lia. cbn [mbind option_bind].
  rewrite take_app_length', drop_app_length' by done.
  rewrite take_app_length', drop_app_length'
    by (rewrite length_mask_payload; unfold zlen; lia).
  rewrite mask_payload_involutive. do 3 f_equal. lia.
Qed.

Section Frames.
Context {B : Type} `{WritableBlock B}.
Variable max_of_two_bytes : Z.

Lemma frame_header_client r key (data : list Z) :
  max_of_two_bytes = 65535 → 0 <= opcode r < 16 → payloadSize r = zlen data →
  zlen data < 2 ^ 64 →
  frame_header max_of_two_bytes r key =
    (128 + opcode r) :: size_bytes 128 (zlen data) ++ be_bytes 4 key.
Proof.
  intros Hmax Hop Hsize Hd. pose proof (zlen_nonneg data).
  unfold frame_header, size_bytes. rewrite Hsize, Hmax, push_uint32_be.
  change 0x0F with (Z.ones 4). rewrite lor_land_128 by lia. cbn [app]. do 2 f_equal.
  destruct (zlen data <=? 125) eqn:E1; bool_lia.
  - change 0x7F with (Z.ones 7). by rewrite lor_land_128 by lia.
  - destruct (zlen data <=? 65535) eqn:E2; bool_lia; cbn [app].
    + unfold u16. by rewrite push_uint16_be, Z.mod_small by lia.
    + by rewrite push_uint64_be.
Qed.

(** C12: a record is sent as one masked frame, whose size is in the shortest of the three
    forms, if there is room for all of it, and a server that reads the frame finds the
    opcode and the payload, and what follows the frame; otherwise the message is
    released. *)
Theorem stream_frame_roundtrip (Hmax : max_of_two_bytes = 65535) r masking_key_i (b : B) data
    (Hop : 0 <= opcode r < 16) (Hdata : payload r = Some data)
    (Hsize : payloadSize r = zlen data) (Hlen : zlen data < 2 ^ 64) (Hb : block_length b = 0) :
  let frame := client_frame (opcode r) (be_bytes 4 masking_key_i) data in
  if zlen frame <=? mb_space b then
    ∃ b', stream_frame max_of_two_bytes r masking_key_i b = Ok (Some b') ∧
      mb_bytes b' = frame ∧
      ∀ rest, read_client_frame (mb_bytes b' ++ rest) = Some (opcode r, data, rest)
  else stream_frame max_of_two_bytes r masking_key_i b = Ok None.
Proof.
  intros frame. unfold stream_frame. rewrite Hb. cbn [Z.eqb ace_assert mbind outcome_bind].
  rewrite (frame_header_client r masking_key_i data) by done.
  set (header := _ :: size_bytes 128 (zlen data) ++ be_bytes 4 masking_key_i).
  assert (Hframe : frame = header ++ mask_payload 0 (be_bytes 4 masking_key_i) data).
  { unfold frame, client_frame, header. cbn [app]. by rewrite <- app_assoc. }
  assert (Hflen : zlen frame = zlen header + zlen data)
    by (by rewrite Hframe, zlen_app, zlen_mask_payload).
  pose proof (zlen_nonneg data). pose proof (zlen_nonneg header).
  assert (Hread : ∀ rest, read_client_frame (frame ++ rest) = Some (opcode r, data, rest)).
  { intros rest. apply read_client_frame_spec; [apply length_be_bytes|done]. }
  destruct (mb_space b <? zlen header) eqn:Eh; bool_lia.
  { by rewrite (proj2 (Z.leb_gt _ _)) by lia. }
  destruct (mb_copy header b) as [b1|] eqn:Ec.
  2: { assert (Hr : is_Some (mb_copy header b)) by (apply mb_copy_room; lia).
       rewrite Ec in Hr. by destruct Hr. }
  destruct (mb_copy_bytes _ _ _ Ec) as [Hb1 Hs1].
  rewrite (zlen_0_inv _ Hb) in Hb1. cbn [app] in Hb1.
  rewrite Hsize, Hdata. destruct (zlen data =? 0) eqn:E0; bool_lia.
  - rewrite (proj2 (Z.leb_le _ _)) by lia. exists b1.
    rewrite (zlen_0_inv data E0) in Hframe. cbn [mask_payload] in Hframe.
    rewrite app_nil_r in Hframe. rewrite Hb1, <- Hframe. by split_and!.
  - rewrite bool_decide_true by eauto. cbn [ace_assert mbind outcome_bind].
    change (default [] (Some data)) with data. rewrite Z.ltb_irrefl, take_zlen, push_uint32_be, zlen_mask_payload.
    destruct (mb_space b1 <? zlen data) eqn:Ed; bool_lia.
    { rewrite (proj2 (Z.leb_gt _ _)) by lia. done. }
    rewrite (proj2 (Z.leb_le _ _)) by lia.
    set (masked := mask_payload 0 _ data).
    assert (Hr : is_Some (mb_copy masked b1))
      by (apply mb_copy_room; unfold masked; rewrite zlen_mask_payload; lia).
    destruct Hr as [b2 Hr]. rewrite Hr. exists b2. destruct (mb_copy_bytes _ _ _ Hr) as [Hb2 _].
    rewrite Hb2, Hb1. fold masked in Hframe. rewrite <- Hframe. by split_and!.
Qed.
End Frames.

Lemma stream_frame_roundtrip_witness :
  (65535 = 65535 ∧ 0 <= OPCODE_TEXT < 16) ∧
  ∃ b', stream_frame 65535 (MkWebSocketRecord true OPCODE_TEXT (Some [72; 105]) 2) 0x37fa213d
          (([], 64%N) : list Z * N) = Ok (Some b') ∧
    mb_bytes b' = [129; 130; 0x37; 0xfa; 0x21; 0x3d; 127; 147] ∧
    ∀ rest, read_client_frame (mb_bytes b' ++ rest) = Some (OPCODE_TEXT, [72; 105], rest).
Proof.
  split; [by vm_compute|].
  exact (stream_frame_roundtrip 65535 eq_refl
    (MkWebSocketRecord true OPCODE_TEXT (Some [72; 105]) 2) 0x37fa213d
    (([], 64%N) : list Z * N) [72; 105] ltac:(by vm_compute) eq_refl eq_refl
    ltac:(by vm_compute) eq_refl).
Defined.
