(* ===== verification/WebSocketScanner.v ===== *)
(** * The scanner of WebSocket frames (protocol/ws/scripts/scanner.l, ws_module_parser.h)

    The rules of the scanner, on a buffer of bytes, with the record and the counters of
    the parser that they update.  The scanner reads the frames of servers. *)
From S2P Require Import Prelude MessageBlock ByteOrder WebSocket.

Inductive ws_condition :=
  | INITIAL | mask_payload_size_first | payload_size_16 | payload_size_64
  | payload_start | data_.

(** [record_] and [offset_] of the driver, [dataSize_] and [dataBytesToSkip_] of the
    module *)
Record ws_scanner := WsScanner {
  condition : ws_condition;
  record_ : WebSocket_Record;
  offset_ : Z;
  dataSize_ : Z;
  dataBytesToSkip_ : Z
}.

Inductive ws_scanned :=
  | Matched (s : ws_scanner) (rest : list Z)
  | Frame (s : ws_scanner) (rest : list Z)
  | More (s : ws_scanner) (rest : list Z).

Section Scanner.
Context `{ByteOrder}.

Definition begin_ (c : ws_condition) (s : ws_scanner) : ws_scanner :=
  WsScanner c (record_ s) (offset_ s) (dataSize_ s) (dataBytesToSkip_ s).
Definition set_record (r : WebSocket_Record) (s : ws_scanner) : ws_scanner :=
  WsScanner (condition s) r (offset_ s) (dataSize_ s) (dataBytesToSkip_ s).
Definition offset (n : Z) (s : ws_scanner) : ws_scanner :=
  WsScanner (condition s) (record_ s) (u64 (offset_ s + n)) (dataSize_ s) (dataBytesToSkip_ s).
Definition dataSize (size_in : Z) (s : ws_scanner) : ws_scanner :=
  WsScanner (condition s) (record_ s) (offset_ s) size_in size_in.
Definition dataBytesSkipped (n : Z) (s : ws_scanner) : ws_scanner :=
  WsScanner (condition s) (record_ s) (offset_ s) (dataSize_ s) (u64 (dataBytesToSkip_ s - n)).
Definition set_payloadSize (n : Z) (r : WebSocket_Record) : WebSocket_Record :=
  MkWebSocketRecord (final r) (opcode r) (payload r) n.

(** [record_.reset ()] and [offset_ = 0]: the start of [parse ()] *)
Definition parse_begin (s : ws_scanner) : ws_scanner :=
  WsScanner (condition s) WebSocket_Record_init 0 (dataSize_ s) (dataBytesToSkip_ s).

Definition scan_first (s : ws_scanner) (b : Z) (rest : list Z) : outcome ws_scanned :=
  let r := MkWebSocketRecord (negb (Z.land b 0x80 =? 0)) (Z.land b 0x0F)
             (payload (record_ s)) (payloadSize (record_ s)) in
  Ok (Matched (begin_ mask_payload_size_first (set_record r (offset 1 s))) rest).

Definition scan_size (s : ws_scanner) (b : Z) (rest : list Z) : outcome ws_scanned :=
  _ ← ace_assert (Z.land b 0x80 =? 0);
  let n := Z.land b 0x7F in
  let s := set_record (set_payloadSize n (record_ s)) (offset 1 s) in
  if n <=? 125 then
    let s := dataSize n s in
    if n =? 0 then Ok (Frame (begin_ INITIAL s) rest)
    else Ok (Matched (begin_ payload_start s) rest)
  else if n =? 126 then Ok (Matched (begin_ payload_size_16 s) rest)
  else Ok (Matched (begin_ payload_size_64 s) rest).

(** two octets; [yytext] is their big endian number *)
Definition scan_16 (s : ws_scanner) (bs : list Z) : outcome ws_scanned :=
  if (length bs <? 2)%nat then Ok (More s bs)
  else
    let word_i := network 2 (load (take 2 bs)) in
    let s := dataSize word_i (set_record (set_payloadSize word_i (record_ s)) (offset 2 s)) in
    Ok (Matched (begin_ payload_start s) (drop 2 bs)).

(** four octets match, but eight are read: [Undef] if there are fewer in the buffer *)
Definition scan_64 (s : ws_scanner) (bs : list Z) : outcome ws_scanned :=
  if (length bs <? 4)%nat then Ok (More s bs)
  else if (length bs <? 8)%nat then Undef
  else
    let quad_word_i := network 8 (load (take 8 bs)) in
    _ ← ace_assert (Z.land quad_word_i 0x8000000000000000 =? 0);
    let s := dataSize quad_word_i
               (set_record (set_payloadSize quad_word_i (record_ s)) (offset 4 s)) in
    Ok (Matched (begin_ payload_start s) (drop 4 bs)).

Definition scan_payload (s : ws_scanner) (rest : list Z) : outcome ws_scanned :=
  if dataBytesToSkip_ s =? 0 then Ok (Frame (begin_ INITIAL s) rest)
  else Ok (Matched (begin_ data_ (dataBytesSkipped 1 s)) rest).

Definition scan_data (s : ws_scanner) (rest : list Z) : outcome ws_scanned :=
  let s := dataBytesSkipped 1 s in
  if dataBytesToSkip_ s =? 0 then Ok (Frame (begin_ INITIAL s) rest)
  else Ok (Matched s rest).

Definition ws_rule (s : ws_scanner) (bs : list Z) : outcome ws_scanned :=
  match bs with
  | [] => Ok (More s [])
  | b :: rest =>
      match condition s with
      | INITIAL => scan_first s b rest
      | mask_payload_size_first => scan_size s b rest
      | payload_size_16 => scan_16 s bs
      | payload_size_64 => scan_64 s bs
      | payload_start => scan_payload s rest
      | data_ => scan_data s rest
      end
  end.

(** Each rule takes an octet at least: [fuel] above the length of the buffer is enough. *)
Fixpoint ws_loop (fuel : nat) (s : ws_scanner) (bs : list Z) : outcome ws_scanned :=
  match fuel with
  | O => Ok (More s bs)
  | S fuel' =>
      m ← ws_rule s bs;
      match m with
      | Matched s' rest => ws_loop fuel' s' rest
      | other => Ok other
      end
  end.
Definition ws_yylex (s : ws_scanner) (bs : list Z) : outcome ws_scanned :=
  ws_loop (S (length bs)) s bs.
End Scanner.

(** ** Frames that are read *)
Section Frames.
Context `{ByteOrder}.
Implicit Types (s : ws_scanner) (bs d rest : list Z).

Lemma ws_matched fuel s bs s' rest :
  ws_rule s bs = Ok (Matched s' rest) → ws_loop (S fuel) s bs = ws_loop fuel s' rest.
Proof. intros Hr. cbn [ws_loop]. by rewrite Hr. Qed.
Lemma ws_frame fuel s bs s' rest :
  ws_rule s bs = Ok (Frame s' rest) → ws_loop (S fuel) s bs = Ok (Frame s' rest).
Proof. intros Hr. cbn [ws_loop]. by rewrite Hr. Qed.

Lemma ws_rule_decreases s bs s' rest :
  ws_rule s bs = Ok (Matched s' rest) → (length rest < length bs)%nat.
Proof.
  unfold ws_rule. destruct bs as [|b bs]; [done|]. intros Hr.
  destruct (condition s); unfold scan_first, scan_size, scan_16, scan_64, scan_payload,
    scan_data in Hr;
  repeat match type of Hr with
    | mbind _ _ = _ => apply bind_Ok in Hr as (? & ? & Hr)
    | _ => case_match
    end; try discriminate Hr; injection Hr as <- <-;
  bool_lia; rewrite ?length_drop; cbn [length] in *; lia.
Qed.

(** The fuel of [ws_yylex] is enough: more of it gives the same result. *)
Theorem ws_loop_enough fuel s bs :
  (length bs < fuel)%nat → ws_loop fuel s bs = ws_yylex s bs.
Proof.
  unfold ws_yylex. remember (S (length bs)) as fuel' eqn:Hf'.
  assert (Hf : (length bs < fuel')%nat) by lia. clear Hf'.
  revert fuel fuel' s bs Hf. induction fuel as [|fuel IH]; intros [|fuel'] s bs Hf' Hf; [lia..|].
  cbn [ws_loop]. destruct (ws_rule s bs) as [[s' rest| |]| |] eqn:Hr; cbn; try done.
  pose proof (ws_rule_decreases _ _ _ _ Hr). apply IH; lia.
Qed.

(** the loop over the data, with more octets to skip than none *)
Lemma data_loop d s rest fuel :
  condition s = data_ → dataBytesToSkip_ s = zlen d → 0 < zlen d < 2 ^ 64 →
  (length d <= fuel)%nat →
  ws_loop fuel s (d ++ rest) =
    Ok (Frame (WsScanner INITIAL (record_ s) (offset_ s) (dataSize_ s) 0) rest).
Proof.
  revert s fuel. induction d as [|b d IH]; intros s fuel Hs Hskip Hd Hf; [by destruct Hd|].
  destruct fuel as [|fuel]; [cbn in Hf; lia|]. rewrite zlen_cons in Hskip, Hd.
  pose proof (zlen_nonneg d). cbn [app].
  assert (Hrule : ws_rule s (b :: d ++ rest) = scan_data s (d ++ rest)) by (cbn; by rewrite Hs).
  unfold scan_data, dataBytesSkipped in Hrule. cbn [dataBytesToSkip_] in Hrule.
  rewrite Hskip, u64_small in Hrule by lia. replace (1 + zlen d - 1) with (zlen d) in Hrule by lia.
  destruct (zlen d =? 0) eqn:E; bool_lia.
  - rewrite (ws_frame _ _ _ _ _ Hrule). unfold begin_. cbn. by rewrite (zlen_0_inv d E).
  - rewrite (ws_matched _ _ _ _ _ Hrule). rewrite IH; try done; cbn in *; lia.
Qed.

(** past the end of the data the counter wraps around, and no octet ends the frame *)
Lemma data_stuck d s fuel :
  condition s = data_ → dataBytesToSkip_ s = 0 → zlen d < 2 ^ 64 → (length d <= fuel)%nat →
  ∃ s', ws_loop fuel s d = Ok (More s' []).
Proof.
  intros Hs H0 Hd Hf.
  assert (Hgen : ∀ d s fuel, condition s = data_ → (length d <= fuel)%nat →
    (zlen d < dataBytesToSkip_ s < 2 ^ 64) → ∃ s', ws_loop fuel s d = Ok (More s' [])).
  { clear. induction d as [|b d IH]; intros s fuel Hs Hf Hd;
      [exists s; by destruct fuel|].
    - destruct fuel as [|fuel]; [cbn in Hf; lia|]. rewrite zlen_cons in Hd. pose proof (zlen_nonneg d).
      rewrite (ws_matched fuel s (b :: d) (dataBytesSkipped 1 s) d).
      + apply IH; [done|cbn in Hf; lia|]. cbn. rewrite u64_small; lia.
      + cbn [ws_rule]. rewrite Hs. unfold scan_data. cbn [dataBytesSkipped dataBytesToSkip_].
        rewrite u64_small by lia. by rewrite (proj2 (Z.eqb_neq _ _)) by lia. }
  destruct d as [|b d]; [exists s; by destruct fuel|].
  destruct fuel as [|fuel]; [cbn in Hf; lia|]. rewrite zlen_cons in Hd.
  assert (Hwrap : dataBytesToSkip_ (dataBytesSkipped 1 s) = 2 ^ 64 - 1) by (cbn; by rewrite H0).
  rewrite (ws_matched fuel s (b :: d) (dataBytesSkipped 1 s) d).
  - apply Hgen; [done|cbn in Hf; lia|]. rewrite Hwrap. lia.
  - cbn [ws_rule]. rewrite Hs. unfold scan_data. by rewrite Hwrap.
Qed.

Lemma first_byte (final : bool) op :
  0 <= op < 16 →
  let b := (if final then 128 else 0) + op in
  negb (Z.land b 0x80 =? 0) = final ∧ Z.land b 0x0F = op.
Proof.
  intros Hop b.
  assert (Hall : forallb (λ k, let z := Z.of_nat k in
    Bool.eqb (negb (Z.land z 0x80 =? 0)) (128 <=? z) &&
    (Z.land z 0x0F =? (if 128 <=? z then z - 128 else z)))
    (seq 0 16 ++ seq 128 16) = true) by (by vm_compute).
  rewrite forallb_forall in Hall. specialize (Hall (Z.to_nat b)).
  assert (Hb : 0 <= b) by (unfold b; destruct final; lia). rewrite Z2Nat.id in Hall by done.
  destruct (andb_prop _ _ (Hall ltac:(apply in_or_app; rewrite !in_seq; unfold b;
    destruct final; [right|left]; lia))) as [H1 H2].
  apply eqb_prop in H1. apply Z.eqb_eq in H2. rewrite H1, H2. unfold b.
  destruct final; [rewrite (proj2 (Z.leb_le _ _)) by lia|rewrite (proj2 (Z.leb_gt _ _)) by lia];
    split; done || lia.
Qed.

Lemma size_byte n : 0 <= n < 128 → Z.land n 0x80 = 0 ∧ Z.land n 0x7F = n.
Proof.
  intros Hn. assert (Hall : forallb (λ k, let z := Z.of_nat k in
    (Z.land z 0x80 =? 0) && (Z.land z 0x7F =? z)) (seq 0 128) = true) by (by vm_compute).
  rewrite forallb_forall in Hall. specialize (Hall (Z.to_nat n)).
  rewrite Z2Nat.id in Hall by lia.
  destruct (andb_prop _ _ (Hall ltac:(apply in_seq; lia))). by rewrite <- !Z.eqb_eq.
Qed.

Lemma land_high n : 0 <= n < 2 ^ 63 → Z.land n 0x8000000000000000 =? 0 = true.
Proof.
  intros Hn. apply Z.eqb_eq. change 0x8000000000000000 with (2 ^ 63).
  apply Z.bits_inj'. intros i Hi. rewrite Z.land_spec, Z.pow2_bits_eqb, Z.bits_0 by lia.
  destruct (Z.eqb_spec 63 i) as [<-|]; [|apply andb_false_r].
  rewrite andb_true_r, Z.testbit_false, Z.div_small by lia. done.
Qed.

(** the first byte, and the first byte of the size *)
Definition headed s (final : bool) op : ws_scanner :=
  begin_ mask_payload_size_first
    (set_record (MkWebSocketRecord final op (payload (record_ s)) (payloadSize (record_ s)))
       (offset 1 s)).
Lemma first_step s (final : bool) op rest fuel :
  condition s = INITIAL → 0 <= op < 16 →
  ws_loop (S fuel) s (((if final then 128 else 0) + op) :: rest) =
    ws_loop fuel (headed s final op) rest.
Proof.
  intros Hs Hop. apply ws_matched. cbn [ws_rule]. rewrite Hs. unfold scan_first.
  by destruct (first_byte final op Hop) as [-> ->].
Qed.

Lemma scan_size_value s n rest :
  0 <= n < 128 →
  scan_size s n rest =
    let s' := set_record (set_payloadSize n (record_ s)) (offset 1 s) in
    if n <=? 125 then
      if n =? 0 then Ok (Frame (begin_ INITIAL (dataSize n s')) rest)
      else Ok (Matched (begin_ payload_start (dataSize n s')) rest)
    else if n =? 126 then Ok (Matched (begin_ payload_size_16 s') rest)
    else Ok (Matched (begin_ payload_size_64 s') rest).
Proof. intros Hn. unfold scan_size. by destruct (size_byte n Hn) as [-> ->]. Qed.

(** the sizes that follow in 16 and in 64 bits *)
Lemma size_step_large s (large : bool) rest :
  condition s = mask_payload_size_first →
  let n := if large then 127 else 126 in
  ws_rule s (0 + n :: rest) =
    Ok (Matched (WsScanner (if large then payload_size_64 else payload_size_16)
          (set_payloadSize n (record_ s)) (u64 (offset_ s + 1)) (dataSize_ s)
          (dataBytesToSkip_ s)) rest).
Proof.
  intros Hs n. cbn [ws_rule]. rewrite Hs, Z.add_0_l.
  rewrite scan_size_value by (destruct large; unfold n; lia). by destruct large.
Qed.

Lemma network_be n v rest :
  0 <= v < 256 ^ Z.of_nat n → network n (load (take n (be_bytes n v ++ rest))) = v.
Proof.
  intros Hv. rewrite take_app_length' by (by rewrite length_be_bytes).
  rewrite network_load by (apply be_bytes_byte || apply length_be_bytes). by apply be_value_bytes.
Qed.

Lemma rule_sizes s n v rest :
  n ≠ O → condition s = payload_size_16 ∨ condition s = payload_size_64 →
  ws_rule s (be_bytes n v ++ rest) =
    match condition s with
    | payload_size_16 => scan_16 s (be_bytes n v ++ rest)
    | _ => scan_64 s (be_bytes n v ++ rest)
    end.
Proof.
  intros Hn Hs. pose proof (length_be_bytes n v) as Hl.
  destruct (be_bytes n v) as [|b bs]; [done|]. cbn. by destruct Hs as [-> | ->].
Qed.

Lemma rule_16 s n rest :
  condition s = payload_size_16 → 0 <= n < 65536 →
  ws_rule s (be_bytes 2 n ++ rest) =
    Ok (Matched (WsScanner payload_start (set_payloadSize n (record_ s))
      (u64 (offset_ s + 2)) n n) rest).
Proof.
  intros Hs Hn. rewrite rule_sizes by (done || by left). rewrite Hs. unfold scan_16.
  rewrite length_app, length_be_bytes. cbn [Nat.ltb Nat.leb Nat.add].
  by rewrite network_be, drop_app_length' by (lia || by rewrite length_be_bytes).
Qed.

(** the state at the payload, once a size has been read in [k] bytes *)
Definition sized s (final : bool) op k n : ws_scanner :=
  WsScanner payload_start (MkWebSocketRecord final op (payload (record_ s)) n)
    (u64 (offset_ s + k)) n n.

Lemma u64_add o a b : u64 (u64 (o + a) + b) = u64 (o + (a + b)).
Proof. unfold u64. rewrite Zplus_mod_idemp_l. f_equal. lia. Qed.

Definition header_length (n : Z) : Z := if n <=? 125 then 2 else 4.

(** the header of a frame with at most 16 bits of size, up to the payload *)
Lemma header_small s final op n rest fuel :
  condition s = INITIAL → 0 <= op < 16 → 0 < n <= 65535 → (3 <= fuel)%nat →
  ∃ fuel', (fuel <= fuel' + 3)%nat ∧
    ws_loop fuel s (((if final : bool then 128 else 0) + op) :: size_bytes 0 n ++ rest) =
    ws_loop fuel' (sized s final op (header_length n) n) rest.
Proof.
  intros Hs Hop Hn Hf. destruct fuel as [|[|[|fuel]]]; [lia..|].
  rewrite first_step by done. unfold size_bytes, header_length.
  destruct (n <=? 125) eqn:E1; bool_lia.
  - exists (S fuel). split; [lia|].
    erewrite ws_matched; [|cbn [app ws_rule headed begin_ condition];
      rewrite scan_size_value by lia; rewrite Z.add_0_l, (proj2 (Z.leb_le _ _)) by lia;
      rewrite (proj2 (Z.eqb_neq n 0)) by lia; reflexivity].
    f_equal. unfold sized, headed, begin_, dataSize, set_record, offset, set_payloadSize.
    cbn. by rewrite u64_add.
  - rewrite (proj2 (Z.leb_le _ _)) by lia. exists fuel. split; [lia|].
    erewrite ws_matched; [|by apply (size_step_large _ false)].
    erewrite ws_matched; [|apply rule_16; [reflexivity|lia]].
    f_equal. unfold sized. cbn. by rewrite !u64_add.
Qed.

(** the first octet of the payload, and the loop over the others *)
Lemma payload_read s b d rest fuel :
  condition s = payload_start → dataBytesToSkip_ s = 1 + zlen d → 0 < zlen d < 2 ^ 64 - 1 →
  (length d < fuel)%nat →
  ws_loop fuel s ((b :: d) ++ rest) =
    Ok (Frame (WsScanner INITIAL (record_ s) (offset_ s) (dataSize_ s) 0) rest).
Proof.
  intros Hs Hskip Hd Hf. destruct fuel as [|fuel]; [lia|]. cbn [app].
  rewrite (ws_matched fuel s _ (begin_ data_ (dataBytesSkipped 1 s)) (d ++ rest)).
  - rewrite (data_loop d); [done|done| |lia|lia].
    cbn. rewrite Hskip, u64_small; lia.
  - cbn [ws_rule]. rewrite Hs. unfold scan_payload.
    by rewrite Hskip, (proj2 (Z.eqb_neq _ _)) by lia.
Qed.

(** The scanner reads the frame of a server: of an empty payload, or one of at least
    two bytes whose size is sent in at most 16 bits, it takes exactly the bytes, and
    what follows is left; the record has the final bit, the opcode and the size, and the
    offset is that of the payload. *)
Theorem server_frames_read s final op data rest (Hs : condition s = INITIAL)
    (Hop : 0 <= op < 16) (Hsize : zlen data = 0 ∨ 2 <= zlen data <= 65535) :
  ws_yylex (parse_begin s) (server_frame final op data ++ rest) =
    Ok (Frame (WsScanner INITIAL (MkWebSocketRecord final op None (zlen data))
                 (header_length (zlen data)) (zlen data) 0) rest).
Proof.
  unfold ws_yylex, server_frame. set (fuel := S (length _)).
  assert (Hf : (length data + 3 <= fuel)%nat).
  { unfold fuel. cbn. rewrite !length_app. unfold size_bytes.
    destruct (_ <=? _); [cbn; lia|]. destruct (_ <=? _); cbn; lia. }
  cbn [app]. rewrite <- app_assoc. destruct Hsize as [H0|Hsize].
  - rewrite (zlen_0_inv data H0) in *. change (zlen (@nil Z)) with 0.
    destruct fuel as [|[|fuel]]; [cbn in Hf; lia..|].
    rewrite first_step by done. change (size_bytes 0 0) with [0]. cbn [app].
    apply ws_frame. reflexivity.
  - destruct (header_small (parse_begin s) final op (zlen data) (data ++ rest) fuel)
      as (fuel' & Hf' & ->); [done|done|lia|lia|].
    destruct data as [|b d]; [by destruct Hsize|]. rewrite zlen_cons in *.
    rewrite payload_read; [|done|done|lia|cbn in Hf; lia].
    unfold sized, header_length. cbn [record_ offset_ dataSize_ parse_begin payload WebSocket_Record_init].
    by destruct (1 + zlen d <=? 125).
Qed.

(** A payload of a single byte is never read: the counter of the bytes to skip is zero
    after it and wraps around at the next byte, so the scanner takes all that follows
    without ever yielding the frame. *)
Theorem one_byte_payload_never_read s final op (b : Z) rest (Hs : condition s = INITIAL)
    (Hop : 0 <= op < 16) (Hrest : zlen rest < 2 ^ 64) :
  ∃ s', ws_yylex (parse_begin s) (server_frame final op [b] ++ rest) = Ok (More s' []).
Proof.
  unfold ws_yylex, server_frame. change (zlen [b]) with 1. set (fuel := S (length _)).
  assert (Hf : (length rest + 4 <= fuel)%nat) by (unfold fuel; cbn; lia).
  change (size_bytes 0 1) with [1]. cbn [app].
  destruct (header_small (parse_begin s) final op 1 (b :: rest) fuel) as (fuel' & Hf' & E);
    [done|done|lia|lia|].
  change (size_bytes 0 1) with [1] in E. cbn [app] in E. rewrite E.
  destruct fuel' as [|fuel']; [lia|].
  rewrite (ws_matched fuel' _ _ (begin_ data_ (dataBytesSkipped 1 (sized (parse_begin s) final op
    (header_length 1) 1))) rest) by done.
  apply data_stuck; [done|done|done|lia].
Qed.

(** The frame of a large payload ends four bytes early: of the eight bytes of its size
    only four are taken, and the other four for the start of the payload; its last
    four bytes are left in front of what follows, and the offset is short by four. *)
Theorem large_payload_misframed s final op data last4 rest (Hs : condition s = INITIAL)
    (Hop : 0 <= op < 16) (Hsize : 65535 < zlen (data ++ last4) < 2 ^ 63)
    (Hlast : length last4 = 4%nat) :
  ws_yylex (parse_begin s) (server_frame final op (data ++ last4) ++ rest) =
    Ok (Frame (WsScanner INITIAL (MkWebSocketRecord final op None (zlen (data ++ last4))) 6
                 (zlen (data ++ last4)) 0) (last4 ++ rest)).
Proof.
  unfold ws_yylex, server_frame. set (fuel := S (length _)).
  set (n := zlen (data ++ last4)) in *.
  assert (Hn : n = zlen data + 4) by (unfold n; rewrite zlen_app; unfold zlen; rewrite Hlast; lia).
  assert (Hsb : size_bytes 0 n = 127 :: be_bytes 8 n).
  { unfold size_bytes. rewrite !(proj2 (Z.leb_gt _ _)) by lia. done. }
  assert (Hf : (length data + 8 <= fuel)%nat)
    by (unfold fuel; cbn [app length]; rewrite !length_app, Hsb; cbn [length];
        rewrite length_be_bytes; lia).
  rewrite Hsb. destruct fuel as [|[|[|fuel]]]; [lia..|]. cbn [app]. rewrite <- !app_assoc.
  rewrite first_step by done.
  erewrite ws_matched; [|by apply (size_step_large _ true)].
  erewrite ws_matched.
  2: { rewrite rule_sizes; [|done|by right]. cbn [begin_ condition].
       unfold scan_64. rewrite length_app, length_be_bytes.
       cbn [Nat.ltb Nat.leb Nat.add]. rewrite network_be by lia.
       rewrite (land_high n) by lia. reflexivity. }
  rewrite drop_app_le by (rewrite length_be_bytes; lia).
  destruct (drop 4 (be_bytes 8 n)) as [|b0 size4] eqn:E4;
    [by apply (f_equal length) in E4; rewrite length_drop, length_be_bytes in E4|].
  assert (Hl4 : length size4 = 3%nat).
  { apply (f_equal length) in E4. rewrite length_drop, length_be_bytes in E4. cbn in E4. lia. }
  rewrite (app_assoc (b0 :: size4)).
  change ((b0 :: size4) ++ data) with (b0 :: (size4 ++ data)).
  assert (Hz : zlen (size4 ++ data) = n - 1) by (rewrite zlen_app; unfold zlen in *; lia).
  rewrite payload_read; [|done|cbn; lia|lia|unfold zlen in *; lia].
  cbn. by rewrite !u64_add.
Qed.
End Frames.

Definition sample_ws : ws_scanner := WsScanner INITIAL WebSocket_Record_init 7 3 0.

Lemma server_frames_read_witness :
  (condition sample_ws = INITIAL ∧ 2 <= zlen [72; 105] <= 65535) ∧
  ws_yylex (parse_begin sample_ws) (server_frame true OPCODE_TEXT [72; 105] ++ [137; 0]) =
    Ok (Frame (WsScanner INITIAL (MkWebSocketRecord true OPCODE_TEXT None 2) 2 2 0) [137; 0]).
Proof.
  split; [by vm_compute|].
  exact (server_frames_read sample_ws true OPCODE_TEXT [72; 105] [137; 0] eq_refl
    ltac:(by vm_compute) ltac:(right; by vm_compute)).
Defined.

Lemma one_byte_payload_never_read_witness :
  (condition sample_ws = INITIAL ∧ 0 <= OPCODE_TEXT < 16) ∧
  ∃ s', ws_yylex (parse_begin sample_ws) (server_frame true OPCODE_TEXT [72] ++ [137; 0]) =
    Ok (More s' []).
Proof.
  split; [by vm_compute|].
  exact (one_byte_payload_never_read sample_ws true OPCODE_TEXT 72 [137; 0] eq_refl
    ltac:(by vm_compute) ltac:(by vm_compute)).
Defined.

Lemma large_payload_misframed_witness :
  let data := replicate (Z.to_nat 65536) 7 in
  65535 < zlen (data ++ [1; 2; 3; 4]) < 2 ^ 63 ∧
  ws_yylex (parse_begin sample_ws) (server_frame true OPCODE_BINARY (data ++ [1; 2; 3; 4]) ++ [137; 0]) =
    Ok (Frame (WsScanner INITIAL
                 (MkWebSocketRecord true OPCODE_BINARY None (zlen (data ++ [1; 2; 3; 4]))) 6
                 (zlen (data ++ [1; 2; 3; 4])) 0) ([1; 2; 3; 4] ++ [137; 0])).
Proof.
  intros data.
  assert (Hlen : 65535 < zlen (data ++ [1; 2; 3; 4]) < 2 ^ 63).
  { unfold data, zlen. rewrite length_app, length_replicate. cbn [length]. lia. }
  split; [exact Hlen|].
  exact (large_payload_misframed sample_ws true OPCODE_BINARY data [1; 2; 3; 4] [137; 0] eq_refl
    ltac:(by vm_compute) Hlen eq_refl).
Defined.
