(* ===== verification/WebSocketParser.v ===== *)
(** * Receiving frames (protocol/ws: ws_module_parser.inl, ws_parser_driver.inl,
    scripts/scanner.l, scripts/parser.y)

    The module that parses the frames of a server: a queue of the fragments that arrive, and
    a thread that takes them from it, scans them one after the other, cuts the payload of each
    frame out of the chain of the fragments, and passes it on.  The thread waits in three
    places: for the next message in [svc ()], and for more data in the scanner and behind the
    parser.

    The driver has two switches.  [block]: whether it waits for data ([frames_received]), or
    returns without ([nonblocking_aborts]).  [useYYScanBuffer]: whether flex scans the
    fragments themselves or copies of them; it puts an octet of 0 behind the text of each token,
    which is taken back when it goes on, but not when it has returned a frame and the buffer is
    deleted: in the fragments themselves, the first octet of the next frame is lost
    ([next_frame_overwritten]). *)
From S2P Require Import Prelude MessageBlock ByteOrder WebSocket WebSocketScanner Chain.

(** what the queue holds: data, and the message that ends the thread *)
Inductive item (B : Type) := MB_DATA (b : B) | MB_STOP.
Arguments MB_DATA {B}. Arguments MB_STOP {B}.

Inductive SessionMessageType :=
  | STREAM_SESSION_MESSAGE_ABORT | STREAM_SESSION_MESSAGE_BEGIN
  | STREAM_SESSION_MESSAGE_STEP | STREAM_SESSION_MESSAGE_END.

(** what the module does outside: a message with its record is passed on, or the session is
    told something *)
Inductive output (B : Type) :=
  | Passed (r : WebSocket_Record) (message : list B)
  | Notified (m : SessionMessageType).
Arguments Passed {B}. Arguments Notified {B}.

(** where the thread waits: in [svc ()], in the scanner (with the octets that no rule has
    taken), behind the parser; [Idle] before it is started, [Done] when it has ended *)
Inductive thread := Idle | InSvc | InScanner (pending : list Z) | InDispatch | Done.

Section Module.
Context {B : Type} `{MessageBlock B} `{ByteOrder}.

(** the size of the buffer of a block; [Stream_Tools::get], which takes bytes off a chain;
    whether the next module takes a message, and whether a thread can be started; the
    configuration *)
Context (capacity : B → Z) (get : Z → list B → list B * list B).
Context (put_next : WebSocket_Record → list B → bool) (opened : bool).
Context (block notifyProgress : bool).
(** whether the fragments are scanned themselves, or copies; a store through the read pointer
    of a block, at an offset from it *)
Context (useYYScanBuffer : bool) (store : Z → Z → B → B).

Record ws_state := MkWs {
  headFragment_ : list B;
  scanner_ : ws_scanner;
  finished_ : bool;
  handshakeComplete_ : bool;
  queue_ : list (item B);
  thread_ : thread;
  outputs_ : list (output B)
}.

Definition set_head (c : list B) (st : ws_state) : ws_state :=
  MkWs c (scanner_ st) (finished_ st) (handshakeComplete_ st) (queue_ st) (thread_ st) (outputs_ st).
Definition set_scanner (s : ws_scanner) (fin : bool) (st : ws_state) : ws_state :=
  MkWs (headFragment_ st) s fin (handshakeComplete_ st) (queue_ st) (thread_ st) (outputs_ st).
Definition set_queue (q : list (item B)) (st : ws_state) : ws_state :=
  MkWs (headFragment_ st) (scanner_ st) (finished_ st) (handshakeComplete_ st) q (thread_ st)
    (outputs_ st).
Definition set_thread (t : thread) (st : ws_state) : ws_state :=
  MkWs (headFragment_ st) (scanner_ st) (finished_ st) (handshakeComplete_ st) (queue_ st) t
    (outputs_ st).
Definition emit (os : list (output B)) (st : ws_state) : ws_state :=
  MkWs (headFragment_ st) (scanner_ st) (finished_ st) (handshakeComplete_ st) (queue_ st)
    (thread_ st) (outputs_ st ++ os).

(** ** The driver *)

(** room for the two octets that end a buffer *)
Definition boundary (b : B) : outcome unit := ace_assert (2 <=? capacity b - block_length b).

(** the next fragment of the chain, when there is one, and what is behind it; [end ()] asserts
    that there is a buffer.  [Waits]: [waitBuffer ()] takes the next message from the queue *)
Inductive switched := Switched (b : B) (after : list B) | Waits | NotSwitched.
Definition switchBuffer (bufferState : bool) (after : list B) : outcome switched :=
  match after with
  | [] => Ok (if block then Waits else NotSwitched)
  | b :: after' => ace_assert bufferState;; boundary b;; Ok (Switched b after')
  end.

(** the scanner on the fragments from [b] on: a frame, with what is left of its last fragment
    and the fragments behind; the end of the data, with the fragments behind; or it waits *)
Inductive lexed := LexFrame (s : ws_scanner) (rest : list Z) (after : list B)
  | LexEnd (s : ws_scanner) (after : list B)
  | LexWaits (s : ws_scanner) (pending : list Z).
Fixpoint lex (s : ws_scanner) (b : B) (after : list B) {struct after} : outcome lexed :=
  m ← ws_yylex s (mb_bytes b);
  match m with
  | Frame s' rest => Ok (LexFrame s' rest after)
  | Matched s' pending | More s' pending =>
      if negb block then Ok (LexEnd s' after)
      else
        match after with
        | [] => Ok (LexWaits s' pending)
        | b' :: after' =>
            boundary b';;
            (* with octets that are put back, the scanner goes on in the old buffer *)
            if decide (pending = []) then lex s' b' after' else Undef
        end
  end.

(** [YY_DO_BEFORE_ACTION], when a frame has been returned: flex has put a 0 behind the text,
    which [end ()], [yy_delete_buffer ()] and [begin ()] leave there.  In a copy it is lost with
    the copy; in the fragment it is the octet behind the frame ([rest] is left of the fragment,
    and [after] behind it), or the first of the two that end the buffer. *)
Definition do_before_action (rest : list Z) (after c : list B) : list B :=
  match useYYScanBuffer, rest with
  | true, _ :: _ =>
      alter (λ b, store (block_length b - zlen rest) 0 b) (length c - length after - 1)%nat c
  | _, _ => c
  end.

(** ** The module *)

(** the cut of the payload, behind the header *)
Definition record (s : ws_scanner) (headFragment_ : list B) : outcome (list B) :=
  ace_assert (match headFragment_ with [] => false | _ => true end);;
  a ← advance (offset_ s) headFragment_;
  f ← cut_behind (payloadSize (record_ s)) a.2;
  Ok (a.1 ++ f.1 ++ f.2).

Definition getPayloadLength (s : ws_scanner) : Z := payloadSize (record_ s).

(** the message, and the fragments that are left *)
Definition reframe (s : ws_scanner) (c : list B) : outcome (list B * list B) :=
  if total_length c <=? getPayloadLength s then Ok (c, [])
  else
    let m := get (getPayloadLength s) c in
    ace_assert (match m.1 with [] => false | _ => true end);; Ok m.

(** What the scanner has found, and the loop of [dispatch_2 ()]: each frame takes two octets
    at least. *)
Fixpoint dispatch_loop (fuel : nat) (r : lexed) (st : ws_state) : outcome ws_state :=
  match fuel with
  | O => Undef
  | S fuel' =>
      match r with
      | LexWaits s pending => Ok (set_thread (InScanner pending) (set_scanner s false st))
      | LexEnd s after =>
          let st := set_scanner s false st in
          w ← switchBuffer false after;
          match w with
          | NotSwitched => Ok (set_thread InSvc st)
          | Waits => Ok (set_thread InDispatch st)
          | Switched b after' =>
              r' ← lex (parse_begin (scanner_ st)) b after';
              dispatch_loop fuel' r' st
          end
      | LexFrame s rest after =>
          c ← record s (do_before_action rest after (headFragment_ st));
          m ← reframe s c;
          let st := set_head m.2 (set_scanner s true st) in
          if negb (put_next (record_ s) m.1)
          then Ok (set_thread InSvc (emit [Notified STREAM_SESSION_MESSAGE_ABORT] st))
          else
            let st := emit (Passed (record_ s) m.1 ::
                        (if notifyProgress then [Notified STREAM_SESSION_MESSAGE_STEP] else [])) st in
            match m.2 with
            | [] => Ok (set_thread InSvc st)
            | b :: after =>
                r' ← lex (parse_begin (scanner_ st)) b after;
                dispatch_loop fuel' r' st
            end
      end
  end.
Definition parse_loop (r : lexed) (st : ws_state) : outcome ws_state :=
  dispatch_loop (S (length (chain_bytes (headFragment_ st)))) r st.

Definition dispatch_2 (message_in : B) (st : ws_state) : outcome ws_state :=
  boundary message_in;;
  let st := set_head (headFragment_ st ++ [message_in]) st in
  match headFragment_ st with
  | [] => Abort
  | b :: after =>
      r ← lex (parse_begin (scanner_ st)) b after;
      parse_loop r st
  end.

(** the fragment for which the scanner has waited: [waitBuffer ()] appends it *)
Definition continue_scan (pending : list Z) (b : B) (st : ws_state) : outcome ws_state :=
  let st := set_head (headFragment_ st ++ [b]) st in
  w ← switchBuffer true [b];
  match w with
  | Switched b' after => if decide (pending = []) then r ← lex (scanner_ st) b' after; parse_loop r st
                         else Undef
  | _ => Ok st
  end.

(** [HTTP_Module_Parser_T::dispatch ()], which handles the response to the handshake *)
Context (http_dispatch : B → ws_state → outcome ws_state).

(** a message from the queue, taken where the thread waits; [None]: it waits on *)
Definition svc (st : ws_state) : option (outcome ws_state) :=
  match thread_ st, queue_ st with
  | Idle, _ | Done, _ | _, [] => None
  | InSvc, MB_STOP :: q => Some (Ok (set_thread Done (set_queue q st)))
  | InSvc, MB_DATA b :: q =>
      let st := set_queue q st in
      Some (if handshakeComplete_ st then dispatch_2 b st else http_dispatch b st)
  | InScanner _, MB_STOP :: q =>
      let st := set_queue (q ++ [MB_STOP]) st in
      Some (parse_loop (LexEnd (scanner_ st) []) st)
  | InScanner pending, MB_DATA b :: q => Some (continue_scan pending b (set_queue q st))
  | InDispatch, MB_STOP :: q => Some (Ok (set_thread InSvc (set_queue (q ++ [MB_STOP]) st)))
  | InDispatch, MB_DATA b :: q =>
      let st := set_head (headFragment_ st ++ [b]) (set_queue q st) in
      Some (w ← switchBuffer false [b];
            match w with
            | Switched b' after => r ← lex (parse_begin (scanner_ st)) b' after; parse_loop r st
            | _ => Ok st
            end)
  end.

(** ** The operations of the stream *)
Definition handleDataMessage (b : B) (st : ws_state) : ws_state :=
  set_queue (queue_ st ++ [MB_DATA b]) st.
(** without the wait for the thread *)
Definition stop (highPriority_in : bool) (st : ws_state) : ws_state :=
  set_queue (if highPriority_in then MB_STOP :: queue_ st else queue_ st ++ [MB_STOP]) st.
Definition is_stop (i : item B) : bool := match i with MB_STOP => true | MB_DATA _ => false end.
(** up to the wait for the thread *)
Definition handleSessionMessage (m : SessionMessageType) (st : ws_state) : ws_state :=
  match m with
  | STREAM_SESSION_MESSAGE_ABORT =>
      stop true (set_queue (filter (λ i, is_stop i = true) (queue_ st)) st)
  | STREAM_SESSION_MESSAGE_BEGIN =>
      if opened then set_thread InSvc st
      else emit [Notified STREAM_SESSION_MESSAGE_ABORT] st
  | STREAM_SESSION_MESSAGE_END => stop false st
  | STREAM_SESSION_MESSAGE_STEP => st
  end.
(** behind it *)
Definition session_ended (st : ws_state) : ws_state := set_head [] st.
Definition initialize (st : ws_state) : ws_state :=
  MkWs [] (WsScanner (condition (scanner_ st)) WebSocket_Record_init 0 0 0) false false []
    (thread_ st) (outputs_ st).
End Module.
Arguments ws_state : clear implicits.
Arguments lexed : clear implicits.

(** ** Frames, octet by octet *)
Section Narrow.
Context `{ByteOrder}.
Implicit Types (s S : ws_scanner) (bs e rest : list Z).

(** the rules that take one octet, whatever is behind it *)
Definition single s : Prop :=
  condition s ≠ payload_size_16 ∧ condition s ≠ payload_size_64.
Inductive narrow : ws_scanner → list Z → ws_scanner → list Z → Prop :=
  | narrow_frame s b bs S :
      single s → ws_rule s (b :: bs) = Ok (Frame S bs) → narrow s (b :: bs) S bs
  | narrow_step s b bs s' S rest :
      single s → ws_rule s (b :: bs) = Ok (Matched s' bs) → narrow s' bs S rest →
      narrow s (b :: bs) S rest.

Lemma single_rest s b bs bs' :
  single s →
  (∀ S, ws_rule s (b :: bs) = Ok (Frame S bs) → ws_rule s (b :: bs') = Ok (Frame S bs')) ∧
  (∀ S, ws_rule s (b :: bs) = Ok (Matched S bs) → ws_rule s (b :: bs') = Ok (Matched S bs')).
Proof.
  intros [H1 H2]. cbn [ws_rule].
  destruct (condition s); try done; unfold scan_first, scan_size, scan_payload, scan_data, ace_assert;
    split; intros S Hr; cbn -[Z.land Z.leb Z.eqb dataBytesSkipped] in *;
    repeat (case_match; cbn -[Z.land Z.leb Z.eqb dataBytesSkipped] in * ); by simplify_eq.
Qed.

(** a frame, cut anywhere: the first part has it, or the scanner needs the second *)
Lemma narrow_cut f : ∀ s e S rest,
  narrow s (f ++ e) S rest →
  (∃ r, ws_yylex s f = Ok (Frame S r) ∧ rest = r ++ e) ∨
  (∃ s', ws_yylex s f = Ok (More s' []) ∧ narrow s' e S rest).
Proof.
  unfold ws_yylex. induction f as [|b f IH]; intros s e S rest Hn; [right; by exists s|].
  cbn [app] in Hn. cbn [length]. inversion Hn as [? ? ? ? Hs Hr|? ? ? s' ? ? Hs Hr Hn']; subst.
  - left. exists f. split; [|done]. apply ws_frame. by apply (single_rest s b (f ++ e) f Hs).
  - rewrite (ws_matched _ s (b :: f) s' f) by (by apply (single_rest s b (f ++ e) f Hs)).
    by apply IH.
Qed.
Lemma narrow_consumes s bs S rest :
  narrow s bs S rest → ∃ d, bs = d ++ rest ∧ d ≠ [].
Proof.
  induction 1 as [s b bs S|s b bs s' S rest _ _ _ (d & -> & _)]; [by exists [b]|by exists (b :: d)].
Qed.

Lemma narrow_data d : ∀ s rest,
  condition s = data_ → dataBytesToSkip_ s = zlen d → 0 < zlen d < 2 ^ 64 →
  narrow s (d ++ rest) (WsScanner INITIAL (record_ s) (offset_ s) (dataSize_ s) 0) rest.
Proof.
  induction d as [|b d IH]; intros s rest Hs Hskip Hd; [by destruct Hd|].
  rewrite zlen_cons in Hskip, Hd. pose proof (zlen_nonneg d). cbn [app].
  assert (single s) as Hsi by (unfold single; by rewrite Hs).
  assert (Hrule : ws_rule s (b :: d ++ rest) = scan_data s (d ++ rest)) by (cbn; by rewrite Hs).
  unfold scan_data, dataBytesSkipped in Hrule. cbn [dataBytesToSkip_] in Hrule.
  rewrite Hskip, u64_small in Hrule by lia. replace (1 + zlen d - 1) with (zlen d) in Hrule by lia.
  destruct (zlen d =? 0) eqn:E; bool_lia.
  - rewrite (zlen_0_inv d E) in *. by apply narrow_frame.
  - eapply narrow_step; [done|exact Hrule|]. by apply (IH (WsScanner _ _ _ _ _)); [..|lia].
Qed.

(** the frame of a server whose size is one octet *)
Definition read_state (final : bool) op (data : list Z) : ws_scanner :=
  WsScanner INITIAL (MkWebSocketRecord final op None (zlen data)) 2 (zlen data) 0.
Lemma server_frame_small final op data :
  0 <= zlen data <= 125 → server_frame final op data =
    ((if final then 128 else 0) + op) :: zlen data :: data.
Proof. intros Hd. unfold server_frame, size_bytes. by rewrite (proj2 (Z.leb_le _ _)) by lia. Qed.
Lemma narrow_server_frame s final op data rest :
  condition s = INITIAL → 0 <= op < 16 → 2 <= zlen data <= 125 →
  narrow (parse_begin s) (server_frame final op data ++ rest) (read_state final op data) rest.
Proof.
  intros Hs Hop Hd. rewrite server_frame_small by lia. cbn [app].
  eapply narrow_step; [by unfold single; cbn; rewrite Hs| |].
  { cbn [ws_rule parse_begin condition]. rewrite Hs. unfold scan_first.
    destruct (first_byte final op Hop) as [-> ->]. reflexivity. }
  eapply narrow_step; [done| |].
  { cbn [ws_rule begin_ condition]. rewrite scan_size_value by lia. cbn zeta.
    rewrite (proj2 (Z.leb_le (zlen data) 125)) by lia.
    rewrite (proj2 (Z.eqb_neq (zlen data) 0)) by lia. reflexivity. }
  destruct data as [|b d]; [by destruct Hd|]. rewrite zlen_cons in *. cbn [app].
  eapply narrow_step; [done| |].
  { cbn [ws_rule begin_ condition]. unfold scan_payload. cbn.
    rewrite (proj2 (Z.eqb_neq (1 + zlen d) 0)) by lia. reflexivity. }
  unfold read_state. rewrite zlen_cons.
  match goal with |- narrow ?s' _ _ _ =>
    refine (narrow_data d s' rest eq_refl _ _); [|lia] end.
  cbn. rewrite u64_small; lia.
Qed.
End Narrow.

(** ** Frames that are received

    A frame: the final bit, the opcode and the payload. *)
Definition frame : Type := bool * Z * list Z.
Definition frame_bytes (f : frame) : list Z := server_frame f.1.1 f.1.2 f.2.
Definition stream (fs : list frame) : list Z := fs ≫= frame_bytes.
Definition frame_ok (f : frame) : Prop := 0 <= f.1.2 < 16 ∧ 2 <= zlen f.2 <= 125.
Definition frame_state (f : frame) : ws_scanner := read_state f.1.1 f.1.2 f.2.

Section Reception.
Context {B : Type} `{MessageBlock B} `{ByteOrder}.
Context (capacity : B → Z) (get : Z → list B → list B * list B).
Context (put_next : WebSocket_Record → list B → bool) (notifyProgress : bool).
Context (useYYScanBuffer : bool) (store : Z → Z → B → B).
Context (http_dispatch : B → ws_state B → outcome (ws_state B)).

(** the frame that is passed on with a message *)
Definition content (o : output B) : option frame :=
  match o with Passed r m => Some (final r, opcode r, chain_bytes m) | Notified _ => None end.
Definition delivered (st : ws_state B) : list frame := omap content (outputs_ st).
Definition item_bytes (i : item B) : list Z :=
  match i with MB_DATA b => mb_bytes b | MB_STOP => [] end.
Definition queue_bytes (q : list (item B)) : list Z := q ≫= item_bytes.

(** The thread and the stream take turns in any order. *)
Inductive event := Arrives (b : B) | Works.
Notation svc := (svc capacity get put_next true notifyProgress useYYScanBuffer store http_dispatch).
Definition step (st : ws_state B) (ev : event) : outcome (ws_state B) :=
  match ev with
  | Arrives b => Ok (handleDataMessage b st)
  | Works => default (Ok st) (svc st)
  end.
Fixpoint run (evs : list event) (st : ws_state B) : outcome (ws_state B) :=
  match evs with [] => Ok st | ev :: evs' => st' ← step st ev; run evs' st' end.
Definition arrived (evs : list event) : list Z :=
  evs ≫= λ ev, match ev with Arrives b => mb_bytes b | Works => [] end.
Definition no_empty_block (evs : list event) : Prop :=
  Forall (λ ev, match ev with Arrives b => mb_bytes b ≠ [] | Works => True end) evs.

(** copies are scanned; buffers have room for the two octets that end them; [get] takes bytes off the front of a
    chain; the next module takes the messages *)
Context (copied : useYYScanBuffer = false).
Context (room : ∀ b, 2 <= capacity b - block_length b).
Context (get_bytes : ∀ n c, 0 < n < zlen (chain_bytes c) →
  chain_bytes (get n c).1 = take (Z.to_nat n) (chain_bytes c) ∧
  chain_bytes (get n c).2 = drop (Z.to_nat n) (chain_bytes c)).
Context (put : ∀ r m, put_next r m = true).

Lemma boundary_Ok (b : B) : boundary capacity b = Ok tt.
Proof using room. unfold boundary. by rewrite (proj2 (Z.leb_le _ _)) by apply room. Qed.

(** the scanner on a chain *)
Lemma lex_narrow after : ∀ b s e S rest,
  narrow s (chain_bytes (b :: after) ++ e) S rest →
  (∃ p a r, lex capacity true s b after = Ok (LexFrame S p a) ∧ rest = r ++ e) ∨
  (∃ s', lex capacity true s b after = Ok (LexWaits s' []) ∧ narrow s' e S rest).
Proof using room.
  induction after as [|b' after IH]; intros b s e S rest Hn.
  - rewrite chain_bytes_single in Hn. cbn [lex].
    destruct (narrow_cut _ _ _ _ _ Hn) as [(r & -> & Hr)|(s' & -> & Hs')]; cbn [mbind outcome_bind];
      [left; by eexists _, _, r|right; by exists s'].
  - rewrite chain_bytes_cons, <- app_assoc in Hn. cbn [lex].
    destruct (narrow_cut _ _ _ _ _ Hn) as [(r & -> & Hr)|(s' & -> & Hs')]; cbn [mbind outcome_bind].
    + left. eexists _, _, (r ++ chain_bytes (b' :: after)). by rewrite Hr, app_assoc.
    + cbn [negb]. rewrite boundary_Ok. cbn [mbind outcome_bind]. rewrite decide_True by done.
      by apply IH.
Qed.

Lemma zlen_frame f : frame_ok f → zlen (frame_bytes f) = 2 + zlen f.2.
Proof.
  intros [_ Hd]. unfold frame_bytes. rewrite server_frame_small by lia. rewrite !zlen_cons. lia.
Qed.
Lemma stream_cons f fs : stream (f :: fs) = frame_bytes f ++ stream fs.
Proof. done. Qed.
Lemma stream_nonempty f fs : stream (f :: fs) ≠ [].
Proof. by destruct f as [[? ?] ?]. Qed.

(** the cut of the payload *)
Lemma record_payload f c r :
  frame_ok f → chain_bytes c = frame_bytes f ++ r →
  ∃ c', record (frame_state f) c = Ok c' ∧ chain_bytes c' = f.2 ++ r.
Proof.
  intros Hf Hc. pose proof (zlen_frame f Hf) as Hl. pose proof (zlen_nonneg r).
  destruct Hf as [_ Hd]. unfold record.
  destruct c as [|b c0] eqn:Ec; [by destruct f as [[? ?] ?]|]. rewrite <- Ec in *.
  cbn [ace_assert mbind outcome_bind frame_state read_state offset_ record_ payloadSize].
  destruct (advance_spec 2 c) as (pre & b' & rest & -> & Hpre & Hb); [rewrite Hc, zlen_app; lia|by subst|].
  cbn [mbind outcome_bind snd fst].
  assert (chain_bytes (b' :: rest) = f.2 ++ r) as Hp.
  { rewrite Hb, Hc. unfold frame_bytes. by rewrite server_frame_small by lia. }
  destruct (cut_behind_spec (zlen f.2) (b' :: rest)) as (front & back & -> & Hfr & Hba);
    [rewrite Hp, zlen_app; lia|done|].
  cbn [mbind outcome_bind snd fst]. eexists. split; [reflexivity|].
  rewrite !chain_bytes_app, Hpre, Hfr, Hba, take_drop. done.
Qed.

(** the message of a frame, and the rest *)
Lemma reframe_payload f c r :
  frame_ok f → chain_bytes c = f.2 ++ r → zlen (chain_bytes c) < 2 ^ 64 →
  ∃ m c', reframe get (frame_state f) c = Ok (m, c') ∧ chain_bytes m = f.2 ∧ chain_bytes c' = r ∧
    (r = [] → c' = []).
Proof using get_bytes.
  intros [_ Hd] Hc Hl. unfold reframe, getPayloadLength.
  cbn [frame_state read_state record_ payloadSize]. rewrite total_length_small by done.
  pose proof (zlen_nonneg r). rewrite Hc, zlen_app.
  destruct (_ <=? _) eqn:E; bool_lia.
  - assert (r = []) as -> by (apply zlen_0_inv; lia). rewrite app_nil_r in Hc.
    by exists c, [].
  - destruct (get_bytes (zlen f.2) c) as [Hm Hr]; [rewrite Hc, zlen_app; lia|].
    destruct (get (zlen f.2) c) as [m c']. cbn [fst snd] in *.
    rewrite Hc in Hm, Hr. rewrite take_app_length' in Hm by (unfold zlen; lia).
    rewrite drop_app_length' in Hr by (unfold zlen; lia).
    destruct m as [|m0 m]; [change (chain_bytes []) with (@nil Z) in Hm; rewrite <- Hm in Hd;
      unfold zlen in Hd; cbn in Hd; lia|].
    exists (m0 :: m), c'. split_and!; [done..|]. intros ->. rewrite zlen_nil in E. lia.
Qed.


(** What has been delivered, what is in the module, and what is to come make up the frames;
    the scanner is where the octets in the chain have brought it. *)
Definition data_item (i : item B) : Prop := ∃ b, i = MB_DATA b ∧ mb_bytes b ≠ [].
Definition unread (future : list Z) (st : ws_state B) : list Z :=
  queue_bytes (queue_ st) ++ future.
Definition waiting (todo : list frame) (future : list Z) (st : ws_state B) : Prop :=
  (thread_ st = InSvc ∧ headFragment_ st = [] ∧ condition (scanner_ st) = INITIAL) ∨
  (thread_ st = InScanner [] ∧ ∃ f todo', todo = f :: todo' ∧
     narrow (scanner_ st) (unread future st) (frame_state f) (stream todo')).
Definition in_step (fs : list frame) (todo : list frame) (future : list Z) (st : ws_state B) : Prop :=
  fs = delivered st ++ todo ∧ chain_bytes (headFragment_ st) ++ unread future st = stream todo ∧
  Forall data_item (queue_ st) ∧ handshakeComplete_ st = true.
Definition inv (fs : list frame) (future : list Z) (st : ws_state B) : Prop :=
  ∃ todo, in_step fs todo future st ∧ waiting todo future st.
(** what the scanner has found in the chain *)
Definition lexed_ok (todo : list frame) (future : list Z) (l : lexed B) (st : ws_state B) : Prop :=
  ∃ f todo', todo = f :: todo' ∧
    ((∃ p a r, l = LexFrame (frame_state f) p a ∧ stream todo' = r ++ unread future st) ∨
     (∃ s', l = LexWaits s' [] ∧ narrow s' (unread future st) (frame_state f) (stream todo'))).

Lemma lex_start todo future st s b after :
  Forall frame_ok todo → condition s = INITIAL → chain_bytes (b :: after) ≠ [] →
  chain_bytes (b :: after) ++ unread future st = stream todo →
  ∃ l, lex capacity true (parse_begin s) b after = Ok l ∧ lexed_ok todo future l st.
Proof using room.
  intros Hok Hs Hne Hb. destruct todo as [|f todo]; [by apply app_nil in Hb as [? _]|].
  inversion Hok as [|? ? [Hop Hd] _]; subst. rewrite stream_cons in Hb.
  pose proof (narrow_server_frame s f.1.1 f.1.2 f.2 (stream todo) Hs Hop Hd) as Hn.
  change (server_frame f.1.1 f.1.2 f.2) with (frame_bytes f) in Hn. rewrite <- Hb in Hn.
  destruct (lex_narrow _ _ _ _ _ _ Hn) as [(p & a & r & E & Hr)|(s' & E & Hs')];
    (eexists; split; [exact E|]; exists f, todo; split; [done|]).
  - left. by exists p, a, r.
  - right. by exists s'.
Qed.

Lemma loop_inv fs todo future fuel : ∀ l st,
  Forall frame_ok fs → zlen (stream fs) < 2 ^ 64 → in_step fs todo future st →
  lexed_ok todo future l st → (length (chain_bytes (headFragment_ st)) < fuel)%nat →
  ∃ st', dispatch_loop capacity get put_next true notifyProgress useYYScanBuffer store fuel l st = Ok st' ∧
    inv fs future st'.
Proof using copied room get_bytes put.
  revert todo. induction fuel as [|fuel IH]; intros todo l st Hok Hmax Hst Hl Hf; [lia|].
  pose proof Hst as (Hfs & Hb & Hq & Hh). destruct Hl as (f & todo' & -> & Hl).
  assert (Forall frame_ok (f :: todo')) as Htodo by (rewrite Hfs, Forall_app in Hok; tauto).
  assert (zlen (chain_bytes (headFragment_ st)) < 2 ^ 64) as Hcl.
  { apply (f_equal zlen) in Hb. rewrite Hfs in Hmax. unfold stream in *. rewrite bind_app in Hmax.
    rewrite zlen_app in *. pose proof (zlen_nonneg (unread future st)).
    pose proof (zlen_nonneg (delivered st ≫= frame_bytes)). lia. }
  cbn [dispatch_loop]. destruct Hl as [(p & a & r & -> & Hr)|(s' & -> & Hs')].
  2: { eexists. split; [reflexivity|]. exists (f :: todo'). split; [done|].
       right. split; [done|]. by exists f, todo'. }
  destruct (Forall_cons_1 _ _ _ Htodo) as [Hf' Htodo'].

  assert (chain_bytes (headFragment_ st) = frame_bytes f ++ r) as Hc.
  { rewrite stream_cons, Hr, app_assoc in Hb. by apply app_inv_tail in Hb. }
  assert (∀ c, do_before_action useYYScanBuffer store p a c = c) as -> by (by rewrite copied).
  destruct (record_payload f _ r Hf' Hc) as (c & -> & Hc'). cbn [mbind outcome_bind].
  pose proof (zlen_frame f Hf') as Hlf. pose proof (zlen_nonneg r).
  destruct (reframe_payload f c r Hf' Hc') as (m & c' & -> & Hm & Hc'' & Hr').
  { rewrite Hc', zlen_app. rewrite Hc, zlen_app in Hcl. lia. }
  cbn [mbind outcome_bind fst snd]. rewrite put. cbn [negb].
  match goal with |- context [emit (?o :: ?os) ?x] => set (st1 := emit (o :: os) x) end.
  assert (in_step fs todo' future st1) as Hst1.
  { split_and!; [|cbn [headFragment_ st1 emit set_head]; by rewrite Hc'', Hr|done|done].
    rewrite Hfs. unfold delivered at 2. cbn [outputs_ st1 emit set_head set_scanner].
    rewrite omap_app. destruct f as [[fin op] d]. cbn -[chain_bytes]. cbn in Hm. rewrite Hm.
    rewrite <- app_assoc. by destruct notifyProgress. }
  destruct c' as [|b after].
  - eexists. split; [reflexivity|]. exists todo'. split; [done|]. by left.
  - destruct (decide (r = [])) as [->|Hrne]; [by specialize (Hr' eq_refl)|].
    destruct (lex_start todo' future st1 (frame_state f) b after) as (l & E & Hl);
      [done|done|by rewrite Hc''|by rewrite Hc''|].
    change (scanner_ st1) with (frame_state f). rewrite E. cbn [mbind outcome_bind].
    apply (IH todo'); [done..|]. cbn [st1 emit set_head headFragment_].
    rewrite Hc''. apply (f_equal length) in Hc. rewrite length_app in Hc.
    assert (0 < length (frame_bytes f))%nat by (unfold zlen in Hlf; destruct Hf' as [_ ?]; unfold zlen in *; lia).
    lia.
Qed.


Lemma parse_inv fs todo future l st :
  Forall frame_ok fs → zlen (stream fs) < 2 ^ 64 → in_step fs todo future st →
  lexed_ok todo future l st →
  ∃ st', parse_loop capacity get put_next true notifyProgress useYYScanBuffer store l st = Ok st' ∧ inv fs future st'.
Proof using copied room get_bytes put. intros. eapply loop_inv; [done..|lia]. Qed.

Lemma arrives_inv fs future b st :
  mb_bytes b ≠ [] → inv fs (mb_bytes b ++ future) st → inv fs future (handleDataMessage b st).
Proof.
  intros Hb (todo & (Hfs & Hbs & Hq & Hh) & Hw).
  assert (unread future (handleDataMessage b st) = unread (mb_bytes b ++ future) st) as Hu.
  { unfold unread, queue_bytes. cbn [handleDataMessage set_queue queue_]. rewrite bind_app.
    cbn. by rewrite app_nil_r, <- app_assoc. }
  exists todo. split.
  - split_and!; [done|by rewrite Hu| |done]. cbn [handleDataMessage set_queue queue_].
    rewrite Forall_app. split; [done|]. constructor; [by exists b|constructor].
  - destruct Hw as [?|(Ht & f & todo' & -> & Hn)]; [by left|]. right. split; [done|].
    exists f, todo'. split; [done|]. by rewrite Hu.
Qed.

Lemma works_inv fs future st :
  Forall frame_ok fs → zlen (stream fs) < 2 ^ 64 → inv fs future st →
  ∃ st', step st Works = Ok st' ∧ inv fs future st'.
Proof using copied room get_bytes put.
  intros Hok Hmax (todo & Hst & Hw). pose proof Hst as (Hfs & Hbs & Hq & Hh).
  unfold step, WebSocketParser.svc.
  destruct (queue_ st) as [|i q] eqn:Eq.
  { exists st. split; [by destruct (thread_ st)|]. by exists todo. }
  apply Forall_cons_1 in Hq as [(b & -> & Hb) Hq].
  assert (Forall frame_ok todo) as Htodo by (rewrite Hfs, Forall_app in Hok; tauto).
  assert (unread future st = mb_bytes b ++ unread future (set_queue q st)) as Hu.
  { unfold unread, queue_bytes. rewrite Eq. cbn. by rewrite <- app_assoc. }
  destruct Hw as [(Ht & Hhead & Hs)|(Ht & f & todo' & -> & Hn)]; rewrite Ht; cbn [default].
  - cbn [set_queue handshakeComplete_]. rewrite Hh. unfold dispatch_2. rewrite boundary_Ok. cbn [mbind outcome_bind].
    cbn [set_queue set_head headFragment_ scanner_]. rewrite Hhead. cbn [app].
    rewrite Hhead in Hbs. cbn [app chain_bytes mbind list_bind] in Hbs.
    set (st1 := set_head [b] (set_queue q st)).
    destruct (lex_start todo future st1 (scanner_ st) b []) as (l & E & Hl);
      [done|done|by rewrite chain_bytes_single|rewrite chain_bytes_single; by rewrite <- Hbs, Hu|].
    change (scanner_ st1) with (scanner_ st). rewrite E. cbn [mbind outcome_bind].
    apply (parse_inv fs todo); [done..| |done].
    split_and!; [done| |done|done]. cbn [st1 set_head headFragment_].
    rewrite chain_bytes_single. by rewrite <- Hbs, Hu.
  - unfold continue_scan, switchBuffer. rewrite boundary_Ok. cbn [ace_assert mbind outcome_bind].
    rewrite decide_True by done. set (st1 := set_head _ _). change (scanner_ st1) with (scanner_ st).
    rewrite Hu in Hn. rewrite <- chain_bytes_single in Hn.
    destruct (lex_narrow [] b _ _ _ _ Hn) as [(p & a & r & -> & Hr)|(s' & -> & Hs')]; cbn [mbind outcome_bind];
      (apply (parse_inv fs (f :: todo')); [done..| |]).
    1,3: split_and!; [done| |done|done]; cbn [st1 set_head set_queue headFragment_];
      rewrite chain_bytes_app, chain_bytes_single, <- app_assoc;
      change (unread future st1) with (unread future (set_queue q st)); by rewrite <- Hu.
    + exists f, todo'. split; [done|]. left. by exists p, a, r.
    + exists f, todo'. split; [done|]. right. by exists s'.
Qed.

Lemma run_inv fs future evs : ∀ st,
  Forall frame_ok fs → zlen (stream fs) < 2 ^ 64 → no_empty_block evs →
  inv fs (arrived evs ++ future) st →
  ∃ st', run evs st = Ok st' ∧ inv fs future st'.
Proof using copied room get_bytes put.
  induction evs as [|ev evs IH]; intros st Hok Hmax Hev Hi; [by exists st|].
  apply Forall_cons_1 in Hev as [He Hev]. cbn [run].
  destruct ev as [b|].
  - cbn [step mbind outcome_bind]. apply IH; [done..|]. apply arrives_inv; [done|].
    unfold arrived in *. cbn in Hi. by rewrite <- app_assoc in Hi.
  - destruct (works_inv fs (arrived evs ++ future) st) as (st1 & -> & Hi1); [done..|].
    cbn [mbind outcome_bind]. by apply IH.
Qed.

(** a module whose handshake is complete, with nothing to do *)
Definition ready (st : ws_state B) : Prop :=
  thread_ st = InSvc ∧ headFragment_ st = [] ∧ condition (scanner_ st) = INITIAL ∧
  handshakeComplete_ st = true ∧ queue_ st = [] ∧ outputs_ st = [].

(** C36: WebSocket_Module_Parser_T, with a driver that waits for data ([block]) and scans a
    copy of each fragment (not [useYYScanBuffer]): frames of a server (of payloads from 2 to 125
    octets) that arrive in fragments that are not empty, cut anywhere, are passed on complete
    and in order, whenever the thread gets to run between the fragments, once the handshake is
    complete and while the next module takes the messages; once the thread waits with an empty
    queue, every frame that has arrived is passed on, and what is left is shorter than the next *)
Theorem frames_received fs future evs st :
  Forall frame_ok fs → zlen (stream fs) < 2 ^ 64 → ready st →
  no_empty_block evs → arrived evs ++ future = stream fs →
  ∃ st' todo, run evs st = Ok st' ∧ fs = delivered st' ++ todo ∧
    (svc st' = None → ∃ rest, arrived evs = stream (delivered st') ++ rest ∧
       ∀ f, head todo = Some f → zlen rest < zlen (frame_bytes f)).
Proof using copied room get_bytes put.
  intros Hok Hmax (Ht & Hh & Hs & Hc & Hq & Ho) Hev Ha.
  destruct (run_inv fs future evs st) as (st' & -> & (todo & (Hfs & Hb & _ & Hhs) & Hw)); [done..| |].
  { exists fs. split; [|by left]. split_and!; [by unfold delivered; rewrite Ho| |by rewrite Hq|done].
    unfold unread. rewrite Hh, Hq. cbn. by rewrite Ha. }
  exists st', todo. split_and!; [done..|]. intros Hsvc.
  assert (queue_ st' = []) as Hq'.
  { unfold WebSocketParser.svc in Hsvc.
    destruct Hw as [(Ht' & _)|(Ht' & _)]; rewrite Ht' in Hsvc; destruct (queue_ st') as [|[]]; done. }
  unfold unread in Hb. rewrite Hq' in Hb. cbn [queue_bytes mbind list_bind app] in Hb.
  exists (chain_bytes (headFragment_ st')).
  assert (stream fs = stream (delivered st') ++ stream todo) as Hst.
  { rewrite Hfs at 1. unfold stream. by rewrite bind_app. }
  rewrite <- Ha, <- Hb, app_assoc in Hst. apply app_inv_tail in Hst. split; [done|].
  intros f Hf. destruct Hw as [(_ & Hhead & _)|(_ & f' & todo' & -> & Hn)].
  - rewrite Hhead. destruct todo as [|f' todo]; [done|]. injection Hf as ->.
    rewrite zlen_frame; [unfold zlen; cbn; lia|]. rewrite Hfs, Forall_app in Hok.
    destruct Hok as [_ [? _]%Forall_cons_1]. done.
  - injection Hf as ->. unfold unread in Hn. rewrite Hq' in Hn. cbn in Hn.
    apply narrow_consumes in Hn as (d & -> & Hd). rewrite stream_cons, app_assoc in Hb.
    apply app_inv_tail in Hb. rewrite <- Hb, zlen_app. destruct d; [done|].
    rewrite zlen_cons. pose proof (zlen_nonneg d). lia.
Qed.


(** C39: the end of a session, with a driver that waits for data, whatever it scans: when the thread has read what has arrived, it ends in at most
    three turns (it takes its message out of the queue up to three times, when it waits within
    a frame), and passes nothing more on *)
Theorem session_end_stops fs future st opened :
  inv fs future st → svc st = None →
  ∃ n st', (n <= 3)%nat ∧
    run (replicate n Works) (handleSessionMessage opened STREAM_SESSION_MESSAGE_END st) = Ok st' ∧
    thread_ st' = Done ∧ outputs_ st' = outputs_ st.
Proof.
  intros (todo & (_ & _ & Hq & _) & Hw) Hsvc.
  assert (queue_ st = []) as Hq'.
  { unfold WebSocketParser.svc in Hsvc. destruct (queue_ st) as [|i q]; [done|].
    apply Forall_cons_1 in Hq as [(b & -> & _) _].
    by destruct Hw as [(Ht & _)|(Ht & _)]; rewrite Ht in Hsvc. }
  destruct st as [c s fin hs q t os]. cbn in Hq'. subst q.
  destruct Hw as [(Ht & _)|(Ht & _)]; cbn in Ht; subst t.
  - exists 1%nat. eexists. split_and!; [lia|reflexivity|done..].
  - exists 3%nat. eexists. split_and!; [lia|reflexivity|done..].
Qed.
End Reception.

(** ** Without blocking

    The driver can be configured not to wait for data.  It then parses the chain from its start
    again when more has arrived, but the scanner goes on where it was, and the switch to the
    next fragment asserts a buffer that [parse ()] has already deleted. *)
Section NotBlocking.
Context {B : Type} `{MessageBlock B} `{ByteOrder}.
Context (capacity : B → Z) (get : Z → list B → list B * list B).
Context (put_next : WebSocket_Record → list B → bool) (notifyProgress : bool).
Context (useYYScanBuffer : bool) (store : Z → Z → B → B).
Context (http_dispatch : B → ws_state B → outcome (ws_state B)).
Context (room : ∀ b, 2 <= capacity b - block_length b).
Notation run := (run capacity get put_next notifyProgress useYYScanBuffer store http_dispatch).
Notation svc := (WebSocketParser.svc capacity get put_next false notifyProgress useYYScanBuffer store http_dispatch).

Lemma lex_end s s' p b after :
  ws_yylex s (mb_bytes b) = Ok (More s' p) → lex capacity false s b after = Ok (LexEnd s' after).
Proof. intros E. destruct after; cbn [lex]; by rewrite E. Qed.

(** the header, read at the start of a frame and once more behind it *)
Lemma header_more s final op n :
  condition s = INITIAL → 0 <= op < 16 → 3 <= n <= 125 →
  let h := [(if final : bool then 128 else 0) + op; n] in
  ∃ s1 s2, ws_yylex (parse_begin s) h = Ok (More s1 []) ∧
    ws_yylex (parse_begin s1) h = Ok (More s2 []).
Proof.
  intros Hs Hop Hn h. set (s1 := WsScanner payload_start (MkWebSocketRecord final op None n) 2 n n).
  exists s1, (WsScanner data_ WebSocket_Record_init 0 n (u64 (u64 (n - 1) - 1))). split; unfold ws_yylex, h.
  - cbn [length]. rewrite first_step by done.
    erewrite ws_matched; [|cbn [ws_rule headed begin_ condition];
      rewrite scan_size_value by lia; rewrite (proj2 (Z.leb_le n 125)) by lia;
      rewrite (proj2 (Z.eqb_neq n 0)) by lia; reflexivity]. reflexivity.
  - cbn [length]. set (b := _ + op).
    rewrite (ws_matched 2 (parse_begin s1) [b; n]
      (begin_ data_ (dataBytesSkipped 1 (parse_begin s1))) [n]).
    + rewrite (ws_matched 1 _ [n] (dataBytesSkipped 1 (begin_ data_ (dataBytesSkipped 1 (parse_begin s1)))) []);
        [done|].
      unfold ws_rule, scan_data. cbn -[u64 Z.sub]. rewrite (u64_small (n - 1)), (u64_small (n - 1 - 1)) by lia.
      by rewrite (proj2 (Z.eqb_neq _ _)) by lia.
    + unfold ws_rule, scan_payload. cbn -[u64 Z.sub]. by rewrite (proj2 (Z.eqb_neq _ _)) by lia.
Qed.

(** A driver that does not block: a frame whose header and payload (of more than two
    octets) arrive in fragments of their own aborts the program *)
Theorem nonblocking_aborts f b1 b2 st :
  frame_ok f → 3 <= zlen f.2 → ready st →
  mb_bytes b1 = take 2 (frame_bytes f) → mb_bytes b2 = f.2 →
  ∃ st1, svc (handleDataMessage b1 st) = Some (Ok st1) ∧ delivered st1 = [] ∧
    svc (handleDataMessage b2 st1) = Some Abort.
Proof using room.
  intros [Hop Hd] Hl (Ht & Hh & Hs & Hc & Hq & Ho) Hb1 Hb2.
  unfold frame_bytes in Hb1. rewrite server_frame_small in Hb1 by lia. cbn [take] in Hb1.
  rewrite take_0 in Hb1.
  destruct st as [c s fin hs q t os]. cbn in Ht, Hh, Hs, Hc, Hq, Ho. subst.
  destruct (header_more s f.1.1 f.1.2 (zlen f.2)) as (s1 & s2 & E1 & E2); [done..|lia|].
  rewrite <- Hb1 in E1, E2. apply (lex_end _ _ _ b1 []) in E1. apply (lex_end _ _ _ b1 [b2]) in E2.
  exists (MkWs [b1] s1 false true [] InSvc []).
  unfold WebSocketParser.svc, dispatch_2. cbn -[lex parse_begin].
  rewrite !(boundary_Ok capacity room). cbn -[lex parse_begin]. rewrite E1, E2. done.
Qed.
End NotBlocking.

(** ** Concrete fragments *)
Definition sample_capacity (b : list Z) : Z := zlen b + 2.
Lemma sample_room (b : list Z) : 2 <= sample_capacity b - block_length b.
Proof. unfold sample_capacity, block_length. cbn. lia. Qed.
Definition sample_put (_ : WebSocket_Record) (_ : list (list Z)) : bool := true.
Definition sample_store (i v : Z) (b : list Z) : list Z := <[Z.to_nat i := v]> b.
Definition no_http (_ : list Z) (st : ws_state (list Z)) : outcome (ws_state (list Z)) := Ok st.
Definition sample_ready : ws_state (list Z) :=
  MkWs [] (WsScanner INITIAL WebSocket_Record_init 7 0 0) true true [] InSvc [].
(** two frames in three fragments *)
Definition sample_frames : list frame := [(true, 1, [72; 101; 121]); (false, 2, [1; 2])].
Definition sample_events : list (event (B:=list Z)) :=
  [Arrives [129]; Works; Arrives [3; 72; 101; 121; 2]; Arrives [2; 1]; Works; Works].

Lemma sample_frames_ok : Forall frame_ok sample_frames.
Proof. repeat constructor; done. Qed.
Lemma frames_received_witness :
  ∃ st' todo,
    run sample_capacity sample_get sample_put true false sample_store no_http sample_events sample_ready = Ok st' ∧
    sample_frames = delivered st' ++ todo ∧
    (svc sample_capacity sample_get sample_put true true false sample_store no_http st' = None →
     ∃ rest, arrived sample_events = stream (delivered st') ++ rest ∧
       ∀ f, head todo = Some f → zlen rest < zlen (frame_bytes f)).
Proof.
  refine (frames_received sample_capacity sample_get sample_put true false sample_store no_http eq_refl sample_room
    sample_get_bytes (λ _ _, eq_refl) sample_frames [2] sample_events sample_ready
    sample_frames_ok _ _ _ _); [by vm_compute|by split_and!|by repeat constructor|by vm_compute].
Defined.

(** in the middle of a frame *)
Definition sample_midway : ws_state (list Z) :=
  MkWs [[129]] (WsScanner mask_payload_size_first (MkWebSocketRecord true 1 None 0) 1 0 0) false true
    [] (InScanner []) [].
Lemma sample_midway_inv : inv sample_frames ([3; 72; 101; 121] ++ stream [(false, 2, [1; 2])]) sample_midway.
Proof.
  exists sample_frames. split; [split_and!; [done|by vm_compute|constructor|done]|].
  right. split; [done|]. exists (true, 1, [72; 101; 121]), [(false, 2, [1; 2])]. split; [done|].
  pose proof (narrow_server_frame sample_ready.(scanner_) true 1 [72; 101; 121]
    (stream [(false, 2, [1; 2])]) eq_refl ltac:(done) ltac:(by vm_compute)) as Hn.
  inversion Hn as [|? ? ? ? ? ? Hs Hr Hn']; subst.
  vm_compute in Hr. injection Hr as <-. exact Hn'.
Qed.
Lemma session_end_stops_witness :
  ∃ n st', (n <= 3)%nat ∧
    run sample_capacity sample_get sample_put true false sample_store no_http (replicate n Works)
      (handleSessionMessage true STREAM_SESSION_MESSAGE_END sample_midway) = Ok st' ∧
    thread_ st' = Done ∧ outputs_ st' = [].
Proof.
  exact (session_end_stops sample_capacity sample_get sample_put true false sample_store no_http _ _ sample_midway true
    sample_midway_inv eq_refl).
Defined.

Lemma nonblocking_aborts_witness :
  ∃ st1, svc sample_capacity sample_get sample_put false true false sample_store no_http
      (handleDataMessage [129; 3] sample_ready) = Some (Ok st1) ∧ delivered st1 = [] ∧
    svc sample_capacity sample_get sample_put false true false sample_store no_http
      (handleDataMessage [72; 101; 121] st1) = Some Abort.
Proof.
  refine (nonblocking_aborts sample_capacity sample_get sample_put true false sample_store no_http sample_room
    (true, 1, [72; 101; 121]) [129; 3] [72; 101; 121] sample_ready _ _ _ _ _);
    [by vm_compute|by vm_compute|by split_and!|by vm_compute|by vm_compute].
Defined.

(** A module that is initialized again within a frame keeps the state of its scanner: the
    frames that follow are taken for the data of the old one, without end. *)
Example reinitialized_midway :
  let scan_on st := run sample_capacity sample_get sample_put true false sample_store no_http
    [Arrives (frame_bytes (true, 1, [72; 101; 121])); Works] st in
  ∃ st', run sample_capacity sample_get sample_put true false sample_store no_http
           [Arrives [129; 3; 72; 101]; Works] sample_ready = Ok st' ∧
    (st'' ← scan_on (MkWs [] (scanner_ (initialize st')) false true [] InSvc []);
     Ok (delivered st'')) = Ok [] ∧
    (st'' ← scan_on sample_ready; Ok (delivered st'')) = Ok [(true, 1, [72; 101; 121])].
Proof. eexists. split; [reflexivity|]. by vm_compute. Qed.
(** a size of 16 bits that is cut: the first octet is put back into a buffer that the scanner
    has left *)
Example size_cut :
  lex sample_capacity true (scanner_ sample_ready) [129; 126; 0] [[200]] = Undef.
Proof. by vm_compute. Qed.

(** With the fragments scanned themselves: the second of two frames in a fragment is read
    without the final bit, and with the opcode 0; frames in fragments of their own are not
    changed. *)
Example next_frame_overwritten :
  let two := [(true, 1, [72; 101; 121]); (true, 2, [1; 2])] in
  let received mode evs :=
    st ← run sample_capacity sample_get sample_put true mode sample_store no_http evs sample_ready;
    Ok (delivered st) in
  received false [Arrives (stream two); Works] = Ok two ∧
  received true [Arrives (stream two); Works] = Ok [(true, 1, [72; 101; 121]); (false, 0, [1; 2])] ∧
  received true ((two ≫= λ f, [Arrives (frame_bytes f); Works])) = Ok two.
Proof. by vm_compute. Qed.
