(* ===== verification/HttpTools.v ===== *)
(** * HTTP tools (protocol/http/http_tools.cpp, http_codes.h, http_common.h)

    The names of methods, versions and status codes, the classification of header
    fields, the textual dump of a record, and the percent encoding of URLs.  The
    functions on regular expressions ([parseURL], [URLIsURI], [URLRequiresSSL],
    [stripURI]) are in [HttpUrls]. *)
From S2P Require Import Prelude Chars.

(** ** HTTP_Codes *)
Inductive MethodType :=
  | HTTP_METHOD_GET | HTTP_METHOD_POST | HTTP_METHOD_HEAD | HTTP_METHOD_M_SEARCH
  | HTTP_METHOD_NOTIFY | HTTP_METHOD_MAX | HTTP_METHOD_INVALID.
#[export] Instance MethodType_eq_dec : EqDecision MethodType.
Proof. solve_decision. Defined.

Definition method_value (m : MethodType) : Z :=
  match m with
  | HTTP_METHOD_GET => 0 | HTTP_METHOD_POST => 1 | HTTP_METHOD_HEAD => 2
  | HTTP_METHOD_M_SEARCH => 3 | HTTP_METHOD_NOTIFY => 4
  | HTTP_METHOD_MAX => 5 | HTTP_METHOD_INVALID => 6
  end.

Inductive VersionType :=
  | HTTP_VERSION_0_9 | HTTP_VERSION_1_0 | HTTP_VERSION_1_1 | HTTP_VERSION_2
  | HTTP_VERSION_3 | HTTP_VERSION_MAX | HTTP_VERSION_INVALID.
#[export] Instance VersionType_eq_dec : EqDecision VersionType.
Proof. solve_decision. Defined.

(** [HTTP_Status_t] holds any number the peer sends: a [Z]; its enumerators: *)
Module Status.
Definition HTTP_STATUS_OK := 200.
Definition HTTP_STATUS_CREATED := 201.
Definition HTTP_STATUS_ACCEPTED := 202.
Definition HTTP_STATUS_NOCONTENT := 204.
Definition HTTP_STATUS_MULTIPLECHOICES := 300.
Definition HTTP_STATUS_MOVEDPERMANENTLY := 301.
Definition HTTP_STATUS_MOVEDTEMPORARILY := 302.
Definition HTTP_STATUS_SEEOTHER := 303.
Definition HTTP_STATUS_NOTMODIFIED := 304.
Definition HTTP_STATUS_USEPROXY := 305.
Definition HTTP_STATUS_SWITCHPROXY := 306.
Definition HTTP_STATUS_TEMPORARYREDIRECT := 307.
Definition HTTP_STATUS_PERMANENTREDIRECT := 308.
Definition HTTP_STATUS_BADREQUEST := 400.
Definition HTTP_STATUS_UNAUTHORIZED := 401.
Definition HTTP_STATUS_FORBIDDEN := 403.
Definition HTTP_STATUS_NOTFOUND := 404.
Definition HTTP_STATUS_INTERNALSERVERERROR := 500.
Definition HTTP_STATUS_NOTIMPLEMENTED := 501.
Definition HTTP_STATUS_BADGATEWAY := 502.
Definition HTTP_STATUS_SERVICEUNAVAILABLE := 503.
Definition HTTP_STATUS_INVALID := 1001.
End Status.
Import Status.

Inductive HeaderType :=
  | HTTP_HEADER_GENERAL | HTTP_HEADER_REQUEST | HTTP_HEADER_RESPONSE
  | HTTP_HEADER_ENTITY | HTTP_HEADER_MAX | HTTP_HEADER_INVALID.
#[export] Instance HeaderType_eq_dec : EqDecision HeaderType.
Proof. solve_decision. Defined.

(** struct HTTP_Record; the maps are the lists of their pairs in iteration order *)
Record HTTP_Record := MkRecord {
  form : list (string * string);
  headers : list (string * string);
  method : MethodType;
  reason : string;
  status : Z;
  URI : string;
  version : VersionType
}.

(** the constructor, and [reset ()] *)
Definition HTTP_Record_init : HTTP_Record :=
  MkRecord [] [] HTTP_METHOD_INVALID "" HTTP_STATUS_INVALID "" HTTP_VERSION_INVALID.
Definition reset (r : HTTP_Record) : HTTP_Record :=
  let 'MkRecord _ _ _ _ _ _ _ := r in
  MkRecord [] [] HTTP_METHOD_INVALID "" HTTP_STATUS_INVALID "" HTTP_VERSION_INVALID.

(** ** Names *)
Definition MethodToString (method_in : MethodType) : string :=
  match method_in with
  | HTTP_METHOD_GET => "GET"
  | HTTP_METHOD_POST => "POST"
  | HTTP_METHOD_HEAD => "HEAD"
  | HTTP_METHOD_M_SEARCH => "M-SEARCH"
  | HTTP_METHOD_NOTIFY => "NOTIFY"
  | _ => "INVALID/UNKNOWN"
  end.

Definition VersionToString (version_in : VersionType) : string :=
  match version_in with
  | HTTP_VERSION_0_9 => "0.9"
  | HTTP_VERSION_1_0 => "1.0"
  | HTTP_VERSION_1_1 => "1.1"
  | HTTP_VERSION_2 => "2"
  | _ => "INVALID/UNKNOWN"
  end.

(** the cases of [StatusToReason]'s switch *)
Definition status_reasons : list (Z * string) :=
  [(HTTP_STATUS_OK, "OK");
   (HTTP_STATUS_CREATED, "Created");
   (HTTP_STATUS_ACCEPTED, "Accepted");
   (HTTP_STATUS_NOCONTENT, "No Content");
   (HTTP_STATUS_MULTIPLECHOICES, "Multiple Choices");
   (HTTP_STATUS_MOVEDPERMANENTLY, "Moved Permanently");
   (HTTP_STATUS_MOVEDTEMPORARILY, "Moved Temporarily");
   (HTTP_STATUS_NOTMODIFIED, "Not Modified");
   (HTTP_STATUS_BADREQUEST, "Bad Request");
   (HTTP_STATUS_UNAUTHORIZED, "Unauthorized");
   (HTTP_STATUS_FORBIDDEN, "Forbidden");
   (HTTP_STATUS_NOTFOUND, "Not Found");
   (HTTP_STATUS_INTERNALSERVERERROR, "Internal Server Error");
   (HTTP_STATUS_NOTIMPLEMENTED, "Not Implemented");
   (HTTP_STATUS_BADGATEWAY, "Bad Gateway");
   (HTTP_STATUS_SERVICEUNAVAILABLE, "Service Unavailable")].
Definition StatusToReason (status_in : Z) : string :=
  switch status_in status_reasons "INVALID/UNKNOWN".

Definition MethodToType (method_in : string) : MethodType :=
  if decide (method_in = "GET") then HTTP_METHOD_GET
  else if decide (method_in = "POST") then HTTP_METHOD_POST
  else if decide (method_in = "HEAD") then HTTP_METHOD_HEAD
  else if decide (method_in = "M-SEARCH") then HTTP_METHOD_M_SEARCH
  else if decide (method_in = "NOTIFY") then HTTP_METHOD_NOTIFY
  else HTTP_METHOD_INVALID.

Definition VersionToType (version_in : string) : VersionType :=
  if decide (version_in = "0.9") then HTTP_VERSION_0_9
  else if decide (version_in = "1.0") then HTTP_VERSION_1_0
  else if decide (version_in = "1.1") then HTTP_VERSION_1_1
  else if decide (version_in = "2") then HTTP_VERSION_2
  else HTTP_VERSION_INVALID.

(** ** Header fields *)
Definition one_of (s : string) (names : list string) : bool :=
  existsb (λ n, bool_decide (s = n)) names.

Definition general_headers := ["Date"; "Pragma"].
Definition request_headers :=
  ["Authorization"; "From"; "If-Modified-Since"; "Referer"; "User-Agent"].
Definition response_headers := ["Location"; "Server"; "WWW-Authenticate"].
Definition entity_headers :=
  ["Allow"; "Content-Encoding"; "Content-Length"; "Content-Type"; "Expires";
   "Last-Modified"].

Definition isHeaderType (fieldName_in : string) (headerType_in : HeaderType) : bool :=
  match headerType_in with
  | HTTP_HEADER_GENERAL => one_of fieldName_in general_headers
  | HTTP_HEADER_REQUEST => one_of fieldName_in request_headers
  | HTTP_HEADER_RESPONSE => one_of fieldName_in response_headers
  | HTTP_HEADER_ENTITY =>
      one_of fieldName_in entity_headers
      || (negb (one_of fieldName_in general_headers)
          && negb (one_of fieldName_in request_headers)
          && negb (one_of fieldName_in response_headers))
  | _ => false
  end.

Definition isRequest (record_in : HTTP_Record) : bool :=
  method_value (method record_in) <? method_value HTTP_METHOD_MAX.

(** ** Content encodings

    [enum Stream_Decoder_CompressionFormatType] belongs to the stream library: the
    two enumerators the code returns; so does [Common_String_Tools::tolower] to the
    common library: a parameter. *)
Inductive CompressionFormat :=
  | STREAM_COMPRESSION_FORMAT_GZIP | STREAM_COMPRESSION_FORMAT_INVALID.

Definition EncodingToCompressionFormat (tolower_ : string → string)
    (encoding_in : string) : CompressionFormat :=
  let lowercase_string := tolower_ encoding_in in
  if bool_decide (lowercase_string = "deflate") || bool_decide (lowercase_string = "gzip")
  then STREAM_COMPRESSION_FORMAT_GZIP
  else STREAM_COMPRESSION_FORMAT_INVALID.

(** ** Dump *)
Definition header_line (h : string * string) : string :=
  h.1 +:+ ": " +:+ quote +:+ h.2 +:+ quote +:+ eol.

(** one of the three loops: the headers of a type, in iteration order *)
Definition headers_of (t : HeaderType) (hs : list (string * string)) :
    list (string * string) :=
  filter (λ h, isHeaderType h.1 t = true) hs.

Definition separator : string := "-------------------------------" +:+ eol.

Definition form_line (f : string * string) : string :=
  quote +:+ f.1 +:+ quote +:+ "=" +:+ quote +:+ f.2 +:+ quote +:+ eol.

Definition concat (l : list string) : string := foldr String.append "" l.

Definition dump (record_in : HTTP_Record) : string :=
  let is_request := isRequest record_in in
  (if is_request then
     "Method: " +:+ MethodToString (method record_in) +:+ eol +:+
     "Request-URI: " +:+ URI record_in +:+ eol +:+
     "Version: " +:+ VersionToString (version record_in) +:+ eol
   else
     "Version: " +:+ VersionToString (version record_in) +:+ eol +:+
     "Status: " +:+ pretty (status record_in) +:+ eol +:+
     "Reason: " +:+ quote +:+ StatusToReason (status record_in) +:+ quote +:+ eol) +:+
  "Headers (" +:+ pretty (zlen (headers record_in)) +:+ "):" +:+ eol +:+
  concat (header_line <$> headers_of HTTP_HEADER_GENERAL (headers record_in)) +:+
  separator +:+
  concat (header_line <$> headers_of
            (if is_request then HTTP_HEADER_REQUEST else HTTP_HEADER_RESPONSE)
            (headers record_in)) +:+
  separator +:+
  concat (header_line <$> headers_of HTTP_HEADER_ENTITY (headers record_in)) +:+
  "Headers /END" +:+ eol +:+
  (if decide (form record_in = []) then ""
   else
     "Form (" +:+ pretty (zlen (form record_in)) +:+ "):" +:+ eol +:+
     concat (form_line <$> form record_in) +:+
     "Form /END" +:+ eol).

(** ** URLs *)

(** the characters of RFC 3986 that need no encoding *)
Definition unreserved (c : ascii) : bool :=
  isdigit c || isalpha c || (Ascii.eqb c "." || Ascii.eqb c "-" || Ascii.eqb c "_"
                             || Ascii.eqb c "~").

Definition escape (upperCaseHexDigits_in : bool) (c : ascii) : string :=
  let converted_string := setw 2 "0" (hex16 (code c)) in
  let converted_string :=
    if upperCaseHexDigits_in then string_map toupper converted_string
    else converted_string in
  String "%"
    (if (String.length converted_string =? 2)%nat then converted_string
     else String.substring 2 (String.length converted_string - 2) converted_string).

Fixpoint URLEncode (string_in : string) (escapeAll_in upperCaseHexDigits_in : bool)
  : string :=
  match string_in with
  | "" => ""
  | String c s =>
      (if escapeAll_in || negb (unreserved c) then escape upperCaseHexDigits_in c
       else String c "") +:+ URLEncode s escapeAll_in upperCaseHexDigits_in
  end.

(** the value of a hexadecimal digit *)
Definition hex_value (c : ascii) : Z :=
  if isdigit c then code c - code "0" else code (toupper c) - code "A" + 10.

Fixpoint URLDecode (string_in : string) : outcome string :=
  match string_in with
  | "" => Ok ""
  | String c s =>
      if Ascii.eqb c "%" then
        match s with
        | String high (String low s') =>
            high_ok ← isxdigit_int high;
            both ← (if high_ok : bool then isxdigit_int low else Ok false);
            if both : bool then
              String (chr (Z.lor (Z.shiftl (hex_value high) 4) (hex_value low))) <$>
                URLDecode s'
            else String c <$> URLDecode s
        | _ => String c <$> URLDecode s
        end
      else if Ascii.eqb c "+" then String " " <$> URLDecode s
      else String c <$> URLDecode s
  end.

(** ** Percent encoding: helper lemmas *)
Definition escape_ok (up : bool) (c : ascii) : bool :=
  match escape up c with
  | String p (String high (String low "")) =>
      Ascii.eqb p "%" && (schar high >=? 0) && isxdigit high
      && (schar low >=? 0) && isxdigit low
      && Ascii.eqb (chr (Z.lor (Z.shiftl (hex_value high) 4) (hex_value low))) c
  | _ => false
  end.

Lemma escape_ok_all up c : escape_ok up c = true.
Proof. destruct up; revert c; apply all_chars_forall; by vm_compute. Qed.

Lemma isxdigit_int_nonneg c : (schar c >=? 0) = true → isxdigit_int c = Ok (isxdigit c).
Proof.
  intros Hc. unfold isxdigit_int. apply Z.geb_le in Hc.
  by rewrite (proj2 (Z.ltb_ge _ _)) by lia.
Qed.

(** An escape is a percent sign and two digits whose value is the character. *)
Lemma escape_inv up c :
  ∃ high low, escape up c = String "%" (String high (String low "")) ∧
    isxdigit_int high = Ok true ∧ isxdigit_int low = Ok true ∧
    isxdigit high = true ∧ isxdigit low = true ∧
    chr (Z.lor (Z.shiftl (hex_value high) 4) (hex_value low)) = c.
Proof.
  pose proof (escape_ok_all up c) as Hok. unfold escape_ok in Hok.
  destruct (escape up c) as [|p [|high [|low [|]]]]; try done.
  repeat (apply andb_true_iff in Hok as [Hok ?]).
  exists high, low. apply Ascii.eqb_eq in Hok as ->.
  rewrite !isxdigit_int_nonneg by done.
  split_and!; try done; [by f_equal..|]. by apply Ascii.eqb_eq.
Qed.

Lemma URLDecode_escape up c rest :
  URLDecode (escape up c +:+ rest) = String c <$> URLDecode rest.
Proof.
  destruct (escape_inv up c) as (high & low & -> & Hh & Hl & _ & _ & Hv).
  autorewrite with str. cbn. rewrite Hh; cbn. rewrite Hl; cbn. by rewrite Hv.
Qed.

Lemma unreserved_plain c :
  unreserved c = true → Ascii.eqb c "%" = false ∧ Ascii.eqb c "+" = false.
Proof.
  pose proof (all_chars_forall
    (λ c, implb (unreserved c) (negb (Ascii.eqb c "%") && negb (Ascii.eqb c "+"))))
    as Hall.
  intros Hc. specialize (Hall ltac:(by vm_compute) c). cbn in Hall.
  rewrite Hc in Hall. cbn in Hall.
  apply andb_true_iff in Hall as [?%negb_true_iff ?%negb_true_iff]. done.
Qed.

Lemma URLEncode_cons c s all up :
  URLEncode (String c s) all up =
  (if all || negb (unreserved c) then escape up c else String c "")
    +:+ URLEncode s all up.
Proof. done. Qed.

(** Percent encoding loses nothing: decoding what [URLEncode] produces gives the
    original string back, for every byte string and for both options (escaping all
    characters, upper-case digits), and the decoder reads no character its
    [isxdigit] calls are undefined on. *)
Theorem URLDecode_URLEncode s escapeAll upper :
  URLDecode (URLEncode s escapeAll upper) = Ok s.
Proof.
  induction s as [|c s IH]; [done|]. rewrite URLEncode_cons.
  destruct (escapeAll || negb (unreserved c)) eqn:Hesc.
  - by rewrite URLDecode_escape, IH.
  - apply orb_false_iff in Hesc as [_ [Hp Hplus]%negb_false_iff%unreserved_plain].
    autorewrite with str. cbn [URLDecode]. by rewrite Hp, Hplus, IH.
Qed.

(** The alphabet of an encoded string. *)
Definition url_char (c : ascii) : bool :=
  unreserved c || Ascii.eqb c "%".

Lemma xdigit_unreserved c : isxdigit c = true → unreserved c = true.
Proof.
  pose proof (all_chars_forall (λ c, implb (isxdigit c) (unreserved c))) as Hall.
  intros Hc. specialize (Hall ltac:(by vm_compute) c). cbn in Hall. by rewrite Hc in Hall.
Qed.

Lemma escape_url_char up c : string_all url_char (escape up c) = true.
Proof.
  destruct (escape_inv up c) as (high & low & -> & _ & _ & Hh & Hl & _).
  unfold url_char; cbn.
  by rewrite (xdigit_unreserved high), (xdigit_unreserved low).
Qed.

(** An encoded URL holds only unreserved characters of RFC 3986 and percent
    signs, and a string of unreserved characters is left as it is unless all
    characters are to be escaped. *)
Theorem URLEncode_safe s escapeAll upper :
  string_all url_char (URLEncode s escapeAll upper) = true ∧
  (string_all unreserved s = true → URLEncode s false upper = s).
Proof.
  split.
  - induction s as [|c s IH]; [done|]. rewrite URLEncode_cons, string_all_app, IH.
    rewrite andb_true_r. destruct (escapeAll || negb (unreserved c)) eqn:Hesc.
    + apply escape_url_char.
    + apply orb_false_iff in Hesc as [_ Hc%negb_false_iff].
      unfold url_char; cbn. by rewrite Hc.
  - induction s as [|c s IH]; [done|]. cbn [string_all].
    intros [Hc Hs]%andb_true_iff. rewrite URLEncode_cons, Hc. cbn [orb negb].
    autorewrite with str. by rewrite IH.
Qed.

Lemma URLEncode_safe_witness :
  string_all unreserved "index-1.html" = true ∧ URLEncode "index-1.html" false true = "index-1.html".
Proof.
  split; [by vm_compute|]. apply (URLEncode_safe "index-1.html" false true). by vm_compute.
Defined.

(** The decoder is defined on a string without bytes in [0x80, 0xfe]. *)
Definition plain_char (c : ascii) : bool := (schar c >=? -1).

Lemma isxdigit_int_plain c : plain_char c = true → isxdigit_int c = Ok (isxdigit c).
Proof.
  unfold plain_char, isxdigit_int. intros Hc%Z.geb_le.
  destruct (schar c <? 0) eqn:?; [|done]. bool_lia.
  by rewrite (proj2 (Z.eqb_eq _ _)) by lia.
Qed.

Lemma fmap_String_Ok (c : ascii) m r' (n : nat) :
  m = Ok r' → (String.length r' <= n)%nat →
  ∃ r, String c <$> m = Ok r ∧ (String.length r <= S n)%nat.
Proof. intros -> ?. eexists; split; [reflexivity|]. cbn. lia. Qed.

Lemma URLDecode_total n s :
  (String.length s <= n)%nat → string_all plain_char s = true →
  ∃ r, URLDecode s = Ok r ∧ (String.length r <= String.length s)%nat.
Proof.
  revert s; induction n as [|n IH]; intros [|c s] Hn Hs; try (cbn in Hn; lia);
    [by exists ""..|].
  cbn [string_all] in Hs. apply andb_true_iff in Hs as [_ Hs].
  assert (Hplain : ∀ d, ∃ r, String d <$> URLDecode s = Ok r ∧
            (String.length r <= S (String.length s))%nat).
  { intros d. destruct (IH s) as (r' & Hr' & Hl); [cbn in Hn; lia|done|].
    by apply (fmap_String_Ok d _ r'). }
  cbn [URLDecode String.length]. destruct (Ascii.eqb c "%"); [|by destruct_if].
  destruct s as [|high [|low s']]; [apply Hplain..|].
  pose proof Hs as Hs'. cbn [string_all] in Hs'.
  apply andb_true_iff in Hs' as [Hh [Hl Hs']%andb_true_iff].
  rewrite (isxdigit_int_plain high) by done. cbn [mbind outcome_bind].
  destruct (isxdigit high); cbn [mbind outcome_bind]; [|apply Hplain].
  rewrite (isxdigit_int_plain low) by done. cbn [mbind outcome_bind].
  destruct (isxdigit low); [|apply Hplain].
  destruct (IH s') as (r' & Hr' & Hlen); [cbn in Hn; lia|done|].
  eapply fmap_String_Ok; [done|]. cbn. lia.
Qed.

(** On a string of 7-bit characters [URLDecode] returns, never reading out of
    the string, a string that is no longer than its argument (which bounds the
    storage it reserves). *)
Theorem URLDecode_defined s (Hs : string_all plain_char s = true) :
  ∃ r, URLDecode s = Ok r ∧ (String.length r <= String.length s)%nat.
Proof. by apply (URLDecode_total (String.length s)). Qed.

Lemma URLDecode_defined_witness :
  URLDecode "a%2Fb%4" = Ok "a/b%4" ∧
  ∃ r, URLDecode "a%2Fb%4" = Ok r ∧ (String.length r <= String.length "a%2Fb%4")%nat.
Proof. split; [by vm_compute|]. apply URLDecode_defined. by vm_compute. Defined.

Lemma isxdigit_int_high c : 0x80 <= code c <= 0xfe → isxdigit_int c = Undef.
Proof.
  intros Hc. unfold isxdigit_int, schar.
  destruct (code c <? 128) eqn:?; bool_lia.
  rewrite (proj2 (Z.ltb_lt _ _)) by lia. by rewrite (proj2 (Z.eqb_neq _ _)) by lia.
Qed.

(** A percent sign followed by two characters the first of which is a byte from
    0x80 to 0xfe is undefined behaviour: the [char], negative, is passed to
    [std::isxdigit] as it is. *)
Theorem URLDecode_undefined high low s
    (Hhigh : 0x80 <= code high <= 0xfe) :
  URLDecode (String "%" (String high (String low s))) = Undef.
Proof.
  change (URLDecode _) with
    (high_ok ← isxdigit_int high;
     both ← (if high_ok : bool then isxdigit_int low else Ok false);
     if both : bool then
       String (chr (Z.lor (Z.shiftl (hex_value high) 4) (hex_value low))) <$> URLDecode s
     else String "%" <$> URLDecode (String high (String low s))).
  by rewrite (isxdigit_int_high high Hhigh).
Qed.

Lemma URLDecode_undefined_witness :
  (0x80 <= code (chr 0xe4) <= 0xfe) ∧
  URLDecode (String "%" (String (chr 0xe4) "20")) = Undef.
Proof.
  split; [by vm_compute|]. apply (URLDecode_undefined (chr 0xe4) "2" "0"). by vm_compute.
Defined.

(** ** Names: round trips *)

(** A method is recognised by exactly its name: [MethodToType] returns a method
    other than [HTTP_METHOD_INVALID] on the strings [MethodToString] returns for the
    methods below [HTTP_METHOD_MAX], and on no other. *)
Theorem MethodToType_iff s m :
  (MethodToType s = m ∧ m ≠ HTTP_METHOD_INVALID) ↔
  (method_value m < method_value HTTP_METHOD_MAX ∧ MethodToString m = s).
Proof.
  split.
  - intros [<- Hm]. revert Hm. unfold MethodToType.
    repeat case_decide; subst; done.
  - intros [Hm <-]. by destruct m; cbn in *; try lia.
Qed.

(** A version is recognised by exactly its name, HTTP/3 excepted, which has an
    enumerator but neither a name nor a recogniser. *)
Theorem VersionToType_iff s v :
  (VersionToType s = v ∧ v ≠ HTTP_VERSION_INVALID) ↔
  (v ∉ [HTTP_VERSION_3; HTTP_VERSION_MAX; HTTP_VERSION_INVALID] ∧ VersionToString v = s).
Proof.
  split.
  - intros [<- Hv]. revert Hv. unfold VersionToType.
    repeat case_decide; subst; try done; intros _; (split; [set_solver|done]).
  - intros [Hv <-]. destruct v; cbn; try done; set_solver.
Qed.

(** ** Header fields *)
Lemma one_of_elem s l : one_of s l = true ↔ s ∈ l.
Proof.
  unfold one_of. rewrite existsb_exists. setoid_rewrite list_elem_of_In.
  setoid_rewrite bool_decide_eq_true. naive_solver.
Qed.

(** A concrete name has type [t] and no other. *)
Ltac only_type t :=
  exists t; split; [by vm_compute|]; intros [] Ht; vm_compute in Ht; by try discriminate.

Lemma header_type_unique name :
  ∃ t, isHeaderType name t = true ∧ ∀ t', isHeaderType name t' = true → t' = t.
Proof.
  destruct (decide (name ∈ general_headers ++ request_headers ++ response_headers
                         ++ entity_headers)) as [Hin|Hout].
  - repeat setoid_rewrite elem_of_app in Hin. unfold general_headers, request_headers,
      response_headers, entity_headers in Hin.
    rewrite !elem_of_cons, !elem_of_nil in Hin.
    destruct_or?; try done; subst;
      first [only_type HTTP_HEADER_GENERAL | only_type HTTP_HEADER_REQUEST
            | only_type HTTP_HEADER_RESPONSE | only_type HTTP_HEADER_ENTITY].
  - rewrite !elem_of_app in Hout.
    exists HTTP_HEADER_ENTITY. cbn [isHeaderType].
    assert (Hno : ∀ l, name ∉ l → one_of name l = false).
    { intros l Hl. destruct (one_of name l) eqn:E; [|done]. by apply one_of_elem in E. }
    rewrite !Hno by tauto. split; [done|].
    intros [] Ht'; cbn [isHeaderType] in Ht'; try rewrite !Hno in Ht' by tauto; try done.
Qed.

(** The four header types partition the field names: every name is of exactly
    one of the types general, request, response and entity (unknown fields are
    entity headers). *)
Theorem isHeaderType_partition name :
  ∃ t, isHeaderType name t = true ∧ ∀ t', isHeaderType name t' = true → t' = t.
Proof. apply header_type_unique. Qed.

(** The type of headers the dump of a record leaves out. *)
Definition other_type (r : HTTP_Record) : HeaderType :=
  if isRequest r then HTTP_HEADER_RESPONSE else HTTP_HEADER_REQUEST.

Lemma headers_of_cons t h hs :
  headers_of t (h :: hs) =
    if isHeaderType h.1 t then h :: headers_of t hs else headers_of t hs.
Proof.
  unfold headers_of. destruct (isHeaderType h.1 t) eqn:E.
  - by rewrite filter_cons_True.
  - rewrite filter_cons_False; [done|]. by rewrite E.
Qed.

Lemma header_type_known name t : isHeaderType name t = true →
  t ∈ [HTTP_HEADER_GENERAL; HTTP_HEADER_REQUEST; HTTP_HEADER_RESPONSE; HTTP_HEADER_ENTITY].
Proof. destruct t; cbn; intros ?; try done; set_solver. Qed.

Lemma headers_of_permutation hs :
  headers_of HTTP_HEADER_GENERAL hs ++ headers_of HTTP_HEADER_REQUEST hs ++
  headers_of HTTP_HEADER_RESPONSE hs ++ headers_of HTTP_HEADER_ENTITY hs ≡ₚ hs.
Proof.
  induction hs as [|h hs IH]; [done|]. rewrite !headers_of_cons.
  destruct (header_type_unique h.1) as (t & Ht & Huniq).
  pose proof (header_type_known _ _ Ht) as Hknown.
  assert (Hif : ∀ t', isHeaderType h.1 t' = bool_decide (t' = t)).
  { intros t'. case_bool_decide; [by subst|].
    destruct (isHeaderType h.1 t') eqn:E; [|done]. by apply Huniq in E. }
  rewrite !Hif. etrans; [|by apply perm_skip, IH]. clear IH Ht Huniq Hif.
  rewrite !elem_of_cons, elem_of_nil in Hknown.
  destruct_or?; try done; subst; cbn; solve_Permutation.
Qed.

(** The dump of a record prints each header of the record exactly once, under the
    section of its type - except that a request's dump leaves out the response
    headers and a response's the request headers, although the number it announces
    counts them. *)
Theorem dump_headers_once r :
  ∃ general typed entity pre post,
    dump r = pre +:+ "Headers (" +:+ pretty (zlen (headers r)) +:+ "):" +:+ eol +:+
             concat (header_line <$> general) +:+ separator +:+
             concat (header_line <$> typed) +:+ separator +:+
             concat (header_line <$> entity) +:+ "Headers /END" +:+ post ∧
    general ++ typed ++ entity ++ headers_of (other_type r) (headers r) ≡ₚ headers r.
Proof.
  exists (headers_of HTTP_HEADER_GENERAL (headers r)).
  exists (headers_of (if isRequest r then HTTP_HEADER_REQUEST
                      else HTTP_HEADER_RESPONSE) (headers r)).
  exists (headers_of HTTP_HEADER_ENTITY (headers r)).
  unfold dump, other_type. do 2 eexists. split; [reflexivity|].
  etrans; [|apply headers_of_permutation].
  destruct (isRequest r); apply Permutation_app_head; rewrite !(assoc_L (++)).
  - rewrite <- !(assoc_L (++)). apply Permutation_app_head, Permutation_app_comm.
  - rewrite (Permutation_app_comm _ (headers_of HTTP_HEADER_REQUEST _)).
    by rewrite !(assoc_L (++)).
Qed.
