(* ===== verification/HttpUrls.v ===== *)
(** * URLs and URIs of HTTP (protocol/http/http_tools.cpp, http_defines.h)

    The functions of [HTTP_Tools] on regular expressions: what is a URI, the parts of a URL,
    the path without the parameters. *)
From S2P Require Import Prelude Chars Decimal Regex HttpTools.

(** ** The expressions *)
Definition not_slash (c : ascii) : bool := negb (Ascii.eqb c "/").
Definition slash : regex := Lit "/".
(** parts with a slash behind each, and an optional last part *)
Definition segments : regex := Star (Seq (Plus (Class not_slash)) slash).
Definition last_segment : regex := Optional (Star (Class not_slash)).
Definition HTTP_ABSOLUTE_URI_REGEX_STRING : regex := Seqs [slash; segments; last_segment].
Definition HTTP_RELATIVE_URI_REGEX_STRING : regex :=
  Seqs [Plus (Class not_slash); Optional slash; segments; last_segment].

(** [http(s)?|(s)?ftp|ws(s)?] *)
Definition url_scheme : regex :=
  Alt (Seq (Lits "http") (Optional (Group 2 (Lit "s"))))
    (Alt (Seq (Optional (Group 3 (Lit "s"))) (Lits "ftp"))
         (Seq (Lits "ws") (Optional (Group 4 (Lit "s"))))).
Definition HTTP_URL_REGEX_STRING : regex :=
  Seqs [Optional (Seq (Group 1 url_scheme) (Lits "://"));
        Group 5 (Star (Class not_slash)); Group 6 (Star any)].
(** [^([[:alnum:].-]+)(?:\:([[:digit:]]{1,5}))?$] *)
Definition host_name_char (c : ascii) : bool :=
  isalpha c || isdigit c || Ascii.eqb c "." || Ascii.eqb c "-".
Definition host_port_regex : regex :=
  Seq (Group 1 (Plus (Class host_name_char)))
      (Optional (Seq (Lit ":") (Group 2 (Repeat digit 1 (Some 5%nat))))).
(** [^(?:http(s)?://)?(.+)?$] *)
Definition requires_ssl_regex : regex :=
  Seq (Optional (Seqs [Lits "http"; Optional (Group 1 (Lit "s")); Lits "://"]))
      (Optional (Group 2 (Plus any))).
(** the first group is the path, up to a question mark; the second one the rest *)
Definition not_question (c : ascii) : bool := negb (Ascii.eqb c "?").
Definition strip_regex : regex :=
  Seq (Group 1 (Seqs [slash; segments; Star (Class not_question)]))
      (Optional (Seq (Lit "?") (Group 2 (Star any)))).

Definition matches (s : string) (r : regex) : bool := bool_decide (is_Some (regex_match s r)).

(** ** The functions *)

(** [Some] when it returns [true]: whether the path is relative *)
Definition URLIsURI (URL_in : string) : outcome (option bool) :=
  ace_assert (negb (bool_decide (URL_in = "")));;
  Ok (if matches URL_in HTTP_ABSOLUTE_URI_REGEX_STRING then Some false
      else if matches URL_in HTTP_RELATIVE_URI_REGEX_STRING then Some true
      else None).

Definition URLRequiresSSL (URL_in : string) : bool :=
  match regex_match URL_in requires_ssl_regex with
  | None => false
  | Some c => bool_decide (is_Some (group 1 c))
  end.

Definition stripURI (URI_in : string) : outcome string :=
  match regex_match URI_in strip_regex with
  | None => Ok ""
  | Some c => match group 1 c with None => Abort | Some p => Ok p end
  end.

Definition HTTP_DEFAULT_SERVER_PORT : Z := 80.
Definition HTTPS_DEFAULT_SERVER_PORT : Z := 443.

Section ParseURL.
(** [ACE_INET_Addr::set] of a port and a host (which it resolves), or of any address, for an
    address: the address behind it, and whether it worked *)
Context {A : Type} (set : Z → string → A → A * bool) (set_any : Z → A → A * bool).

(** the arguments that are written, and the result *)
Record parsed := MkParsed {
  address_out : A; hostName_out : string; URI_out : string; useSSL_out : bool; result : bool
}.

(** the host without the port, the host with it, and the port *)
Definition split_host (match_string : string) : outcome (option (string * string * Z)) :=
  if decide (match_string = "") then Ok (Some ("", "", 0))
  else
    match regex_match match_string host_port_regex with
    | None => Ok None
    | Some c =>
        match group 1 c with
        | None => Abort
        | Some host =>
            Ok (Some (match group 2 c with
                      | Some p => (host, host +:+ ":" +:+ p, read_unsigned 16 0 p)
                      | None => (host, host, 0)
                      end))
        end
    end.

Definition parseURL (URL_in : string) (address_in : A) : outcome parsed :=
  match regex_match URL_in HTTP_URL_REGEX_STRING with
  | None => Ok (MkParsed address_in "" "" false false)
  | Some c =>
      let ssl := negb (bool_decide
        (default "" (group 2 c) +:+ default "" (group 3 c) +:+ default "" (group 4 c) = "")) in
      match group 5 c with
      | None => Abort
      | Some h =>
          host ← split_host h;
          match host with
          | None => Ok (MkParsed address_in "" "" ssl false)
          | Some (name, hostName, port) =>
              match group 6 c with
              | None => Abort
              | Some p =>
                  let URI := if decide (p = "") then "/" else p in
                  if negb (matches URI HTTP_ABSOLUTE_URI_REGEX_STRING)
                  then Ok (MkParsed address_in hostName URI ssl false)
                  else
                    let port := if negb (port =? 0) then port
                                else if ssl then HTTPS_DEFAULT_SERVER_PORT
                                else HTTP_DEFAULT_SERVER_PORT in
                    let '(a, ok) := if decide (name = "") then set_any port address_in
                                    else set port name address_in in
                    Ok (MkParsed a hostName URI ssl ok)
              end
          end
      end
  end.
End ParseURL.
Arguments parsed : clear implicits.

(** ** URIs *)

(** no slash follows a slash *)
Fixpoint no_double_slash (s : string) : bool :=
  match s with
  | String c s' =>
      negb (Ascii.eqb c "/" && match s' with String d _ => Ascii.eqb d "/" | "" => false end) &&
      no_double_slash s'
  | "" => true
  end.
Definition begins_with_slash (s : string) : bool :=
  match s with String c _ => Ascii.eqb c "/" | "" => false end.

(** what the repeated parts match *)
Inductive segs : string → Prop :=
  | segs_nil : segs ""
  | segs_cons p t : p ≠ "" → string_all not_slash p = true → segs t → segs (p +:+ "/" +:+ t).

Lemma derives_segments s c s' c' :
  derives segments s c s' c' ↔ c' = c ∧ ∃ t, segs t ∧ s = t +:+ s'.
Proof.
  split.
  - intros (n & _ & _ & Hi). revert s c Hi. induction n as [|n IH]; intros s c Hi.
    + destruct Hi as [-> ->]. split; [done|]. exists "". split; [constructor|done].
    + destruct Hi as (s1 & c1 & (s2 & c2 & Hr & Hl) & Hi).
      apply derives_run in Hr as (p & -> & Hp & Hlen & _ & ->).
      destruct Hl as (x & -> & Hx & ->). apply Ascii.eqb_eq in Hx as <-.
      destruct (IH _ _ Hi) as (-> & t & Ht & ->). split; [done|].
      exists (p +:+ "/" +:+ t). split; [constructor; [|done..]; by destruct p; cbn in Hlen; [lia|]|].
      by rewrite !string_app_assoc.
  - intros (-> & t & Ht & ->). induction Ht as [|p t Hne Hp _ (n & Hlo & Hhi & Hi)].
    + exists 0%nat. split_and!; [lia|done|done].
    + exists (S n). split_and!; [lia|done|]. exists (t +:+ s'), c. split; [|done].
      exists (String "/" (t +:+ s')), c. split; [|by exists "/"%char].
      exists (String.length p). split_and!; [destruct p; [done|cbn; lia]|done|].
      rewrite !string_app_assoc. autorewrite with str.
      clear Hne. induction p as [|x p IH]; [done|]. cbn in Hp. apply andb_true_iff in Hp as [Hx Hp].
      autorewrite with str. exists (p +:+ String "/" (t +:+ s')), c.
      split; [by exists x|by apply IH].
Qed.
Lemma derives_last s c s' c' :
  derives last_segment s c s' c' → c' = c ∧ ∃ u, s = u +:+ s' ∧ string_all not_slash u = true.
Proof.
  intros [[-> ->]|Hd]%derives_optional; [split; [done|]; by exists ""|].
  apply derives_run in Hd as (u & -> & Hu & _ & _ & ->). split; [done|]. by exists u.
Qed.
Lemma derives_star f u s c : string_all f u = true → derives (Star (Class f)) (u +:+ s) c s c.
Proof.
  intros Hu. exists (String.length u). split_and!; [lia|done|].
  induction u as [|x u IH]; [done|]. cbn in Hu. apply andb_true_iff in Hu as [Hx Hu].
  autorewrite with str. exists (u +:+ s), c. split; [by exists x|by apply IH].
Qed.
Lemma last_derives u c : string_all not_slash u = true → derives last_segment u c "" c.
Proof.
  intros Hu. exists 1%nat. split_and!; [lia|by intros m [= <-]|].
  exists "", c. split; [|done]. rewrite <- (string_app_nil_r u). by apply derives_star.
Qed.

Lemma no_double_slash_app p s :
  string_all not_slash p = true → no_double_slash (p +:+ s) = no_double_slash s.
Proof.
  induction p as [|x p IH]; [done|]. cbn. intros [Hx%negb_true_iff Hp]%andb_true_iff.
  autorewrite with str. cbn [no_double_slash]. by rewrite Hx, IH.
Qed.
Lemma begins_app p s : p ≠ "" → string_all not_slash p = true → begins_with_slash (p +:+ s) = false.
Proof.
  destruct p as [|x p]; [done|]. cbn. intros _ [Hx%negb_true_iff _]%andb_true_iff. by autorewrite with str.
Qed.

(** a text of parts: no double slash, and none in front *)
Lemma parts_iff s :
  (no_double_slash s = true ∧ begins_with_slash s = false) ↔
  ∃ t u, segs t ∧ string_all not_slash u = true ∧ s = t +:+ u.
Proof.
  split.
  - remember (String.length s) as n eqn:Hn. revert s Hn.
    induction (lt_wf n) as [n _ IH]; intros s -> [Hd Hb].
    assert (∃ p r, s = p +:+ r ∧ string_all not_slash p = true ∧
              (r = "" ∨ ∃ r', r = String "/" r')) as (p & r & -> & Hp & Hr).
    { clear. induction s as [|x s (p & r & -> & Hp & Hr)]; [exists "", ""; naive_solver|].
      destruct (Ascii.eqb x "/") eqn:Hx.
      - apply Ascii.eqb_eq in Hx as ->. exists "", (String "/" (p +:+ r)).
        split_and!; [done..|right; by eexists].
      - exists (String x p), r. cbn. unfold not_slash at 1. rewrite Hx. by autorewrite with str. }
    destruct Hr as [->|[r' ->]].
    + exists "", p. split_and!; [constructor|done|by rewrite string_app_nil_r].
    + rewrite no_double_slash_app in Hd by done. cbn [no_double_slash] in Hd.
      apply andb_true_iff in Hd as [Hr' Hd].
      destruct (IH (String.length r')) with (s := r') as (t & u & Ht & Hu & ->); [|done|..].
      * rewrite string_length_app. cbn. lia.
      * split; [done|]. unfold begins_with_slash. by apply negb_true_iff in Hr'.
      * exists (p +:+ "/" +:+ t), u. split_and!; [|done|by rewrite !string_app_assoc].
        constructor; [|done..]. intros ->. done.
  - intros (t & u & Ht & Hu & ->). induction Ht as [|p t Hne Hp _ [IHd IHb]].
    + rewrite append_nil. split.
      * rewrite <- (string_app_nil_r u). by rewrite no_double_slash_app.
      * destruct u as [|x u]; [done|]. cbn in *. by apply andb_true_iff in Hu as [Hx%negb_true_iff _].
    + rewrite !string_app_assoc, no_double_slash_app, begins_app by done. split; [|done].
      autorewrite with str. cbn [no_double_slash]. rewrite IHd, andb_true_r.
      unfold begins_with_slash in IHb. by rewrite IHb.
Qed.
Lemma derives_lit x s c s' c' : derives (Lit x) s c s' c' ↔ s = String x s' ∧ c' = c.
Proof.
  split; [intros (y & -> & ->%Ascii.eqb_eq & ->); done|].
  intros [-> ->]. exists x. by rewrite Ascii.eqb_refl.
Qed.
Lemma derives_tail t u c :
  segs t → string_all not_slash u = true → derives (Seq segments last_segment) (t +:+ u) c "" c.
Proof.
  intros Ht Hu. exists u, c. split; [apply derives_segments|by apply last_derives].
  split; [done|]. by exists t.
Qed.
Lemma tail_derives s c s' c' :
  derives (Seq segments last_segment) s c s' c' → s' = "" →
  c' = c ∧ no_double_slash s = true ∧ begins_with_slash s = false.
Proof.
  intros (s1 & c1 & Ht & Hu) ->. apply derives_segments in Ht as (-> & t & Ht & ->).
  apply derives_last in Hu as (-> & u & -> & Hu). split; [done|]. apply parts_iff.
  exists t, u. by rewrite string_app_nil_r.
Qed.

Lemma matches_iff s r b : (b = true ↔ ∃ c, derives r s [] "" c) → matches s r = b.
Proof.
  intros Hb. apply Bool.eq_iff_eq_true. unfold matches.
  by rewrite bool_decide_eq_true, regex_match_iff.
Qed.
Lemma matches_absolute s :
  matches s HTTP_ABSOLUTE_URI_REGEX_STRING = begins_with_slash s && no_double_slash s.
Proof.
  apply matches_iff. rewrite andb_true_iff. split.
  - intros [Hb Hd]. destruct s as [|x s]; [done|]. apply Ascii.eqb_eq in Hb as ->.
    cbn [no_double_slash] in Hd. apply andb_true_iff in Hd as [Hs%negb_true_iff Hd].
    destruct (proj1 (parts_iff s)) as (t & u & Ht & Hu & ->); [by split|].
    exists [], (t +:+ u), []. split; [by apply derives_lit|by apply derives_tail].
  - intros (c & s1 & c1 & [-> ->]%derives_lit & Ht). apply tail_derives in Ht as (_ & Hd & Hb); [|done].
    split; [done|]. cbn [no_double_slash]. rewrite Hd, andb_true_r.
    unfold begins_with_slash in Hb. by rewrite Hb.
Qed.
Lemma matches_relative s :
  matches s HTTP_RELATIVE_URI_REGEX_STRING =
    negb (bool_decide (s = "")) && negb (begins_with_slash s) && no_double_slash s.
Proof.
  apply matches_iff. rewrite !andb_true_iff, !negb_true_iff, bool_decide_eq_false. split.
  - intros [[Hne Hb] Hd]. destruct (proj1 (parts_iff s)) as (t & u & Ht & Hu & ->); [by split|].
    assert (∀ p r, p ≠ "" → string_all not_slash p = true →
      derives (Plus (Class not_slash)) (p +:+ r) [] r []) as Hplus.
    { intros p r Hp Hall. destruct (derives_star not_slash p r [] Hall) as (n & _ & Hh & Hi).
      exists n. split_and!; [|done..]. destruct n; [|lia]. destruct Hi as [E _].
      destruct p; [done|]. apply (f_equal String.length) in E. rewrite string_length_app in E. cbn in E. lia. }
    inversion Ht as [|p t' Hp Hall Ht' Et]; subst t.
    + exists [], "", []. rewrite append_nil, <- (string_app_nil_r u). split; [by apply Hplus|].
      exists "", []. split; [exists 0%nat; split_and!; [lia|intros; lia|done..]|].
      by apply (derives_tail "" "").
    + exists [], ("/" +:+ t' +:+ u), []. rewrite string_app_assoc. split; [by apply Hplus|].
      exists (t' +:+ u), []. split; [|by apply derives_tail].
      exists 1%nat. split_and!; [lia|by intros m [= <-]|].
      exists (t' +:+ u), []. split; [by apply derives_lit|done].
  - intros (c & s1 & c1 & Hp & s2 & c2 & Ho & Ht).
    apply derives_run in Hp as (p & -> & Hall & Hlen & _ & ->).
    assert (p ≠ "") as Hne by (by intros ->; cbn in Hlen; lia).
    apply tail_derives in Ht as (_ & Hd & Hb); [|done].
    rewrite begins_app, no_double_slash_app by done.
    split; [split; [by destruct p|done]|].
    apply derives_optional in Ho as [[<- _]|[-> _]%derives_lit]; [done|].
    cbn [no_double_slash]. rewrite Hd, andb_true_r. unfold begins_with_slash in Hb. by rewrite Hb.
Qed.

(** HTTP_Tools::URLIsURI: a string is a URI exactly when no slash follows a slash in it
    (so that a URL with a protocol is none), and a relative one exactly when it does not begin
    with a slash; an empty string aborts *)
Theorem URLIsURI_iff s :
  URLIsURI s =
    if decide (s = "") then Abort
    else Ok (if no_double_slash s then Some (negb (begins_with_slash s)) else None).
Proof.
  unfold URLIsURI. rewrite matches_absolute, matches_relative.
  destruct (decide (s = "")) as [->|Hs]; [done|]. rewrite bool_decide_eq_false_2 by done.
  cbn [negb ace_assert mbind outcome_bind andb].
  by destruct (begins_with_slash s), (no_double_slash s).
Qed.

(** ** The path without the parameters *)
Fixpoint has_slash (s : string) : bool :=
  match s with "" => false | String c s' => Ascii.eqb c "/" || has_slash s' end.
(** a slash follows every question mark *)
Fixpoint followed (s : string) : bool :=
  match s with
  | "" => true
  | String c s' => (not_question c || has_slash s') && followed s'
  end.

Lemma has_slash_app s t : has_slash (s +:+ t) = has_slash s || has_slash t.
Proof. induction s as [|c s IH]; [done|]. autorewrite with str. cbn. by rewrite IH, orb_assoc. Qed.
Lemma followed_question b : string_all not_question b = true → followed b = true.
Proof.
  induction b as [|c b IH]; [done|]. cbn. intros [-> Hb]%andb_true_iff. by rewrite IH.
Qed.
Lemma followed_slash p r : followed r = true → followed (p +:+ "/" +:+ r) = true.
Proof.
  intros Hr. induction p as [|c p IH]; autorewrite with str in *; cbn [followed]; [by rewrite Hr|].
  rewrite has_slash_app. cbn [has_slash]. by rewrite Ascii.eqb_refl, orb_true_r, orb_true_r, IH.
Qed.
Lemma followed_segs t b : segs t → string_all not_question b = true → followed (t +:+ b) = true.
Proof.
  intros Ht Hb. induction Ht as [|p t _ _ _ IH]; [by apply followed_question|].
  rewrite !string_app_assoc. by apply followed_slash.
Qed.

Lemma strip_derives s c :
  derives strip_regex s [] "" c →
  ∃ g r, group 1 c = Some g ∧ s = g +:+ r ∧ followed g = true ∧ (r = "" ∨ ∃ q, r = String "?" q).
Proof.
  intros (s1 & c1 & (g & c2 & Hg & -> & ->) & Ho).
  destruct Hg as (s2 & c3 & [Eg ->]%derives_lit & s3 & c4 & Ht & Hb).
  apply derives_segments in Ht as (-> & t & Ht & ->).
  apply derives_run in Hb as (b & -> & Hb & _ & _ & ->).
  assert (g = "/" +:+ t +:+ b) as ->.
  { assert (g +:+ s1 = ("/" +:+ t +:+ b) +:+ s1) as E by (rewrite Eg; by rewrite !string_app_assoc).
    revert E. generalize ("/" +:+ t +:+ b). clear. intros u E.
    revert g E. induction u as [|x u IH]; intros [|y g] E; autorewrite with str in E.
    - done.
    - apply (f_equal String.length) in E. cbn in E. rewrite string_length_app in E. lia.
    - apply (f_equal String.length) in E. cbn in E. rewrite string_length_app in E. lia.
    - injection E as -> E. by rewrite (IH g E). }
  exists ("/" +:+ t +:+ b), s1.
  assert (followed ("/" +:+ t +:+ b) = true) as Hf
    by (apply (followed_slash ""); by apply followed_segs).
  apply derives_optional in Ho as [[<- ->]|(s4 & c5 & [-> ->]%derives_lit & q & c6 & Hq & -> & ->)].
  - split_and!; [done|by rewrite string_app_nil_r|done|by left].
  - apply derives_run in Hq as (q' & _ & _ & _ & _ & ->).
    split_and!; [done..|]. right. by eexists.
Qed.

Lemma strip_unique p q g r :
  string_all not_question p = true → has_slash q = false → followed g = true →
  (r = "" ∨ ∃ q', r = String "?" q') →
  p +:+ String "?" q = g +:+ r → g = p.
Proof.
  intros Hp Hq Hg Hr. revert g Hg. induction p as [|c p IH]; intros [|d g] Hg E;
    autorewrite with str in E; [done| | |].
  - injection E as <- ->. cbn in Hg. rewrite has_slash_app in Hq.
    apply orb_false_iff in Hq as [Hq _]. by rewrite Hq in Hg.
  - cbn in Hp. destruct Hr as [->|[q' ->]]; [done|]. by injection E as -> _.
  - injection E as <- E. cbn in Hp, Hg. apply andb_true_iff in Hp as [_ Hp].
    apply andb_true_iff in Hg as [_ Hg]. by rewrite (IH Hp g Hg E).
Qed.
Lemma strip_whole p g r :
  string_all not_question p = true → (r = "" ∨ ∃ q', r = String "?" q') → p = g +:+ r → g = p.
Proof.
  intros Hp [->|[q ->]] ->; [by rewrite string_app_nil_r|].
  rewrite string_all_app in Hp. apply andb_true_iff in Hp as [_ Hp]. done.
Qed.

Lemma strip_matches p q :
  begins_with_slash p = true → string_all not_question p = true →
  (q = "" ∨ ∃ q', q = String "?" q' ∧ string_all (λ c, negb (Ascii.eqb c newline || Ascii.eqb c "013")) q' = true) →
  is_Some (regex_match (p +:+ q) strip_regex).
Proof.
  intros Hb Hp Hq. apply regex_match_iff. destruct p as [|c p]; [done|].
  apply Ascii.eqb_eq in Hb as ->. cbn in Hp.
  assert (∀ r, derives (Group 1 (Seqs [slash; segments; Star (Class not_question)]))
            (String "/" p +:+ r) [] r [(1%nat, String "/" p)]) as Hg.
  { intros r. exists (String "/" p), []. split; [|done]. exists (p +:+ r), [].
    split; [autorewrite with str; by apply derives_lit|]. exists (p +:+ r), [].
    split; [|by apply derives_star]. apply derives_segments. split; [done|]. exists "".
    split; [constructor|done]. }
  destruct Hq as [->|(q' & -> & Hq)]; eexists; eexists _, _; (split; [apply Hg|]).
  - exists 0%nat. split_and!; [lia|intros; lia|done..].
  - exists 1%nat. split_and!; [lia|by intros m [= <-]|]. eexists _, _. split; [|done].
    eexists _, _. split; [by apply derives_lit|]. exists q'. eexists. split_and!; [| |done].
    + rewrite <- (string_app_nil_r q') at 1. by apply derives_star.
    + by rewrite string_app_nil_r.
Qed.

(** HTTP_Tools::stripURI: of a path without a question mark and its parameters, the path is
    left, if there is no slash in the parameters *)
Theorem stripURI_path p q :
  begins_with_slash p = true → string_all not_question p = true → has_slash q = false →
  string_all (λ c, negb (Ascii.eqb c newline || Ascii.eqb c "013")) q = true →
  stripURI p = Ok p ∧ stripURI (p +:+ "?" +:+ q) = Ok p.
Proof.
  intros Hb Hp Hs Hq. autorewrite with str. unfold stripURI. split.
  - destruct (strip_matches p "") as [c Hc]; [done|done|by left|]. rewrite string_app_nil_r in Hc.
    rewrite Hc. apply regex_match_derives, strip_derives in Hc as (g & r & -> & E & Hf & Hr).
    by rewrite (strip_whole p g r).
  - destruct (strip_matches p (String "?" q)) as [c Hc]; [done|done|right; by exists q|].
    rewrite Hc. apply regex_match_derives, strip_derives in Hc as (g & r & -> & E & Hf & Hr).
    by rewrite (strip_unique p q g r).
Qed.

(** ** The parts of a URL *)
Lemma consumed_cons y u : consumed (String y u) u = String y "".
Proof. exact (consumed_app (String y "") u). Qed.
Lemma shorter_cons y u : (String.length u <? String.length (String y u))%nat = true.
Proof. by apply (shorter (String y "") u). Qed.

(** the protocols, and the groups of their [s] *)
Definition protocols : list (string * captures) :=
  [("http", []); ("https", [(2%nat, "s")]); ("ftp", []); ("sftp", [(3%nat, "s")]);
   ("ws", []); ("wss", [(4%nat, "s")])].

Lemma match_scheme sch g u k x :
  (sch, g) ∈ protocols → k (String ":" u) g = Some x →
  match_regex url_scheme (sch +:+ String ":" u) [] k = Some x.
Proof.
  intros Hin Hk. unfold protocols in Hin.
  repeat (apply elem_of_cons in Hin as [[= -> ->]|Hin]); [..|by apply elem_of_nil in Hin];
    autorewrite with str; cbn -[consumed String.length Nat.ltb];
    rewrite ?shorter_cons, ?consumed_cons; by rewrite Hk.
Qed.

Lemma match_group i r s c k :
  match_regex (Group i r) s c k = match_regex r s c (λ s' c', k s' ((i, consumed s s') :: c')).
Proof. done. Qed.
Lemma match_lits t u c k : match_regex (Lits t) (t +:+ u) c k = k u c.
Proof.
  revert u c k. induction t as [|y t IH]; intros u c k; autorewrite with str; [done|].
  cbn [Lits]. rewrite match_seq, match_lit. apply IH.
Qed.

Definition no_line_break (c : ascii) : bool := negb (Ascii.eqb c newline || Ascii.eqb c "013").

(** what the expression finds behind the protocol *)
Lemma match_host_path h p c :
  string_all not_slash h = true → (p = "" ∨ begins_with_slash p = true) →
  string_all no_line_break p = true →
  match_regex (Seq (Group 5 (Star (Class not_slash))) (Group 6 (Star any))) (h +:+ p) c
    (λ s' c', match s' with "" => Some c' | _ => None end) =
  Some ((6%nat, p) :: (5%nat, h) :: c).
Proof.
  intros Hh Hp Hl. rewrite match_seq. apply match_group_run; [done|lia|done| |].
  - destruct Hp as [->|Hp]; [done|]. destruct p as [|x p]; [done|]. cbn in *.
    unfold not_slash. by rewrite Hp.
  - rewrite <- (string_app_nil_r p) at 1. by apply match_group_run; [|lia|..].
Qed.

Lemma match_parts sch g h p :
  (sch, g) ∈ protocols → string_all not_slash h = true → (p = "" ∨ begins_with_slash p = true) →
  string_all no_line_break p = true →
  regex_match (sch +:+ "://" +:+ h +:+ p) HTTP_URL_REGEX_STRING =
    Some ((6%nat, p) :: (5%nat, h) :: (1%nat, sch) :: g).
Proof.
  intros Hin Hh Hp Hl. unfold regex_match, HTTP_URL_REGEX_STRING. cbn [Seqs]. rewrite match_seq.
  pose proof (match_host_path h p ((1%nat, sch) :: g) Hh Hp Hl) as Hk. revert Hk.
  generalize (h +:+ p) as u. intros u Hk.
  rewrite <- (string_app_assoc sch). apply match_optional.
  rewrite match_seq, match_group, string_app_assoc.
  change ("://" +:+ u) with (String ":" ("//" +:+ u)) at 1.
  apply (match_scheme _ g); [done|].
  change (String ":" ("//" +:+ u)) with ("://" +:+ u).
  rewrite match_lits, consumed_app, <- (string_app_assoc sch), shorter; [done|by destruct sch].
Qed.

(** the host without a port, and with one *)
Lemma split_host_name h :
  h ≠ "" → string_all host_name_char h = true → split_host h = Ok (Some (h, h, 0)).
Proof.
  intros Hne Hh. unfold split_host. rewrite decide_False by done.
  assert (regex_match h host_port_regex = Some [(1%nat, h)]) as ->; [|done].
  unfold regex_match, host_port_regex. rewrite match_seq, <- (string_app_nil_r h) at 1.
  apply match_group_run; [done|destruct h; [done|cbn; lia]|done|done|].
  by rewrite match_optional_none.
Qed.
Lemma split_host_port h n :
  h ≠ "" → string_all host_name_char h = true → 0 <= n < 2 ^ 16 →
  split_host (h +:+ ":" +:+ pretty n) = Ok (Some (h, h +:+ ":" +:+ pretty n, n)).
Proof.
  intros Hne Hh Hn. unfold split_host. rewrite decide_False by (by destruct h).
  assert (regex_match (h +:+ ":" +:+ pretty n) host_port_regex =
          Some [(2%nat, pretty n); (1%nat, h)]) as ->.
  { unfold regex_match, host_port_regex. rewrite match_seq.
    apply match_group_run; [done|destruct h; [done|cbn; lia]|done|done|].
    apply match_optional. autorewrite with str. rewrite match_seq, match_lit.
    rewrite <- (string_app_nil_r (pretty n)) at 1. destruct (pretty_digits n) as (Hd & _ & Hne'); [lia|].
    apply match_group_run; [done|by destruct (pretty n); [|cbn; lia]| |done|done].
    intros m [= <-]. apply pretty_length; lia. }
  cbn [group Nat.eqb]. by rewrite read_unsigned_pretty.
Qed.

Lemma host_name_not_slash h : string_all host_name_char h = true → string_all not_slash h = true.
Proof.
  induction h as [|x h IH]; [done|]. cbn. intros [Hx Hh]%andb_true_iff. rewrite IH, andb_true_r by done.
  unfold not_slash. destruct (Ascii.eqb x "/") eqn:E; [|done]. by apply Ascii.eqb_eq in E as ->.
Qed.
Lemma digits_not_slash s : all_digits s = true → string_all not_slash s = true.
Proof.
  unfold all_digits. induction s as [|x s IH]; [done|]. cbn. intros [Hx Hs]%andb_true_iff.
  rewrite IH, andb_true_r by done. unfold not_slash.
  destruct (Ascii.eqb x "/") eqn:E; [|done]. by apply Ascii.eqb_eq in E as ->.
Qed.

(** the host as it is written, and the port that is used: the code knows the ports of HTTP
    only, whatever the protocol is *)
Definition host_text (h : string) (port : option Z) : string :=
  match port with Some n => h +:+ ":" +:+ pretty n | None => h end.
Definition used_port (ssl : bool) (port : option Z) : Z :=
  let n := default 0 port in if n =? 0 then (if ssl then 443 else 80) else n.
(** the port that a protocol has by itself *)
Definition scheme_port (sch : string) : Z :=
  if decide (sch = "ftp") then 21 else if decide (sch = "sftp") then 22
  else if decide (sch ∈ ["https"; "wss"]) then 443 else 80.
Definition secure (sch : string) : bool := bool_decide (sch ∈ ["https"; "sftp"; "wss"]).

Lemma host_text_not_slash h port :
  string_all host_name_char h = true → (∀ n, port = Some n → 0 <= n) →
  string_all not_slash (host_text h port) = true.
Proof.
  intros Hh Hn. destruct port as [n|]; cbn [host_text]; [|by apply host_name_not_slash].
  rewrite !string_all_app, host_name_not_slash by done. cbn. apply digits_not_slash.
  by apply pretty_digits, Hn.
Qed.
Lemma split_host_text h port :
  h ≠ "" → string_all host_name_char h = true → (∀ n, port = Some n → 0 <= n < 2 ^ 16) →
  split_host (host_text h port) = Ok (Some (h, host_text h port, default 0 port)).
Proof.
  intros Hne Hh Hn. destruct port as [n|]; [by apply split_host_port, Hn|by apply split_host_name].
Qed.

Section URL.
Context {A : Type} (set : Z → string → A → A * bool) (set_any : Z → A → A * bool) (a : A).
Context (sch h : string) (g : captures) (port : option Z).
Context (Hsch : (sch, g) ∈ protocols) (Hne : h ≠ "") (Hh : string_all host_name_char h = true).
Context (Hport : ∀ n, port = Some n → 0 <= n < 2 ^ 16).

Lemma parseURL_split p :
  (p = "" ∨ begins_with_slash p = true) → string_all no_line_break p = true →
  parseURL set set_any (sch +:+ "://" +:+ host_text h port +:+ p) a =
    let URI := if decide (p = "") then "/" else p in
    Ok (if no_double_slash p
        then let '(a', ok) := set (used_port (secure sch) port) h a in
             MkParsed a' (host_text h port) URI (secure sch) ok
        else MkParsed a (host_text h port) URI (secure sch) false).
Proof using All.
  intros Hp Hl. unfold parseURL.
  assert (string_all not_slash (host_text h port) = true) as Hs
    by (apply host_text_not_slash; [done|]; intros n Hn; by apply Hport).
  rewrite (match_parts sch g) by done. cbn [group Nat.eqb].
  assert (negb (bool_decide (default "" (group 2 g) +:+ default "" (group 3 g) +:+
            default "" (group 4 g) = "")) = secure sch) as ->.
  { revert Hsch. unfold protocols. clear. intros Hin.
    by repeat (apply elem_of_cons in Hin as [[= -> ->]|Hin]); [..|by apply elem_of_nil in Hin]. }
  rewrite split_host_text by done. cbn [mbind outcome_bind]. rewrite matches_absolute.
  assert (begins_with_slash (if decide (p = "") then "/" else p) = true ∧
          no_double_slash (if decide (p = "") then "/" else p) = no_double_slash p) as [-> ->]
    by (destruct (decide (p = "")) as [->|]; [done|]; split; [by destruct Hp|done]).
  cbn [andb]. destruct (no_double_slash p); [|done]. cbn [negb]. rewrite decide_False by done.
  assert ((if negb (default 0 port =? 0) then default 0 port
           else if secure sch then HTTPS_DEFAULT_SERVER_PORT else HTTP_DEFAULT_SERVER_PORT) =
          used_port (secure sch) port) as -> by (unfold used_port; by destruct (_ =? 0)).
  by destruct (set _ _ _).
Qed.
End URL.

(** ** The protocol of a URL *)
Lemma line_match r c :
  string_all no_line_break r = true →
  ∃ c', match_regex (Optional (Group 2 (Plus any))) r c
          (λ s' c', match s' with "" => Some c' | _ => None end) = Some c' ∧ group 1 c' = group 1 c.
Proof.
  intros Hr. destruct r as [|x r]; [by exists c|]. exists ((2%nat, String x r) :: c). split; [|done].
  rewrite <- (string_app_nil_r (String x r)) at 1. apply match_optional.
  apply match_group_run; [done|cbn; lia|done|done|]. by rewrite shorter.
Qed.
Lemma requires_ssl_derives s c :
  derives requires_ssl_regex s [] "" c → is_Some (group 1 c) →
  ∃ r, s = "https://" +:+ r ∧ string_all no_line_break r = true.
Proof.
  intros (s1 & c1 & Hp & Hr) Hc.
  assert (string_all no_line_break s1 = true ∧ group 1 c = group 1 c1) as [Hs Hg].
  { apply derives_optional in Hr as [[<- ->]|(u & c2 & Hr & -> & ->)]; [done|].
    apply derives_run in Hr as (v & E & Hv & _ & _ & ->). rewrite E, string_app_nil_r. done. }
  rewrite Hg in Hc. exists s1. split; [|done].
  apply derives_optional in Hp as [[-> ->]|Hp]; [by destruct Hc|].
  destruct Hp as (s2 & c2 & Hh & s3 & c3 & Ho & Ht).
  assert (∀ t s c s' c', derives (Lits t) s c s' c' → s = t +:+ s' ∧ c' = c) as Hlits.
  { clear. induction t as [|x t IH]; intros s c s' c'; [by intros [-> ->]|].
    intros (s1 & c1 & [-> ->]%derives_lit & [-> ->]%IH). by autorewrite with str. }
  apply Hlits in Hh as [-> ->]. apply Hlits in Ht as [-> ->].
  apply derives_optional in Ho as [[<- ->]|(u & c4 & [-> ->]%derives_lit & _)]; [by destruct Hc|].
  by autorewrite with str.
Qed.

(** HTTP_Tools::URLRequiresSSL: it is exactly the URLs that begin with https:// and have no
    line break behind that require SSL *)
Theorem URLRequiresSSL_iff s :
  URLRequiresSSL s = true ↔ ∃ r, s = "https://" +:+ r ∧ string_all no_line_break r = true.
Proof.
  unfold URLRequiresSSL. split.
  - destruct (regex_match s requires_ssl_regex) as [c|] eqn:E; [|done].
    rewrite bool_decide_eq_true. by apply requires_ssl_derives, regex_match_derives.
  - intros (r & -> & Hr). destruct (line_match r [(1%nat, "s")] Hr) as (c & Hc & Hg).
    assert (regex_match ("https://" +:+ r) requires_ssl_regex = Some c) as ->.
    { unfold regex_match, requires_ssl_regex. cbn [Seqs]. rewrite match_seq. apply match_optional.
      rewrite match_seq. change ("https://" +:+ r) with ("http" +:+ ("s" +:+ "://" +:+ r)) at 1.
      rewrite match_lits, match_seq. apply (match_optional _ "s"). rewrite match_group.
      change ("s" +:+ ?u) with (String "s" u) at 1. rewrite match_lit.
      rewrite (shorter "s"), consumed_app, match_lits by done.
      by rewrite (shorter "https://"). }
    rewrite bool_decide_eq_true, Hg. done.
Qed.

(** C33: HTTP_Tools::parseURL: of a URL of one of its protocols (http, https, ftp, sftp, ws,
    wss), a host with or without a port, and an absolute path without a double slash (or none),
    the address is set from the host and the port.  If there is no port or it is 0, that is
    443 for https, sftp and wss and 80 for all the others, which is the port of the protocol
    except for ftp (21) and sftp (22): ftp_ports.  The host is as written, the path is the
    slash if there is none, and SSL is used for https, sftp and wss; the result is the one of
    the address *)
Theorem parseURL_parts {A} (set : Z → string → A → A * bool) set_any a sch h port p :
  sch ∈ protocols.*1 → h ≠ "" → string_all host_name_char h = true →
  (∀ n, port = Some n → 0 <= n < 2 ^ 16) →
  (p = "" ∨ begins_with_slash p = true) → no_double_slash p = true →
  string_all no_line_break p = true →
  parseURL set set_any (sch +:+ "://" +:+ host_text h port +:+ p) a =
    Ok (let '(a', ok) := set (used_port (secure sch) port) h a in
        MkParsed a' (host_text h port) (if decide (p = "") then "/" else p) (secure sch) ok) ∧
  (sch ∉ ["ftp"; "sftp"] →
   used_port (secure sch) port =
     if decide (default 0 port = 0) then scheme_port sch else default 0 port).
Proof.
  intros Hin Hne Hh Hport Hp Hd Hl. apply list_elem_of_fmap in Hin as ([? g] & -> & Hin).
  split; [erewrite (parseURL_split set set_any a _ h g) by done; by rewrite Hd|].
  intros Hn. unfold used_port. destruct (decide (default 0 port = 0)) as [->|Hp0].
  - unfold protocols in Hin. rewrite !elem_of_cons in Hin. cbn [fst] in *.
    destruct_or! Hin; simplify_eq; try (by vm_compute); [| |by apply elem_of_nil in Hin];
      exfalso; apply Hn; [by left|by right; left].
  - by rewrite (proj2 (Z.eqb_neq _ _)).
Qed.

(** an address that keeps the port and the host *)
Definition set_pair (port : Z) (host : string) (_ : Z * string) : (Z * string) * bool :=
  ((port, host), true).
Definition set_pair_any (port : Z) (_ : Z * string) : (Z * string) * bool := ((port, "0.0.0.0"), true).

(** The addresses of FTP and SFTP URLs without a port have those of HTTP and HTTPS. *)
Example ftp_ports :
  parseURL set_pair set_pair_any "ftp://a/b" (0, "") =
    Ok (MkParsed (80, "a") "a" "/b" false true) ∧ scheme_port "ftp" = 21 ∧
  parseURL set_pair set_pair_any "sftp://a/b" (0, "") =
    Ok (MkParsed (443, "a") "a" "/b" true true) ∧ scheme_port "sftp" = 22.
Proof. by vm_compute. Qed.

(** HTTP_Tools::parseURL: it refuses a URL with a slash behind a slash anywhere behind the
    host, in the parameters too, and leaves the address alone; the host and the path are
    written all the same *)
Theorem parseURL_double_slash {A} (set : Z → string → A → A * bool) set_any a sch h port p :
  sch ∈ protocols.*1 → h ≠ "" → string_all host_name_char h = true →
  (∀ n, port = Some n → 0 <= n < 2 ^ 16) →
  begins_with_slash p = true → no_double_slash p = false → string_all no_line_break p = true →
  parseURL set set_any (sch +:+ "://" +:+ host_text h port +:+ p) a =
    Ok (MkParsed a (host_text h port) p (secure sch) false).
Proof.
  intros Hin Hne Hh Hport Hp Hd Hl. apply list_elem_of_fmap in Hin as ([? g] & -> & Hin).
  erewrite (parseURL_split set set_any a _ h g) by (done || by right). rewrite Hd. by destruct p.
Qed.

(** ** Witnesses *)

Lemma parseURL_parts_witness :
  parseURL set_pair set_pair_any "wss://a-b.example:8443/c/d?e" (0, "") =
    Ok (MkParsed (8443, "a-b.example") "a-b.example:8443" "/c/d?e" true true) ∧
  ("wss" ∉ ["ftp"; "sftp"] →
   used_port (secure "wss") (Some 8443) =
     if decide (default 0 (Some 8443) = 0) then scheme_port "wss" else default 0 (Some 8443)).
Proof.
  refine (parseURL_parts set_pair set_pair_any (0, "") "wss" "a-b.example" (Some 8443) "/c/d?e"
            _ _ _ _ _ _ _);
    [do 5 right; left|done|done|intros n [= <-]; done|by right|done|done].
Defined.
Lemma parseURL_double_slash_witness :
  parseURL set_pair set_pair_any "http://a/b?c=http://d" (0, "") =
    Ok (MkParsed (0, "") "a" "/b?c=http://d" false false).
Proof.
  refine (parseURL_double_slash set_pair set_pair_any (0, "") "http" "a" None "/b?c=http://d"
            _ _ _ _ _ _ _); [left|done..].
Defined.
Lemma stripURI_path_witness : stripURI "/a/b" = Ok "/a/b" ∧ stripURI "/a/b?c=d" = Ok "/a/b".
Proof. refine (stripURI_path "/a/b" "c=d" _ _ _ _); by vm_compute. Defined.

Example url_none : parseURL set_pair set_pair_any "a" (0, "") =
  Ok (MkParsed (80, "a") "a" "/" false true).
Proof. by vm_compute. Qed.
Example url_user : parseURL set_pair set_pair_any "ftp://u@a/b" (0, "") =
  Ok (MkParsed (0, "") "" "" false false).
Proof. by vm_compute. Qed.
Example uri1 : URLIsURI "/a/b?c" = Ok (Some false). Proof. by vm_compute. Qed.
Example uri2 : URLIsURI "a/b/" = Ok (Some true). Proof. by vm_compute. Qed.
Example uri3 : URLIsURI "http://a/b" = Ok None. Proof. by vm_compute. Qed.
Example strip1 : stripURI "/a/b?c=d" = Ok "/a/b". Proof. by vm_compute. Qed.
Example strip2 : stripURI "/a?c=/b" = Ok "/a?c=/b". Proof. by vm_compute. Qed.
Example ssl1 : URLRequiresSSL "https://a" = true. Proof. by vm_compute. Qed.
Example ssl2 : URLRequiresSSL "wss://a" = false. Proof. by vm_compute. Qed.
