(* ===== verification/HttpStreamer.v ===== *)
(** * The messages of HTTP (protocol/http/http_module_streamer.inl)

    The streamer that writes a record as a request or a response, with the form of a request
    in the address or in the body; and a reader of messages and of forms (RFC 9112), which
    says what a peer makes of them. *)
From S2P Require Import Prelude MessageBlock Chars Decimal HttpTools.

Definition HTTP_PRT_VERSION_STRING_PREFIX : string := "HTTP/".
Definition HTTP_PRT_HEADER_CONTENT_LENGTH_STRING : string := "Content-Length".
Definition HTTP_PRT_HEADER_CONTENT_TYPE_STRING : string := "Content-Type".
Definition HTTP_PRT_MIMETYPE_APPLICATION_WWW_URLENCODED_STRING : string :=
  "application/x-www-form-urlencoded".

(** [buffer.erase (--buffer.end ())] *)
Fixpoint erase_last (s : string) : string :=
  match s with
  | "" | String _ "" => ""
  | String c s' => String c (erase_last s')
  end.

(** ** The forms *)
Definition get_pair (f : string * string) : string := f.1 +:+ "=" +:+ f.2 +:+ "&".
Definition post_pair (f : string * string) : string :=
  f.1 +:+ (if decide (f.2 = "") then "" else "=" +:+ f.2) +:+ "&".
Definition get_form (f : list (string * string)) : string :=
  if decide (f = []) then "" else "?" +:+ erase_last (concat (get_pair <$> f)).
Definition post_form (f : list (string * string)) : string :=
  if decide (f = []) then "" else erase_last (concat (post_pair <$> f)).

(** ** The first line *)
Definition version_text (r : HTTP_Record) : string :=
  HTTP_PRT_VERSION_STRING_PREFIX +:+ VersionToString (version r).
(** other methods are "invalid", and the line goes on without a version *)
Definition request_line (r : HTTP_Record) : string :=
  MethodToString (method r) +:+ " " +:+ URI r +:+
  match method r with
  | HTTP_METHOD_GET => get_form (form r) +:+ " " +:+ version_text r
  | HTTP_METHOD_POST => " " +:+ version_text r
  | _ => ""
  end.
Definition status_line (r : HTTP_Record) : string :=
  version_text r +:+ " " +:+ pretty (status r) +:+ " " +:+ StatusToReason (status r).
Definition start_line (r : HTTP_Record) : string :=
  if isRequest r then request_line r else status_line r.

(** the body *)
Definition content (r : HTTP_Record) : string :=
  match method r with HTTP_METHOD_POST => post_form (form r) | _ => "" end.

(** ** The header fields *)
Definition header_text (h : string * string) : string := h.1 +:+ ": " +:+ h.2 +:+ crlf.
(** the three loops *)
Definition sent_headers (is_request : bool) (hs : list (string * string)) :
    list (string * string) :=
  headers_of HTTP_HEADER_GENERAL hs ++
  headers_of (if is_request then HTTP_HEADER_REQUEST else HTTP_HEADER_RESPONSE) hs ++
  headers_of HTTP_HEADER_ENTITY hs.

Section Streamer.
(** The headers are a [std::unordered_map], whose keys are compared without case and hashed
    with it: which keys [find] takes for the same, and where [insert] puts a pair, is up to
    the library. *)
Variable same : string → string → bool.
Variable insert : list (string * string) → string * string → list (string * string).

Definition has_header (k : string) (hs : list (string * string)) : bool :=
  existsb (λ h, same h.1 k) hs.
Fixpoint fill_header (k v : string) (hs : list (string * string)) : list (string * string) :=
  match hs with
  | [] => []
  | h :: hs' =>
      if same h.1 k then (if decide (h.2 = "") then (h.1, v) else h) :: hs'
      else h :: fill_header k v hs'
  end.
Definition add_header (k v : string) (hs : list (string * string)) : list (string * string) :=
  if has_header k hs then fill_header k v hs else insert hs (k, v).

(** the headers of a POST with a form *)
Definition set_headers (hs : list (string * string)) (r : HTTP_Record) : HTTP_Record :=
  MkRecord (form r) hs (method r) (reason r) (status r) (URI r) (version r).
Definition add_headers (r : HTTP_Record) : HTTP_Record :=
  match method r with
  | HTTP_METHOD_POST =>
      if decide (form r = []) then r
      else
        set_headers
          (add_header HTTP_PRT_HEADER_CONTENT_TYPE_STRING
             HTTP_PRT_MIMETYPE_APPLICATION_WWW_URLENCODED_STRING
             (add_header HTTP_PRT_HEADER_CONTENT_LENGTH_STRING
                (pretty (zlen (string_bytes (content r)))) (headers r))) r
  | _ => r
  end.

Definition buffer (r : HTTP_Record) : string :=
  start_line r +:+ crlf +:+
  concat (header_text <$> sent_headers (isRequest r) (headers (add_headers r))) +:+ crlf.

Context {B : Type} `{WritableBlock B}.

(** the message is released when the data do not fit *)
Definition put (s : string) (b : B) : option B :=
  let d := string_bytes s in if mb_space b <? zlen d then None else mb_copy d b.
(** the message, if it is still there, and its record *)
Definition handleDataMessage (r : HTTP_Record) (message_inout : B) :
    outcome (option B * HTTP_Record) :=
  ace_assert (block_length message_inout =? 0);;
  let message :=
    b ← put (buffer r) message_inout;
    if decide (content r = "") then Some b else put (content r) b in
  Ok (message, add_headers r).
End Streamer.

(** ** A reader

    A line ends with CRLF; the start line, lines with a header field, and an empty one; the
    rest is the body. *)
Definition CR : ascii := "013".
Definition LF : ascii := "010".
Fixpoint read_line (s : string) : option (string * string) :=
  match s with
  | "" => None
  | String c s' =>
      match s' with
      | String d t =>
          if Ascii.eqb c CR && Ascii.eqb d LF then Some ("", t)
          else '(l, u) ← read_line s'; Some (String c l, u)
      | "" => None
      end
  end.
Fixpoint cut_at (x : ascii) (s : string) : option (string * string) :=
  match s with
  | "" => None
  | String c s' =>
      if Ascii.eqb c x then Some ("", s') else '(a, b) ← cut_at x s'; Some (String c a, b)
  end.
Definition is_blank (c : ascii) : bool := Ascii.eqb c " " || Ascii.eqb c "009".
Fixpoint skip_blanks (s : string) : string :=
  match s with String c s' => if is_blank c then skip_blanks s' else s | "" => "" end.
Definition read_header (l : string) : option (string * string) :=
  '(n, v) ← cut_at ":" l; Some (n, skip_blanks v).
Fixpoint read_headers (fuel : nat) (s : string) : option (list (string * string) * string) :=
  match fuel with
  | O => None
  | S fuel' =>
      '(l, t) ← read_line s;
      if decide (l = "") then Some ([], t)
      else h ← read_header l; '(hs, u) ← read_headers fuel' t; Some (h :: hs, u)
  end.
(** every line has two characters at least *)
Definition read_message (s : string) : option (string * list (string * string) * string) :=
  '(l, t) ← read_line s; '(hs, u) ← read_headers (String.length t) t; Some (l, hs, u).

(** pairs between ampersands *)
Definition read_pair (s : string) : string * string :=
  match cut_at "=" s with Some (k, v) => (k, v) | None => (s, "") end.
Fixpoint read_form (fuel : nat) (s : string) : list (string * string) :=
  match fuel with
  | O => []
  | S fuel' =>
      match cut_at "&" s with
      | Some (p, t) => read_pair p :: read_form fuel' t
      | None => [read_pair s]
      end
  end.

(** ** The lines *)
Definition no_char (x : ascii) : string → bool := string_all (λ c, negb (Ascii.eqb c x)).

Lemma read_line_app l t : no_char CR l = true → read_line (l +:+ crlf +:+ t) = Some (l, t).
Proof.
  induction l as [|c l IH]; intros Hl; [done|].
  cbn in Hl. apply andb_true_iff in Hl as [Hc%negb_true_iff Hl].
  autorewrite with str. specialize (IH Hl). cbn [read_line].
  destruct (l +:+ crlf +:+ t) as [|d u] eqn:E; [by destruct l|].
  rewrite Hc. cbn [andb]. rewrite IH. done.
Qed.
Lemma cut_at_app x a b : no_char x a = true → cut_at x (a +:+ String x b) = Some (a, b).
Proof.
  induction a as [|c a IH]; intros Ha; autorewrite with str; cbn [cut_at].
  - by rewrite Ascii.eqb_refl.
  - cbn in Ha. apply andb_true_iff in Ha as [->%negb_true_iff Ha]. by rewrite IH.
Qed.
Lemma cut_at_None x a : no_char x a = true → cut_at x a = None.
Proof.
  induction a as [|c a IH]; intros Ha; cbn in *; [done|].
  apply andb_true_iff in Ha as [->%negb_true_iff Ha]. by rewrite IH.
Qed.

(** a header field that is read as it is written *)
Definition header_ok (h : string * string) : bool :=
  negb (bool_decide (h.1 = "")) && no_char ":" h.1 && no_char CR h.1 && no_char CR h.2 &&
  match h.2 with String c _ => negb (is_blank c) | "" => true end.

Lemma read_header_text h :
  header_ok h = true →
  ∃ l, header_text h = l +:+ crlf ∧ no_char CR l = true ∧ l ≠ "" ∧ read_header l = Some h.
Proof.
  destruct h as [n v]. unfold header_ok. cbn [fst snd]. rewrite !andb_true_iff, negb_true_iff.
  intros [[[[Hne%bool_decide_eq_false Hc] Hn] Hv] Hb].
  exists (n +:+ ": " +:+ v). split_and!.
  - unfold header_text. cbn [fst snd]. by rewrite !string_app_assoc.
  - unfold no_char in *. rewrite !string_all_app, Hn, Hv. done.
  - by destruct n.
  - unfold read_header. autorewrite with str. rewrite cut_at_app by done.
    cbn [mbind option_bind]. repeat f_equal. cbn. destruct v as [|c v]; [done|].
    apply negb_true_iff in Hb. cbn [skip_blanks]. by rewrite Hb.
Qed.
Lemma read_headers_text hs t fuel :
  Forall (λ h, header_ok h = true) hs → (length hs < fuel)%nat →
  read_headers fuel (concat (header_text <$> hs) +:+ crlf +:+ t) = Some (hs, t).
Proof.
  intros Hok. revert fuel. induction Hok as [|h hs Hh _ IH]; intros fuel Hf;
    destruct fuel as [|fuel]; cbn [length] in Hf; try lia.
  - cbn [fmap list_fmap concat foldr read_headers].
    by rewrite (read_line_app "" t).
  - destruct (read_header_text h Hh) as (l & El & Hl & Hne & Er).
    change (concat (header_text <$> h :: hs))
      with (header_text h +:+ concat (header_text <$> hs)).
    rewrite El, !string_app_assoc. cbn [read_headers].
    rewrite read_line_app by done. cbn [mbind option_bind].
    rewrite decide_False by done. rewrite Er. cbn [mbind option_bind].
    rewrite IH by lia. done.
Qed.
Lemma headers_length hs :
  (length hs <= String.length (concat (header_text <$> hs)))%nat.
Proof.
  induction hs as [|h hs IH]; [cbn; lia|].
  change (concat (header_text <$> h :: hs)) with (header_text h +:+ concat (header_text <$> hs)).
  unfold header_text at 1. rewrite !string_length_app. cbn [length].
  change (String.length crlf) with 2%nat. lia.
Qed.
Lemma read_message_text l hs t :
  no_char CR l = true → Forall (λ h, header_ok h = true) hs →
  read_message (l +:+ crlf +:+ concat (header_text <$> hs) +:+ crlf +:+ t) = Some (l, hs, t).
Proof.
  intros Hl Hhs. unfold read_message. rewrite read_line_app by done. cbn [mbind option_bind].
  rewrite read_headers_text; [done|done|]. rewrite !string_length_app.
  pose proof (headers_length hs). change (String.length crlf) with 2%nat. lia.
Qed.

(** ** The message *)
Lemma sent_headers_all r hs :
  sent_headers (isRequest r) hs ++ headers_of (other_type r) hs ≡ₚ hs.
Proof.
  unfold sent_headers, other_type. etrans; [|apply headers_of_permutation].
  rewrite <- !(assoc_L (++)). apply Permutation_app_head.
  destruct (isRequest r).
  - apply Permutation_app_head, Permutation_app_comm.
  - rewrite (assoc_L (++)), (Permutation_app_comm _ (headers_of HTTP_HEADER_REQUEST _)).
    by rewrite (assoc_L (++)).
Qed.
Lemma sent_header_in r hs h :
  h ∈ hs → isHeaderType h.1 (other_type r) = false → h ∈ sent_headers (isRequest r) hs.
Proof.
  intros Hh Ht. rewrite <- (sent_headers_all r hs) in Hh.
  apply elem_of_app in Hh as [Hh|Hh]; [done|].
  apply list_elem_of_filter in Hh as [Hh _]. congruence.
Qed.

Section Theorems.
Variable same : string → string → bool.
Variable insert : list (string * string) → string * string → list (string * string).
Context {B : Type} `{WritableBlock B}.
Notation add_headers := (add_headers same insert).
Notation add_header := (add_header same insert).
Notation handleDataMessage := (handleDataMessage same insert).
Notation buffer := (buffer same insert).

(** the message is copied exactly when it fits *)
Lemma message_text r (b : B) :
  mb_bytes b = [] →
  let bs := string_bytes (buffer r +:+ content r) in
  if zlen bs <=? mb_space b
  then ∃ b', handleDataMessage r b = Ok (Some b', add_headers r) ∧ mb_bytes b' = bs
  else handleDataMessage r b = Ok (None, add_headers r).
Proof.
  intros Hb bs.
  assert (∀ s (c : B), if zlen (string_bytes s) <=? mb_space c
    then ∃ c', put s c = Some c' ∧ mb_bytes c' = mb_bytes c ++ string_bytes s ∧
               mb_space c' = mb_space c - zlen (string_bytes s)
    else put s c = None) as Hput.
  { intros s c. unfold put. destruct (_ <=? _) eqn:E; bool_lia.
    - rewrite (proj2 (Z.ltb_ge _ _)) by lia.
      destruct (proj2 (mb_copy_room (string_bytes s) c) E) as [c' Hc]. exists c'.
      split; [done|]. by apply mb_copy_bytes.
    - by rewrite (proj2 (Z.ltb_lt _ _)) by lia. }
  unfold handleDataMessage, HttpStreamer.handleDataMessage, block_length. rewrite Hb.
  cbn [ace_assert mbind outcome_bind zlen]. change (zlen [] =? 0) with true. cbn [ace_assert].
  pose proof (Hput (buffer r) b) as H1.
  pose proof (zlen_nonneg (string_bytes (content r))) as Hn.
  assert (bs = string_bytes (buffer r) ++ string_bytes (content r)) as Ebs by apply string_bytes_app.
  assert (zlen bs = zlen (string_bytes (buffer r)) + zlen (string_bytes (content r))) as El
    by (by rewrite Ebs, zlen_app).
  destruct (zlen (string_bytes (buffer r)) <=? mb_space b) eqn:E1; bool_lia.
  2: { rewrite (proj2 (Z.leb_gt _ _)) by lia. rewrite H1. done. }
  destruct H1 as (b1 & -> & Hb1 & Hs1). rewrite Hb in Hb1. cbn [mbind option_bind].
  destruct (decide (content r = "")) as [Ec|Ec].
  - rewrite Ec in *. change (zlen (string_bytes "")) with 0 in *.
    rewrite (proj2 (Z.leb_le _ _)) by lia. exists b1. split; [done|].
    by rewrite Hb1, Ebs, app_nil_r.
  - pose proof (Hput (content r) b1) as H2. rewrite Hs1 in H2.
    destruct (_ <=? mb_space b - _) eqn:E2; bool_lia.
    + rewrite (proj2 (Z.leb_le _ _)) by lia. destruct H2 as (b2 & -> & Hb2 & _).
      exists b2. split; [done|]. by rewrite Hb2, Hb1, Ebs.
    + rewrite (proj2 (Z.leb_gt _ _)) by lia. by rewrite H2.
Qed.

(** what fits is read back *)
Lemma message_text_read r (b : B) :
  no_char CR (start_line r) = true →
  Forall (λ h, header_ok h = true) (headers (add_headers r)) →
  mb_bytes b = [] → zlen (string_bytes (buffer r +:+ content r)) <= mb_space b →
  ∃ b', handleDataMessage r b = Ok (Some b', add_headers r) ∧
    read_message (bytes_string (mb_bytes b')) =
      Some (start_line r, sent_headers (isRequest r) (headers (add_headers r)), content r).
Proof.
  intros Hl Hhs Hb Hfit. pose proof (message_text r b Hb) as Ht. cbv zeta in Ht.
  rewrite (proj2 (Z.leb_le _ _) Hfit) in Ht. destruct Ht as (b' & E & Eb).
  exists b'. split; [done|].
  rewrite Eb, bytes_string_bytes. unfold buffer, HttpStreamer.buffer. rewrite !string_app_assoc.
  apply read_message_text; [done|]. apply Forall_forall. intros h Hh.
  rewrite Forall_forall in Hhs. apply Hhs. rewrite <- (sent_headers_all r). set_solver.
Qed.

(** C32: HTTP_Module_Streamer_T::handleDataMessage: a message that fits into the buffer is read
    as its start line, its header fields, all of them once (but for the response headers of a
    request, and the request headers of a response), and its body, when the line and the
    fields have no line breaks *)
Theorem message_read r (b : B) :
  no_char CR (start_line r) = true →
  Forall (λ h, header_ok h = true) (headers (add_headers r)) →
  mb_bytes b = [] → zlen (string_bytes (buffer r +:+ content r)) <= mb_space b →
  ∃ b' hs, handleDataMessage r b = Ok (Some b', add_headers r) ∧
    read_message (bytes_string (mb_bytes b')) = Some (start_line r, hs, content r) ∧
    hs ++ headers_of (other_type r) (headers (add_headers r)) ≡ₚ headers (add_headers r).
Proof.
  intros Hl Hhs Hb Hfit. destruct (message_text_read r b Hl Hhs Hb Hfit) as (b' & E & Er).
  exists b', (sent_headers (isRequest r) (headers (add_headers r))).
  split_and!; [done..|apply sent_headers_all].
Qed.

(** ** The length of the body *)

(** what the library promises: a key is the same as itself, keys that are the same differ in
    case only, and [insert] keeps the other pairs *)
Hypothesis same_refl : ∀ k, same k k = true.
Hypothesis same_case : ∀ k l, same k l = true → string_map tolower k = string_map tolower l.
Hypothesis insert_pair : ∀ hs p, insert hs p ≡ₚ p :: hs.

Lemma fill_header_in k v hs :
  has_header same k hs = true → (∀ h, h ∈ hs → same h.1 k = true → h.2 = "") →
  ∃ n, same n k = true ∧ (n, v) ∈ fill_header same k v hs.
Proof.
  intros Hk He. induction hs as [|h hs IH]; [done|]. cbn in *.
  destruct (same h.1 k) eqn:Hh.
  - exists h.1. split; [done|]. rewrite decide_True by (apply He; [set_solver|done]). set_solver.
  - destruct IH as (n & Hn & Hin); [done|set_solver|]. exists n. split; [done|set_solver].
Qed.
(** the other headers are kept *)
Lemma add_header_keeps k v hs h : h ∈ hs → h.2 ≠ "" → h ∈ add_header k v hs.
Proof.
  unfold HttpStreamer.add_header. intros Hh Hne. destruct (has_header same k hs).
  - induction hs as [|g hs IH]; [by apply elem_of_nil in Hh|]. cbn.
    apply elem_of_cons in Hh as [<-|Hh].
    + destruct (same h.1 k); [rewrite decide_False by done|]; set_solver.
    + specialize (IH Hh). destruct (same g.1 k); set_solver.
  - rewrite insert_pair. set_solver.
Qed.
Lemma add_header_in k v hs :
  (∀ h, h ∈ hs → same h.1 k = true → h.2 = "") →
  ∃ n, same n k = true ∧ (n, v) ∈ add_header k v hs.
Proof.
  intros He. unfold HttpStreamer.add_header. destruct (has_header same k hs) eqn:Hk.
  - by apply fill_header_in.
  - exists k. split; [apply same_refl|]. rewrite insert_pair. set_solver.
Qed.

(** a name that differs from [Content-Length] in case only is not that of a response header *)
Lemma content_length_sent n :
  same n HTTP_PRT_HEADER_CONTENT_LENGTH_STRING = true → isHeaderType n HTTP_HEADER_RESPONSE = false.
Proof.
  intros Hn%same_case. destruct (isHeaderType n HTTP_HEADER_RESPONSE) eqn:E; [|done].
  apply one_of_elem in E. unfold response_headers in E.
  repeat (apply elem_of_cons in E as [->|E]); [vm_compute in Hn; done..|]. by apply elem_of_nil in E.
Qed.

(** The form of a POST: when the record has no length of its own, the message that is
    written has a header field, of a name that the map takes for Content-Length, with the
    number of octets of the body that a peer reads *)
Theorem post_body_delimited r (b : B) :
  method r = HTTP_METHOD_POST → form r ≠ [] →
  (∀ h, h ∈ headers r → same h.1 HTTP_PRT_HEADER_CONTENT_LENGTH_STRING = true → h.2 = "") →
  no_char CR (start_line r) = true →
  Forall (λ h, header_ok h = true) (headers (add_headers r)) →
  mb_bytes b = [] → zlen (string_bytes (buffer r +:+ content r)) <= mb_space b →
  ∃ b' hs n, handleDataMessage r b = Ok (Some b', add_headers r) ∧
    read_message (bytes_string (mb_bytes b')) = Some (start_line r, hs, post_form (form r)) ∧
    same n HTTP_PRT_HEADER_CONTENT_LENGTH_STRING = true ∧
    (n, pretty (zlen (string_bytes (post_form (form r))))) ∈ hs.
Proof.
  intros Hm Hf He Hl Hhs Hb Hfit.
  destruct (message_text_read r b Hl Hhs Hb Hfit) as (b' & E & Er).
  destruct (add_header_in HTTP_PRT_HEADER_CONTENT_LENGTH_STRING
              (pretty (zlen (string_bytes (content r)))) (headers r) He) as (n & Hn & Hin).
  assert (content r = post_form (form r)) as Ec by (unfold content; by rewrite Hm).
  exists b', (sent_headers (isRequest r) (headers (add_headers r))), n.
  rewrite Ec in *. split_and!; [done..|]. apply sent_header_in.
  - unfold HttpStreamer.add_headers. rewrite Hm, decide_False by done. cbn [headers set_headers].
    rewrite Ec. apply add_header_keeps; [done|].
    apply pretty_digits, zlen_nonneg.
  - unfold other_type, isRequest. rewrite Hm. by apply content_length_sent.
Qed.
End Theorems.

(** ** The form *)

(** the pairs of a form that can be told apart when they are read *)
Definition pair_ok (f : string * string) : bool :=
  negb (bool_decide (f.1 = "")) && no_char "=" f.1 && no_char "&" f.1 && no_char "&" f.2.

(** a pair without its ampersand; a pair without a value has no equals sign in a body *)
Definition query_item (f : string * string) : string := f.1 +:+ "=" +:+ f.2.
Definition body_item (f : string * string) : string :=
  f.1 +:+ (if decide (f.2 = "") then "" else "=" +:+ f.2).

Lemma erase_last_string s (c : ascii) : erase_last (s +:+ String c "") = s.
Proof.
  induction s as [|x s IH]; [done|]. autorewrite with str. cbn [erase_last]. rewrite IH.
  by destruct s.
Qed.
Lemma no_char_app x s t : no_char x (s +:+ t) = no_char x s && no_char x t.
Proof. apply string_all_app. Qed.

Section Forms.
Variable item : string * string → string.
Hypothesis item_read : ∀ f, pair_ok f = true →
  no_char "&" (item f) = true ∧ read_pair (item f) = f ∧ item f ≠ "".
Notation text f := (concat ((λ p, item p +:+ "&") <$> f)).

Lemma text_cons p f : text (p :: f) = item p +:+ "&" +:+ text f.
Proof. cbn [fmap list_fmap concat foldr]. by rewrite string_app_assoc. Qed.
Lemma text_erased p f :
  erase_last (text (p :: f)) =
    item p +:+ match f with [] => "" | _ => "&" +:+ erase_last (text f) end.
Proof.
  assert (∀ g q, ∃ s, text (q :: g) = s +:+ "&") as Hend.
  { induction g as [|q' g IH]; intros q.
    - exists (item q). rewrite text_cons. cbn. by rewrite string_app_nil_r.
    - destruct (IH q') as [s Es]. exists (item q +:+ "&" +:+ s).
      by rewrite text_cons, Es, !string_app_assoc. }
  destruct f as [|q f].
  - rewrite text_cons. cbn [fmap list_fmap concat foldr]. rewrite !string_app_nil_r.
    apply erase_last_string.
  - destruct (Hend f q) as [s Es]. rewrite text_cons, Es, (erase_last_string s "&").
    replace (item p +:+ "&" +:+ s +:+ "&") with ((item p +:+ "&" +:+ s) +:+ "&")
      by (by rewrite !string_app_assoc). apply erase_last_string.
Qed.
Lemma read_form_text f fuel :
  f ≠ [] → Forall (λ p, pair_ok p = true) f → (length f <= fuel)%nat →
  read_form fuel (erase_last (text f)) = f.
Proof.
  intros Hne Hf. revert fuel. induction Hf as [|p f Hp Hf IH]; intros fuel Hl; [done|].
  destruct fuel as [|fuel]; cbn [length] in Hl; [lia|].
  destruct (item_read p Hp) as (Ha & Hr & _). rewrite text_erased. cbn [read_form].
  destruct f as [|q f].
  - rewrite string_app_nil_r, cut_at_None by done. by rewrite Hr.
  - rewrite append_cons, append_nil, cut_at_app by done. rewrite Hr, IH; [done|done|lia].
Qed.
End Forms.

Lemma item_read_value k v :
  pair_ok (k, v) = true →
  no_char "&" (k +:+ "=" +:+ v) = true ∧ read_pair (k +:+ "=" +:+ v) = (k, v) ∧
  k +:+ "=" +:+ v ≠ "".
Proof.
  unfold pair_ok. cbn [fst snd]. rewrite !andb_true_iff, negb_true_iff.
  intros [[[Hne%bool_decide_eq_false Hk] Hk'] Hv]. split_and!.
  - by rewrite !no_char_app, Hk', Hv.
  - unfold read_pair. autorewrite with str. by rewrite cut_at_app.
  - by destruct k.
Qed.
Lemma query_item_read f :
  pair_ok f = true →
  no_char "&" (query_item f) = true ∧ read_pair (query_item f) = f ∧ query_item f ≠ "".
Proof. destruct f as [k v]. apply item_read_value. Qed.
Lemma body_item_read f :
  pair_ok f = true →
  no_char "&" (body_item f) = true ∧ read_pair (body_item f) = f ∧ body_item f ≠ "".
Proof.
  destruct f as [k v]. unfold body_item. cbn [fst snd]. intros Hf.
  destruct (decide (v = "")) as [->|Hv]; [|by apply item_read_value].
  unfold pair_ok in Hf. cbn [fst snd] in Hf. rewrite !andb_true_iff, negb_true_iff in Hf.
  destruct Hf as [[[Hne%bool_decide_eq_false Hk] Hk'] _]. rewrite string_app_nil_r. split_and!; [done| |done].
  unfold read_pair. by rewrite cut_at_None.
Qed.

(** The forms of HTTP_Module_Streamer_T: when the names and the values have none of the
    characters that delimit them (the streamer does not encode them), a peer that takes the
    query of a GET and the body of a POST apart reads the pairs of the form, in their order *)
Theorem forms_read f n :
  f ≠ [] → Forall (λ p, pair_ok p = true) f → (length f <= n)%nat →
  (∃ q, get_form f = "?" +:+ q ∧ read_form n q = f) ∧ read_form n (post_form f) = f.
Proof.
  intros Hne Hf Hn. unfold get_form, post_form. rewrite !decide_False by done.
  assert (get_pair <$> f = (λ p, query_item p +:+ "&") <$> f) as ->.
  { apply list_fmap_ext. intros i p _. unfold get_pair, query_item. by rewrite !string_app_assoc. }
  assert (post_pair <$> f = (λ p, body_item p +:+ "&") <$> f) as ->.
  { apply list_fmap_ext. intros i p _. unfold post_pair, body_item. by rewrite !string_app_assoc. }
  split; [eexists; split; [done|]|]; apply read_form_text; try done;
    [apply query_item_read|apply body_item_read].
Qed.

(** ** Concrete messages: a map that compares the keys as they are, and inserts in front *)
Definition exact (k l : string) : bool := bool_decide (k = l).
Lemma exact_refl k : exact k k = true.
Proof. by apply bool_decide_eq_true. Qed.
Lemma exact_case k l : exact k l = true → string_map tolower k = string_map tolower l.
Proof. by intros ->%bool_decide_eq_true. Qed.
Definition front {A} (hs : list A) (p : A) : list A := p :: hs.

Definition example_post : HTTP_Record :=
  MkRecord [("a", "1"); ("b", "")] [("Host", "x.org"); ("Date", "")] HTTP_METHOD_POST "" 0 "/f"
    HTTP_VERSION_1_1.
Definition example_room : list Z * N := ([], 4096%N).

Lemma message_read_witness :
  ∃ b' hs, handleDataMessage exact front example_post example_room =
             Ok (Some b', add_headers exact front example_post) ∧
    read_message (bytes_string b'.1) = Some ("POST /f HTTP/1.1", hs, "a=1&b") ∧
    hs ++ headers_of (other_type example_post) (headers (add_headers exact front example_post))
      ≡ₚ headers (add_headers exact front example_post).
Proof.
  refine (message_read exact front example_post example_room _ _ _ _);
    first [by vm_compute | repeat constructor].
Defined.

Lemma post_body_delimited_witness :
  ∃ b' hs n, handleDataMessage exact front example_post example_room =
               Ok (Some b', add_headers exact front example_post) ∧
    read_message (bytes_string b'.1) = Some ("POST /f HTTP/1.1", hs, "a=1&b") ∧
    exact n "Content-Length" = true ∧ (n, "5") ∈ hs.
Proof.
  refine (post_body_delimited exact front exact_refl exact_case (λ _ _, reflexivity _)
            example_post example_room _ _ _ _ _ _ _);
    first [by vm_compute | repeat constructor | idtac].
  intros h Hh Hs. repeat (apply elem_of_cons in Hh as [->|Hh]; [done|]). by apply elem_of_nil in Hh.
Defined.

Lemma forms_read_witness :
  read_form 2 (post_form [("a", "1"); ("b", "")]) = [("a", "1"); ("b", "")].
Proof.
  refine (proj2 (forms_read [("a", "1"); ("b", "")] 2 _ _ _)); [done|by repeat constructor|done].
Defined.
