(* ===== verification/BitTorrentTracker.v ===== *)
(** * The responses of trackers (bittorrent_streamhandler.inl, bittorrent_session.inl)

    What a session makes of the response to an announce: a redirect, an error, or a dictionary in
    bencoding, from which it takes the id of the tracker and the addresses of the peers.  The
    threads that connect to these addresses are in [BitTorrentThreads]. *)
From S2P Require Import Prelude Chars Decimal ByteOrder InetAddr AddressTools MessageBlock Platform BitTorrentPieces BitTorrentFiles.
From S2P Require Import BencodingScanner BencodingParser MetaInfoFile BitTorrentSession HttpTools.

Definition BITTORRENT_TRACKER_RESPONSE_FAILURE_REASON_HEADER := "failure reason".
Definition BITTORRENT_TRACKER_RESPONSE_INTERVAL_HEADER := "interval".
Definition BITTORRENT_TRACKER_RESPONSE_PEERS_HEADER := "peers".
Definition BITTORRENT_TRACKER_RESPONSE_PEERS_TRACKERID_HEADER := "tracker id".
Definition BITTORRENT_TRACKER_RESPONSE_PEERS_IP_HEADER := "ip".
Definition BITTORRENT_TRACKER_RESPONSE_PEERS_PORT_HEADER := "port".
Definition BITTORRENT_TRACKER_SCRAPE_RESPONSE_FILES_HEADER := "files".
Definition HTTP_PRT_HEADER_LOCATION_STRING := "Location".

(** struct BitTorrent_SessionState, as far as the tracker's responses go; a response is kept, and
    the one before it is released *)
Record tracker (D : Type) := Tracker {
  trackerId : string;
  trackerRequestResponse : option D;
  trackerScrapeResponse : option D;
  timerId_ : Z
}.
Arguments Tracker {D}.
Arguments trackerId {D}.
Arguments trackerRequestResponse {D}.
Arguments trackerScrapeResponse {D}.
Arguments timerId_ {D}.

(** ** The dictionary of a response *)
Section Dictionary.
Context {A E : Type} `{InetAddr A} `{ByteOrder} `{Bencoding E}.

(** the peers of the compact form: an IPv4 address and a port, in network byte order as they are in memory;
    [ACE_INET_Addr::set ()] of numbers does not fail *)
Fixpoint compact_peers (n : nat) (char_p : list Z) : list A :=
  match n with
  | O => []
  | S n' => of_network (load (take 2 (drop 4 char_p))) (load (take 4 char_p)) :: compact_peers n' (drop 6 char_p)
  end.
(** the text that [ACE_INET_Addr::set ()] is given, and whether it is of IPv6 *)
Definition peer_text (ip_address_string : string) (port_number_i : Z) : string * bool :=
  let is_ipv6 := matchIPv6Address ip_address_string in
  ((if is_ipv6 then "[" +:+ ip_address_string +:+ "]" else ip_address_string) +:+ ":" +:+ pretty port_number_i,
   is_ipv6).
(** the port that is in the entry; otherwise that of the entry before it *)
Definition peer_port (port_number_i : option Z) (d : list (string * E)) : outcome (option Z) :=
  match find_key BITTORRENT_TRACKER_RESPONSE_PEERS_PORT_HEADER d with
  | Some e =>
      ace_assert (bool_decide (be_type e = BENCODING_TYPE_INTEGER));; Ok (Some (u16 (be_integer e)))
  | None => Ok port_number_i
  end.
Definition peer_address (port_number_i : Z) (d : list (string * E)) : outcome (option A) :=
  match find_key BITTORRENT_TRACKER_RESPONSE_PEERS_IP_HEADER d with
  | Some e =>
      ace_assert (bool_decide (be_type e = BENCODING_TYPE_STRING));;
      let '(text, is_ipv6) := peer_text (be_string e) port_number_i in Ok (string_to_addr text is_ipv6)
  | None => Ok None
  end.
(** [port_number_i] is declared in front of the loop, without a value: [None] *)
Fixpoint listed_peers (port_number_i : option Z) (l : list E) : outcome (list A) :=
  match l with
  | [] => Ok []
  | e :: l' =>
      ace_assert (bool_decide (be_type e = BENCODING_TYPE_DICTIONARY));;
      port_number_i ← peer_port port_number_i (be_dictionary e);
      p ← deref port_number_i;
      ace_assert (negb (p =? 0));;
      a ← peer_address p (be_dictionary e);
      rest ← listed_peers port_number_i l';
      Ok (match a with Some a => a :: rest | None => rest end)
  end.
(** [None]: of another type *)
Definition peers (e : E) : outcome (option (list A)) :=
  match be_type e with
  | BENCODING_TYPE_STRING =>
      let s := string_bytes (be_string e) in
      ace_assert (zlen s `mod` 6 =? 0);; Ok (Some (compact_peers (Z.to_nat (zlen s `div` 6)) s))
  | BENCODING_TYPE_LIST => Some <$> listed_peers None (be_list e)
  | _ => Ok None
  end.

Context {D : Type}.
Implicit Types (t : tracker D).
Definition set_trackerId (id : string) t : tracker D :=
  Tracker id (trackerRequestResponse t) (trackerScrapeResponse t) (timerId_ t).
Definition set_request_response (d : D) t : tracker D :=
  Tracker (trackerId t) (Some d) (trackerScrapeResponse t) (timerId_ t).
Definition set_scrape_response (d : D) t : tracker D :=
  Tracker (trackerId t) (trackerRequestResponse t) (Some d) (timerId_ t).
(** whether or not the timer can be cancelled *)
Definition cancel_timer t : tracker D :=
  Tracker (trackerId t) (trackerRequestResponse t) (trackerScrapeResponse t) (-1).

(** an id is kept for the requests to come; an other one replaces it *)
Definition retain_trackerId (record_in : list (string * E)) t : outcome (tracker D) :=
  match find_key BITTORRENT_TRACKER_RESPONSE_PEERS_TRACKERID_HEADER record_in with
  | Some e =>
      ace_assert (bool_decide (be_type e = BENCODING_TYPE_STRING));; Ok (set_trackerId (be_string e) t)
  | None => Ok t
  end.
End Dictionary.

(** ** The handlers *)
Section Handlers.
Context {A B FS : Type} `{InetAddr A} `{ByteOrder} `{MessageBlock B} `{FileSystem FS}.
Implicit Types (s : session B FS).

Definition set_aborted s : session B FS :=
  Session (connections s) (connecting s) true (pieces s) (peerState s) (trackerConnectionId s) (files s) (outputs s).
Definition set_connecting (b : bool) s : session B FS :=
  Session (connections s) b (aborted s) (pieces s) (peerState s) (trackerConnectionId s) (files s) (outputs s).

(** What a handler leaves: the state, and the addresses that threads have been spawned for *)
Definition handled D : Type := tracker D * session B FS * option (list A).

(** BitTorrent_Session_T::notify of a dictionary [record_in], whose entries are [entries]; without a
    reason in a failure, the end of the dictionary is dereferenced.  Whether [spawn_n ()] works is up
    to the system. *)
Definition notify_response {D E} `{Bencoding E} (spawn_works : bool) (record_in : D)
    (entries : list (string * E)) (t : tracker D) s : outcome (handled D) :=
  match find_key BITTORRENT_TRACKER_SCRAPE_RESPONSE_FILES_HEADER entries with
  | Some _ => Ok (set_scrape_response record_in t, s, None)
  | None =>
      t ← retain_trackerId entries t;
      let t := set_request_response record_in t in
      rerequest_interval ← expect (find_key BITTORRENT_TRACKER_RESPONSE_INTERVAL_HEADER entries) BENCODING_TYPE_INTEGER;
      let t := if timerId_ t =? -1 then t else cancel_timer t in
      match find_key BITTORRENT_TRACKER_RESPONSE_PEERS_HEADER entries with
      | None =>
          reason ← deref (find_key BITTORRENT_TRACKER_RESPONSE_FAILURE_REASON_HEADER entries);
          ace_assert (bool_decide (be_type reason = BENCODING_TYPE_STRING));;
          Ok (t, set_aborted s, None)
      | Some e =>
          peer_addresses_a ← peers e;
          match peer_addresses_a with
          | None | Some [] => Ok (t, s, None)
          | Some l => if spawn_works then Ok (t, set_connecting true s, Some l) else Ok (t, set_connecting false s, None)
          end
      end
  end.

(** the dictionary of a response, in the store of the driver that has made it *)
Definition dictionary : Type := list node * list (string * nat).

(** The headers are a [std::unordered_map], whose keys are compared without case and hashed with
    it: which keys [find ()] takes for the same is up to the library. *)
Context (same : string → string → bool).
Fixpoint find_header (k : string) (hs : list (string * string)) : option string :=
  match hs with
  | [] => None
  | h :: hs' => if same h.1 k then Some h.2 else find_header k hs'
  end.
Definition is_redirect (status : Z) : bool :=
  bool_decide (status ∈ [Status.HTTP_STATUS_MULTIPLECHOICES; Status.HTTP_STATUS_MOVEDPERMANENTLY;
    Status.HTTP_STATUS_MOVEDTEMPORARILY; Status.HTTP_STATUS_NOTMODIFIED; Status.HTTP_STATUS_USEPROXY;
    Status.HTTP_STATUS_SWITCHPROXY; Status.HTTP_STATUS_TEMPORARYREDIRECT; Status.HTTP_STATUS_PERMANENTREDIRECT]).

Context {E : Type} (configuration_ : configuration E).
(** BitTorrent_TrackerStreamHandler_T::notify of a message; [sessionData_] has the handles of the
    connections of each session of the stream; [crunch ()] copies the data of the message into one
    block, which the parser, if it can be initialized, reads *)
Definition notify_message (sessionData_ : gmap Z (list Z)) (initialize spawn_works : bool)
    (sessionId_in : Z) (record_r : HTTP_Record) (message_in : list B) (t : tracker dictionary) s :
    outcome (handled dictionary) :=
  match sessionData_ !! sessionId_in with
  | None => Abort
  | Some handles =>
      handle_h ← deref (head handles);
      if HttpTools.status record_r =? Status.HTTP_STATUS_OK then
        if negb initialize then Ok (t, s, None)
        else
          p ← parse (chain_bytes message_in);
          match p with
          | Failed => Ok (t, trackerError configuration_ s, None)
          | Parsed d _ _ =>
              ace_assert (bool_decide (bencoding_ d ≠ None));;
              match l ← bencoding_ d; heap d !! l with
              | Some (Dictionary kvs) =>
                  let _ := stored (heap d) (λ _, []) in
                  notify_response spawn_works (heap d, kvs) kvs t s
              | _ => Abort
              end
          end
      else if is_redirect (HttpTools.status record_r) then
        match find_header HTTP_PRT_HEADER_LOCATION_STRING (HttpTools.headers record_r) with
        | None => Ok (t, s, None)
        | Some location => Ok (t, trackerRedirect configuration_ location s, None)
        end
      else Ok (t, trackerError configuration_ s, None)
  end.
End Handlers.

(** ** The compact form *)
Section Compact.
Context {A : Type} `{InetAddr A} `{ByteOrder}.
Definition endpoint : Type := Z * Z * Z * Z * Z.
Definition endpoint_ok (x : endpoint) : Prop :=
  let '(a, b, c, d, p) := x in octets a b c d ∧ 0 <= p < 2 ^ 16.
(** six octets of a peer (BEP 23) *)
Definition endpoint_octets (x : endpoint) : list Z :=
  let '(a, b, c, d, p) := x in [a; b; c; d] ++ be_bytes 2 p.
Definition endpoint_address (x : endpoint) : A := let '(a, b, c, d, p) := x in inet4 a b c d p.
Definition compact (l : list endpoint) : list Z := l ≫= endpoint_octets.

Lemma address_bytes a b c d : octets a b c d → Forall byte [a; b; c; d].
Proof. intros (? & ? & ? & ?). by rewrite !Forall_cons, Forall_nil. Qed.
Lemma of_network_octets a b c d p :
  octets a b c d → 0 <= p < 2 ^ 16 →
  of_network (load (be_bytes 2 p)) (load [a; b; c; d]) = (inet4 a b c d p : A).
Proof.
  intros Ho Hp. unfold of_network. rewrite (memory_load [a; b; c; d]) by by apply address_bytes.
  pose proof (memory_load (be_bytes 2 p) (be_bytes_byte _ _)) as E. rewrite length_be_bytes in E. rewrite E.
  by rewrite be_value_bytes by (cbn; lia).
Qed.
Lemma endpoint_length x : length (endpoint_octets x) = 6%nat.
Proof. destruct x as [[[[a b] c] d] p]. reflexivity. Qed.
Lemma compact_bytes l : Forall endpoint_ok l → Forall byte (compact l).
Proof.
  induction 1 as [|[[[[a b] c] d] p] l [Ho Hp] _ IH]; [constructor|]. apply Forall_app. split; [|done].
  apply Forall_app. split; [by apply address_bytes|apply be_bytes_byte].
Qed.
Lemma zlen_compact l : zlen (compact l) = zlen l * 6.
Proof.
  induction l as [|x l IH]; [done|]. unfold compact in *. cbn [mbind list_bind].
  rewrite zlen_app, IH, zlen_cons. unfold zlen at 1. rewrite endpoint_length. lia.
Qed.
Lemma compact_peers_read l : Forall endpoint_ok l → compact_peers (length l) (compact l) = endpoint_address <$> l.
Proof.
  induction 1 as [|[[[[a b] c] d] p] l [Ho Hp] _ IH]; [done|]. cbn [length compact_peers].
  change (compact (_ :: l)) with ([a; b; c; d] ++ be_bytes 2 p ++ compact l).
  pose proof (of_network_octets a b c d p Ho Hp) as Ha. rewrite fmap_cons, <- IH. exact (f_equal (λ x, x :: _) Ha).
Qed.
End Compact.

(** ** What is read from the store is read from its elements *)
Section Holds.
Context {A B FS : Type} `{InetAddr A} `{ByteOrder} `{MessageBlock B} `{FileSystem FS}.
Context (h : list node) (bencode_ : list (string * nat) → list Z).
#[local] Instance response_bencoding : Bencoding nat := stored h bencode_.
Lemma parts l e :
  holds h l e → be_type l = be_type e ∧ be_integer l = be_integer e ∧ be_string l = be_string e ∧
    Forall2 (holds h) (be_list l) (be_list e) ∧ entries_hold h (be_dictionary l) (be_dictionary e).
Proof. exact (holds_parts h bencode_ l e). Qed.

(** the element of a key, in the store and by itself: both are there, or neither *)
Ltac key_cases Hd k l e Hl :=
  let Hk := fresh in let Hk' := fresh in
  pose proof (find_key_holds h k _ _ Hd) as Hk; destruct (find_key k _) as [l|], (find_key k _) as [e|];
  [destruct (parts l e Hk) as (Hk' & Hl); try rewrite Hk'; clear Hk'|destruct Hk|destruct Hk|try done].

Lemma peer_port_holds port kvs d : entries_hold h kvs d → peer_port port kvs = peer_port port d.
Proof.
  intros Hd. unfold peer_port. key_cases Hd BITTORRENT_TRACKER_RESPONSE_PEERS_PORT_HEADER l e Hl.
  by destruct Hl as (-> & _).
Qed.
Lemma peer_address_holds port kvs d :
  entries_hold h kvs d → peer_address (A := A) port kvs = peer_address port d.
Proof.
  intros Hd. unfold peer_address. key_cases Hd BITTORRENT_TRACKER_RESPONSE_PEERS_IP_HEADER l e Hl.
  by destruct Hl as (_ & -> & _).
Qed.
Lemma listed_peers_holds ls es :
  Forall2 (holds h) ls es → ∀ port, listed_peers (A := A) port ls = listed_peers port es.
Proof.
  induction 1 as [|l e ls es Hl _ IH]; intros port; [done|]. cbn [listed_peers].
  destruct (parts l e Hl) as (-> & _ & _ & _ & Hd). rewrite (peer_port_holds _ _ _ Hd).
  destruct (ace_assert _); [|done..]. cbn [mbind outcome_bind]. destruct (peer_port _ _) as [q| |]; [|done..].
  cbn [mbind outcome_bind]. destruct (deref q) as [p| |]; [|done..]. cbn [mbind outcome_bind].
  by rewrite (peer_address_holds _ _ _ Hd), IH.
Qed.
Lemma peers_holds l e : holds h l e → peers (A := A) l = peers e.
Proof.
  intros Hl. unfold peers. destruct (parts l e Hl) as (-> & _ & -> & Hls & _).
  by rewrite (listed_peers_holds _ _ Hls).
Qed.
Lemma retain_trackerId_holds {D} (t : tracker D) kvs d :
  entries_hold h kvs d → retain_trackerId kvs t = retain_trackerId d t.
Proof.
  intros Hd. unfold retain_trackerId. key_cases Hd BITTORRENT_TRACKER_RESPONSE_PEERS_TRACKERID_HEADER l e Hl.
  by destruct Hl as (_ & -> & _).
Qed.
Lemma notify_response_holds {D} spawn_works (r : D) kvs d t (s : session B FS) :
  entries_hold h kvs d →
  notify_response (A := A) spawn_works r kvs t s = notify_response spawn_works r d t s.
Proof.
  intros Hd. unfold notify_response.
  key_cases Hd BITTORRENT_TRACKER_SCRAPE_RESPONSE_FILES_HEADER l e Hl; [done|].
  rewrite (retain_trackerId_holds _ _ _ Hd). destruct (retain_trackerId _ _) as [t'| |]; [|done..]. cbn [mbind outcome_bind].
  pose proof (expect_holds h bencode_ BITTORRENT_TRACKER_RESPONSE_INTERVAL_HEADER _ _ BENCODING_TYPE_INTEGER Hd) as Hi.
  destruct (expect _ _) as [?| |], (expect _ _) as [?| |]; try done. cbn [mbind outcome_bind]. clear Hi.
  pose proof (find_key_holds h BITTORRENT_TRACKER_RESPONSE_PEERS_HEADER _ _ Hd) as Hp.
  destruct (find_key BITTORRENT_TRACKER_RESPONSE_PEERS_HEADER kvs) as [l|],
    (find_key BITTORRENT_TRACKER_RESPONSE_PEERS_HEADER d) as [e|]; [by rewrite (peers_holds _ _ Hp)|destruct Hp|destruct Hp|]. clear Hp.
  pose proof (find_key_holds h BITTORRENT_TRACKER_RESPONSE_FAILURE_REASON_HEADER _ _ Hd) as Hr.
  destruct (find_key _ kvs) as [l|], (find_key _ d) as [e|]; [|destruct Hr|destruct Hr|done].
  cbn [deref from_option mbind outcome_bind]. by rewrite (proj1 (parts _ _ Hr)).
Qed.
End Holds.

(** ** The responses to an announce *)
Section Responses.
Context {A B FS E : Type} `{InetAddr A} `{ByteOrder} `{MessageBlock B} `{FileSystem FS}.
Context (same : string → string → bool) (configuration_ : configuration E).
Implicit Types (s : session B FS) (t : tracker dictionary).
#[local] Notation notify_message := (notify_message (A := A) same configuration_).

(** a dictionary in the body is what the session is notified of, whatever follows it *)
Lemma message_notified sessionData_ spawn_works sessionId handle handles r (message : list B) m rest t s :
  sessionData_ !! sessionId = Some (handle :: handles) →
  HttpTools.status r = Status.HTTP_STATUS_OK →
  chain_bytes message = bencode (BeDictionary m) ++ rest → encodable (BeDictionary m) = true →
  ∃ record : dictionary, entries_at (MkDriver record.1 None false [] None) record.2 = Some m ∧
    notify_message sessionData_ true spawn_works sessionId r message t s =
    notify_response spawn_works record m t s.
Proof.
  intros Hs Hr Hm Hok. destruct (parse_bencoded (BeDictionary m) rest Hok) as (d & sc & Hp & Hh & Hl & He & _).
  unfold BitTorrentTracker.notify_message. rewrite Hs, Hr, Z.eqb_refl, Hm, Hp.
  cbn [head deref from_option mbind outcome_bind negb]. rewrite Hl, bool_decide_true by done.
  cbn [ace_assert mbind outcome_bind option_bind].
  destruct (heap d !! 0%nat) as [[i|v|ls|kvs]|] eqn:E0; try (rewrite Hh in E0; discriminate E0).
  destruct (holds_parts (heap d) (λ _, []) 0%nat _ He) as (_ & _ & _ & _ & Hd).
  unfold store_bencoding in Hd. cbn [be_dictionary stored] in Hd. rewrite E0 in Hd. exists (heap d, kvs).
  split; [by apply entries_hold_iff|]. exact (notify_response_holds (heap d) (λ _, []) spawn_works _ kvs m t s Hd).
Qed.

(** C6: a session learns its peers from the octets of a tracker's response.  When the status is 200 and the body
    begins with the bencoding of a dictionary that has an interval and, as BEP 23 has it, the addresses and ports
    of some peers in one string, then threads are spawned for exactly these peers, in the order of the response;
    the dictionary is kept, with all its entries; the id that the tracker gives, if any, is kept for the announces
    to come; and the session is connecting. *)
Theorem peers_received sessionData_ sessionId handle handles r (message : list B) m rest v ps i t s
    (Hs : sessionData_ !! sessionId = Some (handle :: handles))
    (Hr : HttpTools.status r = Status.HTTP_STATUS_OK)
    (Hm : chain_bytes message = bencode (BeDictionary m) ++ rest) (Hok : encodable (BeDictionary m) = true)
    (Hf : find_key BITTORRENT_TRACKER_SCRAPE_RESPONSE_FILES_HEADER m = None)
    (Hi : find_key BITTORRENT_TRACKER_RESPONSE_INTERVAL_HEADER m = Some (BeInteger i))
    (Ht : from_option be_type BENCODING_TYPE_STRING
            (find_key BITTORRENT_TRACKER_RESPONSE_PEERS_TRACKERID_HEADER m) = BENCODING_TYPE_STRING)
    (Hv : find_key BITTORRENT_TRACKER_RESPONSE_PEERS_HEADER m = Some (BeString v))
    (Hps : string_bytes v = compact ps) (Hne : ps ≠ []) (Hall : Forall endpoint_ok ps) :
  ∃ record : dictionary, entries_at (MkDriver record.1 None false [] None) record.2 = Some m ∧
    notify_message sessionData_ true true sessionId r message t s =
    Ok (Tracker (from_option be_string (trackerId t) (find_key BITTORRENT_TRACKER_RESPONSE_PEERS_TRACKERID_HEADER m))
          (Some record) (trackerScrapeResponse t) (-1),
        set_connecting true s, Some (endpoint_address <$> ps)).
Proof.
  destruct (message_notified sessionData_ true _ _ _ _ _ _ _ t s Hs Hr Hm Hok) as (record & Hrec & ->).
  exists record. split; [done|]. unfold notify_response. rewrite Hf.
  assert (peers (BeString v) = Ok (Some (endpoint_address <$> ps) : option (list A))) as Hp.
  { unfold peers. cbn [be_type be_string element_bencoding]. rewrite Hps, zlen_compact, Z.mod_mul, Z.div_mul by lia.
    cbn [ace_assert Z.eqb mbind outcome_bind]. unfold zlen. by rewrite Nat2Z.id, compact_peers_read. }
  assert (retain_trackerId m t = Ok (set_trackerId (from_option be_string (trackerId t)
    (find_key BITTORRENT_TRACKER_RESPONSE_PEERS_TRACKERID_HEADER m)) t)) as ->.
  { unfold retain_trackerId. revert Ht. destruct (find_key BITTORRENT_TRACKER_RESPONSE_PEERS_TRACKERID_HEADER m) as [e|];
      cbn [from_option]; intros Ht; [|by destruct t].
    by rewrite bool_decide_true. }
  cbn [mbind outcome_bind]. unfold expect. rewrite Hi, Hv.
  cbn [be_type element_bencoding]. rewrite bool_decide_true by done. cbn [ace_assert mbind outcome_bind].
  rewrite Hp. cbn [mbind outcome_bind]. destruct ps as [|x ps]; [done|]. cbn [fmap list_fmap].
  destruct (timerId_ _ =? -1) eqn:Ez; [|done]. apply Z.eqb_eq in Ez. cbn in Ez. rewrite <- Ez. done.
Qed.

(** A tracker's refusal, with an interval: no peer is connected to, and the session is marked as aborted. *)
Lemma refusal_aborts sessionData_ sessionId handle handles r (message : list B) m rest v i t s :
  sessionData_ !! sessionId = Some (handle :: handles) → HttpTools.status r = Status.HTTP_STATUS_OK →
  chain_bytes message = bencode (BeDictionary m) ++ rest → encodable (BeDictionary m) = true →
  find_key BITTORRENT_TRACKER_SCRAPE_RESPONSE_FILES_HEADER m = None →
  find_key BITTORRENT_TRACKER_RESPONSE_PEERS_TRACKERID_HEADER m = None →
  find_key BITTORRENT_TRACKER_RESPONSE_INTERVAL_HEADER m = Some (BeInteger i) →
  find_key BITTORRENT_TRACKER_RESPONSE_PEERS_HEADER m = None →
  find_key BITTORRENT_TRACKER_RESPONSE_FAILURE_REASON_HEADER m = Some (BeString v) →
  ∃ t', notify_message sessionData_ true true sessionId r message t s = Ok (t', set_aborted s, None).
Proof.
  intros Hs Hr Hm Hok Hf Ht Hi Hp Hv.
  destruct (message_notified sessionData_ true _ _ _ _ _ _ _ t s Hs Hr Hm Hok) as (record & _ & ->).
  unfold notify_response, retain_trackerId, expect. rewrite Hf, Ht. cbn [mbind outcome_bind]. rewrite Hi, Hp, Hv.
  cbn [be_type element_bencoding]. rewrite !bool_decide_true by done. by eexists.
Qed.
(** Without an interval, as BEP 3 has it, an assertion fails. *)
Lemma refusal_without_interval sessionData_ sessionId handle handles r (message : list B) m rest t s :
  sessionData_ !! sessionId = Some (handle :: handles) → HttpTools.status r = Status.HTTP_STATUS_OK →
  chain_bytes message = bencode (BeDictionary m) ++ rest → encodable (BeDictionary m) = true →
  find_key BITTORRENT_TRACKER_SCRAPE_RESPONSE_FILES_HEADER m = None →
  find_key BITTORRENT_TRACKER_RESPONSE_INTERVAL_HEADER m = None →
  notify_message sessionData_ true true sessionId r message t s = Abort.
Proof.
  intros Hs Hr Hm Hok Hf Hi.
  destruct (message_notified sessionData_ true _ _ _ _ _ _ _ t s Hs Hr Hm Hok) as (record & _ & ->).
  unfold notify_response, retain_trackerId, expect. rewrite Hf, Hi.
  destruct (find_key BITTORRENT_TRACKER_RESPONSE_PEERS_TRACKERID_HEADER m); [|done].
  unfold ace_assert. by destruct (bool_decide _).
Qed.
End Responses.

(** ** Concrete responses *)
Definition sample_peers : list endpoint := [(10, 0, 0, 1, 6881); (192, 168, 255, 7, 51413)].
Definition sample_response : list (string * element) :=
  [("interval", BeInteger 1800); ("tracker id", BeString "x&y"); ("peers", BeString (bytes_string (compact sample_peers)))].
Definition tracker_configuration : configuration element := Configuration _ "/tmp/a.torrent" [] false false false.
Definition tracker_init : tracker dictionary := Tracker "" None None (-1).
Definition tracker_session : session (list Z) plain_fs := Session [] false false [] ∅ 0 (PlainFS ∅ []) [].
Definition status_record (n : Z) (hs : list (string * string)) : HTTP_Record :=
  MkRecord [] hs HTTP_METHOD_INVALID "" n "" HTTP_VERSION_1_1.
Definition sample_notified (n : Z) (hs : list (string * string)) (body : list Z) : outcome (handled dictionary) :=
  notify_message (A := inet_addr) (λ k l, bool_decide (k = l)) tracker_configuration {[1 := [7]]} true true 1
    (status_record n hs) [take 20 body; drop 20 body] tracker_init tracker_session.
Lemma peers_received_witness :
  ∃ record : dictionary, entries_at (MkDriver record.1 None false [] None) record.2 = Some sample_response ∧
    sample_notified 200 [] (bencode (BeDictionary sample_response) ++ [10]) =
    Ok (Tracker "x&y" (Some record) None (-1), set_connecting true tracker_session,
        Some [Addr4 10 0 0 1 6881; Addr4 192 168 255 7 51413]).
Proof.
  exact (peers_received (A := inet_addr) (λ k l, bool_decide (k = l)) tracker_configuration {[1 := [7]]} 1 7 []
    (status_record 200 []) [take 20 (bencode (BeDictionary sample_response) ++ [10]); drop 20 (bencode (BeDictionary sample_response) ++ [10])]
    sample_response [10] (bytes_string (compact sample_peers)) sample_peers 1800 tracker_init tracker_session
    ltac:(by vm_compute) ltac:(done) ltac:(by vm_compute) ltac:(by vm_compute) ltac:(done) ltac:(done) ltac:(done) ltac:(done)
    ltac:(by vm_compute) ltac:(done) ltac:(repeat constructor; unfold octets; lia)).
Defined.

(** The peers of the other form: an entry without a port gets that of the entry in front of it; *)
Definition listed (l : list (list (string * element))) : outcome (option (list inet_addr)) :=
  peers (BeList (BeDictionary <$> l)).
Example port_carried_over :
  listed [[("ip", BeString "10.0.0.1"); ("port", BeInteger 6881)]; [("ip", BeString "10.0.0.2")]] =
  Ok (Some [Addr4 10 0 0 1 6881; Addr4 10 0 0 2 6881]).
Proof. by vm_compute. Qed.
(** the first one, an arbitrary one. *)
Example port_unset : listed [[("ip", BeString "10.0.0.1")]] = Undef.
Proof. by vm_compute. Qed.
(** A port that is a multiple of 2^16 aborts the program, as does an error of the tracker that has no interval. *)
Example port_zero : listed [[("ip", BeString "10.0.0.1"); ("port", BeInteger 65536)]] = Abort.
Proof. by vm_compute. Qed.
Example failure_aborts :
  sample_notified 200 [] (bencode (BeDictionary [("failure reason", BeString "unregistered torrent")])) = Abort.
Proof. by vm_compute. Qed.
(** The parser module puts the names of the headers into lower case, and the map hashes them with their case: the
    header [Location] is not found, and the redirect is dropped. *)
Example redirect_missed :
  sample_notified 302 [("location", "http://b/announce")] [] = Ok (tracker_init, tracker_session, None).
Proof. by vm_compute. Qed.
