(* ===== verification/BitTorrentThreads.v ===== *)
(** * The threads that connect to peers (bittorrent_session.cpp)

    A thread for each address in the response of a tracker: each takes an address, connects to it and waits
    at a barrier for the others; the one that has taken the last address says that the session has done.
    Here they run in any order, one step of one thread after the other. *)
From S2P Require Import Prelude.
From stdpp Require Import relations.

Section Threads.
Context {A : Type}.

(** where a thread of [net_bittorrent_session_setup_function ()] is; the flag is [delete_thread_data_b] *)
Inductive thread :=
  | Begins
  | Connects (peer_address : A) (delete_thread_data_b : bool)
  | Waits (delete_thread_data_b : bool)
  | Clears
  | Deletes
  | Ended (delete_thread_data_b : bool).
(** struct BitTorrent_SessionInitiationThreadData, with the barrier in the threads that wait; the addresses that
    the session has been told to connect to, and its [state_.connecting] *)
Record pool := Pool {
  addresses : list A;
  threads : list thread;
  opened : list A;
  connecting : bool;
  deleted : bool
}.
Definition set_thread (i : nat) (x : thread) (σ : pool) : pool :=
  Pool (addresses σ) (<[i := x]> (threads σ)) (opened σ) (connecting σ) (deleted σ).

(** [back ()] and [pop_back ()] *)
Fixpoint pop_back (l : list A) : option (A * list A) :=
  match l with
  | [] => None
  | a :: l' => match pop_back l' with Some (b, r) => Some (b, a :: r) | None => Some (a, []) end
  end.

(** ACE_Barrier: those who wait go on when all have come *)
Definition before_barrier (x : thread) : bool :=
  match x with Begins | Connects _ _ => true | _ => false end.
Definition at_barrier (x : thread) : bool := match x with Waits _ => true | _ => false end.
Definition barrier_open (σ : pool) : bool := forallb (λ x, negb (before_barrier x)) (threads σ).

(** [sleeps_enough]: the threads have left the barrier when the one that deletes their data has slept for a second *)
Context (sleeps_enough : bool).
(** one step of a thread; [None]: it waits, or has ended *)
Definition run_thread (i : nat) (σ : pool) : outcome (option pool) :=
  match threads σ !! i with
  | Some Begins =>
      '(peer_address, addresses') ← deref (pop_back (addresses σ));
      Ok (Some (set_thread i (Connects peer_address (bool_decide (addresses' = [])))
                  (Pool addresses' (threads σ) (opened σ) (connecting σ) (deleted σ))))
  | Some (Connects peer_address b) =>
      Ok (Some (set_thread i (Waits b)
                  (Pool (addresses σ) (threads σ) (opened σ ++ [peer_address]) (connecting σ) (deleted σ))))
  | Some (Waits b) =>
      if deleted σ then Undef
      else if barrier_open σ then Ok (Some (set_thread i (if b : bool then Clears else Ended false) σ))
      else Ok None
  | Some Clears =>
      Ok (Some (set_thread i Deletes (Pool (addresses σ) (threads σ) (opened σ) false (deleted σ))))
  | Some Deletes =>
      if sleeps_enough && existsb at_barrier (threads σ) then Ok None
      else Ok (Some (set_thread i (Ended true) (Pool (addresses σ) (threads σ) (opened σ) (connecting σ) true)))
  | Some (Ended _) | None => Ok None
  end.
Definition step (σ σ' : pool) : Prop := ∃ i, run_thread i σ = Ok (Some σ').
(** what [spawn_n ()] starts *)
Definition spawned (l : list A) : pool := Pool l (replicate (length l) Begins) [] true false.
End Threads.
Arguments thread A : clear implicits.
Arguments pool A : clear implicits.

(** ** The threads by their number *)
Section Counting.
Context {A : Type}.
Implicit Types (f : thread A → bool) (l : list (thread A)).
Fixpoint count f l : nat :=
  match l with [] => 0 | x :: l' => (if f x then 1 else 0) + count f l' end.
Lemma count_insert f l i x y :
  l !! i = Some x → (count f (<[i := y]> l) + (if f x then 1 else 0) = count f l + (if f y then 1 else 0))%nat.
Proof.
  revert i. induction l as [|z l IH]; intros [|i]; [done|done| |].
  - intros [= ->]. cbn. destruct (f x), (f y); lia.
  - intros Hi. specialize (IH i Hi). change (<[S i := y]> (z :: l)) with (z :: <[i := y]> l). cbn [count]. lia.
Qed.
Lemma count_zero f l : count f l = 0%nat ↔ ∀ x, x ∈ l → f x = false.
Proof.
  induction l as [|z l IH]; cbn.
  - split; [by intros _ x ?%elem_of_nil|done].
  - setoid_rewrite elem_of_cons. destruct (f z) eqn:Ez.
    + split; [lia|]. intros Ha. specialize (Ha z (or_introl eq_refl)). congruence.
    + rewrite IH. split; [by intros Ha x [->|Hx]; [|by apply Ha]|intros Ha x Hx; apply Ha; by right].
Qed.
Lemma count_pos f l i x : l !! i = Some x → f x = true → (0 < count f l)%nat.
Proof.
  intros Hi Hf. destruct (count f l) eqn:E; [|lia]. apply count_zero with (x := x) in E; [congruence|].
  by eapply list_elem_of_lookup_2.
Qed.
Lemma count_found f l : (0 < count f l)%nat → ∃ i x, l !! i = Some x ∧ f x = true.
Proof.
  intros Hc. destruct (existsb f l) eqn:E.
  - apply existsb_exists in E as (x & Hx & Hf). apply list_elem_of_In, list_elem_of_lookup in Hx as [i Hi]. eauto.
  - exfalso. assert (count f l = 0%nat); [|lia]. apply count_zero. intros x Hx. destruct (f x) eqn:Ex; [|done].
    assert (existsb f l = true) as E'; [|congruence]. apply existsb_exists. exists x. split; [by apply list_elem_of_In|done].
Qed.
Lemma count_replicate f n x : count f (replicate n x) = if f x then n else 0%nat.
Proof. induction n as [|n IH]; cbn; [by destruct (f x)|]. rewrite IH. destruct (f x); lia. Qed.
Lemma barrier_open_count (σ : pool A) : barrier_open σ = true ↔ count before_barrier (threads σ) = 0%nat.
Proof.
  unfold barrier_open. rewrite count_zero, forallb_forall. setoid_rewrite negb_true_iff.
  by setoid_rewrite list_elem_of_In.
Qed.
Lemma at_barrier_count l : existsb at_barrier l = false ↔ count at_barrier l = 0%nat.
Proof.
  rewrite count_zero. split.
  - intros Hn x Hx. destruct (at_barrier x) eqn:E; [|done]. rewrite <- Hn. symmetry. apply existsb_exists.
    exists x. split; [by apply list_elem_of_In|done].
  - intros Hn. destruct (existsb at_barrier l) eqn:E; [|done]. apply existsb_exists in E as (x & Hx & Hf).
    rewrite <- Hf. apply Hn. by apply list_elem_of_In.
Qed.
End Counting.

(** ** What holds of the threads at any time *)
Section Invariant.
Context {A : Type}.
Definition begins (x : thread A) : bool := match x with Begins => true | _ => false end.
(** the thread that has taken the last address *)
Definition is_last (x : thread A) : bool :=
  match x with Connects _ b | Waits b | Ended b => b | Clears | Deletes => true | Begins => false end.
Definition past_barrier (x : thread A) : bool := match x with Clears | Deletes | Ended _ => true | _ => false end.
Definition has_cleared (x : thread A) : bool := match x with Deletes | Ended true => true | _ => false end.
Definition has_deleted (x : thread A) : bool := match x with Ended true => true | _ => false end.
Definition holds_address (x : thread A) : list A := match x with Connects a _ => [a] | _ => [] end.
Definition held (l : list (thread A)) : list A := l ≫= holds_address.

Record inv (sleeps_enough : bool) (l : list A) (σ : pool A) : Prop := {
  inv_taken : addresses σ ++ held (threads σ) ++ opened σ ≡ₚ l;
  inv_begins : count begins (threads σ) = length (addresses σ);
  inv_last : count is_last (threads σ) = if decide (addresses σ = []) then 1%nat else 0%nat;
  inv_barrier : count past_barrier (threads σ) = 0%nat ∨ count before_barrier (threads σ) = 0%nat;
  inv_connecting : connecting σ = (count has_cleared (threads σ) =? 0)%nat;
  inv_deleted : deleted σ = negb (count has_deleted (threads σ) =? 0)%nat;
  inv_left : sleeps_enough = true → deleted σ = true → count at_barrier (threads σ) = 0%nat
}.

Lemma held_insert l i x y :
  l !! i = Some x → ∃ r, held l ≡ₚ holds_address x ++ r ∧ held (<[i := y]> l) ≡ₚ holds_address y ++ r.
Proof.
  intros Hi. exists (held (take i l) ++ held (drop (S i) l)). pose proof (lookup_lt_Some _ _ _ Hi).
  assert (∀ z, held (take i l ++ z :: drop (S i) l) ≡ₚ holds_address z ++ held (take i l) ++ held (drop (S i) l)) as Hz.
  { intros z. unfold held. rewrite bind_app. cbn [mbind list_bind]. by rewrite (Permutation_app_swap_app (holds_address z)). }
  split; [rewrite <- (take_drop_middle l i x Hi) at 1|rewrite insert_take_drop by done]; apply Hz.
Qed.
Lemma pop_back_Permutation (l : list A) a r : pop_back l = Some (a, r) → l ≡ₚ a :: r.
Proof.
  revert a r. induction l as [|b l IH]; [done|]. intros a r. cbn.
  destruct (pop_back l) as [[c q]|] eqn:E.
  - intros [= <- <-]. rewrite (IH c q) by done. apply perm_swap.
  - destruct l as [|d l]; [by intros [= <- <-]|]. cbn in E. by destruct (pop_back l) as [[? ?]|].
Qed.
Lemma pop_back_Some (l : list A) : l ≠ [] → ∃ a r, pop_back l = Some (a, r).
Proof. destruct l as [|a l]; [done|]. intros _. cbn. destruct (pop_back l) as [[? ?]|]; eauto. Qed.

(** the numbers of the threads before and after a step of one of them *)
Ltac counts Hi y :=
  pose proof (count_insert begins _ _ _ y Hi); pose proof (count_insert is_last _ _ _ y Hi);
  pose proof (count_insert past_barrier _ _ _ y Hi); pose proof (count_insert before_barrier _ _ _ y Hi);
  pose proof (count_insert has_cleared _ _ _ y Hi); pose proof (count_insert has_deleted _ _ _ y Hi);
  pose proof (count_insert at_barrier _ _ _ y Hi);
  cbn [begins is_last past_barrier before_barrier has_cleared has_deleted at_barrier] in *.

Lemma spawned_inv sleeps_enough (l : list A) : l ≠ [] → inv sleeps_enough l (spawned l).
Proof.
  intros Hl. split; cbn [spawned addresses threads opened connecting deleted]; rewrite ?count_replicate; cbn; try done.
  - assert (held (replicate (length l) Begins) = []) as ->; [|by rewrite !app_nil_r].
    unfold held. induction (length l) as [|n IH]; [done|exact IH].
  - by rewrite decide_False.
  - by left.
Qed.

Lemma address_held (l : list (thread A)) i x y (q r : list A) :
  l !! i = Some x → (q ++ holds_address x) ≡ₚ r ++ holds_address y → q ++ held l ≡ₚ r ++ held (<[i := y]> l).
Proof.
  intros Hi Hq. destruct (held_insert l i x y Hi) as (z & -> & ->). by rewrite !(assoc_L (++)), Hq.
Qed.
Lemma count_mono (f g : thread A → bool) (l : list (thread A)) :
  (∀ x, f x = true → g x = true) → (count f l <= count g l)%nat.
Proof.
  intros Hfg. induction l as [|x l IH]; [done|]. cbn. specialize (Hfg x).
  destruct (f x); [rewrite Hfg by done|]; lia.
Qed.
Lemma deleted_past (l : list (thread A)) : (count has_deleted l <= count past_barrier l)%nat.
Proof. by apply count_mono; intros []. Qed.

(** a step keeps what is not about the addresses *)
Ltac fields :=
  split; cbn [set_thread addresses threads opened connecting deleted];
  [|try lia|try lia|try lia| | |].
Lemma run_thread_inv sleeps_enough l i (σ σ' : pool A) :
  inv sleeps_enough l σ → run_thread sleeps_enough i σ = Ok (Some σ') → inv sleeps_enough l σ'.
Proof.
  intros [Ht Hb Hl Hp Hc Hd He]. unfold run_thread. pose proof (deleted_past (threads σ)) as Hle.
  destruct (threads σ !! i) as [x|] eqn:Hi; [|done]. destruct x as [|a b|b| | |b]; try done.
  - destruct (pop_back (addresses σ)) as [[a r]|] eqn:Ea; [|done]. intros [= <-].
    counts Hi (Connects a (bool_decide (r = []))). pose proof (pop_back_Permutation _ _ _ Ea) as Hr.
    pose proof (count_pos before_barrier _ _ _ Hi eq_refl). pose proof (Permutation_length Hr) as Hn. cbn in Hn.
    fields.
    + rewrite <- Ht, Hr, !(assoc_L (++)). f_equiv. rewrite <- (address_held _ i Begins _ (a :: r) r Hi); [done|].
      cbn. rewrite app_nil_r. apply Permutation_cons_append.
    + rewrite decide_False in Hl by (by intros E; rewrite E in Hn). case_bool_decide; case_decide; try done; lia.
    + rewrite Hc. f_equal. lia.
    + rewrite Hd. do 2 f_equal. lia.
    + intros Hs Hx. specialize (He Hs Hx). lia.
  - intros [= <-]. counts Hi (Waits b : thread A). pose proof (count_pos before_barrier _ _ _ Hi eq_refl). fields.
    + rewrite <- Ht. f_equiv. rewrite (assoc_L (++)), (Permutation_app_comm _ [a]), (assoc_L (++)). f_equiv.
      by rewrite <- (address_held _ i (Connects a b) (Waits b) [] [a] Hi).
    + rewrite Hc. f_equal. lia.
    + rewrite Hd. do 2 f_equal. lia.
    + intros Hs Hx. rewrite Hd in Hx. apply negb_true_iff, Nat.eqb_neq in Hx. lia.
  - destruct (deleted σ) eqn:Ed; [done|]. destruct (barrier_open σ) eqn:Eb; [|done]. intros [= <-].
    apply barrier_open_count in Eb. destruct b.
    + counts Hi (Clears : thread A). fields.
      * by rewrite <- (address_held _ i (Waits true) Clears [] [] Hi).
      * rewrite Hc. f_equal. lia.
      * rewrite Ed. etransitivity; [exact Hd|]. do 2 f_equal. lia.
      * by rewrite Ed.
    + counts Hi (Ended false : thread A). fields.
      * by rewrite <- (address_held _ i (Waits false) (Ended false) [] [] Hi).
      * rewrite Hc. f_equal. lia.
      * rewrite Ed. etransitivity; [exact Hd|]. do 2 f_equal. lia.
      * by rewrite Ed.
  - intros [= <-]. counts Hi (Deletes : thread A). pose proof (count_pos past_barrier _ _ _ Hi eq_refl). fields.
    + by rewrite <- (address_held _ i Clears Deletes [] [] Hi).
    + symmetry. apply Nat.eqb_neq. lia.
    + rewrite Hd. do 2 f_equal. lia.
    + intros Hs Hx. specialize (He Hs Hx). lia.
  - destruct (sleeps_enough && existsb at_barrier (threads σ)) eqn:Es; [done|]. intros [= <-].
    counts Hi (Ended true : thread A). pose proof (count_pos past_barrier _ _ _ Hi eq_refl). fields.
    + by rewrite <- (address_held _ i Deletes (Ended true) [] [] Hi).
    + rewrite Hc. f_equal. lia.
    + symmetry. apply negb_true_iff, Nat.eqb_neq. lia.
    + intros Hs _. rewrite Hs in Es. apply at_barrier_count in Es. lia.
Qed.

(** what is left to do *)
Definition weight (x : thread A) : nat :=
  match x with Begins => 5 | Connects _ _ => 4 | Waits _ => 3 | Clears => 2 | Deletes => 1 | Ended _ => 0 end.
Fixpoint work (l : list (thread A)) : nat := match l with [] => 0 | x :: l' => weight x + work l' end.
Lemma work_insert l i x y : l !! i = Some x → (work (<[i := y]> l) + weight x = work l + weight y)%nat.
Proof.
  revert i. induction l as [|z l IH]; intros [|i]; [done|done| |].
  - intros [= ->]. cbn. lia.
  - intros Hi. specialize (IH i Hi). change (<[S i := y]> (z :: l)) with (z :: <[i := y]> l). cbn [work]. lia.
Qed.
Lemma step_works sleeps_enough (σ σ' : pool A) :
  step sleeps_enough σ σ' → (work (threads σ') < work (threads σ))%nat.
Proof.
  intros [i Hr]. unfold run_thread in Hr. destruct (threads σ !! i) as [x|] eqn:Hi; [|done].
  assert (∀ y, (weight y < weight x)%nat → (work (<[i := y]> (threads σ)) < work (threads σ))%nat) as Hw.
  { intros y Hy. pose proof (work_insert _ _ _ y Hi). lia. }
  destruct x as [|a b|b| | |b]; try done.
  - destruct (pop_back _) as [[a r]|]; [|done]. injection Hr as <-. apply Hw. cbn. lia.
  - injection Hr as <-. apply Hw. cbn. lia.
  - destruct (deleted σ), (barrier_open σ); try done. injection Hr as <-. apply Hw. destruct b; cbn; lia.
  - injection Hr as <-. apply Hw. cbn. lia.
  - destruct (sleeps_enough && _); [done|]. injection Hr as <-. apply Hw. cbn. lia.
Qed.
Lemma step_sn sleeps_enough (σ : pool A) : sn (step sleeps_enough) σ.
Proof.
  remember (work (threads σ)) as n eqn:Hn. revert σ Hn. induction n as [n IH] using lt_wf_ind. intros σ ->.
  constructor. intros σ' Hs. by eapply IH; [apply (step_works _ _ _ Hs)|].
Qed.

Lemma rtc_inv sleeps_enough (l : list A) σ :
  l ≠ [] → rtc (step sleeps_enough) (spawned l) σ → inv sleeps_enough l σ.
Proof.
  intros Hl Hr. pose proof (spawned_inv sleeps_enough l Hl) as Hi. revert Hi.
  induction Hr as [|σ1 σ2 σ3 [i Hs] _ IH]; [done|]. intros Hi. by eapply IH, run_thread_inv.
Qed.
(** when all have come to the barrier, the addresses are all connected to *)
Lemma barrier_all sleeps_enough l (σ : pool A) :
  inv sleeps_enough l σ → count before_barrier (threads σ) = 0%nat → addresses σ = [] ∧ opened σ ≡ₚ l.
Proof.
  intros [Ht Hb _ _ _ _ _] Hc.
  assert (addresses σ = []) as Ha.
  { apply length_zero_iff_nil. rewrite <- Hb. pose proof (count_mono begins before_barrier (threads σ)) as Hm.
    specialize (Hm ltac:(by intros [])). lia. }
  split; [done|]. rewrite <- Ht, Ha. assert (held (threads σ) = []) as ->; [|done].
  clear -Hc. unfold held. induction (threads σ) as [|x ths IH]; [done|]. cbn in *.
  destruct x; cbn in *; try lia; apply IH; lia.
Qed.
End Invariant.

(** ** Every peer is connected to *)
Section Connected.
Context {A : Type}.
Implicit Types (l : list A) (σ : pool A).

Lemma thread_runs l σ i : inv true l σ → ∃ o, run_thread true i σ = Ok o.
Proof.
  intros [Ht Hb _ _ _ _ He]. unfold run_thread. destruct (threads σ !! i) as [x|] eqn:Hi; [|eauto].
  destruct x as [|a b|b| | |b]; eauto.
  - pose proof (count_pos begins _ _ _ Hi eq_refl). destruct (pop_back_Some (addresses σ)) as (a & r & ->); [|cbn; eauto].
    intros E. rewrite E in Hb. cbn in Hb. lia.
  - destruct (deleted σ); [|destruct (barrier_open σ); eauto].
    pose proof (count_pos at_barrier _ _ _ Hi eq_refl). specialize (He eq_refl eq_refl). lia.
  - destruct (true && _); eauto.
Qed.
Lemma connecting_done sleeps_enough l σ : inv sleeps_enough l σ → connecting σ = false → opened σ ≡ₚ l.
Proof.
  intros Hinv Hc. destruct (inv_barrier _ _ _ Hinv) as [Hp|Hp]; [|by eapply barrier_all].
  rewrite (inv_connecting _ _ _ Hinv) in Hc. apply Nat.eqb_neq in Hc.
  pose proof (count_mono has_cleared past_barrier (threads σ) ltac:(by intros [])). lia.
Qed.
Lemma stuck_thread l σ i x :
  inv true l σ → nf (step true) σ → threads σ !! i = Some x → run_thread true i σ = Ok None.
Proof.
  intros Hinv Hnf Hi. destruct (thread_runs l σ i Hinv) as [[σ'|] Hr]; [|done].
  destruct Hnf. exists σ'. by exists i.
Qed.
Lemma stuck_ended l σ : inv true l σ → nf (step true) σ → ∀ x, x ∈ threads σ → ∃ b, x = Ended b.
Proof.
  intros Hinv Hnf.
  assert (∀ f, (∀ i x, threads σ !! i = Some x → f x = true → run_thread true i σ ≠ Ok None) → count f (threads σ) = 0%nat)
    as Hnone.
  { intros f Hf. destruct (count f (threads σ)) eqn:E; [done|].
    destruct (count_found f (threads σ)) as (i & x & Hi & Hx); [lia|]. by destruct (Hf i x Hi Hx), (stuck_thread l σ i x). }
  assert (count before_barrier (threads σ) = 0%nat) as Hb.
  { apply Hnone. intros i x Hi Hx Hr. destruct (thread_runs l σ i Hinv) as [o Ho]. unfold run_thread in Hr, Ho.
    rewrite Hi in Hr, Ho. destruct x; try done. by destruct (pop_back _) as [[? ?]|]. }
  assert (count at_barrier (threads σ) = 0%nat) as Ha.
  { apply Hnone. intros i x Hi Hx Hr. unfold run_thread in Hr. rewrite Hi in Hr. destruct x; try done.
    destruct (deleted σ); [done|]. by rewrite (proj2 (barrier_open_count σ) Hb) in Hr. }
  assert (count (λ x : thread A, match x with Clears | Deletes => true | _ => false end) (threads σ) = 0%nat) as Hc.
  { apply Hnone. intros i x Hi Hx Hr. unfold run_thread in Hr. rewrite Hi in Hr. destruct x; try done.
    by rewrite (proj2 (at_barrier_count _) Ha) in Hr. }
  intros x Hx. rewrite count_zero in Ha, Hb, Hc. specialize (Ha x Hx). specialize (Hb x Hx). specialize (Hc x Hx).
  destruct x; try done. eauto.
Qed.

(** C7: a tracker's peers are all connected to, whatever the order in which the threads run.  Of the threads that are
    spawned for the addresses of a response, no step is undefined, as long as the second that the last one sleeps
    is enough for the others to leave the barrier; they cannot go on for ever; the session is not said to have
    done with connecting before it has been told to connect to every address, once for each time it is in the
    response; and when no thread can go on, all have ended, the session has been told to connect to all of the
    addresses, it is not connecting any more, and the data of the threads are deleted: there is no deadlock. *)
Theorem peers_connected l (Hl : l ≠ []) :
  sn (step true) (spawned l) ∧
  ∀ σ, rtc (step true) (spawned l) σ →
    (∀ i, ∃ o, run_thread true i σ = Ok o) ∧
    (connecting σ = false → opened σ ≡ₚ l) ∧
    (nf (step true) σ → opened σ ≡ₚ l ∧ connecting σ = false ∧ deleted σ = true ∧
       ∀ x, x ∈ threads σ → ∃ b, x = Ended b).
Proof.
  split; [apply step_sn|]. intros σ Hr. pose proof (rtc_inv true l σ Hl Hr) as Hinv. split_and!.
  - intros i. by eapply thread_runs.
  - by eapply connecting_done.
  - intros Hnf. pose proof (stuck_ended l σ Hinv Hnf) as Hend.
    assert (count before_barrier (threads σ) = 0%nat) as Hb.
    { apply count_zero. intros x Hx. by destruct (Hend x Hx) as [b ->]. }
    destruct (barrier_all true l σ Hinv Hb) as [Ha Ho]. split; [done|].
    pose proof (inv_last _ _ _ Hinv) as Hlast. rewrite decide_True in Hlast by done.
    destruct (count_found is_last (threads σ)) as (i & x & Hi & Hx); [lia|].
    destruct (Hend x) as [[] ->]; [by eapply list_elem_of_lookup_2| |done].
    rewrite (inv_connecting _ _ _ Hinv), (inv_deleted _ _ _ Hinv).
    pose proof (count_pos has_cleared _ _ _ Hi eq_refl). pose proof (count_pos has_deleted _ _ _ Hi eq_refl).
    split_and!; [by apply Nat.eqb_neq; lia|by apply negb_true_iff, Nat.eqb_neq; lia|done].
Qed.
End Connected.

(** ** Concrete threads *)
(** the threads of a schedule, each for one step *)
Definition run_schedule {A} (sleeps_enough : bool) (σ : pool A) (schedule : list nat) : outcome (pool A) :=
  foldl (λ o i, σ ← o; σ' ← run_thread sleeps_enough i σ; Ok (default σ σ')) (Ok σ) schedule.
Example two_peers :
  run_schedule true (spawned [1; 2]) [1; 0; 1; 1; 0; 0; 1; 0; 0]%nat =
  Ok (Pool [] [Ended true; Ended false] [2; 1] false true).
Proof. by vm_compute. Qed.
(** When a thread has not left the barrier within the second, its data are gone: it reads memory that has been freed. *)
Example data_deleted_early : run_schedule false (spawned [1; 2]) [1; 0; 1; 0; 0; 0; 0; 1]%nat = Undef.
Proof. by vm_compute. Qed.
Lemma peers_connected_witness :
  [1; 2] ≠ [] ∧ rtc (step true) (spawned [1; 2]) (Pool [] [Waits true; Waits false] [2; 1] true false) ∧
  sn (step true) (spawned [1; 2]).
Proof.
  split; [done|split; [|exact (proj1 (peers_connected [1; 2] ltac:(done)))]].
  eapply rtc_l; [by exists 1%nat; vm_compute|]. eapply rtc_l; [by exists 0%nat; vm_compute|].
  eapply rtc_l; [by exists 1%nat; vm_compute|]. eapply rtc_l; [by exists 0%nat; vm_compute|]. apply rtc_refl.
Defined.
