(* ===== verification/BitTorrentAnnounce.v ===== *)
(** * The requests to trackers (bittorrent_control.inl, bittorrent_session.inl)

    The records of the announces, of the request after a redirect and of the scrape, and what a
    tracker reads when the streamer of [HttpStreamer] has written them. *)
From S2P Require Import Prelude MessageBlock Chars Decimal InetAddr AddressTools HttpTools HttpStreamer BitTorrentText BitTorrentSession.

Definition BITTORRENT_TRACKER_REQUEST_INFO_HASH_HEADER := "info_hash".
Definition BITTORRENT_TRACKER_REQUEST_PEER_ID_HEADER := "peer_id".
Definition BITTORRENT_TRACKER_REQUEST_PORT_HEADER := "port".
Definition BITTORRENT_TRACKER_REQUEST_UPLOADED_HEADER := "uploaded".
Definition BITTORRENT_TRACKER_REQUEST_DOWNLOADED_HEADER := "downloaded".
Definition BITTORRENT_TRACKER_REQUEST_LEFT_HEADER := "left".
Definition BITTORRENT_TRACKER_REQUEST_COMPACT_HEADER := "compact".
Definition BITTORRENT_TRACKER_REQUEST_EVENT_HEADER := "event".
Definition BITTORRENT_TRACKER_REQUEST_EVENT_STARTED_STRING := "started".
Definition BITTORRENT_TRACKER_REQUEST_EVENT_STOPPED_STRING := "stopped".
Definition BITTORRENT_TRACKER_REQUEST_EVENT_COMPLETED_STRING := "completed".
Definition BITTORRENT_TRACKER_REQUEST_IP_HEADER := "ip".
Definition BITTORRENT_TRACKER_REQUEST_NUMWANT_HEADER := "numwant".
Definition BITTORRENT_TRACKER_REQUEST_TRACKERID_HEADER := "trackerid".
Definition BITTORRENT_DEFAULT_PORT : Z := 6881.
Definition BITTORRENT_DEFAULT_TRACKER_REQUEST_NUMWANT_PEERS : Z := 50.
Definition HTTP_PRT_HEADER_HOST_STRING := "Host".
Definition HTTP_PRT_HEADER_ACCEPT_STRING := "Accept".
Definition HTTP_PRT_HEADER_ACCEPT_ENCODING_STRING := "Accept-Encoding".
Definition HTTP_PRT_HEADER_AGENT_STRING := "User-Agent".

(** ** The forms *)
(** [std::map::insert ()]: in the order of the keys; a key that is there keeps its value *)
Fixpoint form_insert (f : list (string * string)) (p : string * string) : list (string * string) :=
  match f with
  | [] => [p]
  | q :: f' =>
      match String.compare p.1 q.1 with
      | Lt => p :: f
      | Eq => f
      | Gt => q :: form_insert f' p
      end
  end.
Definition insert_all := foldl form_insert.
Definition insert_if (b : bool) (p : string * string) (f : list (string * string)) : list (string * string) :=
  if b then form_insert f p else f.
Definition insert_ip (ip : option string) (f : list (string * string)) : list (string * string) :=
  match ip with Some a => form_insert f (BITTORRENT_TRACKER_REQUEST_IP_HEADER, a) | None => f end.

(** of the first announce *)
Definition request_form (requestCompactPeerAddresses : bool) (info_hash : list Z) (peerId : string) (left : Z)
    (ip : option string) : list (string * string) :=
  let f := insert_all []
    [(BITTORRENT_TRACKER_REQUEST_INFO_HASH_HEADER, URLEncode (bytes_string info_hash) false true);
     (BITTORRENT_TRACKER_REQUEST_PEER_ID_HEADER, URLEncode peerId false true);
     (BITTORRENT_TRACKER_REQUEST_PORT_HEADER, pretty BITTORRENT_DEFAULT_PORT);
     (BITTORRENT_TRACKER_REQUEST_UPLOADED_HEADER, pretty 0);
     (BITTORRENT_TRACKER_REQUEST_DOWNLOADED_HEADER, pretty 0);
     (BITTORRENT_TRACKER_REQUEST_LEFT_HEADER, pretty left)] in
  let f := insert_if requestCompactPeerAddresses (BITTORRENT_TRACKER_REQUEST_COMPACT_HEADER, pretty 1) f in
  let f := form_insert f (BITTORRENT_TRACKER_REQUEST_EVENT_HEADER, BITTORRENT_TRACKER_REQUEST_EVENT_STARTED_STRING) in
  form_insert (insert_ip ip f)
    (BITTORRENT_TRACKER_REQUEST_NUMWANT_HEADER, pretty BITTORRENT_DEFAULT_TRACKER_REQUEST_NUMWANT_PEERS).

(** the event of a later one *)
Definition has_event (event_in : BitTorrent_Event) : bool :=
  match event_in with
  | BITTORRENT_EVENT_NO_MORE_PEERS | BITTORRENT_EVENT_TRACKER_REREQUEST_PEERS
  | BITTORRENT_EVENT_TRACKER_REDIRECTED => false
  | _ => true
  end.
Definition event_text (event_in : BitTorrent_Event) : string :=
  match event_in with
  | BITTORRENT_EVENT_CANCELLED => BITTORRENT_TRACKER_REQUEST_EVENT_STOPPED_STRING
  | _ => BITTORRENT_TRACKER_REQUEST_EVENT_COMPLETED_STRING
  end.
Definition notify_form (event_in : BitTorrent_Event) (info_hash : list Z) (peer_id_string : string)
    (uploaded_bytes_i downloaded_bytes_i left_bytes_i : Z) (ip : option string) (tracker_id_string : string) :
    list (string * string) :=
  let f := insert_all []
    [(BITTORRENT_TRACKER_REQUEST_INFO_HASH_HEADER, URLEncode (bytes_string info_hash) false true);
     (BITTORRENT_TRACKER_REQUEST_PEER_ID_HEADER, URLEncode peer_id_string false true);
     (BITTORRENT_TRACKER_REQUEST_PORT_HEADER, pretty BITTORRENT_DEFAULT_PORT);
     (BITTORRENT_TRACKER_REQUEST_UPLOADED_HEADER, pretty uploaded_bytes_i);
     (BITTORRENT_TRACKER_REQUEST_DOWNLOADED_HEADER, pretty downloaded_bytes_i);
     (BITTORRENT_TRACKER_REQUEST_LEFT_HEADER, pretty left_bytes_i);
     (BITTORRENT_TRACKER_REQUEST_COMPACT_HEADER, pretty 1)] in
  let f := insert_if (has_event event_in) (BITTORRENT_TRACKER_REQUEST_EVENT_HEADER, event_text event_in) f in
  insert_all (insert_ip ip f)
    [(BITTORRENT_TRACKER_REQUEST_NUMWANT_HEADER, pretty BITTORRENT_DEFAULT_TRACKER_REQUEST_NUMWANT_PEERS);
     (BITTORRENT_TRACKER_REQUEST_TRACKERID_HEADER, tracker_id_string)].

(** ** The records *)
Section Records.
(** where [std::unordered_map::insert ()] puts a pair is up to the library; the agent is of the configuration of the
    build; [getAddress ()] asks for the name of an address *)
Context (insert : list (string * string) → string * string → list (string * string)) (user_agent : string).
Context (getAddress : string → string).
Definition insert_agent (hs : list (string * string)) : list (string * string) :=
  if decide (user_agent = "") then hs else insert hs (HTTP_PRT_HEADER_AGENT_STRING, user_agent).
Definition get_record (URI : string) (form headers : list (string * string)) : HTTP_Record :=
  MkRecord form headers HTTP_METHOD_GET "" Status.HTTP_STATUS_INVALID URI HTTP_VERSION_1_1.
Definition host_name (host_name_string : string) : string :=
  if matchIPv4Address host_name_string then
    let host_name_string_2 := getAddress host_name_string in
    if decide (host_name_string_2 = "") then host_name_string else host_name_string_2
  else host_name_string.
Definition deflate : string := "gzip;q=1.0, deflate, identity".

Definition request_record (URI_string host_name_string : string) (f : list (string * string)) : HTTP_Record :=
  get_record URI_string f
    (insert_agent (foldl insert []
       [(HTTP_PRT_HEADER_HOST_STRING, host_name host_name_string); (HTTP_PRT_HEADER_ACCEPT_STRING, "*/*");
        (HTTP_PRT_HEADER_ACCEPT_ENCODING_STRING, "identity;q=1.0")])).
Definition notify_record (tracker_base_uri tracker_host : string) (f : list (string * string)) : HTTP_Record :=
  get_record tracker_base_uri f
    (foldl insert (insert_agent [])
       [(HTTP_PRT_HEADER_HOST_STRING, tracker_host); (HTTP_PRT_HEADER_ACCEPT_STRING, "*/*");
        (HTTP_PRT_HEADER_ACCEPT_ENCODING_STRING, deflate)]).
Definition redirected_record (URI_string host_name_string : string) : HTTP_Record :=
  get_record URI_string []
    (foldl insert (insert_agent [])
       [(HTTP_PRT_HEADER_HOST_STRING, host_name host_name_string); (HTTP_PRT_HEADER_ACCEPT_STRING, "*/*");
        (HTTP_PRT_HEADER_ACCEPT_ENCODING_STRING, deflate)]).
Definition scrape_record (URI_string host_name_string : string) (info_hash : list Z) : HTTP_Record :=
  get_record (AnnounceURLToScrapeURL URI_string)
    [(BITTORRENT_TRACKER_REQUEST_INFO_HASH_HEADER, URLEncode (bytes_string info_hash) false true)]
    (foldl insert (insert_agent [])
       [(HTTP_PRT_HEADER_HOST_STRING, host_name_string); (HTTP_PRT_HEADER_ACCEPT_STRING, "*/*");
        (HTTP_PRT_HEADER_ACCEPT_ENCODING_STRING, deflate)]).
End Records.

(** the address that the form has, unless it is that of any *)
Definition external_ip {A} `{InetAddr A} (is_any : A → bool) (externalIPAddress : A) : outcome (option string) :=
  if is_any externalIPAddress then Ok None else Some <$> IPAddressToString externalIPAddress true false.

(** ** What a tracker reads *)
(** a request line is a method, a target and a version; the fields of the target are behind a question mark *)
Definition read_target (l : string) : option (string * list (string * string)) :=
  '(_, t) ← cut_at " " l; '(u, _) ← cut_at " " t;
  Some (match cut_at "?" u with Some (p, q) => (p, read_form (String.length q) q) | None => (u, []) end).
Fixpoint field (k : string) (f : list (string * string)) : option string :=
  match f with [] => None | p :: f' => if decide (p.1 = k) then Some p.2 else field k f' end.
(** the octets of a field, percent-decoded *)
Definition field_octets (k : string) (f : list (string * string)) : outcome (option (list Z)) :=
  match field k f with Some v => Some ∘ string_bytes <$> URLDecode v | None => Ok None end.

(** no character that ends a field, a target or a line *)
Definition plain_char (c : ascii) : bool := negb (existsb (Ascii.eqb c) ["&"; " "; CR]%char).
Definition plain : string → bool := string_all plain_char.
Definition bare_char (c : ascii) : bool := negb (existsb (Ascii.eqb c) ["?"; " "; CR]%char).
(** a path without a query *)
Definition bare : string → bool := string_all bare_char.

Lemma plain_no x s : existsb (Ascii.eqb x) ["&"; " "; CR]%char = true → plain s = true → no_char x s = true.
Proof.
  intros Hx. apply string_all_impl. intros c. unfold plain_char. destruct (Ascii.eqb c x) eqn:E.
  - apply Ascii.eqb_eq in E as ->. by rewrite Hx.
  - apply implb_true_r.
Qed.
Lemma bare_no x s : existsb (Ascii.eqb x) ["?"; " "; CR]%char = true → bare s = true → no_char x s = true.
Proof.
  intros Hx. apply string_all_impl. intros c. unfold bare_char. destruct (Ascii.eqb c x) eqn:E.
  - apply Ascii.eqb_eq in E as ->. by rewrite Hx.
  - apply implb_true_r.
Qed.
Lemma encoded_plain s all up : plain (URLEncode s all up) = true.
Proof.
  apply (string_all_impl url_char); [|by apply URLEncode_safe]. apply all_chars_forall. by vm_compute.
Qed.
Lemma digits_plain n : 0 <= n → plain (pretty n) = true.
Proof.
  intros Hn. destruct (pretty_digits n Hn) as (Hd & _ & _).
  apply (string_all_impl isdigit); [|exact Hd]. apply all_chars_forall. by vm_compute.
Qed.

Definition pair_plain (p : string * string) : bool :=
  negb (bool_decide (p.1 = "")) && no_char "=" p.1 && plain p.1 && plain p.2.
Lemma pair_plain_ok p : pair_plain p = true → pair_ok p = true.
Proof.
  unfold pair_plain, pair_ok. rewrite !andb_true_iff. intros [[[? ?] ?] ?].
  by split_and!; [..|apply (plain_no "&")|apply (plain_no "&")].
Qed.
Lemma no_char_erase_last x s : no_char x s = true → no_char x (erase_last s) = true.
Proof.
  induction s as [|c s IH]; [done|]. cbn. intros [Hc Hs]%andb_true_iff. destruct s as [|d s]; [done|].
  cbn [no_char string_all]. rewrite Hc. by apply IH.
Qed.
Lemma query_no x f :
  x = " "%char ∨ x = CR → Forall (λ p, pair_plain p = true) f → no_char x (get_form f) = true.
Proof.
  intros Hx Hf. assert (existsb (Ascii.eqb x) ["&"; " "; CR]%char = true) as Hx' by by destruct Hx as [-> | ->].
  assert (∀ d, d ∈ ["?"; "="; "&"]%char → no_char x (String d "") = true) as Hd.
  { intros d Hd. apply list_elem_of_In in Hd. by destruct Hx as [-> | ->], Hd as [<-|[<-|[<-|[]]]]. }
  unfold get_form. destruct (decide (f = [])); [done|]. rewrite no_char_app, Hd by set_solver.
  apply no_char_erase_last. clear n. induction Hf as [|p f Hp Hf IH]; [done|].
  change (concat (get_pair <$> p :: f)) with (get_pair p +:+ concat (get_pair <$> f)).
  rewrite no_char_app, IH, andb_true_r. unfold get_pair. unfold pair_plain in Hp. rewrite !andb_true_iff in Hp.
  destruct Hp as [[_ Hk] Hv]. by rewrite !no_char_app, !Hd, (plain_no x p.1), (plain_no x p.2) by set_solver.
Qed.

Lemma length_erase_last s : (String.length s <= S (String.length (erase_last s)))%nat.
Proof. induction s as [|c s IH]; [cbn; lia|]. destruct s as [|d s]; [cbn; lia|]. cbn [erase_last String.length] in *. lia. Qed.
Lemma form_length f : (length f <= String.length (erase_last (concat (get_pair <$> f))))%nat.
Proof.
  pose proof (length_erase_last (concat (get_pair <$> f))) as He.
  assert (2 * length f <= String.length (concat (get_pair <$> f)))%nat as Hl; [|destruct f; cbn [length] in *; lia].
  clear He. induction f as [|p f IH]; [done|].
  change (concat (get_pair <$> p :: f)) with (get_pair p +:+ concat (get_pair <$> f)).
  unfold get_pair at 1. rewrite !string_length_app. cbn [length String.length]. lia.
Qed.
(** a request with a form of such fields, to a path, is read as the path and the form *)
Lemma target_read URI f hs :
  bare URI = true → f ≠ [] → Forall (λ p, pair_plain p = true) f →
  read_target (start_line (get_record URI f hs)) = Some (URI, f) ∧
  no_char CR (start_line (get_record URI f hs)) = true.
Proof.
  intros Hu Hne Hf.
  assert (start_line (get_record URI f hs) = "GET" +:+ String " " ((URI +:+ get_form f) +:+ String " " "HTTP/1.1")) as ->.
  { unfold start_line, request_line, get_record. cbn. by rewrite string_app_assoc. }
  split.
  - unfold read_target. rewrite cut_at_app by done. cbn [mbind option_bind].
    rewrite cut_at_app by (rewrite no_char_app, (bare_no " " URI) by done; apply query_no; auto). cbn [mbind option_bind].
    unfold get_form. rewrite decide_False by done.
    change ("?" +:+ ?s) with (String "?" s). rewrite cut_at_app by by apply bare_no.
    do 2 f_equal. destruct (forms_read f (String.length (erase_last (concat (get_pair <$> f)))) Hne) as [(q & Hq & Hr) _].
    + eapply Forall_impl; [exact Hf|]. intros p. apply pair_plain_ok.
    + apply form_length.
    + unfold get_form in Hq. rewrite decide_False in Hq by done. autorewrite with str in Hq. by injection Hq as <-.
  - change ("GET" +:+ String " " ?s) with ("GET " +:+ s).
    rewrite !no_char_app, (bare_no CR URI), query_no by auto. done.
Qed.

Lemma string_bytes_string bs : Forall (λ z, 0 <= z < 256) bs → string_bytes (bytes_string bs) = bs.
Proof.
  unfold string_bytes, bytes_string. rewrite String.list_ascii_of_string_of_list_ascii, <- list_fmap_compose.
  induction 1 as [|z bs Hz _ IH]; [done|]. cbn. by rewrite code_chr, IH.
Qed.
Lemma encoded_octets k f bs :
  field k f = Some (URLEncode (bytes_string bs) false true) → Forall (λ z, 0 <= z < 256) bs →
  field_octets k f = Ok (Some bs).
Proof. intros Hk Hbs. unfold field_octets. rewrite Hk, URLDecode_URLEncode. cbn. by rewrite string_bytes_string. Qed.
Lemma encoded_text k f s :
  field k f = Some (URLEncode s false true) → field_octets k f = Ok (Some (string_bytes s)).
Proof. intros Hk. unfold field_octets. by rewrite Hk, URLDecode_URLEncode. Qed.

(** the forms, in the order of their keys *)
Lemma request_form_fields compact info_hash peerId left ip :
  request_form compact info_hash peerId left ip =
  (if compact then [("compact", "1")] else []) ++
  [("downloaded", "0"); ("event", "started"); ("info_hash", URLEncode (bytes_string info_hash) false true)] ++
  (match ip with Some a => [("ip", a)] | None => [] end) ++
  [("left", pretty left); ("numwant", "50"); ("peer_id", URLEncode peerId false true); ("port", "6881"); ("uploaded", "0")].
Proof. by destruct compact, ip. Qed.
Lemma notify_form_fields e info_hash peerId uploaded downloaded left ip id :
  notify_form e info_hash peerId uploaded downloaded left ip id =
  [("compact", "1"); ("downloaded", pretty downloaded)] ++
  (if has_event e then [("event", event_text e)] else []) ++
  [("info_hash", URLEncode (bytes_string info_hash) false true)] ++
  (match ip with Some a => [("ip", a)] | None => [] end) ++
  [("left", pretty left); ("numwant", "50"); ("peer_id", URLEncode peerId false true); ("port", "6881");
   ("trackerid", id); ("uploaded", pretty uploaded)].
Proof. by destruct e, ip. Qed.
Lemma pair_plain_value k v : pair_plain (k, "") = true → plain v = true → pair_plain (k, v) = true.
Proof. unfold pair_plain. cbn [fst snd]. rewrite !andb_true_iff. by intros [[[-> ->] ->] _] ->. Qed.
Lemma request_form_plain compact info_hash peerId left ip :
  0 <= left → from_option plain true ip = true →
  Forall (λ p, pair_plain p = true) (request_form compact info_hash peerId left ip).
Proof.
  intros Hl Hip. rewrite request_form_fields. repeat (apply Forall_app; split); [by destruct compact; repeat constructor| | |].
  - repeat constructor; (apply pair_plain_value; [done|]); try done; apply encoded_plain.
  - destruct ip; [|done]. constructor; [by apply pair_plain_value|done].
  - repeat constructor; (apply pair_plain_value; [done|]); try done; [by apply digits_plain|apply encoded_plain].
Qed.
Lemma notify_form_plain e info_hash peerId uploaded downloaded left ip id :
  0 <= uploaded → 0 <= downloaded → 0 <= left → from_option plain true ip = true → plain id = true →
  Forall (λ p, pair_plain p = true) (notify_form e info_hash peerId uploaded downloaded left ip id).
Proof.
  intros Hu Hd Hl Hip Hid. rewrite notify_form_fields. repeat (apply Forall_app; split).
  - repeat constructor. apply pair_plain_value; [done|by apply digits_plain].
  - by destruct e; repeat constructor.
  - repeat constructor. apply pair_plain_value; [done|apply encoded_plain].
  - destruct ip; [|done]. constructor; [by apply pair_plain_value|done].
  - repeat constructor; (apply pair_plain_value; [done|]); try done; (by apply digits_plain) || apply encoded_plain.
Qed.

Section Announced.
Context (same : string → string → bool) (insert : list (string * string) → string * string → list (string * string)).
Context (user_agent : string) (getAddress : string → string) {B : Type} `{WritableBlock B}.

(** what the streamer writes for such a request *)
Lemma get_read URI f hs (b : B) :
  bare URI = true → f ≠ [] → Forall (λ p, pair_plain p = true) f → Forall (λ h, header_ok h = true) hs →
  mb_bytes b = [] → zlen (string_bytes (buffer same insert (get_record URI f hs))) <= mb_space b →
  ∃ b' l, handleDataMessage same insert (get_record URI f hs) b = Ok (Some b', get_record URI f hs) ∧
    read_message (bytes_string (mb_bytes b')) = Some (l, sent_headers true hs, "") ∧
    read_target l = Some (URI, f).
Proof.
  intros Hu Hne Hf Hhs Hb Hfit. destruct (target_read URI f hs Hu Hne Hf) as [Ht Hcr].
  destruct (message_text_read same insert (get_record URI f hs) b Hcr Hhs Hb) as (b' & E & Er).
  { change (content _) with "". by rewrite string_app_nil_r. }
  by exists b', (start_line (get_record URI f hs)).
Qed.

(** C8: what the first announce says is what a tracker reads.  From the octets that the streamer writes for the
    request, a tracker reads the path of the announce URL, and in its query the 20 octets of the info hash, whatever
    they are, and the id of the peer, both percent-decoded; the port, the number of bytes that are left, the start
    of the download, the address of the client when there is one, and whether the peers are asked for in the
    compact form; when the path has no query of its own, and the header fields have no line breaks. *)
Theorem announce_read URI host compact info_hash peerId left ip (b : B)
    (r := request_record insert user_agent getAddress URI host (request_form compact info_hash peerId left ip))
    (Hu : bare URI = true) (Hhash : Forall (λ z, 0 <= z < 256) info_hash) (Hl : 0 <= left)
    (Hip : from_option plain true ip = true) (Hhs : Forall (λ h, header_ok h = true) (headers r))
    (Hb : mb_bytes b = []) (Hfit : zlen (string_bytes (buffer same insert r)) <= mb_space b) :
  ∃ b' l f, handleDataMessage same insert r b = Ok (Some b', r) ∧
    read_message (bytes_string (mb_bytes b')) = Some (l, sent_headers true (headers r), "") ∧
    read_target l = Some (URI, f) ∧
    field_octets "info_hash" f = Ok (Some info_hash) ∧ field_octets "peer_id" f = Ok (Some (string_bytes peerId)) ∧
    field "port" f = Some "6881" ∧ field "left" f = Some (pretty left) ∧ field "event" f = Some "started" ∧
    field "ip" f = ip ∧ field "compact" f = if compact then Some "1" else None.
Proof.
  destruct (get_read URI (request_form compact info_hash peerId left ip) (headers r) b) as (b' & l & Hw & Hr & Ht);
    [done|by rewrite request_form_fields; destruct compact|by apply request_form_plain|done..|].
  exists b', l, (request_form compact info_hash peerId left ip). split_and!; [exact Hw|exact Hr|exact Ht|..].
  - apply encoded_octets; [|done]. rewrite request_form_fields. by destruct compact.
  - apply encoded_text. rewrite request_form_fields. by destruct compact, ip.
  - rewrite request_form_fields. by destruct compact, ip.
  - rewrite request_form_fields. by destruct compact, ip.
  - rewrite request_form_fields. by destruct compact.
  - rewrite request_form_fields. by destruct compact, ip.
  - rewrite request_form_fields. by destruct compact, ip.
Qed.

(** The announces that follow: with the event of the session, or none when it asks for peers, and the id that the
    tracker has given, which must not have characters that end a field, as it is not encoded. *)
Theorem notification_read e URI host info_hash peerId uploaded downloaded left ip id (b : B)
    (r := notify_record insert user_agent URI host (notify_form e info_hash peerId uploaded downloaded left ip id)) :
  bare URI = true → Forall (λ z, 0 <= z < 256) info_hash → 0 <= uploaded → 0 <= downloaded → 0 <= left →
  from_option plain true ip = true → plain id = true → Forall (λ h, header_ok h = true) (headers r) →
  mb_bytes b = [] → zlen (string_bytes (buffer same insert r)) <= mb_space b →
  ∃ b' l f, handleDataMessage same insert r b = Ok (Some b', r) ∧
    read_message (bytes_string (mb_bytes b')) = Some (l, sent_headers true (headers r), "") ∧
    read_target l = Some (URI, f) ∧
    field_octets "info_hash" f = Ok (Some info_hash) ∧ field_octets "peer_id" f = Ok (Some (string_bytes peerId)) ∧
    field "downloaded" f = Some (pretty downloaded) ∧ field "left" f = Some (pretty left) ∧
    field "event" f = (if has_event e then Some (event_text e) else None) ∧ field "trackerid" f = Some id.
Proof.
  intros Hu Hhash Hup Hd Hl Hip Hid Hhs Hb Hfit.
  destruct (get_read URI (notify_form e info_hash peerId uploaded downloaded left ip id) (headers r) b)
    as (b' & l & Hw & Hr & Ht); [done|by rewrite notify_form_fields|by apply notify_form_plain|done..|].
  exists b', l, (notify_form e info_hash peerId uploaded downloaded left ip id). split_and!; [exact Hw|exact Hr|exact Ht|..].
  - apply encoded_octets; [|done]. rewrite notify_form_fields. by destruct e.
  - apply encoded_text. rewrite notify_form_fields. by destruct e, ip.
  - by rewrite notify_form_fields.
  - rewrite notify_form_fields. by destruct e, ip.
  - rewrite notify_form_fields. by destruct e, ip.
  - rewrite notify_form_fields. by destruct e, ip.
Qed.
End Announced.

(** ** Concrete announces *)
Definition sample_hash : list Z := [0; 38; 61; 32; 255; 97; 98; 99; 1; 2; 3; 4; 5; 6; 7; 8; 9; 10; 11; 12].
Definition append {A} (hs : list A) (p : A) : list A := hs ++ [p].
Definition sample_announce (URI : string) : HTTP_Record :=
  request_record append "ACENetwork/1" (λ _, "") URI "tracker.example"
    (request_form true sample_hash "-LN0001-abc&" 1000 (Some "10.0.0.1")).
Lemma announce_read_witness :
  bare "/announce" = true ∧
  ∃ b' l f, handleDataMessage exact append (sample_announce "/announce") ([], 4096%N) = Ok (Some b', sample_announce "/announce") ∧
    read_message (bytes_string (mb_bytes b')) = Some (l, sent_headers true (headers (sample_announce "/announce")), "") ∧
    read_target l = Some ("/announce", f) ∧
    field_octets "info_hash" f = Ok (Some sample_hash) ∧
    field_octets "peer_id" f = Ok (Some (string_bytes "-LN0001-abc&")) ∧
    field "port" f = Some "6881" ∧ field "left" f = Some (pretty 1000) ∧ field "event" f = Some "started" ∧
    field "ip" f = Some "10.0.0.1" ∧ field "compact" f = Some "1".
Proof.
  split; [done|].
  exact (announce_read exact append "ACENetwork/1" (λ _, "") "/announce" "tracker.example" true sample_hash "-LN0001-abc&" 1000
    (Some "10.0.0.1") (([], 4096%N) : list Z * N) ltac:(done) ltac:(repeat constructor; lia) ltac:(lia) ltac:(done)
    ltac:(repeat constructor) ltac:(done) ltac:(by vm_compute)).
Defined.
(** The query of a private tracker's URL is not told apart: the form is put behind a second question mark, and becomes
    a part of its last field. *)
Example query_twice :
  (x ← read_target (start_line (sample_announce "/announce?passkey=1")); field "passkey" x.2) = Some "1?compact=1".
Proof. by vm_compute. Qed.
(** The id of a tracker is not encoded: it may end its field, and begin others. *)
Example id_not_encoded :
  (x ← read_target (start_line (notify_record append "" "/announce" "a" (notify_form BITTORRENT_EVENT_NO_MORE_PEERS
       sample_hash "-LN" 0 0 0 None "x&y"))); field "trackerid" x.2) = Some "x".
Proof. by vm_compute. Qed.
Lemma notification_read_witness :
  let r := notify_record append "ACENetwork/1" "/announce" "10.0.0.9"
             (notify_form BITTORRENT_EVENT_CANCELLED sample_hash "-LN" 0 10 20 None "x") in
  ∃ b' l f, handleDataMessage exact append r ([], 4096%N) = Ok (Some b', r) ∧
    read_message (bytes_string (mb_bytes b')) = Some (l, sent_headers true (headers r), "") ∧
    read_target l = Some ("/announce", f) ∧
    field_octets "info_hash" f = Ok (Some sample_hash) ∧ field_octets "peer_id" f = Ok (Some (string_bytes "-LN")) ∧
    field "downloaded" f = Some "10" ∧ field "left" f = Some "20" ∧ field "event" f = Some "stopped" ∧
    field "trackerid" f = Some "x".
Proof.
  exact (notification_read exact append "ACENetwork/1" BITTORRENT_EVENT_CANCELLED "/announce" "10.0.0.9" sample_hash "-LN" 0 10 20
    None "x" (([], 4096%N) : list Z * N) ltac:(done) ltac:(repeat constructor; lia) ltac:(lia) ltac:(lia) ltac:(lia) ltac:(done)
    ltac:(done) ltac:(repeat constructor) ltac:(done) ltac:(by vm_compute)).
Defined.
