(* ===== verification/BitTorrentControl.v ===== *)
(** * The controller of the sessions (bittorrent_control.inl)

    The sessions of the torrents that have been requested, by the base name of the metainfo file;
    the requests, the events of the sessions, which a thread of the controller handles in the order in
    which they have been queued, and what is sent to the trackers.  Each operation runs to its end. *)
From S2P Require Import Prelude Chars MessageBlock Platform InetAddr AddressTools BitTorrentPieces BitTorrentFiles.
From S2P Require Import HttpTools HttpUrls BitTorrentSession BitTorrentAnnounce.

Definition BITTORRENT_METAINFO_ANNOUNCE_KEY := "announce".

Section Control.
Context {A B FS E : Type} `{InetAddr A} `{MessageBlock B} `{FileSystem FS} `{Bencoding E}.

(** BitTorrent_SessionContext_T, with the part of the session's state that the controller uses, beside [session_] *)
Record context := Context_ {
  metaInfo_ : list (string * E);
  session_ : session B FS;
  peerId : string;
  trackerAddress : A;
  trackerBaseURI : string;
  trackerId : string;
  key : string;
  complete : bool
}.
(** struct BitTorrent_Control_Event *)
Record event := Event { type : BitTorrent_Event; event_file : string; event_data : string }.
(** what the controller does to the outside: a connection to a tracker is opened (or tried to be), a request is sent on
    a connection, the subscriber is notified, a connection is aborted, a session is closed (and waited for), the
    threads that wait are awakened *)
Inductive effect :=
  | ConnectTracker (a : A)
  | SendRequest (id : Z) (r : HTTP_Record)
  | SubscriberComplete (cancelled : bool)
  | SubscriberFinalize
  | AbortTracker (id : Z)
  | CloseSession (label : string) (wait : bool)
  | StopThread
  | Awaken.
(** [sessions_], the queue of the task, and what has been done *)
Record control := Control {
  sessions_ : gmap string context;
  queue : list event;
  effects : list effect
}.
Implicit Types (c : control) (x : context) (label : string).

Definition emit (e : effect) c : control := Control (sessions_ c) (queue c) (effects c ++ [e]).
Definition set_context label x c : control := Control (<[label := x]> (sessions_ c)) (queue c) (effects c).
Definition erase_session label c : control := Control (delete label (sessions_ c)) (queue c) (effects c).
Definition set_complete x : context :=
  Context_ (metaInfo_ x) (session_ x) (peerId x) (trackerAddress x) (trackerBaseURI x) (trackerId x) (key x) true.
Definition set_tracker_address (a : A) (URI : string) x : context :=
  Context_ (metaInfo_ x) (session_ x) (peerId x) a URI (trackerId x) (key x) (complete x).
Definition set_key (k : string) x : context :=
  Context_ (metaInfo_ x) (session_ x) (peerId x) (trackerAddress x) (trackerBaseURI x) (trackerId x) k (complete x).
Definition set_session (s : session B FS) x : context :=
  Context_ (metaInfo_ x) s (peerId x) (trackerAddress x) (trackerBaseURI x) (trackerId x) (key x) (complete x).

(** What is outside: the connection that is there after [trackerConnect ()] to an address, whether that of an id is
    found, whether [send ()] works on it, whether the queue takes an event, the session behind its [wait ()], and the
    functions of other libraries *)
Record environment := Environment {
  connected : A → option Z;
  get_connection : Z → bool;
  send_works : Z → bool;
  put_works : bool;
  session_wait : session B FS → session B FS;
  getAddress : string → string;
  generateKey : string
}.
Implicit Types (env : environment).

(** the base configuration of the sessions *)
Context (requestCompactPeerAddresses subscriber : bool) (externalIPAddress : A) (is_any : A → bool).
Context (insert : list (string * string) → string * string → list (string * string)) (user_agent : string).
Context (SHA1 : list Z → list Z) (file_basename : string → string).
Context (set : Z → string → A → A * bool) (set_any : Z → A → A * bool).

(** the connection, unless there is none: that of the session, or else one that the session is told to open; the
    message, which is new, is allocated sooner or later *)
Definition getTrackerConnectionAndMessage env x c : control * option Z :=
  let tracker_connection_id := trackerConnectionId (session_ x) in
  if tracker_connection_id =? 0 then
    (emit (ConnectTracker (trackerAddress x)) c, connected env (trackerAddress x))
  else (c, if get_connection env tracker_connection_id then Some tracker_connection_id else None).
(** [send ()], which may throw *)
Definition send env (id : Z) (r : HTTP_Record) c : control :=
  if send_works env id then emit (SendRequest id r) c else c.

(** ** The announces of events *)
Definition notifyTracker env (metaInfoFileName_in : string) (event_in : BitTorrent_Event) c : outcome control :=
  match sessions_ c !! metaInfoFileName_in with
  | None => Ok c
  | Some x =>
      let downloaded_bytes_i := receivedBytes (pieces (session_ x)) in
      length_i ← MetaInfoToLength (metaInfo_ x);
      let left_bytes_i := length_i -u downloaded_bytes_i in
      let '(c, connection) := getTrackerConnectionAndMessage env x c in
      match connection with
      | None => Ok c
      | Some id =>
          info_hash ← MetaInfoToInfoHash SHA1 (metaInfo_ x);
          ip ← external_ip is_any externalIPAddress;
          host ← IPAddressToString (trackerAddress x) true true;
          Ok (send env id
                (notify_record insert user_agent (trackerBaseURI x) host
                   (notify_form event_in info_hash (peerId x) 0 downloaded_bytes_i left_bytes_i ip (trackerId x))) c)
      end
  end.

(** [notify ()]: the event is queued, or it is lost *)
Definition notify env (metaInfoFileName_in : string) (event_in : BitTorrent_Event) (optionalData_in : string) c : control :=
  if put_works env then
    Control (sessions_ c) (queue c ++ [Event event_in metaInfoFileName_in optionalData_in]) (effects c)
  else c.

(** the request at the address that a tracker has been moved to *)
Definition requestRedirected env label (redirectedURL_in : string) x c : outcome control :=
  p ← parseURL set set_any redirectedURL_in inet_any;
  if negb (result p) then Ok c
  else
    URI ← stripURI (URI_out p);
    let a := stringToIPAddress (hostName_out p)
               (if useSSL_out p then HTTPS_DEFAULT_SERVER_PORT else HTTP_DEFAULT_SERVER_PORT) in
    let x := set_tracker_address a URI x in
    let c := set_context label x c in
    let '(c, connection) := getTrackerConnectionAndMessage env x c in
    match connection with
    | None => Ok c
    | Some id => Ok (send env id (redirected_record insert user_agent (getAddress env) (URI_out p) (hostName_out p)) c)
    end.

(** ** The events of the sessions *)
Definition handle env (event_inout : event) c : outcome control :=
  match type event_inout with
  | BITTORRENT_EVENT_CANCELLED | BITTORRENT_EVENT_COMPLETE =>
      c ← notifyTracker env (event_file event_inout) (type event_inout) c;
      match sessions_ c !! event_file event_inout with
      | None => Abort
      | Some x =>
          let c := set_context (event_file event_inout) (set_complete x) c in
          Ok (if subscriber then emit SubscriberFinalize c else c)
      end
  | BITTORRENT_EVENT_NO_MORE_PEERS => notifyTracker env (event_file event_inout) BITTORRENT_EVENT_NO_MORE_PEERS c
  | BITTORRENT_EVENT_TRACKER_REDIRECTED =>
      ace_assert (negb (bool_decide (event_data event_inout = "")));;
      match sessions_ c !! event_file event_inout with
      | None => Abort
      | Some x =>
          let id := trackerConnectionId (session_ x) in
          let c := if get_connection env id then emit (AbortTracker id) c else c in
          let x := set_session (session_wait env (session_ x)) x in
          requestRedirected env (event_file event_inout) (event_data event_inout) x
            (set_context (event_file event_inout) x c)
      end
  | _ => Ok c
  end.
(** the thread takes one event after the other *)
Fixpoint handle_all env (es : list event) c : outcome control :=
  match es with
  | [] => Ok c
  | e :: es' => c ← handle env e (Control (sessions_ c) es' (effects c)); handle_all env es' c
  end.

(** ** Requests *)
(** [stop ()] without waiting *)
Definition stop c : control :=
  emit StopThread
    (foldl (λ c p, emit (CloseSession p.1 false) c) c (map_to_list (sessions_ c))).
(** the label [error:]: the session that is in the map by now is erased *)
Definition request_error (remove_session : bool) label c : outcome control :=
  c ← (if remove_session then ace_assert (bool_decide (is_Some (sessions_ c !! label)));; Ok (erase_session label c)
       else Ok c);
  Ok (if bool_decide (sessions_ c = ∅) then stop c else c).

(** what [parseMetaInfoFile ()] makes of the file, and [initialize ()] of a session, with its id, are given *)
Context (parse_file : string → outcome (option (list (string * E)))).
Context (initialize_session : list (string * E) → outcome (session B FS * string * bool)).

(** the first announce of a session, from step 4 on; [false] is the jump to [error] *)
Definition announce_first env label (URI_string host_name_string : string) x c : outcome (control * bool) :=
  let '(c, connection) := getTrackerConnectionAndMessage env x c in
  match connection with
  | None => Ok (c, false)
  | Some id =>
      info_hash ← MetaInfoToInfoHash SHA1 (metaInfo_ x);
      left ← MetaInfoToLength (metaInfo_ x);
      ip ← external_ip is_any externalIPAddress;
      let x := if decide (key x = "") then set_key (generateKey env) x else x in
      let c := set_context label x c in
      if send_works env id then
        Ok (emit (SendRequest id
              (request_record insert user_agent (getAddress env) URI_string host_name_string
                 (request_form requestCompactPeerAddresses info_hash (peerId x) left ip))) c, true)
      else Ok (c, false)
  end.
(** step 3: the address of the tracker *)
Definition request_tracker env label (m : list (string * E)) x c : outcome (control * bool) :=
  e ← expect (find_key BITTORRENT_METAINFO_ANNOUNCE_KEY m) BENCODING_TYPE_STRING;
  p ← parseURL set set_any (be_string e) inet_any;
  if negb (result p) then Ok (c, false)
  else
    let a := stringToIPAddress (hostName_out p)
               (if useSSL_out p then HTTPS_DEFAULT_SERVER_PORT else HTTP_DEFAULT_SERVER_PORT) in
    if is_any a then Ok (c, false)
    else
      let x := set_tracker_address a (URI_out p) x in
      let c := set_context label x c in
      missing ← isMissingPiece (pieces (session_ x));
      if negb (missing : bool) then
        Ok (notify env label BITTORRENT_EVENT_COMPLETE "" (if subscriber then emit (SubscriberComplete false) c else c), true)
      else announce_first env label (URI_out p) (hostName_out p) x c.
Definition request env (metaInfoFileName_in : string) c : outcome control :=
  let label := file_basename metaInfoFileName_in in
  m ← parse_file metaInfoFileName_in;
  match m with
  | None => request_error false label c
  | Some m =>
      ace_assert (bool_decide (sessions_ c !! label = None));;
      '(s, peerId, initialized) ← initialize_session m;
      let x := Context_ m s peerId inet_any "" "" "" false in
      let c := set_context label x c in
      '(c, sent) ← (if initialized : bool then request_tracker env label m x c else Ok (c, false));
      if sent : bool then Ok c else request_error true label c
  end.

(** ** The others *)
(** of the name as it is *)
Definition cancel (metaInfoFileName_in : string) c : control :=
  match sessions_ c !! metaInfoFileName_in with
  | None => c
  | Some _ =>
      let c := erase_session metaInfoFileName_in (emit (CloseSession metaInfoFileName_in true) c) in
      if bool_decide (sessions_ c = ∅) then emit Awaken c else c
  end.
(** of the base name *)
Definition get (metaInfoFileName_in : string) c : option (session B FS) :=
  session_ <$> sessions_ c !! file_basename metaInfoFileName_in.
End Control.
Arguments effect A : clear implicits.
Arguments context A B FS E : clear implicits.
Arguments control A B FS E : clear implicits.
Arguments environment A B FS : clear implicits.

(** ** What a request leaves *)
Section Properties.
Context {A B FS E : Type} `{InetAddr A} `{MessageBlock B} `{FileSystem FS} `{Bencoding E}.
Context (compact subscriber : bool) (externalIPAddress : A) (is_any : A → bool).
Context (insert : list (string * string) → string * string → list (string * string)) (user_agent : string).
Context (SHA1 : list Z → list Z) (file_basename : string → string).
Context (set : Z → string → A → A * bool) (set_any : Z → A → A * bool).
Context (parse_file : string → outcome (option (list (string * E)))).
Context (initialize_session : list (string * E) → outcome (session B FS * string * bool)).
Implicit Types (c : control A B FS E) (x : context A B FS E) (label : string) (env : environment A B FS).
#[local] Notation request := (request compact subscriber externalIPAddress is_any insert user_agent SHA1 file_basename
  set set_any parse_file initialize_session).
#[local] Notation request_tracker := (request_tracker compact subscriber externalIPAddress is_any insert user_agent SHA1
  set set_any).
#[local] Notation announce_first := (announce_first compact externalIPAddress is_any insert user_agent SHA1).
#[local] Notation notifyTracker := (notifyTracker externalIPAddress is_any insert user_agent SHA1).
#[local] Notation handle := (handle subscriber externalIPAddress is_any insert user_agent SHA1 set set_any).

(** the tracker of the metainfo: what the announce URL is parsed into is the address and the path of the session, and [p]
    has the name of the host *)
Definition tracker_of x (p : parsed A) : Prop :=
  (∃ e, expect (find_key BITTORRENT_METAINFO_ANNOUNCE_KEY (metaInfo_ x)) BENCODING_TYPE_STRING = Ok e ∧
        parseURL set set_any (be_string e) inet_any = Ok p) ∧
  result p = true ∧ trackerBaseURI x = URI_out p ∧ is_any (trackerAddress x) = false ∧
  trackerAddress x = stringToIPAddress (hostName_out p)
    (if useSSL_out p then HTTPS_DEFAULT_SERVER_PORT else HTTP_DEFAULT_SERVER_PORT).
(** the connection of a session to its tracker, and what is done to get it *)
Definition tracker_connection env x : option Z :=
  if trackerConnectionId (session_ x) =? 0 then connected env (trackerAddress x)
  else if get_connection env (trackerConnectionId (session_ x)) then Some (trackerConnectionId (session_ x)) else None.
Definition connection_opened x : list (effect A) :=
  if trackerConnectionId (session_ x) =? 0 then [ConnectTracker (trackerAddress x)] else [].

(** the announce has been sent: of this torrent, on the connection to its tracker, to the path in its URL *)
Definition announced env x c c' : Prop :=
  ∃ p id info_hash left ip,
    tracker_of x p ∧ isMissingPiece (pieces (session_ x)) = Ok true ∧
    tracker_connection env x = Some id ∧ send_works env id = true ∧
    MetaInfoToInfoHash SHA1 (metaInfo_ x) = Ok info_hash ∧ MetaInfoToLength (metaInfo_ x) = Ok left ∧
    external_ip is_any externalIPAddress = Ok ip ∧ queue c' = queue c ∧
    effects c' = effects c ++ connection_opened x ++
      [SendRequest id (request_record insert user_agent (getAddress env) (URI_out p) (hostName_out p)
        (request_form compact info_hash (peerId x) left ip))].
(** there was nothing left to download: the completion is queued, if the queue takes it *)
Definition found_complete env label x c c' : Prop :=
  (∃ p, tracker_of x p) ∧ isMissingPiece (pieces (session_ x)) = Ok false ∧
  queue c' = queue c ++ (if put_works env then [Event BITTORRENT_EVENT_COMPLETE label ""] else []) ∧
  effects c' = effects c ++ (if subscriber then [SubscriberComplete false] else []).
(** what a request that fails may have done: it has opened the connection to the tracker of the torrent, which could not
    be found then, or on which the request could not be sent *)
Definition connection_left env (m : list (string * E)) (l : list (effect A)) : Prop :=
  l = [] ∨ ∃ x p, metaInfo_ x = m ∧ tracker_of x p ∧ l = connection_opened x ∧
    (tracker_connection env x = None ∨ ∃ id, tracker_connection env x = Some id ∧ send_works env id = false).

Lemma getTrackerConnectionAndMessage_spec env x c :
  getTrackerConnectionAndMessage env x c =
  (Control (sessions_ c) (queue c) (effects c ++ connection_opened x), tracker_connection env x).
Proof.
  unfold getTrackerConnectionAndMessage, connection_opened, tracker_connection, emit.
  destruct (_ =? 0); [done|]. by destruct c; cbn; rewrite app_nil_r.
Qed.
Lemma stop_empty c : sessions_ c = ∅ → stop c = emit StopThread c.
Proof. intros Hc. unfold stop. by rewrite Hc, map_to_list_empty. Qed.
(** The session of the label is all that the map of [c1] has more than that of [c]. *)
Lemma request_error_undone label x l c c1 c' :
  sessions_ c !! label = None → sessions_ c1 = <[label := x]> (sessions_ c) → queue c1 = queue c →
  effects c1 = effects c ++ l → request_error true label c1 = Ok c' →
  sessions_ c' = sessions_ c ∧ queue c' = queue c ∧
  effects c' = effects c ++ l ++ (if bool_decide (sessions_ c = ∅) then [StopThread] else []).
Proof.
  intros Hn Hs Hq He. unfold request_error. rewrite Hs, lookup_insert_eq, bool_decide_true by done.
  cbn [ace_assert mbind outcome_bind]. unfold erase_session. rewrite Hs, Hq, He. cbn [sessions_ queue effects].
  rewrite delete_insert_id by done. case_bool_decide as Hm; intros [= <-].
  - rewrite stop_empty by done. cbn. by rewrite (assoc_L (++)).
  - cbn. by rewrite app_nil_r.
Qed.
(** what is known after [announce_first] and [request_tracker] *)
Definition outcome_of env label (m : list (string * E)) c (r : control A B FS E * bool) : Prop :=
  let '(c', sent) := r in
  ∃ x, sessions_ c' = <[label := x]> (sessions_ c) ∧ metaInfo_ x = m ∧
    if sent : bool then announced env x c c' ∨ found_complete env label x c c'
    else queue c' = queue c ∧ ∃ l, effects c' = effects c ++ l ∧ connection_left env m l.
Lemma announce_first_spec env label p x c r :
  tracker_of x p → isMissingPiece (pieces (session_ x)) = Ok true → sessions_ c !! label = Some x →
  announce_first env label (URI_out p) (hostName_out p) x c = Ok r → outcome_of env label (metaInfo_ x) c r.
Proof.
  intros Hp Hm Hx. unfold announce_first. rewrite getTrackerConnectionAndMessage_spec.
  destruct (tracker_connection env x) as [id|] eqn:Ec.
  2: { intros [= <-]. exists x. cbn [sessions_ queue effects]. rewrite insert_id by done.
       split; [done|split; [done|split; [done|]]]. eexists. split; [done|]. right. exists x, p. auto. }
  destruct (MetaInfoToInfoHash SHA1 (metaInfo_ x)) as [h| |] eqn:Eh; [|done..]. cbn [mbind outcome_bind].
  destruct (MetaInfoToLength (metaInfo_ x)) as [n| |] eqn:En; [|done..]. cbn [mbind outcome_bind].
  destruct (external_ip is_any externalIPAddress) as [ip| |] eqn:Ei; [|done..]. cbn [mbind outcome_bind].
  set (x' := if decide (key x = "") then _ else x).
  assert (Hx' : metaInfo_ x' = metaInfo_ x ∧ peerId x' = peerId x ∧ session_ x' = session_ x ∧
    trackerAddress x' = trackerAddress x ∧ trackerBaseURI x' = trackerBaseURI x) by (unfold x'; by destruct (decide _)).
  destruct Hx' as (Hx1 & Hx2 & Hx3 & Hx4 & Hx5).
  destruct (send_works env id) eqn:Es; intros [= <-]; exists x'; (split; [done|split; [done|]]).
  - left. exists p, id, h, n, ip. unfold tracker_of, tracker_connection, connection_opened.
    cbn [effects emit set_context]. rewrite Hx1, Hx2, Hx3, Hx4, Hx5, <- (assoc_L (++)).
    split_and!; try done; apply Hp.
  - split; [done|]. eexists. split; [done|]. right. exists x, p. eauto 10.
Qed.
Lemma request_tracker_spec env label x c r :
  request_tracker env label (metaInfo_ x) x (set_context label x c) = Ok r → outcome_of env label (metaInfo_ x) c r.
Proof.
  assert (Hfail : outcome_of env label (metaInfo_ x) c (set_context label x c, false)).
  { exists x. split_and!; [done..|]. exists []. split; [by rewrite app_nil_r|by left]. }
  unfold request_tracker. destruct (expect _ _) as [e| |] eqn:Ee; [|done..]. cbn [mbind outcome_bind].
  destruct (parseURL _ _ _ _) as [p| |] eqn:Ep; [|done..]. cbn [mbind outcome_bind].
  destruct (result p) eqn:Er; [|by intros [= <-]]. cbn [negb].
  destruct (is_any _) eqn:Ea; [by intros [= <-]|]. set (x0 := set_tracker_address _ _ x).
  assert (Hp : tracker_of x0 p) by (split; [by exists e|done]).
  destruct (isMissingPiece _) as [b| |] eqn:Em; [|done..]. cbn [mbind outcome_bind]. destruct b; cbn [negb].
  - intros Ha. apply (announce_first_spec env label p x0) in Ha; [|done|done|apply lookup_insert_eq].
    destruct r as [c' sent]. destruct Ha as (x' & Hs & Hm & Ho). exists x'.
    cbn [sessions_ set_context] in Hs. rewrite !insert_insert_eq in Hs. done.
  - intros [= <-]. exists x0. split; [|split; [done|]].
    + unfold notify. destruct (put_works env), subscriber; cbn; by rewrite insert_insert_eq.
    + right. split; [by exists p|split; [done|]]. unfold notify.
      destruct (put_works env), subscriber; cbn; by rewrite ?app_nil_r.
Qed.

(** C9: what a request of a torrent leaves.  When [request] of a metainfo file returns, either the torrent has a session of
    its own, under the base name of the file, where there was none, the others are as they were, the address and the
    path of its tracker are those of the announce URL of the metainfo, and, when a piece is missing, its first announce
    has been sent on the connection of the session to this address (opened for it unless there was one), to the path and
    host of this URL, with the info hash and the length of this torrent; when no piece is missing, the subscriber has been
    told and its completion has been queued, if the queue takes it (put_works; otherwise it is lost).  Or the sessions
    and the queue are what they were before, nothing has been sent to any tracker, and the thread of the controller is
    stopped if there is no session; what such a request can leave is the connection to the tracker of its torrent, which it
    has opened or tried to open (connection_stays). *)
Theorem request_atomic env name c c' (Hr : request env name c = Ok c') :
  (∃ m x, parse_file name = Ok (Some m) ∧ sessions_ c !! file_basename name = None ∧
     metaInfo_ x = m ∧ sessions_ c' = <[file_basename name := x]> (sessions_ c) ∧
     (announced env x c c' ∨ found_complete env (file_basename name) x c c')) ∨
  (sessions_ c' = sessions_ c ∧ queue c' = queue c ∧
   ∃ l, effects c' = effects c ++ l ++ (if bool_decide (sessions_ c = ∅) then [StopThread] else []) ∧
     (l = [] ∨ ∃ m, parse_file name = Ok (Some m) ∧ connection_left env m l)).
Proof.
  revert Hr. unfold request. destruct (parse_file name) as [[m|]| |] eqn:Em; [| |done..]; cbn [mbind outcome_bind].
  2: { unfold request_error. cbn [mbind outcome_bind].
       intros [= <-]. right. case_bool_decide as Hs; [rewrite stop_empty by done|]; (split; [done|split; [done|]]);
         exists []; (split; [|by left]); [done|by rewrite !app_nil_r]. }
  case_bool_decide as Hn; [|done]. cbn [ace_assert mbind outcome_bind].
  destruct (initialize_session m) as [[[s id] ok]| |]; [|done..]. cbn [mbind outcome_bind].
  set (x := Context_ m s id inet_any "" "" "" false).
  destruct (if ok then _ else _) as [[c1 sent]| |] eqn:Et; [|done..]. cbn [mbind outcome_bind].
  assert (Ho : outcome_of env (file_basename name) m c (c1, sent)).
  { destruct ok; [by apply (request_tracker_spec env _ x)|]. injection Et as <- <-. exists x.
    split_and!; [done..|]. exists []. split; [by rewrite app_nil_r|by left]. }
  destruct Ho as (x' & Hs & Hm & Ho). destruct sent.
  - intros [= <-]. left. by exists m, x'.
  - intros Hr. right. destruct Ho as (Hq & l & Hl & Hc).
    destruct (request_error_undone _ _ _ _ _ _ Hn Hs Hq Hl Hr) as (? & ? & ?).
    split; [done|split; [done|]]. exists l. split; [done|]. right. by exists m.
Qed.
(** A torrent that has a session is not refused: an assertion fails. *)
Lemma request_again env name c m :
  parse_file name = Ok (Some m) → sessions_ c !! file_basename name ≠ None → request env name c = Abort.
Proof. intros Hm Hn. unfold request. rewrite Hm. cbn [mbind outcome_bind]. by rewrite bool_decide_false. Qed.

(** ** The events *)
(** what an event announces, when its session and a connection are there *)
Lemma notify_sent env label e x c id h n ip host :
  sessions_ c !! label = Some x → tracker_connection env x = Some id → send_works env id = true →
  MetaInfoToInfoHash SHA1 (metaInfo_ x) = Ok h → MetaInfoToLength (metaInfo_ x) = Ok n →
  external_ip is_any externalIPAddress = Ok ip → IPAddressToString (trackerAddress x) true true = Ok host →
  let received := receivedBytes (pieces (session_ x)) in
  notifyTracker env label e c = Ok (Control (sessions_ c) (queue c) (effects c ++ connection_opened x ++
    [SendRequest id (notify_record insert user_agent (trackerBaseURI x) host
       (notify_form e h (peerId x) 0 received (n -u received) ip (trackerId x)))])).
Proof.
  intros Hx Hc Hw Hh Hn Hi Ha. unfold notifyTracker, BitTorrentControl.notifyTracker. rewrite Hx, Hn. cbn [mbind outcome_bind].
  rewrite getTrackerConnectionAndMessage_spec, Hc, Hh. cbn [mbind outcome_bind]. rewrite Hi.
  cbn [mbind outcome_bind]. rewrite Ha. cbn [mbind outcome_bind].
  unfold send, emit. rewrite Hw. cbn. by rewrite (assoc_L (++)).
Qed.
(** The event of a torrent that is complete, or that has been given up: the tracker is told so, with the number of bytes
    that have been received and of those that are left, the session is complete, and the subscriber is told last. *)
Theorem finish_announced env label e x c id h n ip host :
  e = BITTORRENT_EVENT_CANCELLED ∨ e = BITTORRENT_EVENT_COMPLETE →
  sessions_ c !! label = Some x → tracker_connection env x = Some id → send_works env id = true →
  MetaInfoToInfoHash SHA1 (metaInfo_ x) = Ok h → MetaInfoToLength (metaInfo_ x) = Ok n →
  external_ip is_any externalIPAddress = Ok ip → IPAddressToString (trackerAddress x) true true = Ok host →
  ∃ r, handle env (Event e label "") c =
    Ok (Control (<[label := set_complete x]> (sessions_ c)) (queue c)
          (effects c ++ connection_opened x ++ [SendRequest id r] ++ (if subscriber then [SubscriberFinalize] else []))) ∧
    r = notify_record insert user_agent (trackerBaseURI x) host
          (notify_form e h (peerId x) 0 (receivedBytes (pieces (session_ x))) (n -u receivedBytes (pieces (session_ x)))
             ip (trackerId x)).
Proof.
  intros He Hx Hc Hw Hh Hn Hi Ha. eexists. split; [|done].
  pose proof (notify_sent env label e x c id h n ip host Hx Hc Hw Hh Hn Hi Ha) as Hs. cbv zeta in Hs.
  unfold handle, BitTorrentControl.handle. cbn [type event_file].
  destruct He as [-> | ->]; rewrite Hs; cbn [mbind outcome_bind sessions_ emit]; rewrite Hx;
    unfold emit, set_context; cbn [sessions_ queue effects];
    destruct subscriber; cbn [sessions_ queue effects app]; by rewrite <- ?(assoc_L (++)).
Qed.
(** The events that a session sends with the path of its file, as it does when a tracker gives it up, redirects it or
    has closed the connection, are not of a session, whose name is the base name: the program is aborted. *)
Theorem path_aborts env path location c :
  sessions_ c !! path = None →
  handle env (Event BITTORRENT_EVENT_CANCELLED path "") c = Abort ∧
  (location ≠ "" → handle env (Event BITTORRENT_EVENT_TRACKER_REDIRECTED path location) c = Abort).
Proof.
  intros Hn. split.
  - unfold handle, BitTorrentControl.handle, notifyTracker, BitTorrentControl.notifyTracker. cbn [type event_file].
    rewrite Hn. cbn [mbind outcome_bind]. by rewrite Hn.
  - intros Hl. unfold handle, BitTorrentControl.handle. cbn [type event_data event_file].
    rewrite bool_decide_false by done. cbn [negb ace_assert mbind outcome_bind]. by rewrite Hn.
Qed.

(** No event takes a session away: only [cancel ()] does, and it is what [wait ()] waits for. *)
Lemma notifyTracker_sessions env label e c c' : notifyTracker env label e c = Ok c' → sessions_ c' = sessions_ c.
Proof.
  unfold notifyTracker, BitTorrentControl.notifyTracker. destruct (sessions_ c !! label); [|by intros [= <-]].
  destruct (MetaInfoToLength _); [|done..]. cbn [mbind outcome_bind].
  rewrite getTrackerConnectionAndMessage_spec.
  destruct (tracker_connection _ _); [|by intros [= <-]].
  destruct (MetaInfoToInfoHash _ _); [|done..]. cbn [mbind outcome_bind].
  destruct (external_ip _ _); [|done..]. cbn [mbind outcome_bind].
  destruct (IPAddressToString _ _ _); [|done..]. intros [= <-]. unfold send. by destruct (send_works _ _).
Qed.
Lemma requestRedirected_sessions env label URL x c c' :
  requestRedirected insert user_agent set set_any env label URL x c = Ok c' → is_Some (sessions_ c !! label) →
  dom (sessions_ c') = dom (sessions_ c).
Proof.
  unfold requestRedirected. destruct (parseURL _ _ _ _) as [p| |]; [|done..]. cbn [mbind outcome_bind].
  destruct (result p); [|by intros [= <-]]. cbn [negb]. destruct (stripURI _); [|done..]. cbn [mbind outcome_bind].
  intros Hr Hl. assert (dom (sessions_ c') = dom (<[label := x]> (sessions_ c))) as ->.
  { revert Hr. rewrite getTrackerConnectionAndMessage_spec. destruct (tracker_connection _ _); intros [= <-]; unfold send; cbn;
      [destruct (send_works _ _)|]; cbn; by rewrite !dom_insert_L. }
  by rewrite dom_insert_lookup_L.
Qed.
Theorem handle_keeps env e c c' : handle env e c = Ok c' → dom (sessions_ c') = dom (sessions_ c).
Proof.
  assert (∀ l x c0, is_Some (sessions_ c0 !! l) → dom (sessions_ (set_context l x c0)) = dom (sessions_ c0)) as Hset.
  { intros l x c0 Hl. cbn. by rewrite dom_insert_lookup_L. }
  assert (∀ b ef c0, sessions_ (if b : bool then emit ef c0 else c0) = sessions_ c0) as Hemit by by intros [].
  unfold handle, BitTorrentControl.handle. destruct (type e); try (by intros [= <-]).
  1, 2: destruct (BitTorrentControl.notifyTracker _ _ _ _ _ _ _ _ _) as [c1| |] eqn:En; [|done..];
    apply notifyTracker_sessions in En; cbn [mbind outcome_bind];
    destruct (sessions_ c1 !! event_file e) as [x|] eqn:Ex; [|done]; intros [= <-]; rewrite Hemit, Hset, En by eauto; done.
  - intros Hn. by rewrite (notifyTracker_sessions _ _ _ _ _ Hn).
  - destruct (ace_assert _); [|done..]. cbn [mbind outcome_bind].
    destruct (sessions_ c !! event_file e) as [x|] eqn:Ex; [|done]. intros Hr.
    apply requestRedirected_sessions in Hr; [|cbn; rewrite lookup_insert_eq; eauto].
    by rewrite Hr, Hset, Hemit by (rewrite Hemit; eauto).
Qed.
End Properties.

(** ** A torrent of one piece, and its tracker *)
Definition sample_torrent : list (string * element) :=
  [("announce", BeString "http://10.0.0.9/announce");
   ("info", BeDictionary [("length", BeInteger 4); ("name", BeString "a"); ("piece length", BeInteger 4);
                          ("pieces", BeString (bytes_string (replicate 20 7)))])].
Definition sample_parse (name : string) : outcome (option (list (string * element))) :=
  Ok (if decide (name = "/tmp/a.torrent") then Some sample_torrent else None).
Definition sample_base (name : string) : string :=
  match split_last "/" name with Some (_, b) => b | None => name end.
Definition sample_session_of (loaded : bool) : session (list Z) plain_fs :=
  Session [] false false [Piece [] "p" [] 4 loaded] ∅ 0 (PlainFS ∅ []) [].
Definition sample_environment : environment inet_addr (list Z) plain_fs :=
  Environment (λ _, Some 7) (λ _, true) (λ _, true) true (λ s, s) (λ _, "") "key".
Definition any_address (a : inet_addr) : bool := match a with Addr4 0 0 0 0 _ => true | _ => false end.
Definition sample_set (p : Z) (h : string) (a : inet_addr) : inet_addr * bool := (default a (string_to_addr (h +:+ ":" +:+ pretty p) false), true).
Definition sample_request (loaded : bool) (name : string) : outcome (control inet_addr (list Z) plain_fs element) :=
  request true true (Addr4 0 0 0 0 0) any_address append "" (take 20) sample_base sample_set (λ _ a, (a, true)) sample_parse
    (λ _, Ok (sample_session_of loaded, "-LN", true)) sample_environment name (Control ∅ [] []).
Definition sample_handle :=
  handle_all (A := inet_addr) (B := list Z) (FS := plain_fs) (E := element) true (Addr4 0 0 0 0 0) any_address append "" (take 20)
    sample_set (λ _ a, (a, true)) sample_environment.
(** the events that a session has notified the controller of *)
Definition notified {B} (os : list (output B)) : list event :=
  omap (λ o, match o with NotifyController name e text => Some (Event e name text) | _ => None end) os.
Definition sample_configuration : configuration element := Configuration _ "/tmp/a.torrent" sample_torrent false false true.

Lemma request_atomic_witness :
  ∃ c', sample_request false "/tmp/a.torrent" = Ok c' ∧
    ((∃ m x, sample_parse "/tmp/a.torrent" = Ok (Some m) ∧ (∅ : gmap string (context inet_addr (list Z) plain_fs element)) !! "a.torrent" = None ∧
       metaInfo_ x = m ∧ sessions_ c' = <["a.torrent" := x]> ∅ ∧
       (announced true (Addr4 0 0 0 0 0) any_address append "" (take 20) sample_set (λ _ a, (a, true)) sample_environment x
          (Control ∅ [] []) c' ∨
        found_complete true any_address sample_set (λ _ a, (a, true)) sample_environment "a.torrent" x (Control ∅ [] []) c')) ∨
     (sessions_ c' = ∅ ∧ queue c' = [] ∧ ∃ l, effects c' = l ++ [StopThread] ∧
        (l = [] ∨ ∃ m, sample_parse "/tmp/a.torrent" = Ok (Some m) ∧
           connection_left any_address sample_set (λ _ a, (a, true)) sample_environment m l))).
Proof.
  destruct (sample_request false "/tmp/a.torrent") as [c'| |] eqn:E; [|by vm_compute in E..]. exists c'. split; [done|].
  exact (request_atomic true true (Addr4 0 0 0 0 0) any_address append "" (take 20) sample_base sample_set (λ _ a, (a, true))
    sample_parse (λ _, Ok (sample_session_of false, "-LN", true)) sample_environment "/tmp/a.torrent" (Control ∅ [] []) c' E).
Defined.
(** the announces of a torrent: its start, and its end when it is complete *)
Definition sent_events {A B FS E} (c : control A B FS E) : list (option string) :=
  omap (λ e, match e with SendRequest _ r => Some (field "event" (form r)) | _ => None end) (effects c).
Example started : sent_events <$> sample_request false "/tmp/a.torrent" = Ok [Some "started"].
Proof. by vm_compute. Qed.
(** A request that cannot be sent on the connection to the tracker: the session is erased (and deleted), the connection
    that has been opened for it stays. *)
Example connection_stays :
  effects <$> request true true (Addr4 0 0 0 0 0) any_address append "" (take 20) sample_base sample_set (λ _ a, (a, true))
    sample_parse (λ _, Ok (sample_session_of false, "-LN", true))
    (Environment (λ _ : inet_addr, Some 7) (λ _, true) (λ _, false) true (λ s, s) (λ _, "") "key")
    "/tmp/a.torrent" (Control ∅ [] []) =
  Ok [ConnectTracker (Addr4 10 0 0 9 80); StopThread].
Proof. by vm_compute. Qed.
(** The queue of the controller does not take the completion of a torrent that is there: it is lost. *)
Example completion_lost :
  queue <$> request true true (Addr4 0 0 0 0 0) any_address append "" (take 20) sample_base sample_set (λ _ a, (a, true))
    sample_parse (λ _, Ok (sample_session_of true, "-LN", true))
    (Environment (λ _ : inet_addr, Some 7) (λ _, true) (λ _, true) false (λ s, s) (λ _, "") "key")
    "/tmp/a.torrent" (Control ∅ [] []) = Ok [].
Proof. by vm_compute. Qed.
Example completed :
  (c ← sample_request true "/tmp/a.torrent"; sent_events <$> sample_handle (queue c) c) = Ok [Some "completed"].
Proof. by vm_compute. Qed.
(** When the tracker of a torrent answers with an error, the program is aborted: the session sends the event with the
    path of its file, under which the controller has no session. *)
Example tracker_error_aborts :
  (c ← sample_request false "/tmp/a.torrent";
   sample_handle (notified (outputs (trackerError sample_configuration (sample_session_of false)))) c) = Abort.
Proof. by vm_compute. Qed.
(** A file of the working directory has its path for its base name. *)
Example tracker_error_here :
  (c ← sample_request false "/tmp/a.torrent";
   sent_events <$> sample_handle [Event BITTORRENT_EVENT_CANCELLED "a.torrent" ""] c) = Ok [Some "started"; Some "stopped"].
Proof. by vm_compute. Qed.
