(* ===== verification/HttpScanner.v ===== *)
(** * The scanner of HTTP (protocol/http: scripts/scanner.l, http_module_parser.h,
    http_parser_driver.{h,inl})

    The expressions and the rules of the scanner, and how it goes through the fragments of a
    message. *)
From S2P Require Import Prelude Chars Decimal Lex Fragments Regex HttpTools HttpStreamer.

Definition HTTP_PRT_HEADER_TRANSFER_ENCODING_STRING : string := "Transfer-Encoding".
Definition HTTP_PRT_TRANSFER_ENCODING_CHUNKED_STRING : string := "chunked".

(** ** The expressions *)
Module Re.
Definition between (lo hi : Z) (z : Z) : bool := (lo <=? z) && (z <=? hi).
Definition in_text (s : string) (z : Z) : bool := existsb (Z.eqb z) (string_bytes s).
Definition is_digit (z : Z) : bool := between 48 57 z.
Definition is_alnum (z : Z) : bool := is_digit z || between 65 90 z || between 97 122 z.
Definition one_text (ss : list string) : re := one_of_re (text <$> ss).

Definition DIGIT : re := Cls is_digit.
Definition SP : re := lits [32].
Definition CRLF : re := lits [13; 10].
Definition ctl (z : Z) : bool := between 0 31 z || (z =? 127).
(** parentheses, separators and a tab: [T_SPECIALS] *)
Definition specials (z : Z) : bool := in_text "()<>@,;:\/[]?={} " z || (z =? 34) || (z =? 9).
Definition TOKEN : re := Cls (λ z, (between 0 127 z && negb (ctl z)) || specials z).
Definition no_control (z : Z) : bool := between 0 255 z && negb (between 0 31 z).
Definition white (z : Z) : bool := existsb (Z.eqb z) [9; 10; 13].
Definition C_TEXT : re := Many (Cls (λ z, (no_control z || white z || (z =? 32)) && negb (in_text "()" z))).
Definition COMMENT : re := seq_of [Chr 34; C_TEXT; Chr 34].
Definition QD_TEXT : re := Many (Cls (λ z, (no_control z && negb (z =? 34)) || white z || (z =? 32))).
Definition QUOTED_STRING : re := seq_of [Chr 34; QD_TEXT; Chr 34].
Definition WORD : re := Or TOKEN QUOTED_STRING.
Definition VERSION : re := seq_of [text "HTTP/"; DIGIT; text "."; DIGIT].

(** URIs *)
Definition reserved (z : Z) : bool := in_text ";/?:@&=+" z.
Definition extra (z : Z) : bool := in_text "!*'()," z.
Definition safe (z : Z) : bool := in_text "$-_." z.
Definition unsafe (z : Z) : bool := ctl z || (z =? 32) || (z =? 34) || in_text "#%<>" z.
Definition UNRESERVED : re :=
  Cls (λ z, (between 0 255 z && negb (is_alnum z) && negb (reserved z) && negb (extra z) &&
             negb (safe z) && negb (unsafe z)) || is_alnum z || safe z || extra z).
Definition HEX : re := Cls (λ z, is_digit z || between 65 70 z || between 97 102 z).
Definition ESCAPE : re := seq_of [text "%"; HEX; HEX].
Definition U_CHAR : re := Or UNRESERVED ESCAPE.
Definition RESERVED : re := Cls reserved.
Definition P_CHAR : re :=
  Cls (λ z, is_alnum z || in_text "$-_.!*'(),%:@&=+" z ||
            (between 0 255 z && negb (is_alnum z || reserved z || extra z || safe z || unsafe z))).
(** [F_SEGMENT] is one character *)
Definition PATH : re := Cat P_CHAR (Many (Cat (text "/") (Many P_CHAR))).
Definition ABSOLUTE_PATH : re := Cat (text "/") (Opt PATH).
Definition SCHEME : re := Many1 (Cls (λ z, is_alnum z || in_text "+-." z)).
Definition ABSOLUTE_URI : re :=
  Or (seq_of [SCHEME; text ":"; Many (Or U_CHAR RESERVED)]) (text "*").
Definition REQUEST_URI : re := Or ABSOLUTE_URI ABSOLUTE_PATH.

(** dates *)
Definition WKDAY : re := one_text ["Mon"; "Tue"; "Wed"; "Thu"; "Fri"; "Sat"; "Sun"].
Definition MONTH : re :=
  one_text ["Jan"; "Feb"; "Mar"; "Apr"; "May"; "Jun"; "Jul"; "Aug"; "Sep"; "Oct"; "Nov"; "Dec"].
Definition DATE1 : re := seq_of [times 2 DIGIT; SP; MONTH; SP; times 4 DIGIT].
Definition TIME : re := seq_of [times 2 DIGIT; text ":"; times 2 DIGIT; text ":"; times 2 DIGIT].
Definition RFC1123_DATE : re := seq_of [WKDAY; text ","; SP; DATE1; SP; TIME; SP; text "GMT"].
Definition WEEKDAY : re :=
  one_text ["Monday"; "Tuesday"; "Wednesday"; "Thursday"; "Friday"; "Saturday"; "Sunday"].
Definition DATE2 : re := seq_of [times 2 DIGIT; text "-"; MONTH; text "-"; times 2 DIGIT].
Definition RFC850_DATE : re := seq_of [WEEKDAY; text ","; SP; DATE2; SP; TIME; SP; text "GMT"].
Definition ASCTIME_DATE : re := seq_of [WKDAY; SP; DATE2; SP; TIME; SP; times 4 DIGIT].
Definition DATE : re := one_of_re [RFC1123_DATE; RFC850_DATE; ASCTIME_DATE].

(** header fields; the addresses of [Referer] lack their braces *)
Definition HEADER : re := seq_of [Many1 TOKEN; text ":"; Opt (Cat (Opt SP) (Many TOKEN))].
Definition HEADER_DATE : re := seq_of [text "Date:"; SP; DATE].
Definition PRAGMA_TOKEN : re := Cat (Many1 TOKEN) (Opt (Cat (text "=") WORD)).
Definition HEADER_PRAGMA : re := seq_of [text "Pragma:"; SP; Or (text "no-cache") PRAGMA_TOKEN].
Definition GENERAL_HEADER : re := Or HEADER_DATE HEADER_PRAGMA.
Definition PRODUCT : re := Cat (Many1 TOKEN) (Opt (Cat (text "/") (Many1 TOKEN))).
Definition HEADER_AUTHORIZATION : re := seq_of [text "Authorization:"; SP; Many1 TOKEN].
Definition HEADER_FROM : re := seq_of [text "From:"; SP; Many1 TOKEN].
Definition HEADER_IFMODIFIEDSINCE : re := seq_of [text "If-Modified-Since:"; SP; DATE].
Definition HEADER_REFERER : re :=
  seq_of [text "Referer:"; SP; one_text ["ABSOLUTE_URI"; "RELATIVE_URI"]].
Definition HEADER_USERAGENT : re := seq_of [text "User-Agent:"; SP; Or PRODUCT COMMENT].
Definition REQUEST_HEADER : re :=
  one_of_re [HEADER_AUTHORIZATION; HEADER_FROM; HEADER_IFMODIFIEDSINCE; HEADER_REFERER; HEADER_USERAGENT].
Definition METHOD : re := one_text ["GET"; "HEAD"; "POST"; "M-SEARCH"; "NOTIFY"].
Definition LOCATION_HEADER : re :=
  seq_of [text "Location:"; SP; Many1 (Cls (λ z, between 0 255 z && negb (z =? 13)))].
Definition SERVER_HEADER : re := seq_of [text "Server:"; SP; Or PRODUCT COMMENT].
Definition REALM : re := Cat (text "realm=") QUOTED_STRING.
Definition AUTH_PARAMETERS : re := Many (seq_of [text ","; Many1 TOKEN; text "="; QUOTED_STRING]).
Definition CHALLENGE : re := seq_of [Many1 TOKEN; SP; REALM; AUTH_PARAMETERS].
Definition WWWAUTHENTICATE_HEADER : re := seq_of [text "WWW-Authenticate:"; SP; CHALLENGE].
Definition RESPONSE_HEADER : re := one_of_re [LOCATION_HEADER; SERVER_HEADER; WWWAUTHENTICATE_HEADER].
Definition REASON : re := Many (Cls (λ z, no_control z || (z =? 9))).
Definition VALUE : re := Or (Many1 TOKEN) QUOTED_STRING.
Definition TYPE_PARAMETER : re := seq_of [Many1 TOKEN; text "="; VALUE].
Definition MEDIA_TYPE : re :=
  seq_of [Many1 TOKEN; text "/"; Many1 TOKEN; Many (Cat (text ";") TYPE_PARAMETER)].
Definition CONTENT_CODING : re := one_of_re [text "x-gzip"; text "x-compress"; Many1 TOKEN].
Definition ENTITY_HEADER : re :=
  one_of_re
    [seq_of [text "Allow:"; SP; Many1 METHOD];
     seq_of [text "Content-Encoding:"; SP; CONTENT_CODING];
     seq_of [text "Content-Length:"; SP; Many1 DIGIT];
     seq_of [text "Content-Type:"; SP; MEDIA_TYPE];
     seq_of [text "Expires:"; SP; DATE];
     seq_of [text "Last-Modified:"; SP; DATE];
     HEADER].

(** chunks *)
Definition CHUNK_EXTENSION : re :=
  Cat (Many1 TOKEN) (Opt (Or (Cat (text "=") (Many1 TOKEN)) QUOTED_STRING)).
Definition CHUNK_LINE : re := Cat (Many1 HEX) (Many (Cat (text ";") CHUNK_EXTENSION)).
Definition OCTET : re := Cls (λ _, true).
End Re.

(** ** Its state *)

(** the start conditions (those whose names are taken have an underscore) *)
Inductive condition :=
  | INITIAL | request | uri | version_ | request_headers_ | response | status_ | reason_
  | response_headers_ | body | chunked_body | chunk_ | data | data_2.
#[export] Instance condition_eq_dec : EqDecision condition.
Proof. solve_decision. Defined.
(** [offset_] and [finished_] of the driver, the others of the module; the chunks are their
    offsets and sizes *)
Record scanner := MkScanner {
  cond : condition;
  chunks_ : list (Z * Z);
  offset_ : Z;
  contentLengthOrChunkSize_ : Z;
  bodyOrChunkBytesToSkip_ : Z;
  finished_ : bool;
  multiBody_ : bool
}.
Inductive token :=
  | METHOD (sval : string) | URI_ (sval : string) | VERSION_ (sval : string)
  | STATUS (sval : string) | REASON (sval : string) | HEADER (sval : string)
  | DELIMITER | BODY (ival : Z) | CHUNK (ival : Z).

Definition begin_ (c : condition) (s : scanner) : scanner :=
  MkScanner c (chunks_ s) (offset_ s) (contentLengthOrChunkSize_ s) (bodyOrChunkBytesToSkip_ s)
    (finished_ s) (multiBody_ s).
(** the argument and the result are [unsigned int]s *)
Definition add_offset (n : Z) (s : scanner) : scanner :=
  MkScanner (cond s) (chunks_ s) (u64 (offset_ s + u32 n)) (contentLengthOrChunkSize_ s)
    (bodyOrChunkBytesToSkip_ s) (finished_ s) (multiBody_ s).
Definition offset (s : scanner) : Z := u32 (offset_ s).
Definition contentLengthOrChunkSize (size_in : Z) (s : scanner) : scanner :=
  MkScanner (cond s) (chunks_ s) (offset_ s) size_in size_in (finished_ s)
    (multiBody_ s).
Definition bodyOrChunkBytesSkipped (n : Z) (s : scanner) : scanner :=
  MkScanner (cond s) (chunks_ s) (offset_ s) (contentLengthOrChunkSize_ s)
    (u64 (bodyOrChunkBytesToSkip_ s - n)) (finished_ s) (multiBody_ s).
Definition finished (s : scanner) : scanner :=
  MkScanner (cond s) (chunks_ s) (offset_ s) (contentLengthOrChunkSize_ s)
    (bodyOrChunkBytesToSkip_ s) true (multiBody_ s).
Definition multiBody (s : scanner) : scanner :=
  MkScanner (cond s) (chunks_ s) (offset_ s) (contentLengthOrChunkSize_ s)
    (bodyOrChunkBytesToSkip_ s) (finished_ s) true.
Definition currentChunkSize (s : scanner) : Z :=
  match last (chunks_ s) with Some c => c.2 | None => 0 end.
Definition chunk (size_in : Z) (s : scanner) : scanner :=
  MkScanner (cond s) (chunks_ s ++ [(offset s, u32 size_in)]) (offset_ s)
    (contentLengthOrChunkSize_ s) (bodyOrChunkBytesToSkip_ s) (finished_ s) (multiBody_ s).

(** what is left of the fragments is taken for a body without a length;
    [total]: [head ()->total_length ()] *)
Definition unknown_length (total : Z) (s : scanner) : scanner :=
  multiBody (contentLengthOrChunkSize (u64 (total - offset s)) s).

(** a header, whose key is in lower case as the grammar has stored it *)
Definition find_header (k : string) (hs : list (string * string)) : option string :=
  snd <$> head (filter (λ h, h.1 = k) hs).
(** of the digits at the start of a text (a sign is not modelled) *)
Definition extract (s : string) : Z := read_unsigned 64 0 s.

(** ** The rules *)

(** what a rule does; the text of a token is that of the rule, but for its end *)
Inductive action :=
  | Begin (c : condition)
  | Return (t : string → token) (suffix : nat) (c : condition)
  | ReturnHeader
  | EndOfHeaders
  | FirstOctet
  | Octet
  | LookAtChunk
  | EndOfChunks
  | BeginChunk
  | ChunkOctet.
Definition rules (c : condition) : list (re * action) :=
  match c with
  | INITIAL => [(Re.VERSION, Begin response); (Re.METHOD, Begin request)]
  | request => [(Cat Re.METHOD Re.SP, Return METHOD 1 uri)]
  | uri => [(Cat Re.REQUEST_URI Re.SP, Return URI_ 1 version_)]
  | version_ => [(Cat Re.VERSION Re.CRLF, Return VERSION_ 2 request_headers_)]
  | request_headers_ =>
      [(Cat Re.GENERAL_HEADER Re.CRLF, ReturnHeader); (Cat Re.REQUEST_HEADER Re.CRLF, ReturnHeader);
       (Cat Re.ENTITY_HEADER Re.CRLF, ReturnHeader); (Re.CRLF, EndOfHeaders)]
  | response => [(Cat Re.VERSION Re.SP, Return VERSION_ 1 status_)]
  | status_ => [(Cat (times 3 Re.DIGIT) Re.SP, Return STATUS 1 reason_)]
  | reason_ => [(Cat Re.REASON Re.CRLF, Return REASON 2 response_headers_)]
  | response_headers_ =>
      [(Cat Re.GENERAL_HEADER Re.CRLF, ReturnHeader); (Cat Re.RESPONSE_HEADER Re.CRLF, ReturnHeader);
       (Cat Re.ENTITY_HEADER Re.CRLF, ReturnHeader); (Re.CRLF, EndOfHeaders)]
  | body => [(Re.OCTET, FirstOctet)]
  | chunked_body =>
      [(Cat Re.CHUNK_LINE Re.CRLF, LookAtChunk); (Cat Re.ENTITY_HEADER Re.CRLF, ReturnHeader);
       (Re.CRLF, EndOfChunks)]
  | chunk_ => [(Cat Re.CHUNK_LINE Re.CRLF, BeginChunk)]
  | data => [(Re.OCTET, Octet)]
  | data_2 => [(Re.OCTET, ChunkOctet)]
  end.

(** [HTTP_PRT_REGEX_CHUNK_LINE]: the digits, and extensions *)
Definition HTTP_PRT_REGEX_CHUNK_LINE : regex :=
  Seqs [Group 1 (Plus (Class isxdigit)); Star (Group 2 (Seqs [Lit ";"; Star any]));
        Lit "013"; Lit "010"].
(** [std::hex >> n] of 64 bits *)
Fixpoint hex_number (acc : Z) (s : string) : Z :=
  match s with "" => acc | String c s' => hex_number (16 * acc + hex_value c) s' end.
Definition read_hex (s : string) : Z := Z.min (hex_number 0 s) (2 ^ 64 - 1).

Notation scanned := (scanned scanner token).

Section Scanner.
(** functions of the common library, and the option [block] *)
Context (tolower_ strip : string → string) (block : bool).

(** the end of the header fields *)
Definition chunked (v : string) : bool :=
  bool_decide (tolower_ (strip v) = HTTP_PRT_TRANSFER_ENCODING_CHUNKED_STRING).
Definition end_of_headers (total : Z) (r : HTTP_Record) (s : scanner) : scanner :=
  let is_response := bool_decide (cond s = response_headers_) in
  match find_header (tolower_ HTTP_PRT_HEADER_CONTENT_LENGTH_STRING) (headers r) with
  | Some v =>
      let s := contentLengthOrChunkSize (extract v) s in
      if contentLengthOrChunkSize_ s =? 0
      then begin_ INITIAL (if is_response then unknown_length total s else s)
      else begin_ body s
  | None =>
      match find_header (tolower_ HTTP_PRT_HEADER_TRANSFER_ENCODING_STRING) (headers r) with
      | Some v => if chunked v then begin_ chunked_body s else s
      | None => begin_ INITIAL (if is_response then unknown_length total s else s)
      end
  end.

(** the next octet, for [yyinput ()]: [None] at the end of what has been received *)
Fixpoint yyinput (i : input) : option (Z * input) :=
  match i with
  | [] => None
  | [] :: i' => yyinput i'
  | (x :: bs) :: i' => Some (x, bs :: i')
  end.

(** without blocking, the octet behind the buffer is 0, which is asserted not to be *)
Definition next_octet (i : input) : outcome (option (Z * input)) :=
  match i with
  | (x :: bs) :: i' => Ok (Some (x, bs :: i'))
  | _ => if block then Ok (yyinput i) else Abort
  end.

(** the action of a rule on a text; [bs] and [i]: what is behind it *)
Definition perform (total : Z) (r : HTTP_Record) (a : action) (s : scanner) (yytext bs : list Z)
    (i : input) : outcome scanned :=
  let but k := bytes_string (take (length yytext - k) yytext) in
  let moved := add_offset (zlen yytext) s in
  match a with
  | Begin c => Ok (Matched (begin_ c s) ((yytext ++ bs) :: i))
  | Return t k c => Ok (Token (t (but k)) (begin_ c moved) (bs :: i))
  | ReturnHeader => Ok (Token (HEADER (but 2%nat)) moved (bs :: i))
  | EndOfHeaders => Ok (Token DELIMITER (end_of_headers total r moved) (bs :: i))
  | FirstOctet =>
      let s := if bodyOrChunkBytesToSkip_ s =? 0 then unknown_length total s else s in
      Ok (Matched (begin_ data (bodyOrChunkBytesSkipped 1 s)) (bs :: i))
  | Octet =>
      let s := bodyOrChunkBytesSkipped 1 s in
      if bodyOrChunkBytesToSkip_ s =? 0 then
        let s := if multiBody_ s then begin_ body s else begin_ INITIAL (finished s) in
        Ok (Token (BODY (contentLengthOrChunkSize_ s)) s (bs :: i))
      else Ok (Matched s (bs :: i))
  | LookAtChunk =>
      let s := if currentChunkSize s =? 0 then s else add_offset (currentChunkSize s + 2) s in
      match c ← regex_match (bytes_string yytext) HTTP_PRT_REGEX_CHUNK_LINE; group 1 c with
      | Some n =>
          Ok (Matched (begin_ chunk_ (contentLengthOrChunkSize (read_hex n) s)) ((yytext ++ bs) :: i))
      | None => Ok (End_ s (bs :: i))
      end
  | EndOfChunks => Ok (Token DELIMITER (begin_ INITIAL moved) (bs :: i))
  | BeginChunk =>
      if contentLengthOrChunkSize_ moved =? 0
      then Ok (Token (CHUNK 0) (begin_ chunked_body (finished moved)) (bs :: i))
      else Ok (Matched (begin_ data_2 moved) (bs :: i))
  | ChunkOctet =>
      let s := bodyOrChunkBytesSkipped 1 s in
      if bodyOrChunkBytesToSkip_ s =? 0 then
        c ← next_octet (bs :: i);
        match c with
        | Some (c, i') =>
            ace_assert (c =? 13);;
            d ← next_octet i';
            match d with
            | Some (d, i'') =>
                ace_assert (d =? 10);;
                Ok (Token (CHUNK (contentLengthOrChunkSize_ s)) (begin_ chunked_body s) i'')
            | None => Ok Waits
            end
        | None => Ok Waits
        end
      else Ok (Matched s (bs :: i))
  end.

Definition rule (total : Z) (r : HTTP_Record) (s : scanner) (bs : list Z) (i : input) :
    option (outcome scanned) :=
  '(n, a) ← pick (rules (cond s)) bs; Some (perform total r a s (take n bs) (drop n bs) i).

(** a buffer at its end: [yywrap ()] *)
Definition wraps (s : scanner) : bool := negb block || finished_ s.
(** Where no rule matches: without blocking, the end; or the scanner leaves the buffer, and moves
    back in the one it has left. *)
Definition any_octet (s : scanner) (bs : list Z) (i : input) : outcome scanned :=
  if negb block then Ok (End_ s (bs :: i)) else match i with [] => Ok Waits | _ => Undef end.
Definition lex (fuel : nat) (total : Z) (r : HTTP_Record) (s : scanner) (i : input) : outcome scanned :=
  scan (rule total r) wraps id any_octet fuel s i.
Definition yylex (total : Z) (r : HTTP_Record) (s : scanner) (i : input) : outcome scanned :=
  lex (scan_fuel i) total r s i.
End Scanner.

(** ** Texts that are not cut *)
Section Lex.
Context (tolower_ strip : string → string).
Notation rule := (rule tolower_ strip true).
Notation lex := (lex tolower_ strip true).
Implicit Types (s : scanner).

Lemma goes_on_open s : finished_ s = false → goes_on (wraps true) id s.
Proof. by split. Qed.
Lemma lex_next total r s p ps rest i :
  uncut (p :: ps) rest i → p ≠ [] → finished_ s = false →
  ∃ f j k, uncut ps rest (f :: j) ∧ size i = (k + size ((p ++ f) :: j))%nat ∧
    ∀ fuel, lex (k + fuel) total r s i = lex fuel total r s ((p ++ f) :: j).
Proof. intros Hu Hp Hs. by apply scan_next; [| |apply goes_on_open]. Qed.
Lemma lex_rule total r s bs i fuel m :
  bs ≠ [] → rule total r s bs i = Some (Ok m) →
  lex (S fuel) total r s (bs :: i) =
    match m with Matched s' i' => lex fuel total r s' i' | other => Ok other end.
Proof. apply scan_step. Qed.
Lemma lex_token total r s p q ps rest i t s' fuel :
  uncut ((p ++ q) :: ps) rest i → p ≠ [] → finished_ s = false → (size i <= fuel)%nat →
  (∀ f j, rule total r s (p ++ q ++ f) j = Some (Ok (Token t s' ((q ++ f) :: j)))) →
  ∃ f j, lex fuel total r s i = Ok (Token t s' ((q ++ f) :: j)) ∧ uncut ps rest (f :: j).
Proof. intros Hu Hp Hs. apply scan_token; [done..|by apply goes_on_open]. Qed.
Lemma lex_look total r s p q ps rest i t s1 s' fuel :
  uncut ((p ++ q) :: ps) rest i → p ≠ [] → finished_ s = false → (S (size i) <= fuel)%nat →
  (∀ f j, rule total r s (p ++ q ++ f) j = Some (Ok (Matched s1 ((p ++ q ++ f) :: j)))) →
  (∀ f j, rule total r s1 (p ++ q ++ f) j = Some (Ok (Token t s' ((q ++ f) :: j)))) →
  ∃ f j, lex fuel total r s i = Ok (Token t s' ((q ++ f) :: j)) ∧ uncut ps rest (f :: j).
Proof. intros Hu Hp Hs. apply scan_look; [done..|by apply goes_on_open]. Qed.
Lemma lex_look_taken total r s p ps rest i s1 s2 fuel :
  uncut (p :: ps) rest i → p ≠ [] → finished_ s = false → (S (size i) <= fuel)%nat →
  (∀ f j, rule total r s (p ++ f) j = Some (Ok (Matched s1 ((p ++ f) :: j)))) →
  (∀ f j, rule total r s1 (p ++ f) j = Some (Ok (Matched s2 (f :: j)))) →
  ∃ i' fuel', lex fuel total r s i = lex fuel' total r s2 i' ∧ uncut ps rest i' ∧ (size i' <= fuel')%nat.
Proof. intros Hu Hp Hs. apply scan_look_taken; [done..|by apply goes_on_open]. Qed.
Lemma lex_taken total r s p ps rest i s1 fuel :
  uncut (p :: ps) rest i → p ≠ [] → finished_ s = false → (size i <= fuel)%nat →
  (∀ f j, rule total r s (p ++ f) j = Some (Ok (Matched s1 (f :: j)))) →
  ∃ i' fuel', lex fuel total r s i = lex fuel' total r s1 i' ∧ uncut ps rest i' ∧ (size i' <= fuel')%nat.
Proof.
  intros Hu Hp Hs Hf Hr. rewrite <- (app_nil_r p) in Hu.
  destruct (scan_taken (rule total r) (wraps true) id (any_octet true) s p [] ps rest i s1 fuel)
    as (f & j & fuel' & E & Hj & Hf'); [done|done|by apply goes_on_open|done|done|].
  by exists (f :: j), fuel'.
Qed.
Lemma yyinput_text x ps rest i :
  uncut ([x] :: ps) rest i → ∃ i', next_octet true i = Ok (Some (x, i')) ∧ uncut ps rest i'.
Proof.
  remember ([x] :: ps) as l eqn:El. intros Hu. revert El.
  assert (∀ j, next_octet true j = Ok (yyinput j)) as Hn by (by intros [|[|? ?] ?]).
  setoid_rewrite Hn.
  induction Hu as [i|l rest i Hu IH|q l rest bs i Hu IH]; intros El; simplify_eq; [by apply IH|].
  by exists (bs :: i).
Qed.
End Lex.
