(* ===== verification/HttpLines.v ===== *)
(** * What the rules of the HTTP scanner read

    For each line of a message, and for the octets of a body, the rule that applies and what it
    does, whatever is behind the line in the buffer. *)
From S2P Require Import Prelude Chars Decimal Lex Fragments Regex HttpTools HttpStreamer HttpScanner.

Definition known_method (m : MethodType) : bool :=
  match m with HTTP_METHOD_MAX | HTTP_METHOD_INVALID => false | _ => true end.
Definition known_version (v : VersionType) : bool :=
  match v with HTTP_VERSION_0_9 | HTTP_VERSION_1_0 | HTTP_VERSION_1_1 => true | _ => false end.
Definition version_bytes (v : VersionType) : list Z :=
  string_bytes (HTTP_PRT_VERSION_STRING_PREFIX +:+ VersionToString v).
Definition HTTP_PRT_HEADER_CONTENT_ENCODING_STRING : string := "Content-Encoding".
(** a field that is read by itself: without quotes, and not the one that is asserted *)
Definition field_char (c : ascii) : bool :=
  ((32 <=? code c) && (code c <=? 126) || (code c =? 9)) && negb (Ascii.eqb c dquote).
Definition field_ok (h : string * string) : bool :=
  negb (bool_decide (h.1 = "")) && string_all field_char h.1 && no_char ":" h.1 &&
  negb (bool_decide (h.1 = HTTP_PRT_HEADER_CONTENT_ENCODING_STRING)) && string_all field_char h.2 &&
  match h.2 with String c _ => negb (is_blank c) | "" => true end.
Definition field_text (h : string * string) : string := h.1 +:+ ": " +:+ h.2.
(** the line of a chunk: its digits *)
Definition line (ds : list Z) : list Z := ds ++ [13; 10].
Definition digits_ok (ds : list Z) : Prop := lang (Many1 Re.HEX) ds.

(** where the scanner is *)
Definition moved (n : Z) (s : scanner) : scanner :=
  MkScanner (cond s) (chunks_ s) (offset_ s + n) (contentLengthOrChunkSize_ s)
    (bodyOrChunkBytesToSkip_ s) (finished_ s) (multiBody_ s).
Lemma add_offset_moved n s :
  0 <= offset_ s → 0 <= n → offset_ s + n < 2 ^ 32 → add_offset n s = moved n s.
Proof. intros. unfold add_offset. by rewrite u32_small, u64_small by lia. Qed.
Lemma moved_moved m n s : moved m (moved n s) = moved (n + m) s.
Proof. unfold moved. cbn. by rewrite Z.add_assoc. Qed.
Lemma moved_begin c n s : moved n (begin_ c s) = begin_ c (moved n s).
Proof. done. Qed.
Lemma begin_begin c c' s : begin_ c (begin_ c' s) = begin_ c s.
Proof. done. Qed.

Lemma take_back (l t f : list Z) :
  take (length (l ++ t) - length t) (take (length (l ++ t)) (l ++ t ++ f)) = l.
Proof. rewrite take_take, length_app, Nat.add_sub, Nat.min_l by lia. apply take_app_length. Qed.
Lemma take_front (l t f : list Z) : take (length (l ++ t)) (l ++ t ++ f) = l ++ t.
Proof. rewrite app_assoc. apply take_app_length. Qed.
Lemma drop_front (l t f : list Z) : drop (length (l ++ t)) (l ++ t ++ f) = f.
Proof. rewrite app_assoc. apply drop_app_length. Qed.

Section Lines.
Context (tolower_ strip : string → string).
Notation rule := (rule tolower_ strip true).
Notation perform := (perform tolower_ strip true).

(** the rule that is picked for a line [l ++ t] *)
Lemma rule_line total rec s l t f i a :
  pick (rules (cond s)) (l ++ t ++ f) = Some (length (l ++ t), a) →
  rule total rec s (l ++ t ++ f) i = Some (perform total rec a s (l ++ t) f i).
Proof. intros Hp. unfold HttpScanner.rule. rewrite Hp. cbn [mbind option_bind]. by rewrite take_front, drop_front. Qed.
Lemma but_end (l t : list Z) : take (length (l ++ t) - length t) (l ++ t) = l.
Proof. rewrite length_app, Nat.add_sub. apply take_app_length. Qed.

(** a condition with one rule, for what ends with a text *)
Lemma line_ruled total rec s r x t tok c' l f i :
  rules (cond s) = [(Cat r (lits (x :: t)), Return tok (length (x :: t)) c')] →
  guarded x x r = true → matches r l = true →
  rule total rec s (l ++ (x :: t) ++ f) i =
    Some (Ok (Token (tok (bytes_string l)) (begin_ c' (add_offset (zlen (l ++ x :: t)) s)) (f :: i))).
Proof.
  intros Hs Hg Hm. erewrite rule_line.
  2: { rewrite Hs. cbn [pick].
    pose proof (guarded_not_in x r l Hg (proj1 (matches_spec _ _) Hm)) as Hx.
    rewrite (longest_ends x x), Hm by done. reflexivity. }
  unfold HttpScanner.perform. by rewrite but_end.
Qed.

(** a text that begins a message *)
Lemma start_ruled total rec s p c n f i :
  cond s = INITIAL → Forall (λ x, residual x.1 p = Never) (rules INITIAL) →
  pick (rules INITIAL) p = Some (n, Begin c) → (n <= length p)%nat →
  rule total rec s (p ++ f) i = Some (Ok (Matched (begin_ c s) ((p ++ f) :: i))).
Proof.
  intros Hs Hp Hn Hl. unfold HttpScanner.rule. rewrite Hs.
  assert (pick (rules INITIAL) (p ++ f) = Some (n, Begin c)) as ->.
  { rewrite <- Hn. unfold rules in *. apply Forall_cons_1 in Hp as [H1 Hp].
    apply Forall_cons_1 in Hp as [H2 _]. cbn [pick fst] in *. by rewrite !longest_prefix by done. }
  cbn [mbind option_bind]. unfold HttpScanner.perform. by rewrite take_drop.
Qed.
Lemma method_ruled total rec s m f i :
  cond s = INITIAL → known_method m = true →
  rule total rec s (string_bytes (MethodToString m) ++ [32] ++ f) i =
    Some (Ok (Matched (begin_ request s) ((string_bytes (MethodToString m) ++ [32] ++ f) :: i))).
Proof.
  intros Hs Hm. rewrite (assoc_L (++)).
  apply (start_ruled _ _ _ _ _ (length (string_bytes (MethodToString m)))); [done| | |];
    destruct m; try done; by repeat constructor.
Qed.
Lemma version_matches v : known_version v = true → matches Re.VERSION (version_bytes v) = true.
Proof. by destruct v. Qed.
Lemma version_ruled total rec s v f i :
  cond s = INITIAL → known_version v = true →
  rule total rec s (version_bytes v ++ [32] ++ f) i =
    Some (Ok (Matched (begin_ response s) ((version_bytes v ++ [32] ++ f) :: i))).
Proof.
  intros Hs Hm. rewrite (assoc_L (++)).
  apply (start_ruled _ _ _ _ _ (length (version_bytes v))); [done| | |];
    destruct v; try done; by repeat constructor.
Qed.

(** the fields: whichever of the rules applies, it is the line that is read *)
Definition in_headers (c : condition) : bool :=
  match c with request_headers_ | response_headers_ => true | _ => false end.
Lemma header_rules_guarded c :
  in_headers c = true →
  ∃ rs, rules c = ((λ r, (Cat r Re.CRLF, ReturnHeader)) <$> rs) ++ [(Re.CRLF, EndOfHeaders)] ∧
    Forall (λ r, guarded 13 34 r = true ∧ residual (Cat r Re.CRLF) [13] = Never ∧ nullable r = false) rs ∧
    Re.ENTITY_HEADER ∈ rs.
Proof.
  intros Hc. destruct c; try done.
  - exists [Re.GENERAL_HEADER; Re.REQUEST_HEADER; Re.ENTITY_HEADER].
    split_and!; [done|by repeat constructor|set_solver].
  - exists [Re.GENERAL_HEADER; Re.RESPONSE_HEADER; Re.ENTITY_HEADER].
    split_and!; [done|by repeat constructor|set_solver].
Qed.
(** a line break does not match a line that begins otherwise *)
Lemma crlf_not l f : l ≠ [] → 13 ∉ l → longest Re.CRLF (l ++ f) = None.
Proof.
  intros Hl H13. destruct l as [|x l]; [done|]. cbn [app]. apply longest_dead; [|done].
  cbn. rewrite (proj2 (Z.eqb_neq x 13)); [done|set_solver].
Qed.
Lemma header_ruled total rec s l f i :
  in_headers (cond s) = true → matches Re.ENTITY_HEADER l = true → 13 ∉ l → 34 ∉ l →
  rule total rec s (l ++ [13; 10] ++ f) i =
    Some (Ok (Token (HEADER (bytes_string l)) (add_offset (zlen (l ++ [13; 10])) s) (f :: i))).
Proof.
  intros Hs Hm H13 H34.
  assert (l ≠ []) as Hne by (intros ->; by vm_compute in Hm).
  rewrite (rule_line _ _ _ _ _ _ _ ReturnHeader).
  - unfold HttpScanner.perform. pose proof (but_end l [13; 10]) as E.
    change (length [13; 10]) with 2%nat in E. by rewrite E.
  - destruct (header_rules_guarded _ Hs) as (rs & -> & Hrs & Hin). apply pick_same.
    + apply Forall_app. split.
      * apply Forall_fmap. eapply Forall_impl; [exact Hrs|]. intros r (Hg & _). cbn [compose fst snd].
        split; [|done]. intros n. unfold Re.CRLF. rewrite (longest_ends 13 34) by done.
        destruct (matches r l); [|done]. by intros [= <-].
      * repeat constructor; cbn [fst snd]; by rewrite crlf_not.
    + apply Exists_app. left. apply Exists_fmap, Exists_exists. exists Re.ENTITY_HEADER.
      split; [done|]. cbn [compose fst]. unfold Re.CRLF. rewrite (longest_ends 13 34) by done. by rewrite Hm.
Qed.
Lemma headers_end total rec s f i :
  in_headers (cond s) = true →
  rule total rec s ([13; 10] ++ f) i =
    Some (Ok (Token DELIMITER (end_of_headers tolower_ strip total rec (add_offset 2 s)) (f :: i))).
Proof.
  intros Hs. apply (rule_line total rec s [] [13; 10] f i EndOfHeaders).
  destruct (header_rules_guarded _ Hs) as (rs & -> & Hrs & _).
  rewrite (pick_first 2 EndOfHeaders Re.CRLF _ []); [done| | |constructor].
  - cbn [app]. change (13 :: 10 :: f) with ([13; 10] ++ f). by rewrite longest_residual.
  - apply Forall_fmap. eapply Forall_impl; [exact Hrs|]. intros r (_ & Hd & Hn) n. cbn [compose fst app].
    rewrite longest_dead; [done|done|]. cbn. by rewrite Hn.
Qed.

(** ** Chunks *)
Lemma octet_picked (a : action) x f : pick [(Re.OCTET, a)] (x :: f) = Some (1%nat, a).
Proof. cbn [pick]. change (x :: f) with ([x] ++ f). by rewrite longest_residual. Qed.
Lemma octet_ruled total rec s x f i a :
  rules (cond s) = [(Re.OCTET, a)] →
  rule total rec s ([x] ++ f) i = Some (perform total rec a s [x] f i).
Proof. intros Hs. unfold HttpScanner.rule. rewrite Hs. cbn [app]. by rewrite octet_picked. Qed.

Lemma digits_clean ds : digits_ok ds → ds ≠ [] ∧ 13 ∉ ds ∧ 34 ∉ ds.
Proof.
  intros Hds. split_and!; [by intros ->; apply nullable_spec in Hds|by eapply guarded_not_in; [|exact Hds]..].
Qed.
Lemma digits_line ds : digits_ok ds → matches Re.CHUNK_LINE ds = true.
Proof.
  intros Hds. apply matches_spec. rewrite <- (app_nil_r ds). constructor; [exact Hds|constructor].
Qed.
Lemma digits_hex ds :
  digits_ok ds →
  string_all isxdigit (bytes_string ds) = true ∧ string_bytes (bytes_string ds) = ds.
Proof.
  intros [_ Hds]%lang_many1_cls. induction Hds as [|d ds Hd _ [IH1 IH2]]; [done|].
  assert (0 <= d < 256) as Hr.
  { unfold Re.is_digit, Re.between in Hd. rewrite !orb_true_iff, !andb_true_iff in Hd.
    destruct Hd as [[[? ?]|[? ?]]|[? ?]]; bool_lia. }
  change (bytes_string (d :: ds)) with (String (chr d) (bytes_string ds)). cbn [string_all].
  rewrite IH1, andb_true_r.
  change (string_bytes (String (chr d) (bytes_string ds)))
    with (code (chr d) :: string_bytes (bytes_string ds)).
  rewrite IH2, code_chr by done. split; [|done].
  unfold isxdigit, isdigit, in_range. rewrite code_chr by done. exact Hd.
Qed.
Lemma chunk_regex_matched n :
  n ≠ "" → string_all isxdigit n = true →
  regex_match (n +:+ crlf) HTTP_PRT_REGEX_CHUNK_LINE = Some [(1%nat, n)].
Proof.
  intros Hne Hn. unfold regex_match, HTTP_PRT_REGEX_CHUNK_LINE. cbn [Seqs]. rewrite match_seq.
  apply match_group_run; [done|destruct n; [done|cbn; lia]|done|done|]. done.
Qed.
Lemma bytes_string_app a b : bytes_string (a ++ b) = bytes_string a +:+ bytes_string b.
Proof.
  unfold bytes_string. rewrite fmap_app. induction (chr <$> a) as [|c l IH]; [done|].
  cbn [app String.string_of_list_ascii]. by rewrite IH, append_cons.
Qed.
Lemma looked_at total rec s ds f i n :
  cond s = chunked_body → digits_ok ds → hex_number 0 (bytes_string ds) = n → n < 2 ^ 64 →
  rule total rec s (ds ++ [13; 10] ++ f) i =
    Some (Ok (Matched
      (begin_ chunk_ (contentLengthOrChunkSize n
        (if currentChunkSize s =? 0 then s else add_offset (currentChunkSize s + 2) s)))
      ((ds ++ [13; 10] ++ f) :: i))).
Proof.
  intros Hs Hds Hn Hb. destruct (digits_clean ds Hds) as (Hne & H13 & H34).
  destruct (digits_hex ds Hds) as [Hx Hbs].
  rewrite (rule_line _ _ _ _ _ _ _ LookAtChunk).
  - unfold HttpScanner.perform. rewrite bytes_string_app.
    change (bytes_string [13; 10]) with crlf. rewrite chunk_regex_matched; [|by destruct ds|done].
    cbn [mbind option_bind group Nat.eqb]. unfold read_hex. rewrite Hn, Z.min_l by lia.
    by rewrite <- (assoc_L (++)).
  - rewrite Hs. cbn [rules pick]. unfold Re.CRLF.
    rewrite !(longest_ends 13 34), (digits_line ds Hds) by done.
    change (lits [13; 10]) with Re.CRLF. rewrite crlf_not by done.
    destruct (matches Re.ENTITY_HEADER ds); by rewrite ?Nat.leb_refl.
Qed.
Lemma chunk_begun total rec s ds f i :
  cond s = chunk_ → digits_ok ds →
  rule total rec s (ds ++ [13; 10] ++ f) i =
    Some (perform total rec BeginChunk s (ds ++ [13; 10]) f i).
Proof.
  intros Hs Hds. destruct (digits_clean ds Hds) as (Hne & H13 & H34).
  apply rule_line. rewrite Hs. cbn [rules pick]. unfold Re.CRLF.
  by rewrite (longest_ends 13 34), (digits_line ds Hds).
Qed.
Lemma chunks_end total rec s f i :
  cond s = chunked_body →
  rule total rec s ([13; 10] ++ f) i =
    Some (Ok (Token DELIMITER (begin_ INITIAL (add_offset 2 s)) (f :: i))).
Proof.
  intros Hs. apply (rule_line total rec s [] [13; 10] f i EndOfChunks). rewrite Hs.
  rewrite (pick_first 2 EndOfChunks Re.CRLF
    [(Cat Re.CHUNK_LINE Re.CRLF, LookAtChunk); (Cat Re.ENTITY_HEADER Re.CRLF, ReturnHeader)] []);
    [done| | |constructor].
  - change ([] ++ [13; 10] ++ f) with ([13; 10] ++ f). by rewrite longest_residual.
  - rewrite !Forall_cons, Forall_nil. by split_and!; [intros n; cbn [fst app]; by rewrite longest_dead..|].
Qed.
End Lines.

(** ** The text of a field *)
Lemma field_char_byte c :
  field_char c = true → lang Re.TOKEN [code c] ∧ code c ≠ 13 ∧ code c ≠ 34.
Proof.
  intros Hc. rewrite <- matches_spec.
  pose proof (char_mono field_char (λ c, matches Re.TOKEN [code c] && negb (code c =? 13) &&
    negb (code c =? 34)) ltac:(by vm_compute) c Hc) as H.
  rewrite !andb_true_iff, !negb_true_iff, !Z.eqb_neq in H. tauto.
Qed.
Lemma token_lang s :
  string_all field_char s = true → lang (Many Re.TOKEN) (string_bytes s).
Proof.
  intros Hs. unfold Re.TOKEN. apply lang_many_cls. apply string_all_bytes with field_char; [|done].
  intros c (Hc & _)%field_char_byte. by inversion Hc.
Qed.
Lemma header_lang h : field_ok h = true → lang Re.HEADER (string_bytes (field_text h)).
Proof.
  destruct h as [n v]. unfold field_ok. cbn [fst snd]. rewrite !andb_true_iff.
  intros [[[[[Hne%negb_true_iff%bool_decide_eq_false Hn] _] _] Hv] _].
  unfold field_text. cbn [fst snd]. rewrite !string_bytes_app.
  change (string_bytes ": ") with ([58] ++ [32]). rewrite <- (assoc_L (++)).
  apply (lang_cat _ _ (string_bytes n)).
  { destruct n as [|c n]; [done|]. cbn [string_all] in Hn. apply andb_true_iff in Hn as [Hc Hn].
    apply (lang_cat _ _ [code c]); [by apply field_char_byte|by apply token_lang]. }
  apply (lang_cat _ _ [58]); [by apply lang_lits|].
  rewrite <- (app_nil_r ([32] ++ _)). constructor; [|constructor].
  apply lang_or_l. constructor; [apply lang_or_l; by apply lang_lits|by apply token_lang].
Qed.
Lemma field_lang h : field_ok h = true → matches Re.ENTITY_HEADER (string_bytes (field_text h)) = true.
Proof.
  intros Hh. apply matches_spec. do 6 apply lang_or_r. apply lang_or_l. by apply header_lang.
Qed.
Lemma field_clean h :
  field_ok h = true → 13 ∉ string_bytes (field_text h) ∧ 34 ∉ string_bytes (field_text h).
Proof.
  intros Hh. assert (Forall (λ z, z ≠ 13 ∧ z ≠ 34) (string_bytes (field_text h))) as Hf.
  { apply string_all_bytes with field_char; [by intros c (_ & ?)%field_char_byte|].
    destruct h as [n v]. unfold field_ok in Hh. cbn [fst snd] in Hh. rewrite !andb_true_iff in Hh.
    destruct Hh as [[[[[_ Hn] _] _] Hv] _]. unfold field_text. cbn [fst snd].
    by rewrite !string_all_app, Hn, Hv. }
  rewrite Forall_forall in Hf. split; intros Hin%Hf; naive_solver.
Qed.
