(* ===== verification/HttpGrammar.v ===== *)
(** * The grammar of HTTP (protocol/http: scripts/parser.y)

    The parser: what its productions do with the tokens, from the first line of a message to its
    last chunk; and what it makes of the heads that the streamer of [HttpStreamer] writes, and
    of bodies, when no line is cut by the end of a fragment. *)
From S2P Require Import Prelude Chars Decimal Lex Fragments Regex HttpTools HttpStreamer HttpScanner HttpLines.

Section Grammar.
(** functions of the common library, and the options [block] and [headerOnly] *)
Context (tolower_ strip : string → string) (block headerOnly : bool).
Notation yylex := (yylex tolower_ strip block).

(** the prefix, and the numbers *)
Definition version_regex : regex :=
  Seqs [Lits HTTP_PRT_VERSION_STRING_PREFIX; Group 1 (Seqs [digit; Lit "."; digit])].
Definition version_type (s : string) : option VersionType :=
  c ← regex_match s version_regex; VersionToType <$> group 1 c.
(** a name without a colon, a colon, white space, and the rest of the line *)
Definition is_space (c : ascii) : bool :=
  existsb (Ascii.eqb c) [" "; "009"; "010"; "011"; "012"; "013"]%char.
Definition header_regex : regex :=
  Seqs [Group 1 (Regex.Plus (Class (λ c, negb (Ascii.eqb c ":")))); Lit ":";
        Regex.Star (Class is_space); Group 2 (Regex.Star any)].
(** [headers[k] = v]; where a new pair is put, is up to the library *)
Fixpoint set_header (k v : string) (hs : list (string * string)) : list (string * string) :=
  match hs with
  | [] => [(k, v)]
  | h :: hs' => if decide (h.1 = k) then (k, v) :: hs' else h :: set_header k v hs'
  end.
(** a field that does not match is left out; [encoding ()] fails an assertion *)
Definition add_field (field : string) (r : HTTP_Record) : outcome HTTP_Record :=
  match regex_match field header_regex with
  | Some c =>
      match group 1 c, group 2 c with
      | Some n, Some v =>
          let r := set_headers (set_header (tolower_ n) v (headers r)) r in
          ace_assert (negb (bool_decide (n = HTTP_PRT_HEADER_CONTENT_ENCODING_STRING)));; Ok r
      | _, _ => Abort
      end
  | None => Ok r
  end.

Definition set_method (m : MethodType) (r : HTTP_Record) : HTTP_Record :=
  MkRecord (form r) (headers r) m (reason r) (status r) (URI r) (version r).
Definition set_version (v : VersionType) (r : HTTP_Record) : HTTP_Record :=
  MkRecord (form r) (headers r) (method r) (reason r) (status r) (URI r) v.
Definition set_URI (u : string) (r : HTTP_Record) : HTTP_Record :=
  MkRecord (form r) (headers r) (method r) (reason r) (status r) u (version r).
Definition set_status (n : Z) (r : HTTP_Record) : HTTP_Record :=
  MkRecord (form r) (headers r) (method r) (reason r) n (URI r) (version r).
Definition set_reason (t : string) (r : HTTP_Record) : HTTP_Record :=
  MkRecord (form r) (headers r) (method r) t (status r) (URI r) (version r).

(** [Parsed]: the production is complete (or [YYACCEPT]), [Failed]: a token that is not expected,
    or [YYABORT]; [Waiting]: for the next fragment *)
Inductive parsed :=
  | Parsed (r : HTTP_Record) (s : scanner) (i : input)
  | Failed
  | Waiting.
Definition unexpected (m : scanned) : outcome parsed :=
  Ok match m with Waits => Waiting | _ => Failed end.

(** [headers] and the delimiter *)
Fixpoint parse_headers (fuel : nat) (total : Z) (r : HTTP_Record) (s : scanner) (i : input) :
    outcome parsed :=
  match fuel with
  | O => Ok Waiting
  | S fuel' =>
      m ← yylex total r s i;
      match m with
      | Token (HEADER h) s' i' => r' ← add_field h r; parse_headers fuel' total r' s' i'
      | Token DELIMITER s' i' => Ok (Parsed r s' i')
      | other => unexpected other
      end
  end.
(** of the octets that are left, every field takes one *)
Definition headers_fuel (i : input) : nat := S (length (mjoin i)).
(** the value of three digits *)
Definition read_status (t : string) : Z := read_unsigned 31 (-1) t.
(** A record is filled from the bottom up: the method, and the version of a response, after
    the header fields. *)
Definition parse_request (total : Z) (m : string) (r : HTTP_Record) (s : scanner) (i : input) :
    outcome parsed :=
  t ← yylex total r s i;
  match t with
  | Token (URI_ u) s i =>
      t ← yylex total r s i;
      match t with
      | Token (VERSION_ v) s i =>
          match version_type v with
          | Some v =>
              p ← parse_headers (headers_fuel i) total (set_URI u (set_version v r)) s i;
              Ok match p with
                 | Parsed r s i => Parsed (set_method (MethodToType m) r) s i
                 | other => other
                 end
          | None => Ok Failed
          end
      | other => unexpected other
      end
  | other => unexpected other
  end.
Definition parse_response (total : Z) (v : string) (r : HTTP_Record) (s : scanner) (i : input) :
    outcome parsed :=
  t ← yylex total r s i;
  match t with
  | Token (STATUS n) s i =>
      t ← yylex total r s i;
      match t with
      | Token (REASON x) s i =>
          p ← parse_headers (headers_fuel i) total (set_status (read_status n) (set_reason x r)) s i;
          Ok match p with
             | Parsed r s i =>
                 match version_type v with Some v => Parsed (set_version v r) s i | None => Failed end
             | other => other
             end
      | other => unexpected other
      end
  | other => unexpected other
  end.
Definition parse_head (total : Z) (r : HTTP_Record) (s : scanner) (i : input) : outcome parsed :=
  t ← yylex total r s i;
  match t with
  | Token (METHOD m) s i => parse_request total m r s i
  | Token (VERSION_ v) s i => parse_response total v r s i
  | other => unexpected other
  end.

(** the chunks, the trailer, and the delimiter behind them *)
Fixpoint parse_chunks (fuel : nat) (total : Z) (r : HTTP_Record) (s : scanner) (i : input) :
    outcome parsed :=
  match fuel with
  | O => Ok Waiting
  | S fuel' =>
      m ← yylex total r s i;
      match m with
      | Token (CHUNK n) s' i' => parse_chunks fuel' total r (chunk n s') i'
      | Token (HEADER h) s' i' => r' ← add_field h r; parse_headers fuel' total r' s' i'
      | Token DELIMITER s' i' => Ok (Parsed r s' i')
      | other => unexpected other
      end
  end.
(** A message.  Without a body, the parser waits for the end of the input, and the record is
    not passed on; [bodies] of a record with several of them is not modelled. *)
Definition parse_message (total : Z) (r : HTTP_Record) (s : scanner) (i : input) : outcome parsed :=
  p ← parse_head total r s i;
  match p with
  | Parsed r s i =>
      if headerOnly then Ok (Parsed r (finished s) i)
      else if multiBody_ s then Ok (Parsed r s i)
      else
        m ← yylex total r s i;
        match m with
        | Token (BODY _) s i => Ok (Parsed r s i)
        | Token (CHUNK n) s i => parse_chunks (headers_fuel i) total r (chunk n s) i
        | other => unexpected other
        end
  | other => Ok other
  end.
End Grammar.

(** ** Tokens *)
Section Reading.
Context (tolower_ strip : string → string).
Notation rule := (rule tolower_ strip true).
Notation lex := (lex tolower_ strip true).
Notation yylex := (yylex tolower_ strip true).

Lemma yylex_token total r s p ps rest i t s' :
  uncut (p :: ps) rest i → p ≠ [] → finished_ s = false →
  (∀ f j, rule total r s (p ++ f) j = Some (Ok (Token t s' (f :: j)))) →
  ∃ i', yylex total r s i = Ok (Token t s' i') ∧ uncut ps rest i'.
Proof.
  intros Hu Hp Hs Hr. rewrite <- (app_nil_r p) in Hu.
  destruct (lex_token tolower_ strip total r s p [] ps rest i t s' (scan_fuel i)) as (f & j & E & Hj);
    [done..|unfold scan_fuel; fold (size i); lia|done|]. by exists (f :: j).
Qed.
Lemma yylex_look total r s p ps rest i t s1 s' :
  uncut (p :: ps) rest i → p ≠ [] → finished_ s = false →
  (∀ f j, rule total r s (p ++ f) j = Some (Ok (Matched s1 ((p ++ f) :: j)))) →
  (∀ f j, rule total r s1 (p ++ f) j = Some (Ok (Token t s' (f :: j)))) →
  ∃ i', yylex total r s i = Ok (Token t s' i') ∧ uncut ps rest i'.
Proof.
  intros Hu Hp Hs Hr1 Hr2. rewrite <- (app_nil_r p) in Hu.
  destruct (lex_look tolower_ strip total r s p [] ps rest i t s1 s' (scan_fuel i)) as (f & j & E & Hj);
    [done..|unfold scan_fuel; fold (size i); lia|done|done|]. by exists (f :: j).
Qed.

(** ** The fields *)
(** the expression of the grammar finds the name and the value *)
Lemma header_matched n v :
  n ≠ "" → no_char ":" n = true → string_all (λ c, negb (Ascii.eqb c newline || Ascii.eqb c "013")) v = true →
  stops is_space v = true → regex_match (n +:+ ": " +:+ v) header_regex = Some [(2%nat, v); (1%nat, n)].
Proof.
  intros Hne Hn Hv Hs. unfold regex_match, header_regex. cbn [Seqs]. rewrite match_seq.
  apply match_group_run; [done|destruct n; [done|cbn; lia]|done|done|].
  rewrite match_seq. autorewrite with str. rewrite match_lit, match_seq.
  apply (match_run is_space 0 None " " v); [done|cbn; lia|done|done|].
  rewrite <- (string_app_nil_r v) at 1. apply match_group_run; [done|lia|done..].
Qed.
Lemma field_added h rec :
  field_ok h = true →
  add_field tolower_ (field_text h) rec =
    Ok (set_headers (set_header (tolower_ h.1) h.2 (headers rec)) rec).
Proof.
  destruct h as [n v]. unfold field_ok. cbn [fst snd]. rewrite !andb_true_iff.
  intros [[[[[Hne%negb_true_iff%bool_decide_eq_false Hn] Hc] He] Hv] Hb].
  unfold add_field, field_text. cbn [fst snd]. rewrite header_matched; [|done|done| |].
  - cbn [group Nat.eqb]. by rewrite He.
  - revert Hv. apply string_all_mono. by vm_compute.
  - destruct v as [|c v]; [done|]. cbn [stops]. cbn [string_all] in Hv.
    apply andb_true_iff in Hv as [Hc' _].
    by apply (char_mono (λ c, field_char c && negb (is_blank c)) (λ c, negb (is_space c)));
      [vm_compute|rewrite Hc', Hb].
Qed.

Definition field_line (h : string * string) : list Z := string_bytes (field_text h) ++ [13; 10].
Definition add_fields (hs : list (string * string)) (rec : HTTP_Record) : HTTP_Record :=
  foldl (λ r h, set_headers (set_header (tolower_ h.1) h.2 (headers r)) r) rec hs.
Definition fields_bytes (hs : list (string * string)) : list Z := mjoin (field_line <$> hs).
Lemma parse_fields total hs : ∀ rec s ps rest i fuel,
  in_headers (cond s) = true → Forall (λ h, field_ok h = true) hs → finished_ s = false →
  0 <= offset_ s → offset_ s + zlen (fields_bytes hs) + 2 < 2 ^ 32 → (length hs < fuel)%nat →
  uncut ((field_line <$> hs) ++ [13; 10] :: ps) rest i →
  ∃ i', parse_headers tolower_ strip true fuel total rec s i =
    Ok (Parsed (add_fields hs rec)
      (end_of_headers tolower_ strip total (add_fields hs rec) (moved (zlen (fields_bytes hs) + 2) s)) i') ∧
    uncut ps rest i'.
Proof.
  induction hs as [|h hs IH]; intros rec s ps rest i fuel Hs Hhs Hfin Ho Hmax Hf Hu;
    (destruct fuel as [|fuel]; [cbn in Hf; lia|]); cbn [parse_headers].
  - change (zlen (fields_bytes [])) with 0 in *.
    destruct (yylex_token total rec s [13; 10] ps rest i DELIMITER
      (end_of_headers tolower_ strip total rec (add_offset 2 s))) as (i' & -> & Hi); [done..| |].
    { intros f j. by apply headers_end. }
    exists i'. split; [|done]. cbn [mbind outcome_bind]. by rewrite add_offset_moved by lia.
  - apply Forall_cons_1 in Hhs as [Hh Hhs]. destruct (field_clean h Hh) as [H13 H34].
    change (fields_bytes (h :: hs)) with (field_line h ++ fields_bytes hs) in *.
    rewrite zlen_app in *. pose proof (zlen_nonneg (field_line h)). pose proof (zlen_nonneg (fields_bytes hs)).
    destruct (yylex_token total rec s (field_line h) ((field_line <$> hs) ++ [13; 10] :: ps) rest i
      (HEADER (field_text h)) (moved (zlen (field_line h)) s)) as (i' & -> & Hi); [done| |done| |].
    { unfold field_line. by destruct (string_bytes _). }
    { intros f j. unfold field_line. rewrite <- (assoc_L (++)). rewrite header_ruled; [|done|by apply field_lang|done..].
      fold (field_line h). rewrite bytes_string_bytes. by rewrite add_offset_moved by lia. }
    cbn [mbind outcome_bind]. rewrite field_added by done. cbn [mbind outcome_bind].
    destruct (IH (set_headers (set_header (tolower_ h.1) h.2 (headers rec)) rec)
      (moved (zlen (field_line h)) s) ps rest i' fuel) as (i2 & -> & Hi2);
      [done|done|done|cbn; lia|cbn; lia|cbn in Hf; lia|done|].
    exists i2. split; [|done]. rewrite moved_moved, Z.add_assoc. done.
Qed.
(** the map of the fields, when no two have the same name *)
Definition lower (hs : list (string * string)) : list (string * string) :=
  (λ h, (tolower_ h.1, h.2)) <$> hs.
Lemma set_header_new k v hs : k ∉ hs.*1 → set_header k v hs = hs ++ [(k, v)].
Proof.
  induction hs as [|h hs IH]; [done|]. cbn. intros Hk. rewrite decide_False by set_solver.
  rewrite IH by set_solver. done.
Qed.
Lemma add_fields_new hs : ∀ rec,
  NoDup ((headers rec).*1 ++ (lower hs).*1) →
  add_fields hs rec = set_headers (headers rec ++ lower hs) rec.
Proof.
  induction hs as [|h hs IH]; intros rec Hd; cbn.
  - rewrite app_nil_r. by destruct rec.
  - cbn in Hd. rewrite set_header_new by (apply NoDup_app in Hd; set_solver).
    unfold add_fields in IH. rewrite IH; cbn [headers set_headers].
    + by rewrite <- (assoc_L (++)).
    + rewrite fmap_app, <- (assoc_L (++)). done.
Qed.
Lemma end_of_headers_ext total r r' s :
  headers r = headers r' →
  end_of_headers tolower_ strip total r s = end_of_headers tolower_ strip total r' s.
Proof. unfold end_of_headers. by intros ->. Qed.
Lemma fields_fuel hs ps rest i :
  uncut ((field_line <$> hs) ++ [13; 10] :: ps) rest i → (length hs < headers_fuel i)%nat.
Proof.
  intros E%uncut_join. unfold headers_fuel. rewrite E, join_app, !length_app.
  assert (length hs <= length (mjoin (field_line <$> hs)))%nat; [|lia].
  clear E. induction hs as [|h hs IH]; [cbn; lia|].
  change (mjoin (field_line <$> h :: hs)) with (field_line h ++ mjoin (field_line <$> hs)).
  unfold field_line at 1. rewrite !length_app. change (length [13; 10]) with 2%nat. cbn [length]. lia.
Qed.

(** ** First lines *)
Lemma version_typed v :
  known_version v = true → version_type (bytes_string (version_bytes v)) = Some v.
Proof. unfold version_bytes. rewrite bytes_string_bytes. by destruct v. Qed.
Definition status_ok (n : Z) : bool :=
  implb (100 <=? n)
    (matches (times 3 Re.DIGIT) (string_bytes (pretty n)) &&
     matches Re.REASON (string_bytes (StatusToReason n)) && (read_status (pretty n) =? n)).
Lemma status_ok_all : forallb status_ok (seqZ 0 1000) = true.
Proof. by vm_compute. Qed.
Lemma status_digits n :
  100 <= n < 1000 →
  matches (times 3 Re.DIGIT) (string_bytes (pretty n)) = true ∧
  matches Re.REASON (string_bytes (StatusToReason n)) = true ∧ read_status (pretty n) = n.
Proof.
  intros Hn. pose proof (seqZ_forall _ _ status_ok_all n ltac:(lia)) as H. unfold status_ok in H.
  rewrite (proj2 (Z.leb_le _ _)) in H by lia. cbn [implb] in H.
  apply andb_true_iff in H as [[H1 H2]%andb_true_iff H3%Z.eqb_eq]. done.
Qed.

(** the texts of the first line of a request, and of a response *)
Definition request_texts (m : MethodType) (u : string) (v : VersionType) : list (list Z) :=
  [string_bytes (MethodToString m) ++ [32]; string_bytes u ++ [32]; version_bytes v ++ [13; 10]].
Definition response_texts (v : VersionType) (n t : string) : list (list Z) :=
  [version_bytes v ++ [32]; string_bytes n ++ [32]; string_bytes t ++ [13; 10]].

(** the next line, of a condition with one rule *)
Section Line.
Context (total : Z) (rec : HTTP_Record) (s : scanner) (n : Z) (c c' : condition) (r : re) (x : Z)
  (t : list Z) (tok : string → token) (l : list Z) (ps : list (list Z)) (rest : list Z) (i : input).
Hypothesis (c_rules : rules c = [(Cat r (lits (x :: t)), Return tok (length (x :: t)) c')])
  (r_guarded : guarded x x r = true) (r_matches : matches r l = true)
  (s_open : finished_ s = false) (s_offset : 0 <= offset_ s) (n_nonneg : 0 <= n)
  (l_offset : offset_ s + n + zlen (l ++ x :: t) < 2 ^ 32)
  (i_uncut : uncut ((l ++ x :: t) :: ps) rest i).

Lemma line_token f j :
  rule total rec (begin_ c (moved n s)) ((l ++ x :: t) ++ f) j =
    Some (Ok (Token (tok (bytes_string l)) (begin_ c' (moved (n + zlen (l ++ x :: t)) s)) (f :: j))).
Proof using c_rules r_guarded r_matches s_offset n_nonneg l_offset.
  rewrite <- (assoc_L (++)), (line_ruled _ _ _ _ _ r x t tok c') by done.
  pose proof (zlen_nonneg (l ++ x :: t)).
  rewrite add_offset_moved by (cbn; lia). by rewrite moved_begin, moved_moved, begin_begin.
Qed.
Lemma yylex_line :
  ∃ i', yylex total rec (begin_ c (moved n s)) i =
    Ok (Token (tok (bytes_string l)) (begin_ c' (moved (n + zlen (l ++ x :: t)) s)) i') ∧
    uncut ps rest i'.
Proof using All.
  eapply yylex_token; [exact i_uncut|by destruct l|done|]. apply line_token.
Qed.
(** the first line, that is looked at first *)
Lemma yylex_first :
  cond s = INITIAL → n = 0 →
  (∀ f j, rule total rec s ((l ++ x :: t) ++ f) j =
    Some (Ok (Matched (begin_ c s) (((l ++ x :: t) ++ f) :: j)))) →
  ∃ i', yylex total rec s i =
    Ok (Token (tok (bytes_string l)) (begin_ c' (moved (zlen (l ++ x :: t)) s)) i') ∧
    uncut ps rest i'.
Proof using All.
  intros Hs Hn Hr. eapply yylex_look; [exact i_uncut|by destruct l|done|exact Hr|].
  intros f j. pose proof (line_token f j) as Hl. rewrite Hn in Hl.
  replace (moved 0 s) with s in Hl by (destruct s; unfold moved; cbn; by rewrite Z.add_0_r).
  exact Hl.
Qed.
End Line.

Lemma request_parsed total rec s m u v hs ps rest i :
  cond s = INITIAL → known_method m = true → known_version v = true →
  matches Re.REQUEST_URI (string_bytes u) = true → Forall (λ h, field_ok h = true) hs →
  finished_ s = false → 0 <= offset_ s →
  offset_ s + zlen (mjoin (request_texts m u v)) + zlen (fields_bytes hs) + 2 < 2 ^ 32 →
  uncut (request_texts m u v ++ (field_line <$> hs) ++ [13; 10] :: ps) rest i →
  let r := add_fields hs (set_URI u (set_version v rec)) in
  ∃ i', parse_head tolower_ strip true total rec s i =
    Ok (Parsed (set_method (MethodToType (MethodToString m)) r)
      (end_of_headers tolower_ strip total r (begin_ request_headers_
        (moved (zlen (mjoin (request_texts m u v)) + (zlen (fields_bytes hs) + 2)) s))) i') ∧
    uncut ps rest i'.
Proof.
  intros Hs Hm Hv Hu Hhs Hfin Ho Hmax Huncut r. pose proof (zlen_nonneg (fields_bytes hs)).
  unfold request_texts in *. cbn [app mjoin list_join] in *. rewrite app_nil_r in *.
  set (l1 := string_bytes (MethodToString m) ++ [32]) in *.
  set (l2 := string_bytes u ++ [32]) in *. set (l3 := version_bytes v ++ [13; 10]) in *.
  rewrite !zlen_app in *.
  pose proof (zlen_nonneg l1). pose proof (zlen_nonneg l2). pose proof (zlen_nonneg l3).
  destruct (yylex_first total rec s 0 request uri Re.METHOD 32 [] METHOD
    (string_bytes (MethodToString m)) _ _ _ eq_refl eq_refl ltac:(by destruct m) Hfin Ho ltac:(lia)
    ltac:(fold l1; lia) Huncut Hs eq_refl) as (i1 & E1 & Hi1).
  { intros f j. rewrite <- (assoc_L (++)). by apply method_ruled. }
  fold l1 in E1. unfold parse_head. rewrite E1. cbn [mbind outcome_bind]. unfold parse_request.
  destruct (yylex_line total rec s (zlen l1) uri version_ Re.REQUEST_URI 32 [] URI_
    (string_bytes u) _ _ _ eq_refl eq_refl Hu Hfin Ho ltac:(fold l1; lia) ltac:(fold l1 l2; lia) Hi1) as (i2 & E2 & Hi2).
  fold l2 in E2. rewrite E2. cbn [mbind outcome_bind].
  destruct (yylex_line total rec s (zlen l1 + zlen l2)
    version_ request_headers_ Re.VERSION 13 [10] VERSION_ (version_bytes v) _ _ _ eq_refl eq_refl
    (version_matches v Hv) Hfin Ho ltac:(lia) ltac:(fold l3; lia) Hi2) as (i3 & E3 & Hi3).
  fold l3 in E3. rewrite E3. cbn [mbind outcome_bind]. rewrite !bytes_string_bytes, version_typed by done.
  edestruct (parse_fields total hs) as (i4 & -> & Hi4); [|done|..|by eapply fields_fuel|exact Hi3|];
    [done|done|cbn; lia|cbn; lia|].
  exists i4. split; [|done]. cbn [mbind outcome_bind]. rewrite moved_begin, moved_moved.
  by rewrite !Z.add_assoc.
Qed.
Lemma response_parsed total rec s v n t hs ps rest i :
  cond s = INITIAL → known_version v = true →
  matches (times 3 Re.DIGIT) (string_bytes n) = true → matches Re.REASON (string_bytes t) = true →
  Forall (λ h, field_ok h = true) hs → finished_ s = false → 0 <= offset_ s →
  offset_ s + zlen (mjoin (response_texts v n t)) + zlen (fields_bytes hs) + 2 < 2 ^ 32 →
  uncut (response_texts v n t ++ (field_line <$> hs) ++ [13; 10] :: ps) rest i →
  let r := add_fields hs (set_status (read_status n) (set_reason t rec)) in
  ∃ i', parse_head tolower_ strip true total rec s i =
    Ok (Parsed (set_version v r)
      (end_of_headers tolower_ strip total r (begin_ response_headers_
        (moved (zlen (mjoin (response_texts v n t)) + (zlen (fields_bytes hs) + 2)) s))) i') ∧
    uncut ps rest i'.
Proof.
  intros Hs Hv Hn Ht Hhs Hfin Ho Hmax Huncut r. pose proof (zlen_nonneg (fields_bytes hs)).
  unfold response_texts in *. cbn [app mjoin list_join] in *. rewrite app_nil_r in *.
  set (l1 := version_bytes v ++ [32]) in *.
  set (l2 := string_bytes n ++ [32]) in *. set (l3 := string_bytes t ++ [13; 10]) in *.
  rewrite !zlen_app in *.
  pose proof (zlen_nonneg l1). pose proof (zlen_nonneg l2). pose proof (zlen_nonneg l3).
  destruct (yylex_first total rec s 0 response status_ Re.VERSION 32 [] VERSION_
    (version_bytes v) _ _ _ eq_refl eq_refl (version_matches v Hv) Hfin Ho ltac:(lia)
    ltac:(fold l1; lia) Huncut Hs eq_refl) as (i1 & E1 & Hi1).
  { intros f j. rewrite <- (assoc_L (++)). by apply version_ruled. }
  fold l1 in E1. unfold parse_head. rewrite E1. cbn [mbind outcome_bind]. unfold parse_response.
  destruct (yylex_line total rec s (zlen l1) status_ reason_ (times 3 Re.DIGIT) 32 [] STATUS
    (string_bytes n) _ _ _ eq_refl eq_refl Hn Hfin Ho ltac:(fold l1; lia) ltac:(fold l1 l2; lia) Hi1)
    as (i2 & E2 & Hi2).
  fold l2 in E2. rewrite E2. cbn [mbind outcome_bind].
  destruct (yylex_line total rec s (zlen l1 + zlen l2) reason_ response_headers_ Re.REASON 13 [10] REASON
    (string_bytes t) _ _ _ eq_refl eq_refl Ht Hfin Ho ltac:(lia) ltac:(fold l3; lia) Hi2)
    as (i3 & E3 & Hi3).
  fold l3 in E3. rewrite E3. cbn [mbind outcome_bind]. rewrite !bytes_string_bytes.
  edestruct (parse_fields total hs) as (i4 & -> & Hi4); [|done|..|by eapply fields_fuel|exact Hi3|];
    [done|done|cbn; lia|cbn; lia|].
  exists i4. split; [|done]. cbn [mbind outcome_bind]. rewrite version_typed by done.
  rewrite moved_begin, moved_moved. by rewrite !Z.add_assoc.
Qed.

(** ** The heads that the streamer writes *)

(** the address that is sent *)
Definition target (r : HTTP_Record) : string :=
  URI r +:+ match method r with HTTP_METHOD_GET => get_form (form r) | _ => "" end.
(** the first lines that can be read *)
Definition line_ok (r : HTTP_Record) : Prop :=
  known_version (version r) = true ∧
  if isRequest r then
    (method r = HTTP_METHOD_GET ∨ method r = HTTP_METHOD_POST) ∧
    matches Re.REQUEST_URI (string_bytes (target r)) = true
  else 100 <= status r < 1000.
(** what they are read as *)
Definition as_read (r : HTTP_Record) (hs : list (string * string)) : HTTP_Record :=
  if isRequest r
  then MkRecord [] hs (method r) "" Status.HTTP_STATUS_INVALID (target r) (version r)
  else MkRecord [] hs HTTP_METHOD_INVALID (StatusToReason (status r)) (status r) "" (version r).
Definition headers_condition (r : HTTP_Record) : condition :=
  if isRequest r then request_headers_ else response_headers_.
(** the texts of the head *)
Definition first_texts (r : HTTP_Record) : list (list Z) :=
  if isRequest r then request_texts (method r) (target r) (version r)
  else response_texts (version r) (pretty (status r)) (StatusToReason (status r)).
Definition head_texts (r : HTTP_Record) (hs : list (string * string)) : list (list Z) :=
  first_texts r ++ (field_line <$> hs) ++ [[13; 10]].

Lemma head_parsed total s r hs ps rest i :
  line_ok r → Forall (λ h, field_ok h = true) hs → NoDup (lower hs).*1 →
  cond s = INITIAL → finished_ s = false → 0 <= offset_ s →
  offset_ s + zlen (mjoin (head_texts r hs)) < 2 ^ 32 →
  uncut (head_texts r hs ++ ps) rest i →
  ∃ i', parse_head tolower_ strip true total HTTP_Record_init s i =
    Ok (Parsed (as_read r (lower hs))
      (end_of_headers tolower_ strip total (as_read r (lower hs))
        (begin_ (headers_condition r) (moved (zlen (mjoin (head_texts r hs))) s))) i') ∧
    uncut ps rest i'.
Proof.
  intros [Hv Hl] Hhs Hd Hs Hfin Ho Hmax Hu.
  assert (zlen (mjoin (head_texts r hs)) = zlen (mjoin (first_texts r)) + (zlen (fields_bytes hs) + 2)) as El
    by (unfold head_texts; rewrite !join_app, !zlen_app; done).
  rewrite El in *. unfold head_texts in Hu. rewrite <- !(assoc_L (++)) in Hu. cbn [app] in Hu.
  unfold first_texts, as_read, headers_condition in *. destruct (isRequest r).
  - destruct Hl as [Hm Ht].
    destruct (request_parsed total HTTP_Record_init s (method r) (target r) (version r) hs ps rest i)
      as (i' & -> & Hi'); [done|by destruct Hm as [-> | ->]|done|done|done|done|done|lia|done|].
    exists i'. split; [|done]. rewrite add_fields_new by done.
    assert (MethodToType (MethodToString (method r)) = method r) as -> by (by destruct Hm as [-> | ->]).
    done.
  - destruct (status_digits _ Hl) as (H3 & Ht & Hn).
    destruct (response_parsed total HTTP_Record_init s (version r) (pretty (status r))
      (StatusToReason (status r)) hs ps rest i)
      as (i' & -> & Hi'); [done|done|done|done|done|done|done|lia|done|].
    exists i'. split; [|done]. rewrite add_fields_new by done. by rewrite Hn.
Qed.
(** these are the octets of the head *)
Lemma head_texts_bytes r hs :
  (isRequest r = true → method r = HTTP_METHOD_GET ∨ method r = HTTP_METHOD_POST) →
  mjoin (head_texts r hs) =
    string_bytes (start_line r +:+ crlf +:+ concat (header_text <$> hs) +:+ crlf).
Proof.
  intros Hm. unfold head_texts. rewrite !join_app, !string_bytes_app.
  assert (mjoin (field_line <$> hs) = string_bytes (concat (header_text <$> hs))) as ->.
  { induction hs as [|h hs IH]; [done|].
    change (mjoin (field_line <$> h :: hs)) with (field_line h ++ mjoin (field_line <$> hs)).
    change (concat (header_text <$> h :: hs)) with (header_text h +:+ concat (header_text <$> hs)).
    rewrite IH, string_bytes_app. f_equal. unfold field_line, header_text, field_text.
    by rewrite !string_bytes_app, <- !(assoc_L (++)). }
  change (string_bytes crlf) with [13; 10]. change (mjoin [[13; 10]]) with [13; 10].
  rewrite (assoc_L (++) _ [13; 10]). f_equal.
  unfold first_texts, start_line. destruct (isRequest r).
  - unfold request_texts, request_line, target, version_bytes, version_text.
    destruct (Hm eq_refl) as [-> | ->]; cbn [mjoin list_join];
      rewrite !string_bytes_app, <- !(assoc_L (++)), ?app_nil_r; done.
  - unfold response_texts, status_line, version_bytes, version_text. cbn [mjoin list_join].
    by rewrite !string_bytes_app, <- !(assoc_L (++)), ?app_nil_r.
Qed.

(** ** A body with a length *)
Definition octets (b : list Z) : list (list Z) := (λ x, [x]) <$> b.
(** the state behind a body *)
Definition behind_body (s : scanner) : scanner :=
  MkScanner INITIAL (chunks_ s) (offset_ s) (contentLengthOrChunkSize_ s) 0 true false.

Lemma data_lexed total rec b : ∀ s ps rest i fuel,
  cond s = data → multiBody_ s = false → finished_ s = false → bodyOrChunkBytesToSkip_ s = zlen b →
  0 < zlen b < 2 ^ 64 → uncut (octets b ++ ps) rest i → (size i <= fuel)%nat →
  ∃ i', lex fuel total rec s i = Ok (Token (BODY (contentLengthOrChunkSize_ s)) (behind_body s) i') ∧
    uncut ps rest i'.
Proof.
  induction b as [|x b IH]; intros s ps rest i fuel Hs Hm Hfin Hskip Hb Hu Hf; [by destruct Hb|].
  rewrite zlen_cons in Hskip, Hb. pose proof (zlen_nonneg b).
  assert (∀ f j, rule total rec s ([x] ++ f) j = Some (perform tolower_ strip true total rec Octet s [x] f j)) as Hr
    by (intros; apply octet_ruled; by rewrite Hs).
  unfold perform in Hr. cbn [bodyOrChunkBytesSkipped bodyOrChunkBytesToSkip_] in Hr.
  rewrite Hskip, u64_small in Hr by lia. replace (1 + zlen b - 1) with (zlen b) in Hr by lia.
  destruct (zlen b =? 0) eqn:E; bool_lia.
  - apply zlen_0_inv in E as ->.
    destruct (lex_token tolower_ strip total rec s [x] [] ps rest i (BODY (contentLengthOrChunkSize_ s))
      (behind_body s) fuel) as (f & j & E & Hj); [done|done|done|done| |by exists (f :: j)].
    intros f j. rewrite Hr. unfold behind_body, bodyOrChunkBytesSkipped. cbn -[u64].
    by rewrite Hm, Hskip.
  - destruct (lex_taken tolower_ strip total rec s [x] (octets b ++ ps) rest i (bodyOrChunkBytesSkipped 1 s) fuel)
      as (i1 & fuel1 & -> & Hu1 & Hf1); [done|done|done|done|by intros f j; rewrite Hr|].
    destruct (IH (bodyOrChunkBytesSkipped 1 s) ps rest i1 fuel1) as (i' & -> & Hi');
      [done|done|done| |lia|done|done|by exists i'].
    cbn. rewrite Hskip, u64_small; lia.
Qed.
(** the first octet is counted by another rule *)
Lemma body_lexed total rec s b ps rest i :
  cond s = body → multiBody_ s = false → finished_ s = false → bodyOrChunkBytesToSkip_ s = zlen b →
  2 <= zlen b < 2 ^ 64 → uncut (octets b ++ ps) rest i →
  ∃ i', yylex total rec s i = Ok (Token (BODY (contentLengthOrChunkSize_ s)) (behind_body s) i') ∧
    uncut ps rest i'.
Proof.
  intros Hs Hm Hfin Hskip Hb Hu. destruct b as [|x b]; [by destruct Hb|].
  rewrite zlen_cons in Hskip, Hb.
  destruct (lex_taken tolower_ strip total rec s [x] (octets b ++ ps) rest i
    (begin_ data (bodyOrChunkBytesSkipped 1 s)) (scan_fuel i))
    as (i1 & fuel1 & E & Hu1 & Hf1); [done|done|done|unfold scan_fuel; fold (size i); lia| |].
  { intros f j. rewrite (octet_ruled _ _ _ _ _ _ _ _ FirstOctet) by (by rewrite Hs).
    unfold perform. by rewrite Hskip, (proj2 (Z.eqb_neq _ _)) by lia. }
  unfold HttpScanner.yylex. rewrite E.
  destruct (data_lexed total rec b (begin_ data (bodyOrChunkBytesSkipped 1 s)) ps rest i1 fuel1)
    as (i' & -> & Hi'); [done|done|done| |lia|done|done|by exists i'].
  cbn. rewrite Hskip, u64_small; lia.
Qed.
(** so that a body of one octet is never read: the counter wraps around *)
Lemma lex_starves total rec (P : scanner → Z → Prop) fuel : ∀ s i,
  (∀ s n, P s n → finished_ s = false ∧ ∃ a, rules (cond s) = [(Re.OCTET, a)] ∧
     ∀ x bs j, 0 < n → ∃ s', P s' (n - 1) ∧
       perform tolower_ strip true total rec a s [x] bs j = Ok (Matched s' (bs :: j))) →
  P s (zlen (mjoin i)) → lex fuel total rec s i = Ok Waits.
Proof.
  induction fuel as [|fuel IH]; intros s i HP Hs; [done|].
  destruct (HP _ _ Hs) as (Hfin & a & Ha & Hx).
  destruct i as [|[|x bs] i]; unfold HttpScanner.lex in *; cbn [scan]; unfold wraps; cbn [negb orb].
  - by rewrite Hfin.
  - rewrite Hfin. destruct i as [|b i]; [done|by apply IH].
  - change (x :: bs) with ([x] ++ bs). rewrite (octet_ruled _ _ _ _ _ _ _ _ a) by done.
    change (mjoin ((x :: bs) :: i)) with (x :: mjoin (bs :: i)) in *. rewrite zlen_cons in *.
    pose proof (zlen_nonneg (mjoin (bs :: i))).
    destruct (Hx x bs i) as (s' & Hs' & ->); [lia|]. cbn [mbind outcome_bind].
    apply IH; [done|]. by replace (1 + zlen (mjoin (bs :: i)) - 1) with (zlen (mjoin (bs :: i))) in Hs' by lia.
Qed.
(** the counter, with [n] octets still to come *)
Definition starving (s : scanner) (n : Z) : Prop :=
  finished_ s = false ∧ 0 <= n < 2 ^ 64 - 1 ∧
  (cond s = body ∧ bodyOrChunkBytesToSkip_ s = 1 ∨
   cond s = data ∧ (bodyOrChunkBytesToSkip_ s = 0 ∨ n < bodyOrChunkBytesToSkip_ s < 2 ^ 64)).
(** HTTP_Scanner, a body of one octet: it is never read, whatever else is received *)
Theorem one_octet_body_never_read total rec s i :
  cond s = body → finished_ s = false → bodyOrChunkBytesToSkip_ s = 1 →
  zlen (mjoin i) < 2 ^ 64 - 1 → yylex total rec s i = Ok Waits.
Proof.
  intros Hs Hfin Hskip Hn. apply (lex_starves _ _ starving).
  2: { pose proof (zlen_nonneg (mjoin i)). unfold starving. split_and!; [done|lia|lia|by left]. }
  clear. intros s n (Hfin & Hn & [[Hs Hskip]|[Hs Hskip]]); (split; [done|]); rewrite Hs;
    eexists; (split; [reflexivity|]); intros x bs j Hpos; unfold perform.
  - rewrite Hskip. eexists. split; [|reflexivity]. unfold starving. cbn. rewrite Hskip.
    split_and!; [done|lia|lia|]. right. split; [done|by left].
  - assert (bodyOrChunkBytesToSkip_ (bodyOrChunkBytesSkipped 1 s) =
      if bodyOrChunkBytesToSkip_ s =? 0 then 2 ^ 64 - 1 else bodyOrChunkBytesToSkip_ s - 1) as E.
    { cbn. destruct Hskip as [-> | Hskip]; [done|].
      rewrite (proj2 (Z.eqb_neq _ _)) by lia. apply u64_small. lia. }
    assert (0 < bodyOrChunkBytesToSkip_ (bodyOrChunkBytesSkipped 1 s) ∧
      n - 1 < bodyOrChunkBytesToSkip_ (bodyOrChunkBytesSkipped 1 s) < 2 ^ 64) as Hb.
    { rewrite E. destruct (_ =? 0) eqn:E0; bool_lia. }
    rewrite (proj2 (Z.eqb_neq _ _)) by lia. eexists. split; [|reflexivity].
    unfold starving. split_and!; [done|lia|lia|]. right. split; [done|]. right. apply Hb.
Qed.

(** ** Chunks, as they are sent

    A chunk: the hexadecimal digits of its size, and its data; the digits of the last one. *)
Definition chunk_text : Type := list Z * list Z.
Definition chunk_ok (x : chunk_text) : Prop :=
  digits_ok x.1 ∧ hex_number 0 (bytes_string x.1) = zlen x.2 ∧ 0 < zlen x.2.
Definition last_ok (zs : list Z) : Prop := digits_ok zs ∧ hex_number 0 (bytes_string zs) = 0.
(** from the line of the first on *)
Fixpoint chunks_from (cs : list chunk_text) (zs : list Z) : list Z :=
  match cs with
  | [] => line zs ++ [13; 10]
  | (ds, d) :: cs' => line ds ++ d ++ [13; 10] ++ chunks_from cs' zs
  end.
Definition chunk_data (cs : list chunk_text) : list Z := cs ≫= snd.
(** The texts that are not to be cut: the lines, and the end.  The line of the last chunk and
    the delimiter behind it are one such text: the scanner sets [finished_] with the line
    ([LastChunk]), and does not wait for a delimiter in the next fragment ([wraps]); such a body
    is refused ([HttpParser.end_cut_dropped]). *)
Definition chunk_texts (x : chunk_text) : list (list Z) := line x.1 :: octets x.2 ++ [[13]; [10]].
Definition end_text (zs : list Z) : list Z := line zs ++ [13; 10].
Definition body_texts (cs : list chunk_text) (zs : list Z) : list (list Z) :=
  mjoin (chunk_texts <$> cs) ++ [end_text zs].
(** the offsets of the data, from that of the first line *)
Fixpoint table (o : Z) (cs : list chunk_text) (zs : list Z) : list (Z * Z) :=
  match cs with
  | [] => [(o + zlen zs + 2, 0)]
  | (ds, d) :: cs' =>
      let p := o + zlen ds + 2 in (p, zlen d) :: table (p + zlen d + 2) cs' zs
  end.

Lemma zlen_line ds : zlen (line ds) = zlen ds + 2.
Proof. unfold line. by rewrite zlen_app. Qed.

(** the data of a chunk, and the delimiter *)
Definition behind_chunk (s : scanner) : scanner :=
  MkScanner chunked_body (chunks_ s) (offset_ s) (contentLengthOrChunkSize_ s) 0 (finished_ s) (multiBody_ s).
Lemma chunk_data_lexed total rec d : ∀ s ps rest i fuel,
  cond s = data_2 → finished_ s = false → bodyOrChunkBytesToSkip_ s = zlen d → 0 < zlen d < 2 ^ 64 →
  uncut (octets d ++ [13] :: [10] :: ps) rest i → (size i <= fuel)%nat →
  ∃ i', lex fuel total rec s i = Ok (Token (CHUNK (contentLengthOrChunkSize_ s)) (behind_chunk s) i') ∧
    uncut ps rest i'.
Proof.
  induction d as [|x d IH]; intros s ps rest i fuel Hs Hfin Hskip Hd Hu Hf; [by destruct Hd|].
  rewrite zlen_cons in Hskip, Hd. pose proof (zlen_nonneg d).
  assert (∀ f j, rule total rec s ([x] ++ f) j = Some (perform tolower_ strip true total rec ChunkOctet s [x] f j)) as Hr
    by (intros; apply octet_ruled; by rewrite Hs).
  unfold perform in Hr. cbn [bodyOrChunkBytesSkipped bodyOrChunkBytesToSkip_] in Hr.
  rewrite Hskip, u64_small in Hr by lia. replace (1 + zlen d - 1) with (zlen d) in Hr by lia.
  destruct (zlen d =? 0) eqn:E; bool_lia.
  - apply zlen_0_inv in E as ->. cbn [octets fmap list_fmap app] in Hu.
    destruct (lex_next tolower_ strip total rec s _ _ _ _ Hu) as (f & j & k & Hj & Hk & Hl); [done|done|].
    destruct (yyinput_text 13 _ _ _ Hj) as (i1 & E1 & H1).
    destruct (yyinput_text 10 _ _ _ H1) as (i2 & E2 & H2).
    rewrite size_text in Hk. cbn [length] in Hk. exists i2. split; [|done].
    replace fuel with (k + S (fuel - k - 1))%nat by lia. rewrite Hl.
    erewrite lex_rule; [|done|].
    2: { rewrite Hr, E1. cbn [mbind outcome_bind Z.eqb]. rewrite E2. reflexivity. }
    cbv iota beta. unfold behind_chunk, begin_, bodyOrChunkBytesSkipped. cbn -[u64].
    by rewrite Hskip.
  - destruct (lex_taken tolower_ strip total rec s [x] (octets d ++ [13] :: [10] :: ps) rest i
      (bodyOrChunkBytesSkipped 1 s) fuel)
      as (i1 & fuel1 & -> & Hu1 & Hf1); [done|done|done|done|by intros f j; rewrite Hr|].
    destruct (IH (bodyOrChunkBytesSkipped 1 s) ps rest i1 fuel1) as (i' & -> & Hi');
      [done|done| |lia|done|done|by exists i'].
    cbn. rewrite Hskip, u64_small; lia.
Qed.

(** what the scanner adds for the last chunk, and where it will be *)
Definition pending (s : scanner) : Z :=
  if currentChunkSize s =? 0 then 0 else currentChunkSize s + 2.
Definition at_line (s : scanner) (o : Z) : Prop :=
  cond s = chunked_body ∧ finished_ s = false ∧ 0 <= offset_ s ∧ 0 <= pending s ∧
  o = offset_ s + pending s.

(** a line, as it is looked at *)
Lemma line_looked total rec s o ds n f j :
  at_line s o → digits_ok ds → hex_number 0 (bytes_string ds) = n → 0 <= n < 2 ^ 32 → o < 2 ^ 32 →
  rule total rec s (line ds ++ f) j =
    Some (Ok (Matched (MkScanner chunk_ (chunks_ s) o n n false (multiBody_ s)) ((line ds ++ f) :: j))).
Proof.
  intros (Hs & Hfin & Ho & Hp & ->) Hds Hn Hb Hmax. unfold line. rewrite <- (assoc_L (++)).
  rewrite (looked_at _ _ _ _ _ _ _ _ n) by (done || lia). do 3 f_equal.
  unfold pending in *. destruct (currentChunkSize s =? 0) eqn:E;
    unfold begin_, contentLengthOrChunkSize, add_offset; cbn; rewrite Hfin.
  - by rewrite Z.add_0_r.
  - by rewrite u32_small, u64_small by lia.
Qed.
(** a chunk, from its line on *)
Lemma chunk_lexed total rec s o ds d ps rest i :
  at_line s o → chunk_ok (ds, d) → zlen d < 2 ^ 32 → o + zlen ds + 2 < 2 ^ 32 →
  uncut (line ds :: octets d ++ [13] :: [10] :: ps) rest i →
  ∃ i', yylex total rec s i = Ok (Token (CHUNK (zlen d))
      (MkScanner chunked_body (chunks_ s) (o + zlen ds + 2) (zlen d) 0 false (multiBody_ s)) i') ∧
    uncut ps rest i'.
Proof.
  intros Hs (Hds & Hn & Hd) Hd32 Hmax Hu. cbn [fst snd] in *.
  pose proof (zlen_nonneg ds). pose proof Hs as (_ & Hfin & Ho & Hp & Eo).
  destruct (lex_look_taken tolower_ strip total rec s (line ds) _ rest i
    (MkScanner chunk_ (chunks_ s) o (zlen d) (zlen d) false (multiBody_ s))
    (MkScanner data_2 (chunks_ s) (o + zlen ds + 2) (zlen d) (zlen d) false (multiBody_ s)) (scan_fuel i) Hu)
    as (i1 & fuel & E & Hu1 & Hf); [by destruct ds|done|unfold scan_fuel; fold (size i); lia| | |].
  { intros f j. apply line_looked; done || lia. }
  { intros f j. unfold line. rewrite <- (assoc_L (++)), chunk_begun by done.
    unfold perform, add_offset. cbn [contentLengthOrChunkSize_ offset_].
    rewrite (proj2 (Z.eqb_neq (zlen d) 0)) by lia. rewrite zlen_app. change (zlen [13; 10]) with 2.
    by rewrite u32_small, u64_small, Z.add_assoc by lia. }
  unfold HttpScanner.yylex. rewrite E.
  edestruct (chunk_data_lexed total rec d) as (i' & -> & Hi');
    [..|exact Hu1|exact Hf|]; [done|done|done|lia|]. by exists i'.
Qed.
(** the last chunk, which is in one buffer with the end *)
Lemma last_lexed total rec s o zs ps rest i :
  at_line s o → last_ok zs → o + zlen zs + 2 < 2 ^ 32 → uncut ((line zs ++ [13; 10]) :: ps) rest i →
  ∃ f j, yylex total rec s i = Ok (Token (CHUNK 0)
      (MkScanner chunked_body (chunks_ s) (o + zlen zs + 2) 0 0 true (multiBody_ s)) (([13; 10] ++ f) :: j)) ∧
    uncut ps rest (f :: j).
Proof.
  intros Hs (Hds & Hn) Hmax Hu. pose proof (zlen_nonneg zs). pose proof Hs as (_ & Hfin & Ho & Hp & Eo).
  destruct (lex_look tolower_ strip total rec s (line zs) [13; 10] ps rest i (CHUNK 0)
    (MkScanner chunk_ (chunks_ s) o 0 0 false (multiBody_ s))
    (MkScanner chunked_body (chunks_ s) (o + zlen zs + 2) 0 0 true (multiBody_ s)) (scan_fuel i) Hu)
    as (f & j & E & Hu1); [by destruct zs|done|unfold scan_fuel; fold (size i); lia| | |by exists f, j].
  { intros f j. apply line_looked; done || lia. }
  { intros f j. unfold line at 1. rewrite <- (assoc_L (++)), chunk_begun by done.
    unfold perform, add_offset. cbn [contentLengthOrChunkSize_ offset_].
    rewrite zlen_app. change (zlen [13; 10]) with 2. cbn [Z.eqb].
    by rewrite u32_small, u64_small, Z.add_assoc by lia. }
Qed.

(** ** The table of chunks *)

(** a chunk has been read: the table gets its offset and size *)
Lemma chunk_pushed cs o n fin multi toskip content :
  0 <= o < 2 ^ 32 → 0 <= n < 2 ^ 32 →
  chunk n (MkScanner chunked_body cs o content toskip fin multi) =
    MkScanner chunked_body (cs ++ [(o, n)]) o content toskip fin multi.
Proof. intros Ho Hn. unfold chunk, offset. cbn. by rewrite !u32_small by lia. Qed.
Lemma at_next_line cs o n multi toskip content :
  0 <= o → 0 < n →
  at_line (MkScanner chunked_body (cs ++ [(o, n)]) o content toskip false multi) (o + n + 2).
Proof.
  intros Ho Hn. unfold at_line, pending, currentChunkSize. cbn. rewrite last_snoc. cbn.
  rewrite (proj2 (Z.eqb_neq n 0)) by lia. split_and!; try done; lia.
Qed.
(** what the parser has found, where the lines of the chunks begin *)
Definition chunks_found (s : scanner) (o : Z) (cs : list chunk_text) (zs : list Z) (s' : scanner) : Prop :=
  chunks_ s' = chunks_ s ++ table o cs zs ∧
  offset_ s' = o + zlen (chunks_from cs zs) ∧ finished_ s' = true ∧
  cond s' = INITIAL ∧ multiBody_ s' = multiBody_ s.

Lemma end_parsed total rec s f j fuel :
  cond s = chunked_body →
  parse_chunks tolower_ strip true (S fuel) total rec s (([13; 10] ++ f) :: j) =
    Ok (Parsed rec (begin_ INITIAL (add_offset 2 s)) (f :: j)).
Proof.
  intros Hs. cbn [parse_chunks]. unfold HttpScanner.yylex, scan_fuel.
  by erewrite lex_rule; [|done|by apply chunks_end].
Qed.
Lemma zlen_chunks_from_cons ds d cs zs :
  zlen (chunks_from ((ds, d) :: cs) zs) = zlen ds + 2 + (zlen d + (2 + zlen (chunks_from cs zs))).
Proof. cbn [chunks_from]. by rewrite !zlen_app, zlen_line. Qed.
Lemma body_texts_cons ds d cs zs ps :
  body_texts ((ds, d) :: cs) zs ++ ps =
    line ds :: octets d ++ [13] :: [10] :: body_texts cs zs ++ ps.
Proof.
  unfold body_texts. change (mjoin (chunk_texts <$> (ds, d) :: cs)) with
    (chunk_texts (ds, d) ++ mjoin (chunk_texts <$> cs)).
  unfold chunk_texts at 1. cbn [fst snd]. rewrite <- !(assoc_L (++)). cbn [app].
  by rewrite <- !(assoc_L (++)).
Qed.

Lemma octets_bytes d : mjoin (octets d) = d.
Proof. induction d as [|x d IH]; [done|].
  change (mjoin (octets (x :: d))) with (x :: mjoin (octets d)). by rewrite IH.
Qed.
Lemma body_texts_bytes cs zs : mjoin (body_texts cs zs) = chunks_from cs zs.
Proof.
  induction cs as [|[ds d] cs IH]; [cbn; by rewrite app_nil_r|].
  pose proof (body_texts_cons ds d cs zs []) as E. rewrite !app_nil_r in E.
  etrans; [exact (f_equal mjoin E)|].
  change (line ds :: octets d ++ [13] :: [10] :: body_texts cs zs)
    with ([line ds] ++ octets d ++ [[13]; [10]] ++ body_texts cs zs).
  rewrite !join_app, octets_bytes, IH. cbn. by rewrite app_nil_r.
Qed.
Lemma chunks_fuel cs zs : (length cs + 2 <= length (chunks_from cs zs))%nat.
Proof.
  induction cs as [|[ds d] cs IH]; cbn [length chunks_from]; rewrite !length_app; unfold line;
    rewrite ?length_app; cbn [length]; lia.
Qed.
(** the chunks, the first of which has been read as a token *)
Lemma chunks_parsed total rec zs ps rest cs : ∀ s o i,
  last_ok zs → Forall chunk_ok cs → at_line s o → o + zlen (chunks_from cs zs) < 2 ^ 32 →
  uncut (body_texts cs zs ++ ps) rest i →
  ∃ n s1 i1 s' i', yylex total rec s i = Ok (Token (CHUNK n) s1 i1) ∧
    (length cs < headers_fuel i1)%nat ∧
    (∀ fuel, (length cs < fuel)%nat →
       parse_chunks tolower_ strip true fuel total rec (chunk n s1) i1 = Ok (Parsed rec s' i')) ∧
    uncut ps rest i' ∧ chunks_found s o cs zs s'.
Proof.
  induction cs as [|[ds d] cs IH]; intros s o i Hz Hcs Hs Hmax Hu; pose proof Hs as (_ & _ & Ho & Hp & Eo).
  - cbn [body_texts end_text mjoin list_join fmap list_fmap app chunks_from] in *. rewrite zlen_app, zlen_line in Hmax.
    change (zlen [13; 10]) with 2 in *. pose proof (zlen_nonneg zs).
    destruct (last_lexed total rec s o zs ps rest i) as (f & j & E & Hj); [done|done|lia|done|].
    eexists 0, _, _, _, (f :: j). split; [exact E|].
    split_and!; [unfold headers_fuel; cbn; lia| |done|unfold chunks_found; split_and!].
    + intros fuel Hf. destruct fuel as [|fuel]; [cbn in Hf; lia|].
      rewrite chunk_pushed by lia. by apply end_parsed.
    + done.
    + cbn [begin_ add_offset offset_ chunks_from]. rewrite zlen_app, zlen_line.
      change (zlen [13; 10]) with 2. rewrite (u32_small 2), u64_small; lia.
    + done.
    + done.
    + done.
  - apply Forall_cons_1 in Hcs as [Hc Hcs]. pose proof Hc as (_ & _ & Hd). cbn [snd] in Hd.
    rewrite zlen_chunks_from_cons in Hmax. pose proof (zlen_nonneg ds). pose proof (zlen_nonneg (chunks_from cs zs)).
    rewrite body_texts_cons in Hu.
    destruct (chunk_lexed total rec s o ds d _ rest i Hs Hc ltac:(lia) ltac:(lia) Hu) as (i1 & E & Hu1).
    destruct (IH _ _ i1 Hz Hcs (at_next_line (chunks_ s) (o + zlen ds + 2) (zlen d) (multiBody_ s) 0 (zlen d)
      ltac:(lia) Hd) ltac:(lia) Hu1) as (n & s1 & i2 & s' & i' & E' & _ & Hp' & Hu' & Hch & Hoff & Hfin).
    eexists _, _, _, s', i'. split; [exact E|].
    split_and!; [|  |done|unfold chunks_found; split_and!].
    + unfold headers_fuel. rewrite (uncut_join _ _ _ Hu1), join_app, body_texts_bytes, !length_app.
      pose proof (chunks_fuel cs zs). cbn [length]. lia.
    + intros fuel Hf. destruct fuel as [|fuel]; [cbn in Hf; lia|].
      rewrite chunk_pushed by lia. cbn [parse_chunks]. rewrite E'. cbn [mbind outcome_bind].
      apply Hp'. cbn in Hf. lia.
    + rewrite Hch. cbn [chunks_ table]. by rewrite <- (assoc_L (++)).
    + rewrite Hoff, zlen_chunks_from_cons. lia.
    + apply Hfin.
    + apply Hfin.
    + apply Hfin.
Qed.
End Reading.
