(* ===== verification/HttpParser.v ===== *)
(** * The parser module of HTTP (protocol/http/http_module_parser.inl)

    What becomes of the fragments of a message that the parser has read: the walk with which the
    module takes the header and the lines of the chunks out of their chain, and what is passed
    on.  The messages that the streamer of [HttpStreamer] writes come out of it as they went in. *)
From S2P Require Import Prelude MessageBlock Chars Decimal Lex Fragments Chain HttpTools HttpStreamer HttpScanner HttpLines HttpGrammar.

(** ** The module *)
Section Module.
Context {B : Type} `{MessageBlock B}.
Implicit Types (c : list B).

(** [while (!length ())]: the blocks that are empty, and the others *)
Fixpoint skip_empty c : outcome (list B * list B) :=
  match c with
  | [] => Undef
  | b :: c' =>
      if block_length b =? 0 then r ← skip_empty c'; Ok (b :: r.1, r.2) else Ok ([], c)
  end.
Definition delimiter (x : Z) c : outcome (list B * list B) :=
  r ← skip_empty c;
  match r.2 with
  | b :: c' => ace_assert (bool_decide (head (mb_bytes b) = Some x));; Ok (r.1, mb_rd_ptr 1 b :: c')
  | [] => Undef
  end.

(** the walk over the chunks, from the data of the first *)
Fixpoint record_chunks (o : Z) (chunks : list (Z * Z)) c : outcome (list B) :=
  match chunks with
  | [] => Ok c
  | (first, second) :: chunks' =>
      if second =? 0 then
        a ← advance (u64 (o - first)) c;
        r ← record_chunks o chunks' a.2;
        Ok (a.1 ++ r)
      else
        f ← cut_behind second c;
        d ← delimiter 13 f.2;
        d' ← delimiter 10 d.2;
        match chunks' with
        | [] => Abort
        | (next, _) :: _ =>
            a ← advance (u64 (next - u64 (first + second + 2))) d'.2;
            r ← record_chunks o chunks' a.2;
            Ok (f.1 ++ d.1 ++ d'.1 ++ a.1 ++ r)
        end
  end.

(** [Common_String_Tools::tolower ()] is of the common library *)
Context (tolower_ : string → string).
Definition content_length (r : HTTP_Record) : option string :=
  find_header (tolower_ HTTP_PRT_HEADER_CONTENT_LENGTH_STRING) (headers r).

(** the cut of the body, and whether the parser has finished *)
Definition record (r : HTTP_Record) (s : scanner) (headFragment_ : list B) :
    outcome (list B * scanner) :=
  ace_assert (match headFragment_ with [] => false | _ => true end);;
  match chunks_ s with
  | [] =>
      a ← advance (offset s) headFragment_;
      Ok (a.1 ++ a.2, match content_length r with Some _ => s | None => finished s end)
  | (first, _) :: _ =>
      a ← advance first headFragment_;
      match a.2 with
      | [] => Abort
      | b :: c' =>
          let '(p, c) := if block_length b =? 0 then (a.1 ++ [b], c') else (a.1, b :: c') in
          r ← record_chunks (offset s) (chunks_ s) c;
          Ok (p ++ r, s)
      end
  end.

Definition getContentLength (r : HTTP_Record) (s : scanner) c : Z :=
  match chunks_ s with
  | [] =>
      match content_length r with
      | Some v => let n := extract v in if n =? 0 then total_length c else n
      | None => total_length c
      end
  | _ => u64 (zsum (snd <$> chunks_ s))
  end.

(** what is passed on, and the rest *)
Context (get : Z → list B → list B * list B).
Definition reframe (r : HTTP_Record) (s : scanner) c : outcome (list B * list B) :=
  let n := getContentLength r s c in
  if (n =? 0) || (total_length c <=? n) then Ok (c, [])
  else
    let m := get n c in
    ace_assert (match m.1 with [] => false | _ => true end);; Ok m.

(** [dispatch ()]: one turn of its loop, from [parse:] on.  [Passed]: a message, and the
    fragments behind it, from which the loop goes on; [Dropped]: the fragments are released;
    [Waits_]: the thread waits for the next fragment (what has been read by then is read again
    with it in this model); [GoesOn]: the parser has not finished with the record, and goes on
    with the next fragment (not modelled) *)
Context (strip : string → string) (block headerOnly : bool).
Inductive turned := Passed (r : HTTP_Record) (m rest : list B) (s : scanner) | Dropped | Waits_ | GoesOn.
Definition begin_parse (s : scanner) : scanner :=
  MkScanner (cond s) (chunks_ s) 0 (contentLengthOrChunkSize_ s) (bodyOrChunkBytesToSkip_ s) false
    (multiBody_ s).
Definition clear_chunks (s : scanner) : scanner :=
  MkScanner (cond s) [] (offset_ s) (contentLengthOrChunkSize_ s) (bodyOrChunkBytesToSkip_ s)
    (finished_ s) (multiBody_ s).
Definition turn (s : scanner) (headFragment_ : list B) : outcome turned :=
  p ← parse_message tolower_ strip block headerOnly (total_length headFragment_) HTTP_Record_init
        (begin_parse s) (mb_bytes <$> headFragment_);
  match p with
  | Parsed r s _ =>
      x ← record r s headFragment_;
      if finished_ x.2 then
        m ← reframe r x.2 x.1; Ok (Passed r m.1 m.2 (clear_chunks x.2))
      else Ok GoesOn
  | Failed => Ok Dropped
  | Waiting => Ok Waits_
  end.
End Module.

(** ** The walk over the chunks *)
Definition first_line (cs : list chunk_text) (zs : list Z) : list Z :=
  match cs with [] => line zs | (ds, _) :: _ => line ds end.
Definition data_from (cs : list chunk_text) (zs : list Z) : list Z :=
  match cs with [] => [13; 10] | (_, d) :: cs' => d ++ [13; 10] ++ chunks_from cs' zs end.
Lemma chunks_from_split cs zs : chunks_from cs zs = first_line cs zs ++ data_from cs zs.
Proof. by destruct cs as [|[ds d] cs]. Qed.
Lemma table_first o cs zs :
  ∃ n l, table o cs zs = (o + zlen (first_line cs zs), n) :: l.
Proof. destruct cs as [|[ds d] cs]; eexists _, _; cbn; rewrite zlen_line, Z.add_assoc; done. Qed.

Section Framing.
Context {B : Type} `{MessageBlock B}.
Implicit Types (c : list B).

Lemma skip_empty_spec x r c :
  chain_bytes c = x :: r →
  ∃ pre b c' l, skip_empty c = Ok (pre, b :: c') ∧ chain_bytes pre = [] ∧
    mb_bytes b = x :: l ∧ l ++ chain_bytes c' = r.
Proof.
  induction c as [|b c IH]; [done|]. rewrite chain_bytes_cons. intros Hb. cbn [skip_empty].
  unfold block_length. destruct (mb_bytes b) as [|y l] eqn:E.
  - rewrite zlen_nil. cbn [Z.eqb]. destruct (IH Hb) as (pre & b' & c' & l & -> & Hp & Hx & Hr).
    eexists _, b', c', l. split; [reflexivity|]. cbn [fst]. by rewrite chain_bytes_cons, E, Hp.
  - rewrite zlen_cons. pose proof (zlen_nonneg l). rewrite (proj2 (Z.eqb_neq _ _)) by lia.
    injection Hb as -> Hr. by exists [], b, c, l.
Qed.
Lemma delimiter_spec x r c :
  chain_bytes c = x :: r →
  ∃ pre b c', delimiter x c = Ok (pre, b :: c') ∧ chain_bytes pre = [] ∧ chain_bytes (b :: c') = r.
Proof.
  intros Hc. destruct (skip_empty_spec x r c Hc) as (pre & b & c' & l & E & Hp & Hb & Hr).
  unfold delimiter. rewrite E. cbn [mbind outcome_bind snd fst]. rewrite Hb.
  rewrite bool_decide_eq_true_2 by done. cbn [ace_assert mbind outcome_bind].
  eexists _, _, _. split; [reflexivity|]. split; [done|].
  rewrite chain_bytes_cons, mb_rd_ptr_bytes by (rewrite Hb, zlen_cons; pose proof (zlen_nonneg l); lia).
  by rewrite Hb.
Qed.

Lemma record_chunks_spec zs rest cs : ∀ o c,
  Forall chunk_ok cs → 0 <= o → o + zlen (chunks_from cs zs) < 2 ^ 32 → c ≠ [] →
  chain_bytes c = data_from cs zs ++ rest →
  ∃ c', record_chunks (o + zlen (chunks_from cs zs)) (table o cs zs) c = Ok c' ∧
    chain_bytes c' = chunk_data cs ++ rest.
Proof.
  induction cs as [|[ds d] cs IH]; intros o c Hcs Ho Hmax Hne Hc; cbn [table record_chunks].
  - cbn [Z.eqb]. cbn [chunks_from] in *. rewrite zlen_app, zlen_line in *.
    change (zlen [13; 10]) with 2 in *. pose proof (zlen_nonneg zs). pose proof (zlen_nonneg rest).
    rewrite u64_small by lia. replace (_ - _) with 2 by lia.
    destruct (advance_spec 2 c) as (pre & b & c' & -> & Hp & Hb);
      [rewrite Hc, zlen_app; change (zlen _) with 2 at 1; lia|done|].
    cbn [mbind outcome_bind fst snd]. eexists. split; [reflexivity|].
    by rewrite chain_bytes_app, Hp, Hb, Hc.
  - apply Forall_cons_1 in Hcs as [(_ & _ & Hd) Hcs]. cbn [snd] in Hd.
    rewrite (proj2 (Z.eqb_neq (zlen d) 0)) by lia.
    cbn [chunks_from] in *. rewrite !zlen_app, zlen_line in *. change (zlen [13; 10]) with 2 in *.
    pose proof (zlen_nonneg ds). pose proof (zlen_nonneg (chunks_from cs zs)).
    cbn [data_from] in Hc. rewrite <- !app_assoc in Hc. cbn [app] in Hc.
    destruct (cut_behind_spec (zlen d) c) as (front & c1 & -> & Hf & Hc1);
      [rewrite Hc, zlen_app; pose proof (zlen_nonneg (13 :: 10 :: chunks_from cs zs ++ rest)); lia|done|].
    cbn [mbind outcome_bind fst snd]. rewrite Hc in Hf, Hc1.
    rewrite take_app_length' in Hf by (unfold zlen; lia).
    rewrite drop_app_length' in Hc1 by (unfold zlen; lia).
    destruct (delimiter_spec 13 _ c1 Hc1) as (p1 & b1 & c2 & -> & Hp1 & Hc2). cbn [mbind outcome_bind fst snd].
    destruct (delimiter_spec 10 _ _ Hc2) as (p2 & b2 & c3 & -> & Hp2 & Hc3). cbn [mbind outcome_bind fst snd].
    set (p := o + zlen ds + 2). set (o' := p + zlen d + 2).
    destruct (table_first o' cs zs) as (n & l & Et). rewrite Et.
    assert (u64 (o' + zlen (first_line cs zs) - u64 o') = zlen (first_line cs zs)) as ->.
    { assert (zlen (first_line cs zs) <= zlen (chunks_from cs zs)).
      { rewrite chunks_from_split, zlen_app. pose proof (zlen_nonneg (data_from cs zs)). lia. }
      pose proof (zlen_nonneg (first_line cs zs)). rewrite (u64_small o') by (unfold o', p; lia).
      rewrite u64_small by (unfold o', p; lia). lia. }
    rewrite chunks_from_split, <- app_assoc in Hc3.
    destruct (advance_spec (zlen (first_line cs zs)) (b2 :: c3)) as (p3 & b4 & c4 & -> & Hp3 & Hc4).
    { rewrite Hc3, zlen_app. pose proof (zlen_nonneg (first_line cs zs)).
      pose proof (zlen_nonneg (data_from cs zs ++ rest)). lia. }
    { done. }
    rewrite Hc3, drop_app_length' in Hc4 by (unfold zlen; lia). cbn [mbind outcome_bind fst snd].
    rewrite <- Et.
    replace (o + _) with (o' + zlen (chunks_from cs zs)) by (unfold o', p; lia).
    destruct (IH o' (b4 :: c4)) as (c' & -> & Hc'); [done|unfold o', p; lia..|done|done|].
    cbn [mbind outcome_bind]. eexists. split; [reflexivity|].
    rewrite !chain_bytes_app, Hf, Hp1, Hp2, Hp3, Hc'. cbn [app chunk_data mbind list_bind snd].
    by rewrite <- app_assoc.
Qed.
End Framing.

(** ** What is passed on *)
Section Passed.
Context {B : Type} `{MessageBlock B} (tolower_ : string → string)
  (get : Z → list B → list B * list B).
Notation content_length := (content_length tolower_).
Notation getContentLength := (getContentLength tolower_).
Notation reframe := (reframe tolower_ get).
Notation record := (record tolower_).
(** [get] takes bytes off the front of a chain *)
Context (get_bytes : ∀ n c, 0 < n < zlen (chain_bytes c) →
  chain_bytes (get n c).1 = take (Z.to_nat n) (chain_bytes c) ∧
  chain_bytes (get n c).2 = drop (Z.to_nat n) (chain_bytes c)).
Implicit Types (c : list B).

Lemma reframe_split r s c d rest :
  chain_bytes c = d ++ rest → zlen (chain_bytes c) < 2 ^ 64 → 0 < zlen d →
  getContentLength r s c = zlen d →
  ∃ m c', reframe r s c = Ok (m, c') ∧ chain_bytes m = d ∧ chain_bytes c' = rest.
Proof using get_bytes.
  intros Hc Hmax Hd Hn. unfold reframe, HttpParser.reframe. rewrite Hn, total_length_small by done.
  pose proof (zlen_nonneg rest). rewrite (proj2 (Z.eqb_neq (zlen d) 0)) by lia. cbn [orb].
  destruct (_ <=? _) eqn:E; bool_lia; rewrite Hc, zlen_app in E.
  - assert (rest = []) as -> by (apply zlen_0_inv; lia). rewrite app_nil_r in Hc. by exists c, [].
  - destruct (get_bytes (zlen d) c) as [Hm Hr]; [rewrite Hc, zlen_app; lia|].
    destruct (get (zlen d) c) as [m c']. cbn [fst snd] in *. rewrite Hc in Hm, Hr.
    rewrite take_app_length' in Hm by (unfold zlen; lia).
    rewrite drop_app_length' in Hr by (unfold zlen; lia).
    destruct m as [|m0 m]; [|by exists (m0 :: m), c'].
    rewrite <- Hm in Hd. unfold zlen in Hd. cbn in Hd. lia.
Qed.

Lemma table_sum cs zs : ∀ o, zsum (snd <$> table o cs zs) = zlen (chunk_data cs).
Proof.
  induction cs as [|[ds d] cs IH]; intros o; [done|]. cbn [table fmap list_fmap chunk_data mbind list_bind snd].
  rewrite zlen_app. unfold chunk_data in IH. rewrite <- (IH (o + zlen ds + 2 + zlen d + 2)). done.
Qed.
Lemma data_from_nonempty cs zs rest : 0 < zlen (data_from cs zs ++ rest).
Proof.
  rewrite zlen_app. pose proof (zlen_nonneg rest). destruct cs as [|[ds d] cs]; cbn [data_from].
  - change (zlen [13; 10]) with 2. lia.
  - rewrite !zlen_app. change (zlen [13; 10]) with 2. pose proof (zlen_nonneg d).
    pose proof (zlen_nonneg (chunks_from cs zs)). lia.
Qed.
Lemma chunk_data_length cs zs : zlen (chunk_data cs) <= zlen (chunks_from cs zs).
Proof.
  induction cs as [|[ds d] cs IH]; [apply zlen_nonneg|].
  cbn [chunk_data mbind list_bind snd chunks_from]. rewrite !zlen_app. unfold chunk_data in IH.
  pose proof (zlen_nonneg (line ds)). pose proof (zlen_nonneg [13; 10]). lia.
Qed.

(** the chunks that the parser has found *)
Lemma chunks_framed r s header cs zs rest c :
  Forall chunk_ok cs → cs ≠ [] → chunks_ s = table (zlen header) cs zs →
  offset_ s = zlen header + zlen (chunks_from cs zs) →
  chain_bytes c = header ++ chunks_from cs zs ++ rest → zlen (chain_bytes c) < 2 ^ 32 →
  ∃ x m c', record r s c = Ok (x, s) ∧ reframe r s x = Ok (m, c') ∧
    chain_bytes m = chunk_data cs ∧ chain_bytes c' = rest.
Proof using get_bytes.
  intros Hcs Hne Et Eo Hc Hmax.
  pose proof (zlen_nonneg header) as Hh. pose proof (zlen_nonneg rest).
  assert (zlen header + zlen (chunks_from cs zs) + zlen rest < 2 ^ 32) as Hlen
    by (rewrite Hc, !zlen_app in Hmax; lia).
  pose proof (chunk_data_length cs zs).
  unfold HttpParser.record. destruct (table_first (zlen header) cs zs) as (n & l & Ef).
  pose proof (chunks_from_split cs zs) as Hsp. rewrite Et, Ef.
  assert (c ≠ []) as Hcne.
  { intros ->. pose proof (data_from_nonempty cs zs rest) as Hd.
    rewrite Hsp, <- app_assoc in Hc. apply (f_equal zlen) in Hc. rewrite !zlen_app in *.
    change (zlen (chain_bytes (@nil B))) with 0 in Hc. pose proof (zlen_nonneg (first_line cs zs)). lia. }
  destruct c as [|b0 c0] eqn:Ec; [done|]. rewrite <- Ec in *. clear Hcne.
  cbn [ace_assert mbind outcome_bind].
  destruct (advance_spec (zlen header + zlen (first_line cs zs)) c) as (pre & b & c1 & -> & Hp & Hb).
  { rewrite Hc, Hsp, !zlen_app. pose proof (zlen_nonneg (first_line cs zs)).
    pose proof (zlen_nonneg (data_from cs zs)). lia. }
  { by subst c. }
  cbn [mbind outcome_bind snd fst].
  assert (chain_bytes (b :: c1) = data_from cs zs ++ rest) as Hb'.
  { rewrite Hb, Hc, Hsp, <- app_assoc, app_assoc. apply drop_app_length'.
    rewrite length_app. unfold zlen. lia. }
  assert (∃ p c2, (if block_length b =? 0 then (pre ++ [b], c1) else (pre, b :: c1)) = (p, c2) ∧
    chain_bytes p = [] ∧ chain_bytes c2 = data_from cs zs ++ rest ∧ c2 ≠ []) as (p & c2 & -> & Hp' & H2 & Hne2).
  { pose proof (data_from_nonempty cs zs rest) as Hd. destruct (block_length b =? 0) eqn:E0; bool_lia.
    - apply zlen_0_inv in E0. rewrite chain_bytes_cons, E0 in Hb'. cbn [app] in Hb'.
      eexists _, _. split; [reflexivity|]. rewrite chain_bytes_app, Hp, chain_bytes_single, E0.
      split_and!; [done|done|]. intros ->. rewrite <- Hb' in Hd.
      change (zlen (chain_bytes (@nil B))) with 0 in Hd. lia.
    - by exists pre, (b :: c1). }
  assert (offset s = zlen header + zlen (chunks_from cs zs)) as ->.
  { unfold offset. rewrite Eo. apply u32_small. pose proof (zlen_nonneg (chunks_from cs zs)). lia. }
  rewrite <- Ef.
  destruct (record_chunks_spec zs rest cs (zlen header) c2) as (c3 & -> & H3); [done|lia|lia|done|done|].
  cbn [mbind outcome_bind fst snd]. exists (p ++ c3).
  destruct (reframe_split r s (p ++ c3) (chunk_data cs) rest) as (m & c' & -> & Hm & Hr).
  - by rewrite chain_bytes_app, Hp', H3.
  - rewrite chain_bytes_app, Hp', H3. cbn [app]. rewrite zlen_app. lia.
  - destruct cs as [|[ds d] cs]; [done|]. apply Forall_cons_1 in Hcs as [(_ & _ & Hd) _].
    cbn in Hd |- *. rewrite zlen_app. pose proof (zlen_nonneg (cs ≫= snd)). lia.
  - unfold HttpParser.getContentLength. rewrite Et, Ef, <- Ef, table_sum. apply u64_small.
    pose proof (zlen_nonneg (chunk_data cs)). lia.
  - by exists m, c'.
Qed.

(** a body with a length *)
Lemma body_framed r s header body rest c v :
  chunks_ s = [] → content_length r = Some v → extract v = zlen body → 0 < zlen body →
  offset_ s = zlen header → chain_bytes c = header ++ body ++ rest → zlen (chain_bytes c) < 2 ^ 32 →
  ∃ x m c', record r s c = Ok (x, s) ∧ reframe r s x = Ok (m, c') ∧
    chain_bytes m = body ∧ chain_bytes c' = rest.
Proof using get_bytes.
  intros Hch Hcl Hv Hb Ho Hc Hmax. pose proof (zlen_nonneg header). pose proof (zlen_nonneg rest).
  rewrite Hc, !zlen_app in Hmax. unfold HttpParser.record. rewrite Hch, Hcl.
  assert (c ≠ []) as Hcne.
  { intros ->. apply (f_equal zlen) in Hc. rewrite !zlen_app in Hc.
    change (zlen (chain_bytes (@nil B))) with 0 in Hc. lia. }
  destruct c as [|b0 c0] eqn:Ec; [done|]. rewrite <- Ec in *. cbn [ace_assert mbind outcome_bind].
  unfold offset. rewrite Ho, u32_small by lia.
  destruct (advance_spec (zlen header) c) as (pre & b & c1 & -> & Hp & Hb1);
    [rewrite Hc, !zlen_app; lia|by subst c|].
  cbn [mbind outcome_bind snd fst]. exists (pre ++ b :: c1).
  rewrite Hc, drop_app_length' in Hb1 by (unfold zlen; lia).
  destruct (reframe_split r s (pre ++ b :: c1) body rest) as (m & c' & -> & Hm & Hr);
    [by rewrite chain_bytes_app, Hp, Hb1| |done| |by exists m, c'].
  - rewrite chain_bytes_app, Hp, Hb1. cbn [app]. rewrite zlen_app. lia.
  - unfold HttpParser.getContentLength. rewrite Hch, Hcl, Hv. by rewrite (proj2 (Z.eqb_neq _ _)) by lia.
Qed.

(** A message without a length, or of length 0: all that has been received is passed on with it,
    the next message too. *)
Theorem unsized_body_takes_all r s header rest c :
  chunks_ s = [] → match content_length r with Some v => extract v = 0 | None => True end →
  offset_ s = zlen header → chain_bytes c = header ++ rest → c ≠ [] →
  zlen (chain_bytes c) < 2 ^ 32 →
  ∃ x s' m, record r s c = Ok (x, s') ∧ reframe r s' x = Ok (m, []) ∧ chain_bytes m = rest.
Proof.
  intros Hch Hcl Ho Hc Hne Hmax. pose proof (zlen_nonneg header). pose proof (zlen_nonneg rest).
  rewrite Hc, !zlen_app in Hmax. unfold HttpParser.record. rewrite Hch.
  destruct c as [|b0 c0] eqn:Ec; [done|]. rewrite <- Ec in *. cbn [ace_assert mbind outcome_bind].
  unfold offset. rewrite Ho, u32_small by lia.
  destruct (advance_spec (zlen header) c) as (pre & b & c1 & -> & Hp & Hb1);
    [rewrite Hc, !zlen_app; lia|by subst c|].
  cbn [mbind outcome_bind snd fst].
  rewrite Hc, drop_app_length' in Hb1 by (unfold zlen; lia).
  eexists _, _, (pre ++ b :: c1). split; [reflexivity|]. split; [|by rewrite chain_bytes_app, Hp, Hb1].
  unfold HttpParser.reframe. assert (∀ s', chunks_ s' = [] → getContentLength r s' (pre ++ b :: c1) =
    total_length (pre ++ b :: c1)) as Hn.
  { intros s' Hs'. unfold HttpParser.getContentLength. rewrite Hs'. destruct (content_length r) as [v|]; [|done].
    by rewrite Hcl. }
  rewrite Hn by (by destruct (content_length r)). by rewrite Z.leb_refl, orb_true_r.
Qed.
End Passed.

(** ** Whole messages *)
Lemma find_header_in k v hs : NoDup hs.*1 → (k, v) ∈ hs → find_header k hs = Some v.
Proof.
  unfold find_header. induction hs as [|[k' v'] hs IH]; [by intros _ []%elem_of_nil|].
  cbn [fmap list_fmap fst]. intros [Hk Hd]%NoDup_cons Hin. rewrite filter_cons. cbn [fst].
  apply elem_of_cons in Hin as [[= -> ->]|Hin].
  - by rewrite decide_True.
  - rewrite decide_False; [by apply IH|]. intros ->. apply Hk.
    by apply (list_elem_of_fmap_2 fst) in Hin.
Qed.
Lemma lower_in tolower_ k v hs : (k, v) ∈ hs → (tolower_ k, v) ∈ lower tolower_ hs.
Proof. intros Hin. by apply (list_elem_of_fmap_2 (λ h, (tolower_ h.1, h.2))) in Hin. Qed.
Lemma headers_as_read r hs : headers (as_read r hs) = hs.
Proof. unfold as_read. by destruct (isRequest r). Qed.

(** a scanner that is between two messages *)
Definition between_messages (s : scanner) : Prop :=
  cond s = INITIAL ∧ chunks_ s = [] ∧ multiBody_ s = false.

Section Messages.
Context {B : Type} `{MessageBlock B} (tolower_ strip : string → string)
  (get : Z → list B → list B * list B).
Context (get_bytes : ∀ n c, 0 < n < zlen (chain_bytes c) →
  chain_bytes (get n c).1 = take (Z.to_nat n) (chain_bytes c) ∧
  chain_bytes (get n c).2 = drop (Z.to_nat n) (chain_bytes c)).
Notation turn := (turn tolower_ get strip true false).
Notation lower := (lower tolower_).

Lemma uncut_chain ps rest (c : list B) : uncut ps rest (mb_bytes <$> c) → chain_bytes c = mjoin ps ++ rest.
Proof.
  intros Hu. rewrite <- (uncut_join _ _ _ Hu). clear. induction c as [|b c IH]; [done|].
  rewrite chain_bytes_cons, IH. done.
Qed.

(** a message with a length *)
Lemma sized_message_received s r hs k v b rest c :
  between_messages s → line_ok r → Forall (λ h, field_ok h = true) hs → NoDup (lower hs).*1 →
  (k, v) ∈ hs → tolower_ k = tolower_ HTTP_PRT_HEADER_CONTENT_LENGTH_STRING →
  extract v = zlen b → 2 <= zlen b →
  uncut (head_texts r hs ++ octets b) rest (mb_bytes <$> c) → zlen (chain_bytes c) < 2 ^ 32 →
  ∃ m c' s', turn s c = Ok (Passed (as_read r (lower hs)) m c' s') ∧
    chain_bytes m = b ∧ chain_bytes c' = rest ∧ between_messages s'.
Proof using get_bytes.
  intros (Hs & Hch & Hmb) Hl Hhs Hd Hin Hk Hv Hb Hu Hmax.
  pose proof (uncut_chain _ _ _ Hu) as Hc. rewrite join_app, octets_bytes, <- (assoc_L (++)) in Hc.
  pose proof Hmax as Hmax'. rewrite Hc, !zlen_app in Hmax'. pose proof (zlen_nonneg rest).
  pose proof (zlen_nonneg (mjoin (head_texts r hs))).
  assert (find_header (tolower_ HTTP_PRT_HEADER_CONTENT_LENGTH_STRING) (lower hs) = Some v) as Hf.
  { rewrite <- Hk. apply find_header_in; [done|by apply lower_in]. }
  destruct (head_parsed tolower_ strip (total_length c) (begin_parse s) r hs (octets b) rest
    (mb_bytes <$> c)) as (i1 & E1 & Hu1); [done..|cbn; lia|cbn; lia|done|].
  unfold HttpParser.turn, parse_message. rewrite E1. cbn [mbind outcome_bind].
  unfold end_of_headers. rewrite headers_as_read, Hf, Hv.
  cbn [contentLengthOrChunkSize_ contentLengthOrChunkSize]. rewrite (proj2 (Z.eqb_neq (zlen b) 0)) by lia.
  cbn [multiBody_ begin_ contentLengthOrChunkSize moved begin_parse]. rewrite Hmb.
  edestruct (body_lexed tolower_ strip (total_length c) (as_read r (lower hs))) with (b := b) (ps := @nil (list Z))
    as (i2 & -> & Hu2); [done|done|done|done|lia|by rewrite app_nil_r|].
  cbn [mbind outcome_bind].
  destruct (body_framed tolower_ get get_bytes (as_read r (lower hs))
    (MkScanner INITIAL [] (zlen (mjoin (head_texts r hs))) (zlen b) 0 true false)
    (mjoin (head_texts r hs)) b rest c v) as (x & m & c' & Er & Ef & Hm & Hr);
    [done| |done|lia|done|done|done|].
  { unfold content_length. by rewrite headers_as_read. }
  match goal with |- context [HttpParser.record tolower_ _ ?s1 c] =>
    replace s1 with (MkScanner INITIAL [] (zlen (mjoin (head_texts r hs))) (zlen b) 0 true false)
      by (unfold behind_body; cbn; by rewrite Hch) end.
  rewrite Er. cbn [mbind outcome_bind fst snd finished_]. rewrite Ef.
  cbn [mbind outcome_bind fst snd]. eexists m, c', _. split; [reflexivity|]. split_and!; [done|done|].
  by split_and!.
Qed.

(** C34: HTTP_Module_Parser_T::dispatch, chunked transfer (a parser that waits for more data,
    is not for heads only, and scans a copy of each fragment): the head that the streamer
    writes for a request or a response without a length, and one chunk at least behind it, with
    hexadecimal sizes and no extensions, whatever follows.  The first line is one that the
    expressions of the scanner match ([line_ok]: an address that they match, which excludes
    /index.html; version 0.9, 1.0 or 1.1), the fields are printable, have no quotes and are not
    Content-Encoding ([field_ok]).  When no fragment ends within a line, or between the line of
    the last chunk and the line break behind it (the data of the chunks may be cut anywhere),
    the record is that of the head, and what is passed on with it is exactly the data of the
    chunks; what follows is left, and the parser is ready for it *)
Theorem chunked_message_received s r hs k v cs zs rest c :
  between_messages s → line_ok r → Forall (λ h, field_ok h = true) hs → NoDup (lower hs).*1 →
  find_header (tolower_ HTTP_PRT_HEADER_CONTENT_LENGTH_STRING) (lower hs) = None →
  (k, v) ∈ hs → tolower_ k = tolower_ HTTP_PRT_HEADER_TRANSFER_ENCODING_STRING →
  chunked tolower_ strip v = true → last_ok zs → Forall chunk_ok cs → cs ≠ [] →
  uncut (head_texts r hs ++ body_texts cs zs) rest (mb_bytes <$> c) → zlen (chain_bytes c) < 2 ^ 32 →
  ∃ m c' s', turn s c = Ok (Passed (as_read r (lower hs)) m c' s') ∧
    chain_bytes m = chunk_data cs ∧ chain_bytes c' = rest ∧ between_messages s'.
Proof using get_bytes.
  intros (Hs & Hch & Hmb) Hl Hhs Hd Hnone Hin Hk Hv Hz Hcs Hne Hu Hmax.
  pose proof (uncut_chain _ _ _ Hu) as Hc. rewrite join_app, body_texts_bytes, <- (assoc_L (++)) in Hc.
  pose proof Hmax as Hmax'. rewrite Hc, !zlen_app in Hmax'. pose proof (zlen_nonneg rest).
  pose proof (zlen_nonneg (chunks_from cs zs)). pose proof (zlen_nonneg (mjoin (head_texts r hs))).
  assert (find_header (tolower_ HTTP_PRT_HEADER_TRANSFER_ENCODING_STRING) (lower hs) = Some v) as Hf.
  { rewrite <- Hk. apply find_header_in; [done|by apply lower_in]. }
  destruct (head_parsed tolower_ strip (total_length c) (begin_parse s) r hs (body_texts cs zs) rest
    (mb_bytes <$> c)) as (i1 & E1 & Hu1); [done..|cbn; lia|cbn; lia|done|].
  unfold HttpParser.turn, parse_message. rewrite E1. cbn [mbind outcome_bind].
  unfold end_of_headers. rewrite headers_as_read, Hnone, Hf, Hv.
  cbn [multiBody_ begin_ moved begin_parse]. rewrite Hmb.
  edestruct (chunks_parsed tolower_ strip (total_length c) (as_read r (lower hs)) zs []) with (cs := cs)
    (o := zlen (mjoin (head_texts r hs)))
    as (n & s1 & i2 & s' & i' & -> & Hn & Hp & Hu' & Ht & Ho & Hfin & Hs' & Hmb'); [done|done| |lia|by rewrite app_nil_r|].
  { unfold at_line, pending, currentChunkSize. cbn. rewrite Hch. cbn. split_and!; done || lia. }
  cbn [mbind outcome_bind]. rewrite Hp by done. cbn [mbind outcome_bind].
  destruct (chunks_framed tolower_ get get_bytes (as_read r (lower hs)) s' (mjoin (head_texts r hs)) cs zs rest c)
    as (x & m & c' & Er & Ef & Hm & Hr); [done|done| |done|done|done|].
  { rewrite Ht. cbn. by rewrite Hch. }
  rewrite Er. cbn [mbind outcome_bind fst snd]. rewrite Hfin, Ef. cbn [mbind outcome_bind fst snd].
  eexists m, c', _. split; [reflexivity|]. split_and!; [done|done|]. split_and!; [done|done|].
  cbn. by rewrite Hmb'.
Qed.

(** ** What the streamer writes *)
Context (same : string → string → bool) (insert : list (string * string) → string * string → list (string * string)).
Hypothesis same_refl : ∀ k, same k k = true.
Hypothesis same_case : ∀ k l, same k l = true → string_map tolower k = string_map tolower l.
Hypothesis insert_pair : ∀ hs p, insert hs p ≡ₚ p :: hs.
Hypothesis tolower_lower : ∀ k, tolower_ k = string_map tolower k.
Context {W : Type} `{WritableBlock W}.
Notation add_headers := (add_headers same insert).
Notation handleDataMessage := (handleDataMessage same insert).
(** the header fields that are sent *)
Definition sent (r : HTTP_Record) : list (string * string) :=
  sent_headers (isRequest r) (headers (HttpStreamer.add_headers same insert r)).

Lemma post_length r :
  method r = HTTP_METHOD_POST → form r ≠ [] →
  (∀ h, h ∈ headers r → same h.1 HTTP_PRT_HEADER_CONTENT_LENGTH_STRING = true → h.2 = "") →
  ∃ n, same n HTTP_PRT_HEADER_CONTENT_LENGTH_STRING = true ∧
    (n, pretty (zlen (string_bytes (content r)))) ∈ sent r.
Proof using same_refl same_case insert_pair.
  intros Hm Hf He.
  destruct (add_header_in same insert same_refl same_case insert_pair HTTP_PRT_HEADER_CONTENT_LENGTH_STRING
              (pretty (zlen (string_bytes (content r)))) (headers r) He) as (n & Hn & Hin).
  exists n. split; [done|]. apply sent_header_in.
  - unfold HttpStreamer.add_headers. rewrite Hm, decide_False by done. cbn [headers set_headers].
    apply (add_header_keeps same insert); [done..|]. apply pretty_digits, zlen_nonneg.
  - unfold other_type, isRequest. rewrite Hm. by eapply content_length_sent.
Qed.

(** C35: HTTP_Module_Streamer_T::handleDataMessage and HTTP_Module_Parser_T::dispatch (a parser
    that waits for more data, is not for heads only, and scans a copy of each fragment): a POST
    with a form of two octets or more (one of a single octet is never passed on), whose address
    the expressions of the scanner match (their first segment is one character: not
    /index.html), of version 0.9, 1.0 or 1.1 ([line_ok]), with fields that are printable, have
    no quotes and are not Content-Encoding ([field_ok]), written into a buffer that it fits
    into, and received in fragments that do not cut its lines, whatever follows: the record
    that the parser passes on has the method, the address, the version and the header fields
    that were written (their names in lower case), its message has exactly the octets of the
    form, and the fragments behind it are left *)
Theorem post_received s r (b : W) :
  between_messages s → method r = HTTP_METHOD_POST → form r ≠ [] →
  (∀ h, h ∈ headers r → same h.1 HTTP_PRT_HEADER_CONTENT_LENGTH_STRING = true → h.2 = "") →
  line_ok r → Forall (λ h, field_ok h = true) (sent r) → NoDup (lower (sent r)).*1 →
  2 <= zlen (string_bytes (content r)) < 2 ^ 64 →
  mb_bytes b = [] → zlen (string_bytes (buffer same insert r +:+ content r)) <= mb_space b →
  ∃ b' texts, handleDataMessage r b = Ok (Some b', add_headers r) ∧ mjoin texts = mb_bytes b' ∧
    ∀ c rest, uncut texts rest (mb_bytes <$> c) → zlen (chain_bytes c) < 2 ^ 32 →
      ∃ m c' s', turn s c = Ok (Passed (as_read r (lower (sent r))) m c' s') ∧
        chain_bytes m = string_bytes (post_form (form r)) ∧ chain_bytes c' = rest ∧ between_messages s'.
Proof using All.
  intros Hs Hm Hf He Hl Hhs Hd Hlen Hb Hfit.
  pose proof (message_text same insert r b Hb) as Ht. cbv zeta in Ht.
  rewrite (proj2 (Z.leb_le _ _) Hfit) in Ht. destruct Ht as (b' & E & Eb).
  destruct (post_length r Hm Hf He) as (n & Hn & Hin).
  assert (content r = post_form (form r)) as Ec by (unfold content; by rewrite Hm).
  exists b', (head_texts r (sent r) ++ octets (string_bytes (content r))). split_and!; [done| |].
  { rewrite join_app, head_texts_bytes, octets_bytes, Eb by auto.
    unfold buffer. rewrite !string_bytes_app. by rewrite <- !(assoc_L (++)). }
  intros c rest Hu Hmax. rewrite <- Ec.
  apply (sized_message_received s r (sent r) n (pretty (zlen (string_bytes (content r))))); try done.
  - rewrite !tolower_lower. by apply same_case.
  - unfold extract. apply read_unsigned_pretty. lia.
  - lia.
Qed.
End Messages.

(** ** Concrete messages *)
Notation sample_turn := (turn (string_map tolower) sample_get id true false).
Definition idle : scanner := MkScanner INITIAL [] 0 0 0 false false.
Lemma idle_between : between_messages idle.
Proof. done. Qed.

(** two chunks behind the head of a response, in fragments that cut the data of the second *)
Definition sample_fields : list (string * string) :=
  [("Server", "x/1.0"); ("Transfer-Encoding", "chunked")].
Definition sample_response : HTTP_Record :=
  MkRecord [] [] HTTP_METHOD_INVALID "" 200 "" HTTP_VERSION_1_1.
Definition sample_chunks : list chunk_text := [([51], [1; 2; 3]); ([48; 65], repeat 7 10)].
Definition sample_texts : list (list Z) :=
  head_texts sample_response sample_fields ++ body_texts sample_chunks [48].
Definition sample_fragments : list (list Z) :=
  [mjoin (take 18 sample_texts); []; mjoin (drop 18 sample_texts) ++ [72; 84]].
Lemma sample_uncut : uncut sample_texts [72; 84] sample_fragments.
Proof.
  rewrite <- (take_drop 18 sample_texts). apply uncut_fragment, uncut_next, uncut_whole.
Qed.
Lemma sample_response_ok : line_ok sample_response.
Proof. split; [done|]. cbn. lia. Qed.
Lemma sample_chunks_ok : Forall chunk_ok sample_chunks.
Proof.
  repeat constructor; try done; by apply matches_spec.
Qed.
Lemma sample_last_ok : last_ok [48].
Proof. split; [by apply matches_spec|done]. Qed.

Lemma chunked_message_received_witness :
  ∃ m c' s', sample_turn idle sample_fragments =
      Ok (Passed (as_read sample_response [("server", "x/1.0"); ("transfer-encoding", "chunked")]) m c' s') ∧
    chain_bytes m = [1; 2; 3; 7; 7; 7; 7; 7; 7; 7; 7; 7; 7] ∧ chain_bytes c' = [72; 84] ∧ between_messages s'.
Proof.
  refine (chunked_message_received (string_map tolower) id sample_get sample_get_bytes idle sample_response
    sample_fields "Transfer-Encoding" "chunked" sample_chunks [48] [72; 84] sample_fragments
    idle_between sample_response_ok _ _ _ _ _ _ sample_last_ok sample_chunks_ok _ _ _);
    [by repeat constructor| |done| |done|done|done| |by vm_compute].
  - by apply (bool_decide_unpack _).
  - by apply (bool_decide_unpack _).
  - unfold fmap. rewrite list_fmap_id. exact sample_uncut.
Defined.

(** a POST, and the beginning of the next one *)
Lemma example_line_ok : line_ok example_post.
Proof. split; [done|]. cbn -[matches]. split; [by right|by vm_compute]. Qed.
Lemma post_received_witness :
  ∃ b' m c' s', handleDataMessage exact front example_post example_room =
      Ok (Some b', add_headers exact front example_post) ∧
    sample_turn idle [b'.1 ++ [80; 79]] =
      Ok (Passed (as_read example_post (lower (string_map tolower) (sent exact front example_post))) m c' s') ∧
    chain_bytes m = string_bytes "a=1&b" ∧ chain_bytes c' = [80; 79] ∧ between_messages s'.
Proof.
  destruct (post_received (string_map tolower) id sample_get sample_get_bytes exact front exact_refl exact_case
    (λ _ _, reflexivity _) (λ _, eq_refl) idle example_post example_room idle_between eq_refl)
    as (b' & ts & E & Ets & Hr);
    [done| |exact example_line_ok|by repeat constructor|by apply (bool_decide_unpack _)|by vm_compute|done|by vm_compute|].
  { intros h Hh Hs. repeat (apply elem_of_cons in Hh as [->|Hh]; [done|]). by apply elem_of_nil in Hh. }
  exists b'.
  destruct (Hr [b'.1 ++ [80; 79]] [80; 79]) as (m & c' & s' & Et & Hm).
  - change (mb_bytes b') with b'.1 in Ets. rewrite <- Ets. apply uncut_whole.
  - clear -E. vm_compute in E. injection E as <-. by vm_compute.
  - by exists m, c', s'.
Defined.

(** ** What is not read *)
Definition passed (x : outcome (@turned (list Z))) : option (list (string * string) * list Z) :=
  match x with Ok (Passed r m _ _) => Some (headers r, chain_bytes m) | _ => None end.
Definition quoted (s : string) : string := String dquote (s +:+ String dquote "").
Definition get_text : string := "GET /f HTTP/1.1" +:+ crlf +:+ "Host: x" +:+ crlf +:+ crlf.
Definition post_text (fields : string) : string :=
  "POST /f HTTP/1.1" +:+ crlf +:+ fields +:+ "Content-Length: 2" +:+ crlf +:+ crlf +:+ "ab".

(** a request without a body: the parser waits for a token behind it *)
Example get_waits : sample_turn idle [string_bytes get_text] = Ok Waits_.
Proof. by vm_compute. Qed.
(** an address whose first segment has more than one character *)
Example index_html_unmatched :
  matches Re.REQUEST_URI (string_bytes "/f") = true ∧
  matches Re.REQUEST_URI (string_bytes "/index.html") = false.
Proof. by vm_compute. Qed.
(** a form of two octets is passed on; one of a single octet, or for such an address, is not *)
Definition form_text (path : string) (data : string) (length : string) : list Z :=
  string_bytes ("POST " +:+ path +:+ " HTTP/1.1" +:+ crlf +:+ "Content-Length: " +:+ length +:+ crlf +:+ crlf +:+ data).
Example short_form_waits :
  passed (sample_turn idle [form_text "/f" "ab" "2"]) = Some ([("content-length", "2")], [97; 98]) ∧
  sample_turn idle [form_text "/f" "a" "1"] = Ok Waits_ ∧
  sample_turn idle [form_text "/index.html" "ab" "2"] = Ok Waits_.
Proof. by vm_compute. Qed.
(** a fragment that ends between the line of the last chunk and the line break behind it: the
    message is dropped; whole, it is passed on *)
Definition sample_front : list Z :=
  mjoin (app (head_texts sample_response sample_fields) (mjoin (chunk_texts <$> sample_chunks))).
Example end_cut_dropped :
  sample_turn idle [app sample_front (line [48]); [13; 10]] = Ok Dropped ∧
  snd <$> passed (sample_turn idle [app sample_front (end_text [48])]) =
    Some [1; 2; 3; 7; 7; 7; 7; 7; 7; 7; 7; 7; 7].
Proof. by vm_compute. Qed.
(** a quoted product, and a later field with a quote: both fields are lost *)
Example quoted_fields_lost :
  passed (sample_turn idle [string_bytes (post_text ("User-Agent: " +:+ quoted "a" +:+ crlf))]) =
    Some ([("user-agent", quoted "a"); ("content-length", "2")], [97; 98]) ∧
  passed (sample_turn idle [string_bytes (post_text
    ("User-Agent: " +:+ quoted "a" +:+ crlf +:+ "Host: " +:+ quoted "x" +:+ crlf))]) =
    Some ([("content-length", "2")], [97; 98]).
Proof. by vm_compute. Qed.
(** a line in two fragments *)
Example cut_line_undefined :
  sample_turn idle [string_bytes "POST /f HTTP/1.1" ++ [13; 10] ++ string_bytes "Ho";
                    string_bytes "st: x" ++ [13; 10; 13; 10]] = Undef.
Proof. by vm_compute. Qed.
