(* ===== verification/StateMachine.v ===== *)
(** * The interfaces of the state machine base classes

    The state machines of the repository derive from the templates of the common
    library ([Common_StateMachine_Base_T], [Common_StateMachine_T],
    [Common_StateMachineAsynch_T]), which is not part of it.  The classes below state
    what the derived classes rely on: the current state, the pending transitions, and
    what [inherited::change ()] does to them. *)
From S2P Require Import Prelude.

(** Synchronous machines: [change] sets the state. *)
Class SyncBase (St M : Type) : Type := {
  sync_state : M → St;
  sync_change : M → St → M;
  sync_state_change m s : sync_state (sync_change m s) = s
}.

(** A message of the queue of an asynchronous machine: the transition to a state, or
    the message that stops the dispatching thread. *)
Inductive message (St : Type) : Type :=
  | MB_STOP
  | MB_state (s : St).
Arguments MB_STOP {St}.
Arguments MB_state {St} s.

(** Asynchronous machines: [change] enqueues the transition at the tail; the
    dispatching thread dequeues the head and sets the state. *)
Class AsyncBase (St M : Type) : Type := {
  async_state : M → St;
  async_queue : M → list (message St);
  async_change : M → St → M;
  async_dispatch : M → M;
  async_state_change m s : async_state (async_change m s) = async_state m;
  async_queue_change m s : async_queue (async_change m s) = async_queue m ++ [MB_state s];
  async_state_dispatch m x q :
    async_queue m = x :: q →
    async_state (async_dispatch m) =
      match x with MB_STOP => async_state m | MB_state s => s end;
  async_queue_dispatch m x q :
    async_queue m = x :: q → async_queue (async_dispatch m) = q
}.

(** The concrete machines the witnesses run on. *)
#[export] Program Instance plain_sync St : SyncBase St St := {|
  sync_state m := m;
  sync_change _ s := s
|}.
Next Obligation. done. Qed.

#[export] Program Instance plain_async St : AsyncBase St (St * list (message St)) := {|
  async_state m := m.1;
  async_queue m := m.2;
  async_change m s := (m.1, m.2 ++ [MB_state s]);
  async_dispatch m :=
    match m.2 with
    | [] => m
    | MB_STOP :: q => (m.1, q)
    | MB_state s :: q => (s, q)
    end
|}.
Next Obligation. done. Qed.
Next Obligation. done. Qed.
Next Obligation. intros St [? [|[]]] ??; cbn; by intros [= <- <-]. Qed.
Next Obligation. by intros St [? [|[]]] ??; cbn; intros [= ? ->] || intros [= ->]. Qed.
