(* ===== verification/IrcRegistration.v ===== *)
(** * The IRC registration state machine (irc_statemachine_registration.{h,cpp})

    A connection registers with a server by sending PASS (optional), NICK and USER;
    the machine accepts the states in that order only. *)
From S2P Require Import Prelude StateMachine.

(** enum IRC_RegistrationStateType *)
Inductive IRC_RegistrationStateType :=
  | IRC_REGISTRATION_STATE_INVALID
  | IRC_REGISTRATION_STATE_PASS
  | IRC_REGISTRATION_STATE_NICK
  | IRC_REGISTRATION_STATE_USER
  | IRC_REGISTRATION_STATE_FINISHED
  | IRC_REGISTRATION_STATE_MAX.
#[export] Instance IRC_RegistrationStateType_eq_dec :
  EqDecision IRC_RegistrationStateType.
Proof. solve_decision. Defined.

Section Machine.
Context {M : Type} `{SyncBase IRC_RegistrationStateType M}.

(** the (initial) state of the constructor *)
Definition initial_state : IRC_RegistrationStateType := IRC_REGISTRATION_STATE_PASS.

(** [change ()]: the machine after the call, and the returned value *)
Definition change (m : M) (newState_in : IRC_RegistrationStateType) : M * bool :=
  match sync_state m with
  | IRC_REGISTRATION_STATE_PASS =>
      match newState_in with
      | IRC_REGISTRATION_STATE_NICK | IRC_REGISTRATION_STATE_FINISHED =>
          (sync_change m newState_in, true)
      | _ => (m, false)
      end
  | IRC_REGISTRATION_STATE_NICK =>
      match newState_in with
      | IRC_REGISTRATION_STATE_USER => (sync_change m newState_in, true)
      | _ => (m, false)
      end
  | IRC_REGISTRATION_STATE_USER =>
      match newState_in with
      | IRC_REGISTRATION_STATE_FINISHED => (sync_change m newState_in, true)
      | _ => (m, false)
      end
  | IRC_REGISTRATION_STATE_FINISHED =>
      match newState_in with
      | IRC_REGISTRATION_STATE_PASS => (sync_change m newState_in, true)
      | _ => (m, false)
      end
  | _ => (m, false)
  end.

Definition stateToString (state_in : IRC_RegistrationStateType) : string :=
  match state_in with
  | IRC_REGISTRATION_STATE_NICK => "NICK"
  | IRC_REGISTRATION_STATE_PASS => "PASS"
  | IRC_REGISTRATION_STATE_USER => "USER"
  | IRC_REGISTRATION_STATE_FINISHED => "FINISHED"
  | _ => "INVALID"
  end.

(** A sequence of calls; the calls that return [true] are the accepted ones. *)
Fixpoint run (m : M) (calls : list IRC_RegistrationStateType) :
    M * list IRC_RegistrationStateType :=
  match calls with
  | [] => (m, [])
  | s :: calls' =>
      let '(m', ok) := change m s in
      let '(m'', accepted) := run m' calls' in
      (m'', if ok then s :: accepted else accepted)
  end.
Arguments run : simpl never.

(** ** The registration protocol

    The specification: the accepted states form rounds, each PASS (the initial state
    or a restart), then nothing more than FINISHED, or NICK, USER, FINISHED. *)
Inductive follows : IRC_RegistrationStateType → list IRC_RegistrationStateType → Prop :=
  | follows_stop s : follows s []
  | follows_skip tr :
      follows IRC_REGISTRATION_STATE_FINISHED tr →
      follows IRC_REGISTRATION_STATE_PASS (IRC_REGISTRATION_STATE_FINISHED :: tr)
  | follows_nick tr :
      follows IRC_REGISTRATION_STATE_NICK tr →
      follows IRC_REGISTRATION_STATE_PASS (IRC_REGISTRATION_STATE_NICK :: tr)
  | follows_user tr :
      follows IRC_REGISTRATION_STATE_USER tr →
      follows IRC_REGISTRATION_STATE_NICK (IRC_REGISTRATION_STATE_USER :: tr)
  | follows_finished tr :
      follows IRC_REGISTRATION_STATE_FINISHED tr →
      follows IRC_REGISTRATION_STATE_USER (IRC_REGISTRATION_STATE_FINISHED :: tr)
  | follows_restart tr :
      follows IRC_REGISTRATION_STATE_PASS tr →
      follows IRC_REGISTRATION_STATE_FINISHED (IRC_REGISTRATION_STATE_PASS :: tr).

Lemma run_cons m s calls :
  run m (s :: calls) =
    let '(m', ok) := change m s in
    let '(m'', accepted) := run m' calls in
    (m'', if ok then s :: accepted else accepted).
Proof. done. Qed.

(** What one call does: it moves to the new state, or leaves the machine alone. *)
Lemma change_cases m s :
  (change m s = (sync_change m s, true) ∧
    ∀ tr, follows s tr → follows (sync_state m) (s :: tr)) ∨
  (change m s = (m, false) ∧ ∀ tr, ¬ follows (sync_state m) (s :: tr)).
Proof.
  unfold change. destruct (sync_state m) eqn:Hm, s;
    solve [left; split; [done|intros; by constructor]
          |right; split; [done|intros tr Hf; inversion Hf]].
Qed.

Lemma run_follows m calls : follows (sync_state m) (run m calls).2.
Proof.
  revert m; induction calls as [|s calls IH]; intros m; [constructor|].
  rewrite run_cons.
  destruct (change_cases m s) as [[-> Hf]|[-> _]].
  - specialize (IH (sync_change m s)). rewrite sync_state_change in IH.
    destruct (run (sync_change m s) calls). by apply Hf.
  - specialize (IH m). by destruct (run m calls).
Qed.

Lemma run_accepts m tr :
  follows (sync_state m) tr → (run m tr).2 = tr.
Proof.
  revert m; induction tr as [|s tr IH]; intros m Hf; [done|].
  rewrite run_cons. destruct (change_cases m s) as [[-> _]|[_ Hno]].
  - specialize (IH (sync_change m s)). rewrite sync_state_change in IH.
    destruct (run (sync_change m s) tr) as [m' acc] eqn:E. cbn in *.
    rewrite IH; [done|]. by inversion Hf.
  - by apply Hno in Hf.
Qed.

(** C31: the registration machine implements its protocol: from the initial state, the
    states it accepts in any sequence of calls form rounds of PASS, NICK, USER and
    FINISHED (or PASS and FINISHED, without registration), and conversely every
    sequence of that form is accepted in full. *)
Theorem registration_refines m (Hinit : sync_state m = initial_state) calls :
  follows IRC_REGISTRATION_STATE_PASS (run m calls).2 ∧
  (follows IRC_REGISTRATION_STATE_PASS calls → (run m calls).2 = calls).
Proof.
  unfold initial_state in Hinit. rewrite <- Hinit.
  split; [apply run_follows|apply run_accepts].
Qed.
End Machine.
Arguments run : simpl never.

Lemma registration_refines_witness :
  (sync_state IRC_REGISTRATION_STATE_PASS = initial_state) ∧
  follows IRC_REGISTRATION_STATE_PASS
    (run IRC_REGISTRATION_STATE_PASS
       [IRC_REGISTRATION_STATE_USER; IRC_REGISTRATION_STATE_NICK;
        IRC_REGISTRATION_STATE_USER; IRC_REGISTRATION_STATE_FINISHED]).2 ∧
  (run IRC_REGISTRATION_STATE_PASS
     [IRC_REGISTRATION_STATE_NICK; IRC_REGISTRATION_STATE_USER;
      IRC_REGISTRATION_STATE_FINISHED]).2 =
    [IRC_REGISTRATION_STATE_NICK; IRC_REGISTRATION_STATE_USER;
     IRC_REGISTRATION_STATE_FINISHED].
Proof.
  split; [done|]. split.
  - by apply (registration_refines IRC_REGISTRATION_STATE_PASS).
  - apply (registration_refines IRC_REGISTRATION_STATE_PASS); [done|].
    repeat constructor.
Defined.

(** The printed names of the registration states tell them apart. *)
Lemma registration_names_distinct s t :
  s ∉ [IRC_REGISTRATION_STATE_INVALID; IRC_REGISTRATION_STATE_MAX] →
  stateToString s = stateToString t → s = t.
Proof. intros Hs Heq. destruct s, t; cbn in Heq; try done; set_solver. Qed.
