(* ===== verification/WlanMonitor.v ===== *)
(** * The WLAN monitor state machine (wlan/net_wlan_monitor_statemachine.{h,cpp},
      net_wlan_common.h)

    The preprocessor selects the transitions: a [platform] is the value of the macros
    the code tests.  On Windows the machine is synchronous; elsewhere it is
    asynchronous: [change] enqueues the transition and the dispatching thread
    performs it, so the transition is judged from the state the queue leads to. *)
From S2P Require Import Prelude StateMachine.

(** enum Net_WLAN_MonitorState *)
Inductive Net_WLAN_MonitorState :=
  | STATE_INVALID
  | STATE_IDLE | STATE_SCAN | STATE_AUTHENTICATE | STATE_ASSOCIATE | STATE_CONNECT
  | STATE_DISCONNECT | STATE_DISASSOCIATE | STATE_DEAUTHENTICATE
  | STATE_INITIALIZED | STATE_SCANNED | STATE_AUTHENTICATED | STATE_ASSOCIATED
  | STATE_CONNECTED
  | STATE_MAX.
#[export] Instance Net_WLAN_MonitorState_eq_dec : EqDecision Net_WLAN_MonitorState.
Proof. solve_decision. Defined.

(** ACE_WIN32 || ACE_WIN64 (with WLANAPI_SUPPORT ?), ACE_LINUX (with NL80211_SUPPORT ?),
    any other system *)
Inductive platform :=
  | Win32 (WLANAPI_SUPPORT : bool)
  | Linux (NL80211_SUPPORT : bool)
  | OtherUnix.

Definition win32 (p : platform) : bool := match p with Win32 _ => true | _ => false end.
Definition wlanapi (p : platform) : bool := match p with Win32 w => w | _ => false end.
Definition linux (p : platform) : bool := match p with Linux _ => true | _ => false end.
Definition nl80211 (p : platform) : bool := match p with Linux n => n | _ => false end.

(** The enumerators a platform's enum has. *)
Definition declared (p : platform) (s : Net_WLAN_MonitorState) : bool :=
  match s with
  | STATE_AUTHENTICATE | STATE_ASSOCIATE | STATE_DISASSOCIATE | STATE_DEAUTHENTICATE
  | STATE_AUTHENTICATED | STATE_ASSOCIATED => negb (win32 p)
  | STATE_MAX => false
  | _ => true
  end.

(** ** The transitions, a definition per [case] of the outer [switch] *)
Definition from_invalid (newState_in : Net_WLAN_MonitorState) : bool :=
  match newState_in with
  | STATE_INITIALIZED => true
  | _ => false
  end.

Definition from_idle (p : platform) (newState_in : Net_WLAN_MonitorState) : bool :=
  match newState_in with
  | STATE_INVALID | STATE_IDLE | STATE_SCAN => true
  | STATE_CONNECT => win32 p || nl80211 p
  | STATE_AUTHENTICATE => linux p
  | STATE_DEAUTHENTICATE | STATE_ASSOCIATE | STATE_DISASSOCIATE | STATE_DISCONNECT =>
      nl80211 p
  | STATE_INITIALIZED | STATE_SCANNED => true
  | STATE_CONNECTED => win32 p || linux p
  | STATE_AUTHENTICATED => linux p
  | STATE_ASSOCIATED => nl80211 p
  | STATE_MAX => false
  end.

Definition from_scan (p : platform) (newState_in : Net_WLAN_MonitorState) : bool :=
  match newState_in with
  | STATE_INVALID | STATE_IDLE | STATE_SCAN => true
  | STATE_CONNECT => wlanapi p
  | STATE_ASSOCIATE => nl80211 p
  | STATE_INITIALIZED | STATE_SCANNED => true
  | _ => false
  end.

Definition from_authenticate (newState_in : Net_WLAN_MonitorState) : bool :=
  match newState_in with
  | STATE_INVALID | STATE_IDLE | STATE_AUTHENTICATE | STATE_DEAUTHENTICATE
  | STATE_INITIALIZED | STATE_SCANNED | STATE_AUTHENTICATED => true
  | _ => false
  end.

Definition from_associate (p : platform) (newState_in : Net_WLAN_MonitorState) : bool :=
  match newState_in with
  | STATE_INVALID | STATE_IDLE => true
  | STATE_SCAN => nl80211 p
  | STATE_ASSOCIATE | STATE_DISASSOCIATE
  | STATE_INITIALIZED | STATE_SCANNED | STATE_ASSOCIATED => true
  | _ => false
  end.

Definition from_deauthenticate (newState_in : Net_WLAN_MonitorState) : bool :=
  match newState_in with
  | STATE_INVALID | STATE_IDLE | STATE_INITIALIZED | STATE_SCANNED => true
  | _ => false
  end.

Definition from_disassociate (newState_in : Net_WLAN_MonitorState) : bool :=
  match newState_in with
  | STATE_INVALID | STATE_AUTHENTICATED | STATE_IDLE
  | STATE_INITIALIZED | STATE_SCANNED => true
  | _ => false
  end.

Definition from_connect (p : platform) (newState_in : Net_WLAN_MonitorState) : bool :=
  match newState_in with
  | STATE_INVALID => true
  | STATE_CONNECT | STATE_DISCONNECT => win32 p
  | STATE_IDLE => nl80211 p
  | STATE_INITIALIZED | STATE_SCANNED => true
  | STATE_ASSOCIATED => negb (win32 p)
  | STATE_CONNECTED => true
  | _ => false
  end.

Definition from_disconnect (p : platform) (newState_in : Net_WLAN_MonitorState) : bool :=
  match newState_in with
  | STATE_INVALID => true
  | STATE_IDLE => win32 p
  | STATE_DISASSOCIATE => negb (win32 p)
  | STATE_INITIALIZED | STATE_SCANNED => true
  | _ => false
  end.

Definition from_initialized (p : platform) (newState_in : Net_WLAN_MonitorState) : bool :=
  match newState_in with
  | STATE_INVALID | STATE_IDLE | STATE_INITIALIZED => true
  | STATE_SCANNED => win32 p
  | STATE_CONNECTED => true
  | _ => false
  end.

Definition from_scanned (p : platform) (newState_in : Net_WLAN_MonitorState) : bool :=
  match newState_in with
  | STATE_INVALID | STATE_IDLE => true
  | STATE_SCAN | STATE_CONNECT => win32 p
  | STATE_AUTHENTICATE => negb (win32 p)
  | STATE_INITIALIZED | STATE_SCANNED => true
  | STATE_AUTHENTICATED | STATE_ASSOCIATED => negb (win32 p)
  | STATE_CONNECTED => true
  | _ => false
  end.

Definition from_authenticated (newState_in : Net_WLAN_MonitorState) : bool :=
  match newState_in with
  | STATE_INVALID | STATE_SCAN | STATE_ASSOCIATE | STATE_DEAUTHENTICATE
  | STATE_INITIALIZED | STATE_SCANNED | STATE_ASSOCIATED => true
  | _ => false
  end.

Definition from_associated (p : platform) (newState_in : Net_WLAN_MonitorState) : bool :=
  match newState_in with
  | STATE_INVALID => true
  | STATE_IDLE => nl80211 p
  | STATE_SCAN | STATE_CONNECT | STATE_DISASSOCIATE
  | STATE_INITIALIZED | STATE_SCANNED | STATE_AUTHENTICATED | STATE_CONNECTED => true
  | _ => false
  end.

Definition from_connected (newState_in : Net_WLAN_MonitorState) : bool :=
  match newState_in with
  | STATE_INVALID | STATE_IDLE | STATE_SCAN | STATE_CONNECT | STATE_DISCONNECT
  | STATE_INITIALIZED | STATE_SCANNED => true
  | _ => false
  end.

(** the outer [switch]: is the transition a good case ? *)
Definition transition (p : platform) (state_e newState_in : Net_WLAN_MonitorState) : bool :=
  match state_e with
  | STATE_INVALID => from_invalid newState_in
  | STATE_IDLE => from_idle p newState_in
  | STATE_SCAN => from_scan p newState_in
  | STATE_AUTHENTICATE => negb (win32 p) && from_authenticate newState_in
  | STATE_ASSOCIATE => negb (win32 p) && from_associate p newState_in
  | STATE_DEAUTHENTICATE => negb (win32 p) && from_deauthenticate newState_in
  | STATE_DISASSOCIATE => negb (win32 p) && from_disassociate newState_in
  | STATE_CONNECT => from_connect p newState_in
  | STATE_DISCONNECT => from_disconnect p newState_in
  | STATE_INITIALIZED => from_initialized p newState_in
  | STATE_SCANNED => from_scanned p newState_in
  | STATE_AUTHENTICATED => negb (win32 p) && from_authenticated newState_in
  | STATE_ASSOCIATED => negb (win32 p) && from_associated p newState_in
  | STATE_CONNECTED => from_connected newState_in
  | STATE_MAX => false
  end.

Definition stateToString (p : platform) (state_in : Net_WLAN_MonitorState) : string :=
  match state_in with
  | STATE_INVALID => "INVALID"
  | STATE_IDLE => "IDLE"
  | STATE_SCAN => "SCAN"
  | STATE_AUTHENTICATE => if win32 p then "INVALID" else "AUTHENTICATE"
  | STATE_ASSOCIATE => if win32 p then "INVALID" else "ASSOCIATE"
  | STATE_CONNECT => "CONNECT"
  | STATE_DISCONNECT => "DISCONNECT"
  | STATE_DISASSOCIATE => if win32 p then "INVALID" else "DISASSOCIATE"
  | STATE_DEAUTHENTICATE => if win32 p then "INVALID" else "DEAUTHENTICATE"
  | STATE_INITIALIZED => "INITIALIZED"
  | STATE_SCANNED => "SCANNED"
  | STATE_AUTHENTICATED => if win32 p then "INVALID" else "AUTHENTICATED"
  | STATE_ASSOCIATED => if win32 p then "INVALID" else "ASSOCIATED"
  | STATE_CONNECTED => "CONNECTED"
  | STATE_MAX => "INVALID"
  end.

(** ** change () on Windows *)
Section Sync.
Context {M : Type} `{SyncBase Net_WLAN_MonitorState M}.

Definition change_sync (p : platform) (m : M) (newState_in : Net_WLAN_MonitorState) :
    M * bool :=
  let state_e := sync_state m in
  if transition p state_e newState_in then (sync_change m newState_in, true)
  else (m, false).

Definition initialize_sync (p : platform) (m : M) : M * bool :=
  ((change_sync p m STATE_INITIALIZED).1, true).
End Sync.

(** ** change () elsewhere *)
Section Async.
Context {M : Type} `{AsyncBase Net_WLAN_MonitorState M}.

(** the loop over the queued messages; the last message has no [next ()] *)
Fixpoint tail_state (state_e : Net_WLAN_MonitorState)
    (queue : list (message Net_WLAN_MonitorState)) : Net_WLAN_MonitorState :=
  match queue with
  | [] => state_e
  | [_] => state_e
  | MB_STOP :: queue' => tail_state state_e queue'
  | MB_state s :: queue' => tail_state s queue'
  end.

Definition change_async (p : platform) (m : M) (newState_in : Net_WLAN_MonitorState) :
    M * bool :=
  let state_e := tail_state (async_state m) (async_queue m) in
  if transition p state_e newState_in then (async_change m newState_in, true)
  else (m, false).

Definition initialize_async (p : platform) (m : M) : M * bool :=
  ((change_async p m STATE_INITIALIZED).1, true).
End Async.

(** ** The transition graph *)
Definition step (p : platform) (s t : Net_WLAN_MonitorState) : Prop :=
  transition p s t = true.

(** all the states, for checks by enumeration *)
Definition all_states : list Net_WLAN_MonitorState :=
  [STATE_INVALID; STATE_IDLE; STATE_SCAN; STATE_AUTHENTICATE; STATE_ASSOCIATE;
   STATE_CONNECT; STATE_DISCONNECT; STATE_DISASSOCIATE; STATE_DEAUTHENTICATE;
   STATE_INITIALIZED; STATE_SCANNED; STATE_AUTHENTICATED; STATE_ASSOCIATED;
   STATE_CONNECTED; STATE_MAX].

Lemma transition_declared p s t : transition p s t = true → declared p t = true.
Proof. destruct p as [[]|[]|], s, t; done. Qed.

Lemma transition_source p s t : transition p s t = true → declared p s = true.
Proof. destruct p as [[]|[]|], s, t; done. Qed.

(** Every state can be left for INITIALIZED (the monitor is stopped). *)
Lemma transition_initialized p s :
  declared p s = true → transition p s STATE_INITIALIZED = true.
Proof. destruct p as [[]|[]|], s; done. Qed.

(** A path from INITIALIZED to a state, that every platform with the state has. *)
Definition route (p : platform) (t : Net_WLAN_MonitorState) : list Net_WLAN_MonitorState :=
  match t with
  | STATE_INVALID | STATE_IDLE | STATE_CONNECTED | STATE_INITIALIZED => [t]
  | STATE_SCAN => [STATE_IDLE; STATE_SCAN]
  | STATE_SCANNED => [STATE_IDLE; STATE_SCANNED]
  | STATE_CONNECT | STATE_DISCONNECT => [STATE_CONNECTED; t]
  | STATE_AUTHENTICATE => [STATE_IDLE; STATE_SCANNED; STATE_AUTHENTICATE]
  | STATE_AUTHENTICATED => [STATE_IDLE; STATE_SCANNED; STATE_AUTHENTICATED]
  | STATE_ASSOCIATED => [STATE_IDLE; STATE_SCANNED; STATE_ASSOCIATED]
  | STATE_ASSOCIATE | STATE_DEAUTHENTICATE =>
      [STATE_IDLE; STATE_SCANNED; STATE_AUTHENTICATED; t]
  | STATE_DISASSOCIATE => [STATE_IDLE; STATE_SCANNED; STATE_ASSOCIATED; t]
  | STATE_MAX => []
  end.

Fixpoint path (p : platform) (s t : Net_WLAN_MonitorState)
    (l : list Net_WLAN_MonitorState) : bool :=
  match l with
  | [] => bool_decide (s = t)
  | u :: l' => transition p s u && path p u t l'
  end.

Lemma path_rtc p l s t : path p s t l = true → rtc (step p) s t.
Proof.
  revert s; induction l as [|u l IH]; intros s; cbn [path].
  - intros ->%bool_decide_eq_true. constructor.
  - intros [Hsu Hl]%andb_true_iff. econstructor; [exact Hsu|by apply IH].
Qed.

Lemma route_path p t :
  declared p t = true → path p STATE_INITIALIZED t (route p t) = true.
Proof. destruct p as [[]|[]|], t; done. Qed.

(** The transition graph is strongly connected on every platform: from each
    state the platform's enum declares every other one can be reached by accepted
    transitions, so the monitor never gets stuck. *)
Theorem monitor_never_stuck p s t
    (Hs : declared p s = true) (Ht : declared p t = true) :
  rtc (step p) s t.
Proof.
  eapply rtc_l; [apply transition_initialized, Hs|].
  by eapply path_rtc, route_path.
Qed.

Lemma monitor_never_stuck_witness :
  declared (Linux true) STATE_CONNECT = true ∧
  rtc (step (Linux true)) STATE_CONNECT STATE_DEAUTHENTICATE.
Proof. split; [done|]. by apply monitor_never_stuck. Defined.

(** ** Windows: runs of the synchronous machine *)
Section SyncRuns.
Context {M : Type} `{SyncBase Net_WLAN_MonitorState M}.

Fixpoint run_sync (p : platform) (m : M) (calls : list Net_WLAN_MonitorState) : M :=
  match calls with
  | [] => m
  | s :: calls' => run_sync p (change_sync p m s).1 calls'
  end.

Lemma change_sync_step p m s :
  if (change_sync p m s).2
  then step p (sync_state m) s ∧ sync_state (change_sync p m s).1 = s
  else ¬ step p (sync_state m) s ∧ (change_sync p m s).1 = m.
Proof.
  unfold change_sync, step.
  destruct (transition p (sync_state m) s) eqn:E; cbn; rewrite ?E; [|done].
  by rewrite sync_state_change.
Qed.

Lemma run_sync_rtc p calls m :
  rtc (step p) (sync_state m) (sync_state (run_sync p m calls)).
Proof.
  revert m; induction calls as [|s calls IH]; intros m; cbn [run_sync]; [constructor|].
  pose proof (change_sync_step p m s) as Hs. destruct ((change_sync p m s).2).
  - destruct Hs as [Hs Hst]. eapply rtc_l; [exact Hs|].
    specialize (IH (change_sync p m s).1). by rewrite Hst in IH.
  - destruct Hs as [_ ->]. apply IH.
Qed.

(** Type invariant of the synchronous monitor: whatever is asked of it, its state
    moves along the transition graph and stays a state its platform declares - no
    run on Windows ever is in one of the authentication or association states - and
    stopping it ([initialize ()], [reset ()]) works in every such state. *)
Theorem sync_run_invariant p m calls (Hm : declared p (sync_state m) = true) :
  rtc (step p) (sync_state m) (sync_state (run_sync p m calls)) ∧
  declared p (sync_state (run_sync p m calls)) = true ∧
  sync_state (initialize_sync p (run_sync p m calls)).1 = STATE_INITIALIZED.
Proof.
  assert (Hd : declared p (sync_state (run_sync p m calls)) = true).
  { pose proof (run_sync_rtc p calls m) as Hr. revert Hm.
    induction Hr as [|x y z Hxy _ IH]; [done|].
    intros _. apply IH. by apply transition_declared in Hxy. }
  split_and!; [apply run_sync_rtc|exact Hd|].
  unfold initialize_sync, change_sync. rewrite transition_initialized by done.
  apply sync_state_change.
Qed.
End SyncRuns.

Lemma sync_run_invariant_witness :
  declared (Win32 true) (sync_state STATE_INVALID) = true ∧
  declared (Win32 true) (sync_state
    (run_sync (Win32 true) STATE_INVALID
       [STATE_INITIALIZED; STATE_IDLE; STATE_AUTHENTICATE; STATE_CONNECT])) = true.
Proof. split; [done|]. by apply (sync_run_invariant (Win32 true) STATE_INVALID). Defined.

(** ** Elsewhere: runs of the asynchronous machine *)
Section AsyncRuns.
Context {M : Type} `{AsyncBase Net_WLAN_MonitorState M}.

(** What happens to the machine: a call of [change], or the dispatching thread
    performs the transition at the head of the queue. *)
Inductive async_step (p : platform) : M → M → Prop :=
  | step_change m s : async_step p m (change_async p m s).1
  | step_dispatch m x q :
      async_queue m = x :: q → async_step p m (async_dispatch m).

(** The transitions that are queued lead to declared states. *)
Definition well_formed (p : platform) (m : M) : Prop :=
  declared p (async_state m) = true ∧
  ∀ s, MB_state s ∈ async_queue m → declared p s = true.

Lemma async_step_well_formed p m m' :
  async_step p m m' → well_formed p m → well_formed p m'.
Proof.
  intros Hstep [Hm Hq]. destruct Hstep as [m s|m x q Hx].
  - unfold change_async. destruct_if; [|done]. cbn [fst]. split.
    + by rewrite async_state_change.
    + intros u. rewrite async_queue_change, elem_of_app, list_elem_of_singleton.
      intros [?|[= ->]]; [by apply Hq|]. by eapply transition_declared.
  - rewrite Hx in Hq. split.
    + rewrite (async_state_dispatch m x q) by done. destruct x; [done|].
      apply Hq. left.
    + intros u. rewrite (async_queue_dispatch m x q) by done. intros Hu.
      apply Hq. by right.
Qed.

(** In any interleaving of requests with the dispatching thread the asynchronous
    monitor's state, and the states its queue will lead to, remain states the
    platform declares. *)
Theorem async_reachable_declared p m m'
    (Hm : well_formed p m) (Hreach : rtc (async_step p) m m') :
  declared p (async_state m') = true ∧
  ∀ s, MB_state s ∈ async_queue m' → declared p s = true.
Proof.
  change (well_formed p m'). revert Hm.
  induction Hreach as [|x y z Hxy _ IH]; [done|].
  intros Hx. by apply IH, (async_step_well_formed p x).
Qed.

(** The state that all the queued transitions lead to. *)
Definition perform (s : Net_WLAN_MonitorState) (x : message Net_WLAN_MonitorState) :
    Net_WLAN_MonitorState :=
  match x with MB_STOP => s | MB_state u => u end.
Definition pending_state (m : M) : Net_WLAN_MonitorState :=
  foldl perform (async_state m) (async_queue m).

Lemma tail_state_last s q x : tail_state s (q ++ [x]) = foldl perform s q.
Proof.
  revert s; induction q as [|y [|z q] IH]; intros s; [by destruct x|by destruct x, y|].
  cbn [app foldl] in *. rewrite <- IH. by destruct y.
Qed.

(** The transition queued last is not taken into account: once [change] has
    accepted (and queued) a transition to [s], the next request is judged from the
    state that was pending before, whatever [s] is, although a comment says that
    the tail-end transition is retrieved. *)
Theorem change_async_ignores_pending p m s t (Hs : (change_async p m s).2 = true) :
  pending_state (change_async p m s).1 = s ∧
  (change_async p (change_async p m s).1 t).2 = transition p (pending_state m) t.
Proof.
  unfold change_async in *. destruct_if; [|done]. cbn [fst].
  unfold pending_state. rewrite async_queue_change, async_state_change, foldl_app.
  rewrite tail_state_last. split; [done|]. by destruct_if.
Qed.




















End AsyncRuns.

Lemma async_reachable_declared_witness :
  declared (Linux false) (async_state (M := _ * list (message _))
    (STATE_INITIALIZED, [MB_state STATE_IDLE])) = true.
Proof.
  apply (async_reachable_declared (Linux false) (STATE_INVALID, [])).
  - split; [done|]. cbn. set_solver.
  - eapply rtc_l; [apply (step_change _ _ STATE_INITIALIZED)|].
    eapply rtc_l; [by eapply step_dispatch|].
    eapply rtc_l; [apply (step_change _ _ STATE_IDLE)|]. apply rtc_refl.
Defined.



(** Two requests in a row: SCAN, then AUTHENTICATE, are both accepted in IDLE,
    although SCAN does not admit AUTHENTICATE. *)
Lemma change_async_ignores_pending_witness :
  ((change_async (Linux true) (STATE_IDLE, []) STATE_SCAN).2 = true ∧
   transition (Linux true) STATE_SCAN STATE_AUTHENTICATE = false ∧
   transition (Linux true) STATE_IDLE STATE_AUTHENTICATE = true) ∧
  (change_async (Linux true) (change_async (Linux true) (STATE_IDLE, []) STATE_SCAN).1
     STATE_AUTHENTICATE).2 =
    transition (Linux true) (pending_state (STATE_IDLE, [])) STATE_AUTHENTICATE.
Proof. split; [done|]. by apply (change_async_ignores_pending (Linux true)). Defined.

(** The names tell the declared states apart. *)
Lemma monitor_names_distinct p s t :
  declared p s = true → declared p t = true →
  stateToString p s = stateToString p t → s = t.
Proof. destruct p as [[]|[]|], s, t; done. Qed.
