(* ===== verification/IrcCodes.v ===== *)
(** * The numeric replies and errors of IRC (protocol/irc/irc_codes.h)

    [enum IRC_Codes::RFC1459Numeric]: a numeric is the number of a message received
    from a server, a [Z]; the enumerators are the constants below. *)
From S2P Require Import Prelude.

Module IRC_Codes.
Definition RPL_WELCOME : Z := 1.
Definition RPL_YOURHOST : Z := 2.
Definition RPL_CREATED : Z := 3.
Definition RPL_MYINFO : Z := 4.
Definition RPL_PROTOCTL : Z := 5.
Definition RPL_MAPMORE : Z := 6.
Definition RPL_MAPEND : Z := 7.
Definition RPL_SNOMASK : Z := 8.
Definition RPL_STATMEMTOT : Z := 9.
Definition RPL_STATMEM : Z := 10.
Definition RPL_YOURCOOKIE : Z := 14.
Definition RPL_YOURID : Z := 20.
Definition RPL_SAVENICK : Z := 43.
Definition RPL_ATTEMPTINGJUNC : Z := 50.
Definition RPL_ATTEMPTINGREROUTE : Z := 51.
Definition RPL_TRACELINK : Z := 200.
Definition RPL_TRACECONNECTING : Z := 201.
Definition RPL_TRACEHANDSHAKE : Z := 202.
Definition RPL_TRACEUNKNOWN : Z := 203.
Definition RPL_TRACEOPERATOR : Z := 204.
Definition RPL_TRACEUSER : Z := 205.
Definition RPL_TRACESERVER : Z := 206.
Definition RPL_TRACESERVICE : Z := 207.
Definition RPL_TRACENEWTYPE : Z := 208.
Definition RPL_TRACECLASS : Z := 209.
Definition RPL_TRACERECONNECT : Z := 210.
Definition RPL_STATSLINKINFO : Z := 211.
Definition RPL_STATSCOMMANDS : Z := 212.
Definition RPL_STATSCLINE : Z := 213.
Definition RPL_STATSNLINE : Z := 214.
Definition RPL_STATSILINE : Z := 215.
Definition RPL_STATSKLINE : Z := 216.
Definition RPL_STATSQLINE : Z := 217.
Definition RPL_STATSYLINE : Z := 218.
Definition RPL_ENDOFSTATS : Z := 219.
Definition RPL_STATSPLINE : Z := 220.
Definition RPL_UMODEIS : Z := 221.
Definition RPL_SQLINE_NICK : Z := 222.
Definition RPL_STATSELINE : Z := 223.
Definition RPL_STATSFLINE : Z := 224.
Definition RPL_STATSGLINE : Z := 225.
Definition RPL_STATSCOUNT : Z := 226.
Definition RPL_SERVICEINFO : Z := 231.
Definition RPL_ENDOFSERVICES : Z := 232.
Definition RPL_SERVICE : Z := 233.
Definition RPL_SERVLIST : Z := 234.
Definition RPL_SERVLISTEND : Z := 235.
Definition RPL_STATSVERBOSE : Z := 236.
Definition RPL_STATSENGINE : Z := 237.
Definition RPL_STATSIAUTH : Z := 239.
Definition RPL_STATSVLINE : Z := 240.
Definition RPL_STATSLLINE : Z := 241.
Definition RPL_STATSUPTIME : Z := 242.
Definition RPL_STATSOLINE : Z := 243.
Definition RPL_STATSHLINE : Z := 244.
Definition RPL_STATSSLINE : Z := 245.
Definition RPL_STATSPING : Z := 246.
Definition RPL_STATSBLINE : Z := 247.
Definition RPL_STATSDEFINE : Z := 248.
Definition RPL_STATSDEBUG : Z := 249.
Definition RPL_STATSDLINE : Z := 250.
Definition RPL_LUSERCLIENT : Z := 251.
Definition RPL_LUSEROP : Z := 252.
Definition RPL_LUSERUNKNOWN : Z := 253.
Definition RPL_LUSERCHANNELS : Z := 254.
Definition RPL_LUSERME : Z := 255.
Definition RPL_ADMINME : Z := 256.
Definition RPL_ADMINLOC1 : Z := 257.
Definition RPL_ADMINLOC2 : Z := 258.
Definition RPL_ADMINEMAIL : Z := 259.
Definition RPL_TRACELOG : Z := 261.
Definition RPL_TRACEEND : Z := 262.
Definition RPL_TRYAGAIN : Z := 263.
Definition RPL_LOCALUSERS : Z := 265.
Definition RPL_GLOBALUSERS : Z := 266.
Definition RPL_START_NETSTAT : Z := 267.
Definition RPL_NETSTAT : Z := 268.
Definition RPL_END_NETSTAT : Z := 269.
Definition RPL_PRIVS : Z := 270.
Definition RPL_SILELIST : Z := 271.
Definition RPL_ENDOFSILELIST : Z := 272.
Definition RPL_NOTIFY : Z := 273.
Definition RPL_STATSDELTA : Z := 274.
Definition RPL_VCHANEXIST : Z := 276.
Definition RPL_VCHANLIST : Z := 277.
Definition RPL_VCHANHELP : Z := 278.
Definition RPL_GLIST : Z := 280.
Definition RPL_ENDOFGLIST : Z := 281.
Definition RPL_ENDOFACCEPT : Z := 282.
Definition RPL_ALIST : Z := 283.
Definition RPL_ENDOFALIST : Z := 284.
Definition RPL_GLIST_HASH : Z := 285.
Definition RPL_CHANINFO_USERS : Z := 286.
Definition RPL_CHANINFO_CHOPS : Z := 287.
Definition RPL_CHANINFO_VOICES : Z := 288.
Definition RPL_CHANINFO_AWAY : Z := 289.
Definition RPL_HELPHDR : Z := 290.
Definition RPL_HELPOP : Z := 291.
Definition RPL_HELPTLR : Z := 292.
Definition RPL_HELPHLP : Z := 293.
Definition RPL_HELPFWD : Z := 294.
Definition RPL_HELPIGN : Z := 295.
Definition RPL_CHANINFO_KICKS : Z := 296.
Definition RPL_END_CHANINFO : Z := 299.
Definition RPL_NONE : Z := 300.
Definition RPL_AWAY : Z := 301.
Definition RPL_USERHOST : Z := 302.
Definition RPL_ISON : Z := 303.
Definition RPL_TEXT : Z := 304.
Definition RPL_UNAWAY : Z := 305.
Definition RPL_NOWAWAY : Z := 306.
Definition RPL_USERIP : Z := 307.
Definition RPL_WHOISADMIN : Z := 308.
Definition RPL_WHOISSADMIN : Z := 309.
Definition RPL_WHOISHELPOP : Z := 310.
Definition RPL_WHOISUSER : Z := 311.
Definition RPL_WHOISSERVER : Z := 312.
Definition RPL_WHOISOPERATOR : Z := 313.
Definition RPL_WHOWASUSER : Z := 314.
Definition RPL_ENDOFWHO : Z := 315.
Definition RPL_WHOISCHANOP : Z := 316.
Definition RPL_WHOISIDLE : Z := 317.
Definition RPL_ENDOFWHOIS : Z := 318.
Definition RPL_WHOISCHANNELS : Z := 319.
Definition RPL_WHOISVIRT : Z := 320.
Definition RPL_LISTSTART : Z := 321.
Definition RPL_LIST : Z := 322.
Definition RPL_LISTEND : Z := 323.
Definition RPL_CHANNELMODEIS : Z := 324.
Definition RPL_UNIQOPIS : Z := 325.
Definition RPL_NOCHANPASS : Z := 326.
Definition RPL_CHPASSUNKNOWN : Z := 327.
Definition RPL_CHANNEL_URL : Z := 328.
Definition RPL_CREATIONTIME : Z := 329.
Definition RPL_WHOWAS_TIME : Z := 330.
Definition RPL_NOTOPIC : Z := 331.
Definition RPL_TOPIC : Z := 332.
Definition RPL_TOPICWHOTIME : Z := 333.
Definition RPL_LISTUSAGE : Z := 334.
Definition RPL_WHOISBOT : Z := 335.
Definition RPL_CHANPASSOK : Z := 338.
Definition RPL_BADCHANPASS : Z := 339.
Definition RPL_INVITING : Z := 341.
Definition RPL_SUMMONING : Z := 342.
Definition RPL_INVITED : Z := 345.
Definition RPL_INVITELIST : Z := 346.
Definition RPL_ENDOFINVITELIST : Z := 347.
Definition RPL_EXCEPTLIST : Z := 348.
Definition RPL_ENDOFEXCEPTLIST : Z := 349.
Definition RPL_VERSION : Z := 351.
Definition RPL_WHOREPLY : Z := 352.
Definition RPL_NAMREPLY : Z := 353.
Definition RPL_WHOSPCRPL : Z := 354.
Definition RPL_NAMREPLY_ : Z := 355.
Definition RPL_KILLDONE : Z := 361.
Definition RPL_CLOSING : Z := 362.
Definition RPL_CLOSEEND : Z := 363.
Definition RPL_LINKS : Z := 364.
Definition RPL_ENDOFLINKS : Z := 365.
Definition RPL_ENDOFNAMES : Z := 366.
Definition RPL_BANLIST : Z := 367.
Definition RPL_ENDOFBANLIST : Z := 368.
Definition RPL_ENDOFWHOWAS : Z := 369.
Definition RPL_INFO : Z := 371.
Definition RPL_MOTD : Z := 372.
Definition RPL_INFOSTART : Z := 373.
Definition RPL_ENDOFINFO : Z := 374.
Definition RPL_MOTDSTART : Z := 375.
Definition RPL_ENDOFMOTD : Z := 376.
Definition RPL_FORCE_MOTD : Z := 377.
Definition RPL_BANEXPIRED : Z := 378.
Definition RPL_KICKLINKED : Z := 379.
Definition RPL_BANLINKED : Z := 380.
Definition RPL_YOUREOPER : Z := 381.
Definition RPL_REHASHING : Z := 382.
Definition RPL_YOURESERVICE : Z := 383.
Definition RPL_MYPORTIS : Z := 384.
Definition RPL_NOTOPERANYMORE : Z := 385.
Definition RPL_QLIST : Z := 386.
Definition RPL_ENDOFQLIST : Z := 387.
Definition RPL_TIME : Z := 391.
Definition RPL_USERSSTART : Z := 392.
Definition RPL_USERS : Z := 393.
Definition RPL_ENDOFUSERS : Z := 394.
Definition RPL_NOUSERS : Z := 395.
Definition RPL_HOSTHIDDEN : Z := 396.
Definition ERR_UNKNOWNERROR : Z := 400.
Definition ERR_NOSUCHNICK : Z := 401.
Definition ERR_NOSUCHSERVER : Z := 402.
Definition ERR_NOSUCHCHANNEL : Z := 403.
Definition ERR_CANNOTSENDTOCHAN : Z := 404.
Definition ERR_TOOMANYCHANNELS : Z := 405.
Definition ERR_WASNOSUCHNICK : Z := 406.
Definition ERR_TOOMANYTARGETS : Z := 407.
Definition ERR_NOSUCHSERVICE : Z := 408.
Definition ERR_NOORIGIN : Z := 409.
Definition ERR_NORECIPIENT : Z := 411.
Definition ERR_NOTEXTTOSEND : Z := 412.
Definition ERR_NOTOPLEVEL : Z := 413.
Definition ERR_WILDTOPLEVEL : Z := 414.
Definition ERR_BADMASK : Z := 415.
Definition ERR_TOOMANYMATCHES : Z := 416.
Definition ERR_LENGTHTRUNCATED : Z := 419.
Definition ERR_UNKNOWNCOMMAND : Z := 421.
Definition ERR_NOMOTD : Z := 422.
Definition ERR_NOADMININFO : Z := 423.
Definition ERR_FILEERROR : Z := 424.
Definition ERR_NOOPERMOTD : Z := 425.
Definition ERR_TOOMANYAWAY : Z := 429.
Definition ERR_EVENTNICKCHANGE : Z := 430.
Definition ERR_NONICKNAMEGIVEN : Z := 431.
Definition ERR_ERRONEUSNICKNAME : Z := 432.
Definition ERR_NICKNAMEINUSE : Z := 433.
Definition ERR_SERVICENAMEINUSE : Z := 434.
Definition ERR_SERVICECONFUSED : Z := 435.
Definition ERR_NICKCOLLISION : Z := 436.
Definition ERR_UNAVAILRESOURCE : Z := 437.
Definition ERR_NICKTOOFAST : Z := 438.
Definition ERR_TARGETTOOFAST : Z := 439.
Definition ERR_SERVICESDOWN : Z := 440.
Definition ERR_USERNOTINCHANNEL : Z := 441.
Definition ERR_NOTONCHANNEL : Z := 442.
Definition ERR_USERONCHANNEL : Z := 443.
Definition ERR_NOLOGIN : Z := 444.
Definition ERR_SUMMONDISABLED : Z := 445.
Definition ERR_USERSDISABLED : Z := 446.
Definition ERR_NONICKCHANGE : Z := 447.
Definition ERR_NOTIMPLEMENTED : Z := 449.
Definition ERR_NOTREGISTERED : Z := 451.
Definition ERR_IDCOLLISION : Z := 452.
Definition ERR_NICKLOST : Z := 453.
Definition ERR_HOSTILENAME : Z := 455.
Definition ERR_ACCEPTFULL : Z := 456.
Definition ERR_ACCEPTEXIST : Z := 457.
Definition ERR_ACCEPTNOT : Z := 458.
Definition ERR_NOHIDING : Z := 459.
Definition ERR_NOTFORHALFOPS : Z := 460.
Definition ERR_NEEDMOREPARAMS : Z := 461.
Definition ERR_ALREADYREGISTRED : Z := 462.
Definition ERR_NOPERMFORHOST : Z := 463.
Definition ERR_PASSWDMISMATCH : Z := 464.
Definition ERR_YOUREBANNEDCREEP : Z := 465.
Definition ERR_YOUWILLBEBANNED : Z := 466.
Definition ERR_KEYSET : Z := 467.
Definition ERR_ONLYSERVERSCANCHANGE : Z := 468.
Definition ERR_LINKSET : Z := 469.
Definition ERR_LINKCHANNEL : Z := 470.
Definition ERR_CHANNELISFULL : Z := 471.
Definition ERR_UNKNOWNMODE : Z := 472.
Definition ERR_INVITEONLYCHAN : Z := 473.
Definition ERR_BANNEDFROMCHAN : Z := 474.
Definition ERR_BADCHANNELKEY : Z := 475.
Definition ERR_BADCHANMASK : Z := 476.
Definition ERR_NOCHANMODES : Z := 477.
Definition ERR_BANLISTFULL : Z := 478.
Definition ERR_BADCHANNAME : Z := 479.
Definition ERR_CANNOTKNOCK : Z := 480.
Definition ERR_NOPRIVILEGES : Z := 481.
Definition ERR_CHANOPRIVSNEEDED : Z := 482.
Definition ERR_CANTKILLSERVER : Z := 483.
Definition ERR_RESTRICTED : Z := 484.
Definition ERR_UNIQOPPRIVSNEEDED : Z := 485.
Definition ERR_NONONREG : Z := 486.
Definition ERR_CHANTOORECENT : Z := 487.
Definition ERR_TSLESSCHAN : Z := 488.
Definition ERR_VOICENEEDED : Z := 489.
Definition ERR_NOOPERHOST : Z := 491.
Definition ERR_NOSERVICEHOST : Z := 492.
Definition ERR_NOFEATURE : Z := 493.
Definition ERR_BADFEATURE : Z := 494.
Definition ERR_BADLOGTYPE : Z := 495.
Definition ERR_BADLOGSYS : Z := 496.
Definition ERR_BADLOGVALUE : Z := 497.
Definition ERR_ISOPERLCHAN : Z := 498.
Definition ERR_CHANOWNPRIVNEEDED : Z := 499.
Definition ERR_UMODEUNKNOWNFLAG : Z := 501.
Definition ERR_USERSDONTMATCH : Z := 502.
Definition ERR_GHOSTEDCLIENT : Z := 503.
Definition ERR_USERNOTONSERV : Z := 504.
Definition ERR_SILELISTFULL : Z := 511.
Definition ERR_NOSUCHGLINE : Z := 512.
Definition ERR_BADPING : Z := 513.
Definition ERR_INVALID_ERR : Z := 514.
Definition ERR_BADEXPIRE : Z := 515.
Definition ERR_DONTCHEAT : Z := 516.
Definition ERR_DISABLED : Z := 517.
Definition ERR_NOINVITE : Z := 518.
Definition ERR_ADMONLY : Z := 519.
Definition ERR_OPERONLY : Z := 520.
Definition ERR_LISTSYNTAX : Z := 521.
Definition ERR_WHOSYNTAX : Z := 522.
Definition ERR_WHOLIMEXCEED : Z := 523.
Definition ERR_OPERSPVERIFY : Z := 524.
Definition ERR_REMOTEPFX : Z := 525.
Definition ERR_PFXUNROUTABLE : Z := 526.
Definition ERR_BADHOSTMASK : Z := 550.
Definition ERR_HOSTUNAVAIL : Z := 551.
Definition ERR_USINGSLINE : Z := 552.
Definition ERR_STATSSLINE : Z := 553.
Definition RPL_LOGON : Z := 600.
Definition RPL_LOGOFF : Z := 601.
Definition RPL_WATCHOFF : Z := 602.
Definition RPL_WATCHSTAT : Z := 603.
Definition RPL_NOWON : Z := 604.
Definition RPL_NOWOFF : Z := 605.
Definition RPL_WATCHLIST : Z := 606.
Definition RPL_ENDOFWATCHLIST : Z := 607.
Definition RPL_WATCHCLEAR : Z := 608.
Definition RPL_ISOPER : Z := 610.
Definition RPL_ISLOCOP : Z := 611.
Definition RPL_ISNOTOPER : Z := 612.
Definition RPL_ENDOFISOPER : Z := 613.
Definition RPL_WHOISMODES : Z := 615.
Definition RPL_WHOISHOST : Z := 616.
Definition RPL_DCCSTATUS : Z := 617.
Definition RPL_DCCLIST : Z := 618.
Definition RPL_WHOWASHOST : Z := 619.
Definition RPL_RULESSTART : Z := 620.
Definition RPL_RULES : Z := 621.
Definition RPL_ENDOFRULES : Z := 622.
Definition RPL_OMOTDSTART : Z := 624.
Definition RPL_OMOTD : Z := 625.
Definition RPL_ENDOFO : Z := 626.
Definition RPL_SETTINGS : Z := 630.
Definition RPL_ENDOFSETTINGS : Z := 631.
Definition RPL_DUMPING : Z := 640.
Definition RPL_DUMPRPL : Z := 641.
Definition RPL_EODUMP : Z := 642.
Definition RPL_TRACEROUTE_HOP : Z := 660.
Definition RPL_TRACEROUTE_START : Z := 661.
Definition RPL_MODECHANGEWARN : Z := 662.
Definition RPL_CHANREDIR : Z := 663.
Definition RPL_SERVMODEIS : Z := 664.
Definition RPL_OTHERUMODEIS : Z := 665.
Definition RPL_ENDOF_GENERIC : Z := 666.
Definition RPL_WHOWASDETAILS : Z := 670.
Definition RPL_WHOISSECURE : Z := 671.
Definition RPL_UNKNOWNMODES : Z := 672.
Definition RPL_CANNOTSETMODES : Z := 673.
Definition RPL_LUSERSTAFF : Z := 678.
Definition RPL_TIMEONSERVERIS : Z := 679.
Definition RPL_NETWORKS : Z := 682.
Definition RPL_YOURLANGUAGEIS : Z := 687.
Definition RPL_LANGUAGE : Z := 688.
Definition RPL_WHOISSTAFF : Z := 689.
Definition RPL_WHOISLANGUAGE : Z := 690.
Definition RPL_MODLIST : Z := 702.
Definition RPL_ENDOFMODLIST : Z := 703.
Definition RPL_HELPSTART : Z := 704.
Definition RPL_HELPTXT : Z := 705.
Definition RPL_ENDOFHELP : Z := 706.
Definition RPL_ETRACEFULL : Z := 708.
Definition RPL_ETRACE : Z := 709.
Definition RPL_KNOCK : Z := 710.
Definition RPL_KNOCKDLVR : Z := 711.
Definition RPL_TOOMANYKNOCK : Z := 712.
Definition RPL_CHANOPEN : Z := 713.
Definition RPL_KNOCKONCHAN : Z := 714.
Definition RPL_KNOCKDISABLED : Z := 715.
Definition RPL_TARGUMODEG : Z := 716.
Definition RPL_TARGNOTIFY : Z := 717.
Definition RPL_UMODEGMSG : Z := 718.
Definition RPL_ENDOFOMOTD : Z := 722.
Definition RPL_NOPRIVS : Z := 723.
Definition RPL_TESTMARK : Z := 724.
Definition RPL_TESTLINE : Z := 725.
Definition RPL_NOTESTLINE : Z := 726.
Definition RPL_XINFO : Z := 771.
Definition RPL_XINFOSTART : Z := 773.
Definition RPL_XINFOEND : Z := 774.
Definition ERR_CANNOTDOCOMMAND : Z := 972.
Definition ERR_CANNOTCHANGEUMODE : Z := 973.
Definition ERR_CANNOTCHANGECHANMODE : Z := 974.
Definition ERR_CANNOTCHANGESERVERMODE : Z := 975.
Definition ERR_CANNOTSENDTONICK : Z := 976.
Definition ERR_UNKNOWNSERVERMODE : Z := 977.
Definition ERR_SERVERMODELOCK : Z := 979.
Definition ERR_BADCHARENCODING : Z := 980.
Definition ERR_TOOMANYLANGUAGES : Z := 981.
Definition ERR_NOLANGUAGE : Z := 982.
Definition ERR_TEXTTOOSHORT : Z := 983.
Definition ERR_NUMERIC_ERR : Z := 999.
End IRC_Codes.
