(* ===== verification/IrcNumerics.v ===== *)
(** * The names of the numeric replies (protocol/irc/irc_tools.cpp)

    [IRC_Tools::CommandToString (IRC_NumericCommand_t)]: the cases of its switch, in
    the order of the code, in tables of seventy. *)
From S2P Require Import Prelude IrcCodes.
Import IRC_Codes.

Definition numeric_names_1 : list (Z * string) :=
  [(RPL_WELCOME, "RPL_WELCOME");
   (RPL_YOURHOST, "RPL_YOURHOST");
   (RPL_CREATED, "RPL_CREATED");
   (RPL_MYINFO, "RPL_MYINFO");
   (RPL_PROTOCTL, "RPL_PROTOCTL");
   (RPL_MAPMORE, "RPL_MAPMORE");
   (RPL_MAPEND, "RPL_MAPEND");
   (RPL_SNOMASK, "RPL_SNOMASK");
   (RPL_STATMEMTOT, "RPL_STATMEMTOT");
   (RPL_STATMEM, "RPL_STATMEM");
   (RPL_YOURCOOKIE, "RPL_YOURCOOKIE");
   (RPL_YOURID, "RPL_YOURID");
   (RPL_SAVENICK, "RPL_SAVENICK");
   (RPL_ATTEMPTINGJUNC, "RPL_ATTEMPTINGJUNC");
   (RPL_ATTEMPTINGREROUTE, "RPL_ATTEMPTINGREROUTE");
   (RPL_TRACELINK, "RPL_TRACELINK");
   (RPL_TRACECONNECTING, "RPL_TRACECONNECTING");
   (RPL_TRACEHANDSHAKE, "RPL_TRACEHANDSHAKE");
   (RPL_TRACEUNKNOWN, "RPL_TRACEUNKNOWN");
   (RPL_TRACEOPERATOR, "RPL_TRACEOPERATOR");
   (RPL_TRACEUSER, "RPL_TRACEUSER");
   (RPL_TRACESERVER, "RPL_TRACESERVER");
   (RPL_TRACESERVICE, "RPL_TRACESERVICE");
   (RPL_TRACENEWTYPE, "RPL_TRACENEWTYPE");
   (RPL_TRACECLASS, "RPL_TRACECLASS");
   (RPL_TRACERECONNECT, "RPL_TRACERECONNECT");
   (RPL_STATSLINKINFO, "RPL_STATSLINKINFO");
   (RPL_STATSCOMMANDS, "RPL_STATSCOMMANDS");
   (RPL_STATSCLINE, "RPL_STATSCLINE");
   (RPL_STATSNLINE, "RPL_STATSNLINE");
   (RPL_STATSILINE, "RPL_STATSILINE");
   (RPL_STATSKLINE, "RPL_STATSKLINE");
   (RPL_STATSQLINE, "RPL_STATSQLINE");
   (RPL_STATSYLINE, "RPL_STATSYLINE");
   (RPL_ENDOFSTATS, "RPL_ENDOFSTATS");
   (RPL_STATSPLINE, "RPL_STATSPLINE");
   (RPL_UMODEIS, "RPL_UMODEIS");
   (RPL_SQLINE_NICK, "RPL_SQLINE_NICK");
   (RPL_STATSELINE, "RPL_STATSELINE");
   (RPL_STATSFLINE, "RPL_STATSFLINE");
   (RPL_STATSGLINE, "RPL_STATSGLINE");
   (RPL_STATSCOUNT, "RPL_STATSCOUNT");
   (RPL_SERVICEINFO, "RPL_SERVICEINFO");
   (RPL_ENDOFSERVICES, "RPL_ENDOFSERVICES");
   (RPL_SERVICE, "RPL_SERVICE");
   (RPL_SERVLIST, "RPL_SERVLIST");
   (RPL_SERVLISTEND, "RPL_SERVLISTEND");
   (RPL_STATSVERBOSE, "RPL_STATSVERBOSE");
   (RPL_STATSENGINE, "RPL_STATSENGINE");
   (RPL_STATSIAUTH, "RPL_STATSIAUTH");
   (RPL_STATSVLINE, "RPL_STATSVLINE");
   (RPL_STATSLLINE, "RPL_STATSLLINE");
   (RPL_STATSUPTIME, "RPL_STATSUPTIME");
   (RPL_STATSOLINE, "RPL_STATSOLINE");
   (RPL_STATSHLINE, "RPL_STATSHLINE");
   (RPL_STATSSLINE, "RPL_STATSSLINE");
   (RPL_STATSPING, "RPL_STATSPING");
   (RPL_STATSBLINE, "RPL_STATSBLINE");
   (RPL_STATSDEFINE, "RPL_STATSDEFINE");
   (RPL_STATSDEBUG, "RPL_STATSDEBUG");
   (RPL_STATSDLINE, "RPL_STATSDLINE");
   (RPL_LUSERCLIENT, "RPL_LUSERCLIENT");
   (RPL_LUSEROP, "RPL_LUSEROP");
   (RPL_LUSERUNKNOWN, "RPL_LUSERUNKNOWN");
   (RPL_LUSERCHANNELS, "RPL_LUSERCHANNELS");
   (RPL_LUSERME, "RPL_LUSERME");
   (RPL_ADMINME, "RPL_ADMINME");
   (RPL_ADMINLOC1, "RPL_ADMINLOC1");
   (RPL_ADMINLOC2, "RPL_ADMINLOCTo");
   (RPL_ADMINEMAIL, "RPL_ADMINEMAIL")].

Definition numeric_names_2 : list (Z * string) :=
  [(RPL_TRACELOG, "RPL_TRACELOG");
   (RPL_TRACEEND, "RPL_TRACEEND");
   (RPL_TRYAGAIN, "RPL_TRYAGAIN");
   (RPL_LOCALUSERS, "RPL_LOCALUSERS");
   (RPL_GLOBALUSERS, "RPL_GLOBALUSERS");
   (RPL_START_NETSTAT, "RPL_START_NETSTAT");
   (RPL_NETSTAT, "RPL_NETSTAT");
   (RPL_END_NETSTAT, "RPL_END_NETSTAT");
   (RPL_PRIVS, "RPL_PRIVS");
   (RPL_SILELIST, "RPL_SILELIST");
   (RPL_ENDOFSILELIST, "RPL_ENDOFSILELIST");
   (RPL_NOTIFY, "RPL_NOTIFY");
   (RPL_STATSDELTA, "RPL_STATSDELTA");
   (RPL_VCHANEXIST, "RPL_VCHANEXIST");
   (RPL_VCHANLIST, "RPL_VCHANLIST");
   (RPL_VCHANHELP, "RPL_VCHANHELP");
   (RPL_GLIST, "RPL_GLIST");
   (RPL_ENDOFGLIST, "RPL_ENDOFGLIST");
   (RPL_ENDOFACCEPT, "RPL_ENDOFACCEPT");
   (RPL_ALIST, "RPL_ALIST");
   (RPL_ENDOFALIST, "RPL_ENDOFALIST");
   (RPL_GLIST_HASH, "RPL_GLIST_HASH");
   (RPL_CHANINFO_USERS, "RPL_CHANINFO_USERS");
   (RPL_CHANINFO_CHOPS, "RPL_CHANINFO_CHOPS");
   (RPL_CHANINFO_VOICES, "RPL_CHANINFO_VOICES");
   (RPL_CHANINFO_AWAY, "RPL_CHANINFO_AWAY");
   (RPL_HELPHDR, "RPL_HELPHDR");
   (RPL_HELPOP, "RPL_HELPOP");
   (RPL_HELPTLR, "RPL_HELPTLR");
   (RPL_HELPHLP, "RPL_HELPHLP");
   (RPL_HELPFWD, "RPL_HELPFWD");
   (RPL_HELPIGN, "RPL_HELPIGN");
   (RPL_CHANINFO_KICKS, "RPL_CHANINFO_KICKS");
   (RPL_END_CHANINFO, "RPL_END_CHANINFO");
   (RPL_NONE, "RPL_NONE");
   (RPL_AWAY, "RPL_AWAY");
   (RPL_USERHOST, "RPL_USERHOST");
   (RPL_ISON, "RPL_ISON");
   (RPL_TEXT, "RPL_TEXT");
   (RPL_UNAWAY, "RPL_UNAWAY");
   (RPL_NOWAWAY, "RPL_NOWAWAY");
   (RPL_USERIP, "RPL_USERIP");
   (RPL_WHOISADMIN, "RPL_WHOISADMIN");
   (RPL_WHOISSADMIN, "RPL_WHOISSADMIN");
   (RPL_WHOISHELPOP, "RPL_WHOISHELPOP");
   (RPL_WHOISUSER, "RPL_WHOISUSER");
   (RPL_WHOISSERVER, "RPL_WHOISSERVER");
   (RPL_WHOISOPERATOR, "RPL_WHOISOPERATOR");
   (RPL_WHOWASUSER, "RPL_WHOWASUSER");
   (RPL_ENDOFWHO, "RPL_ENDOFWHO");
   (RPL_WHOISCHANOP, "RPL_WHOISCHANOP");
   (RPL_WHOISIDLE, "RPL_WHOISIDLE");
   (RPL_ENDOFWHOIS, "RPL_ENDOFWHOIS");
   (RPL_WHOISCHANNELS, "RPL_WHOISCHANNELS");
   (RPL_WHOISVIRT, "RPL_WHOISVIRT");
   (RPL_LISTSTART, "RPL_LISTSTART");
   (RPL_LIST, "RPL_LIST");
   (RPL_LISTEND, "RPL_LISTEND");
   (RPL_CHANNELMODEIS, "RPL_CHANNELMODEIS");
   (RPL_UNIQOPIS, "RPL_UNIQOPIS");
   (RPL_NOCHANPASS, "RPL_NOCHANPASS");
   (RPL_CHPASSUNKNOWN, "RPL_CHPASSUNKNOWN");
   (RPL_CHANNEL_URL, "RPL_CHANNEL_URL");
   (RPL_CREATIONTIME, "RPL_CREATIONTIME");
   (RPL_WHOWAS_TIME, "RPL_WHOWAS_TIME");
   (RPL_NOTOPIC, "RPL_NOTOPIC");
   (RPL_TOPIC, "RPL_TOPIC");
   (RPL_TOPICWHOTIME, "RPL_TOPICWHOTIME");
   (RPL_LISTUSAGE, "RPL_LISTUSAGE");
   (RPL_WHOISBOT, "RPL_WHOISBOT")].

Definition numeric_names_3 : list (Z * string) :=
  [(RPL_CHANPASSOK, "RPL_CHANPASSOK");
   (RPL_BADCHANPASS, "RPL_BADCHANPASS");
   (RPL_INVITING, "RPL_INVITING");
   (RPL_SUMMONING, "RPL_SUMMONING");
   (RPL_INVITED, "RPL_INVITED");
   (RPL_INVITELIST, "RPL_INVITELIST");
   (RPL_ENDOFINVITELIST, "RPL_ENDOFINVITELIST");
   (RPL_EXCEPTLIST, "RPL_EXCEPTLIST");
   (RPL_ENDOFEXCEPTLIST, "RPL_ENDOFEXCEPTLIST");
   (RPL_VERSION, "RPL_VERSION");
   (RPL_WHOREPLY, "RPL_WHOREPLY");
   (RPL_NAMREPLY, "RPL_NAMREPLY");
   (RPL_WHOSPCRPL, "RPL_WHOSPCRPL");
   (RPL_NAMREPLY_, "RPL_NAMREPLY_");
   (RPL_KILLDONE, "RPL_KILLDONE");
   (RPL_CLOSING, "RPL_CLOSING");
   (RPL_CLOSEEND, "RPL_CLOSEEND");
   (RPL_LINKS, "RPL_LINKS");
   (RPL_ENDOFLINKS, "RPL_ENDOFLINKS");
   (RPL_ENDOFNAMES, "RPL_ENDOFNAMES");
   (RPL_BANLIST, "RPL_BANLIST");
   (RPL_ENDOFBANLIST, "RPL_ENDOFBANLIST");
   (RPL_ENDOFWHOWAS, "RPL_ENDOFWHOWAS");
   (RPL_INFO, "RPL_INFO");
   (RPL_MOTD, "RPL_MOTD");
   (RPL_INFOSTART, "RPL_INFOSTART");
   (RPL_ENDOFINFO, "RPL_ENDOFINFO");
   (RPL_MOTDSTART, "RPL_MOTDSTART");
   (RPL_ENDOFMOTD, "RPL_ENDOFMOTD");
   (RPL_FORCE_MOTD, "RPL_FORCE_MOTD");
   (RPL_BANEXPIRED, "RPL_BANEXPIRED");
   (RPL_KICKLINKED, "RPL_KICKLINKED");
   (RPL_BANLINKED, "RPL_BANLINKED");
   (RPL_YOUREOPER, "RPL_YOUREOPER");
   (RPL_REHASHING, "RPL_REHASHING");
   (RPL_YOURESERVICE, "RPL_YOURESERVICE");
   (RPL_MYPORTIS, "RPL_MYPORTIS");
   (RPL_NOTOPERANYMORE, "RPL_NOTOPERANYMORE");
   (RPL_QLIST, "RPL_QLIST");
   (RPL_ENDOFQLIST, "RPL_ENDOFQLIST");
   (RPL_TIME, "RPL_TIME");
   (RPL_USERSSTART, "RPL_USERSSTART");
   (RPL_USERS, "RPL_USERS");
   (RPL_ENDOFUSERS, "RPL_ENDOFUSERS");
   (RPL_NOUSERS, "RPL_NOUSERS");
   (RPL_HOSTHIDDEN, "RPL_HOSTHIDDEN");
   (ERR_UNKNOWNERROR, "ERR_UNKNOWNERROR");
   (ERR_NOSUCHNICK, "ERR_NOSUCHNICK");
   (ERR_NOSUCHSERVER, "ERR_NOSUCHSERVER");
   (ERR_NOSUCHCHANNEL, "ERR_NOSUCHCHANNEL");
   (ERR_CANNOTSENDTOCHAN, "ERR_CANNOTSENDTOCHAN");
   (ERR_TOOMANYCHANNELS, "ERR_TOOMANYCHANNELS");
   (ERR_WASNOSUCHNICK, "ERR_WASNOSUCHNICK");
   (ERR_TOOMANYTARGETS, "ERR_TOOMANYTARGETS");
   (ERR_NOSUCHSERVICE, "ERR_NOSUCHSERVICE");
   (ERR_NOORIGIN, "ERR_NOORIGIN");
   (ERR_NORECIPIENT, "ERR_NORECIPIENT");
   (ERR_NOTEXTTOSEND, "ERR_NOTEXTTOSEND");
   (ERR_NOTOPLEVEL, "ERR_NOTOPLEVEL");
   (ERR_WILDTOPLEVEL, "ERR_WILDTOPLEVEL");
   (ERR_BADMASK, "ERR_BADMASK");
   (ERR_TOOMANYMATCHES, "ERR_TOOMANYMATCHES");
   (ERR_LENGTHTRUNCATED, "ERR_LENGTHTRUNCATED");
   (ERR_UNKNOWNCOMMAND, "ERR_UNKNOWNCOMMAND");
   (ERR_NOMOTD, "ERR_NOMOTD");
   (ERR_NOADMININFO, "ERR_NOADMININFO");
   (ERR_FILEERROR, "ERR_FILEERROR");
   (ERR_NOOPERMOTD, "ERR_NOOPERMOTD");
   (ERR_TOOMANYAWAY, "ERR_TOOMANYAWAY");
   (ERR_EVENTNICKCHANGE, "ERR_EVENTNICKCHANGE")].

Definition numeric_names_4 : list (Z * string) :=
  [(ERR_NONICKNAMEGIVEN, "ERR_NONICKNAMEGIVEN");
   (ERR_ERRONEUSNICKNAME, "ERR_ERRONEUSNICKNAME");
   (ERR_NICKNAMEINUSE, "ERR_NICKNAMEINUSE");
   (ERR_SERVICENAMEINUSE, "ERR_SERVICENAMEINUSE");
   (ERR_SERVICECONFUSED, "ERR_SERVICECONFUSED");
   (ERR_NICKCOLLISION, "ERR_NICKCOLLISION");
   (ERR_UNAVAILRESOURCE, "ERR_UNAVAILRESOURCE");
   (ERR_NICKTOOFAST, "ERR_NICKTOOFAST");
   (ERR_TARGETTOOFAST, "ERR_TARGETTOOFAST");
   (ERR_SERVICESDOWN, "ERR_SERVICESDOWN");
   (ERR_USERNOTINCHANNEL, "ERR_USERNOTINCHANNEL");
   (ERR_NOTONCHANNEL, "ERR_NOTONCHANNEL");
   (ERR_USERONCHANNEL, "ERR_USERONCHANNEL");
   (ERR_NOLOGIN, "ERR_NOLOGIN");
   (ERR_SUMMONDISABLED, "ERR_SUMMONDISABLED");
   (ERR_USERSDISABLED, "ERR_USERSDISABLED");
   (ERR_NONICKCHANGE, "ERR_NONICKCHANGE");
   (ERR_NOTIMPLEMENTED, "ERR_NOTIMPLEMENTED");
   (ERR_NOTREGISTERED, "ERR_NOTREGISTERED");
   (ERR_IDCOLLISION, "ERR_IDCOLLISION");
   (ERR_NICKLOST, "ERR_NICKLOST");
   (ERR_HOSTILENAME, "ERR_HOSTILENAME");
   (ERR_ACCEPTFULL, "ERR_ACCEPTFULL");
   (ERR_ACCEPTEXIST, "ERR_ACCEPTEXIST");
   (ERR_ACCEPTNOT, "ERR_ACCEPTNOT");
   (ERR_NOHIDING, "ERR_NOHIDING");
   (ERR_NOTFORHALFOPS, "ERR_NOTFORHALFOPS");
   (ERR_NEEDMOREPARAMS, "ERR_NEEDMOREPARAMS");
   (ERR_ALREADYREGISTRED, "ERR_ALREADYREGISTRED");
   (ERR_NOPERMFORHOST, "ERR_NOPERMFORHOST");
   (ERR_PASSWDMISMATCH, "ERR_PASSWDMISMATCH");
   (ERR_YOUREBANNEDCREEP, "ERR_YOUREBANNEDCREEP");
   (ERR_YOUWILLBEBANNED, "ERR_YOUWILLBEBANNED");
   (ERR_KEYSET, "ERR_KEYSET");
   (ERR_ONLYSERVERSCANCHANGE, "ERR_ONLYSERVERSCANCHANGE");
   (ERR_LINKSET, "ERR_LINKSET");
   (ERR_LINKCHANNEL, "ERR_LINKCHANNEL");
   (ERR_CHANNELISFULL, "ERR_CHANNELISFULL");
   (ERR_UNKNOWNMODE, "ERR_UNKNOWNMODE");
   (ERR_INVITEONLYCHAN, "ERR_INVITEONLYCHAN");
   (ERR_BANNEDFROMCHAN, "ERR_BANNEDFROMCHAN");
   (ERR_BADCHANNELKEY, "ERR_BADCHANNELKEY");
   (ERR_BADCHANMASK, "ERR_BADCHANMASK");
   (ERR_NOCHANMODES, "ERR_NOCHANMODES");
   (ERR_BANLISTFULL, "ERR_BANLISTFULL");
   (ERR_BADCHANNAME, "ERR_BADCHANNAME");
   (ERR_CANNOTKNOCK, "ERR_CANNOTKNOCK");
   (ERR_NOPRIVILEGES, "ERR_NOPRIVILEGES");
   (ERR_CHANOPRIVSNEEDED, "ERR_CHANOPRIVSNEEDED");
   (ERR_CANTKILLSERVER, "ERR_CANTKILLSERVER");
   (ERR_RESTRICTED, "ERR_RESTRICTED");
   (ERR_UNIQOPPRIVSNEEDED, "ERR_UNIQOPPRIVSNEEDED");
   (ERR_NONONREG, "ERR_NONONREG");
   (ERR_CHANTOORECENT, "ERR_CHANTOORECENT");
   (ERR_TSLESSCHAN, "ERR_TSLESSCHAN");
   (ERR_VOICENEEDED, "ERR_VOICENEEDED");
   (ERR_NOOPERHOST, "ERR_NOOPERHOST");
   (ERR_NOSERVICEHOST, "ERR_NOSERVICEHOST");
   (ERR_NOFEATURE, "ERR_NOFEATURE");
   (ERR_BADFEATURE, "ERR_BADFEATURE");
   (ERR_BADLOGTYPE, "ERR_BADLOGTYPE");
   (ERR_BADLOGSYS, "ERR_BADLOGSYS");
   (ERR_BADLOGVALUE, "ERR_BADLOGVALUE");
   (ERR_ISOPERLCHAN, "ERR_ISOPERLCHAN");
   (ERR_CHANOWNPRIVNEEDED, "ERR_CHANOWNPRIVNEEDED");
   (ERR_UMODEUNKNOWNFLAG, "ERR_UMODEUNKNOWNFLAG");
   (ERR_USERSDONTMATCH, "ERR_USERSDONTMATCH");
   (ERR_GHOSTEDCLIENT, "ERR_GHOSTEDCLIENT");
   (ERR_USERNOTONSERV, "ERR_USERNOTONSERV");
   (ERR_SILELISTFULL, "ERR_SILELISTFULL")].

Definition numeric_names_5 : list (Z * string) :=
  [(ERR_NOSUCHGLINE, "ERR_NOSUCHGLINE");
   (ERR_BADPING, "ERR_BADPING");
   (ERR_INVALID_ERR, "ERR_INVALID_ERR");
   (ERR_BADEXPIRE, "ERR_BADEXPIRE");
   (ERR_DONTCHEAT, "ERR_DONTCHEAT");
   (ERR_DISABLED, "ERR_DISABLED");
   (ERR_NOINVITE, "ERR_NOINVITE");
   (ERR_ADMONLY, "ERR_ADMONLY");
   (ERR_OPERONLY, "ERR_OPERONLY");
   (ERR_LISTSYNTAX, "ERR_LISTSYNTAX");
   (ERR_WHOSYNTAX, "ERR_WHOSYNTAX");
   (ERR_WHOLIMEXCEED, "ERR_WHOLIMEXCEED");
   (ERR_OPERSPVERIFY, "ERR_OPERSPVERIFY");
   (ERR_REMOTEPFX, "ERR_REMOTEPFX");
   (ERR_PFXUNROUTABLE, "ERR_PFXUNROUTABLE");
   (ERR_BADHOSTMASK, "ERR_BADHOSTMASK");
   (ERR_HOSTUNAVAIL, "ERR_HOSTUNAVAIL");
   (ERR_USINGSLINE, "ERR_USINGSLINE");
   (ERR_STATSSLINE, "ERR_STATSSLINE");
   (RPL_LOGON, "RPL_LOGON");
   (RPL_LOGOFF, "RPL_LOGOFF");
   (RPL_WATCHOFF, "RPL_WATCHOFF");
   (RPL_WATCHSTAT, "RPL_WATCHSTAT");
   (RPL_NOWON, "RPL_NOWON");
   (RPL_NOWOFF, "RPL_NOWOFF");
   (RPL_WATCHLIST, "RPL_WATCHLIST");
   (RPL_ENDOFWATCHLIST, "RPL_ENDOFWATCHLIST");
   (RPL_WATCHCLEAR, "RPL_WATCHCLEAR");
   (RPL_ISOPER, "RPL_ISOPER");
   (RPL_ISLOCOP, "RPL_ISLOCOP");
   (RPL_ISNOTOPER, "RPL_ISNOTOPER");
   (RPL_ENDOFISOPER, "RPL_ENDOFISOPER");
   (RPL_WHOISMODES, "RPL_WHOISMODES");
   (RPL_WHOISHOST, "RPL_WHOISHOST");
   (RPL_DCCSTATUS, "RPL_DCCSTATUS");
   (RPL_DCCLIST, "RPL_DCCLIST");
   (RPL_WHOWASHOST, "RPL_WHOWASHOST");
   (RPL_RULESSTART, "RPL_RULESSTART");
   (RPL_RULES, "RPL_RULES");
   (RPL_ENDOFRULES, "RPL_ENDOFRULES");
   (RPL_OMOTDSTART, "RPL_OMOTDSTART");
   (RPL_OMOTD, "RPL_OMOTD");
   (RPL_ENDOFO, "RPL_ENDOFO");
   (RPL_SETTINGS, "RPL_SETTINGS");
   (RPL_ENDOFSETTINGS, "RPL_ENDOFSETTINGS");
   (RPL_DUMPING, "RPL_DUMPING");
   (RPL_DUMPRPL, "RPL_DUMPRPL");
   (RPL_EODUMP, "RPL_EODUMP");
   (RPL_TRACEROUTE_HOP, "RPL_TRACEROUTE_HOP");
   (RPL_TRACEROUTE_START, "RPL_TRACEROUTE_START");
   (RPL_MODECHANGEWARN, "RPL_MODECHANGEWARN");
   (RPL_CHANREDIR, "RPL_CHANREDIR");
   (RPL_SERVMODEIS, "RPL_SERVMODEIS");
   (RPL_OTHERUMODEIS, "RPL_OTHERUMODEIS");
   (RPL_ENDOF_GENERIC, "RPL_ENDOF_GENERIC");
   (RPL_WHOWASDETAILS, "RPL_WHOWASDETAILS");
   (RPL_WHOISSECURE, "RPL_WHOISSECURE");
   (RPL_UNKNOWNMODES, "RPL_UNKNOWNMODES");
   (RPL_CANNOTSETMODES, "RPL_CANNOTSETMODES");
   (RPL_LUSERSTAFF, "RPL_LUSERSTAFF");
   (RPL_TIMEONSERVERIS, "RPL_TIMEONSERVERIS");
   (RPL_NETWORKS, "RPL_NETWORKS");
   (RPL_YOURLANGUAGEIS, "RPL_YOURLANGUAGEIS");
   (RPL_LANGUAGE, "RPL_LANGUAGE");
   (RPL_WHOISSTAFF, "RPL_WHOISSTAFF");
   (RPL_WHOISLANGUAGE, "RPL_WHOISLANGUAGE");
   (RPL_MODLIST, "RPL_MODLIST");
   (RPL_ENDOFMODLIST, "RPL_ENDOFMODLIST");
   (RPL_HELPSTART, "RPL_HELPSTART");
   (RPL_HELPTXT, "RPL_HELPTXT")].

Definition numeric_names_6 : list (Z * string) :=
  [(RPL_ENDOFHELP, "RPL_ENDOFHELP");
   (RPL_ETRACEFULL, "RPL_ETRACEFULL");
   (RPL_ETRACE, "RPL_ETRACE");
   (RPL_KNOCK, "RPL_KNOCK");
   (RPL_KNOCKDLVR, "RPL_KNOCKDLVR");
   (RPL_TOOMANYKNOCK, "RPL_TOOMANYKNOCK");
   (RPL_CHANOPEN, "RPL_CHANOPEN");
   (RPL_KNOCKONCHAN, "RPL_KNOCKONCHAN");
   (RPL_KNOCKDISABLED, "RPL_KNOCKDISABLED");
   (RPL_TARGUMODEG, "RPL_TARGUMODEG");
   (RPL_TARGNOTIFY, "RPL_TARGNOTIFY");
   (RPL_UMODEGMSG, "RPL_UMODEGMSG");
   (RPL_ENDOFOMOTD, "RPL_ENDOFOMOTD");
   (RPL_NOPRIVS, "RPL_NOPRIVS");
   (RPL_TESTMARK, "RPL_TESTMARK");
   (RPL_TESTLINE, "RPL_TESTLINE");
   (RPL_NOTESTLINE, "RPL_NOTESTLINE");
   (RPL_XINFO, "RPL_XINFO");
   (RPL_XINFOSTART, "RPL_XINFOSTART");
   (RPL_XINFOEND, "RPL_XINFOEND");
   (ERR_CANNOTDOCOMMAND, "ERR_CANNOTDOCOMMAND");
   (ERR_CANNOTCHANGEUMODE, "ERR_CANNOTCHANGEUMODE");
   (ERR_CANNOTCHANGECHANMODE, "ERR_CANNOTCHANGECHANMODE");
   (ERR_CANNOTCHANGESERVERMODE, "ERR_CANNOTCHANGESERVERMODE");
   (ERR_CANNOTSENDTONICK, "ERR_CANNOTSENDTONICK");
   (ERR_UNKNOWNSERVERMODE, "ERR_UNKNOWNSERVERMODE");
   (ERR_SERVERMODELOCK, "ERR_SERVERMODELOCK");
   (ERR_BADCHARENCODING, "ERR_BADCHARENCODING");
   (ERR_TOOMANYLANGUAGES, "ERR_TOOMANYLANGUAGES");
   (ERR_NOLANGUAGE, "ERR_NOLANGUAGE");
   (ERR_TEXTTOOSHORT, "ERR_TEXTTOOSHORT");
   (ERR_NUMERIC_ERR, "ERR_NUMERIC_ERR")].

(** the whole [switch] *)
Definition numeric_names : list (Z * string) :=
  numeric_names_1 ++ numeric_names_2 ++ numeric_names_3 ++ numeric_names_4 ++ numeric_names_5 ++ numeric_names_6.

Definition CommandToString (numeric_in : Z) : string :=
  switch numeric_in numeric_names "INVALID/UNKNOWN".

(** ** Lemmas about [switch] *)
Lemma switch_elem {A B} `{EqDecision A} (x : A) (cases : list (A * B)) d :
  (x, switch x cases d) ∈ cases ∨ (x ∉ cases.*1 ∧ switch x cases d = d).
Proof.
  induction cases as [|[label r] cases IH]; cbn [switch]; [right; set_solver|].
  case_decide; subst; [left; by left|].
  destruct IH as [IH|[IH Hd]]; [left; by right|right; split; [|done]].
  cbn. set_solver.
Qed.

Lemma NoDup_snd_inj {A B} (l : list (A * B)) x1 x2 y :
  NoDup (l.*2) → (x1, y) ∈ l → (x2, y) ∈ l → x1 = x2.
Proof.
  induction l as [|[a b] l IH]; cbn; [set_solver|].
  rewrite NoDup_cons, !elem_of_cons. intros [Hb Hnd].
  assert (Hin : ∀ z, (z, b) ∈ l → False).
  { intros z Hz. apply Hb. apply list_elem_of_fmap. by exists (z, b). }
  intros [[= -> ->]|H1] [[= ->]|H2]; try done; try naive_solver.
Qed.

Lemma numeric_names_NoDup : NoDup (numeric_names.*2).
Proof. apply (bool_decide_unpack _). by vm_compute. Qed.
Lemma numeric_names_valid : "INVALID/UNKNOWN" ∉ numeric_names.*2.
Proof. apply (bool_decide_unpack _). by vm_compute. Qed.

(** The name printed for a numeric identifies it: two numerics with the same name
    are the same, or both are unknown (and printed as such). *)
Theorem numeric_names_identify n1 n2 :
  CommandToString n1 = CommandToString n2 ↔
  n1 = n2 ∨ (n1 ∉ numeric_names.*1 ∧ n2 ∉ numeric_names.*1).
Proof.
  pose proof numeric_names_NoDup as Hnd. pose proof numeric_names_valid as Hinv.
  unfold CommandToString. revert Hnd Hinv. generalize numeric_names. intros names Hnd Hinv.
  destruct (switch_elem n1 names "INVALID/UNKNOWN") as [H1|[H1 E1]],
    (switch_elem n2 names "INVALID/UNKNOWN") as [H2|[H2 E2]].
  - split; [|intros [->|[Hno _]]; [done|destruct Hno; by apply (list_elem_of_fmap_2 fst) in H1]].
    intros Heq. left. rewrite Heq in H1. by eapply NoDup_snd_inj.
  - rewrite E2. apply (list_elem_of_fmap_2 snd) in H1 as H1'. cbn in H1'.
    split; [intros E; by rewrite E in H1'|].
    intros [->|[Hno _]]; [by apply (list_elem_of_fmap_2 fst) in H1|].
    by apply (list_elem_of_fmap_2 fst) in H1.
  - rewrite E1. apply (list_elem_of_fmap_2 snd) in H2 as H2'. cbn in H2'.
    split; [intros E; by rewrite <- E in H2'|].
    intros [->|[_ Hno]]; by apply (list_elem_of_fmap_2 fst) in H2.
  - rewrite E1, E2. tauto.
Qed.
