(* ===== verification/IrcTools.v ===== *)
(** * IRC tools (protocol/irc/irc_tools.cpp, irc_common.h, irc_record.h)

    Commands and their names, user and channel modes (sets of modes are bitsets), the
    mode strings that change them, and the printed forms of a message.  [parse], on
    regular expressions, is not in this file. *)
From S2P Require Import Prelude Chars IrcCodes IrcNumerics.
Import IRC_Codes.

(** ** IRC_Record *)
Module IRC_Record.
(** [__QUIRK__ERROR] on Windows is [ERROR] *)
Inductive CommandType :=
  | PASS | NICK | USER | SERVER | OPER | QUIT | SQUIT | JOIN | PART | MODE | TOPIC |
  NAMES | LIST | INVITE | KICK | SVERSION | STATS | LINKS | TIME | CONNECT | TRACE |
  ADMIN | INFO | PRIVMSG | NOTICE | WHO | WHOIS | WHOWAS | KILL | PING | PONG | ERROR |
  AWAY | REHASH | RESTART | SUMMON | USERS | WALLOPS | USERHOST | ISON | KNOCK |
  IRC_COMMANDTYPE_MAX | IRC_COMMANDTYPE_INVALID.
End IRC_Record.
Import IRC_Record.

(** struct Prefix *)
Record Prefix := MkPrefix { origin : string; user : string; host : string }.

(** struct Command: a tagged union; a string command is a pointer, with its address *)
Inductive Command :=
  | NUMERIC (numeric : Z)
  | STRING (address : Z) (str : string)
  | INVALID.

Record IRC_Record := MkRecord {
  prefix_ : Prefix;
  command_ : Command;
  parameters_ : list string;
  parameterRanges_ : list (Z * Z)
}.

(** ** Commands *)
Definition CommandToString (command_in : CommandType) : string :=
  match command_in with
  | PASS => "PASS"
  | NICK => "NICK"
  | USER => "USER"
  | SERVER => "SERVER"
  | OPER => "OPER"
  | QUIT => "QUIT"
  | SQUIT => "SQUIT"
  | JOIN => "JOIN"
  | PART => "PART"
  | MODE => "MODE"
  | TOPIC => "TOPIC"
  | NAMES => "NAMES"
  | LIST => "LIST"
  | INVITE => "INVITE"
  | KICK => "KICK"
  | SVERSION => "VERSION"
  | STATS => "STATS"
  | LINKS => "LINKS"
  | TIME => "TIME"
  | CONNECT => "CONNECT"
  | TRACE => "TRACE"
  | ADMIN => "ADMIN"
  | INFO => "INFO"
  | PRIVMSG => "PRIVMSG"
  | NOTICE => "NOTICE"
  | WHO => "WHO"
  | WHOIS => "WHOIS"
  | WHOWAS => "WHOWAS"
  | KILL => "KILL"
  | PING => "PING"
  | PONG => "PONG"
  | ERROR => "ERROR"
  | AWAY => "AWAY"
  | REHASH => "REHASH"
  | RESTART => "RESTART"
  | SUMMON => "SUMMON"
  | USERS => "USERS"
  | WALLOPS => "WALLOPS"
  | USERHOST => "USERHOST"
  | ISON => "ISON"
  | KNOCK | IRC_COMMANDTYPE_MAX | IRC_COMMANDTYPE_INVALID => ""
  end.

(** the chain of comparisons *)
Definition command_names : list (string * CommandType) :=
  [("PASS", PASS);
   ("NICK", NICK);
   ("USER", USER);
   ("SERVER", SERVER);
   ("OPER", OPER);
   ("QUIT", QUIT);
   ("SQUIT", SQUIT);
   ("JOIN", JOIN);
   ("PART", PART);
   ("MODE", MODE);
   ("TOPIC", TOPIC);
   ("NAMES", NAMES);
   ("LIST", LIST);
   ("INVITE", INVITE);
   ("KICK", KICK);
   ("VERSION", SVERSION);
   ("STATS", STATS);
   ("LINKS", LINKS);
   ("TIME", TIME);
   ("CONNECT", CONNECT);
   ("TRACE", TRACE);
   ("ADMIN", ADMIN);
   ("INFO", INFO);
   ("PRIVMSG", PRIVMSG);
   ("NOTICE", NOTICE);
   ("WHO", WHO);
   ("WHOIS", WHOIS);
   ("WHOWAS", WHOWAS);
   ("KILL", KILL);
   ("PING", PING);
   ("PONG", PONG);
   ("ERROR", ERROR);
   ("AWAY", AWAY);
   ("REHASH", REHASH);
   ("RESTART", RESTART);
   ("SUMMON", SUMMON);
   ("USERS", USERS);
   ("WALLOPS", WALLOPS);
   ("USERHOST", USERHOST);
   ("ISON", ISON)].
Definition CommandToType (commandString_in : string) : CommandType :=
  switch commandString_in command_names IRC_COMMANDTYPE_INVALID.

(** ** Modes *)
Inductive IRC_ChannelMode :=
  | CHANNELMODE_ANONYMOUS | CHANNELMODE_BAN | CHANNELMODE_INVITEONLY
  | CHANNELMODE_PASSWORD | CHANNELMODE_USERLIMIT | CHANNELMODE_MODERATED
  | CHANNELMODE_BLOCKFOREIGNMSGS | CHANNELMODE_OPERATOR | CHANNELMODE_PRIVATE
  | CHANNELMODE_QUIET | CHANNELMODE_REOP | CHANNELMODE_SECRET
  | CHANNELMODE_RESTRICTEDTOPIC | CHANNELMODE_VOICE
  | CHANNELMODE_MAX | CHANNELMODE_INVALID.

Definition channel_modes : list IRC_ChannelMode :=
  [CHANNELMODE_ANONYMOUS; CHANNELMODE_BAN; CHANNELMODE_INVITEONLY;
   CHANNELMODE_PASSWORD; CHANNELMODE_USERLIMIT; CHANNELMODE_MODERATED;
   CHANNELMODE_BLOCKFOREIGNMSGS; CHANNELMODE_OPERATOR; CHANNELMODE_PRIVATE;
   CHANNELMODE_QUIET; CHANNELMODE_REOP; CHANNELMODE_SECRET;
   CHANNELMODE_RESTRICTEDTOPIC; CHANNELMODE_VOICE].

(** the value of an enumerator, the index of its bit *)
Definition channel_mode_value (m : IRC_ChannelMode) : Z :=
  match m with
  | CHANNELMODE_ANONYMOUS => 0 | CHANNELMODE_BAN => 1 | CHANNELMODE_INVITEONLY => 2
  | CHANNELMODE_PASSWORD => 3 | CHANNELMODE_USERLIMIT => 4 | CHANNELMODE_MODERATED => 5
  | CHANNELMODE_BLOCKFOREIGNMSGS => 6 | CHANNELMODE_OPERATOR => 7
  | CHANNELMODE_PRIVATE => 8 | CHANNELMODE_QUIET => 9 | CHANNELMODE_REOP => 10
  | CHANNELMODE_SECRET => 11 | CHANNELMODE_RESTRICTEDTOPIC => 12
  | CHANNELMODE_VOICE => 13 | CHANNELMODE_MAX => 14 | CHANNELMODE_INVALID => 15
  end.

Inductive IRC_UserMode :=
  | USERMODE_AWAY | USERMODE_HIDE_OPER | USERMODE_INVISIBLE | USERMODE_OPERATOR
  | USERMODE_LOCALOPERATOR | USERMODE_RESTRICTEDCONN | USERMODE_RECVNOTICES
  | USERMODE_RECVWALLOPS | USERMODE_HOSTHIDING | USERMODE_MAX | USERMODE_INVALID.

Definition user_modes : list IRC_UserMode :=
  [USERMODE_AWAY; USERMODE_HIDE_OPER; USERMODE_INVISIBLE; USERMODE_OPERATOR;
   USERMODE_LOCALOPERATOR; USERMODE_RESTRICTEDCONN; USERMODE_RECVNOTICES;
   USERMODE_RECVWALLOPS; USERMODE_HOSTHIDING].

Definition user_mode_value (m : IRC_UserMode) : Z :=
  match m with
  | USERMODE_AWAY => 0 | USERMODE_HIDE_OPER => 1 | USERMODE_INVISIBLE => 2
  | USERMODE_OPERATOR => 3 | USERMODE_LOCALOPERATOR => 4
  | USERMODE_RESTRICTEDCONN => 5 | USERMODE_RECVNOTICES => 6
  | USERMODE_RECVWALLOPS => 7 | USERMODE_HOSTHIDING => 8
  | USERMODE_MAX => 9 | USERMODE_INVALID => 10
  end.

Definition ChannelModeToChar (mode_in : IRC_ChannelMode) : ascii :=
  match mode_in with
  | CHANNELMODE_PASSWORD => "k"
  | CHANNELMODE_VOICE => "v"
  | CHANNELMODE_BAN => "b"
  | CHANNELMODE_USERLIMIT => "l"
  | CHANNELMODE_MODERATED => "m"
  | CHANNELMODE_BLOCKFOREIGNMSGS => "n"
  | CHANNELMODE_RESTRICTEDTOPIC => "t"
  | CHANNELMODE_INVITEONLY => "i"
  | CHANNELMODE_SECRET => "s"
  | CHANNELMODE_PRIVATE => "p"
  | CHANNELMODE_OPERATOR => "o"
  | _ => " "
  end.

Definition UserModeToChar (mode_in : IRC_UserMode) : ascii :=
  match mode_in with
  | USERMODE_AWAY => "a"
  | USERMODE_HIDE_OPER => "H"
  | USERMODE_INVISIBLE => "i"
  | USERMODE_OPERATOR => "o"
  | USERMODE_LOCALOPERATOR => "O"
  | USERMODE_RESTRICTEDCONN => "r"
  | USERMODE_RECVNOTICES => "s"
  | USERMODE_RECVWALLOPS => "w"
  | USERMODE_HOSTHIDING => "x"
  | _ => " "
  end.

Definition CharToChannelMode (mode_in : ascii) : IRC_ChannelMode :=
  switch mode_in
    [("a"%char, CHANNELMODE_ANONYMOUS); ("b"%char, CHANNELMODE_BAN);
     ("i"%char, CHANNELMODE_INVITEONLY); ("k"%char, CHANNELMODE_PASSWORD);
     ("l"%char, CHANNELMODE_USERLIMIT); ("m"%char, CHANNELMODE_MODERATED);
     ("n"%char, CHANNELMODE_BLOCKFOREIGNMSGS); ("o"%char, CHANNELMODE_OPERATOR);
     ("p"%char, CHANNELMODE_PRIVATE); ("q"%char, CHANNELMODE_QUIET);
     ("r"%char, CHANNELMODE_REOP); ("s"%char, CHANNELMODE_SECRET);
     ("t"%char, CHANNELMODE_RESTRICTEDTOPIC); ("v"%char, CHANNELMODE_VOICE)]
    CHANNELMODE_INVALID.

Definition CharToUserMode (mode_in : ascii) : IRC_UserMode :=
  switch mode_in
    [("a"%char, USERMODE_AWAY); ("H"%char, USERMODE_HIDE_OPER);
     ("i"%char, USERMODE_INVISIBLE); ("o"%char, USERMODE_OPERATOR);
     ("O"%char, USERMODE_LOCALOPERATOR); ("r"%char, USERMODE_RESTRICTEDCONN);
     ("s"%char, USERMODE_RECVNOTICES); ("w"%char, USERMODE_RECVWALLOPS);
     ("x"%char, USERMODE_HOSTHIDING)]
    USERMODE_INVALID.

Definition ChannelMode_ToString (mode_in : IRC_ChannelMode) : string :=
  match mode_in with
  | CHANNELMODE_ANONYMOUS => "CHANNELMODE_ANONYMOUS"
  | CHANNELMODE_BAN => "CHANNELMODE_BAN"
  | CHANNELMODE_INVITEONLY => "CHANNELMODE_INVITEONLY"
  | CHANNELMODE_PASSWORD => "CHANNELMODE_PASSWORD"
  | CHANNELMODE_USERLIMIT => "CHANNELMODE_USERLIMIT"
  | CHANNELMODE_MODERATED => "CHANNELMODE_MODERATED"
  | CHANNELMODE_BLOCKFOREIGNMSGS => "CHANNELMODE_BLOCKFOREIGNMSGS"
  | CHANNELMODE_OPERATOR => "CHANNELMODE_OPERATOR"
  | CHANNELMODE_PRIVATE => "CHANNELMODE_PRIVATE"
  | CHANNELMODE_QUIET => "CHANNELMODE_QUIET"
  | CHANNELMODE_REOP => "CHANNELMODE_REOP"
  | CHANNELMODE_SECRET => "CHANNELMODE_SECRET"
  | CHANNELMODE_RESTRICTEDTOPIC => "CHANNELMODE_RESTRICTEDTOPIC"
  | CHANNELMODE_VOICE => "CHANNELMODE_VOICE"
  | _ => ""
  end.

Definition UserMode_ToString (mode_in : IRC_UserMode) : string :=
  match mode_in with
  | USERMODE_AWAY => "AWAY"
  | USERMODE_HIDE_OPER => "HIDE_OPER"
  | USERMODE_INVISIBLE => "INVISIBLE"
  | USERMODE_OPERATOR => "OPERATOR"
  | USERMODE_LOCALOPERATOR => "LOCAL_OPERATOR"
  | USERMODE_RESTRICTEDCONN => "RESTRICTED_CONNECTION"
  | USERMODE_RECVNOTICES => "RECEIVE_NOTICES"
  | USERMODE_RECVWALLOPS => "RECEIVE_WALLOPS"
  | _ => ""
  end.

(** ** Sets of modes

    [std::bitset]: a [Z]; [test] and [set] on it. *)
Definition bs_test (bits : Z) (i : Z) : bool := Z.testbit bits i.
Definition bs_set (bits : Z) (i : Z) (value : bool) : Z :=
  if value then Z.setbit bits i else Z.clearbit bits i.

(** the loop over the indexes of a set *)
Fixpoint mode_chars {M} (value : M → Z) (toChar : M → ascii) (modes : list M)
    (bits : Z) : string :=
  match modes with
  | [] => ""
  | m :: modes' =>
      (if bs_test bits (value m) then String (toChar m) "" else "") +:+
      mode_chars value toChar modes' bits
  end.

Definition dump_user_modes (userModes_in : Z) : string :=
  "+" +:+ mode_chars user_mode_value UserModeToChar user_modes userModes_in.
Definition dump_channel_modes (channelModes_in : Z) : string :=
  "+" +:+ mode_chars channel_mode_value ChannelModeToChar channel_modes channelModes_in.

Definition ChannelModeToString (modes_in : Z) : string :=
  if modes_in =? 0 then ""
  else "+" +:+ mode_chars channel_mode_value ChannelModeToChar channel_modes modes_in.
Definition UserModeToString (modes_in : Z) : string :=
  if modes_in =? 0 then ""
  else "+" +:+ mode_chars user_mode_value UserModeToChar user_modes modes_in.

(** ** merge ()

    The loop over the characters after the sign, for a mode type with its recogniser
    and its MAX: the bits, and the number of bits toggled. *)
Fixpoint merge_loop {M} (toMode : ascii → M) (value : M → Z) (max : Z) (assign : bool)
    (s : string) (result modes : Z) : Z * Z :=
  match s with
  | "" => (result, modes)
  | String c s' =>
      let mode := value (toMode c) in
      if mode >=? max then merge_loop toMode value max assign s' result modes
      else
        let toggled := (bs_test modes mode && negb assign)
                       || (negb (bs_test modes mode) && assign) in
        merge_loop toMode value max assign s'
          (if toggled then result +u 1 else result) (bs_set modes mode assign)
  end.

(** On the empty string the iterator is moved past the end. *)
Definition merge_with {M} (toMode : ascii → M) (value : M → Z) (max : Z)
    (modes_in : string) (modes_inout : Z) : outcome (Z * Z) :=
  match modes_in with
  | "" => Undef
  | String sign s => Ok (merge_loop toMode value max (Ascii.eqb sign "+") s 0 modes_inout)
  end.

Definition merge_user := merge_with CharToUserMode user_mode_value
  (user_mode_value USERMODE_MAX).
Definition merge_channel := merge_with CharToChannelMode channel_mode_value
  (channel_mode_value CHANNELMODE_MAX).

Definition isValidChannelName (string_in : string) : bool :=
  match string_in with
  | "" => false
  | String c _ => Ascii.eqb c "#" || Ascii.eqb c "&"
  end.

Definition CharToCommand (char_in : ascii) : CommandType :=
  switch char_in
    [("a"%char, AWAY); ("c"%char, KNOCK); ("e"%char, NAMES); ("h"%char, USERHOST);
     ("i"%char, INVITE); ("j"%char, JOIN); ("k"%char, KICK); ("l"%char, LIST);
     ("m"%char, PRIVMSG); ("n"%char, NICK); ("o"%char, MODE); ("p"%char, PART);
     ("q"%char, QUIT); ("s"%char, PASS); ("t"%char, TOPIC); ("u"%char, USER);
     ("w"%char, WHO)]
    IRC_COMMANDTYPE_INVALID.

(** ** Messages *)

(** the parameters, numbered from [i] *)
Fixpoint dump_parameters (i : Z) (ps : list string) : string :=
  match ps with
  | [] => ""
  | p :: ps' =>
      "#" +:+ pretty i +:+ " : " +:+ quote +:+ p +:+ quote +:+ eol +:+
      dump_parameters (i + 1) ps'
  end.

Section Dump.
(** how a stream prints a pointer is the implementation's choice *)
Variable print_pointer : Z → string.

Definition dump_prefix (p : Prefix) : string :=
  if decide (origin p = "") then ""
  else
    "PREFIX [origin: " +:+ quote +:+ origin p +:+ quote +:+ "]" +:+
    (if decide (user p = "") then ""
     else ", [user: " +:+ quote +:+ user p +:+ quote +:+ "]") +:+
    (if decide (host p = "") then ""
     else ", [host: " +:+ quote +:+ host p +:+ quote +:+ "]") +:+
    " \PREFIX" +:+ eol.

Definition dump_command (c : Command) : string :=
  match c with
  | STRING address _ => print_pointer address
  | NUMERIC numeric =>
      quote +:+ IrcNumerics.CommandToString numeric +:+ quote +:+ " [" +:+
      pretty numeric +:+ "]"
  | INVALID => quote +:+ "INVALID" +:+ quote
  end.

Definition dump (message_in : IRC_Record) : string :=
  dump_prefix (prefix_ message_in) +:+
  "COMMAND [" +:+ dump_command (command_ message_in) +:+ "] \COMMAND" +:+ eol +:+
  (if decide (parameters_ message_in = []) then ""
   else
     "PARAMS" +:+ eol +:+ dump_parameters 1 (parameters_ message_in) +:+
     "\PARAMS" +:+ eol).
End Dump.

(** the loop of [stringify]: each parameter and a blank *)
Fixpoint append_parameters (ps : list string) : string :=
  match ps with
  | [] => ""
  | p :: ps' => p +:+ " " +:+ append_parameters ps'
  end.

(** [result.erase (--result.end ())] *)
Fixpoint erase_last (s : string) : string :=
  match s with
  | "" => ""
  | String c "" => ""
  | String c s' => String c (erase_last s')
  end.

(** Moving the iterator of the list to a negative index is undefined. *)
Definition stringify (parameters_in : list string) (index_in : Z) : outcome string :=
  if bool_decide (parameters_in = []) || (zlen parameters_in - 1 <? index_in) then Ok ""
  else if index_in =? -1 then deref (last parameters_in)
  else if index_in <? 0 then Undef
  else
    let result := append_parameters (drop (Z.to_nat index_in) parameters_in) in
    Ok (if index_in <? zlen parameters_in - 1 then erase_last result else result).

(** the user and host of a message's sender *)
Definition sender (p : Prefix) : string :=
  quote +:+ origin p +:+ quote +:+ " (" +:+ user p +:+ "@" +:+ host p.

(** the inner [switch] on a string command *)
Definition string_command_to_string (m : IRC_Record) (command : CommandType) :
    outcome string :=
  match command with
  | NICK =>
      back ← deref (last (parameters_ m));
      Ok (origin (prefix_ m) +:+ " --> " +:+ back)
  | QUIT =>
      back ← deref (last (parameters_ m));
      Ok (origin (prefix_ m) +:+ " has QUIT IRC (reason: " +:+ quote +:+ back +:+
          quote +:+ ")")
  | JOIN =>
      back ← deref (last (parameters_ m));
      Ok (sender (prefix_ m) +:+ ") has joined channel " +:+ quote +:+ back +:+ quote)
  | PART =>
      front ← deref (head (parameters_ m));
      Ok (sender (prefix_ m) +:+ ") has left channel " +:+ quote +:+ front +:+
          match parameters_ m with
          | _ :: second :: _ => quote +:+ " (reason: " +:+ quote +:+ second +:+ quote +:+ ")"
          | _ => quote
          end)
  | NOTICE => stringify (parameters_ m) 1
  | MODE | TOPIC | INVITE | KICK | ERROR | AWAY | USERS | USERHOST =>
      stringify (parameters_ m) 0
  | _ => Ok ""
  end.

(** the labels of the inner [switch] on a numeric command, by the case they share *)
Definition last_parameter_numerics : list Z :=
  [RPL_WELCOME; RPL_YOURHOST; RPL_CREATED; RPL_LUSERCLIENT; RPL_LUSERME; RPL_TRYAGAIN;
   RPL_LOCALUSERS; RPL_GLOBALUSERS; RPL_UNAWAY; RPL_NOWAWAY; RPL_ENDOFBANLIST; RPL_MOTD;
   RPL_MOTDSTART; RPL_ENDOFMOTD; RPL_HOSTHIDDEN; ERR_NOMOTD; ERR_ALREADYREGISTRED;
   ERR_YOUREBANNEDCREEP; ERR_BANNEDFROMCHAN; ERR_CHANOPRIVSNEEDED].
Definition second_parameter_numerics : list Z :=
  [RPL_MYINFO; RPL_PROTOCTL; RPL_SNOMASK; RPL_YOURID; RPL_STATSDLINE; RPL_LUSEROP;
   RPL_LUSERUNKNOWN; RPL_LUSERCHANNELS; RPL_USERHOST; RPL_LISTSTART; RPL_LIST;
   RPL_LISTEND; RPL_INVITING; ERR_NOSUCHNICK; ERR_ERRONEUSNICKNAME; ERR_NICKNAMEINUSE;
   ERR_NOTREGISTERED; ERR_NEEDMOREPARAMS; ERR_BADCHANNAME; ERR_UMODEUNKNOWNFLAG].

Definition numeric_command_to_string (m : IRC_Record) (numeric : Z) : outcome string :=
  if bool_decide (numeric ∈ last_parameter_numerics) then stringify (parameters_ m) (-1)
  else if numeric =? RPL_BANLIST then stringify (parameters_ m) 0
  else if bool_decide (numeric ∈ second_parameter_numerics) then
    stringify (parameters_ m) 1
  else if numeric =? RPL_ENDOFWHO then stringify (parameters_ m) 2
  else if numeric =? RPL_WHOREPLY then stringify (parameters_ m) 5
  else Ok "".

Definition RecordToString (message_in : IRC_Record) : outcome string :=
  match command_ message_in with
  | STRING _ str => string_command_to_string message_in (CommandToType str)
  | NUMERIC numeric => numeric_command_to_string message_in numeric
  | INVALID => Ok ""
  end.

(** ** Command names *)

(** The IRC commands and their names correspond one to one: a name is recognised as
    a command exactly when it is the name of that command, KNOCK excepted, which has
    neither. *)
Theorem CommandToType_iff s c :
  (CommandToType s = c ∧ c ≠ IRC_COMMANDTYPE_INVALID) ↔
  (CommandToString c = s ∧ s ≠ "").
Proof.
  split.
  - intros [<- Hc]. destruct (switch_elem s command_names IRC_COMMANDTYPE_INVALID)
      as [Hin|[_ Hinv]]; [|done].
    fold (CommandToType s) in Hin. revert Hin.
    generalize (CommandToType s). intros c Hin.
    assert (Hall : Forall (λ p, CommandToString p.2 = p.1 ∧ p.1 ≠ "") command_names)
      by (repeat constructor; done).
    rewrite Forall_forall in Hall. by apply (Hall (s, c)).
  - intros [<- Hs]. by destruct c.
Qed.

(** ** The last parameters of a message *)
Lemma append_ne_nil s c t : s +:+ String c t ≠ "".
Proof. by destruct s. Qed.

Lemma erase_last_app s c t : erase_last (s +:+ String c t) = s +:+ erase_last (String c t).
Proof.
  induction s as [|d s IH]; [done|]. autorewrite with str.
  rewrite <- IH. cbn [erase_last].
  destruct (s +:+ String c t) eqn:E; [by apply append_ne_nil in E|done].
Qed.

Lemma erase_last_append_parameters p ps :
  erase_last (append_parameters (p :: ps)) = String.concat " " (p :: ps).
Proof.
  revert p; induction ps as [|q ps IH]; intros p; cbn [append_parameters].
  - autorewrite with str. rewrite erase_last_app. cbn. apply string_app_nil_r.
  - change (String.concat " " (p :: q :: ps)) with
      (p +:+ " " +:+ String.concat " " (q :: ps)).
    rewrite <- IH. autorewrite with str. rewrite erase_last_app. f_equal.
    cbn [erase_last append_parameters].
    autorewrite with str.
    by destruct (q +:+ String " " (append_parameters ps)) eqn:E; [destruct q|].
Qed.

(** [stringify] joins the parameters from an index on with single blanks - but
    when only the last parameter is left, it keeps the blank it appended. *)
Theorem stringify_joins ps i (Hi : 0 <= i < zlen ps) :
  stringify ps i =
    Ok (String.concat " " (drop (Z.to_nat i) ps) +:+
        (if i =? zlen ps - 1 then " " else "")).
Proof.
  assert (Hne : ps ≠ []) by (intros E; rewrite E in Hi; unfold zlen in Hi; cbn in Hi; lia).
  unfold stringify. rewrite bool_decide_false by done.
  rewrite (proj2 (Z.ltb_ge _ _)) by lia. cbn [orb].
  rewrite (proj2 (Z.eqb_neq _ _)) by lia. rewrite (proj2 (Z.ltb_ge i 0)) by lia.
  assert (Hlen : zlen (drop (Z.to_nat i) ps) = zlen ps - i)
    by (rewrite zlen_drop by lia; lia).
  destruct (drop (Z.to_nat i) ps) as [|p [|q l]] eqn:E.
  - rewrite zlen_nil in Hlen. lia.
  - rewrite zlen_cons, zlen_nil in Hlen.
    rewrite (proj2 (Z.ltb_ge _ _)), (proj2 (Z.eqb_eq _ _)) by lia.
    cbn [append_parameters]. by rewrite string_app_nil_r.
  - rewrite !zlen_cons in Hlen. pose proof (zlen_nonneg l).
    rewrite (proj2 (Z.ltb_lt _ _)), (proj2 (Z.eqb_neq _ _)) by lia.
    by rewrite erase_last_append_parameters, string_app_nil_r.
Qed.

Lemma stringify_joins_witness :
  0 <= 0 < zlen ["alpha"; "beta"] ∧
  stringify ["alpha"; "beta"] 0 = Ok "alpha beta" ∧
  stringify ["alpha"] 0 = Ok "alpha ".
Proof.
  split; [by vm_compute|]. split.
  - by apply (stringify_joins ["alpha"; "beta"] 0).
  - by apply (stringify_joins ["alpha"] 0).
Defined.

(** The dump of a message does not show its command when that is a string, only the
    address of the string. *)
Lemma dump_hides_command print_pointer p address str1 str2 ps rs :
  dump print_pointer (MkRecord p (STRING address str1) ps rs) =
  dump print_pointer (MkRecord p (STRING address str2) ps rs).
Proof. reflexivity. Qed.

(** ** Merging mode strings *)

(** Some character of the string names the mode of bit [i]. *)
Fixpoint mentions {M} (toMode : ascii → M) (value : M → Z) (s : string) (i : Z) : bool :=
  match s with
  | "" => false
  | String c s' => (value (toMode c) =? i) || mentions toMode value s' i
  end.

(** The number of bits in which two sets differ. *)
Definition differs (m m' i : Z) : Z := Z.b2z (xorb (bs_test m i) (bs_test m' i)).
Definition changed (max m m' : Z) : Z := zsum (differs m m' <$> seqZ 0 max).

(** What merging promises: the modes mentioned are set or cleared according to the
    sign, the others are left as they are, and the number of modes that changed is
    returned. *)
Definition merge_spec {M} (toMode : ascii → M) (value : M → Z) (max : Z)
    (merge : string → Z → outcome (Z * Z)) : Prop :=
  ∀ sign s m, ∃ n m', merge (String sign s) m = Ok (n, m') ∧
    (∀ i, 0 <= i < max →
      bs_test m' i = if mentions toMode value s i then Ascii.eqb sign "+" else bs_test m i) ∧
    n = changed max m m'.

Lemma bs_test_set m j i b :
  0 <= j → bs_test (bs_set m j b) i = if j =? i then b else bs_test m i.
Proof.
  intros Hj. unfold bs_test, bs_set. destruct (Z.eqb_spec j i) as [->|Hne]; destruct b.
  - by apply Z.setbit_eq.
  - apply Z.clearbit_eq.
  - by apply Z.setbit_neq.
  - by apply Z.clearbit_neq.
Qed.

Section Merge.
Context {M : Type} (toMode : ascii → M) (value : M → Z) (max : Z).
Context (value_nonneg : ∀ m, 0 <= value m) (max_small : 0 <= max < 2 ^ 32).

Lemma changed_refl m : changed max m m = 0.
Proof.
  unfold changed. rewrite (zsum_fmap_ext _ (λ _, 0)).
  - pose proof (zsum_bound (λ _ : Z, 0) (seqZ 0 max) 0 (λ _, ltac:(lia))). lia.
  - intros i _. unfold differs. by rewrite xorb_nilpotent.
Qed.

(** Changing one bit, and then others to the same value. *)
Lemma changed_set m m' j b :
  0 <= j < max → bs_test m' j = b →
  changed max m m' = changed max (bs_set m j b) m' + Z.b2z (xorb (bs_test m j) b).
Proof.
  intros Hj Hm'. unfold changed.
  rewrite (zsum_fmap_update (differs m m') (differs (bs_set m j b) m') j).
  - unfold differs at 2 3. rewrite bs_test_set, Z.eqb_refl, Hm', xorb_nilpotent by lia.
    cbn. lia.
  - apply NoDup_seqZ.
  - apply elem_of_seqZ. lia.
  - intros i Hi. unfold differs. rewrite bs_test_set by lia.
    by rewrite (proj2 (Z.eqb_neq _ _)).
Qed.

Lemma merge_loop_bits assign s r m i :
  0 <= i < max →
  bs_test (merge_loop toMode value max assign s r m).2 i =
    if mentions toMode value s i then assign else bs_test m i.
Proof.
  intros Hi. revert r m; induction s as [|c s IH]; intros r m; [done|].
  cbn [merge_loop mentions].
  destruct (value (toMode c) >=? max) eqn:Hge.
  - apply Z.geb_le in Hge. rewrite (proj2 (Z.eqb_neq _ _)) by lia. apply IH.
  - rewrite IH, bs_test_set by apply value_nonneg.
    destruct (mentions toMode value s i); [by rewrite orb_true_r|].
    by rewrite orb_false_r.
Qed.

Lemma merge_loop_count assign s r m :
  (merge_loop toMode value max assign s (u32 r) m).1 =
    u32 (r + changed max m (merge_loop toMode value max assign s (u32 r) m).2).
Proof.
  revert r m; induction s as [|c s IH]; intros r m; cbn [merge_loop].
  - cbn [fst snd]. by rewrite changed_refl, Z.add_0_r.
  - destruct (value (toMode c) >=? max) eqn:Hge; [apply IH|].
    assert (Hj : 0 <= value (toMode c) < max).
    { split; [apply value_nonneg|]. rewrite Z.geb_leb in Hge. bool_lia. }
    set (j := value (toMode c)) in *.
    replace (if _ || _ then u32 r +u 1 else u32 r)
      with (u32 (r + Z.b2z (xorb (bs_test m j) assign)))
      by (destruct (bs_test m j), assign; cbn; by rewrite ?u32_add_mod_l, ?Z.add_0_r).
    rewrite IH. f_equal.
    rewrite (changed_set m _ j assign); [lia|done|].
    rewrite merge_loop_bits by done. rewrite bs_test_set, Z.eqb_refl by lia.
    by destruct_if.
Qed.

Lemma merge_with_correct : merge_spec toMode value max (merge_with toMode value max).
Proof.
  intros sign s m. cbn [merge_with].
  pose proof (merge_loop_count (Ascii.eqb sign "+") s 0 m) as Hn.
  pose proof (λ i, merge_loop_bits (Ascii.eqb sign "+") s 0 m i) as Hbits.
  change (u32 0) with 0 in Hn.
  destruct (merge_loop toMode value max (Ascii.eqb sign "+") s 0 m) as [n m'].
  exists n, m'. split; [done|]. split; [done|]. cbn [fst snd] in Hn. rewrite Hn.
  apply u32_small. unfold changed.
  pose proof (zsum_bound (differs m m') (seqZ 0 max) 1) as Hb.
  unfold zlen in Hb. rewrite length_seqZ in Hb.
  assert (∀ x, 0 <= differs m m' x <= 1) as Hd by (intros x; unfold differs; by destruct xorb).
  specialize (Hb Hd). lia.
Qed.
End Merge.

(** A mode string applied to the modes of a channel or of a user sets (sign plus) or
    clears (any other sign) exactly the modes it names and no others, unknown
    characters are ignored, and the result is the number of modes that changed. *)
Theorem merge_correct :
  merge_spec CharToChannelMode channel_mode_value 14 merge_channel ∧
  merge_spec CharToUserMode user_mode_value 9 merge_user.
Proof.
  split; (apply merge_with_correct; [intros []; cbn; lia|by vm_compute]).
Qed.

(** ** Reading printed modes back *)
Section ReadBack.
Context {M : Type} (toMode : ascii → M) (value : M → Z) (toChar : M → ascii) (max : Z).
Context (value_nonneg : ∀ m, 0 <= value m) (max_small : 0 <= max < 2 ^ 32).

Lemma merge_loop_high assign s r m i :
  max <= i → bs_test (merge_loop toMode value max assign s r m).2 i = bs_test m i.
Proof.
  intros Hi. revert r m; induction s as [|c s IH]; intros r m; [done|].
  cbn [merge_loop]. destruct (value (toMode c) >=? max) eqn:Hge; [apply IH|].
  rewrite IH, bs_test_set by apply value_nonneg.
  rewrite Z.geb_leb in Hge. bool_lia. by rewrite (proj2 (Z.eqb_neq _ _)) by lia.
Qed.

Lemma mentions_mode_chars modes bits i :
  mentions toMode value (mode_chars value toChar modes bits) i =
    existsb (λ m, (value (toMode (toChar m)) =? i) && bs_test bits (value m)) modes.
Proof.
  induction modes as [|m modes IH]; [done|]. cbn [mode_chars existsb].
  destruct (bs_test bits (value m)); autorewrite with str; cbn [mentions];
    by rewrite IH, ?andb_true_r, ?andb_false_r.
Qed.

(** Merging the printed form of [bits] into the empty set: each bit of the result. *)
Lemma read_back_bits modes bits i :
  let r := merge_loop toMode value max true (mode_chars value toChar modes bits) 0 0 in
  0 <= i →
  Z.testbit r.2 i = (i <? max) &&
    existsb (λ m, (value (toMode (toChar m)) =? i) && bs_test bits (value m)) modes.
Proof.
  intros r Hi. subst r. destruct (i <? max) eqn:Hmax; bool_lia.
  - fold (bs_test (merge_loop toMode value max true
      (mode_chars value toChar modes bits) 0 0).2 i).
    rewrite merge_loop_bits by done. rewrite mentions_mode_chars.
    unfold bs_test at 2. rewrite Z.bits_0. by destruct existsb.
  - fold (bs_test (merge_loop toMode value max true
      (mode_chars value toChar modes bits) 0 0).2 i).
    rewrite merge_loop_high by done. apply Z.bits_0.
Qed.
End ReadBack.

Lemma testbit_high bits n i : 0 <= bits < 2 ^ n → 0 <= n <= i → Z.testbit bits i = false.
Proof.
  intros Hb Hi. rewrite <- (Z.mod_small bits (2 ^ n)) by done.
  by apply Z.mod_pow2_bits_high.
Qed.

(** Decide an equation between sets bit by bit. *)
Ltac bit_cases i b :=
  repeat match goal with
  | Hi : 0 <= i < ?n |- _ => 
      let m := eval vm_compute in (n - 1) in
      assert (i = m ∨ 0 <= i < m) as [->|?] by lia; clear Hi;
      [vm_compute; match goal with |- context [b ?k] => by destruct (b k) end
        || reflexivity|]
  end.

Definition unprintable_channel_modes : Z :=
  Z.lor (Z.shiftl 1 (channel_mode_value CHANNELMODE_ANONYMOUS))
    (Z.lor (Z.shiftl 1 (channel_mode_value CHANNELMODE_QUIET))
       (Z.shiftl 1 (channel_mode_value CHANNELMODE_REOP))).

Lemma merge_dump_user bits :
  0 <= bits < 2 ^ 9 → ∃ n, merge_user (dump_user_modes bits) 0 = Ok (n, bits).
Proof.
  intros Hbits. unfold merge_user, dump_user_modes. autorewrite with str.
  cbn [merge_with].
  pose proof (λ i, read_back_bits CharToUserMode user_mode_value UserModeToChar 9
    ltac:(intros []; cbn; lia) user_modes bits i) as Hb.
  change (user_mode_value USERMODE_MAX) with 9. change (Ascii.eqb "+" "+") with true.
  destruct (merge_loop _ _ _ _ _ _ _) as [n m']. exists n. do 2 f_equal.
  apply Z.bits_inj'. intros i Hi. specialize (Hb i Hi). cbn [snd] in Hb. rewrite Hb.
  destruct (i <? 9) eqn:Hi9; bool_lia; [|by rewrite (testbit_high bits 9) by lia].
  assert (0 <= i < 9) as Hi' by lia. clear Hb Hi Hi9 Hbits.
  unfold bs_test. generalize (Z.testbit bits). intros b. bit_cases i b. lia.
Qed.

Lemma merge_dump_channel bits :
  0 <= bits < 2 ^ 14 →
  ∃ n, merge_channel (dump_channel_modes bits) 0 =
    Ok (n, Z.ldiff bits unprintable_channel_modes).
Proof.
  intros Hbits. unfold merge_channel, dump_channel_modes. autorewrite with str.
  cbn [merge_with].
  pose proof (λ i, read_back_bits CharToChannelMode channel_mode_value ChannelModeToChar
    14 ltac:(intros []; cbn; lia) channel_modes bits i) as Hb.
  change (channel_mode_value CHANNELMODE_MAX) with 14.
  change (Ascii.eqb "+" "+") with true.
  destruct (merge_loop _ _ _ _ _ _ _) as [n m']. exists n. do 2 f_equal.
  apply Z.bits_inj'. intros i Hi. specialize (Hb i Hi). cbn [snd] in Hb. rewrite Hb.
  rewrite Z.ldiff_spec.
  destruct (i <? 14) eqn:Hi14; bool_lia; [|by rewrite (testbit_high bits 14) by lia].
  assert (0 <= i < 14) as Hi' by lia. clear Hb Hi Hi14 Hbits.
  unfold bs_test. generalize (Z.testbit bits). intros b. bit_cases i b. lia.
Qed.

(** Printed user modes can be read back: merging the printed form of any set of user
    modes into the empty set gives the set.  Channel modes cannot: the modes
    ANONYMOUS, QUIET and REOP, which [CharToChannelMode] knows, are printed as
    blanks and get lost. *)
Theorem modes_roundtrip bits (Hbits : 0 <= bits) :
  (bits < 2 ^ 9 → ∃ n, merge_user (dump_user_modes bits) 0 = Ok (n, bits)) ∧
  (bits < 2 ^ 14 → ∃ n, merge_channel (dump_channel_modes bits) 0 =
    Ok (n, Z.ldiff bits unprintable_channel_modes)).
Proof. split; intros ?; [by apply merge_dump_user|by apply merge_dump_channel]. Qed.

Lemma modes_roundtrip_witness :
  (0 <= 5 ∧ 5 < 2 ^ 9) ∧ ∃ n, merge_user (dump_user_modes 5) 0 = Ok (n, 5).
Proof. split; [lia|]. by apply (modes_roundtrip 5). Defined.
