(* ===== verification/IrcWire.v ===== *)
(** * The messages of IRC (protocol/irc: irc_module_streamer.inl, scripts/scanner.l,
      scripts/parser.y, irc_parser_driver.cpp)

    The streamer that writes a record as a message of RFC 1459, and the rules of the scanner
    and the grammar that read one.  The scanner works on one buffer, which holds a message:
    the bisector (generated) cuts the messages off the data that are received. *)
From S2P Require Import Prelude MessageBlock Chars Decimal Regex IrcCodes IrcNumerics IrcTools.

(** ** The streamer *)
Definition IRC_MAXIMUM_FRAME_SIZE : Z := 512.
Definition IRC_FRAME_BOUNDARY_SIZE : Z := 2.

(** A step of the serialization: the room that is needed for it, and the bytes; [None]
    gives up. *)
Definition step : Type := outcome (option (Z * list Z)).
Definition text (s : string) : step := Ok (Some (zlen (string_bytes s), string_bytes s)).
Definition put (c : ascii) : step := Ok (Some (1, [code c])).

Fixpoint has_space (s : string) : bool :=
  match s with "" => false | String c s' => Ascii.eqb c " " || has_space s' end.

Definition prefix_steps (p : Prefix) : list step :=
  if decide (origin p = "") then []
  else
    [put ":"; text (origin p)] ++
    (if decide (user p = "") then [] else [put "!"; text (user p)]) ++
    (if decide (host p = "") then [] else [put "@"; text (host p)]) ++ [put " "].

(** [%.3u]; [snprintf] writes a terminator, too *)
Definition command_steps (c : Command) : list step :=
  match c with
  | NUMERIC numeric =>
      let s := setw 3 "0" (pretty numeric) in
      [if (String.length s =? 3)%nat then Ok (Some (4, string_bytes s)) else Ok None]
  | STRING _ str => [text str]
  | INVALID => [Ok None]
  end.

Definition advance (ranges : list (Z * Z)) (forward_i : Z) : list (Z * Z) :=
  match ranges with
  | (first, second) :: ranges' => if second <? forward_i then ranges' else ranges
  | [] => []
  end.
Definition separator (ranges : list (Z * Z)) (forward_i : Z) : ascii :=
  match ranges with
  | (first, second) :: _ =>
      if (first <=? forward_i) && (forward_i <=? second) then "," else " "
  | [] => " "
  end.
Fixpoint parameter_steps (ranges : list (Z * Z)) (forward_i : Z) (ps : list string) :
    list step :=
  match ps with
  | [] => []
  | p :: ps' =>
      let ranges := advance ranges forward_i in
      let c := separator ranges forward_i in
      match ps' with
      | [] =>
          if has_space p then [ace_assert (Ascii.eqb c " ");; put ":"; text p] else [text p]
      | _ => [text p; put c] ++ parameter_steps ranges (forward_i + 1) ps'
      end
  end.

Definition record_steps (r : IRC_Record) : list step :=
  prefix_steps (prefix_ r) ++ command_steps (command_ r) ++
  (if decide (parameters_ r = []) then [] else [put " "]) ++
  parameter_steps (parameterRanges_ r) 0 (parameters_ r) ++
  [Ok (Some (IRC_FRAME_BOUNDARY_SIZE, [13; 10]))].

Section Streamer.
Context {B : Type} `{WritableBlock B}.

(** the message is released when a step does not work *)
Fixpoint stream (steps : list step) (b : B) : outcome (option B) :=
  match steps with
  | [] => Ok (Some b)
  | s :: steps' =>
      c ← s;
      match c with
      | None => Ok None
      | Some (n, d) =>
          if mb_space b <? n then Ok None
          else match mb_copy d b with None => Ok None | Some b' => stream steps' b' end
      end
  end.
Definition handleDataMessage (r : IRC_Record) (message_inout : B) : outcome (option B) :=
  ace_assert (block_length message_inout =? 0);;
  ace_assert (IRC_MAXIMUM_FRAME_SIZE <=? mb_space message_inout);;
  stream (record_steps r) message_inout.
End Streamer.

(** ** The scanner *)
Inductive start_condition :=
  | SC_INITIAL | SC_prefix | SC_user | SC_host | SC_command | SC_params | SC_trailing
  | SC_end_of_frame.
Inductive token :=
  | T_char (c : ascii) | T_SPACE | T_ORIGIN (s : string) | T_USER (s : string)
  | T_HOST (s : string) | T_CMD_STRING (s : string) | T_CMD_NUMERIC (n : Z)
  | T_PARAM (s : string) | T_END.

Fixpoint span (f : ascii → bool) (s : string) : string * string :=
  match s with
  | "" => ("", "")
  | String c s' => if f c then let '(t, u) := span f s' in (String c t, u) else ("", s)
  end.

Definition is_char (l : list ascii) (c : ascii) : bool := existsb (Ascii.eqb c) l.
Definition CR : ascii := "013".
Definition LF : ascii := "010".
Definition NUL : ascii := "000".
Definition is_space (c : ascii) : bool := Ascii.eqb c " ".
Definition HOST (c : ascii) : bool := isalpha c || isdigit c || is_char ["."; ":"; "-"]%char c.
Definition NICK (c : ascii) : bool :=
  isalpha c || isdigit c || is_char ["-"; "["; "]"; "\"; "`"; "^"; "{"; "}"; "_"]%char c.
Definition USER (c : ascii) : bool := negb (is_char [" "; "009"; NUL; CR; LF; "@"]%char c).
Definition PARAM (c : ascii) : bool := negb (is_char [" "; NUL; CR; LF]%char c).
Definition TRAILING_PARAM (c : ascii) : bool := negb (is_char [NUL; CR; LF] c).

(** the longer of the matches of [{NICK}|{HOST}] *)
Definition match_origin (s : string) : option (string * string) :=
  let h := span HOST s in
  let n := match s with
           | String c s' => if isalpha c then let '(t, u) := span NICK s' in (String c t, u)
                            else ("", s)
           | "" => ("", "") end in
  let m := if (String.length h.1 <? String.length n.1)%nat then n else h in
  if decide (m.1 = "") then None else Some m.

(** A rule matches at the front of the text: the token, if there is one, the next start
    condition, and the rest.  A character that no other rule matches terminates the
    scanner, which yields [END]; when it is called again, it goes on behind it. *)
Definition rule : Type := option token * start_condition * string.
Definition yyterminate (c : start_condition) (s' : string) : rule := (Some T_END, c, s').
Definition run_rule (f : ascii → bool) (t : string → token) (next c : start_condition)
    (x : ascii) (s' : string) : rule :=
  let '(u, v) := span f (String x s') in
  if decide (u = "") then yyterminate c s' else (Some (t u), next, v).
Definition space_rule (next : start_condition) (s' : string) : rule :=
  (Some T_SPACE, next, (span is_space s').2).
Definition command_rule (c : start_condition) (x : ascii) (s' : string) : rule :=
  if is_space x then space_rule SC_params s'
  else if isdigit x then
    match s' with
    | String y (String z u) =>
        if isdigit y && isdigit z
        then (Some (T_CMD_NUMERIC (digits_value 0 (String x (String y (String z ""))))), c, u)
        else yyterminate c s'
    | _ => yyterminate c s'
    end
  else run_rule isalpha T_CMD_STRING c c x s'.

Definition yylex (c : start_condition) (x : ascii) (s' : string) : rule :=
  match c with
  | SC_INITIAL =>
      if Ascii.eqb x ":" then (Some (T_char x), SC_prefix, s')
      else if Ascii.eqb x CR then (None, SC_end_of_frame, s')
      else command_rule c x s'
  | SC_prefix =>
      if is_space x then space_rule SC_command s'
      else if Ascii.eqb x "!" then (Some (T_char x), SC_user, s')
      else if Ascii.eqb x "@" then (Some (T_char x), SC_host, s')
      else match match_origin (String x s') with
           | Some (o, u) => (Some (T_ORIGIN o), c, u)
           | None => yyterminate c s'
           end
  | SC_user =>
      if is_space x then space_rule SC_command s'
      else if Ascii.eqb x "@" then (Some (T_char x), SC_host, s')
      else run_rule USER T_USER SC_prefix c x s'
  | SC_host =>
      if is_space x then space_rule SC_command s'
      else run_rule HOST T_HOST SC_prefix c x s'
  | SC_command => command_rule c x s'
  | SC_params =>
      if is_space x then space_rule c s'
      else if Ascii.eqb x ":" then (Some (T_char x), SC_trailing, s')
      else if Ascii.eqb x CR then (None, SC_end_of_frame, s')
      else run_rule PARAM T_PARAM c c x s'
  | SC_trailing =>
      if Ascii.eqb x CR then (None, SC_end_of_frame, s')
      else run_rule TRAILING_PARAM T_PARAM c c x s'
  | SC_end_of_frame =>
      if Ascii.eqb x LF then (None, SC_INITIAL, s') else yyterminate c s'
  end.

(** The tokens of a buffer; behind them, the scanner yields [END] forever.  Every rule takes
    a character, so that the length of the text is fuel enough. *)
Fixpoint scan_loop (fuel : nat) (c : start_condition) (s : string) : list token :=
  match fuel, s with
  | S fuel', String x s' =>
      let '(t, c', u) := yylex c x s' in
      match t with Some t => [t] | None => [] end ++ scan_loop fuel' c' u
  | _, _ => []
  end.
Definition scan (c : start_condition) (s : string) : list token :=
  scan_loop (String.length s) c s.

(** ** The grammar *)

(** the token [END], which the grammar names, although it is that of the end *)
Definition end_of_message (ts : list token) : option (list token) :=
  match ts with [] => Some [] | T_END :: ts' => Some ts' | _ => None end.

(** [ext_prefix]: the user and the host; the actions of the inner ones are run first *)
Fixpoint ext_prefix (p : Prefix) (ts : list token) : option (Prefix * list token) :=
  match ts with
  | T_SPACE :: ts' => Some (p, ts')
  | T_char x :: T_USER u :: ts' =>
      if Ascii.eqb x "!" then
        '(p, ts'') ← ext_prefix p ts'; Some (MkPrefix (origin p) u (host p), ts'')
      else None
  | T_char x :: T_HOST h :: ts' =>
      if Ascii.eqb x "@" then
        '(p, ts'') ← ext_prefix p ts'; Some (MkPrefix (origin p) (user p) h, ts'')
      else None
  | _ => None
  end.

Fixpoint params (ts : list token) : option (list string * list token) :=
  match ts with
  | T_SPACE :: ts' => params ts'
  | T_PARAM p :: ts' => '(ps, ts'') ← params ts'; Some (p :: ps, ts'')
  | T_char x :: ts' =>
      if Ascii.eqb x ":" then
        match ts' with
        | T_PARAM p :: ts'' => Some ([p], ts'')
        | _ => Some ([], ts')
        end
      else None
  | _ => Some ([], ts)
  end.

(** [address]: of the string that is allocated for a command *)
Definition body (address : Z) (p : Prefix) (ts : list token) :
    option (IRC_Record * list token) :=
  '(c, ts) ← match ts with
             | T_CMD_STRING s :: ts' => Some (STRING address s, ts')
             | T_CMD_NUMERIC n :: ts' => Some (NUMERIC n, ts')
             | _ => None
             end;
  '(ps, ts) ← params ts; ts ← end_of_message ts; Some (MkRecord p c ps [], ts).

Definition no_prefix : Prefix := MkPrefix "" "" "".
Definition new_record : IRC_Record := MkRecord no_prefix INVALID [] [].
Definition message (address : Z) (ts : list token) : option (IRC_Record * list token) :=
  match ts with
  | T_char x :: ts =>
      if Ascii.eqb x ":" then
        match ts with
        | T_ORIGIN o :: ts =>
            '(p, ts) ← ext_prefix no_prefix ts;
            body address (MkPrefix o (user p) (host p)) ts
        | _ => None
        end
      else None
  | T_CMD_STRING _ :: _ | T_CMD_NUMERIC _ :: _ => body address no_prefix ts
  | _ => ts ← end_of_message ts; Some (new_record, ts)
  end.

(** [IRC_ParserDriver::parse] of a new record: the record when it returns [true]; the end of
    the input is expected behind the token [END] *)
Definition parse (address : Z) (data_in : list Z) : option IRC_Record :=
  '(r, ts) ← message address (scan SC_INITIAL (bytes_string data_in));
  _ ← end_of_message ts; Some r.

(** ** Runs of characters *)
Lemma span_app f t s :
  string_all f t = true → stops f s = true → span f (t +:+ s) = (t, s).
Proof.
  intros Ht Hs. induction t as [|c t IH]; autorewrite with str; cbn [span string_all] in *.
  - destruct s as [|x s]; [done|]. cbn in *. apply negb_true_iff in Hs. by rewrite Hs.
  - apply andb_true_iff in Ht as [-> Ht]. by rewrite IH.
Qed.
Lemma span_cases f t s :
  stops f s = true →
  span f (t +:+ s) = (t, s) ∨ (String.length (span f (t +:+ s)).1 < String.length t)%nat.
Proof.
  intros Hs. induction t as [|c t IH]; autorewrite with str; cbn [span String.length].
  - left. destruct s as [|x s]; [done|]. cbn in *. apply negb_true_iff in Hs. by rewrite Hs.
  - destruct (f c); [|right; cbn; lia].
    destruct IH as [->|IH]; [by left|right]. destruct (span f (t +:+ s)). cbn in *. lia.
Qed.
Lemma span_length f s : (String.length (span f s).2 <= String.length s)%nat.
Proof.
  induction s as [|c s IH]; cbn; [lia|]. destruct (f c); [|cbn; lia].
  destruct (span f s). cbn in *. lia.
Qed.

(** ** The scanner takes a character for each rule *)
Lemma run_rule_length f t next c x s' :
  (String.length (run_rule f t next c x s').2 <= String.length s')%nat.
Proof.
  unfold run_rule, yyterminate. cbn [span]. destruct (f x).
  - pose proof (span_length f s'). destruct (span f s'). by rewrite decide_False.
  - by rewrite decide_True.
Qed.
Lemma command_rule_length c x s' :
  (String.length (command_rule c x s').2 <= String.length s')%nat.
Proof.
  unfold command_rule, space_rule. destruct (is_space x); [apply span_length|].
  destruct (isdigit x); [|apply run_rule_length].
  destruct s' as [|y [|z u]]; cbn; try lia. destruct (isdigit y && isdigit z); cbn; lia.
Qed.
Lemma match_origin_length x s' o u :
  match_origin (String x s') = Some (o, u) → (String.length u <= String.length s')%nat.
Proof.
  unfold match_origin. cbn [span].
  pose proof (span_length HOST s'). pose proof (span_length NICK s').
  destruct (HOST x), (isalpha x), (span HOST s'), (span NICK s'); cbn in *;
    repeat case_match; intros; simplify_eq; cbn in *; try done; lia.
Qed.
Lemma yylex_length c x s' : (String.length (yylex c x s').2 <= String.length s')%nat.
Proof.
  pose proof (run_rule_length) as Hr. pose proof command_rule_length as Hc.
  pose proof (span_length is_space s') as Hs.
  destruct c; cbn [yylex]; unfold space_rule, yyterminate;
    repeat (case_match; [cbn; done || lia|]); try (apply Hr || apply Hc); cbn; try lia.
  destruct (match_origin _) as [[o u]|] eqn:E; cbn; [|lia]. by eapply match_origin_length.
Qed.

Lemma scan_loop_enough n m c s :
  (String.length s <= n)%nat → (String.length s <= m)%nat → scan_loop n c s = scan_loop m c s.
Proof.
  revert m c s. induction n as [|n IH]; intros m c s Hn Hm.
  - destruct s; [by destruct m|]. cbn in Hn. lia.
  - destruct s as [|x s]; [by destruct m|]. cbn in *. destruct m as [|m]; [lia|].
    cbn [scan_loop]. pose proof (yylex_length c x s). destruct (yylex c x s) as [[t c'] u].
    cbn in *. f_equal. apply IH; lia.
Qed.
(** one rule after the other *)
Lemma scan_rule c x s t c' u :
  yylex c x s = (t, c', u) →
  scan c (String x s) = match t with Some t => [t] | None => [] end ++ scan c' u.
Proof.
  intros E. unfold scan at 1. cbn [String.length scan_loop].
  pose proof (yylex_length c x s) as Hl. rewrite E in Hl |- *. cbn in Hl.
  f_equal. by apply scan_loop_enough.
Qed.

(** ** The text of a message *)
Definition crlf_ : string := String CR (String LF "").
Definition prefix_text (p : Prefix) : string :=
  if decide (origin p = "") then ""
  else
    ":" +:+ origin p +:+ (if decide (user p = "") then "" else "!" +:+ user p) +:+
    (if decide (host p = "") then "" else "@" +:+ host p) +:+ " ".
Definition command_text (c : Command) : string :=
  match c with
  | NUMERIC n => setw 3 "0" (pretty n)
  | STRING _ s => s
  | INVALID => ""
  end.
Fixpoint list_text (ps : list string) : string :=
  match ps with
  | [] => ""
  | [p] => if has_space p then ":" +:+ p else p
  | p :: ps' => p +:+ " " +:+ list_text ps'
  end.
Definition parameters_text (ps : list string) : string :=
  if decide (ps = []) then "" else " " +:+ list_text ps.
Definition message_text (r : IRC_Record) : string :=
  prefix_text (prefix_ r) +:+ command_text (command_ r) +:+ parameters_text (parameters_ r) +:+
  crlf_.

(** the records of RFC 1459 without lists: the prefix, the command and the parameters are
    those of its grammar, as the scanner has them; the last parameter may have blanks, begin
    with a colon, and be empty *)
Definition origin_ok (o : string) : bool :=
  negb (bool_decide (o = "")) &&
  (string_all HOST o || match o with String x t => isalpha x && string_all NICK t | "" => false end).
Definition prefix_ok (p : Prefix) : bool :=
  if decide (origin p = "") then bool_decide (user p = "") && bool_decide (host p = "")
  else origin_ok (origin p) && string_all USER (user p) && string_all HOST (host p).
Definition command_ok (c : Command) : bool :=
  match c with
  | NUMERIC n => (0 <=? n) && (n <? 1000)
  | STRING _ s => negb (bool_decide (s = "")) && string_all isalpha s
  | INVALID => false
  end.
Definition middle_ok (p : string) : bool :=
  match p with String x _ => negb (Ascii.eqb x ":") && string_all PARAM p | "" => false end.
Fixpoint parameters_ok (ps : list string) : bool :=
  match ps with
  | [] => true
  | [p] => string_all TRAILING_PARAM p
  | p :: ps' => middle_ok p && parameters_ok ps'
  end.
Definition record_ok (r : IRC_Record) : bool :=
  prefix_ok (prefix_ r) && command_ok (command_ r) && parameters_ok (parameters_ r) &&
  bool_decide (parameterRanges_ r = []).

(** what is read of the parameters: the streamer puts a colon before the last one only if
    that has blanks, so a colon that it begins with is taken for that, and nothing is read
    of one that is empty then *)
Definition last_read (p : string) : list string :=
  if has_space p then [p]
  else
    match p with
    | "" => []
    | String x q => if Ascii.eqb x ":" then if decide (q = "") then [] else [q] else [p]
    end.
Fixpoint parameters_read (ps : list string) : list string :=
  match ps with
  | [] => []
  | [p] => last_read p
  | p :: ps' => p :: parameters_read ps'
  end.
Definition as_read (r : IRC_Record) : IRC_Record :=
  MkRecord (prefix_ r) (command_ r) (parameters_read (parameters_ r)) (parameterRanges_ r).
(** the parameters that are read as they are *)
Definition last_plain (p : string) : bool :=
  middle_ok p || (has_space p && string_all TRAILING_PARAM p).
Fixpoint parameters_plain (ps : list string) : bool :=
  match ps with
  | [] => true
  | [p] => last_plain p
  | p :: ps' => middle_ok p && parameters_plain ps'
  end.

(** ** The tokens of a message *)
Definition prefix_tokens (p : Prefix) : list token :=
  if decide (origin p = "") then []
  else
    [T_char ":"; T_ORIGIN (origin p)] ++
    (if decide (user p = "") then [] else [T_char "!"; T_USER (user p)]) ++
    (if decide (host p = "") then [] else [T_char "@"; T_HOST (host p)]) ++ [T_SPACE].
Definition command_tokens (c : Command) : list token :=
  match c with
  | NUMERIC n => [T_CMD_NUMERIC n]
  | STRING _ s => [T_CMD_STRING s]
  | INVALID => []
  end.
Definition last_tokens (p : string) : list token :=
  if has_space p then [T_char ":"; T_PARAM p]
  else
    match p with
    | "" => []
    | String x q =>
        if Ascii.eqb x ":" then T_char ":" :: (if decide (q = "") then [] else [T_PARAM q])
        else [T_PARAM p]
    end.
Fixpoint list_tokens (ps : list string) : list token :=
  match ps with
  | [] => []
  | [p] => last_tokens p
  | p :: ps' => T_PARAM p :: T_SPACE :: list_tokens ps'
  end.

Definition stops_at (l : list ascii) (s : string) : bool :=
  match s with "" => false | String x _ => is_char l x end.

(** A class of characters, decided for all of them *)
Ltac by_all_chars f c :=
  let H := fresh in
  pose proof (all_chars_forall f ltac:(vm_compute; reflexivity) c) as H; cbv beta in H.

Lemma scan_space c next u :
  (c, next) ∈ [(SC_prefix, SC_command); (SC_user, SC_command); (SC_host, SC_command);
               (SC_command, SC_params); (SC_INITIAL, SC_params); (SC_params, SC_params)] →
  stops is_space u = true → scan c (" " +:+ u) = T_SPACE :: scan next u.
Proof.
  intros Hc Hu. autorewrite with str. rewrite (scan_rule _ _ _ (Some T_SPACE) next u); [done|].
  pose proof (span_app is_space "" u eq_refl Hu) as Hs. autorewrite with str in Hs.
  repeat (apply elem_of_cons in Hc as [[= -> ->]|Hc]);
    [..|by apply elem_of_nil in Hc]; cbn; unfold space_rule; by rewrite Hs.
Qed.

Lemma run_rule_app f t next c x s u :
  string_all f (String x s) = true → stops f u = true →
  run_rule f t next c x (s +:+ u) = (Some (t (String x s)), next, u).
Proof.
  intros Hf Hu. unfold run_rule.
  pose proof (span_app f (String x s) u Hf Hu) as E. autorewrite with str in E. rewrite E.
  by rewrite decide_False.
Qed.

Lemma PARAM_not_space s : string_all PARAM s = true → has_space s = false.
Proof.
  induction s as [|c s IH]; [done|]. cbn. intros [Hc Hs]%andb_true_iff.
  rewrite IH by done. by_all_chars (λ c, negb (PARAM c) || negb (Ascii.eqb c " ")) c.
  rewrite Hc in *. by destruct (Ascii.eqb c " ").
Qed.
Lemma middle_no_space p : middle_ok p = true → has_space p = false.
Proof. destruct p; [done|]. intros [_ H]%andb_true_iff. by apply PARAM_not_space. Qed.

Lemma scan_middle p u :
  middle_ok p = true → stops PARAM u = true →
  scan SC_params (p +:+ u) = T_PARAM p :: scan SC_params u.
Proof.
  destruct p as [|x p]; [done|]. intros [Hx Hp]%andb_true_iff Hu. autorewrite with str.
  rewrite (scan_rule _ _ _ (Some (T_PARAM (String x p))) SC_params u); [done|]. cbn [yylex].
  assert (PARAM x = true) as Hc by (cbn in Hp; by apply andb_true_iff in Hp as [? _]).
  by_all_chars (λ c, negb (PARAM c) || (negb (is_space c) && negb (Ascii.eqb c CR))) x.
  rewrite Hc in *. apply andb_true_iff in H as [->%negb_true_iff ->%negb_true_iff].
  apply negb_true_iff in Hx as ->. by apply run_rule_app.
Qed.

(** the end of a message in any state behind the command *)
Lemma scan_crlf c :
  c ∈ [SC_INITIAL; SC_params; SC_trailing] → scan c crlf_ = [].
Proof. intros Hc. repeat (apply elem_of_cons in Hc as [->|Hc]; [done|]). set_solver. Qed.
Lemma scan_crlf_command : scan SC_command crlf_ = [T_END; T_END].
Proof. done. Qed.

Lemma scan_trailing p :
  p ≠ "" → string_all TRAILING_PARAM p = true →
  scan SC_params (":" +:+ p +:+ crlf_) = [T_char ":"; T_PARAM p].
Proof.
  intros Hne Hp. autorewrite with str.
  rewrite (scan_rule _ _ _ (Some (T_char ":")) SC_trailing (p +:+ crlf_)) by done. cbn [app].
  f_equal. destruct p as [|x p]; [done|]. autorewrite with str.
  assert (TRAILING_PARAM x = true) as Hc by (cbn in Hp; by apply andb_true_iff in Hp as [? _]).
  by_all_chars (λ c, negb (TRAILING_PARAM c) || negb (Ascii.eqb c CR)) x. rewrite Hc in *.
  rewrite (scan_rule _ _ _ (Some (T_PARAM (String x p))) SC_trailing crlf_); [done|].
  cbn [yylex]. apply negb_true_iff in H as ->. by apply run_rule_app.
Qed.

Lemma stops_middle p v : middle_ok p = true → stops is_space (p +:+ v) = true.
Proof.
  destruct p as [|x p]; [done|]. intros Hp. autorewrite with str. cbn in *.
  apply andb_true_iff in Hp as [_ [Hc _]%andb_true_iff].
  by_all_chars (λ c, negb (PARAM c) || negb (is_space c)) x. by rewrite Hc in *.
Qed.
Lemma list_text_stops ps u :
  parameters_ok ps = true → stops is_space u = true →
  stops is_space (list_text ps +:+ u) = true.
Proof.
  intros Hok Hu. destruct ps as [|p [|q ps]]; [done|..]; cbn [list_text parameters_ok] in *.
  - destruct (has_space p) eqn:Hs; [done|]. destruct p as [|x p]; [done|].
    autorewrite with str. cbn in Hs |- *. apply orb_false_iff in Hs as [Hs _].
    unfold is_space. by rewrite Hs.
  - apply andb_true_iff in Hok as [Hp _]. rewrite string_app_assoc. by apply stops_middle.
Qed.

Lemma trailing_param p :
  has_space p = false → string_all TRAILING_PARAM p = true → string_all PARAM p = true.
Proof.
  induction p as [|x p IH]; [done|]. cbn. intros [Hx Hs]%orb_false_iff [Ht Hp]%andb_true_iff.
  rewrite IH by done.
  by_all_chars (λ c, Ascii.eqb c " " || negb (TRAILING_PARAM c) || PARAM c) x.
  rewrite Hx, Ht in H. cbn in H. by rewrite H.
Qed.

Lemma scan_last p :
  string_all TRAILING_PARAM p = true →
  scan SC_params (list_text [p] +:+ crlf_) = last_tokens p.
Proof.
  intros Hp. cbn [list_text]. unfold last_tokens. destruct (has_space p) eqn:Hs.
  { rewrite string_app_assoc. apply scan_trailing; [by destruct p|done]. }
  destruct p as [|x p]; [done|]. destruct (Ascii.eqb x ":") eqn:Hx.
  - apply Ascii.eqb_eq in Hx as ->. cbn in Hp. destruct (decide (p = "")) as [->|Hne]; [done|].
    rewrite <- (scan_trailing p Hne Hp). by autorewrite with str.
  - rewrite scan_middle; [by rewrite scan_crlf by set_solver| |done].
    cbn [middle_ok]. by rewrite Hx, (trailing_param _ Hs Hp).
Qed.

Lemma scan_list ps :
  ps ≠ [] → parameters_ok ps = true →
  scan SC_params (list_text ps +:+ crlf_) = list_tokens ps.
Proof.
  induction ps as [|p [|q ps] IH]; intros Hne Hok; [done|by apply scan_last|].
  cbn [parameters_ok] in Hok. apply andb_true_iff in Hok as [Hp Hok].
  change (list_text (p :: q :: ps)) with (p +:+ " " +:+ list_text (q :: ps)).
  change (list_tokens (p :: q :: ps)) with (T_PARAM p :: T_SPACE :: list_tokens (q :: ps)).
  rewrite string_app_assoc, scan_middle by done. f_equal.
  rewrite string_app_assoc, (scan_space _ SC_params); [|set_solver|by apply list_text_stops].
  f_equal. by apply IH.
Qed.

Lemma numeric_text n :
  0 <= n < 1000 → ∃ x y z, setw 3 "0" (pretty n) = String x (String y (String z "")) ∧
    isdigit x = true ∧ isdigit y = true ∧ isdigit z = true ∧
    digits_value 0 (String x (String y (String z ""))) = n.
Proof.
  intros Hn. destruct (pretty_digits n) as (Ha & Hv & _); [lia|].
  assert (String.length (pretty n) <= 3)%nat as Hl.
  { apply pretty_length; [lia|]. change (10 ^ Z.of_nat 3) with 1000. lia. }
  unfold setw. set (k := (3 - String.length (pretty n))%nat).
  destruct (pad_digits k (pretty n) Ha) as [Ha' Hv'].
  assert (String.length (pad k "0" (pretty n)) = 3%nat) as Hl'.
  { assert (∀ k s, String.length (pad k "0" s) = (k + String.length s)%nat) as Hp.
    { intros j s. induction j; cbn; [done|]. by f_equal. }
    rewrite Hp. unfold k. lia. }
  destruct (pad k "0" (pretty n)) as [|x [|y [|z [|]]]]; try done.
  exists x, y, z. unfold all_digits in Ha'. cbn [string_all] in Ha'.
  rewrite !andb_true_iff in Ha'. rewrite Hv'. naive_solver.
Qed.

Lemma scan_command cond c u :
  cond ∈ [SC_INITIAL; SC_command] → command_ok c = true → stops isalpha u = true →
  scan cond (command_text c +:+ u) = command_tokens c ++ scan cond u.
Proof.
  intros Hcond Hc Hu.
  assert (∀ x s r, isalpha x || isdigit x = true → command_rule cond x s = r →
          yylex cond x s = r) as Hlex.
  { intros x s r Hx <-.
    by_all_chars (λ c, negb (isalpha c || isdigit c) ||
      (negb (Ascii.eqb c ":") && negb (Ascii.eqb c CR))) x. rewrite Hx in H. cbn [negb orb] in H.
    apply andb_true_iff in H as [H1%negb_true_iff H2%negb_true_iff].
    repeat (apply elem_of_cons in Hcond as [->|Hcond]); [| |by apply elem_of_nil in Hcond];
      cbn [yylex]; by rewrite ?H1, ?H2. }
  destruct c as [n|a s|]; [| |done]; cbn [command_ok command_text command_tokens] in *.
  - apply andb_true_iff in Hc as [H1%Z.leb_le H2%Z.ltb_lt].
    destruct (numeric_text n) as (x & y & z & -> & Hx & Hy & Hz & Hv); [lia|].
    autorewrite with str. rewrite (scan_rule _ _ _ (Some (T_CMD_NUMERIC n)) cond u); [done|].
    apply Hlex; [by rewrite Hx, orb_true_r|].
    by_all_chars (λ c, negb (isdigit c) || negb (is_space c)) x. rewrite Hx in H.
    apply negb_true_iff in H. unfold command_rule. by rewrite H, Hx, Hy, Hz, Hv.
  - apply andb_true_iff in Hc as [Hne Hs]. destruct s as [|x s]; [done|].
    assert (isalpha x = true) as Hx by (cbn in Hs; by apply andb_true_iff in Hs as [? _]).
    autorewrite with str.
    rewrite (scan_rule _ _ _ (Some (T_CMD_STRING (String x s))) cond u); [done|].
    apply Hlex; [by rewrite Hx|].
    by_all_chars (λ c, negb (isalpha c) || (negb (is_space c) && negb (isdigit c))) x.
    rewrite Hx in H. cbn [negb orb] in H. apply andb_true_iff in H as [H1%negb_true_iff H2%negb_true_iff].
    unfold command_rule. rewrite H1, H2. by apply run_rule_app.
Qed.

Lemma match_origin_app o u :
  origin_ok o = true → stops HOST u = true → stops NICK u = true →
  match_origin (o +:+ u) = Some (o, u).
Proof.
  unfold origin_ok. rewrite andb_true_iff, negb_true_iff, bool_decide_eq_false.
  intros [Hne Ho] Hh Hn. destruct o as [|x o]; [done|]. clear Hne.
  apply orb_true_iff in Ho.
  assert (∀ h n : string * string,
    (h = (String x o, u) ∧ (n = (String x o, u) ∨ (String.length n.1 <= String.length (String x o))%nat)) ∨
    (n = (String x o, u) ∧ (h = (String x o, u) ∨ (String.length h.1 < String.length (String x o))%nat)) →
    (if (String.length h.1 <? String.length n.1)%nat then n else h) = (String x o, u)) as Hm.
  { intros h n Hhn. destruct (_ <? _)%nat eqn:E; [apply Nat.ltb_lt in E|apply Nat.ltb_ge in E];
      destruct Hhn as [[-> [->|?]]|[-> [->|?]]]; cbn in *; try done; lia. }
  unfold match_origin. cbv zeta. rewrite append_cons. rewrite Hm; [by rewrite decide_False|].
  destruct Ho as [Ho|[Hx Ho]%andb_true_iff].
  - left. split; [by apply (span_app HOST (String x o))|].
    destruct (isalpha x); [|right; cbn; lia].
    destruct (span_cases NICK o u Hn) as [->|Hl]; [by left|right].
    destruct (span NICK (o +:+ u)). cbn in *. lia.
  - right. rewrite Hx. split; [by rewrite span_app|].
    destruct (span_cases HOST (String x o) u Hh) as [E|Hl]; [left|right]; by autorewrite with str in *.
Qed.

Lemma scan_origin o u :
  origin_ok o = true → stops HOST u = true → stops NICK u = true →
  scan SC_prefix (o +:+ u) = T_ORIGIN o :: scan SC_prefix u.
Proof.
  intros Ho Hh Hn. pose proof (match_origin_app o u Ho Hh Hn) as Hm.
  destruct o as [|x o]; [done|]. autorewrite with str in *.
  rewrite (scan_rule _ _ _ (Some (T_ORIGIN (String x o))) SC_prefix u); [done|].
  assert (HOST x || isalpha x = true) as Hx.
  { unfold origin_ok in Ho. cbn in Ho. apply orb_true_iff in Ho as [Ho|Ho];
      apply andb_true_iff in Ho as [-> _]; by rewrite ?orb_true_r. }
  by_all_chars (λ c, negb (HOST c || isalpha c) ||
    (negb (is_space c) && negb (Ascii.eqb c "!") && negb (Ascii.eqb c "@"))) x.
  rewrite Hx in H. cbn [negb orb] in H.
  apply andb_true_iff in H as [[H1%negb_true_iff H2%negb_true_iff]%andb_true_iff H3%negb_true_iff].
  cbn [yylex]. by rewrite H1, H2, H3, Hm.
Qed.

(** the user or the host, behind its mark *)
Lemma scan_part (mark : ascii) state f t s u :
  (mark, state, f, t) ∈ [("!"%char, SC_user, USER, T_USER); ("@"%char, SC_host, HOST, T_HOST)] →
  s ≠ "" → string_all f s = true → stops f u = true →
  scan SC_prefix (String mark (s +:+ u)) = T_char mark :: t s :: scan SC_prefix u.
Proof.
  intros Hin Hne Hs Hu. destruct s as [|x s]; [done|]. autorewrite with str.
  rewrite (scan_rule _ _ _ (Some (T_char mark)) state (String x (s +:+ u))).
  2: { repeat (apply elem_of_cons in Hin as [[= -> -> -> ->]|Hin]); [done..|].
       by apply elem_of_nil in Hin. }
  cbn [app]. f_equal.
  rewrite (scan_rule _ _ _ (Some (t (String x s))) SC_prefix u); [done|].
  assert (f x = true) as Hx by (cbn in Hs; by apply andb_true_iff in Hs as [? _]).
  repeat (apply elem_of_cons in Hin as [[= -> -> -> ->]|Hin]); [..|by apply elem_of_nil in Hin];
    cbn [yylex].
  - by_all_chars (λ c, negb (USER c) || (negb (is_space c) && negb (Ascii.eqb c "@"))) x.
    rewrite Hx in H. cbn [negb orb] in H.
    apply andb_true_iff in H as [H1%negb_true_iff H2%negb_true_iff]. rewrite H1, H2.
    by apply run_rule_app.
  - by_all_chars (λ c, negb (HOST c) || negb (is_space c)) x. rewrite Hx in H.
    apply negb_true_iff in H as ->. by apply run_rule_app.
Qed.

Lemma scan_prefix p u :
  prefix_ok p = true → origin p ≠ "" → stops is_space u = true →
  scan SC_INITIAL (prefix_text p +:+ u) = prefix_tokens p ++ scan SC_command u.
Proof.
  intros Hp Hne Hu. unfold prefix_ok in Hp. unfold prefix_text, prefix_tokens.
  rewrite decide_False in Hp by done. rewrite decide_False by done.
  apply andb_true_iff in Hp as [[Ho Hus]%andb_true_iff Hho].
  rewrite (decide_False (P := origin p = "")) by done.
  rewrite !string_app_assoc, append_cons, append_nil.
  match goal with |- scan _ (String _ ?v) = _ =>
    rewrite (scan_rule SC_INITIAL ":" v (Some (T_char ":")) SC_prefix v) by done end.
  cbn [app]. f_equal.
  destruct (decide (user p = "")) as [Eu|Eu], (decide (host p = "")) as [Eh|Eh];
    autorewrite with str; rewrite ?string_app_assoc; rewrite scan_origin by done;
    cbn [app]; f_equal.
  - by apply (scan_space SC_prefix SC_command); [set_solver|].
  - rewrite (scan_part "@" SC_host HOST T_HOST) by (done || set_solver). do 2 f_equal.
    by apply (scan_space SC_prefix SC_command); [set_solver|].
  - rewrite (scan_part "!" SC_user USER T_USER) by (done || set_solver). do 2 f_equal.
    by apply (scan_space SC_prefix SC_command); [set_solver|].
  - rewrite (scan_part "!" SC_user USER T_USER) by (done || set_solver). do 2 f_equal.
    rewrite (scan_part "@" SC_host HOST T_HOST) by (done || set_solver). do 2 f_equal.
    by apply (scan_space SC_prefix SC_command); [set_solver|].
Qed.

(** ** Reading a message *)
Definition message_tokens (r : IRC_Record) : list token :=
  prefix_tokens (prefix_ r) ++ command_tokens (command_ r) ++
  (if decide (parameters_ r = [])
   then if decide (origin (prefix_ r) = "") then [] else [T_END; T_END]
   else T_SPACE :: list_tokens (parameters_ r)).

Lemma scan_parameters c ps :
  c ∈ [SC_INITIAL; SC_command] → ps ≠ [] → parameters_ok ps = true →
  scan c ((" " +:+ list_text ps) +:+ crlf_) = T_SPACE :: list_tokens ps.
Proof.
  intros Hc Hne Hok. rewrite string_app_assoc, (scan_space _ SC_params).
  - f_equal. by apply scan_list.
  - set_solver.
  - by apply list_text_stops.
Qed.

Lemma scan_message_text r :
  record_ok r = true → scan SC_INITIAL (message_text r) = message_tokens r.
Proof.
  unfold record_ok. rewrite !andb_true_iff. intros [[[Hp Hc] Hps] _].
  assert (stops isalpha (parameters_text (parameters_ r) +:+ crlf_) = true) as Hs.
  { unfold parameters_text. by destruct (decide _). }
  unfold message_text, message_tokens.
  destruct (decide (origin (prefix_ r) = "")) as [Eo|Eo].
  - unfold prefix_text, prefix_tokens. rewrite decide_True by done. rewrite append_nil.
    rewrite decide_True by done. cbn [app]. rewrite scan_command by (done || set_solver). f_equal.
    unfold parameters_text. destruct (decide _); [done|]. by apply scan_parameters; [set_solver|..].
  - rewrite scan_prefix; [|done..|].
    + f_equal. rewrite scan_command by (done || set_solver). f_equal.
      unfold parameters_text. destruct (decide _); [done|].
      by apply scan_parameters; [set_solver|..].
    + destruct (command_ r) as [n|a [|x s]|]; cbn [command_ok command_text] in *; try done.
      * apply andb_true_iff in Hc as [H1%Z.leb_le H2%Z.ltb_lt].
        destruct (numeric_text n) as (x & y & z & -> & Hx & _); [lia|]. autorewrite with str. cbn.
        by_all_chars (λ c, negb (isdigit c) || negb (is_space c)) x. by rewrite Hx in H.
      * autorewrite with str. cbn in *.
        apply andb_true_iff in Hc as [_ [Hx _]%andb_true_iff].
        by_all_chars (λ c, negb (isalpha c) || negb (is_space c)) x. by rewrite Hx in H.
Qed.

Lemma params_tokens ps : params (list_tokens ps) = Some (parameters_read ps, []).
Proof.
  induction ps as [|p [|q ps] IH]; [done|..].
  - cbn [list_tokens parameters_read]. unfold last_tokens, last_read.
    destruct (has_space p); [done|]. destruct p as [|x p]; [done|].
    destruct (Ascii.eqb x ":"); [|done]. cbn. by destruct (decide (p = "")).
  - change (list_tokens (p :: q :: ps)) with (T_PARAM p :: T_SPACE :: list_tokens (q :: ps)).
    cbn [params]. by rewrite IH.
Qed.

(** the command is a new string *)
Definition allocated (address : Z) (r : IRC_Record) : IRC_Record :=
  MkRecord (prefix_ r)
    (match command_ r with STRING _ s => STRING address s | c => c end)
    (parameters_ r) (parameterRanges_ r).

Lemma body_tokens address r p :
  command_ok (command_ r) = true → parameterRanges_ r = [] →
  ∃ ts, body address p (command_tokens (command_ r) ++
    (if decide (parameters_ r = [])
     then if decide (origin (prefix_ r) = "") then [] else [T_END; T_END]
     else T_SPACE :: list_tokens (parameters_ r))) =
    Some (MkRecord p (command_ (allocated address r)) (parameters_read (parameters_ r)) [], ts) ∧
    end_of_message ts = Some [].
Proof.
  intros Hc Hr.
  assert (∃ ts ts', params (if decide (parameters_ r = [])
     then if decide (origin (prefix_ r) = "") then [] else [T_END; T_END]
     else T_SPACE :: list_tokens (parameters_ r)) = Some (parameters_read (parameters_ r), ts) ∧
     end_of_message ts = Some ts' ∧ end_of_message ts' = Some []) as (ts & ts' & Hps & He & He').
  { destruct (decide (parameters_ r = [])) as [->|Hne].
    - destruct (decide _); [by exists [], []|by exists [T_END; T_END], [T_END]].
    - exists [], []. cbn [params]. by rewrite params_tokens. }
  exists ts'. split; [|done]. unfold body. cbn [command_ allocated].
  destruct (command_ r); [| |done]; cbn [command_tokens app]; cbn [mbind option_bind];
    rewrite Hps; cbn [mbind option_bind]; by rewrite He.
Qed.

Lemma parse_text address r :
  record_ok r = true →
  parse address (string_bytes (message_text r)) = Some (allocated address (as_read r)).
Proof.
  intros Hok. unfold parse. rewrite bytes_string_bytes, (scan_message_text r Hok).
  unfold record_ok in Hok. rewrite !andb_true_iff, bool_decide_eq_true in Hok.
  destruct Hok as [[[Hp Hc] _] Hr].
  assert (∃ ts, message address (message_tokens r) = Some (allocated address (as_read r), ts) ∧
                end_of_message ts = Some []) as (ts & -> & He).
  2: { cbn [mbind option_bind]. by rewrite He. }
  unfold message_tokens, prefix_tokens.
  destruct (decide (origin (prefix_ r) = "")) as [Eo|Eo].
  - destruct (body_tokens address r no_prefix Hc Hr) as (ts & Hb & He). exists ts.
    rewrite (decide_True (P := origin (prefix_ r) = "")) in Hb by done. split; [|done].
    assert (prefix_ r = no_prefix) as Epr.
    { unfold prefix_ok in Hp. rewrite decide_True in Hp by done.
      apply andb_true_iff in Hp as [Hu%bool_decide_eq_true Hh%bool_decide_eq_true].
      destruct (prefix_ r). cbn in *. by subst. }
    unfold allocated, as_read. cbn [prefix_ command_ parameters_ parameterRanges_].
    rewrite Epr, Hr. cbn [command_ allocated] in Hb.
    destruct (command_ r); [| |done]; cbn [command_tokens app message] in *; exact Hb.
  - destruct (body_tokens address r (prefix_ r) Hc Hr) as (ts & Hb & He). exists ts.
    rewrite (decide_False (P := origin (prefix_ r) = "")) in Hb by done. split; [|done].
    unfold allocated, as_read. cbn [prefix_ command_ parameters_ parameterRanges_].
    rewrite Hr. cbn [command_ allocated] in Hb. rewrite <- Hb.
    rewrite <- !(assoc_L (++)). cbn [app message Ascii.eqb Bool.eqb].
    destruct (prefix_ r) as [o us ho]. cbn [origin user host] in *.
    destruct (decide (us = "")) as [->|], (decide (ho = "")) as [->|]; reflexivity.
Qed.

(** ** What is written *)

(** the room that a piece needs is that of its bytes and of some that follow *)
Fixpoint room_ok (ds : list (Z * list Z)) : Prop :=
  match ds with
  | [] => True
  | (n, d) :: ds' => zlen d <= n <= zlen d + zlen (concat ds'.*2) ∧ room_ok ds'
  end.
Definition pieces (ds : list (Z * list Z)) : list step := (λ d, Ok (Some d)) <$> ds.
(** the steps are pieces, that write this text *)
Definition prints (steps : list step) (s : string) : Prop :=
  ∃ ds, steps = pieces ds ∧ concat ds.*2 = string_bytes s ∧ Forall (λ d, d.1 = zlen d.2) ds.

Lemma prints_nil : prints [] "".
Proof. by exists []. Qed.
Lemma prints_app s1 s2 t1 t2 : prints s1 t1 → prints s2 t2 → prints (s1 ++ s2) (t1 +:+ t2).
Proof.
  intros (d1 & -> & E1 & F1) (d2 & -> & E2 & F2). exists (d1 ++ d2).
  unfold pieces. rewrite !fmap_app, concat_app, E1, E2, string_bytes_app.
  split_and!; [done..|by apply Forall_app].
Qed.
Lemma prints_text s : prints [text s] s.
Proof.
  exists [(zlen (string_bytes s), string_bytes s)]. cbn. rewrite app_nil_r.
  split_and!; [done..|by constructor].
Qed.
Lemma prints_put c : prints [put c] (String c "").
Proof. exists [(1, [code c])]. split_and!; [done..|by constructor]. Qed.
Lemma prints_cons s steps t u : prints [s] t → prints steps u → prints (s :: steps) (t +:+ u).
Proof. apply (prints_app [s]). Qed.

Lemma room_ok_app ds n d es :
  Forall (λ d, d.1 = zlen d.2) ds → zlen d <= n <= zlen d + zlen (concat es.*2) → room_ok es →
  room_ok (ds ++ (n, d) :: es).
Proof.
  intros Hd Hn He. induction Hd as [|[m e] ds Hm _ IH]; cbn in *; [done|]. split; [|done].
  subst. pose proof (zlen_nonneg (concat (ds ++ (n, d) :: es).*2)). lia.
Qed.
Lemma room_ok_exact ds : Forall (λ d, d.1 = zlen d.2) ds → room_ok ds.
Proof.
  induction 1 as [|[m e] ds Hm _ IH]; cbn in *; [done|]. split; [|done].
  subst. pose proof (zlen_nonneg (concat ds.*2)). lia.
Qed.

Lemma prints_prefix p : prints (prefix_steps p) (prefix_text p).
Proof.
  unfold prefix_steps, prefix_text. destruct (decide _); [apply prints_nil|].
  apply prints_cons; [apply prints_put|]. apply prints_cons; [apply prints_text|].
  apply prints_app.
  { destruct (decide _); [apply prints_nil|].
    apply (prints_cons _ _ "!"); [apply prints_put|apply prints_text]. }
  apply prints_app; [|apply prints_put].
  destruct (decide _); [apply prints_nil|].
  apply (prints_cons _ _ "@"); [apply prints_put|apply prints_text].
Qed.
Lemma prints_list i ps : prints (parameter_steps [] i ps) (list_text ps).
Proof.
  revert i. induction ps as [|p [|q ps] IH]; intros i; [apply prints_nil|..].
  - cbn. destruct (has_space p); [|apply prints_text].
    apply (prints_cons (put ":")); [apply prints_put|apply prints_text].
  - change (parameter_steps [] i (p :: q :: ps))
      with ([text p; put " "] ++ parameter_steps [] (i + 1) (q :: ps)).
    change (list_text (p :: q :: ps)) with (p +:+ " " +:+ list_text (q :: ps)).
    rewrite <- string_app_assoc. apply prints_app; [|apply IH].
    apply prints_cons; [apply prints_text|apply prints_put].
Qed.

(** the text of a record whose parameters are written as [t] *)
Definition written_text (r : IRC_Record) (t : string) : string :=
  prefix_text (prefix_ r) +:+ command_text (command_ r) +:+
  (if decide (parameters_ r = []) then "" else " ") +:+ t +:+ crlf_.
Definition parameters_written (r : IRC_Record) (t : string) : Prop :=
  prints (parameter_steps (parameterRanges_ r) 0 (parameters_ r)) t.

Lemma command_pieces c :
  command_ok c = true →
  ∃ n d, command_steps c = pieces [(n, d)] ∧ d = string_bytes (command_text c) ∧
         zlen d <= n <= zlen d + 1.
Proof.
  intros Hc. destruct c as [k|a s|]; [| |done]; cbn in *.
  - apply andb_true_iff in Hc as [H1%Z.leb_le H2%Z.ltb_lt].
    destruct (numeric_text k) as (x & y & z & E & _); [lia|]. rewrite E. by eexists 4, _.
  - exists (zlen (string_bytes s)), (string_bytes s). split_and!; [done..| |]; lia.
Qed.

Lemma record_pieces r t :
  command_ok (command_ r) = true → parameters_written r t →
  ∃ ds, record_steps r = pieces ds ∧ concat ds.*2 = string_bytes (written_text r t) ∧ room_ok ds.
Proof.
  intros Hc Ht.
  assert (prints ((if decide (parameters_ r = []) then [] else [put " "]) ++
    parameter_steps (parameterRanges_ r) 0 (parameters_ r) ++
    [Ok (Some (IRC_FRAME_BOUNDARY_SIZE, [13; 10]))])
    ((if decide (parameters_ r = []) then "" else " ") +:+ t +:+ crlf_)) as Hw.
  { apply prints_app; [|apply prints_app; [exact Ht|]].
    - destruct (decide _); [apply prints_nil|apply prints_put].
    - exists [(2, [13; 10])]; split_and!; [done..|by constructor]. }
  destruct (prints_prefix (prefix_ r)) as (d1 & E1 & C1 & F1).
  destruct Hw as (d2 & E2 & C2 & F2).
  destruct (command_pieces _ Hc) as (n & d & E3 & -> & Hn).
  unfold record_steps. rewrite E1, E2, E3.
  exists (d1 ++ (n, string_bytes (command_text (command_ r))) :: d2).
  split_and!.
  - unfold pieces. by rewrite fmap_app.
  - unfold written_text. rewrite fmap_app, concat_app. cbn [fmap list_fmap concat snd].
    by rewrite C1, C2, <- !string_bytes_app.
  - apply room_ok_app; [done| |by apply room_ok_exact].
    rewrite C2, !string_bytes_app, !zlen_app. change (zlen (string_bytes crlf_)) with 2.
    pose proof (zlen_nonneg (string_bytes t)).
    pose proof (zlen_nonneg (string_bytes (if decide (parameters_ r = []) then "" else " "))). lia.
Qed.

(** without lists, that is the text of the record *)
Lemma no_lists_written r :
  parameterRanges_ r = [] →
  ∃ t, parameters_written r t ∧ written_text r t = message_text r.
Proof.
  intros Hr. exists (list_text (parameters_ r)). unfold parameters_written. rewrite Hr.
  split; [apply prints_list|]. unfold written_text, message_text, parameters_text.
  destruct (decide _) as [->|]; [done|]. by rewrite !string_app_assoc.
Qed.

(** which parameters are read as they are *)
Lemma parameters_read_plain ps :
  parameters_ok ps = true → (parameters_read ps = ps ↔ parameters_plain ps = true).
Proof.
  induction ps as [|p [|q ps] IH]; intros Hok; [done|..].
  - cbn in *. unfold last_read, last_plain. rewrite Hok, andb_true_r.
    destruct (has_space p) eqn:Hs; [by rewrite orb_true_r|]. rewrite orb_false_r.
    destruct p as [|x p]; [done|]. cbn [middle_ok]. rewrite (trailing_param _ Hs Hok), andb_true_r.
    destruct (Ascii.eqb x ":"); cbn [negb]; [|done].
    split; [|done]. destruct (decide (p = "")) as [->|]; [done|]. intros [= E].
    apply (f_equal String.length) in E. cbn in E. lia.
  - cbn [parameters_ok] in Hok. apply andb_true_iff in Hok as [Hp Hok].
    change (parameters_read (p :: q :: ps)) with (p :: parameters_read (q :: ps)).
    change (parameters_plain (p :: q :: ps)) with (middle_ok p && parameters_plain (q :: ps)).
    specialize (IH Hok). rewrite Hp. cbn [andb].
    split; [intros [= E]; by apply IH|intros E; f_equal; by apply IH].
Qed.
Lemma parameters_plain_ok ps : parameters_plain ps = true → parameters_ok ps = true.
Proof.
  induction ps as [|p [|q ps] IH]; [done|..].
  - cbn. unfold last_plain. intros [Hm|[_ Ht]%andb_true_iff]%orb_true_iff; [|done].
    destruct p as [|x p]; [done|]. apply andb_true_iff in Hm as [_ Hm].
    revert Hm. generalize (String x p). intros s. induction s as [|y s IHs]; [done|].
    cbn. intros [Hy Hs]%andb_true_iff. rewrite IHs by done.
    by_all_chars (λ c, negb (PARAM c) || TRAILING_PARAM c) y. rewrite Hy in H. cbn in H. by rewrite H.
  - cbn [parameters_ok parameters_plain]. rewrite !andb_true_iff. intros [? ?]. auto.
Qed.
Lemma as_read_same r :
  record_ok r = true → (as_read r = r ↔ parameters_plain (parameters_ r) = true).
Proof.
  unfold record_ok. rewrite !andb_true_iff. intros [[_ Hok] _].
  rewrite <- (parameters_read_plain _ Hok). destruct r as [pr co ps ra]. unfold as_read. cbn.
  split; [by intros [= ->]|by intros ->].
Qed.

Section StreamLemmas.
Context {B : Type} `{WritableBlock B}.

(** pieces are written exactly when all of them fit *)
Lemma stream_pieces ds b :
  room_ok ds →
  if zlen (concat ds.*2) <=? mb_space b
  then ∃ b', stream (pieces ds) b = Ok (Some b') ∧ mb_bytes b' = mb_bytes b ++ concat ds.*2
  else stream (pieces ds) b = Ok None.
Proof.
  revert b. induction ds as [|[n d] ds IH]; intros b Hr.
  - cbn.
    pose proof (mb_space_nonneg b). destruct (_ <=? _) eqn:E; bool_lia;
      [|change (zlen []) with 0 in *; lia]. exists b. by rewrite app_nil_r.
  - change (pieces ((n, d) :: ds)) with (Ok (Some (n, d)) :: pieces ds).
    cbn [stream fmap list_fmap concat snd mbind outcome_bind]. destruct Hr as [Hn Hr].
    rewrite zlen_app. pose proof (zlen_nonneg (concat ds.*2)).
    destruct (mb_space b <? n) eqn:E1; bool_lia.
    { by rewrite (proj2 (Z.leb_gt _ _)) by lia. }
    assert (is_Some (mb_copy d b)) as [b1 E2] by (apply mb_copy_room; lia). rewrite E2.
    apply mb_copy_bytes in E2 as (Hb & Hs). specialize (IH b1 Hr). rewrite Hs in IH.
    destruct (zlen (concat ds.*2) <=? _) eqn:E3; bool_lia.
    + rewrite (proj2 (Z.leb_le _ _)) by lia. destruct IH as (b' & -> & Hb').
      exists b'. by rewrite Hb', Hb, <- (assoc_L (++)).
    + by rewrite (proj2 (Z.leb_gt _ _)) by lia.
Qed.

Lemma handleDataMessage_text r t (b : B) :
  command_ok (command_ r) = true → parameters_written r t →
  mb_bytes b = [] → IRC_MAXIMUM_FRAME_SIZE <= mb_space b →
  let bs := string_bytes (written_text r t) in
  if zlen bs <=? mb_space b
  then ∃ b', handleDataMessage r b = Ok (Some b') ∧ mb_bytes b' = bs
  else handleDataMessage r b = Ok None.
Proof.
  intros Hc Ht Hb Hs. destruct (record_pieces r t Hc Ht) as (ds & E & Hds & Hroom).
  unfold handleDataMessage, block_length. rewrite Hb, (proj2 (Z.leb_le _ _) Hs), E.
  cbn [ace_assert mbind outcome_bind]. pose proof (stream_pieces ds b Hroom) as Hp.
  rewrite Hds, Hb in Hp. exact Hp.
Qed.

(** a text that fits is read as the record it is the text of *)
Lemma written_read r r' t (b : B) address :
  command_ok (command_ r) = true → parameters_written r t → record_ok r' = true →
  written_text r t = message_text r' → mb_bytes b = [] → IRC_MAXIMUM_FRAME_SIZE <= mb_space b →
  zlen (string_bytes (message_text r')) <= mb_space b →
  ∃ b', handleDataMessage r b = Ok (Some b') ∧
        parse address (mb_bytes b') = Some (allocated address (as_read r')).
Proof.
  intros Hc Ht Hok Hw Hb Hs Hfit. pose proof (handleDataMessage_text r t b Hc Ht Hb Hs) as H'.
  cbv zeta in H'. rewrite Hw, (proj2 (Z.leb_le _ _) Hfit) in H'. destruct H' as (b' & E & Hb').
  exists b'. rewrite Hb'. split; [done|]. by apply parse_text.
Qed.

(** C26: IRC_Module_Streamer_T::handleDataMessage of any record of the grammar of RFC 1459
    (the user of the prefix without tabs and '@', as the scanner has it) without lists: when the message fits into the buffer, it is the text of the record, and
    the scanner and the parser of IRC read that record back (its command is a new string), but
    for the last parameter: it is read as it is exactly if it has blanks, or is not empty and
    does not begin with a colon; the colon that a last parameter without blanks begins with is
    lost, and nothing is read of an empty one (as_read; the streamer writes a colon before it
    only if it has blanks: colon_lost, empty_lost).  When the message does not fit, it is
    released *)
Theorem irc_roundtrip r (b : B) address :
  record_ok r = true → mb_bytes b = [] → IRC_MAXIMUM_FRAME_SIZE <= mb_space b →
  let bs := string_bytes (message_text r) in
  if zlen bs <=? mb_space b
  then ∃ b', handleDataMessage r b = Ok (Some b') ∧ mb_bytes b' = bs ∧
             parse address (mb_bytes b') = Some (allocated address (as_read r)) ∧
             (as_read r = r ↔ parameters_plain (parameters_ r) = true)
  else handleDataMessage r b = Ok None.
Proof.
  intros Hok Hb Hs bs. pose proof (as_read_same r Hok) as Hsame.
  pose proof Hok as Hok'. unfold record_ok in Hok'.
  rewrite !andb_true_iff, bool_decide_eq_true in Hok'. destruct Hok' as [[[_ Hc] _] Hr].
  destruct (no_lists_written r Hr) as (t & Hw & Et).
  pose proof (handleDataMessage_text r t b Hc Hw Hb Hs) as Ht. cbv zeta in Ht.
  rewrite Et in Ht. fold bs in Ht.
  destruct (zlen bs <=? mb_space b); [|done]. destruct Ht as (b' & E & Hb').
  exists b'. rewrite Hb'. split; [done|split; [done|split; [by apply parse_text|exact Hsame]]].
Qed.
End StreamLemmas.

Lemma irc_roundtrip_witness :
  let r := MkRecord (MkPrefix "nick" "user" "host.org") (STRING 7 "PRIVMSG")
             ["#channel"; "hello world"] [] in
  record_ok r = true ∧
  ∃ b', handleDataMessage r (([], 512%N) : list Z * N) = Ok (Some b') ∧
        b'.1 = string_bytes (message_text r) ∧
        parse 9 b'.1 = Some (allocated 9 (as_read r)) ∧
        (as_read r = r ↔ parameters_plain (parameters_ r) = true).
Proof.
  intros r. split; [by vm_compute|].
  exact (irc_roundtrip r (([], 512%N) : list Z * N) 9
           ltac:(by vm_compute) ltac:(done) ltac:(done)).
Defined.

(** A message that is a smiley loses its colon, and an empty topic is not read at all. *)
Definition sample_text (command : string) (ps : list string) : string :=
  message_text (MkRecord no_prefix (STRING 7 command) ps []).
Example colon_lost :
  sample_text "PRIVMSG" ["#c"; ":)"] = "PRIVMSG #c :)" +:+ crlf_ ∧
  parse 9 (string_bytes (sample_text "PRIVMSG" ["#c"; ":)"])) =
    Some (MkRecord no_prefix (STRING 9 "PRIVMSG") ["#c"; ")"] []).
Proof. by vm_compute. Qed.
Example empty_lost :
  parse 9 (string_bytes (sample_text "TOPIC" ["#c"; ""])) =
    Some (MkRecord no_prefix (STRING 9 "TOPIC") ["#c"] []).
Proof. by vm_compute. Qed.

(** ** Lists of items *)

(** items, each with a comma behind it *)
Fixpoint items_text (ps : list string) (t : string) : string :=
  match ps with [] => t | p :: ps' => p +:+ "," +:+ items_text ps' t end.
Fixpoint joined (ps : list string) : string :=
  match ps with [] => "" | [p] => p | p :: ps' => p +:+ "," +:+ joined ps' end.
Definition marked (p : string) : string := if has_space p then ":" +:+ p else p.
Definition no_spaces (l : list string) : bool := forallb (λ p, negb (has_space p)) l.

Lemma joined_app ps qs : qs ≠ [] → joined (ps ++ qs) = items_text ps (joined qs).
Proof.
  intros Hqs. induction ps as [|p ps IH]; [done|]. cbn [app items_text]. rewrite <- IH.
  destruct ps; [by destruct qs|done].
Qed.
Lemma joined_snoc ps p : joined (ps ++ [p]) = items_text ps p.
Proof. by apply (joined_app ps [p]). Qed.

Lemma no_spaces_last ps p : no_spaces (ps ++ [p]) = true → has_space p = false.
Proof.
  unfold no_spaces. rewrite forallb_app. cbn. rewrite andb_true_r, andb_true_iff.
  intros [_ Hp]. by apply negb_true_iff.
Qed.
Lemma joined_no_space l : no_spaces l = true → has_space (joined l) = false.
Proof.
  assert (∀ s t, has_space (s +:+ t) = has_space s || has_space t) as Ha.
  { intros s t. induction s as [|c s IH]; [done|]. autorewrite with str. cbn.
    by rewrite IH, orb_assoc. }
  induction l as [|p [|q l] IH]; [done|..].
  - cbn. rewrite andb_true_r. by intros ->%negb_true_iff.
  - intros [Hp%negb_true_iff Hl]%andb_true_iff.
    change (joined (p :: q :: l)) with (p +:+ "," +:+ joined (q :: l)).
    rewrite !Ha, Hp, (IH Hl). done.
Qed.

(** the items of a list at [i], with more parameters behind them *)
Lemma prints_items first second ranges ps rest t i :
  first <= i → i + zlen ps <= second + 1 → rest ≠ [] →
  prints (parameter_steps ((first, second) :: ranges) (i + zlen ps) rest) t →
  prints (parameter_steps ((first, second) :: ranges) i (ps ++ rest)) (items_text ps t).
Proof.
  intros Hi Hl Hrest Ht. revert i Hi Hl Ht. induction ps as [|p ps IH]; intros i Hi Hl Ht.
  - by rewrite Z.add_0_r in Ht.
  - rewrite zlen_cons in *. pose proof (zlen_nonneg ps).
    cbn [app parameter_steps advance]. rewrite (proj2 (Z.ltb_ge _ _)) by lia.
    cbn [separator]. rewrite (proj2 (Z.leb_le _ _) Hi), (proj2 (Z.leb_le _ _)) by lia.
    cbn [andb]. destruct (ps ++ rest) as [|q qs] eqn:E;
      [by apply app_eq_nil in E as [_ ?]|].
    change (items_text (p :: ps) t) with (p +:+ "," +:+ items_text ps t).
    rewrite <- string_app_assoc, <- E.
    apply (prints_app [text p; put ","]).
    { apply prints_cons; [apply prints_text|apply prints_put]. }
    rewrite E. apply IH; [lia..|]. by replace (i + 1 + zlen ps) with (i + (1 + zlen ps)) by lia.
Qed.

(** the last parameter, behind the lists or, as an item, within one *)
Lemma prints_last ranges p i :
  has_space p = false ∨ separator (advance ranges i) i = " "%char →
  prints (parameter_steps ranges i [p]) (marked p).
Proof.
  intros Hp. cbn. unfold marked. destruct (has_space p); [|apply prints_text].
  destruct Hp as [|Hp]; [done|]. rewrite Hp. apply prints_cons; [apply prints_put|apply prints_text].
Qed.

Lemma steps_advance ranges ranges' i ps :
  advance ranges i = advance ranges' i →
  parameter_steps ranges i ps = parameter_steps ranges' i ps.
Proof. destruct ps; [done|]. cbn [parameter_steps]. by intros ->. Qed.

(** a list that nothing follows *)
Lemma prints_joined i l :
  l ≠ [] → no_spaces l = true →
  prints (parameter_steps [(i, i + zlen l - 1)] i l) (joined l).
Proof.
  intros Hne Hl. destruct (exists_last Hne) as (ps & p & ->).
  apply no_spaces_last in Hl. rewrite joined_snoc, zlen_app. change (zlen [p]) with 1.
  pose proof (zlen_nonneg ps). apply prints_items; [lia|lia|done|].
  pose proof (prints_last [(i, i + (zlen ps + 1) - 1)] p (i + zlen ps) (or_introl Hl)) as Hp.
  unfold marked in Hp. by rewrite Hl in Hp.
Qed.

(** parameters behind a list *)
Lemma prints_list_last ps p :
  prints (parameter_steps [(0, zlen ps - 1)] 0 (ps ++ [p])) (items_text ps (marked p)).
Proof.
  pose proof (zlen_nonneg ps). apply prints_items; [lia|lia|done|]. apply prints_last. right.
  cbn. by rewrite (proj2 (Z.ltb_lt _ _)) by lia.
Qed.
