(* ===== verification/IrcClient.v ===== *)
(** * The IRC handler of the client (test_i/IRC_client/IRC_client_module_IRChandler.cpp,
      protocol/irc/irc_message.cpp)

    The module behind the parser: it answers PING, follows the registration, and writes the
    requests of the user.  The base class (of the stream library) hands the messages on to
    the subscribers; what the handler asks it to send upstream is logged in [replied], and
    is written by the streamer of [IrcWire]. *)
From S2P Require Import Prelude MessageBlock Chars Decimal IrcCodes IrcNumerics IrcTools IrcWire StateMachine IrcRegistration.
Import IRC_Codes IRC_Record.

(** [static_cast<IRC_NumericCommand_t>] of the two values that are not commands *)
Definition CommandTypeToString (commandType_in : CommandType) : string :=
  match commandType_in with
  | KNOCK => "KNOCK"
  | IRC_COMMANDTYPE_MAX => IrcNumerics.CommandToString 1041
  | IRC_COMMANDTYPE_INVALID => IrcNumerics.CommandToString 1042
  | c => IrcTools.CommandToString c
  end.

(** struct IRC_LoginOptions; the union of the host name *)
Inductive Hostname := H_MODE (mode : Z) | H_STRING (s : string) | H_INVALID.
Record User := MkUser {
  userName : string; hostName : Hostname; serverName : string; realName : string
}.
Record IRC_LoginOptions := MkLoginOptions {
  password : string; nickname : string; login_user : User; channel : string
}.
(** the members of struct IRC_ProtocolConfiguration that the handler reads *)
Record IRC_ProtocolConfiguration := MkProtocolConfiguration {
  loginOptions : IRC_LoginOptions; automaticPong : bool
}.

Inductive session_message := STREAM_SESSION_MESSAGE_BEGIN | STREAM_SESSION_MESSAGE_END
  | STREAM_SESSION_MESSAGE_OTHER.

(** What a wait on the condition returns. *)
Inductive waited := Woken | TimedOut | Failed.

Section Handler.
Context {M : Type} `{SyncBase IRC_RegistrationStateType M}.

(** The state of the handler, with the nick name of the session, the number of the
    broadcasts of the condition, and what was given to [reply]. *)
Record IRCHandler := MkHandler {
  isInitialized_ : bool;
  connectionIsAlive_ : bool;
  initialRegistration_ : bool;
  receivedInitialNotice_ : bool;
  state_ : M;
  nickName : string;
  broadcasts : nat;
  replied : list IRC_Record
}.

Definition set_alive (alive : bool) (h : IRCHandler) : IRCHandler :=
  MkHandler (isInitialized_ h) alive (initialRegistration_ h) (receivedInitialNotice_ h)
    (state_ h) (nickName h) (broadcasts h) (replied h).
Definition broadcast (h : IRCHandler) : IRCHandler :=
  MkHandler (isInitialized_ h) (connectionIsAlive_ h) (initialRegistration_ h)
    (receivedInitialNotice_ h) (state_ h) (nickName h) (S (broadcasts h)) (replied h).
Definition set_nickName (n : string) (h : IRCHandler) : IRCHandler :=
  MkHandler (isInitialized_ h) (connectionIsAlive_ h) (initialRegistration_ h)
    (receivedInitialNotice_ h) (state_ h) n (broadcasts h) (replied h).
Definition set_noticed (h : IRCHandler) : IRCHandler :=
  MkHandler (isInitialized_ h) (connectionIsAlive_ h) (initialRegistration_ h) true
    (state_ h) (nickName h) (broadcasts h) (replied h).
Definition reply (r : IRC_Record) (h : IRCHandler) : IRCHandler :=
  MkHandler (isInitialized_ h) (connectionIsAlive_ h) (initialRegistration_ h)
    (receivedInitialNotice_ h) (state_ h) (nickName h) (broadcasts h) (replied h ++ [r]).

(** the constructor *)
Definition new_handler (m : M) : IRCHandler := MkHandler false false true false m "" 0 [].

(** [initialized]: whether [inherited::initialize] sets [isInitialized_] *)
Definition initialize (initialized : bool) (h : IRCHandler) : IRCHandler :=
  if isInitialized_ h then
    MkHandler initialized false true false (sync_change (state_ h) IRC_REGISTRATION_STATE_NICK)
      (nickName h) (broadcasts h) (replied h)
  else
    MkHandler initialized (connectionIsAlive_ h) (initialRegistration_ h)
      (receivedInitialNotice_ h) (state_ h) (nickName h) (broadcasts h) (replied h).

(** a message of a closed connection is released *)
Definition sendMessage (r : IRC_Record) (h : IRCHandler) : IRCHandler :=
  if connectionIsAlive_ h then reply r h else h.

(** [address]: of the string that is allocated for a command *)
Variable address : Z.
Definition allocateMessage (type_in : CommandType) (ps : list string) (ranges : list (Z * Z)) :
    IRC_Record :=
  MkRecord no_prefix (STRING address (CommandTypeToString type_in)) ps ranges.

Definition registered (h : IRCHandler) : IRCHandler :=
  MkHandler (isInitialized_ h) (connectionIsAlive_ h) false (receivedInitialNotice_ h)
    (change (state_ h) IRC_REGISTRATION_STATE_FINISHED).1 (nickName h) (broadcasts h) (replied h).

(** [data_r.parameters_.back ()] of a PING without parameters is undefined. *)
Definition handleDataMessage (c : IRC_ProtocolConfiguration) (data_r : IRC_Record)
    (h : IRCHandler) : outcome IRCHandler :=
  match command_ data_r with
  | NUMERIC numeric =>
      Ok (if (numeric =? RPL_WELCOME) && initialRegistration_ h then registered h else h)
  | STRING _ s =>
      match CommandToType s with
      | NOTICE => Ok (set_noticed h)
      | PING =>
          if automaticPong c then
            p ← deref (last (parameters_ data_r));
            Ok (sendMessage (allocateMessage PONG [p] []) h)
          else Ok h
      | _ => Ok h
      end
  | INVALID => Ok h
  end.

Definition handleSessionMessage (c : IRC_ProtocolConfiguration) (m : session_message)
    (h : IRCHandler) : IRCHandler :=
  match m with
  | STREAM_SESSION_MESSAGE_BEGIN =>
      broadcast (set_alive true (set_nickName (nickname (loginOptions c)) h))
  | STREAM_SESSION_MESSAGE_END => broadcast (set_alive false h)
  | STREAM_SESSION_MESSAGE_OTHER => h
  end.

(** ** The requests *)
Definition single (s : string) : list string := if decide (s = "") then [] else [s].
Definition pass (password_in : string) : IRCHandler → IRCHandler :=
  sendMessage (allocateMessage PASS [password_in] []).
Definition nick (nickName_in : string) : IRCHandler → IRCHandler :=
  sendMessage (allocateMessage NICK [nickName_in] []).
Definition user (userName_in hostName_in serverName_in realName_in : string) :
    IRCHandler → IRCHandler :=
  sendMessage (allocateMessage USER [userName_in; hostName_in; serverName_in; realName_in] []).
Definition quit (reason_in : string) : IRCHandler → IRCHandler :=
  sendMessage (allocateMessage QUIT (single reason_in) []).

Definition join_ranges (channels keys : Z) : list (Z * Z) :=
  if keys =? 0 then []
  else
    (if 1 <? channels then [(0, channels - 1)] else []) ++
    (if 1 <? keys then [(channels, channels + keys - 1)] else []).
Definition join (channels_in keys_in : list string) : IRCHandler → IRCHandler :=
  sendMessage (allocateMessage JOIN (channels_in ++ keys_in)
                 (join_ranges (zlen channels_in) (zlen keys_in))).
Definition part (channels_in : list string) : IRCHandler → IRCHandler :=
  sendMessage (allocateMessage PART channels_in []).
Definition mode (target_in : string) (mode_in : ascii) (enable_in : bool)
    (parameters_in : list string) : IRCHandler → IRCHandler :=
  sendMessage (allocateMessage MODE
    ([target_in; (if enable_in then "+" else "-") +:+ String mode_in ""] ++ parameters_in) []).
Definition topic (channel_in topic_in : string) : IRCHandler → IRCHandler :=
  sendMessage (allocateMessage TOPIC ([channel_in] ++ single topic_in) []).
Definition whole_range (l : list string) : list (Z * Z) :=
  if decide (l = []) then [] else [(0, zlen l - 1)].
Definition names (channels_in : list string) : IRCHandler → IRCHandler :=
  sendMessage (allocateMessage NAMES channels_in (whole_range channels_in)).
Definition list_ (channels_in : list string) : IRCHandler → IRCHandler :=
  sendMessage (allocateMessage LIST channels_in (whole_range channels_in)).
Definition invite (nick_in channel_in : string) : IRCHandler → IRCHandler :=
  sendMessage (allocateMessage INVITE [nick_in; channel_in] []).
Definition kick (channel_in nick_in comment_in : string) : IRCHandler → IRCHandler :=
  sendMessage (allocateMessage KICK ([channel_in; nick_in] ++ single comment_in) []).
Definition knock (channel_in comment_in : string) : IRCHandler → IRCHandler :=
  sendMessage (allocateMessage KNOCK ([channel_in] ++ single comment_in) []).
Definition several_range (l : list string) : list (Z * Z) :=
  if 1 <? zlen l then [(0, zlen l - 1)] else [].
Definition privmsg (receivers_in : list string) (message_in : string) (h : IRCHandler) :
    outcome IRCHandler :=
  ace_assert (negb (bool_decide (message_in = "")));;
  Ok (sendMessage (allocateMessage PRIVMSG (receivers_in ++ [message_in])
                     (several_range receivers_in)) h).
Definition notice (receivers_in : list string) (message_in : string) (h : IRCHandler) :
    outcome IRCHandler :=
  ace_assert (negb (bool_decide (message_in = "")));;
  Ok (sendMessage (allocateMessage NOTICE (receivers_in ++ [message_in])
                     (several_range receivers_in)) h).
Definition who (name_in : string) (operatorsOnly_in : bool) : IRCHandler → IRCHandler :=
  sendMessage (allocateMessage WHO ([name_in] ++ if operatorsOnly_in then ["o"] else []) []).
Definition whois (servername_in : string) (nicknames_in : list string) :
    IRCHandler → IRCHandler :=
  sendMessage (allocateMessage WHOIS (single servername_in ++ nicknames_in) []).
Definition whowas (nick_in : string) (count_in : Z) (servername_in : string) :
    IRCHandler → IRCHandler :=
  sendMessage (allocateMessage WHOWAS
    ([nick_in] ++ (if count_in =? 0 then [] else [pretty count_in]) ++ single servername_in) []).
Definition away (message_in : string) : IRCHandler → IRCHandler :=
  sendMessage (allocateMessage AWAY (single message_in) []).
Definition users (server_in : string) : IRCHandler → IRCHandler :=
  sendMessage (allocateMessage USERS (single server_in) []).
Definition userhost (nicknames_in : list string) : IRCHandler → IRCHandler :=
  sendMessage (allocateMessage USERHOST nicknames_in []).

(** ** The registration *)

(** While a thread waits on the condition, the others go on. *)
Definition condition_wait : Type := IRCHandler → waited * IRCHandler.

Definition until (ready : IRCHandler → bool) (wait : condition_wait) (h : IRCHandler) :
    bool * IRCHandler :=
  if ready h then (true, h)
  else match wait h with
       | (Failed, h) => (false, h)
       | (_, h) => (ready h, h)
       end.
Definition host_string (n : Hostname) : option string :=
  match n with
  | H_STRING s => Some s
  | H_MODE mode => Some (pretty mode)
  | H_INVALID => None
  end.
Definition registerc (o : IRC_LoginOptions) (wait1 wait2 : condition_wait) (h : IRCHandler) :
    bool * IRCHandler :=
  let '(ok, h) := until connectionIsAlive_ wait1 h in
  if negb ok then (false, h)
  else
    let '(ok, h) := until receivedInitialNotice_ wait2 h in
    if negb ok then (false, h)
    else
      let h := nick (nickname o) (pass (password o) h) in
      let u := login_user o in
      match host_string (hostName u) with
      | None => (false, h)
      | Some hostname => (true, user (userName u) hostname (serverName u) (realName u) h)
      end.
Definition wait (w : condition_wait) (h : IRCHandler) : bool * IRCHandler :=
  let '(_, h) := w h in (negb (initialRegistration_ h), h).

(** ** Runs *)
Inductive event := Data (r : IRC_Record) | Session (m : session_message).
Definition handle (c : IRC_ProtocolConfiguration) (e : event) (h : IRCHandler) :
    outcome IRCHandler :=
  match e with
  | Data r => handleDataMessage c r h
  | Session m => Ok (handleSessionMessage c m h)
  end.
Fixpoint run (c : IRC_ProtocolConfiguration) (es : list event) (h : IRCHandler) :
    outcome IRCHandler :=
  match es with
  | [] => Ok h
  | e :: es' => h' ← handle c e h; run c es' h'
  end.
Definition is_welcome (e : event) : bool :=
  match e with
  | Data r => match command_ r with NUMERIC n => n =? RPL_WELCOME | _ => false end
  | Session _ => false
  end.

(** what a message does to the registration *)
Lemma sendMessage_registration r h :
  state_ (sendMessage r h) = state_ h ∧ initialRegistration_ (sendMessage r h) = initialRegistration_ h.
Proof. unfold sendMessage. by destruct (connectionIsAlive_ h). Qed.
Lemma handle_registration c e h h' :
  handle c e h = Ok h' →
  (state_ h', initialRegistration_ h') =
    if is_welcome e && initialRegistration_ h
    then ((change (state_ h) IRC_REGISTRATION_STATE_FINISHED).1, false)
    else (state_ h, initialRegistration_ h).
Proof.
  destruct e as [r|m]; cbn.
  - unfold handleDataMessage. destruct (command_ r) as [n|a s|]; [cbn| |].
    + destruct (n =? RPL_WELCOME), (initialRegistration_ h) eqn:Hi; intros [= <-]; cbn;
        by rewrite ?Hi.
    + destruct (CommandToType s); intros E; simplify_eq; try done.
      destruct (automaticPong c); simplify_eq; [|done].
      destruct (last (parameters_ r)) as [p|]; cbn in *; [|done]. simplify_eq.
      by destruct (sendMessage_registration (allocateMessage PONG [p] []) h) as [-> ->].
    + by intros [= <-].
  - intros [= <-]. by destruct m.
Qed.
Lemma run_registration c es h h' :
  run c es h = Ok h' →
  (state_ h', initialRegistration_ h') =
    if existsb is_welcome es && initialRegistration_ h
    then ((change (state_ h) IRC_REGISTRATION_STATE_FINISHED).1, false)
    else (state_ h, initialRegistration_ h).
Proof.
  revert h. induction es as [|e es IH]; intros h; cbn; [by intros [= <-]|].
  destruct (handle c e h) as [h1| |] eqn:E; cbn; try done. intros Hr.
  apply handle_registration in E. specialize (IH h1 Hr). rewrite IH. clear Hr IH.
  destruct (is_welcome e), (initialRegistration_ h) eqn:Hi, (existsb is_welcome es);
    cbn in *; injection E as -> ->; cbn; by rewrite ?Hi.
Qed.

(** The registration of a new IRC_Client_Module_IRCHandler: after any sequence of
    messages that it handles, the registration machine is FINISHED exactly when one of them
    was RPL_WELCOME, and it has not moved otherwise; the flag that wait () returns says the
    same *)
Theorem welcome_finishes c m es h' :
  sync_state m = initial_state → run c es (new_handler m) = Ok h' →
  sync_state (state_ h') =
    (if existsb is_welcome es then IRC_REGISTRATION_STATE_FINISHED else initial_state) ∧
  initialRegistration_ h' = negb (existsb is_welcome es).
Proof.
  intros Hm Hr. apply run_registration in Hr. cbn in Hr. rewrite andb_true_r in Hr.
  unfold initial_state in *.
  destruct (existsb is_welcome es); injection Hr as -> ->; [|done].
  unfold change. rewrite Hm. cbn. by rewrite sync_state_change.
Qed.

(** A handler that is initialized for another connection never finishes the
    registration: initialize () sets the state to NICK instead of PASS, and the machine
    refuses FINISHED there, although wait () says that the client is registered *)
Theorem reinitialized_never_finishes c initialized h es h' :
  isInitialized_ h = true → run c es (initialize initialized h) = Ok h' →
  sync_state (state_ h') = IRC_REGISTRATION_STATE_NICK ∧
  initialRegistration_ h' = negb (existsb is_welcome es).
Proof.
  intros Hi Hr. apply run_registration in Hr. unfold initialize in Hr. rewrite Hi in Hr.
  cbn in Hr. rewrite andb_true_r in Hr.
  destruct (existsb is_welcome es); injection Hr as -> ->; [|by rewrite sync_state_change].
  unfold change. rewrite sync_state_change; cbn; by rewrite sync_state_change.
Qed.

(** IRC_Client_Module_IRCHandler::registerc: when the connection is established and the
    initial notice has arrived, the client sends PASS, NICK and USER, in this order; when the
    kind of the host name is invalid, it fails behind NICK; when the connection is not
    established, or the notice does not arrive, nothing is sent *)
Theorem registerc_sends o wait1 wait2 h :
  let message t ps := allocateMessage t ps [] in
  let first := [message PASS [password o]; message NICK [nickname o]] in
  match until connectionIsAlive_ wait1 h with
  | (true, h1) =>
      match until receivedInitialNotice_ wait2 h1 with
      | (true, h2) =>
          connectionIsAlive_ h2 = true →
          let '(ok, h') := registerc o wait1 wait2 h in
          match host_string (hostName (login_user o)) with
          | Some hostname =>
              ok = true ∧ replied h' = replied h2 ++ first ++
                [message USER [userName (login_user o); hostname;
                               serverName (login_user o); realName (login_user o)]]
          | None => ok = false ∧ replied h' = replied h2 ++ first
          end
      | (false, h2) => registerc o wait1 wait2 h = (false, h2)
      end
  | (false, h1) => registerc o wait1 wait2 h = (false, h1)
  end.
Proof.
  intros message first. unfold registerc.
  destruct (until connectionIsAlive_ wait1 h) as [[] h1]; cbn [negb]; [|done].
  destruct (until receivedInitialNotice_ wait2 h1) as [[] h2]; cbn [negb]; [|done].
  intros Ha. unfold user, nick, pass.
  assert (∀ r h0, connectionIsAlive_ h0 = true → sendMessage r h0 = reply r h0) as Hs.
  { intros r h0 E. unfold sendMessage. by rewrite E. }
  destruct (host_string _); rewrite (Hs _ h2 Ha), (Hs _ (reply _ h2) Ha);
    [rewrite (Hs _ (reply _ (reply _ h2)) Ha)|]; (split; [done|]);
    cbn [reply replied]; by rewrite <- !(assoc_L (++)).
Qed.
End Handler.

(** ** The requests of the user

    The specification: the command of a request, and its parameters as RFC 1459 has them
    (KNOCK, which it does not have, has a channel and a comment); a list is one parameter, its
    items are separated by commas. *)
Inductive request :=
  | Pass (password : string) | Nick (nickname : string) | User_ (name host server real : string)
  | Quit (reason : string) | Join (channels keys : list string) | Part (channels : list string)
  | Mode (target : string) (mode : ascii) (enable : bool) (parameters : list string)
  | Topic (channel topic : string) | Names (channels : list string)
  | List_ (channels : list string) | Invite (nick channel : string)
  | Kick (channel nick comment : string) | Knock (channel comment : string)
  | Privmsg (receivers : list string) (message : string)
  | Notice (receivers : list string) (message : string)
  | Who (name : string) (operators : bool) | Whois (server : string) (nicks : list string)
  | Whowas (nick : string) (count : Z) (server : string) | Away (message : string)
  | Users (server : string) | Userhost (nicks : list string).

Definition rfc_command (q : request) : CommandType :=
  match q with
  | Pass _ => PASS | Nick _ => NICK | User_ _ _ _ _ => USER | Quit _ => QUIT | Join _ _ => JOIN
  | Part _ => PART | Mode _ _ _ _ => MODE | Topic _ _ => TOPIC | Names _ => NAMES
  | List_ _ => LIST | Invite _ _ => INVITE | Kick _ _ _ => KICK | Knock _ _ => KNOCK
  | Privmsg _ _ => PRIVMSG | Notice _ _ => NOTICE | Who _ _ => WHO | Whois _ _ => WHOIS
  | Whowas _ _ _ => WHOWAS | Away _ => AWAY | Users _ => USERS | Userhost _ => USERHOST
  end.
Definition comma_list (l : list string) : list string :=
  if decide (l = []) then [] else [joined l].
Definition rfc_parameters (q : request) : list string :=
  match q with
  | Pass p => [p]
  | Nick n => [n]
  | User_ n h s r => [n; h; s; r]
  | Quit reason => single reason
  | Join channels keys => comma_list channels ++ comma_list keys
  | Part channels => comma_list channels
  | Mode target m enable ps =>
      [target; (if enable then "+" else "-") +:+ String m ""] ++ ps
  | Topic channel topic => [channel] ++ single topic
  | Names channels | List_ channels => comma_list channels
  | Invite n channel => [n; channel]
  | Kick channel n comment => [channel; n] ++ single comment
  | Knock channel comment => [channel] ++ single comment
  | Privmsg receivers m | Notice receivers m => comma_list receivers ++ [m]
  | Who n operators => [n] ++ if operators then ["o"] else []
  | Whois server nicks => single server ++ comma_list nicks
  | Whowas n count server =>
      (* <nickname> [<count> [<server>]] *)
      if decide (server = "") then [n] ++ (if count =? 0 then [] else [pretty count])
      else [n; pretty count; server]
  | Away m => single m
  | Users server => single server
  | Userhost nicks => nicks
  end.

(** the requests that the client writes as such: the lists are those of one item, the keys of
    one channel, and the lists of NAMES and LIST, whose items have no blanks; a message is not
    empty (an assertion); and a WHOWAS at a server has a count *)
Definition one (l : list string) : bool := bool_decide (length l = 1%nat).
Definition served (q : request) : bool :=
  match q with
  | Join channels keys => one channels && no_spaces keys
  | Part channels => one channels
  | Privmsg receivers m | Notice receivers m => one receivers && negb (bool_decide (m = ""))
  | Whois _ nicks => one nicks
  | Names channels | List_ channels => no_spaces channels
  | Whowas _ count server => negb (count =? 0) || bool_decide (server = "")
  | _ => true
  end.

Section Requests.
Context {M : Type} `{SyncBase IRC_RegistrationStateType M}.
Context {B : Type} `{WritableBlock B}.
Variable address : Z.
Implicit Types h : @IRCHandler M.

(** the operation of a request *)
Definition perform (q : request) (h : @IRCHandler M) : outcome (@IRCHandler M) :=
  match q with
  | Pass p => Ok (pass address p h)
  | Nick n => Ok (nick address n h)
  | User_ n ho s r => Ok (user address n ho s r h)
  | Quit reason => Ok (quit address reason h)
  | Join channels keys => Ok (join address channels keys h)
  | Part channels => Ok (part address channels h)
  | Mode target m enable ps => Ok (mode address target m enable ps h)
  | Topic ch t => Ok (topic address ch t h)
  | Names channels => Ok (names address channels h)
  | List_ channels => Ok (list_ address channels h)
  | Invite n ch => Ok (invite address n ch h)
  | Kick ch n comment => Ok (kick address ch n comment h)
  | Knock ch comment => Ok (knock address ch comment h)
  | Privmsg receivers m => privmsg address receivers m h
  | Notice receivers m => notice address receivers m h
  | Who n operators => Ok (who address n operators h)
  | Whois server nicks => Ok (whois address server nicks h)
  | Whowas n count server => Ok (whowas address n count server h)
  | Away m => Ok (away address m h)
  | Users server => Ok (users address server h)
  | Userhost nicks => Ok (userhost address nicks h)
  end.

(** the parameters of the record of a request, and its lists *)
Definition request_parameters (q : request) : list string * list (Z * Z) :=
  match q with
  | Join channels keys => (channels ++ keys, join_ranges (zlen channels) (zlen keys))
  | Part channels => (channels, [])
  | Names channels | List_ channels => (channels, whole_range channels)
  | Privmsg receivers m | Notice receivers m => (receivers ++ [m], several_range receivers)
  | Whois server nicks => (single server ++ nicks, [])
  | Whowas n count server =>
      ([n] ++ (if count =? 0 then [] else [pretty count]) ++ single server, [])
  | q => (rfc_parameters q, [])
  end.
Definition request_record (q : request) : IRC_Record :=
  allocateMessage address (rfc_command q) (request_parameters q).1 (request_parameters q).2.
(** what a server is to read *)
Definition rfc_record (q : request) : IRC_Record :=
  allocateMessage address (rfc_command q) (rfc_parameters q) [].

Lemma perform_record q h :
  connectionIsAlive_ h = true → served q = true →
  perform q h = Ok (reply (request_record q) h).
Proof.
  intros Ha Hp.
  assert (∀ r, sendMessage r h = reply r h) as Hs by (intros r; unfold sendMessage; by rewrite Ha).
  destruct q; cbn [perform];
    try (unfold pass, nick, user, quit, join, part, mode, topic, names, list_, invite, kick, knock,
      who, whois, whowas, away, users, userhost; by rewrite Hs);
    cbn in Hp; apply andb_true_iff in Hp as [_ Hm]; unfold privmsg, notice; rewrite Hm;
    cbn [ace_assert mbind outcome_bind]; by rewrite Hs.
Qed.

Lemma command_name_ok q : command_ok (STRING address (CommandTypeToString (rfc_command q))) = true.
Proof. by destruct q. Qed.

Lemma one_inv l : one l = true → ∃ p, l = [p].
Proof.
  intros Hl%bool_decide_eq_true. destruct l as [|p []]; try done. by exists p.
Qed.
(** the keys of one channel *)
Lemma join_one c keys :
  no_spaces keys = true →
  prints (parameter_steps (join_ranges 1 (zlen keys)) 0 ([c] ++ keys))
    (list_text ([c] ++ comma_list keys)).
Proof.
  intros Hk. destruct keys as [|k1 [|k2 keys]]; [apply prints_list..|].
  set (keys' := k1 :: k2 :: keys) in *.
  assert (1 < zlen keys') as Hl by (unfold keys'; rewrite !zlen_cons; pose proof (zlen_nonneg keys); lia).
  unfold join_ranges. rewrite (proj2 (Z.eqb_neq _ _)) by lia.
  rewrite (proj2 (Z.ltb_lt 1 (zlen _)) Hl).
  change (list_text _) with (c +:+ " " +:+ list_text [joined keys']).
  cbn [list_text]. rewrite (joined_no_space keys' Hk), <- string_app_assoc.
  cbn [app Z.ltb Z.compare Pos.compare Pos.compare_cont parameter_steps advance separator].
  rewrite (proj2 (Z.ltb_ge _ _)) by lia. cbn [separator andb Z.leb Z.compare].
  apply (prints_app [text c; put " "]); [apply prints_cons; [apply prints_text|apply prints_put]|].
  by apply (prints_joined 1).
Qed.
(** several channels and keys *)
Lemma join_several channels keys :
  1 < zlen channels → keys ≠ [] → no_spaces keys = true →
  prints (parameter_steps (join_ranges (zlen channels) (zlen keys)) 0 (channels ++ keys))
    (joined (channels ++ keys)).
Proof.
  intros Hn Hne Hk. rewrite joined_app by done.
  assert (0 < zlen keys) as Hl by (destruct keys; [done|]; rewrite zlen_cons; pose proof (zlen_nonneg keys); lia).
  unfold join_ranges. rewrite (proj2 (Z.eqb_neq _ _)) by lia. rewrite (proj2 (Z.ltb_lt _ _) Hn).
  cbn [app]. apply prints_items; [lia|lia|done|]. rewrite Z.add_0_l.
  destruct (1 <? zlen keys) eqn:E; bool_lia.
  - rewrite (steps_advance _ [(zlen channels, zlen channels + zlen keys - 1)]).
    + by apply prints_joined.
    + cbn [advance]. rewrite (proj2 (Z.ltb_lt _ _)) by lia. by rewrite (proj2 (Z.ltb_ge _ _)) by lia.
  - destruct keys as [|k [|k2 keys]]; [done| |rewrite !zlen_cons in E; pose proof (zlen_nonneg keys); lia].
    apply (no_spaces_last []) in Hk.
    pose proof (prints_last [(0, zlen channels - 1)] k (zlen channels) (or_introl Hk)) as Hp.
    unfold marked in Hp. by rewrite Hk in Hp.
Qed.

(** a WHOWAS that has a count if it has a server *)
Lemma whowas_parameters n count server :
  negb (count =? 0) || bool_decide (server = "") = true →
  [n] ++ (if count =? 0 then [] else [pretty count]) ++ single server =
  if decide (server = "") then [n] ++ (if count =? 0 then [] else [pretty count])
  else [n; pretty count; server].
Proof.
  intros Hs. unfold single. destruct (decide (server = "")) as [->|Hne].
  - by destruct (count =? 0).
  - rewrite bool_decide_false, orb_false_r in Hs by done. apply negb_true_iff in Hs. by rewrite Hs.
Qed.

(** the parameters are written as those of the RFC *)
Lemma served_written q :
  served q = true →
  prints (parameter_steps (request_parameters q).2 0 (request_parameters q).1)
    (list_text (rfc_parameters q)).
Proof.
  assert (∀ l, no_spaces l = true →
    prints (parameter_steps (whole_range l) 0 l) (list_text (comma_list l))) as Hwhole.
  { intros l Hl. unfold whole_range, comma_list. destruct (decide (l = [])) as [->|Hne].
    - apply prints_nil.
    - cbn [list_text]. rewrite (joined_no_space l Hl). by apply (prints_joined 0). }
  intros Hs. destruct q; cbn [served request_parameters rfc_parameters fst snd] in *;
    try apply prints_list; try by apply Hwhole.
  - apply andb_true_iff in Hs as [[c ->]%one_inv Hk]. by apply join_one.
  - apply one_inv in Hs as [c ->]. apply prints_list.
  - apply andb_true_iff in Hs as [[c ->]%one_inv _]. apply prints_list.
  - apply andb_true_iff in Hs as [[c ->]%one_inv _]. apply prints_list.
  - apply one_inv in Hs as [c ->]. apply prints_list.
  - rewrite (whowas_parameters _ count server Hs). apply prints_list.
Qed.

Lemma request_parameters_empty q :
  (request_parameters q).1 = [] ↔ rfc_parameters q = [].
Proof.
  assert (∀ l, l = [] ↔ comma_list l = []) as Hc.
  { intros l. unfold comma_list. by destruct (decide (l = [])). }
  destruct q; cbn [request_parameters rfc_parameters fst]; try done; try apply Hc.
  - split; [intros [-> ->]%app_eq_nil|intros [E1%Hc E2%Hc]%app_eq_nil; by subst]; done.
  - split; intros [_ ?]%app_eq_nil; done.
  - split; intros [_ ?]%app_eq_nil; done.
  - split; intros [-> E]%app_eq_nil; by apply Hc in E as ->.
  - split; [done|]. by destruct (decide (server = "")).
Qed.

(** A record whose parameters are written as other ones is read with these. *)
Lemma read_as type_in ps ranges ps' (b : B) address' :
  command_ok (STRING address (CommandTypeToString type_in)) = true →
  prints (parameter_steps ranges 0 ps) (list_text ps') → (ps = [] ↔ ps' = []) →
  parameters_ok ps' = true →
  mb_bytes b = [] → IRC_MAXIMUM_FRAME_SIZE <= mb_space b →
  zlen (string_bytes (message_text (allocateMessage address type_in ps' []))) <= mb_space b →
  ∃ b', IrcWire.handleDataMessage (allocateMessage address type_in ps ranges) b = Ok (Some b') ∧
        parse address' (mb_bytes b') =
          Some (allocateMessage address' type_in (parameters_read ps') []).
Proof.
  intros Hc Hw Hiff Hok Hb Hs Hfit.
  apply (written_read (allocateMessage address type_in ps ranges)
           (allocateMessage address type_in ps' []) (list_text ps') b address'); try done.
  - unfold record_ok, allocateMessage. cbn [prefix_ command_ parameters_ parameterRanges_].
    by rewrite Hc, Hok.
  - unfold written_text, message_text, allocateMessage, parameters_text.
    cbn [prefix_ command_ parameters_]. do 2 f_equal.
    destruct (decide (ps = [])) as [Hps|Hps].
    + apply Hiff in Hps as ->. done.
    + rewrite decide_False by (by rewrite <- Hiff). by rewrite !string_app_assoc.
Qed.

(** C25: the requests of IRC_Client_Module_IRCHandler.  On an open connection, a request whose
    lists have one item (NAMES, LIST and the keys of one channel: any number of items without
    blanks), whose message is not empty, whose WHOWAS has a count if it has a server, and
    whose parameters are some that RFC 1459 can express (parameters_ok: all but the last are
    not empty, do not begin with a colon and have no blanks) gives one message to the
    streamer, and what the streamer writes, if it fits, is read as the command of the request
    with its parameters in the order of RFC 1459; but a last parameter without blanks loses
    the colon that it begins with, and is not read at all if it is empty: the parameters are
    read as they are exactly if the last is not such (parameters_plain) *)
Theorem requests_served q h (b : B) address' :
  connectionIsAlive_ h = true → served q = true → parameters_ok (rfc_parameters q) = true →
  mb_bytes b = [] → IRC_MAXIMUM_FRAME_SIZE <= mb_space b →
  zlen (string_bytes (message_text (rfc_record q))) <= mb_space b →
  ∃ r b', perform q h = Ok (reply r h) ∧ IrcWire.handleDataMessage r b = Ok (Some b') ∧
    parse address' (mb_bytes b') =
      Some (allocateMessage address' (rfc_command q) (parameters_read (rfc_parameters q)) []) ∧
    (parameters_read (rfc_parameters q) = rfc_parameters q ↔
     parameters_plain (rfc_parameters q) = true).
Proof.
  intros Ha Hs Hp Hb Hsp Hfit.
  destruct (read_as (rfc_command q) (request_parameters q).1 (request_parameters q).2
              (rfc_parameters q) b address') as (b' & E & Hr);
    [apply command_name_ok|by apply served_written|apply request_parameters_empty|done..|].
  exists (request_record q), b'. split; [by apply perform_record|]. split; [done|].
  split; [done|by apply parameters_read_plain].
Qed.

(** A message to several receivers is not sent: IRC_Client_Module_IRCHandler::privmsg and
    notice mark the receivers as a list, behind whose last item the streamer writes a comma,
    too; the server reads one parameter, in which the text is one more receiver *)
Theorem several_receivers_misread q h rs m (b : B) address' :
  q = Privmsg rs m ∨ q = Notice rs m →
  connectionIsAlive_ h = true → 1 < zlen rs → has_space m = false → m ≠ "" →
  middle_ok (joined (rs ++ [m])) = true →
  mb_bytes b = [] → IRC_MAXIMUM_FRAME_SIZE <= mb_space b →
  zlen (string_bytes (message_text
    (allocateMessage address (rfc_command q) [joined (rs ++ [m])] []))) <= mb_space b →
  ∃ r b', perform q h = Ok (reply r h) ∧ IrcWire.handleDataMessage r b = Ok (Some b') ∧
    parse address' (mb_bytes b') =
      Some (allocateMessage address' (rfc_command q) [joined (rs ++ [m])] []).
Proof.
  intros Hq Ha Hn Hsm Hm Hok Hb Hsp Hfit.
  assert (parameters_plain [joined (rs ++ [m])] = true) as Hplain
    by (cbn; unfold last_plain; by rewrite Hok).
  assert (perform q h = Ok (reply (request_record q) h)) as Hperf.
  { destruct Hq as [-> | ->]; cbn [perform]; unfold privmsg, notice, sendMessage;
      rewrite bool_decide_eq_false_2 by done; cbn [negb ace_assert mbind outcome_bind];
      by rewrite Ha. }
  assert (request_parameters q = (rs ++ [m], [(0, zlen rs - 1)])) as Hps.
  { destruct Hq as [-> | ->]; cbn [request_parameters]; unfold several_range;
      by rewrite (proj2 (Z.ltb_lt _ _) Hn). }
  destruct (read_as (rfc_command q) (rs ++ [m]) [(0, zlen rs - 1)] [joined (rs ++ [m])] b address')
    as (b' & E & Hr);
    [apply command_name_ok| | |apply parameters_plain_ok; cbn; unfold last_plain; by rewrite Hok|done..|].
  - cbn [list_text]. rewrite (middle_no_space _ Hok), joined_snoc.
    pose proof (prints_list_last rs m) as Hl. unfold marked in Hl. by rewrite Hsm in Hl.
  - split; [by intros [_ ?]%app_eq_nil|done].
  - rewrite (proj2 (parameters_read_plain [_] (parameters_plain_ok [_] Hplain)) Hplain) in Hr.
    exists (request_record q), b'. unfold request_record. rewrite Hps. split_and!; [|done..].
    rewrite Hperf. unfold request_record. by rewrite Hps.
Qed.

(** what a server reads of a JOIN *)
Definition join_read (channels keys : list string) : list string :=
  match keys, channels with
  | [], _ => channels
  | _, [c] => [c; joined keys]
  | _, _ => [joined (channels ++ keys)]
  end.

Lemma join_written channels keys :
  channels ≠ [] → no_spaces channels = true → no_spaces keys = true →
  prints (parameter_steps (join_ranges (zlen channels) (zlen keys)) 0 (channels ++ keys))
    (list_text (join_read channels keys)).
Proof.
  intros Hne Hc Hk. destruct keys as [|k keys].
  - cbn [join_read]. rewrite app_nil_r. apply prints_list.
  - destruct channels as [|c1 [|c2 channels]]; [done|by apply (join_one c1 (k :: keys))|].
    cbn [join_read list_text].
    rewrite joined_no_space; [|unfold no_spaces in *; by rewrite forallb_app, Hc, Hk].
    apply join_several; [rewrite !zlen_cons; pose proof (zlen_nonneg channels); lia|done..].
Qed.

(** What a server reads of IRC_Client_Module_IRCHandler::join: one channel and its keys
    are read as RFC 1459 has them; several channels without keys are several parameters, so
    that the second one is taken for the key; several channels and keys are one parameter, so
    that the keys are taken for channels *)
Theorem join_served channels keys h (b : B) address' :
  connectionIsAlive_ h = true → channels ≠ [] →
  no_spaces channels = true → no_spaces keys = true →
  parameters_plain (join_read channels keys) = true →
  mb_bytes b = [] → IRC_MAXIMUM_FRAME_SIZE <= mb_space b →
  zlen (string_bytes (message_text (allocateMessage address JOIN (join_read channels keys) [])))
    <= mb_space b →
  ∃ r b', join address channels keys h = reply r h ∧
    IrcWire.handleDataMessage r b = Ok (Some b') ∧
    parse address' (mb_bytes b') =
      Some (allocateMessage address' JOIN (join_read channels keys) []).
Proof.
  intros Ha Hne Hc Hk Hplain Hb Hsp Hfit. pose proof (parameters_plain_ok _ Hplain) as Hok.
  destruct (read_as JOIN (channels ++ keys) (join_ranges (zlen channels) (zlen keys))
              (join_read channels keys) b address') as (b' & E & Hr); [done|by apply join_written| |done..|].
  - split; [by intros [? _]%app_eq_nil|]. by destruct keys, channels as [|? []].
  - rewrite (proj2 (parameters_read_plain _ Hok) Hplain) in Hr.
    eexists _, b'. split_and!; [|done..]. unfold join, sendMessage. by rewrite Ha.
Qed.

Lemma parameters_last ps p :
  last ps = Some p → parameters_plain ps = true →
  parameters_plain [p] = true ∧ ∃ t, list_text ps = t +:+ marked p.
Proof.
  induction ps as [|q [|q' ps] IH]; intros Hl Hok; [done|..].
  - injection Hl as ->. split; [done|]. by exists "".
  - cbn [parameters_plain] in Hok. apply andb_true_iff in Hok as [_ Hok].
    destruct (IH Hl Hok) as (? & t & Et). split; [done|]. exists (q +:+ " " +:+ t).
    change (list_text (q :: q' :: ps)) with (q +:+ " " +:+ list_text (q' :: ps)).
    by rewrite Et, !string_app_assoc.
Qed.

(** a PONG is not longer than its PING *)
Lemma pong_length r p a :
  command_ r = STRING a "PING" → last (parameters_ r) = Some p →
  parameters_plain (parameters_ r) = true →
  zlen (string_bytes (message_text (allocateMessage address PONG [p] []))) <=
  zlen (string_bytes (message_text r)).
Proof.
  intros Hc Hl Hok. destruct (parameters_last _ _ Hl Hok) as (_ & t & Et).
  unfold message_text, parameters_text. rewrite Hc.
  rewrite (decide_False (P := parameters_ r = [])) by (by destruct (parameters_ r)).
  rewrite Et. cbn [allocateMessage command_ prefix_ parameters_ command_text list_text].
  change (if has_space p then ":" +:+ p else p) with (marked p).
  rewrite (decide_False (P := [p] = [])) by done.
  rewrite !string_bytes_app, !zlen_app.
  change (zlen (string_bytes (prefix_text no_prefix))) with 0.
  change (zlen (string_bytes (CommandTypeToString PONG))) with 4.
  change (zlen (string_bytes "PING")) with 4.
  pose proof (zlen_nonneg (string_bytes t)).
  pose proof (zlen_nonneg (string_bytes (prefix_text (prefix_ r)))). lia.
Qed.

(** The answer to a PING: when the data that arrive are the message of a PING of RFC 1459
    with a parameter, and the client answers automatically on an open connection, then the
    handler gives a PONG to the streamer, which writes it, and what it writes is read as a
    PONG with the last parameter of the PING *)
Theorem ping_answered c r h (b : B) address' :
  record_ok r = true → parameters_plain (parameters_ r) = true →
  (∃ a, command_ r = STRING a "PING") → parameters_ r ≠ [] →
  automaticPong c = true → connectionIsAlive_ h = true →
  mb_bytes b = [] → IRC_MAXIMUM_FRAME_SIZE <= mb_space b →
  zlen (string_bytes (message_text r)) <= mb_space b →
  ∃ p pong b', last (parameters_ r) = Some p ∧
    (d ← deref (parse address' (string_bytes (message_text r)));
     handleDataMessage address c d h) = Ok (reply pong h) ∧
    IrcWire.handleDataMessage pong b = Ok (Some b') ∧
    parse address' (mb_bytes b') = Some (allocateMessage address' PONG [p] []).
Proof.
  intros Hok Hplain [a Hc] Hne Hauto Ha Hb Hsp Hfit. rewrite parse_text by done.
  rewrite (proj2 (as_read_same r Hok) Hplain).
  destruct (last (parameters_ r)) as [p|] eqn:Hl; [|by apply last_None in Hl].
  pose proof Hok as Hps. unfold record_ok in Hps. rewrite !andb_true_iff in Hps.
  destruct Hps as [[_ Hps] _]. pose proof (pong_length r p a Hc Hl Hplain) as Hlen.
  destruct (parameters_last _ _ Hl Hplain) as [Hp _]. pose proof (parameters_plain_ok _ Hp) as Hp'.
  destruct (read_as PONG [p] [] [p] b address') as (b' & E & Hr);
    [done|apply prints_list|done|done|done|done|lia|].
  rewrite (proj2 (parameters_read_plain [p] Hp') Hp) in Hr.
  exists p, (allocateMessage address PONG [p] []), b'. split_and!; [done| |done..].
  cbn [deref from_option mbind outcome_bind]. unfold handleDataMessage, allocated.
  cbn [command_ parameters_]. rewrite Hc.
  change (CommandToType "PING") with PING. rewrite Hauto, Hl. cbn [deref from_option mbind outcome_bind].
  unfold sendMessage. by rewrite Ha.
Qed.
End Requests.

(** ** Concrete runs *)
Definition example_configuration : IRC_ProtocolConfiguration :=
  MkProtocolConfiguration
    (MkLoginOptions "secret" "nick" (MkUser "user" (H_MODE 8) "*" "Real Name") "#channel") true.
Definition example_welcome : event :=
  Data (MkRecord (MkPrefix "irc.org" "" "") (NUMERIC 1) ["nick"; "Welcome to IRC"] []).
Definition example_events : list event :=
  [Session STREAM_SESSION_MESSAGE_BEGIN; example_welcome;
   Data (MkRecord no_prefix (STRING 3 "PING") ["irc.org"] [])].
Definition example_block : list Z * N := ([], 512%N).
Definition example_handler : @IRCHandler IRC_RegistrationStateType :=
  MkHandler true true true true IRC_REGISTRATION_STATE_PASS "nick" 1 [].

Lemma welcome_finishes_witness :
  ∃ h', run 5 example_configuration example_events (new_handler IRC_REGISTRATION_STATE_PASS) = Ok h' ∧
    sync_state (state_ h') = IRC_REGISTRATION_STATE_FINISHED ∧ initialRegistration_ h' = false.
Proof.
  eexists. split; [vm_compute; reflexivity|].
  apply (welcome_finishes 5 example_configuration IRC_REGISTRATION_STATE_PASS example_events);
    by vm_compute.
Defined.

Lemma reinitialized_never_finishes_witness :
  ∃ h', run 5 example_configuration example_events (initialize true example_handler) = Ok h' ∧
    sync_state (state_ h') = IRC_REGISTRATION_STATE_NICK ∧ initialRegistration_ h' = false.
Proof.
  eexists. split; [vm_compute; reflexivity|].
  apply (reinitialized_never_finishes 5 example_configuration true example_handler example_events);
    by vm_compute.
Defined.

Lemma registerc_sends_witness :
  replied (registerc 5 (loginOptions example_configuration)
             (λ h, (Failed, h)) (λ h, (Failed, h)) example_handler).2 =
  [allocateMessage 5 PASS ["secret"] []; allocateMessage 5 NICK ["nick"] [];
   allocateMessage 5 USER ["user"; "8"; "*"; "Real Name"] []].
Proof.
  exact (proj2 (registerc_sends 5 (loginOptions example_configuration)
    (λ h, (Failed, h)) (λ h, (Failed, h)) example_handler eq_refl)).
Defined.

Lemma requests_served_witness :
  ∃ r b', perform 5 (Privmsg ["#channel"] "hello world") example_handler =
            Ok (reply r example_handler) ∧
    IrcWire.handleDataMessage r example_block = Ok (Some b') ∧
    parse 6 b'.1 = Some (allocateMessage 6 PRIVMSG ["#channel"; "hello world"] []) ∧
    (parameters_read ["#channel"; "hello world"] = ["#channel"; "hello world"] ↔
     parameters_plain ["#channel"; "hello world"] = true).
Proof.
  refine (requests_served 5 (Privmsg ["#channel"] "hello world") example_handler example_block 6 _ _ _ _ _ _);
    by vm_compute.
Defined.

(** what a server reads of a request *)
Definition server_reads (q : request) : option (list string) :=
  match perform 5 q example_handler with
  | Ok h =>
      r ← last (replied h);
      match IrcWire.handleDataMessage r example_block with
      | Ok (Some b') => parameters_ <$> parse 6 b'.1
      | _ => None
      end
  | _ => None
  end.
(** A smiley loses its colon. *)
Example smiley_lost : server_reads (Privmsg ["#channel"] ":)") = Some ["#channel"; ")"].
Proof. by vm_compute. Qed.
(** A WHOWAS at a server without a count: the server is read as the count. *)
Example whowas_server_misplaced :
  server_reads (Whowas "anna" 0 "irc.org") = Some ["anna"; "irc.org"] ∧
  rfc_parameters (Whowas "anna" 0 "irc.org") = ["anna"; "0"; "irc.org"].
Proof. by vm_compute. Qed.

Lemma several_receivers_misread_witness :
  ∃ r b', perform 5 (Privmsg ["anna"; "bert"] "hello") example_handler =
            Ok (reply r example_handler) ∧
    IrcWire.handleDataMessage r example_block = Ok (Some b') ∧
    parse 6 b'.1 = Some (allocateMessage 6 PRIVMSG ["anna,bert,hello"] []).
Proof.
  refine (several_receivers_misread 5 (Privmsg ["anna"; "bert"] "hello") example_handler
           ["anna"; "bert"] "hello" example_block 6 _ _ _ _ _ _ _ _ _); (by left) || by vm_compute.
Defined.

Lemma join_served_witness :
  ∃ r b', join 5 ["#a"; "#b"] ["key"] example_handler = reply r example_handler ∧
    IrcWire.handleDataMessage r example_block = Ok (Some b') ∧
    parse 6 b'.1 = Some (allocateMessage 6 JOIN ["#a,#b,key"] []).
Proof.
  refine (join_served 5 ["#a"; "#b"] ["key"] example_handler example_block 6 _ _ _ _ _ _ _ _); by vm_compute.
Defined.

Lemma ping_answered_witness :
  ∃ p pong b', last ["irc.org"] = Some p ∧
    (d ← deref (parse 6 (string_bytes (message_text
       (MkRecord no_prefix (STRING 3 "PING") ["irc.org"] []))));
     handleDataMessage 5 example_configuration d example_handler) = Ok (reply pong example_handler) ∧
    IrcWire.handleDataMessage pong example_block = Ok (Some b') ∧
    parse 6 b'.1 = Some (allocateMessage 6 PONG [p] []).
Proof.
  refine (ping_answered 5 example_configuration (MkRecord no_prefix (STRING 3 "PING") ["irc.org"] [])
           example_handler example_block 6 _ _ _ _ _ _ _ _ _); (by exists 3) || by vm_compute.
Defined.
