(* ===== verification/ConnectionManager.v ===== *)
(** * The connection manager (net_connection_manager.{h,inl})

    The list of open connections, in the order of their registration, and the
    operations of [Net_Connection_Manager_T].  A connection is a pointer; the reference
    counts that keep the connections alive are a shared store, with the interface
    [ReferenceCounts] of the base class of connections (common library).  Each lock
    scope is atomic.  The blocking waits are the conditions that they wait for. *)
From S2P Require Import Prelude.

(** ** The reference counter

    [Common_ReferenceCounter_T]: a connection is created with the count one and deleted
    when the count drops to zero; [None] is the count of a deleted connection. *)
Class ReferenceCounts (C R : Type) `{EqDecision C} : Type := {
  references : C → R → option Z;
  rc_create : C → R → R;
  rc_increase : C → R → outcome R;
  rc_decrease : C → R → outcome R;
  references_create c d r :
    references d (rc_create c r) = if decide (c = d) then Some 1 else references d r;
  references_increase c r n :
    references c r = Some n →
    ∃ r', rc_increase c r = Ok r' ∧
      ∀ d, references d r' = if decide (c = d) then Some (n + 1) else references d r;
  references_decrease c r n :
    references c r = Some n →
    ∃ r', rc_decrease c r = Ok r' ∧
      ∀ d, references d r' =
        if decide (c = d) then if n =? 1 then None else Some (n - 1) else references d r
}.

(** an instance: a finite map of counts *)
#[export] Program Instance map_counts `{Countable C} : ReferenceCounts C (gmap C Z) := {|
  references c r := r !! c;
  rc_create c r := <[c := 1]> r;
  rc_increase c r := n ← deref (r !! c); Ok (<[c := n + 1]> r);
  rc_decrease c r :=
    n ← deref (r !! c); Ok (if n =? 1 then delete c r else <[c := n - 1]> r)
|}.
Next Obligation. intros. apply lookup_insert. Qed.
Next Obligation.
  intros C ? ? c r n Hr. cbn in *. rewrite Hr. eexists. split; [reflexivity|].
  intros d. apply lookup_insert.
Qed.
Next Obligation.
  intros C ? ? c r n Hr. cbn in *. rewrite Hr. eexists. split; [reflexivity|].
  intros d. destruct (n =? 1); [apply lookup_delete|apply lookup_insert].
Qed.

Section Manager.
Context {C R : Type} `{ReferenceCounts C R} {A : Type} `{EqDecision A}.
(** what the manager asks of a connection: [id ()] and [info ()] *)
Variable id : C → Z.
Variables local_address peer_address : C → A.
(** [is_ip_equal ()], which does not compare the ports *)
Variable is_ip_equal : A → A → bool.
(** [ACE_DLList::insert_tail ()]: does it succeed ? *)
Variable insert_tail : list C → C → bool.
(** what an iterator leaves in the argument of [next ()] when it is at the end *)
Variable next_at_end : option C → option C.

Record manager : Type := Manager {
  connections_ : list C;
  refs : R;
  isActive_ : bool;
  isInitialized_ : bool;
  maximumNumberOfConnections_ : Z;
  resetTimeoutHandlerId_ : Z
}.

Definition set_refs (s : manager) (r : R) : manager :=
  Manager (connections_ s) r (isActive_ s) (isInitialized_ s)
    (maximumNumberOfConnections_ s) (resetTimeoutHandlerId_ s).
Definition set_connections (s : manager) (l : list C) : manager :=
  Manager l (refs s) (isActive_ s) (isInitialized_ s)
    (maximumNumberOfConnections_ s) (resetTimeoutHandlerId_ s).
Definition set_active (s : manager) (a : bool) (timer : Z) : manager :=
  Manager (connections_ s) (refs s) a (isInitialized_ s)
    (maximumNumberOfConnections_ s) timer.

(** [increase ()] and [decrease ()] of a connection, which is deleted on zero *)
Definition increase (c : C) (s : manager) : outcome manager :=
  set_refs s <$> rc_increase c (refs s).
Definition decrease (c : C) (s : manager) : outcome manager :=
  set_refs s <$> rc_decrease c (refs s).
(** a member function is called: the connection is alive *)
Definition alive (c : C) (s : manager) : outcome Z := deref (references c (refs s)).

(** ** Construction, start and stop *)
Definition NET_CONNECTION_MAXIMUM_NUMBER_OF_OPEN : Z := 10.

Definition Net_Connection_Manager (r : R) : manager :=
  Manager [] r true false NET_CONNECTION_MAXIMUM_NUMBER_OF_OPEN (-1).

Definition initialize (maximumNumberOfConnections_in : Z) (s : manager) : manager :=
  Manager (connections_ s) (refs s) (isActive_ s) true
    maximumNumberOfConnections_in (resetTimeoutHandlerId_ s).

(** the timer id that scheduling returns, -1 on failure *)
Definition start (timer_id : Z) (s : manager) : manager * bool :=
  if timer_id =? -1 then (set_active s (isActive_ s) (-1), false)
  else (set_active s true timer_id, true).

(** without the wait for completion *)
Definition stop (s : manager) : manager := set_active s false (-1).

Definition isRunning (s : manager) : bool := isActive_ s.
Definition isShuttingDown (s : manager) : bool := negb (isRunning s).

Definition count (s : manager) : Z := u32 (zlen (connections_ s)).

(** ** Registration *)
Definition register_ (connection_in : C) (s : manager) : outcome (manager * bool) :=
  if negb (isActive_ s) || (zlen (connections_ s) >=? maximumNumberOfConnections_ s)
  then Ok (s, false)
  else
    s1 ← increase connection_in s;
    if insert_tail (connections_ s1) connection_in then
      Ok (set_connections s1 (connections_ s1 ++ [connection_in]), true)
    else
      s2 ← decrease connection_in s1;
      Ok (s2, false).

(** the loop: [iterator.remove ()] at the first match *)
Fixpoint remove_first (c : C) (l : list C) : list C :=
  match l with
  | [] => []
  | c' :: l' => if decide (c' = c) then l' else c' :: remove_first c l'
  end.

(** If it is not found, its id is logged. *)
Definition deregister (connection_in : C) (s : manager) : outcome manager :=
  if decide (connection_in ∈ connections_ s) then
    decrease connection_in
      (set_connections s (remove_first connection_in (connections_ s)))
  else
    _ ← alive connection_in s;
    Ok s.

(** ** Lookup *)
Fixpoint find_connection (f : C → bool) (l : list C) : option C :=
  match l with
  | [] => None
  | c :: l' => if f c then Some c else find_connection f l'
  end.

(** [if (connection_p) connection_p->increase (); return connection_p;] *)
Definition return_increased (connection_p : option C) (s : manager) :
    outcome (manager * option C) :=
  match connection_p with
  | None => Ok (s, None)
  | Some c => s' ← increase c s; Ok (s', Some c)
  end.

Definition get_handle (handle_in : Z) (s : manager) : outcome (manager * option C) :=
  return_increased (find_connection (λ c, id c =? handle_in) (connections_ s)) s.

Definition get_address (address_in : A) (isPeerAddress_in : bool) (s : manager) :
    outcome (manager * option C) :=
  return_increased
    (find_connection
       (λ c, (isPeerAddress_in && bool_decide (peer_address c = address_in))
             || (negb isPeerAddress_in && bool_decide (local_address c = address_in)))
       (connections_ s)) s.

(** the loop of [operator[]]: the pointer is not reset between the turns *)
Fixpoint index_loop (index_in index : Z) (connection_p : option C) (l : list C) :
    option C :=
  match l with
  | [] => next_at_end connection_p
  | c :: l' => if index =? index_in then Some c
               else index_loop index_in (index +u 1) (Some c) l'
  end.
Definition operator_index (index_in : Z) (s : manager) : outcome (manager * option C) :=
  return_increased (index_loop index_in 0 None (connections_ s)) s.

(** the conditions that [wait ()] and [wait_2 ()] wait for *)
Definition wait_done (s : manager) : bool := bool_decide (connections_ s = []).
Definition wait_2_done (handle_in : Z) (s : manager) : bool :=
  negb (existsb (λ c, id c =? handle_in) (connections_ s)).

(** ** Abort *)
Section Abort.
(** [abort ()] of a connection: what it does to the manager *)
Variable abort_connection : C → manager → outcome manager.

(** step1 of the loops: the connections that match, with a reference each; [None] is
    the early return when the list of handles cannot grow *)
Fixpoint gather (f : C → bool) (l acc : list C) (s : manager) :
    outcome (manager * option (list C)) :=
  match l with
  | [] => Ok (s, Some acc)
  | c :: l' =>
      if f c then
        s1 ← increase c s;
        if insert_tail acc c then gather f l' (acc ++ [c]) s1
        else s2 ← decrease c s1; Ok (s2, None)
      else gather f l' acc s
  end.

(** step2: abort each of them, and drop the reference *)
Fixpoint abort_each (l : list C) (s : manager) : outcome manager :=
  match l with
  | [] => Ok s
  | c :: l' =>
      s1 ← abort_connection c s;
      s2 ← decrease c s1;
      abort_each l' s2
  end.

(** [abort (waitForCompletion_in)]: the rounds are bounded by [fuel]; [None] if that
    runs out *)
Fixpoint abort_all (fuel : nat) (waitForCompletion_in : bool) (s : manager) :
    outcome (option manager) :=
  match fuel with
  | O => Ok None
  | S fuel' =>
      r ← gather (λ _, true) (connections_ s) [] s;
      match r with
      | (s1, None) => Ok (Some s1)
      | (s1, Some []) => Ok (Some s1)
      | (s1, Some connections_a) =>
          s2 ← abort_each connections_a s1;
          if waitForCompletion_in : bool then abort_all fuel' waitForCompletion_in s2
          else Ok (Some s2)
      end
  end.

Definition address_matches (address_in : A) (matchPort_in : bool) (c : C) : bool :=
  if matchPort_in then
    negb (bool_decide (peer_address c ≠ address_in)
          && bool_decide (local_address c ≠ address_in))
  else
    negb (negb (is_ip_equal address_in (peer_address c))
          && negb (is_ip_equal address_in (local_address c))).

Definition abort_address (address_in : A) (matchPort_in : bool) (s : manager) :
    outcome manager :=
  r ← gather (address_matches address_in matchPort_in) (connections_ s) [] s;
  match r with
  | (s1, None) => Ok s1
  | (s1, Some connections_a) => abort_each connections_a s1
  end.

Definition abort_one (connection_p : option C) (s : manager) : outcome manager :=
  match connection_p with
  | None => Ok s
  | Some c =>
      s1 ← increase c s;
      s2 ← abort_connection c s1;
      decrease c s2
  end.
Definition abortLeastRecent (s : manager) : outcome manager :=
  abort_one (head (connections_ s)) s.
Definition abortMostRecent (s : manager) : outcome manager :=
  abort_one (last (connections_ s)) s.

Inductive Net_Connection_AbortStrategy :=
  | NET_CONNECTION_ABORT_STRATEGY_RECENT_LEAST
  | NET_CONNECTION_ABORT_STRATEGY_RECENT_MOST
  | NET_CONNECTION_ABORT_STRATEGY_MAX
  | NET_CONNECTION_ABORT_STRATEGY_INVALID.
Definition abort_strategy (strategy_in : Net_Connection_AbortStrategy) (s : manager) :
    outcome manager :=
  match strategy_in with
  | NET_CONNECTION_ABORT_STRATEGY_RECENT_LEAST => abortLeastRecent s
  | NET_CONNECTION_ABORT_STRATEGY_RECENT_MOST => abortMostRecent s
  | _ => Ok s
  end.
End Abort.

(** ** Statistics: the sum over the connections *)
Definition collect {St} (zero : St) (add : St → St → St) (statistic : C → St)
    (s : manager) : St :=
  foldl (λ data_out c, add data_out (statistic c)) zero (connections_ s).
End Manager.
Arguments manager C R : clear implicits.

(** ** Reference counting *)

(** how often [c] occurs in a list *)
Fixpoint occ {C} `{EqDecision C} (c : C) (l : list C) : Z :=
  match l with
  | [] => 0
  | c' :: l' => (if decide (c' = c) then 1 else 0) + occ c l'
  end.

Section Occ.
Context {C : Type} `{EqDecision C}.
Implicit Types (c : C) (l : list C).

Lemma occ_app c l k : occ c (l ++ k) = occ c l + occ c k.
Proof. induction l as [|x l IH]; cbn; lia. Qed.
Lemma occ_nonneg c l : 0 <= occ c l.
Proof. induction l as [|x l IH]; cbn; [lia|]. destruct decide; lia. Qed.
Lemma occ_elem c l : c ∈ l ↔ 0 < occ c l.
Proof.
  induction l as [|x l IH]; cbn; [split; [by intros ?%elem_of_nil|lia]|].
  rewrite elem_of_cons, IH. pose proof (occ_nonneg c l).
  destruct (decide (x = c)) as [->|Hne]; split; try lia; [by left|].
  intros [->|?]; [done|lia].
Qed.
Lemma occ_remove_first c d l :
  c ∈ l → occ d (remove_first c l) = occ d l - (if decide (c = d) then 1 else 0).
Proof.
  induction l as [|x l IH]; [by intros ?%elem_of_nil|]. rewrite elem_of_cons.
  cbn [remove_first]. destruct (decide (x = c)) as [->|Hne]; cbn [occ]; [lia|].
  intros [->|Hin]; [done|]. rewrite IH by done. lia.
Qed.
Lemma occ_Permutation c l k : l ≡ₚ k → occ c l = occ c k.
Proof. induction 1; cbn; lia. Qed.
Lemma remove_first_notin c l : c ∉ l → remove_first c l = l.
Proof.
  induction l as [|x l IH]; [done|]. rewrite not_elem_of_cons. intros [? ?].
  cbn. rewrite decide_False by done. by rewrite IH.
Qed.
Lemma remove_first_sublist c l : remove_first c l `sublist_of` l.
Proof.
  induction l as [|x l IH]; [constructor|]. cbn. destruct (decide (x = c)).
  - by constructor.
  - by constructor.
Qed.
Lemma elem_of_remove_first c d l : NoDup l → d ∈ remove_first c l ↔ d ∈ l ∧ d ≠ c.
Proof.
  induction l as [|x l IH]; [set_solver|]. rewrite NoDup_cons. intros [Hx Hl]. cbn.
  destruct (decide (x = c)); set_solver.
Qed.
Lemma zlen_remove_first c l : zlen (remove_first c l) <= zlen l.
Proof.
  induction l as [|x l IH]; [done|]. cbn [remove_first].
  destruct (decide (x = c)); rewrite !zlen_cons; lia.
Qed.
End Occ.

Section Counting.
Context {C R : Type} `{ReferenceCounts C R}.
Implicit Types (s : manager C R) (c d : C) (held : list C).

(** The count of each connection is the number of references to it: those of the list
    of connections, and those that are held elsewhere; a connection without
    references is deleted. *)
Definition counted s held : Prop :=
  ∀ c, references c (refs s) =
    let n := occ c (connections_ s ++ held) in if n =? 0 then None else Some n.

Lemma counted_alive s held c :
  counted s held → c ∈ connections_ s ++ held →
  references c (refs s) = Some (occ c (connections_ s ++ held)).
Proof.
  intros Hs Hc%occ_elem. rewrite Hs. cbn. by rewrite (proj2 (Z.eqb_neq _ _)) by lia.
Qed.

Lemma alive_counted s held c n :
  counted s held → references c (refs s) = Some n → c ∈ connections_ s ++ held.
Proof.
  intros Hs Hc. rewrite Hs in Hc. cbn in Hc. destruct (_ =? 0) eqn:E; [done|].
  apply occ_elem. pose proof (occ_nonneg c (connections_ s ++ held)). bool_lia.
Qed.

Lemma counted_ext s held s' held' :
  counted s held → refs s' = refs s →
  (∀ c, occ c (connections_ s' ++ held') = occ c (connections_ s ++ held)) →
  counted s' held'.
Proof. intros Hs Hr Ho c. cbn. by rewrite Hr, Ho, Hs. Qed.

Lemma increase_counted s held c :
  counted s held → c ∈ connections_ s ++ held →
  ∃ r, increase c s = Ok (set_refs s r) ∧ counted (set_refs s r) (c :: held).
Proof.
  intros Hs Hc. pose proof (counted_alive _ _ _ Hs Hc) as Ha.
  destruct (references_increase _ _ _ Ha) as (r & Hr & Hn).
  exists r. unfold increase. rewrite Hr. split; [done|].
  intros d. cbn. rewrite Hn. apply occ_elem in Hc. rewrite !occ_app in *. cbn [occ].
  destruct (decide (c = d)) as [->|Hne].
  - rewrite (proj2 (Z.eqb_neq _ _)) by lia. f_equal. lia.
  - rewrite Hs. cbn. by rewrite occ_app.
Qed.

Lemma decrease_counted s held c :
  counted s (c :: held) →
  ∃ r, decrease c s = Ok (set_refs s r) ∧ counted (set_refs s r) held.
Proof.
  intros Hs. assert (Hc : c ∈ connections_ s ++ c :: held) by set_solver.
  destruct (references_decrease _ _ _ (counted_alive _ _ _ Hs Hc)) as (r & Hr & Hn).
  exists r. unfold decrease. rewrite Hr. split; [done|].
  intros d. cbn. rewrite Hn. specialize (Hs d). cbn in Hs. apply occ_elem in Hc.
  rewrite !occ_app in *. cbn [occ] in *.
  destruct (decide (c = d)) as [->|Hne]; [|by rewrite Hs].
  rewrite !decide_True in * by done.
  destruct (_ =? 1) eqn:E; bool_lia.
  - by rewrite (proj2 (Z.eqb_eq _ _)) by lia.
  - rewrite (proj2 (Z.eqb_neq _ _)) by lia. f_equal. lia.
Qed.

Lemma create_counted s held c :
  counted s held → references c (refs s) = None →
  counted (set_refs s (rc_create c (refs s))) (c :: held).
Proof.
  intros Hs Hc d. cbn. rewrite references_create. pose proof (Hs c) as Hn.
  rewrite Hc in Hn. cbn in Hn. rewrite !occ_app in *. cbn [occ].
  destruct (decide (c = d)) as [->|Hne]; [|rewrite Hs; cbn; by rewrite occ_app].
  destruct (_ =? 0) eqn:E in Hn; [|done]. bool_lia.
  pose proof (occ_nonneg d (connections_ s)). pose proof (occ_nonneg d held).
  rewrite (proj2 (Z.eqb_neq _ _)) by lia. f_equal. lia.
Qed.

(** the early return in the middle of the loop leaves references behind, which nobody
    drops *)
Lemma gather_counted insert_tail f s held l acc s' res :
  counted s held → l ⊆ connections_ s →
  gather insert_tail f l acc s = Ok (s', res) →
  connections_ s' = connections_ s ∧
  maximumNumberOfConnections_ s' = maximumNumberOfConnections_ s ∧
  ∃ taken, counted s' (taken ++ held) ∧ taken ⊆ l ∧
    match res with Some all => all = acc ++ taken ∧ taken = filter f l | None => True end.
Proof.
  revert s held acc. induction l as [|c l IH]; intros s held acc Hs Hl; cbn [gather].
  - intros [= <- <-]. split_and!; [done..|]. exists []. by rewrite app_nil_r.
  - assert (Hc : c ∈ connections_ s) by set_solver.
    assert (Hl' : l ⊆ connections_ s) by set_solver.
    destruct (f c) eqn:Ef.
    + destruct (increase_counted s held c) as (r & -> & Hr); [done|set_solver|].
      cbn [mbind outcome_bind]. destruct (insert_tail acc c).
      * intros Hg. destruct (IH (set_refs s r) (c :: held) (acc ++ [c]))
          as (Hc1 & Hm1 & taken & Ht & Hsub & Hres); [done|done|done|].
        split_and!; [done..|]. exists (c :: taken). split; [|split; [set_solver|]].
        -- apply (counted_ext _ _ _ _ Ht); [done|]. intros d.
           rewrite ?occ_app. cbn [occ app]. rewrite ?occ_app. cbn [occ]. lia.
        -- destruct res; [|done]. destruct Hres as [-> ->].
           rewrite filter_cons_True by (by rewrite Ef). by rewrite <- (assoc_L (++)).
      * destruct (decrease_counted _ _ _ Hr) as (r' & -> & Hr'). cbn [mbind outcome_bind].
        intros [= <- <-]. split_and!; [done..|]. exists []. split_and!; [done|set_solver|done].
    + intros Hg. destruct (IH s held acc) as (Hc1 & Hm1 & taken & Ht & Hsub & Hres);
        [done|done|done|].
      split_and!; [done..|]. exists taken. split_and!; [done|set_solver|].
      destruct res; [|done]. rewrite filter_cons_False; [done|rewrite Ef; by intros []].
Qed.
End Counting.

(** ** The operations keep the counts *)
Section Operations.
Context {C R : Type} `{ReferenceCounts C R} {A : Type} `{EqDecision A}.
Implicit Types (s : manager C R) (c d : C) (held : list C).

Definition bounded s : Prop := zlen (connections_ s) <= maximumNumberOfConnections_ s.

Lemma deregister_counted s held c :
  counted s held → bounded s → c ∈ connections_ s ++ held →
  ∃ s', deregister c s = Ok s' ∧ counted s' held ∧ bounded s' ∧
    connections_ s' = remove_first c (connections_ s).
Proof.
  intros Hs Hb Hc. unfold deregister. destruct (decide (c ∈ connections_ s)) as [Hin|Hout].
  - set (s1 := set_connections s (remove_first c (connections_ s))).
    assert (Hs1 : counted s1 (c :: held)).
    { apply (counted_ext _ _ _ _ Hs); [done|]. intros d. cbn.
      rewrite !occ_app, occ_remove_first by done. cbn. lia. }
    destruct (decrease_counted _ _ _ Hs1) as (r & -> & Hr).
    eexists. split; [reflexivity|]. split_and!; [done| |done].
    unfold bounded in *. cbn. pose proof (zlen_remove_first c (connections_ s)). lia.
  - unfold alive. rewrite (counted_alive s held) by done. exists s. split_and!; try done.
    by rewrite remove_first_notin.
Qed.

Lemma return_increased_counted s held p :
  counted s held → (∀ c, p = Some c → c ∈ connections_ s) →
  ∃ s', return_increased p s = Ok (s', p) ∧ counted s' (option_list p ++ held) ∧
        connections_ s' = connections_ s ∧
        maximumNumberOfConnections_ s' = maximumNumberOfConnections_ s.
Proof.
  intros Hs Hp. destruct p as [c|]; [|by exists s].
  destruct (increase_counted s held c) as (r & Hi & Hr); [done|set_solver|].
  cbn. rewrite Hi. cbn. eexists. by split.
Qed.

Lemma find_connection_elem f s c :
  find_connection f (connections_ s) = Some c → c ∈ connections_ s.
Proof.
  induction (connections_ s) as [|d l IH]; [done|]. cbn. destruct (f d).
  - intros [= ->]. by left.
  - intros ?%IH. by right.
Qed.

Context (insert_tail : list C → C → bool).

Lemma register_counted s held c :
  counted s held → bounded s → c ∈ held →
  ∃ s' ok, register_ insert_tail c s = Ok (s', ok) ∧ counted s' held ∧ bounded s' ∧
    connections_ s' = connections_ s ++ (if ok : bool then [c] else []).
Proof.
  intros Hs Hb Hc. unfold register_. rewrite Z.geb_leb.
  destruct (negb (isActive_ s) || _) eqn:E;
    [exists s, false; by rewrite app_nil_r|].
  apply orb_false_iff in E as [_ E]. bool_lia.
  destruct (increase_counted s held c) as (r & -> & Hr); [done|set_solver|].
  cbn [mbind outcome_bind]. destruct insert_tail.
  - eexists _, true. split; [reflexivity|]. split_and!; [| |done].
    + apply (counted_ext _ _ _ _ Hr); [done|]. intros d. cbn.
      rewrite !occ_app. cbn. lia.
    + unfold bounded. cbn. rewrite zlen_app, zlen_cons, zlen_nil. lia.
  - destruct (decrease_counted _ _ _ Hr) as (r' & -> & Hr').
    eexists _, false. split; [reflexivity|]. cbn. by rewrite app_nil_r.
Qed.

Context (next_at_end : option C → option C).
Context (next_keeps_or_clears : ∀ p, next_at_end p = p ∨ next_at_end p = None).

Lemma index_loop_elem i j p l c :
  index_loop next_at_end i j p l = Some c → c ∈ option_list p ++ l.
Proof.
  revert j p; induction l as [|d l IH]; intros j p; cbn.
  - destruct (next_keeps_or_clears p) as [->| ->]; [|done]. intros ->. by left.
  - destruct (j =? i); [intros [= ->]; set_solver|]. intros Hc%IH. cbn in Hc. set_solver.
Qed.
Lemma operator_index_elem i s c :
  index_loop next_at_end i 0 None (connections_ s) = Some c → c ∈ connections_ s.
Proof. intros Hc%index_loop_elem. done. Qed.
End Operations.

(** ** Lookup by index *)
Section Index.
Context {C R : Type} `{ReferenceCounts C R}.
Implicit Type s : manager C R.

Lemma index_loop_found i j (p : option C) l c :
  0 <= j → j <= i → l !! Z.to_nat (i - j) = Some c → j + zlen l < 2 ^ 32 →
  index_loop Datatypes.id i j p l = Some c.
Proof.
  revert j p; induction l as [|d l IH]; intros j p Hj Hi Hl Hb; [done|]. cbn.
  rewrite zlen_cons in Hb. pose proof (zlen_nonneg l).
  destruct (Z.eqb_spec j i) as [->|Hne].
  - rewrite Z.sub_diag in Hl. by simplify_eq/=.
  - rewrite u32_small by lia. apply IH; try lia.
    replace (Z.to_nat (i - j)) with (S (Z.to_nat (i - (j + 1)))) in Hl by lia. done.
Qed.

Lemma index_loop_end i j (p : option C) l :
  0 <= j → j + zlen l <= i < 2 ^ 32 →
  index_loop Datatypes.id i j p l = match last l with Some c => Some c | None => p end.
Proof.
  revert j p; induction l as [|d l IH]; intros j p Hj Hi; [done|]. cbn [index_loop].
  rewrite zlen_cons in Hi. pose proof (zlen_nonneg l).
  rewrite (proj2 (Z.eqb_neq _ _)), u32_small by lia. rewrite IH by lia.
  rewrite last_cons. by destruct (last l).
Qed.

(** An index below the number of connections selects the connection at that position;
    but with an iterator that leaves its argument alone at the end of the list, any
    larger index selects the last connection instead of none. *)
Theorem operator_index_selects i s (Hi : 0 <= i < 2 ^ 32)
    (Hsize : zlen (connections_ s) < 2 ^ 32) :
  operator_index Datatypes.id i s =
    return_increased
      (if i <? zlen (connections_ s) then connections_ s !! Z.to_nat i
       else last (connections_ s)) s.
Proof.
  unfold operator_index. f_equal. destruct (i <? zlen (connections_ s)) eqn:E; bool_lia.
  - destruct (lookup_lt_is_Some_2 (connections_ s) (Z.to_nat i)) as [c Hc];
      [unfold zlen in E; lia|].
    rewrite Hc. apply index_loop_found; [lia|lia| |lia]. by rewrite Z.sub_0_r.
  - rewrite index_loop_end by lia. by destruct last.
Qed.
End Index.

(** a count of one for each *)
Definition sample_counts (l : list Z) : gmap Z Z := gset_to_gmap 1 (list_to_set l).

Lemma operator_index_selects_witness :
  (0 <= 9 < 2 ^ 32 ∧
   zlen (connections_ (Manager [3; 5] (sample_counts [3; 5]) true true 10 (-1))) < 2 ^ 32) ∧
  operator_index Datatypes.id 9 (Manager [3; 5] (sample_counts [3; 5]) true true 10 (-1)) =
    return_increased (if 9 <? zlen [3; 5] then [3; 5] !! Z.to_nat 9 else last [3; 5])
      (Manager [3; 5] (sample_counts [3; 5]) true true 10 (-1)).
Proof. split; [by vm_compute|]. by apply operator_index_selects. Defined.

(** ** Aborting all connections *)
Section AbortAll.
Context {C R : Type} `{ReferenceCounts C R}.
Implicit Types (s : manager C R) (held : list C).
(** handles can be gathered, and a connection that is aborted deregisters at once *)
Let insert_tail : list C → C → bool := λ _ _, true.

Lemma gather_all s held l acc :
  counted s held → (∀ c, c ∈ l → c ∈ connections_ s) →
  ∃ r, gather insert_tail (λ _, true) l acc s = Ok (set_refs s r, Some (acc ++ l)) ∧
       counted (set_refs s r) (l ++ held).
Proof.
  revert s held acc. induction l as [|c l IH]; intros s held acc Hs Hl; cbn [gather].
  - exists (refs s). rewrite app_nil_r. destruct s. by split.
  - destruct (increase_counted s held c) as (r & -> & Hr); [done|set_solver|].
    cbn [mbind outcome_bind]. unfold insert_tail at 1.
    destruct (IH (set_refs s r) (c :: held) (acc ++ [c])) as (r' & -> & Hr');
      [done|set_solver|].
    exists r'. rewrite <- (assoc_L (++)). split; [done|].
    apply (counted_ext _ _ _ _ Hr'); [done|]. intros d. cbn.
    rewrite !occ_app. cbn. rewrite !occ_app. lia.
Qed.

Lemma abort_each_all s held l :
  connections_ s = l → counted s (l ++ held) → bounded s →
  ∃ s', abort_each (λ c s, deregister c s) l s = Ok s' ∧
        connections_ s' = [] ∧ counted s' held ∧ bounded s'.
Proof.
  revert s. induction l as [|c l IH]; intros s Hl Hs Hb; cbn [abort_each]; [by exists s|].
  unfold deregister. rewrite Hl. rewrite decide_True by left. cbn [remove_first].
  rewrite decide_True by done.
  assert (Hs1 : counted (set_connections s l) (c :: (c :: l) ++ held)).
  { apply (counted_ext _ _ _ _ Hs); [done|]. intros d. cbn. rewrite Hl.
    cbn. rewrite !occ_app. cbn. rewrite !occ_app. lia. }
  destruct (decrease_counted _ _ _ Hs1) as (r & -> & Hr). cbn [mbind outcome_bind].
  destruct (decrease_counted _ (l ++ held) c Hr) as (r' & -> & Hr').
  cbn [mbind outcome_bind]. apply (IH _); [done|done|].
  unfold bounded in *. cbn. rewrite Hl, zlen_cons in Hb. lia.
Qed.

(** C40: aborting all connections and waiting terminates, in two rounds, when connections
    deregister as they are aborted: no connection is left, and the references that
    the clients hold, and only they, are left. *)
Theorem abort_all_terminates s held (Hs : counted s held) (Hb : bounded s) :
  ∃ s', abort_all insert_tail (λ c s, deregister c s) 2 true s = Ok (Some s') ∧
    connections_ s' = [] ∧ wait_done s' = true ∧
    ∀ c, references c (refs s') = if occ c held =? 0 then None else Some (occ c held).
Proof.
  cbn [abort_all].
  destruct (gather_all s held (connections_ s) []) as (r & -> & Hr); [done|done|].
  cbn [mbind outcome_bind app].
  destruct (connections_ s) as [|c l] eqn:Hl.
  - exists (set_refs s r). unfold wait_done. cbn. rewrite Hl. split_and!; try done.
    intros c. specialize (Hr c). cbn in Hr. by rewrite Hl in Hr.
  - destruct (abort_each_all (set_refs s r) held (c :: l)) as (s1 & -> & Hc1 & Hs1 & Hb1);
      [done|done|done|].
    cbn [mbind outcome_bind]. rewrite Hc1. cbn [gather mbind outcome_bind].
    exists s1. unfold wait_done. rewrite Hc1. split_and!; try done.
    intros d. specialize (Hs1 d). cbn in Hs1. by rewrite Hc1 in Hs1.
Qed.
End AbortAll.

Lemma abort_all_terminates_witness :
  bounded (Manager [3] (sample_counts [3]) true true 10 (-1)) ∧
  ∃ s', abort_all (λ _ _, true) (λ c s, deregister c s) 2 true
          (Manager [3] (sample_counts [3]) true true 10 (-1)) = Ok (Some s') ∧
    connections_ s' = [].
Proof.
  assert (Hb : bounded (Manager [3] (sample_counts [3]) true true 10 (-1))) by (by vm_compute).
  split; [exact Hb|].
  destruct (abort_all_terminates (Manager [3] (sample_counts [3]) true true 10 (-1)) [])
    as (s' & Hs' & Hl & _).
  - intros c. cbn. destruct (decide (3 = c)) as [<-|Hne]; [done|].
    apply lookup_gset_to_gmap_None. set_solver.
  - exact Hb.
  - by exists s'.
Defined.
