(* ===== verification/ConnectionBase.v ===== *)
(** * Connections and their manager (net_connection_base.{h,inl})

    The registration of a connection with the manager ([Net_ConnectionBase_T]), and the
    system of the manager, the connections and the threads that hold references to
    them.  [isRegistered_] is not protected by any lock, so [register_ ()] and
    [deregister ()] are not single steps of the system: the test of the flag, the store
    to it and the call of the manager (which takes its lock) are steps of their own,
    and what remains to be done of a call is an [operation] of the state.  The lock
    scopes of the manager are a step each; the loops of [abort ()] are a step that
    gathers the connections and separate steps that deregister and release each. *)
From S2P Require Import Prelude ConnectionManager.

Section Connection.
Context {C R : Type} `{ReferenceCounts C R} `{!Countable C}.
(** the listener and the connector of a connection (if any), and its handle *)
Variables connector_ listener_ : C → bool.
Variable state_handle : C → Z.
Variable insert_tail : list C → C → bool.

(** the calls of [disconnect ()] *)
Inductive notification :=
  | Connector_disconnect (handle : Z)
  | Listener_disconnect (handle : Z).

(** the manager, and the connections with [isRegistered_] set *)
Record system : Type := System {
  connection_manager : manager C R;
  isRegistered_ : gset C
}.

Definition set_registered (c : C) (b : bool) (s : gset C) : gset C :=
  if b then {[c]} ∪ s else s ∖ {[c]}.

(** the assertion of the destructor, where a count has dropped to zero *)
Definition destructor (c : C) (s : system) : outcome system :=
  match references c (refs (connection_manager s)) with
  | Some _ => Ok s
  | None => _ ← ace_assert (negb (bool_decide (c ∈ isRegistered_ s))); Ok s
  end.

(** construction, with an initial count of one; [isRegistered_] is unset *)
Definition Net_ConnectionBase (c : C) (s : system) : system :=
  System (set_refs (connection_manager s) (rc_create c (refs (connection_manager s))))
    (set_registered c false (isRegistered_ s)).

(** the calls of [disconnect ()] at the end of [deregister ()], which does not touch
    the connection any more *)
Definition notifications (c : C) : list notification :=
  (if connector_ c then [Connector_disconnect (state_handle c)] else []) ++
  (if listener_ c then [Listener_disconnect (state_handle c)] else []).

(** *** [register_ ()]: the test of the flag, the call of the manager, the store *)
Definition register_check (c : C) (s : system) : outcome unit :=
  _ ← alive c (connection_manager s);
  ace_assert (negb (bool_decide (c ∈ isRegistered_ s))).

Definition register_manager (c : C) (s : system) : outcome (system * bool) :=
  _ ← alive c (connection_manager s);
  r ← register_ insert_tail c (connection_manager s);
  Ok (System r.1 (isRegistered_ s), r.2).

Definition register_store (c : C) (ok : bool) (s : system) : outcome system :=
  _ ← alive c (connection_manager s);
  Ok (System (connection_manager s) (set_registered c ok (isRegistered_ s))).

Definition connection_register (c : C) (s : system) : outcome (system * bool) :=
  _ ← register_check c s;
  r ← register_manager c s;
  s' ← register_store c r.2 r.1;
  Ok (s', r.2).

(** *** [deregister ()]: the test, the store, the call of the manager *)
Definition deregister_check (c : C) (s : system) : outcome bool :=
  _ ← alive c (connection_manager s);
  Ok (bool_decide (c ∈ isRegistered_ s)).

Definition deregister_store (c : C) (s : system) : outcome system :=
  _ ← alive c (connection_manager s);
  Ok (System (connection_manager s) (set_registered c false (isRegistered_ s))).

Definition deregister_manager (c : C) (s : system) : outcome system :=
  m ← deregister c (connection_manager s);
  destructor c (System m (isRegistered_ s)).

Definition connection_deregister (c : C) (s : system) :
    outcome (system * list notification) :=
  b ← deregister_check c s;
  if negb b then Ok (s, [])
  else
    s1 ← deregister_store c s;
    s2 ← deregister_manager c s1;
    Ok (s2, notifications c).

Definition connection_decrease (c : C) (s : system) : outcome system :=
  m ← decrease c (connection_manager s);
  destructor c (System m (isRegistered_ s)).

(** *** What remains to be done of a call *)
Inductive operation :=
  | Register_manager (c : C)
  | Register_store (c : C) (ok : bool)
  | Deregister_store (c : C)
  | Deregister_manager (c : C).

Definition subject (o : operation) : C :=
  match o with
  | Register_manager c | Register_store c _ | Deregister_store c | Deregister_manager c => c
  end.

(** The caller of [register_ ()] holds a reference; [deregister ()] may rely on that of
    the manager. *)
Definition operation_reference (o : operation) : list C :=
  match o with
  | Register_manager c | Register_store c _ => [c]
  | Deregister_store _ | Deregister_manager _ => []
  end.

(** The next step of a call: the state, the references that are given back to the
    thread, and what remains. *)
Definition advance (o : operation) (s : system) : outcome (system * list C * list operation) :=
  match o with
  | Register_manager c => r ← register_manager c s; Ok (r.1, [], [Register_store c r.2])
  | Register_store c ok => s' ← register_store c ok s; Ok (s', [c], [])
  | Deregister_store c => s' ← deregister_store c s; Ok (s', [], [Deregister_manager c])
  | Deregister_manager c => s' ← deregister_manager c s; Ok (s', [], [])
  end.

(** ** The system *)
Context {A : Type} `{EqDecision A}.
Context (id : C → Z) (local_address peer_address : C → A).
Context (next_at_end : option C → option C).

Definition with_manager (s : system) (m : manager C R) : system :=
  System m (isRegistered_ s).

Definition idle (c : C) (ops : list operation) : Prop := c ∉ subject <$> ops.

Notation configuration := (system * list C * list operation)%type.

(** The state, the references that are held by threads, and the calls under way.  A
    connection that is alive may be closed, and deregister, in any thread.  With
    [exclusive], a thread does not begin to register or to deregister a connection while
    another one does. *)
Inductive step (exclusive : bool) : configuration → configuration → Prop :=
  | step_new s held ops c :
      references c (refs (connection_manager s)) = None →
      step exclusive (s, held, ops) (Net_ConnectionBase c s, c :: held, ops)
  | step_register s held held' ops c :
      held ≡ₚ c :: held' → c ∉ isRegistered_ s → (exclusive → idle c ops) →
      register_check c s = Ok tt →
      step exclusive (s, held, ops) (s, held', Register_manager c :: ops)
  | step_deregister s held ops c b n :
      references c (refs (connection_manager s)) = Some n → (exclusive → idle c ops) →
      deregister_check c s = Ok b →
      step exclusive (s, held, ops)
        (s, held, (if b : bool then [Deregister_store c] else []) ++ ops)
  | step_advance s held ops ops' o s' back next :
      ops ≡ₚ o :: ops' → advance o s = Ok (s', back, next) →
      step exclusive (s, held, ops) (s', back ++ held, next ++ ops')
  | step_release s held held' ops c s' :
      held ≡ₚ c :: held' → connection_decrease c s = Ok s' →
      step exclusive (s, held, ops) (s', held', ops)
  | step_get_handle s held ops h m p :
      get_handle id h (connection_manager s) = Ok (m, p) →
      step exclusive (s, held, ops) (with_manager s m, option_list p ++ held, ops)
  | step_get_address s held ops a peer m p :
      get_address local_address peer_address a peer (connection_manager s) = Ok (m, p) →
      step exclusive (s, held, ops) (with_manager s m, option_list p ++ held, ops)
  | step_index s held ops i m p :
      operator_index next_at_end i (connection_manager s) = Ok (m, p) →
      step exclusive (s, held, ops) (with_manager s m, option_list p ++ held, ops)
  | step_gather s held ops f m l :
      gather insert_tail f (connections_ (connection_manager s)) []
        (connection_manager s) = Ok (m, Some l) →
      step exclusive (s, held, ops) (with_manager s m, l ++ held, ops)
  | step_start s held ops timer_id :
      step exclusive (s, held, ops)
        (with_manager s (start timer_id (connection_manager s)).1, held, ops)
  | step_stop s held ops :
      step exclusive (s, held, ops) (with_manager s (stop (connection_manager s)), held, ops).

(** ** The invariant *)
Definition references_of (held : list C) (ops : list operation) : list C :=
  (ops ≫= operation_reference) ++ held.

(** the flag and the list of the manager between the steps of a call *)
Definition under_way (o : operation) (s : system) : Prop :=
  let flag c := c ∈ isRegistered_ s in
  let listed c := c ∈ connections_ (connection_manager s) in
  match o with
  | Register_manager c => ¬ flag c ∧ ¬ listed c
  | Register_store c ok => ¬ flag c ∧ (listed c ↔ ok = true)
  | Deregister_store c => flag c ∧ listed c
  | Deregister_manager c => ¬ flag c ∧ listed c
  end.

Record consistent (s : system) (held : list C) (ops : list operation) : Prop := {
  consistent_counted : counted (connection_manager s) (references_of held ops);
  consistent_bounded : bounded (connection_manager s);
  consistent_NoDup : NoDup (connections_ (connection_manager s));
  consistent_exclusive : NoDup (subject <$> ops);
  consistent_registered c : idle c ops →
    (c ∈ isRegistered_ s ↔ c ∈ connections_ (connection_manager s));
  consistent_under_way o : o ∈ ops → under_way o s
}.
Hint Resolve consistent_counted consistent_bounded consistent_NoDup consistent_exclusive : core.

Lemma elem_of_head (o : operation) (ops : list operation) : o ∈ o :: ops.
Proof. by left. Qed.

Lemma idle_cons c o ops : idle c (o :: ops) ↔ c ≠ subject o ∧ idle c ops.
Proof. unfold idle. by rewrite fmap_cons, not_elem_of_cons. Qed.

Lemma counted_permutation m held held' :
  counted m held → held ≡ₚ held' → counted m held'.
Proof.
  intros Hm Hp. apply (counted_ext _ held _ _ Hm); [done|].
  intros d. apply occ_Permutation. by rewrite Hp.
Qed.

Lemma references_of_permutation held held' ops ops' :
  held ≡ₚ held' → ops ≡ₚ ops' → references_of held ops ≡ₚ references_of held' ops'.
Proof. intros Hh Ho. unfold references_of. by rewrite Hh, Ho. Qed.

Lemma consistent_permutation s held held' ops ops' :
  consistent s held ops → held ≡ₚ held' → ops ≡ₚ ops' → consistent s held' ops'.
Proof.
  intros Hs Hh Ho. split; [|eauto..| |].
  - by apply (counted_permutation _ (references_of held ops)); [eauto|apply references_of_permutation].
  - rewrite <- Ho. eauto.
  - intros c Hc. apply (consistent_registered _ _ _ Hs). unfold idle. by rewrite Ho.
  - intros o Hin. apply (consistent_under_way _ _ _ Hs). by rewrite Ho.
Qed.

Lemma consistent_manager s held ops m held' :
  consistent s held ops → counted m (references_of held' ops) → bounded m →
  connections_ m = connections_ (connection_manager s) →
  consistent (with_manager s m) held' ops.
Proof.
  intros Hs Hc Hb Hl. split; cbn; [done|done|rewrite Hl; eauto|eauto| |].
  - intros c. rewrite Hl. apply (consistent_registered _ _ _ Hs).
  - intros o Ho. apply (consistent_under_way _ _ _ Hs) in Ho.
    destruct o; cbn in *; by rewrite Hl.
Qed.

(** a call under way keeps its connection alive *)
Lemma under_way_referenced s held ops o :
  consistent s held ops → o ∈ ops →
  subject o ∈ connections_ (connection_manager s) ++ references_of held ops.
Proof.
  intros Hs Ho. pose proof (consistent_under_way _ _ _ Hs o Ho) as Hu.
  apply elem_of_app. destruct o; cbn in *; [right|right|left; tauto|left; tauto];
    apply elem_of_app; left; apply list_elem_of_bind; eexists; (split; [|exact Ho]); by left.
Qed.

Lemma flag_referenced s held ops c :
  consistent s held ops → c ∈ isRegistered_ s →
  c ∈ connections_ (connection_manager s) ++ references_of held ops.
Proof.
  intros Hs Hc. destruct (decide (c ∈ subject <$> ops)) as [Hin|Hout].
  - apply list_elem_of_fmap in Hin as (o & -> & Ho). by eapply under_way_referenced.
  - apply (consistent_registered _ _ _ Hs) in Hc; [|done]. set_solver.
Qed.

Lemma destructor_consistent c s held ops : consistent s held ops → destructor c s = Ok s.
Proof.
  intros Hs. unfold destructor. destruct (references _ _) eqn:Hr; [done|].
  rewrite bool_decide_false; [done|]. intros Hc%(flag_referenced _ held ops); [|done].
  by rewrite (counted_alive _ (references_of held ops)) in Hr by eauto.
Qed.

(** A step of a call: it concerns its connection only. *)
Lemma consistent_next s s' held held' o next ops :
  consistent s held (o :: ops) →
  counted (connection_manager s') (references_of held' (next ++ ops)) →
  bounded (connection_manager s') → NoDup (connections_ (connection_manager s')) →
  (∀ d, d ≠ subject o → (d ∈ isRegistered_ s' ↔ d ∈ isRegistered_ s) ∧
     (d ∈ connections_ (connection_manager s') ↔ d ∈ connections_ (connection_manager s))) →
  match next with
  | [] => subject o ∈ isRegistered_ s' ↔ subject o ∈ connections_ (connection_manager s')
  | o' :: t => t = [] ∧ subject o' = subject o ∧ under_way o' s'
  end →
  consistent s' held' (next ++ ops).
Proof.
  intros Hs Hc Hb Hn Hother Hnext.
  pose proof (consistent_exclusive _ _ _ Hs) as Hx. rewrite fmap_cons in Hx.
  apply NoDup_cons in Hx as [Hx1 Hx2].
  assert (Hops : ∀ p, p ∈ ops → under_way p s').
  { intros p Hp. pose proof (consistent_under_way _ _ _ Hs p ltac:(by right)) as Hu.
    destruct (Hother (subject p)) as [Hf Hl].
    { intros Heq. apply Hx1. rewrite <- Heq. by apply list_elem_of_fmap_2. }
    destruct p; cbn in *; by rewrite Hf, Hl. }
  assert (Hidle : ∀ d, d ≠ subject o → idle d ops →
    (d ∈ isRegistered_ s' ↔ d ∈ connections_ (connection_manager s'))).
  { intros d Hd Hi. destruct (Hother d Hd) as [-> ->]. apply (consistent_registered _ _ _ Hs).
    by apply idle_cons. }
  destruct next as [|o' t].
  - split; cbn; [done..| |done]. intros d Hd.
    destruct (decide (d = subject o)) as [->|]; [done|by apply Hidle].
  - destruct Hnext as (-> & Hsub & Hu). split; cbn; [done..| | |].
    + rewrite Hsub. by apply NoDup_cons.
    + intros d [Hd Hi]%idle_cons. rewrite Hsub in Hd. by apply Hidle.
    + intros p [->|Hp]%elem_of_cons; [done|by apply Hops].
Qed.

Lemma create_consistent s held ops c :
  consistent s held ops → references c (refs (connection_manager s)) = None →
  consistent (Net_ConnectionBase c s) (c :: held) ops.
Proof.
  intros Hs Hc.
  assert (Hout : c ∉ connections_ (connection_manager s) ++ references_of held ops).
  { intros Hin. by rewrite (counted_alive _ (references_of held ops)) in Hc by eauto. }
  assert (Hflag : c ∉ isRegistered_ s) by (by intros ?%(flag_referenced _ held ops)).
  assert (Hsame : set_registered c false (isRegistered_ s) = isRegistered_ s)
    by (cbn; set_solver).
  unfold Net_ConnectionBase. rewrite Hsame.
  apply (consistent_manager s held); [done| |exact (consistent_bounded _ _ _ Hs)|done].
  eapply counted_permutation; [by apply create_counted; [apply (consistent_counted _ _ _ Hs)|]|].
  unfold references_of. by rewrite Permutation_middle.
Qed.

(** *** The steps of [register_ ()] *)
Lemma register_check_consistent s held ops c :
  consistent s (c :: held) ops → idle c ops → c ∉ isRegistered_ s →
  register_check c s = Ok tt ∧ consistent s held (Register_manager c :: ops).
Proof.
  intros Hs Hi Hf.
  assert (Hc : counted (connection_manager s) (references_of held (Register_manager c :: ops))).
  { eapply counted_permutation; [eauto|]. unfold references_of. cbn.
    by rewrite <- Permutation_middle. }
  split.
  - unfold register_check, alive.
    rewrite (counted_alive _ _ _ Hc) by (unfold references_of; cbn; set_solver).
    by cbn; rewrite bool_decide_false by done.
  - split; [done|eauto..| | |].
    + cbn. apply NoDup_cons. eauto.
    + intros d [_ Hd]%idle_cons. by apply (consistent_registered _ _ _ Hs).
    + intros o [->|Ho]%elem_of_cons; [|by apply (consistent_under_way _ _ _ Hs)].
      cbn. by rewrite <- (consistent_registered _ _ _ Hs).
Qed.

Lemma register_manager_consistent s held ops c :
  consistent s held (Register_manager c :: ops) →
  ∃ s' ok, register_manager c s = Ok (s', ok) ∧
    consistent s' held (Register_store c ok :: ops) ∧
    connections_ (connection_manager s') =
      connections_ (connection_manager s) ++ (if ok : bool then [c] else []).
Proof.
  intros Hs. pose proof (consistent_under_way _ _ _ Hs _ (elem_of_head _ _)) as [Hf Hout].
  unfold register_manager, alive.
  rewrite (counted_alive _ (references_of held (Register_manager c :: ops)))
    by (eauto || (unfold references_of; cbn; set_solver)).
  cbn [deref from_option mbind outcome_bind].
  destruct (register_counted insert_tail (connection_manager s)
    (references_of held (Register_manager c :: ops)) c)
    as (m & ok & -> & Hm & Hb & Hl); [eauto..|unfold references_of; cbn; set_solver|].
  eexists _, ok. split; [reflexivity|]. split; [|done].
  apply (consistent_next s _ held held _ [Register_store c ok] ops Hs); cbn; [done|done| | |].
  - rewrite Hl. apply NoDup_app. split_and!; [eauto| |destruct ok; repeat constructor; set_solver].
    destruct ok; set_solver.
  - intros d Hd. rewrite Hl. destruct ok; set_solver.
  - rewrite Hl. destruct ok; set_solver.
Qed.

Lemma register_store_consistent s held ops c ok :
  consistent s held (Register_store c ok :: ops) →
  ∃ s', register_store c ok s = Ok s' ∧ consistent s' (c :: held) ops ∧
    connection_manager s' = connection_manager s.
Proof.
  intros Hs. pose proof (consistent_under_way _ _ _ Hs _ (elem_of_head _ _)) as [Hf Hiff].
  unfold register_store, alive.
  rewrite (counted_alive _ (references_of held (Register_store c ok :: ops)))
    by (eauto || (unfold references_of; cbn; set_solver)).
  cbn [deref from_option mbind outcome_bind]. eexists. split; [reflexivity|]. split; [|done].
  apply (consistent_next s _ held (c :: held) _ [] ops Hs); cbn; [|eauto..| |].
  - eapply counted_permutation; [eauto|]. unfold references_of. cbn.
    by rewrite <- Permutation_middle.
  - intros d Hd. destruct ok; cbn; set_solver.
  - rewrite Hiff. destruct ok; cbn; set_solver.
Qed.

(** *** The steps of [deregister ()] *)
Lemma deregister_check_consistent s held ops c :
  consistent s held ops → idle c ops →
  c ∈ connections_ (connection_manager s) ++ references_of held ops →
  deregister_check c s = Ok (bool_decide (c ∈ isRegistered_ s)) ∧
  (c ∈ isRegistered_ s → consistent s held (Deregister_store c :: ops)).
Proof.
  intros Hs Hi Hc. split.
  - unfold deregister_check, alive. by rewrite (counted_alive _ (references_of held ops)) by eauto.
  - intros Hf. split; [apply (consistent_counted _ _ _ Hs)|eauto..| | |].
    + cbn. apply NoDup_cons. eauto.
    + intros d [_ Hd]%idle_cons. by apply (consistent_registered _ _ _ Hs).
    + intros o [->|Ho]%elem_of_cons; [|by apply (consistent_under_way _ _ _ Hs)].
      cbn. by rewrite <- (consistent_registered _ _ _ Hs).
Qed.

Lemma deregister_store_consistent s held ops c :
  consistent s held (Deregister_store c :: ops) →
  ∃ s', deregister_store c s = Ok s' ∧ consistent s' held (Deregister_manager c :: ops) ∧
    connection_manager s' = connection_manager s.
Proof.
  intros Hs. pose proof (consistent_under_way _ _ _ Hs _ (elem_of_head _ _)) as [Hf Hin].
  unfold deregister_store, alive.
  rewrite (counted_alive _ (references_of held (Deregister_store c :: ops)))
    by (eauto || (unfold references_of; cbn; set_solver)).
  cbn [deref from_option mbind outcome_bind]. eexists. split; [reflexivity|]. split; [|done].
  apply (consistent_next s _ held held _ [Deregister_manager c] ops Hs); cbn;
    [apply (consistent_counted _ _ _ Hs)|eauto..| |]; set_solver.
Qed.

Lemma deregister_manager_consistent s held ops c :
  consistent s held (Deregister_manager c :: ops) →
  ∃ s', deregister_manager c s = Ok s' ∧ consistent s' held ops ∧
    connections_ (connection_manager s') = remove_first c (connections_ (connection_manager s)).
Proof.
  intros Hs. pose proof (consistent_under_way _ _ _ Hs _ (elem_of_head _ _)) as [Hf Hin].
  unfold deregister_manager.
  destruct (deregister_counted (connection_manager s)
    (references_of held (Deregister_manager c :: ops)) c)
    as (m & -> & Hm & Hb & Hl); [eauto..|set_solver|].
  assert (Hs' : consistent (System m (isRegistered_ s)) held ops).
  { apply (consistent_next s _ held held _ [] ops Hs); cbn; [done|done| | |].
    - rewrite Hl. eapply sublist_NoDup; [|apply remove_first_sublist]. eauto.
    - intros d Hd. rewrite Hl, elem_of_remove_first by eauto. cbn in Hd. tauto.
    - rewrite Hl, elem_of_remove_first by eauto. cbn in Hf. tauto. }
  cbn [mbind outcome_bind]. rewrite (destructor_consistent c _ held ops) by done. eauto.
Qed.

Lemma advance_consistent s held ops o :
  consistent s held (o :: ops) →
  ∃ s' back next, advance o s = Ok (s', back, next) ∧ consistent s' (back ++ held) (next ++ ops).
Proof.
  intros Hs. destruct o as [c|c ok|c|c]; cbn [advance].
  - destruct (register_manager_consistent s held ops c Hs) as (s' & ok & -> & ? & _).
    by eexists _, [], [_].
  - destruct (register_store_consistent s held ops c ok Hs) as (s' & -> & ? & _).
    by eexists _, [c], [].
  - destruct (deregister_store_consistent s held ops c Hs) as (s' & -> & ? & _).
    by eexists _, [], [_].
  - destruct (deregister_manager_consistent s held ops c Hs) as (s' & -> & ? & _).
    by eexists _, [], [].
Qed.

(** *** The calls as a whole *)
Lemma connection_register_consistent s held ops c :
  consistent s (c :: held) ops → idle c ops → c ∉ isRegistered_ s →
  ∃ s' ok, connection_register c s = Ok (s', ok) ∧ consistent s' (c :: held) ops ∧
    connections_ (connection_manager s') =
      connections_ (connection_manager s) ++ (if ok : bool then [c] else []).
Proof.
  intros Hs Hi Hf. unfold connection_register.
  destruct (register_check_consistent s held ops c Hs Hi Hf) as [-> H1].
  destruct (register_manager_consistent s held ops c H1) as (s2 & ok & E & H2 & Hl).
  destruct (register_store_consistent s2 held ops c ok H2) as (s3 & E3 & H3 & Hm).
  cbn [mbind outcome_bind]. rewrite E. cbn [mbind outcome_bind fst snd].
  rewrite E3. cbn [mbind outcome_bind]. exists s3, ok. by rewrite Hm.
Qed.

Lemma connection_deregister_consistent s held ops c :
  consistent s held ops → idle c ops →
  c ∈ connections_ (connection_manager s) ++ references_of held ops →
  ∃ s' ns, connection_deregister c s = Ok (s', ns) ∧ consistent s' held ops ∧
    connections_ (connection_manager s') = remove_first c (connections_ (connection_manager s)).
Proof.
  intros Hs Hi Hc. unfold connection_deregister.
  destruct (deregister_check_consistent s held ops c Hs Hi Hc) as [-> H1].
  cbn [mbind outcome_bind]. destruct (bool_decide_reflect (c ∈ isRegistered_ s)) as [Hf|Hf];
    cbn [negb].
  - destruct (deregister_store_consistent s held ops c (H1 Hf)) as (s2 & -> & H2 & Hm).
    destruct (deregister_manager_consistent s2 held ops c H2) as (s3 & E & H3 & Hl).
    cbn [mbind outcome_bind]. rewrite E. cbn [mbind outcome_bind].
    eexists _, _. split; [reflexivity|]. by rewrite <- Hm.
  - exists s, []. rewrite remove_first_notin; [done|].
    by rewrite <- (consistent_registered _ _ _ Hs).
Qed.

Lemma connection_decrease_consistent s held ops c :
  consistent s (c :: held) ops → ∃ s', connection_decrease c s = Ok s' ∧ consistent s' held ops.
Proof.
  intros Hs. unfold connection_decrease.
  assert (Hc : counted (connection_manager s) (c :: references_of held ops)).
  { eapply counted_permutation; [eauto|]. unfold references_of. by rewrite <- Permutation_middle. }
  destruct (decrease_counted _ _ _ Hc) as (r & -> & Hr).
  assert (Hs' : consistent (with_manager s (set_refs (connection_manager s) r)) held ops).
  { by apply (consistent_manager s (c :: held)); [| |apply (consistent_bounded _ _ _ Hs)|]. }
  cbn [mbind outcome_bind]. unfold with_manager in Hs'.
  rewrite (destructor_consistent c _ held ops) by done. by eexists.
Qed.

Lemma lookup_consistent s held ops p m r :
  consistent s held ops → (∀ c, p = Some c → c ∈ connections_ (connection_manager s)) →
  return_increased p (connection_manager s) = Ok (m, r) →
  consistent (with_manager s m) (option_list r ++ held) ops.
Proof.
  intros Hs Hp Hr.
  destruct (return_increased_counted (connection_manager s) (references_of held ops) p)
    as (m1 & E & Hc & Hl & Hm); [eauto|done|].
  rewrite E in Hr. simplify_eq. apply (consistent_manager s held); [done| | |done].
  - eapply counted_permutation; [exact Hc|]. unfold references_of. by rewrite Permutation_app_swap_app.
  - unfold bounded. rewrite Hl, Hm. by apply (consistent_bounded _ _ _ Hs).
Qed.

Context (next_keeps_or_clears : ∀ p, next_at_end p = p ∨ next_at_end p = None).

Lemma step_consistent s held ops s' held' ops' :
  step true (s, held, ops) (s', held', ops') →
  consistent s held ops → consistent s' held' ops'.
Proof.
  intros Hstep Hs. inversion Hstep; subst.
  - by apply create_consistent.
  - eapply register_check_consistent; [|auto..].
    by eapply consistent_permutation.
  - edestruct (deregister_check_consistent s' held' ops c) as [E Hd];
      [done|auto|by eapply alive_counted; eauto|].
    rewrite E in *. simplify_eq. case_bool_decide; auto.
  - edestruct (advance_consistent s held ops'0 o) as (s1 & b1 & n1 & E & H1);
      [by eapply consistent_permutation|].
    rewrite E in *. by simplify_eq.
  - edestruct (connection_decrease_consistent s held' ops' c) as (s1 & E & H1);
      [by eapply consistent_permutation|].
    rewrite E in *. by simplify_eq.
  - eapply lookup_consistent; [done| |done]. intros c. apply find_connection_elem.
  - eapply lookup_consistent; [done| |done]. intros c. apply find_connection_elem.
  - eapply lookup_consistent; [done| |done]. intros c. by apply operator_index_elem.
  - destruct (gather_counted insert_tail f (connection_manager s) (references_of held ops')
      (connections_ (connection_manager s)) [] m (Some l)) as (Hl & Hm & t & Ht & _ & Hd & _);
      [eauto|done|done|].
    subst. apply (consistent_manager s held); [done| | |done].
    + eapply counted_permutation; [done|]. unfold references_of.
      by rewrite Permutation_app_swap_app.
    + unfold bounded. rewrite Hl, Hm. by apply (consistent_bounded _ _ _ Hs).
  - apply (consistent_manager s held'); unfold start; destruct (timer_id =? -1);
      by (done || apply (consistent_counted _ _ _ Hs) || apply (consistent_bounded _ _ _ Hs)).
  - by apply (consistent_manager s held');
      [|apply (consistent_counted _ _ _ Hs)|apply (consistent_bounded _ _ _ Hs)|].
Qed.

Definition initial (max : Z) (r0 : R) : configuration :=
  (System (initialize max (Net_Connection_Manager r0)) ∅, [], []).

Lemma reachable_consistent (max : Z) (r0 : R) s held ops :
  0 <= max → (∀ c, references c r0 = None) →
  rtc (step true) (initial max r0) (s, held, ops) → consistent s held ops.
Proof.
  intros Hmax Hr0 Hreach.
  assert (H0 : consistent (System (initialize max (Net_Connection_Manager r0)) ∅) [] []).
  { split; cbn; [intros c; cbn; apply Hr0|exact Hmax|constructor|constructor| |].
    - intros c _. split; [by intros ?%elem_of_empty|by intros ?%elem_of_nil].
    - by intros o ?%elem_of_nil. }
  unfold initial in Hreach. revert H0.
  generalize (System (initialize max (Net_Connection_Manager r0)) ∅) (@nil C) (@nil operation)
    Hreach.
  intros s0 held0 ops0 Hr. remember (s0, held0, ops0) as x eqn:Ex.
  remember (s, held, ops) as y eqn:Ey. revert s0 held0 ops0 Ex. clear Hreach.
  induction Hr as [x|x [[s1 held1] ops1] z Hxy _ IH]; intros s0 held0 ops0 Ex H0; subst.
  - by simplify_eq.
  - eapply IH; [done..|]. by eapply step_consistent.
Qed.

(** C10: connections and their manager are safe in any interleaving of the creation,
    registration, deregistration, lookup and release of connections with aborts, starts
    and stops, where a registration (deregistration) is not one step: the test of
    isRegistered_, the call of the manager and the store to isRegistered_ are separate
    steps, with those of other threads in between.  The condition is that no thread
    begins to register or to deregister a connection while another thread registers or
    deregisters the same one (the flag has no lock: deregistration_lost and
    double_deregistration are the races without it).  The count of each connection is
    exactly the number of references to it, so it is deleted exactly when nobody refers
    to it; it is registered at most once, exactly while the flag is set unless a call is
    under way, and never more connections are registered than the maximum.  Every call
    under way can go on; when none is under way for it, a connection that is alive can
    deregister, and one that is held and not registered can register; one that is held
    can be released, and lookups return: no step reaches a deleted connection or fails
    an assertion. *)
Theorem connections_safe (max : Z) (Hmax : 0 <= max) (r0 : R)
    (Hr0 : ∀ c, references c r0 = None) s held ops
    (Hreach : rtc (step true) (initial max r0) (s, held, ops)) :
  let m := connection_manager s in
  (∀ c, references c (refs m) =
     let n := occ c (connections_ m ++ references_of held ops) in
     if n =? 0 then None else Some n) ∧
  NoDup (connections_ m) ∧
  zlen (connections_ m) <= maximumNumberOfConnections_ m ∧
  (∀ c, idle c ops → (c ∈ isRegistered_ s ↔ c ∈ connections_ m)) ∧
  (∀ o, o ∈ ops → under_way o s ∧ ∃ s' back next, advance o s = Ok (s', back, next)) ∧
  (∀ c n, idle c ops → references c (refs m) = Some n →
     ∃ s' ns, connection_deregister c s = Ok (s', ns) ∧
     connections_ (connection_manager s') = remove_first c (connections_ m)) ∧
  (∀ c, idle c ops → c ∈ held → c ∉ isRegistered_ s →
     ∃ s' ok, connection_register c s = Ok (s', ok) ∧
     connections_ (connection_manager s') =
       connections_ m ++ (if ok : bool then [c] else [])) ∧
  (∀ c, c ∈ held → ∃ s', connection_decrease c s = Ok s') ∧
  (∀ h, ∃ m' p, get_handle id h m = Ok (m', p)) ∧
  (∀ i, ∃ m' p, operator_index next_at_end i m = Ok (m', p)).
Proof.
  pose proof (reachable_consistent max r0 s held ops Hmax Hr0 Hreach) as Hs. cbn zeta.
  split; [apply (consistent_counted _ _ _ Hs)|].
  split; [eauto|]. split; [apply (consistent_bounded _ _ _ Hs)|].
  split; [apply (consistent_registered _ _ _ Hs)|]. split_and!.
  - intros o Ho. split; [by apply (consistent_under_way _ _ _ Hs)|].
    apply elem_of_Permutation in Ho as [ops' Hp].
    destruct (advance_consistent s held ops' o) as (s' & b & n & E & _); [|eauto].
    by eapply consistent_permutation.
  - intros c n Hi Hc. destruct (connection_deregister_consistent s held ops c)
      as (s' & ns & E & _ & Hl); [done|done|eapply alive_counted; eauto|eauto].
  - intros c Hi [held' Hp]%elem_of_Permutation Hr.
    destruct (connection_register_consistent s held' ops c) as (s' & ok & E & _ & Hl); eauto.
    by eapply consistent_permutation.
  - intros c [held' Hp]%elem_of_Permutation.
    destruct (connection_decrease_consistent s held' ops c) as (s' & E & _); [|eauto].
    by eapply consistent_permutation.
  - intros h. edestruct (return_increased_counted (connection_manager s))
      as (m' & E & _); [eauto| |eauto]. intros c. apply find_connection_elem.
  - intros i. edestruct (return_increased_counted (connection_manager s))
      as (m' & E & _); [eauto| |eauto]. intros c. by apply operator_index_elem.
Qed.
End Connection.

(** ** A run of two threads, and the races *)
Definition sample_step := step (C := Z) (R := gmap Z Z)
  (λ _ _, true) Datatypes.id Datatypes.id Datatypes.id Datatypes.id.
Definition sample_start := initial (C := Z) (R := gmap Z Z) 2 ∅.
Definition sample_system : system (C := Z) (R := gmap Z Z) :=
  System (Manager [7] (<[7 := 2]> (<[7 := 1]> ∅)) true true 2 (-1)) ∅.

(** a connection is created, and its registration has got as far as the manager *)
Lemma sample_registering exclusive :
  rtc (sample_step exclusive) sample_start (sample_system, [], [Register_store 7 true]).
Proof.
  eapply rtc_l; [apply step_new with (c := 7); by vm_compute|].
  eapply rtc_l; [apply step_register with (c := 7) (held' := []); [done| | |by vm_compute]|].
  { by apply (bool_decide_unpack _). }
  { intros _. by apply not_elem_of_nil. }
  eapply rtc_l; [|apply rtc_refl].
  by apply step_advance with (ops' := []) (o := Register_manager 7) (s' := sample_system)
    (back := []) (next := [Register_store 7 true]); [|vm_compute].
Qed.

Lemma connections_safe_witness :
  (0 <= 2 ∧ ∀ c : Z, (∅ : gmap Z Z) !! c = None) ∧
  rtc (sample_step true) sample_start (sample_system, [], [Register_store 7 true]) ∧
  references 7 (refs (connection_manager sample_system)) = Some 2.
Proof.
  split; [split; [lia|intros c; apply lookup_empty]|].
  split; [exact (sample_registering true)|].
  destruct (connections_safe (λ _, false) (λ _, true) Datatypes.id (λ _ _, true)
    Datatypes.id Datatypes.id Datatypes.id Datatypes.id ltac:(by left) 2 ltac:(lia)
    (∅ : gmap Z Z) (λ c, lookup_empty c) sample_system [] [Register_store 7 true]
    (sample_registering true)) as [Hcount _].
  exact (Hcount 7).
Defined.

(** A deregistration while the registration is between the call of the manager and the
    store to the flag: [deregister ()] finds the flag unset and returns, and the
    connection, which is about to be closed, stays registered for good. *)
Example deregistration_lost :
  7 ∈ connections_ (connection_manager sample_system) ∧
  rtc (sample_step false) sample_start (sample_system, [], [Register_store 7 true]) ∧
  connection_deregister (R := gmap Z Z) (λ _, false) (λ _, true) Datatypes.id 7 sample_system
    = Ok (sample_system, []) ∧
  ∃ s', rtc (sample_step false) (sample_system, [], [Register_store 7 true]) (s', [7], []) ∧
    7 ∈ isRegistered_ s' ∧ 7 ∈ connections_ (connection_manager s').
Proof.
  split; [by left|]. split; [exact (sample_registering false)|]. split; [by vm_compute|].
  exists (System (connection_manager sample_system) {[7]}). split_and!; [|set_solver|by left].
  eapply rtc_l.
  { by apply step_deregister with (c := 7) (b := false) (n := 2); [|intros []|]. }
  eapply rtc_l; [|apply rtc_refl].
  by apply step_advance with (ops' := []) (o := Register_store 7 true) (back := [7]) (next := []).
Qed.

(** Two threads that deregister a connection which only the manager refers to: both find
    the flag set, the first deletes the connection, and the second stores to it. *)
Example double_deregistration :
  ∃ s, rtc (sample_step false) sample_start (s, [], [Deregister_store 7]) ∧
    references 7 (refs (connection_manager s)) = None ∧
    advance (R := gmap Z Z) (λ _ _, true) (Deregister_store 7) s = Undef.
Proof.
  eexists. split.
  - etrans; [exact (sample_registering false)|].
    eapply rtc_l; [apply step_advance with (ops' := []) (o := Register_store 7 true)
      (back := [7]) (next := []); [done|by vm_compute]|].
    eapply rtc_l; [apply step_release with (c := 7) (held' := []); [done|by vm_compute]|].
    eapply rtc_l; [by apply step_deregister with (c := 7) (b := true) (n := 1); [|intros []|]|].
    eapply rtc_l; [by apply step_deregister with (c := 7) (b := true) (n := 1); [|intros []|]|].
    eapply rtc_l; [apply step_advance with (ops' := [Deregister_store 7])
      (o := Deregister_store 7) (back := []) (next := [Deregister_manager 7]);
      [done|by vm_compute]|].
    eapply rtc_l; [apply step_advance with (ops' := [Deregister_store 7])
      (o := Deregister_manager 7) (back := []) (next := []); [done|by vm_compute]|].
    apply rtc_refl.
  - by vm_compute.
Qed.
